(* ===== verification/_CoqProject ===== *)
-Q . S2P
Prelude.v
Utf8.v
BrokerWire.v
BrokerClient.v
Json.v
Peer.v
PeerCrypto.v
Certificate.v
Api.v
Coordinator.v
Target.v
Juice.v
Ws.v
Control.v
ControlLoop.v
AuthTime.v
Auth.v
AuthService.v
AuthSystem.v
Server.v
Lineage.v
LineageSystem.v
MapUdp.v
MapFlow.v
MapV2.v
MapTcp.v
MapLink.v
MapTable.v
MapGuard.v
MapOpen.v
MapEngine.v
PeerLife.v
