(* ===== verification/Prelude.v ===== *)
(** * oheco-broker: the native C engine

    oheco-broker forwards ports between two machines.  A Go management service keeps accounts and
    relays signalling; the C engine under src/sdk/c connects the two machines directly over ICE and
    QUIC and forwards TCP and UDP.  The same directory has the client of a local command broker
    that runs processes.  This library models that C code and proves what its parts promise.

    ** Parts of the program and the files that model them

    The command broker client (src/sdk/c/oheco_broker.c, .h) talks to a local service over one
    socket per process:
    - Utf8.v: the two UTF-8 validators, [utf8] in oheco_broker.c and in ob_ws.c;
    - BrokerWire.v: [encode_start], endpoint discovery, and the service's decoders of
      src/internal/protocol/protocol.go (module [Service]) as the encoder's counterpart;
    - BrokerClient.v: the process handle [ob_process] and its operations.  The operating system is a
      record that answers each call at a tick; a theorem over all such records covers every schedule.

    The peer library (src/sdk/c/remote) runs three threads per handle [ob_remote_peer]: the
    coordinator opens control sessions and paces attempts, the setup worker agrees on keys and
    establishes ICE for one attempt, and the I/O thread owns QUIC and all flows:
    - Json.v (ob_json.c), Api.v (ob_api.c), Ws.v (ob_ws.c): the clients of the management service;
    - Peer.v (ob_remote.c, peer/recovery.c): the handle [ob_remote_peer], its failures, its
      recovery policy and state reports;
    - PeerCrypto.v (peer/crypto.c): derived keys, MACs, proofs, the transport-parameter policy;
      Certificate.v: the ephemeral certificate in files, and their removal;
    - Coordinator.v (peer/coordinator.c): the session transaction and the attempts;
    - Control.v (peer/control.c, ws_control.inc): signals, leases, [pake], [establish_ice];
    - ControlLoop.v (the rest of ws_control.inc and control.c): the tick of the control connection
      [peer_tick], requests [peer_rpc], and [ob_setup_worker] as a whole;
    - Server.v (peer/ws_server.inc, the server half of ob_remote.c and recovery.c): a served broker
      [ob_remote_server], its registration and the rounds of [ob_server_worker]; the step relation
      [broker_step] interleaves rounds, handles and the caller;
    - Target.v (peer/target.c): which address a broker may connect to;
    - Juice.v (tpr/libjuice/src/ice.c): how libjuice reads the candidates of a description, which the
      relay policy of control.c has to foresee, with the meaning of a candidate line.

    A client's connection outlives its sessions.  The coordinator proposes each session under a new
    generation, the service grants it at most once, and the broker learns of it from snapshots:
    - Lineage.v (module [Connections]): the service's side, src/internal/control/connections.go, with
      the rows it reads and writes, the authentication in front of it, the maintenance and the
      removal of a broker;
    - LineageSystem.v: coordinator, service and broker composed ([system_step]); requests are lost,
      repeated, served late or answered after the client gave up, snapshots are read at any time.

    An account client may refresh its tokens (src/sdk/c/remote/ob_auth.c, .h).  Three programs take
    part: the C manager, the storage callbacks of the command line and the service:
    - AuthTime.v: [timestamp], the instants of receipts, against a calendar;
    - Auth.v: the manager [ob_auth_manager], [rotate], the bearer tokens and the worker, for any
      storage (a record of operations on its own state) and any network;
    - AuthService.v: the service's transaction [refreshAuth] (module [Service], auth_refresh.go), the
      profile and its journal (module [Profile], auth_store.go), and the three composed, with
      crashes, lost messages and failing files at every point ([system_step]);
    - AuthSystem.v: the text of a receipt read back, and the theorems about the composition.

    The mapping layer (peer/mapping.c, mapping_v2.inc, mapping_recovery.inc) forwards the traffic:
    - MapUdp.v: fragments of UDP packets;
    - MapFlow.v: the flow record [mflow] (struct ob_flow), control frames, the memory budget;
    - MapV2.v: TCP under wire version 2, on one flow; MapTcp.v and MapLink.v: two ends of such a
      flow with the stream between them, its loss and its resumption;
    - MapTable.v: the whole layer on the peer [mpeer]: callbacks of QUIC, OPEN, RESUME and proof
      frames, version 1 TCP, listening maps, resolver jobs, ticks, suspension;
    - MapGuard.v: what each of those operations keeps; MapOpen.v: opening a flow, memory;
    - MapEngine.v (peer/engine.c): the rounds of the I/O thread, handshake, start and retirement of
      a transport, as a step relation [engine_step] with the states [reachable] from creation;
    - PeerLife.v: the other threads' operations are steps the relation allows, and the theorems
      about every reachable state.

    ** How code becomes definitions

    A C function is a function of the same name on the state it reads, with every early return.
    Bytes are integers 0..255 in [list Z]; fixed-width integers are [Z] with [u8], [u16], [u32] and
    [u64] where the code can wrap; a structure is a record, a flag a [bool].  Pointers into lists
    are keys.  What lies outside (system calls, clock, allocator, curl, cJSON, libjuice, xquic,
    BoringSSL) answers through arguments, in the order of the calls, so that every theorem
    quantifies over all their behaviour; calls into QUIC also take the callbacks they run.
    Cryptographic functions are parameters without assumptions: theorems speak about the bytes
    that are authenticated or compared, not about their strength; only the connection theorems
    assume that the identifiers and tokens a client draws were never used before and stay unknown
    to others, and that the connection's row is kept: the service deletes it only with its broker
    or after its owner's authority ended.  Loops are structural or have fuel that bounds
    them: the length of the text for scanners, the rounds the code itself allows (two control
    reads, thirty-two frame reads, two frames written per tick), the number of flows or maps at
    the start of a tick.  A loop that waits takes the list of its rounds, each with what it meets,
    and is [None] only while that list is used up.

    ** What the theorems show

    - Forwarding: TCP bytes arrive exactly once and in order across lost transports (C1,
      MapLink.v), UDP packets intact and at most once (C9, MapUdp.v), an OPEN frame
      becomes one resolution of the target it names (C20), memory stays in its budget
      (C29).
    - Authentication and limits of a peer in every reachable state: readiness needs the other
      side's connection proof (C2), identifiers and limits of flows
      (C6, PeerLife.v).
    - Sessions of a connection: client and service agree up to the one proposal under way
      (C4), client and broker on the session of a generation
      (C8), a lost grant is recovered without a second one
      by the first attempt the service admits, and stays proposed until then
      (C16), a closed connection grants nothing while its row exists,
      and the row goes only after its caller's authority or with its broker
      (C13).
    - Account refresh: no crash or loss costs the account (C3), an unfinished refresh is
      completed (C15), the manager keeps its type (C27), tokens handed out
      are live and a refused manager hands out none (C28), instants are read exactly
      (C26).
    - A served broker: sessions start only under a lease in force (C12), one handle
      each and within limits (C22).
    - The command client: whole frames are sent in a legal order and nothing once the
      connection is poisoned (C5), events
      are the frames read (C7), START decodes to the caller's options
      (C17), startup (C18), termination
      (C39), failures are final (C40).
    - Control: sessions are proposed once (C14), entered only on a reply that grants
      this connection a newer generation (C32), retried within bounds (C33); leases expire (C38);
      signals are in order and bear the MAC of their content (C21); results come once (C19); a reply is the one
      to its own request (C25), TURN credentials are requested once (C24); a control
      worker ends only with its handle halted (C23); buffers are bounded
      (C36); requests name what they should (C34); integers are read
      exactly (C35).
    - Policy: only admitted targets (C10), only relays when forced, as libjuice reads the
      lines (C11; the lines that evade the filter are [relay_filter_evaded]), no
      unencrypted QUIC (C30), no private key left behind
      (C31), failures of a handle are terminal
      (C37).
    Further theorems, without a number, cover encoders and parsers (BrokerWire.v), UTF-8 (Utf8.v), MACs,
    proofs, mirrored keys and hexadecimal (PeerCrypto.v), outages and policies (Peer.v), delays
    (Coordinator.v, Auth.v), the response buffer and repeated requests (Api.v) and the failures of a
    broker (Server.v).

    Most components have an invariant that every operation keeps ([table_inv] and [engine_inv] for
    the mapping layer, [heap_ok] for memory, [manager_ok], [authority_held] and [server_ok] for
    accounts and brokers, [agreed] for connections, the link invariant of MapTcp.v, the session
    invariants of BrokerClient.v and Ws.v); the theorems follow from it by induction over runs.

    ** Not modelled

    Signal masks around [send], thread creation and joining, erasing and
    freeing of memory, tracing and counters have no part in the properties.  The vendored libraries
    under src/sdk/c/tpr apart from the parser of Juice.v, the Go programs beyond the parts named above and the SDKs in other languages
    are other programs.  The scheduler is modelled at the granularity of the code's own critical
    sections: the I/O thread holds the peer's mutex for a round, the other threads act between
    rounds; a round of the broker's worker is one step. *)

From Stdlib Require Export Ascii String.
From stdpp Require Export base list option numbers.
#[global] Set Warnings "-postfix-notation-not-level-1".
#[global] Open Scope Z_scope.

(** ** Record update

    C code assigns single fields of large structures.  [x <| f := v |>] is the
    record [x] with field [f] replaced; [x <| f ::= g |>] applies [g] to it.  A
    record opts in with an [Eta] instance that lists its projections once. *)

Class Eta (R : Type) := eta : R -> R.
Class Setter {R A : Type} (f : R -> A) := upd : (A -> A) -> R -> R.
Arguments upd {R A} f {_} _ _ /.

Ltac build_setter f :=
  lazymatch type of f with
  | ?R -> _ =>
    let h := constr:(_ : Eta R) in
    let e := eval hnf in h in
    let r := constr:(fun g (x : R) =>
       ltac:(let t := eval cbv beta in (e x) in
             let t := eval pattern (f x) in t in
             lazymatch t with ?F _ =>
               let b := eval cbv beta in (F (g (f x))) in exact b end)) in
    exact r
  end.
#[export] Hint Extern 0 (Setter ?f) => build_setter f : typeclass_instances.

Declare Scope c_scope.
Delimit Scope c_scope with c.
Notation "x <| f := v |>" := (upd f (fun _ => v) x)
  (at level 12, f at next level, left associativity, format "x  <| f  :=  v |>") : c_scope.
Notation "x <| f ::= g |>" := (upd f g x)
  (at level 12, f at next level, left associativity, format "x  <| f  ::=  g |>") : c_scope.
#[global] Open Scope c_scope.

(** Rewrite every field of [f'] for which an equation is known. *)
Ltac old_fields f' :=
  repeat match goal with E : ?a = _ |- context [?a] => lazymatch a with context [f'] => rewrite E end end.

(** ** Machine integers

    Unsigned C integers are [Z] values reduced modulo their width. *)

Definition u8 (z : Z) : Z := z mod 2 ^ 8.
Definition u16 (z : Z) : Z := z mod 2 ^ 16.
Definition u32 (z : Z) : Z := z mod 2 ^ 32.
Definition u64 (z : Z) : Z := z mod 2 ^ 64.

Definition UINT32_MAX : Z := 2 ^ 32 - 1.
Definition UINT64_MAX : Z := 2 ^ 64 - 1.
Definition INT32_MAX : Z := 2 ^ 31 - 1.
Definition INT_MAX : Z := 2 ^ 31 - 1.
(** The largest integer every smaller integer of which a double holds exactly;
    the bound the control protocol puts on sequence numbers and generations. *)
Definition MAX_SAFE : Z := 9007199254740991.

(** A C condition is true when it is not zero. *)
Definition truth (z : Z) : bool := negb (z =? 0).
Definition b2z (b : bool) : Z := if b then 1 else 0.

Lemma u64_small z : 0 <= z <= UINT64_MAX -> u64 z = z.
Proof. unfold u64, UINT64_MAX. intros. apply Z.mod_small. lia. Qed.
Lemma u32_small z : 0 <= z <= UINT32_MAX -> u32 z = z.
Proof. unfold u32, UINT32_MAX. intros. apply Z.mod_small. lia. Qed.
Lemma u16_small z : 0 <= z < 65536 -> u16 z = z.
Proof. unfold u16. intros. apply Z.mod_small. lia. Qed.
Lemma u8_small z : 0 <= z < 256 -> u8 z = z.
Proof. unfold u8. intros. apply Z.mod_small. lia. Qed.
Lemma u64_range z : 0 <= u64 z <= UINT64_MAX.
Proof. unfold u64, UINT64_MAX. pose proof (Z.mod_pos_bound z (2 ^ 64)). lia. Qed.
Lemma u32_range z : 0 <= u32 z <= UINT32_MAX.
Proof. unfold u32, UINT32_MAX. pose proof (Z.mod_pos_bound z (2 ^ 32)). lia. Qed.
Lemma u8_range z : 0 <= u8 z < 256.
Proof. unfold u8. pose proof (Z.mod_pos_bound z (2 ^ 8)). lia. Qed.

(** ** Byte strings

    A byte is a [Z] in [0, 256); a C string is the list of its bytes without
    the terminating NUL. *)

Definition byte (b : Z) : Prop := 0 <= b < 256.
Definition bytes (l : list Z) : Prop := Forall byte l.
Definition zlen {A} (l : list A) : Z := Z.of_nat (length l).
Definition ztake {A} (n : Z) (l : list A) : list A := take (Z.to_nat n) l.
Definition zdrop {A} (n : Z) (l : list A) : list A := drop (Z.to_nat n) l.
(** [l[i]]; reading outside the array has no defined value, hence the option. *)
Definition zget {A} (l : list A) (i : Z) : option A :=
  if 0 <=? i then l !! Z.to_nat i else None.
(** [memcpy(out, l + off, n)]. *)
Definition zsub {A} (off n : Z) (l : list A) : list A := ztake n (zdrop off l).
(** [l[i]] for an index the surrounding code has checked; 0 stands for a read the
    code never performs. *)
Definition znth (l : list Z) (i : Z) : Z := default 0 (zget l i).

(** The bytes of a string literal. *)
Fixpoint lit (s : string) : list Z :=
  match s with
  | EmptyString => []
  | String a s => Z.of_N (N_of_ascii a) :: lit s
  end.

Fixpoint list_eqb (l k : list Z) : bool :=
  match l, k with
  | [], [] => true
  | x :: l, y :: k => (x =? y) && list_eqb l k
  | _, _ => false
  end.

Lemma list_eqb_eq l k : list_eqb l k = true <-> l = k.
Proof.
  revert k; induction l as [|x l IH]; intros [|y k]; simpl; split; intros H;
    try done.
  - apply andb_prop in H as [H1 H2]. apply Z.eqb_eq in H1. apply IH in H2. congruence.
  - inversion H; subst. rewrite Z.eqb_refl. by apply IH.
Qed.
Lemma list_eqb_refl l : list_eqb l l = true.
Proof. by apply list_eqb_eq. Qed.
Lemma list_eqb_neq l k : list_eqb l k = false <-> l <> k.
Proof. rewrite <- list_eqb_eq. by destruct (list_eqb l k). Qed.

Section lists.
Context {A : Type}.
Implicit Types l : list A.

Lemma zlen_nonneg l : 0 <= zlen l.
Proof. unfold zlen. lia. Qed.
Lemma zlen_app l k : zlen (l ++ k) = zlen l + zlen k.
Proof. unfold zlen. rewrite length_app. lia. Qed.
Lemma zlen_cons x l : zlen (x :: l) = 1 + zlen l.
Proof. unfold zlen. cbn [length]. lia. Qed.
Lemma zlen_snoc l x : zlen (l ++ [x]) = zlen l + 1.
Proof. rewrite zlen_app. done. Qed.
Lemma zlen_nil : zlen (@nil A) = 0.
Proof. done. Qed.
Lemma zlen_0 l : zlen l = 0 -> l = [].
Proof. destruct l; unfold zlen; cbn [length]; [done|lia]. Qed.
Lemma zlen_take n l : zlen (ztake n l) = Z.max 0 (Z.min n (zlen l)).
Proof. unfold zlen, ztake. rewrite length_take. lia. Qed.
Lemma zlen_drop n l : zlen (zdrop n l) = Z.max 0 (zlen l - Z.max 0 n).
Proof. unfold zlen, zdrop. rewrite length_drop. lia. Qed.
Lemma ztake_zdrop n l : ztake n l ++ zdrop n l = l.
Proof. apply take_drop. Qed.
Lemma ztake_app_exact l k n : n = zlen l -> ztake n (l ++ k) = l.
Proof. intros ->. unfold ztake, zlen. rewrite Nat2Z.id. apply take_app_length. Qed.
Lemma zdrop_app_exact l k n : n = zlen l -> zdrop n (l ++ k) = k.
Proof. intros ->. unfold zdrop, zlen. rewrite Nat2Z.id. apply drop_app_length. Qed.
Lemma ztake_app_le n l k : n <= zlen l -> ztake n (l ++ k) = ztake n l.
Proof. unfold ztake, zlen. intros. apply take_app_le. lia. Qed.
Lemma zdrop_app_le n l k : n <= zlen l -> zdrop n (l ++ k) = zdrop n l ++ k.
Proof. unfold zdrop, zlen. intros. apply drop_app_le. lia. Qed.
Lemma ztake_ge n l : zlen l <= n -> ztake n l = l.
Proof. unfold ztake, zlen. intros. apply take_ge. lia. Qed.
Lemma zdrop_ge n l : zlen l <= n -> zdrop n l = [].
Proof. unfold zdrop, zlen. intros. apply drop_ge. lia. Qed.
Lemma ztake_0 n l : n <= 0 -> ztake n l = [].
Proof. unfold ztake. intros. by replace (Z.to_nat n) with 0%nat by lia. Qed.
Lemma zdrop_0 n l : n <= 0 -> zdrop n l = l.
Proof. unfold zdrop. intros. by replace (Z.to_nat n) with 0%nat by lia. Qed.
Lemma zdrop_zdrop n m l : 0 <= n -> 0 <= m -> zdrop n (zdrop m l) = zdrop (n + m) l.
Proof. unfold zdrop. intros. rewrite drop_drop. f_equal. lia. Qed.
Lemma ztake_ztake n m l : ztake n (ztake m l) = ztake (Z.min n m) l.
Proof. unfold ztake. rewrite take_take. f_equal. lia. Qed.
Lemma zdrop_ztake n m l : 0 <= n -> zdrop n (ztake m l) = ztake (m - n) (zdrop n l).
Proof.
  unfold ztake, zdrop. intros. rewrite skipn_firstn_comm. f_equal. lia.
Qed.
Lemma ztake_add n m l :
  0 <= n -> 0 <= m -> ztake (n + m) l = ztake n l ++ zsub n m l.
Proof.
  intros. unfold zsub, ztake, zdrop. rewrite Z2Nat.inj_add by lia. symmetry. apply take_take_drop.
Qed.
Lemma zsub_zsub o n o' n' l :
  0 <= o -> 0 <= o' -> o' + n' <= n -> zsub o' n' (zsub o n l) = zsub (o + o') n' l.
Proof.
  intros. unfold zsub. rewrite zdrop_ztake by lia. rewrite ztake_ztake.
  rewrite zdrop_zdrop by lia. f_equal; [lia|]. f_equal. lia.
Qed.
Lemma zsub_app_l o n l k :
  0 <= o -> 0 <= n -> o + n <= zlen l -> zsub o n (l ++ k) = zsub o n l.
Proof.
  unfold zsub, ztake, zdrop, zlen. intros. rewrite drop_app_le by lia.
  apply take_app_le. rewrite length_drop. lia.
Qed.
Lemma zlen_sub o n l :
  0 <= o -> 0 <= n -> o + n <= zlen l -> zlen (zsub o n l) = n.
Proof. intros. unfold zsub. rewrite zlen_take, zlen_drop. lia. Qed.
Lemma zsub_split o n m l :
  0 <= o -> 0 <= n -> 0 <= m -> zsub o (n + m) l = zsub o n l ++ zsub (o + n) m l.
Proof.
  intros. unfold zsub at 1. rewrite ztake_add by lia. unfold zsub.
  rewrite zdrop_zdrop by lia. do 2 f_equal. f_equal. lia.
Qed.
Lemma zsub_all l n : n = zlen l -> zsub 0 n l = l.
Proof. intros ->. unfold zsub. rewrite zdrop_0, ztake_ge; [done|lia..]. Qed.
Lemma zget_Some l i x : zget l i = Some x -> 0 <= i < zlen l.
Proof.
  unfold zget, zlen. destruct (Z.leb_spec 0 i); [|done].
  intros ?%lookup_lt_Some. lia.
Qed.
End lists.

Lemma bytes_app l k : bytes (l ++ k) <-> bytes l /\ bytes k.
Proof. apply Forall_app. Qed.
Lemma bytes_take n l : bytes l -> bytes (ztake n l).
Proof. apply Forall_take. Qed.
Lemma bytes_drop n l : bytes l -> bytes (zdrop n l).
Proof. apply Forall_drop. Qed.
Lemma bytes_sub o n l : bytes l -> bytes (zsub o n l).
Proof. intros. by apply bytes_take, bytes_drop. Qed.

(** Injectivity without reducing the components: large structures stay folded. *)
Lemma pair_inj {A B} (a c : A) (b d : B) : (a, b) = (c, d) -> a = c /\ b = d.
Proof. by intros [= -> ->]. Qed.
Lemma some_pair_inj {A B} (a c : A) (b d : B) : Some (a, b) = Some (c, d) -> a = c /\ b = d.
Proof. by intros [= -> ->]. Qed.

(** ** Big-endian integers

    [be_put n v] is the loop that stores the low byte at the last position and
    shifts right; [be_get] the one that reads the bytes back. *)

Fixpoint be_put (n : nat) (v : Z) : list Z :=
  match n with
  | O => []
  | S n => be_put n (Z.shiftr v 8) ++ [u8 v]
  end.
Definition be_get (l : list Z) : Z := fold_left (fun n b => n * 256 + b) l 0.

Lemma be_get_snoc l b : be_get (l ++ [b]) = be_get l * 256 + b.
Proof. unfold be_get. by rewrite fold_left_app. Qed.
Lemma be_put_length n v : length (be_put n v) = n.
Proof. revert v; induction n; intros; simpl; [done|]. rewrite length_app, IHn. simpl. lia. Qed.
Lemma be_put_zlen n v : zlen (be_put n v) = Z.of_nat n.
Proof. unfold zlen. by rewrite be_put_length. Qed.
Lemma be_put_bytes n v : bytes (be_put n v).
Proof.
  revert v; induction n; intros; simpl; [constructor|].
  apply bytes_app; split; [done|]. constructor; [apply u8_range|constructor].
Qed.
Lemma be_get_put n v : be_get (be_put n v) = v mod 256 ^ Z.of_nat n.
Proof.
  revert v; induction n as [|n IH]; intros v; cbn [be_put].
  - simpl. by rewrite Z.mod_1_r.
  - rewrite be_get_snoc, IH. unfold u8. rewrite Z.shiftr_div_pow2 by lia.
    replace (256 ^ Z.of_nat (S n)) with (256 * 256 ^ Z.of_nat n)
      by (rewrite Nat2Z.inj_succ, Z.pow_succ_r by lia; lia).
    change (2 ^ 8) with 256.
    rewrite (Z.rem_mul_r v 256 (256 ^ Z.of_nat n)) by lia. lia.
Qed.
Lemma be_get_put_small n v : 0 <= v < 256 ^ Z.of_nat n -> be_get (be_put n v) = v.
Proof. intros. rewrite be_get_put. by apply Z.mod_small. Qed.
Lemma be_get_range l : bytes l -> 0 <= be_get l < 256 ^ zlen l.
Proof.
  induction l as [|b l IH] using rev_ind; intros Hb; [done|].
  apply bytes_app in Hb as [Hl Hb]. inversion Hb as [|? ? Hb' _]; subst.
  rewrite be_get_snoc, zlen_app. change (zlen [b]) with 1.
  rewrite Z.pow_add_r, Z.pow_1_r by (pose proof (zlen_nonneg l); lia).
  specialize (IH Hl). unfold byte in Hb'. lia.
Qed.
Lemma be_put_get l n : bytes l -> length l = n -> be_put n (be_get l) = l.
Proof.
  revert n; induction l as [|b l IH] using rev_ind; intros n Hb Hn; subst n; [done|].
  rewrite length_app. cbn [length]. rewrite Nat.add_1_r. cbn [be_put].
  apply bytes_app in Hb as [Hl Hb]. inversion Hb as [|? ? Hb' _]; subst.
  unfold byte in Hb'. rewrite be_get_snoc. f_equal.
  - rewrite Z.shiftr_div_pow2 by lia. change (2 ^ 8) with 256.
    rewrite Z.div_add_l, Z.div_small, Z.add_0_r by lia. by apply IH.
  - unfold u8. change (2 ^ 8) with 256.
    rewrite Z.add_comm, Z_mod_plus_full, Z.mod_small by lia. done.
Qed.
Lemma be_get_inj l k : bytes l -> bytes k -> length l = length k -> be_get l = be_get k -> l = k.
Proof.
  intros Hl Hk Hn H. rewrite <- (be_put_get l (length l)), <- (be_put_get k (length l)) by done.
  by rewrite H.
Qed.

(** A disjoint shift-or is an addition. *)
Lemma lor_shiftl_add a b k : 0 <= k -> 0 <= b < 2 ^ k -> Z.lor (Z.shiftl a k) b = a * 2 ^ k + b.
Proof.
  intros Hk Hb. rewrite <- Z.shiftl_mul_pow2 by lia. symmetry. apply Z.add_nocarry_lor.
  apply Z.bits_inj'. intros n Hn. rewrite Z.land_spec, Z.bits_0.
  destruct (Z.lt_ge_cases n k).
  - by rewrite Z.shiftl_spec_low.
  - rewrite (Z.testbit_eqb b) by lia. rewrite Z.div_small; [apply andb_false_r|].
    split; [lia|]. apply Z.lt_le_trans with (2 ^ k); [lia|]. apply Z.pow_le_mono_r; lia.
Qed.

(** ** State monad

    Operations that assign to shared structures are functions of the whole state.
    [ST S A] threads the state; [SO S A] may also run out of fuel ([None]), for
    loops the C code bounds only by a clock. *)

Definition ST (S A : Type) : Type := S -> A * S.
Definition SO (S A : Type) : Type := S -> option (A * S).
#[export] Instance ST_ret S : MRet (ST S) := fun A a s => (a, s).
#[export] Instance ST_bind S : MBind (ST S) := fun A B f c s => let r := c s in f r.1 r.2.
#[export] Instance SO_ret S : MRet (SO S) := fun A a s => Some (a, s).
#[export] Instance SO_bind S : MBind (SO S) :=
  fun A B f c s => match c s with Some (a, s') => f a s' | None => None end.

Definition get {S} : ST S S := fun s => (s, s).
Definition gets {S A} (f : S -> A) : ST S A := fun s => (f s, s).
Definition modify {S} (f : S -> S) : ST S unit := fun s => (tt, f s).
Definition when {S} (b : bool) (c : ST S unit) : ST S unit := if b then c else mret tt.
(** The same operations when the computation may run out of fuel. *)
Definition out_of_fuel {S A} : SO S A := fun _ => None.
Definition gets_o {S A} (f : S -> A) : SO S A := fun s => Some (f s, s).
Definition modify_o {S} (f : S -> S) : SO S unit := fun s => Some (tt, f s).
Definition when_o {S} (b : bool) (c : SO S unit) : SO S unit := if b then c else mret tt.
Definition lift {S A} (c : ST S A) : SO S A := fun s => Some (c s).
Arguments get {S} /. Arguments gets {S A} _ _ /. Arguments modify {S} _ _ /.

(** [hoare P c Q]: from a state with [P], [c] ends in a state and value with [Q]. *)
Definition hoare {S A} (P : S -> Prop) (c : ST S A) (Q : A -> S -> Prop) : Prop :=
  forall s, P s -> Q (c s).1 (c s).2.
(** [keeps R c]: [c] relates its initial to its final state by [R]. *)
Definition keeps {S A} (R : S -> S -> Prop) (c : ST S A) : Prop := forall s, R s (c s).2.

Section hoare.
Context {S : Type}.
Implicit Types (P : S -> Prop) (R : S -> S -> Prop).

Lemma hoare_ret {A} (a : A) P Q : (forall s, P s -> Q a s) -> hoare P (mret (M:=ST S) a) Q.
Proof. intros H s. apply H. Qed.
Lemma hoare_bind {A B} (c : ST S A) (f : A -> ST S B) P Q T :
  hoare P c Q -> (forall a, hoare (Q a) (f a) T) -> hoare P (mbind (M:=ST S) f c) T.
Proof. intros H1 H2 s Hs. apply H2. by apply H1. Qed.
Lemma hoare_weaken {A} (c : ST S A) P P' Q Q' :
  hoare P' c Q' -> (forall s, P s -> P' s) -> (forall a s, Q' a s -> Q a s) -> hoare P c Q.
Proof. intros H1 H2 H3 s Hs. by apply H3, H1, H2. Qed.
Lemma hoare_modify P Q f : (forall s, P s -> Q tt (f s)) -> hoare P (modify f) Q.
Proof. intros H s. apply H. Qed.
Lemma hoare_gets {A} (f : S -> A) P Q :
  (forall s, P s -> Q (f s) s) -> hoare P (gets f) Q.
Proof. intros H s. apply H. Qed.

Context (R : S -> S -> Prop) `{!PreOrder R}.
Lemma keeps_ret {A} (a : A) : keeps R (mret (M:=ST S) a).
Proof. intros s. reflexivity. Qed.
Lemma keeps_bind {A B} (c : ST S A) (f : A -> ST S B) :
  keeps R c -> (forall a, keeps R (f a)) -> keeps R (mbind (M:=ST S) f c).
Proof. intros H1 H2 s. transitivity (c s).2; [apply H1|apply H2]. Qed.
Lemma keeps_gets {A} (f : S -> A) : keeps R (gets f).
Proof. intros s. reflexivity. Qed.
Lemma keeps_modify f : (forall s, R s (f s)) -> keeps R (modify f).
Proof. intros H s. apply H. Qed.
Lemma keeps_if {A} (b : bool) (c d : ST S A) : keeps R c -> keeps R d -> keeps R (if b then c else d).
Proof. by destruct b. Qed.
Lemma keeps_when (b : bool) (c : ST S unit) : keeps R c -> keeps R (when b c).
Proof. destruct b; [done|intros _; apply keeps_ret]. Qed.
End hoare.

(** Lemmas about preservation by single operations go into this database; the
    tactic [keep] walks through a monadic body with it. *)
Create HintDb keeps discriminated.
Ltac keep :=
  repeat match goal with
  | |- keeps _ (mbind _ _) => apply keeps_bind; [exact _| |intros ?]
  | |- keeps _ (mret _) => apply keeps_ret; exact _
  | |- keeps _ (gets _) => apply keeps_gets; exact _
  | |- keeps _ get => apply (keeps_gets _ (fun s => s)); exact _
  | |- keeps _ (when _ _) => apply keeps_when; [exact _|]
  | |- keeps _ (if ?b then _ else _) => destruct b eqn:?
  | |- keeps _ (match ?x with _ => _ end) => destruct x eqn:?
  | |- keeps _ (let _ := _ in _) => cbv zeta
  | |- keeps _ _ => solve [eauto with keeps nocore]
  | |- keeps _ (modify _) => apply keeps_modify; intros ?
  end.

(** Case analysis on the boolean tests of a C condition. *)
Ltac bools :=
  repeat match goal with
  | H : andb _ _ = true |- _ => apply andb_true_iff in H as [? ?]
  | H : orb _ _ = false |- _ => apply orb_false_iff in H as [? ?]
  | H : negb _ = true |- _ => apply negb_true_iff in H
  | H : negb _ = false |- _ => apply negb_false_iff in H
  | H : (_ =? _) = true |- _ => apply Z.eqb_eq in H
  | H : (_ =? _) = false |- _ => apply Z.eqb_neq in H
  | H : (_ <? _) = true |- _ => apply Z.ltb_lt in H
  | H : (_ <? _) = false |- _ => apply Z.ltb_ge in H
  | H : (_ <=? _) = true |- _ => apply Z.leb_le in H
  | H : (_ <=? _) = false |- _ => apply Z.leb_gt in H
  | H : list_eqb _ _ = true |- _ => apply list_eqb_eq in H
  | H : list_eqb _ _ = false |- _ => apply list_eqb_neq in H
  end.
