(* ===== verification/Utf8.v ===== *)
(** * Strict UTF-8 validation

    The local broker client (src/sdk/c/oheco_broker.c) and the WebSocket frame
    reader (src/sdk/c/remote/ob_ws.c) each carry their own validator.  Both are
    modelled here; they are shown to accept exactly the encodings of sequences of
    nonzero Unicode scalar values, and hence to agree. *)

From S2P Require Import Prelude.

(** ** The validator of oheco_broker.c *)
Module BrokerUtf8.

(** The inner [while (more--)] loop: [more] continuation bytes are folded into
    [c].  Running out of input is the case [n - i < more] tested before the loop.
    [c] holds at most 3 + 18 bits, so the 32-bit shift never loses any. *)
Fixpoint continuation (more : nat) (c : Z) (s : list Z) : option (Z * list Z) :=
  match more with
  | O => Some (c, s)
  | S more =>
    match s with
    | [] => None
    | b :: s =>
      if negb (Z.land b 0xc0 =? 0x80) then None
      else continuation more (Z.lor (Z.shiftl c 6) (Z.land b 0x3f)) s
    end
  end.

(** The lead byte selects the number of continuation bytes, the minimum scalar of
    that length and the payload bits. *)
Definition lead (c : Z) : option (nat * Z * Z) :=
  if (0xc2 <=? c) && (c <=? 0xdf) then Some (1%nat, 0x80, Z.land c 0x1f)
  else if (0xe0 <=? c) && (c <=? 0xef) then Some (2%nat, 0x800, Z.land c 0x0f)
  else if (0xf0 <=? c) && (c <=? 0xf4) then Some (3%nat, 0x10000, Z.land c 7)
  else None.

(** One iteration of the outer loop: the unread input after one scalar. *)
Definition utf8_step (s : list Z) : option (list Z) :=
  match s with
  | [] => None
  | c :: s =>
    if c =? 0 then None
    else if c <? 0x80 then Some s
    else match lead c with
    | None => None
    | Some (more, minimum, c) =>
      if zlen s <? Z.of_nat more then None
      else match continuation more c s with
      | None => None
      | Some (c, s) =>
        if (c <? minimum) || (0x10ffff <? c) || ((0xd800 <=? c) && (c <=? 0xdfff))
        then None else Some s
      end
    end
  end.

Fixpoint utf8_loop (fuel : nat) (s : list Z) : bool :=
  match s, fuel with
  | [], _ => true
  | _, O => false
  | _, S fuel => match utf8_step s with Some s => utf8_loop fuel s | None => false end
  end.
(** Every iteration consumes at least one byte, so the length is enough fuel. *)
Definition utf8 (s : list Z) : bool := utf8_loop (length s) s.

End BrokerUtf8.

(** ** The validator of ob_ws.c *)
Module WsUtf8.

Fixpoint continuation (need : nat) (cp : Z) (s : list Z) : option (Z * list Z) :=
  match need with
  | O => Some (cp, s)
  | S need =>
    match s with
    | [] => None
    | c :: s =>
      if negb (Z.land c 0xc0 =? 0x80) then None
      else continuation need (Z.lor (Z.shiftl cp 6) (Z.land c 63)) s
    end
  end.

Definition lead (c : Z) : option (nat * Z * Z) :=
  if (0xc2 <=? c) && (c <=? 0xdf) then Some (1%nat, Z.land c 31, 128)
  else if (0xe0 <=? c) && (c <=? 0xef) then Some (2%nat, Z.land c 15, 2048)
  else if (0xf0 <=? c) && (c <=? 0xf4) then Some (3%nat, Z.land c 7, 65536)
  else None.

Fixpoint utf8_loop (fuel : nat) (s : list Z) : bool :=
  match s, fuel with
  | [], _ => true
  | _, O => false
  | c :: s, S fuel =>
    if c <? 128 then (if negb (truth c) then false else utf8_loop fuel s)
    else match lead c with
    | None => false
    | Some (need, cp, min) =>
      if zlen s <? Z.of_nat need then false
      else match continuation need cp s with
      | None => false
      | Some (cp, s) =>
        if (cp <? min) || (0x10ffff <? cp) || ((0xd800 <=? cp) && (cp <=? 0xdfff))
        then false else utf8_loop fuel s
      end
    end
  end.
Definition utf8 (s : list Z) : bool := utf8_loop (length s) s.

End WsUtf8.

(** ** Specification *)

(** A Unicode scalar value other than U+0000. *)
Definition scalar (c : Z) : Prop := 0 < c <= 0x10ffff /\ ~ (0xd800 <= c <= 0xdfff).

Definition encode (c : Z) : list Z :=
  if c <? 0x80 then [c]
  else if c <? 0x800 then [0xc0 + c / 64; 0x80 + c mod 64]
  else if c <? 0x10000 then [0xe0 + c / 4096; 0x80 + c / 64 mod 64; 0x80 + c mod 64]
  else [0xf0 + c / 262144; 0x80 + c / 4096 mod 64; 0x80 + c / 64 mod 64; 0x80 + c mod 64].

(** ** Proofs *)

Lemma byte_cases (P : Z -> bool) :
  forallb P (map Z.of_nat (seq 0 256)) = true -> forall b, byte b -> P b = true.
Proof.
  intros H b Hb. rewrite forallb_forall in H. apply H. unfold byte in Hb.
  rewrite <- (Z2Nat.id b) by lia. apply in_map, in_seq. lia.
Qed.

Lemma cont_byte b : byte b ->
  ((Z.land b 0xc0 =? 0x80) = ((128 <=? b) && (b <? 192))) /\ Z.land b 0x3f = b mod 64.
Proof.
  intros Hb. split.
  - apply eqb_prop.
    by apply (byte_cases (fun b => eqb (Z.land b 0xc0 =? 0x80) ((128 <=? b) && (b <? 192)))).
  - apply Z.eqb_eq. by apply (byte_cases (fun b => Z.land b 0x3f =? b mod 64)).
Qed.

Lemma land_ones_mod c k n : 0 <= k -> n = 2 ^ k - 1 -> Z.land c n = c mod 2 ^ k.
Proof. intros Hk ->. rewrite <- Z.land_ones by lia. by rewrite Z.ones_equiv, Z.sub_1_r. Qed.

Lemma continuation_step c b s n : byte b -> 
  BrokerUtf8.continuation (S n) c (b :: s) =
    if (128 <=? b) && (b <? 192) then BrokerUtf8.continuation n (c * 64 + (b - 128)) s else None.
Proof.
  intros Hb. cbn [BrokerUtf8.continuation]. destruct (cont_byte b Hb) as [-> ->].
  destruct ((128 <=? b) && (b <? 192)) eqn:E; [|done]. bools. cbn [negb].
  rewrite lor_shiftl_add by (pose proof (Z.mod_pos_bound b 64); lia).
  replace (b mod 64) with (b - 128); [done|].
  replace b with (b - 128 + 2 * 64) at 2 by lia. rewrite Z_mod_plus_full, Z.mod_small; lia.
Qed.

(** Euclidean facts behind the 6-bit groups. *)
Lemma group_div a b : 0 <= b < 64 -> (a * 64 + b) / 64 = a.
Proof. intros. rewrite Z.div_add_l, Z.div_small by lia. lia. Qed.
Lemma group_mod a b : 0 <= b < 64 -> (a * 64 + b) mod 64 = b.
Proof. intros. rewrite Z.add_comm, Z_mod_plus_full, Z.mod_small; lia. Qed.
Lemma div_4096 c : c / 4096 = c / 64 / 64.
Proof. by rewrite Z.div_div. Qed.
Lemma div_262144 c : c / 262144 = c / 64 / 64 / 64.
Proof. by rewrite !Z.div_div. Qed.

Lemma lead_spec c r : byte c -> BrokerUtf8.lead c = Some r ->
  (r = (1%nat, 0x80, c - 192) /\ 194 <= c < 224) \/
  (r = (2%nat, 0x800, c - 224) /\ 224 <= c < 240) \/
  (r = (3%nat, 0x10000, c - 240) /\ 240 <= c <= 244).
Proof.
  intros Hc. unfold BrokerUtf8.lead.
  rewrite (land_ones_mod c 5), (land_ones_mod c 4), (land_ones_mod c 3) by lia.
  repeat case_match; intros [= <-]; bools.
  - left. split; [do 2 f_equal|]; Z.to_euclidean_division_equations; lia.
  - right; left. split; [do 2 f_equal|]; Z.to_euclidean_division_equations; lia.
  - right; right. split; [do 2 f_equal|]; Z.to_euclidean_division_equations; lia.
Qed.

Lemma lead_2 c : 194 <= c < 224 -> BrokerUtf8.lead c = Some (1%nat, 0x80, c - 192).
Proof.
  intros. unfold BrokerUtf8.lead.
  rewrite (proj2 (Z.leb_le _ _)), (proj2 (Z.leb_le _ _)) by lia. cbn [andb].
  rewrite (land_ones_mod c 5) by lia. do 2 f_equal. Z.to_euclidean_division_equations; lia.
Qed.
Lemma lead_3 c : 224 <= c < 240 -> BrokerUtf8.lead c = Some (2%nat, 0x800, c - 224).
Proof.
  intros. unfold BrokerUtf8.lead.
  rewrite (proj2 (Z.leb_gt c 0xdf)) by lia. rewrite andb_false_r.
  rewrite (proj2 (Z.leb_le _ _)), (proj2 (Z.leb_le _ _)) by lia. cbn [andb].
  rewrite (land_ones_mod c 4) by lia. do 2 f_equal. Z.to_euclidean_division_equations; lia.
Qed.
Lemma lead_4 c : 240 <= c <= 244 -> BrokerUtf8.lead c = Some (3%nat, 0x10000, c - 240).
Proof.
  intros. unfold BrokerUtf8.lead.
  rewrite (proj2 (Z.leb_gt c 0xdf)), (proj2 (Z.leb_gt c 0xef)) by lia. rewrite !andb_false_r.
  rewrite (proj2 (Z.leb_le _ _)), (proj2 (Z.leb_le _ _)) by lia. cbn [andb].
  rewrite (land_ones_mod c 3) by lia. do 2 f_equal. Z.to_euclidean_division_equations; lia.
Qed.

(** The range test after the loop, as a proposition. *)
Lemma range_ok c m (P : option (list Z)) s :
  (if (c <? m) || (0x10ffff <? c) || ((0xd800 <=? c) && (c <=? 0xdfff)) then None else P) = Some s ->
  m <= c <= 0x10ffff /\ ~ (0xd800 <= c <= 0xdfff) /\ P = Some s.
Proof. destruct (_ || _) eqn:E; [done|]. intros ->. split; [lia|]. split; [lia|done]. Qed.

Lemma range_pass c m : m <= c <= 0x10ffff -> ~ (0xd800 <= c <= 0xdfff) ->
  (c <? m) || (0x10ffff <? c) || ((0xd800 <=? c) && (c <=? 0xdfff)) = false.
Proof. intros. lia. Qed.

Ltac cont_bytes :=
  repeat match goal with
  | H : bytes (_ :: _) |- _ => inversion_clear H
  | H : Forall byte (_ :: _) |- _ => inversion_clear H
  end.

Lemma step_sound s s' : bytes s -> BrokerUtf8.utf8_step s = Some s' ->
  exists c, scalar c /\ s = encode c ++ s'.
Proof.
  intros Hb. destruct s as [|b0 s]; [done|]. cbn [BrokerUtf8.utf8_step].
  destruct (Z.eqb_spec b0 0); [done|]. cont_bytes. rename H into Hb0. unfold byte in Hb0.
  destruct (Z.ltb_spec b0 0x80).
  { intros [= ->]. exists b0. split; [split; lia|]. unfold encode.
    by rewrite (proj2 (Z.ltb_lt _ _)) by lia. }
  destruct (BrokerUtf8.lead b0) as [[[more m] c]|] eqn:L; [|done].
  destruct (zlen s <? _); [done|].
  apply lead_spec in L; [|done].
  destruct L as [[[= -> -> ->] Hr]|[[[= -> -> ->] Hr]|[[= -> -> ->] Hr]]];
    repeat (destruct s as [|?b s]; [done|]; cont_bytes; rewrite continuation_step by done;
      match goal with |- context [if (128 <=? ?b) && _ then _ else _] =>
        destruct ((128 <=? b) && (b <? 192)) eqn:?E; [bools|done] end);
    cbn [BrokerUtf8.continuation]; intros (Hc & Hs & [= ->])%range_ok;
    match type of Hc with _ <= ?c <= _ => exists c end; (split; [split; lia|]);
    unfold encode.
  - rewrite (proj2 (Z.ltb_ge _ 128)), (proj2 (Z.ltb_lt _ _)) by lia.
    rewrite group_div, group_mod by lia. simpl. repeat f_equal; lia.
  - rewrite (proj2 (Z.ltb_ge _ 128)), (proj2 (Z.ltb_ge _ 0x800)), (proj2 (Z.ltb_lt _ _)) by lia.
    rewrite div_4096. do 2 rewrite group_div, group_mod by lia. simpl. repeat f_equal; lia.
  - rewrite (proj2 (Z.ltb_ge _ 128)), (proj2 (Z.ltb_ge _ 0x800)), (proj2 (Z.ltb_ge _ 0x10000)) by lia.
    rewrite div_262144, div_4096. do 3 rewrite group_div, group_mod by lia.
    simpl. repeat f_equal; lia.
Qed.

Lemma scalar_groups c : scalar c ->
  0 <= c mod 64 < 64 /\ 0 <= c / 64 mod 64 < 64 /\ 0 <= c / 4096 mod 64 < 64 /\
  c = c / 64 * 64 + c mod 64 /\ c / 64 = c / 4096 * 64 + c / 64 mod 64 /\
  c / 4096 = c / 262144 * 64 + c / 4096 mod 64 /\ 0 <= c / 262144 <= 4 /\ 0 <= c / 4096 <= 0x10f.
Proof.
  intros [Hc _]. repeat split; try apply Z.mod_pos_bound; try lia.
  - rewrite Z.mul_comm. apply Z.div_mod. lia.
  - rewrite div_4096. rewrite Z.mul_comm. apply Z.div_mod. lia.
  - rewrite div_262144, div_4096. rewrite Z.mul_comm. apply Z.div_mod. lia.
  - apply Z.div_pos; lia.
  - apply Z.lt_succ_r, Z.div_lt_upper_bound; lia.
  - apply Z.div_pos; lia.
  - apply Z.lt_succ_r, Z.div_lt_upper_bound; lia.
Qed.

Ltac take_cont :=
  rewrite continuation_step by (unfold byte; lia);
  rewrite (proj2 (andb_true_iff _ _)) by lia.

Lemma step_complete c s : scalar c -> BrokerUtf8.utf8_step (encode c ++ s) = Some s.
Proof.
  intros Hc. pose proof (scalar_groups c Hc) as (G0 & G1 & G2 & E0 & E1 & E2 & G3 & G4).
  destruct Hc as [Hr Hs]. pose proof (zlen_nonneg s). unfold encode.
  destruct (Z.ltb_spec c 0x80); cbn [app BrokerUtf8.utf8_step].
  { rewrite (proj2 (Z.eqb_neq _ _)), (proj2 (Z.ltb_lt _ _)) by lia. done. }
  destruct (Z.ltb_spec c 0x800); [|destruct (Z.ltb_spec c 0x10000)];
    cbn [app BrokerUtf8.utf8_step];
    rewrite (proj2 (Z.eqb_neq _ _)), (proj2 (Z.ltb_ge _ 0x80)) by lia.
  - rewrite lead_2 by (Z.to_euclidean_division_equations; lia).
    rewrite !zlen_cons, (proj2 (Z.ltb_ge _ _)) by lia. take_cont.
    cbn [BrokerUtf8.continuation]. rewrite range_pass; [done|lia..].
  - rewrite lead_3 by (Z.to_euclidean_division_equations; lia).
    rewrite !zlen_cons, (proj2 (Z.ltb_ge _ _)) by lia. do 2 take_cont.
    cbn [BrokerUtf8.continuation]. rewrite range_pass; [done|lia..].
  - rewrite lead_4 by (Z.to_euclidean_division_equations; lia).
    rewrite !zlen_cons, (proj2 (Z.ltb_ge _ _)) by lia. do 3 take_cont.
    cbn [BrokerUtf8.continuation]. rewrite range_pass; [done|lia..].
Qed.

Lemma encode_nonempty c : exists b l, encode c = b :: l.
Proof. unfold encode. repeat case_match; eauto. Qed.

Lemma loop_sound n s : bytes s -> BrokerUtf8.utf8_loop n s = true ->
  exists cs, Forall scalar cs /\ s = concat (map encode cs).
Proof.
  revert s; induction n as [|n IH]; intros s Hb; destruct s as [|b s]; try done;
    try (intros _; by exists []).
  cbn [BrokerUtf8.utf8_loop]. destruct (BrokerUtf8.utf8_step (b :: s)) as [s'|] eqn:E; [|done].
  apply step_sound in E as (c & Hc & E); [|done]. rewrite E in Hb |- *.
  apply bytes_app in Hb as [_ Hb]. intros H. destruct (IH s' Hb H) as (cs & Hcs & ->).
  exists (c :: cs). split; [by constructor|done].
Qed.

Lemma loop_complete cs n : Forall scalar cs -> (length (concat (map encode cs)) <= n)%nat ->
  BrokerUtf8.utf8_loop n (concat (map encode cs)) = true.
Proof.
  revert n; induction cs as [|c cs IH]; intros n Hcs Hn; [by destruct n|].
  cbn [map concat] in *. inversion_clear Hcs as [|? ? Hc Hcs'].
  destruct (encode_nonempty c) as (b & l & E).
  pose proof (step_complete c (concat (map encode cs)) Hc) as Hstep.
  rewrite E in Hstep, Hn |- *. cbn [app length] in *.
  destruct n as [|n]; [lia|]. cbn [BrokerUtf8.utf8_loop]. rewrite Hstep.
  apply IH; [done|]. rewrite length_app in Hn. lia.
Qed.

(** The validator of the local broker client accepts a byte string exactly
    when it is the UTF-8 encoding of a sequence of nonzero Unicode scalar values: overlong forms,
    surrogates, values above U+10FFFF, truncated sequences and NUL are all rejected, and nothing
    else is. *)
Theorem utf8_exact (s : list Z) (Hs : bytes s) :
  BrokerUtf8.utf8 s = true <->
  exists cs, Forall scalar cs /\ s = concat (map encode cs).
Proof.
  split.
  - by apply loop_sound.
  - intros (cs & Hcs & ->). by apply loop_complete.
Qed.

(** "é" then "€" is accepted, the overlong encoding of "/" is not. *)
Lemma utf8_exact_witness :
  (exists cs, Forall scalar cs /\ [0xc3; 0xa9; 0xe2; 0x82; 0xac] = concat (map encode cs)) /\
  ~ (exists cs, Forall scalar cs /\ [0xc0; 0xaf] = concat (map encode cs)).
Proof.
  split.
  - apply (utf8_exact [0xc3; 0xa9; 0xe2; 0x82; 0xac]); [|reflexivity].
    repeat constructor; unfold byte; lia.
  - intros H. apply (utf8_exact [0xc0; 0xaf]) in H; [done|].
    repeat constructor; unfold byte; lia.
Defined.

Lemma ws_continuation n c s : WsUtf8.continuation n c s = BrokerUtf8.continuation n c s.
Proof. revert c s; induction n; intros c [|b s]; cbn; try done. all: by rewrite ?IHn. Qed.

Lemma ws_loop n s : WsUtf8.utf8_loop n s = BrokerUtf8.utf8_loop n s.
Proof.
  revert s; induction n as [|n IH]; intros [|c s]; try done.
  cbn [WsUtf8.utf8_loop BrokerUtf8.utf8_loop BrokerUtf8.utf8_step].
  unfold truth. destruct (Z.eqb_spec c 0) as [->|]; [done|]. cbn [negb].
  destruct (Z.ltb_spec c 128) as [|]; [by rewrite IH|].
  unfold WsUtf8.lead, BrokerUtf8.lead.
  repeat case_match; simplify_eq; try done;
    repeat match goal with H : WsUtf8.continuation _ _ _ = _ |- _ => rewrite ws_continuation in H end;
    simplify_eq; rewrite ?IH; congruence.
Qed.

(** The two validators of the SDK, written independently for the local
    client and for WebSocket frames, compute the same function. *)
Theorem utf8_agree (s : list Z) : WsUtf8.utf8 s = BrokerUtf8.utf8 s.
Proof. apply ws_loop. Qed.
