(* ===== verification/BrokerWire.v ===== *)
(** * Wire format of the local command broker

    Data of src/sdk/c/oheco_broker.h, the START encoder and the endpoint discovery
    of src/sdk/c/oheco_broker.c, and the service's decoder of
    src/internal/protocol/protocol.go, which the encoder must agree with. *)

From S2P Require Import Prelude.
From S2P Require Import Utf8.
Import BrokerUtf8.

(** A C string: its bytes up to the terminating NUL.  [option cstr] is a
    [const char *] that may be NULL. *)
Abbreviation cstr := (list Z) (only parsing).
Definition cstr_ok (s : cstr) : Prop := Forall (fun b => 0 < b < 256) s.

(** errno values of the Linux/musl ABI. *)
Definition ENOENT : Z := 2.
Definition EINTR : Z := 4.
Definition EBADF : Z := 9.
Definition EAGAIN : Z := 11.
Definition ENOMEM : Z := 12.
Definition EINVAL : Z := 22.
Definition EPIPE : Z := 32.
Definition ENAMETOOLONG : Z := 36.
Definition ECONNRESET : Z := 104.
Definition ETIMEDOUT : Z := 110.
Definition EINPROGRESS : Z := 115.
Definition ECANCELED : Z := 125.
Definition SIZE_MAX : Z := 2 ^ 64 - 1.

Inductive ob_error :=
  | OB_OK | OB_UNAVAILABLE | OB_PROTOCOL | OB_SPAWN_FAILED | OB_CONNECTION_LOST
  | OB_INVALID_ARGUMENT | OB_TIMEOUT | OB_IO | OB_LIMIT.
#[export] Instance ob_error_eq_dec : EqDecision ob_error.
Proof. solve_decision. Defined.

Definition error_code (e : ob_error) : Z :=
  match e with
  | OB_OK => 0 | OB_UNAVAILABLE => 1 | OB_PROTOCOL => 2 | OB_SPAWN_FAILED => 3
  | OB_CONNECTION_LOST => 4 | OB_INVALID_ARGUMENT => 5 | OB_TIMEOUT => 6
  | OB_IO => 7 | OB_LIMIT => 8
  end.
(** The cast [(ob_error)code] for a code the caller has checked to be in 1..8. *)
Definition error_of_code (c : Z) : ob_error :=
  if c =? 1 then OB_UNAVAILABLE else if c =? 2 then OB_PROTOCOL
  else if c =? 3 then OB_SPAWN_FAILED else if c =? 4 then OB_CONNECTION_LOST
  else if c =? 5 then OB_INVALID_ARGUMENT else if c =? 6 then OB_TIMEOUT
  else if c =? 7 then OB_IO else if c =? 8 then OB_LIMIT else OB_OK.

Record ob_env := Env { env_key : option cstr; env_value : option cstr }.
Record ob_options := Options {
  executable : option cstr;
  cwd : option cstr;
  args : option (list (option cstr));  (** [argc] pointers, NULL when absent *)
  argc : Z;
  env : option (list ob_env);
  envc : Z;
  stdin_enabled : Z
}.
Record ob_exit := Exit { reason : Z; exit_code : Z; signal : Z }.

Definition OB_MAX_FRAME : Z := 1048576.
Definition OB_MAX_STREAM : Z := 65536.
Definition OB_DEADLINE : Z := 3000.

Definition get32 (p : list Z) : Z :=
  Z.lor (Z.lor (Z.lor (Z.shiftl (znth p 0) 24) (Z.shiftl (znth p 1) 16)) (Z.shiftl (znth p 2) 8))
        (znth p 3).
Definition put32 (v : Z) : list Z :=
  [u8 (Z.shiftr v 24); u8 (Z.shiftr v 16); u8 (Z.shiftr v 8); u8 v].
(** The bytes written at the cursor; the returned pointer is past them. *)
Definition put_string (s : cstr) : list Z := put32 (u32 (zlen s)) ++ s.

Definition size_string (s : option cstr) (total : Z) : ob_error + Z :=
  match s with
  | None => inl OB_INVALID_ARGUMENT
  | Some s =>
    let n := zlen s in
    if negb (utf8 s) then inl OB_INVALID_ARGUMENT
    else if (OB_MAX_FRAME - 4 <? n) || (OB_MAX_FRAME - 4 - n <? total) then inl OB_LIMIT
    else inr (total + (4 + n))
  end.

Fixpoint size_strings (l : list (option cstr)) (total : Z) : ob_error + Z :=
  match l with
  | [] => inr total
  | s :: l => match size_string s total with inl e => inl e | inr n => size_strings l n end
  end.

(** [strcmp(a, b) == 0] with the earlier keys of the environment. *)
Definition duplicate_key (k : cstr) (before : list ob_env) : bool :=
  existsb (fun e => list_eqb k (default [] (env_key e))) before.

Fixpoint size_env (before l : list ob_env) (total : Z) : ob_error + Z :=
  match l with
  | [] => inr total
  | e :: l =>
    match env_key e with
    | None => inl OB_INVALID_ARGUMENT
    | Some k =>
      if (zlen k =? 0) || existsb (Z.eqb 61) k then inl OB_INVALID_ARGUMENT
      else if duplicate_key k before then inl OB_INVALID_ARGUMENT
      else match size_string (Some k) total with
      | inl e => inl e
      | inr n => match size_string (env_value e) n with
                 | inl e => inl e
                 | inr n => size_env (before ++ [e]) l n
                 end
      end
    end
  end.

Definition arg_list (o : ob_options) : list (option cstr) := ztake (argc o) (default [] (args o)).
Definition env_list (o : ob_options) : list ob_env := ztake (envc o) (default [] (env o)).
Definition str0 (s : option cstr) : cstr := default [] s.

(** The argument checks at the head of [encode_start]. *)
Definition options_invalid (o : option ob_options) (detached : bool) : bool :=
  match o with
  | None => true
  | Some o =>
    match executable o with
    | None => true
    | Some x =>
      (zlen x =? 0) || (4096 <? argc o) || (4096 <? envc o) ||
      (truth (argc o) && bool_decide (args o = None)) ||
      (truth (envc o) && bool_decide (env o = None)) ||
      (negb (stdin_enabled o =? 0) && negb (stdin_enabled o =? 1)) ||
      (detached && truth (stdin_enabled o))
    end
  end.

(** The number of bytes [malloc]ed for the payload. *)
Definition start_size (o : ob_options) (detached : bool) (out err : option cstr) : ob_error + Z :=
  match size_string (executable o) 9 with inl e => inl e | inr n =>
  match size_string (Some (str0 (cwd o))) n with inl e => inl e | inr n =>
  match size_strings (arg_list o) n with inl e => inl e | inr n =>
  match size_env [] (env_list o) n with inl e => inl e | inr n =>
  if detached then
    match size_string out n with inl e => inl e | inr n => size_string err n end
  else inr n
  end end end end.

(** The bytes stored through the cursor [p], in order. *)
Definition start_bytes (o : ob_options) (detached : bool) (out err : option cstr) : list Z :=
  put_string (str0 (executable o)) ++ put_string (str0 (cwd o)) ++
  put32 (u32 (argc o)) ++ concat (map (fun a => put_string (str0 a)) (arg_list o)) ++
  put32 (u32 (envc o)) ++
  concat (map (fun e => put_string (str0 (env_key e)) ++ put_string (str0 (env_value e))) (env_list o)) ++
  [u8 (stdin_enabled o)] ++
  (if detached then put_string (str0 out) ++ put_string (str0 err) else []).

(** [encode_start]: an error, or the payload and the size of its allocation.
    [malloc_ok] is the answer of the allocator. *)
Definition encode_start (malloc_ok : bool) (o : option ob_options) (detached : bool)
    (out err : option cstr) : ob_error + list Z * Z :=
  if options_invalid o detached then inl OB_INVALID_ARGUMENT
  else match o with
  | None => inl OB_INVALID_ARGUMENT
  | Some o =>
    match start_size o detached out err with
    | inl e => inl e
    | inr n => if malloc_ok then inr (start_bytes o detached out err, n) else inl OB_IO
    end
  end.

(** ** The service's decoder (Go) *)
Module Service.

Record Request := Req {
  Executable : list Z; Cwd : list Z; Args : list (list Z);
  Env : list (list Z * list Z); Stdin : bool }.

Definition MaxFrame : Z := 1048576.
Definition MaxItems : Z := 4096.

(** [utf8.Valid]: the Go library's test, which also admits U+0000. *)
Fixpoint Valid_loop (fuel : nat) (p : list Z) : bool :=
  match p, fuel with
  | [], _ => true
  | _, O => false
  | c :: q, S fuel =>
    if c <? 0x80 then Valid_loop fuel q
    else match utf8_step p with Some q => Valid_loop fuel q | None => false end
  end.
Definition Valid (p : list Z) : bool := Valid_loop (length p) p.

(** The decoder keeps its unread bytes and a sticky error: every later read of a
    failed decoder fails, so an error is [None] from where it is raised. *)
Definition d_u32 (b : list Z) : option (Z * list Z) :=
  if zlen b <? 4 then None else Some (be_get (ztake 4 b), zdrop 4 b).
Definition d_str (b : list Z) : option (list Z * list Z) :=
  '(n, b) ← d_u32 b;
  if zlen b <? n then None
  else let p := ztake n b in
    if negb (Valid p) || existsb (Z.eqb 0) p then None else Some (p, zdrop n b).
Definition d_count (b : list Z) : option (nat * list Z) :=
  '(n, b) ← d_u32 b; if MaxItems <? n then None else Some (Z.to_nat n, b).
Fixpoint d_args (n : nat) (b : list Z) : option (list (list Z) * list Z) :=
  match n with
  | O => Some ([], b)
  | S n => '(a, b) ← d_str b; '(l, b) ← d_args n b; Some (a :: l, b)
  end.
Fixpoint d_env (n : nat) (seen : list (list Z)) (b : list Z)
    : option (list (list Z * list Z) * list Z) :=
  match n with
  | O => Some ([], b)
  | S n =>
    '(k, b) ← d_str b; '(v, b) ← d_str b;
    if list_eqb k [] || existsb (Z.eqb 61) k || existsb (list_eqb k) seen then None
    else '(l, b) ← d_env n (k :: seen) b; Some ((k, v) :: l, b)
  end.
Definition decodeStart (b : list Z) : option (Request * list Z) :=
  '(x, b) ← d_str b; '(c, b) ← d_str b;
  '(argc, b) ← d_count b; '(a, b) ← d_args argc b;
  '(envc, b) ← d_count b; '(e, b) ← d_env envc [] b;
  if list_eqb x [] then None
  else match b with
  | [] => None
  | f :: b => if 1 <? f then None else Some (Req x c a e (f =? 1), b)
  end.
Definition DecodeStart (p : list Z) : option Request :=
  '(r, b) ← decodeStart p; if truth (zlen b) then None else Some r.
Definition DecodeDetached (p : list Z) : option (Request * list Z * list Z) :=
  '(r, b) ← decodeStart p;
  if Stdin r then None
  else '(out, b) ← d_str b; '(err, b) ← d_str b;
    if truth (zlen b) then None else Some (r, out, err).

End Service.

(** ** Endpoint discovery *)

(** The default location, or the errno of a missing HOME or failed allocation. *)
Definition discover_path (path home : option cstr) (malloc_ok : bool) : Z + cstr :=
  match path with
  | Some p => inr p
  | None =>
    match home with
    | None => inl ENOENT
    | Some h =>
      if zlen h =? 0 then inl ENOENT
      else if SIZE_MAX - 25 <? zlen h then inl ENAMETOOLONG
      else if negb malloc_ok then inl ENOMEM
      else inr (h ++ [47;46;111;104;101;99;111;47;98;114;111;107;101;114;47;101;110;100;112;111;105;110;116])
    end
  end.

(** What the operating system answers for the endpoint file. *)
Inductive read_result := ReadGot (b : list Z) | ReadErr (e : Z).
Record endpoint_file := EndpointFile {
  open_errno : option Z;      (** [open] fails with this errno *)
  fstat_errno : option Z;     (** [fstat] fails with this errno *)
  is_regular : bool;
  reads : list read_result    (** successive [read]s; end of file after the last *)
}.

(** The read loop over [b[65]]: [inl] is the errno of a failed read. *)
Fixpoint read_loop (rs : list read_result) (b : list Z) : Z + list Z :=
  match rs with
  | [] => inr b
  | ReadGot [] :: _ => inr b
  | ReadGot got :: rs =>
    let b := b ++ ztake (65 - zlen b) got in
    if zlen b =? 65 then inr b else read_loop rs b
  | ReadErr e :: rs => if negb (e =? EINTR) then inl e else read_loop rs b
  end.

Fixpoint port_digits (l : list Z) (value : Z) : option Z :=
  match l with
  | [] => Some value
  | c :: l =>
    if (c <? 48) || (57 <? c) then None
    else let value := value * 10 + c - 48 in
      if 65535 <? value then None else port_digits l value
  end.

(** Strip one LF and then one CR from the end. *)
Definition strip_newline (b : list Z) : list Z :=
  if znth b (zlen b - 1) =? 10 then
    let b := ztake (zlen b - 1) b in
    if truth (zlen b) && (znth b (zlen b - 1) =? 13) then ztake (zlen b - 1) b else b
  else b.

(** "127.0.0.1:" *)
Definition loopback_prefix : list Z := [49;50;55;46;48;46;48;46;49;58].

Definition parse_endpoint (b : list Z) : option Z :=
  if (zlen b =? 0) || (64 <? zlen b) then None
  else let b := strip_newline b in
    if (zlen b <=? 10) || negb (list_eqb (ztake 10 b) loopback_prefix) then None
    else match port_digits (zdrop 10 b) 0 with
    | None => None
    | Some value => if value =? 0 then None else Some value
    end.

(** [discover]: an errno, or the port. *)
Definition discover (path home : option cstr) (malloc_ok : bool)
    (fs : cstr -> endpoint_file) : Z + Z :=
  match discover_path path home malloc_ok with
  | inl e => inl e
  | inr p =>
    let f := fs p in
    match open_errno f with Some e => inl e | None =>
    match fstat_errno f with Some e => inl e | None =>
    if negb (is_regular f) then inl EINVAL
    else match read_loop (reads f) [] with
    | inl e => inl e
    | inr b => match parse_endpoint b with Some port => inr port | None => inl EINVAL end
    end end end
  end.

(** ** Proofs: integers and strings *)

Lemma put32_be v : put32 v = be_put 4 v.
Proof. unfold put32. cbn [be_put app]. by rewrite !Z.shiftr_shiftr by lia. Qed.

Lemma get32_be l : bytes l -> 4 <= zlen l -> get32 l = be_get (ztake 4 l).
Proof.
  intros Hb Hl. destruct l as [|a [|b [|c [|d l]]]]; unfold zlen in Hl; simpl in Hl; try lia.
  repeat match goal with H : bytes (_ :: _) |- _ => inversion_clear H
                       | H : Forall byte (_ :: _) |- _ => inversion_clear H end.
  unfold byte in *. unfold get32. change (znth (a :: b :: c :: d :: l) 0) with a.
  change (znth (a :: b :: c :: d :: l) 1) with b. change (znth (a :: b :: c :: d :: l) 2) with c.
  change (znth (a :: b :: c :: d :: l) 3) with d.
  change (be_get (ztake 4 (a :: b :: c :: d :: l))) with ((((0 * 256 + a) * 256 + b) * 256 + c) * 256 + d).
  replace (Z.lor (Z.lor (Z.lor (Z.shiftl a 24) (Z.shiftl b 16)) (Z.shiftl c 8)) d)
    with (Z.lor (Z.shiftl (Z.lor (Z.shiftl (Z.lor (Z.shiftl a 8) b) 8) c) 8) d).
  - rewrite !lor_shiftl_add by lia. lia.
  - by rewrite !Z.shiftl_lor, !Z.shiftl_shiftl by lia.
Qed.

Lemma get32_put32 v l : 0 <= v <= UINT32_MAX -> bytes l -> get32 (put32 v ++ l) = v.
Proof.
  intros Hv Hl. rewrite get32_be.
  - rewrite put32_be, ztake_app_exact by (by rewrite be_put_zlen).
    apply be_get_put_small. unfold UINT32_MAX in Hv. simpl. lia.
  - apply bytes_app. split; [|done]. rewrite put32_be. apply be_put_bytes.
  - rewrite zlen_app, put32_be, be_put_zlen. pose proof (zlen_nonneg l). lia.
Qed.

Lemma put32_len v : zlen (put32 v) = 4.
Proof. done. Qed.
Lemma put_string_len s : zlen (put_string s) = 4 + zlen s.
Proof. unfold put_string. by rewrite zlen_app, put32_be, be_put_zlen. Qed.

Lemma str0_Some s : str0 (Some s) = s.
Proof. done. Qed.

(** What a successful [size_string] has checked. *)
Lemma size_string_ok s total n : size_string s total = inr n ->
  exists t, s = Some t /\ utf8 t = true /\ n = total + (4 + zlen t) /\ n <= OB_MAX_FRAME.
Proof.
  unfold size_string. destruct s as [t|]; [|done].
  destruct (utf8 t) eqn:U; [|done]. cbn [negb].
  destruct (_ || _) eqn:E; [done|]. bools. intros [= <-]. exists t.
  pose proof (zlen_nonneg t). repeat split; [done..|lia].
Qed.

Definition valid_str (s : option cstr) : Prop := exists t, s = Some t /\ utf8 t = true.

Lemma size_strings_ok l total n : size_strings l total = inr n ->
  total <= OB_MAX_FRAME ->
  Forall valid_str l /\ n <= OB_MAX_FRAME /\
  n = total + zlen (concat (map (fun a => put_string (str0 a)) l)).
Proof.
  revert total; induction l as [|s l IH]; intros total; cbn [size_strings].
  - intros [= <-] H. split; [constructor|]. split; [done|]. simpl. rewrite zlen_nil. lia.
  - destruct (size_string s total) as [|m] eqn:E; [done|].
    apply size_string_ok in E as (t & -> & U & -> & Hm). intros H _.
    apply IH in H as (Hl & Hn & ->); [|done]. split; [|split; [done|]].
    + constructor; [by exists t|done].
    + cbn [map concat]. rewrite zlen_app, put_string_len. rewrite ?str0_Some. lia.
Qed.

(** What a successful pass over the environment has checked. *)
Fixpoint env_valid (before : list ob_env) (l : list ob_env) : Prop :=
  match l with
  | [] => True
  | e :: l => (exists k, env_key e = Some k /\ utf8 k = true /\ k <> [] /\ existsb (Z.eqb 61) k = false /\
                duplicate_key k before = false) /\
              valid_str (env_value e) /\ env_valid (before ++ [e]) l
  end.

Lemma size_env_ok before l total n : size_env before l total = inr n ->
  total <= OB_MAX_FRAME ->
  env_valid before l /\ n <= OB_MAX_FRAME /\
  n = total + zlen (concat (map (fun e => put_string (str0 (env_key e)) ++ put_string (str0 (env_value e))) l)).
Proof.
  revert before total; induction l as [|e l IH]; intros before total; cbn [size_env].
  - intros [= <-] H. split; [done|]. split; [done|]. simpl. rewrite zlen_nil. lia.
  - destruct (env_key e) as [k|] eqn:K; [|done].
    destruct (_ || existsb _ _) eqn:E1; [done|]. apply orb_false_iff in E1 as [E1 E2]. bools.
    destruct (duplicate_key k before) eqn:E3; [done|].
    destruct (size_string (Some k) total) as [|m] eqn:E4; [done|].
    apply size_string_ok in E4 as (t & [= <-] & U & -> & Hm).
    destruct (size_string (env_value e) _) as [|m] eqn:E5; [done|].
    apply size_string_ok in E5 as (v & V & UV & -> & Hv). intros H _.
    apply IH in H as (Hl & Hn & ->); [|done]. split; [|split; [done|]].
    + cbn [env_valid]. split; [|split; [by exists v|done]].
      exists k. repeat split; try done. intros ->. by rewrite zlen_nil in E1.
    + cbn [map concat]. rewrite !zlen_app, !put_string_len, V, K. rewrite ?str0_Some. lia.
Qed.

(** The caller's contract: the counts are the lengths of the arrays. *)
Definition options_wf (o : ob_options) : Prop :=
  argc o = zlen (default [] (args o)) /\ envc o = zlen (default [] (env o)).

Lemma arg_list_all o : options_wf o -> arg_list o = default [] (args o).
Proof. intros [H _]. unfold arg_list. apply ztake_ge. rewrite H. reflexivity. Qed.
Lemma env_list_all o : options_wf o -> env_list o = default [] (env o).
Proof. intros [_ H]. unfold env_list. apply ztake_ge. rewrite H. reflexivity. Qed.

Lemma start_size_ok o d out err n : start_size o d out err = inr n ->
  valid_str (executable o) /\ utf8 (str0 (cwd o)) = true /\ Forall valid_str (arg_list o) /\
  env_valid [] (env_list o) /\ (d = true -> valid_str out /\ valid_str err) /\
  n <= OB_MAX_FRAME /\ n = zlen (start_bytes o d out err).
Proof.
  unfold start_size, start_bytes.
  destruct (size_string (executable o) 9) as [|n1] eqn:E1; [done|].
  apply size_string_ok in E1 as (x & X & UX & -> & H1).
  destruct (size_string (Some _) _) as [|n2] eqn:E2; [done|].
  apply size_string_ok in E2 as (c & [= C] & UC & -> & H2).
  destruct (size_strings _ _) as [|n3] eqn:E3; [done|].
  apply size_strings_ok in E3 as (HA & H3 & ->); [|done].
  destruct (size_env _ _ _) as [|n4] eqn:E4; [done|].
  apply size_env_ok in E4 as (HE & H4 & ->); [|done].
  rewrite X, C, !str0_Some.
  rewrite !zlen_app, !put_string_len, !put32_len.
  destruct d; cbv iota.
  - destruct (size_string out _) as [|n5] eqn:E5; [done|].
    apply size_string_ok in E5 as (so & -> & US & -> & H5).
    intros (se & -> & UE & -> & H6)%size_string_ok.
    rewrite zlen_app, !put_string_len, !str0_Some.
    repeat split; try done; try (by eexists); rewrite ?zlen_cons, ?zlen_nil; lia.
  - intros <-%(inj inr). repeat split; try done; try (by eexists); rewrite ?zlen_cons, ?zlen_nil; lia.
Qed.

Lemma encode_start_size m o d out err p n :
  encode_start m o d out err = inr (p, n) -> zlen p = n /\ 0 < n <= OB_MAX_FRAME.
Proof.
  intros H. unfold encode_start in H. destruct (options_invalid o d); [done|]. destruct o as [o|]; [|done].
  destruct (start_size o d out err) as [|n'] eqn:E; [done|]. destruct m; [|done].
  injection H as <- <-. apply start_size_ok in E as (_ & _ & _ & _ & _ & Hn & ->).
  split; [done|]. split; [|done]. unfold start_bytes. rewrite !zlen_app, zlen_cons.
  pose proof (@zlen_nonneg Z). 
  repeat match goal with |- context [zlen ?l] => lazymatch goal with
    | _ : 0 <= zlen l |- _ => fail | _ => pose proof (zlen_nonneg l) end end. lia.
Qed.

(** Whenever START encoding succeeds, the bytes stored through
    the cursor fill exactly the block that was allocated for them - no overrun and no
    uninitialised tail - and the payload respects the frame limit. *)
Theorem encode_start_bounds m o d out err p n
    (H : encode_start m o d out err = inr (p, n)) :
  zlen p = n /\ 0 < n <= OB_MAX_FRAME.
Proof. by eapply encode_start_size. Qed.

(** A refusal always carries an error code. *)
Lemma size_string_error s n : size_string s n <> inl OB_OK.
Proof. unfold size_string. repeat case_match; done. Qed.
Lemma size_strings_error l n : size_strings l n <> inl OB_OK.
Proof.
  revert n; induction l as [|s l IH]; intros n; cbn [size_strings]; [done|].
  pose proof (size_string_error s n). destruct (size_string s n); [congruence|apply IH].
Qed.
Lemma size_env_error before l n : size_env before l n <> inl OB_OK.
Proof.
  revert before n; induction l as [|e l IH]; intros before n; cbn [size_env]; [done|].
  destruct (env_key e) as [key|]; [|done]. destruct (_ || _); [done|]. destruct (duplicate_key _ _); [done|].
  pose proof (size_string_error (Some key) n). destruct (size_string (Some key) n) as [|n']; [congruence|].
  pose proof (size_string_error (env_value e) n'). destruct (size_string (env_value e) n'); [congruence|apply IH].
Qed.
Lemma encode_start_error m o d out err : encode_start m o d out err <> inl OB_OK.
Proof.
  unfold encode_start. destruct (options_invalid o d); [done|]. destruct o as [o|]; [|done].
  destruct (start_size o d out err) as [e|n] eqn:E; [|by destruct m].
  unfold start_size in E. intros [= ->].
  pose proof (size_string_error (executable o) 9). destruct (size_string (executable o) 9) as [|n1]; [congruence|].
  pose proof (size_string_error (Some (str0 (cwd o))) n1). destruct (size_string _ n1) as [|n2]; [congruence|].
  pose proof (size_strings_error (arg_list o) n2). destruct (size_strings _ n2) as [|n3]; [congruence|].
  pose proof (size_env_error [] (env_list o) n3). destruct (size_env _ _ n3) as [|n4]; [congruence|].
  destruct d; [|done]. pose proof (size_string_error out n4). destruct (size_string out n4) as [|n5]; [congruence|].
  by apply (size_string_error err n5).
Qed.

(** ** Proofs: the service reads back what the client wrote *)
Module ServiceProofs.
Import Service.

Lemma continuation_nz n c s c' s' : continuation n c s = Some (c', s') ->
  exists p, s = p ++ s' /\ existsb (Z.eqb 0) p = false.
Proof.
  revert c s; induction n as [|n IH]; intros c s; cbn [continuation].
  - intros [= -> ->]. by exists [].
  - destruct s as [|b s]; [done|]. destruct (Z.land b 0xc0 =? 0x80) eqn:E; [|done]. cbn [negb].
    intros (p & -> & Hp)%IH. exists (b :: p). split; [done|]. cbn [existsb]. rewrite Hp, orb_false_r.
    destruct (Z.eqb_spec 0 b) as [<-|]; done.
Qed.

Lemma utf8_step_nz s s' : utf8_step s = Some s' -> exists p, s = p ++ s' /\ existsb (Z.eqb 0) p = false.
Proof.
  destruct s as [|c s]; [done|]. cbn [utf8_step].
  destruct (Z.eqb_spec c 0) as [|Hc]; [done|]. assert (Hc' : (0 =? c) = false) by lia.
  destruct (c <? 128).
  - intros [= ->]. exists [c]. split; [done|]. cbn [existsb]. by rewrite Hc', ?Hp.
  - destruct (lead c) as [[[m ?] c0]|]; [|done]. destruct (_ <? _); [done|].
    destruct (continuation m c0 s) as [[c1 s1]|] eqn:E; [|done].
    apply continuation_nz in E as (p & -> & Hp). destruct (_ || _); [done|]. intros [= ->].
    exists (c :: p). split; [done|]. cbn [existsb]. by rewrite Hc', ?Hp.
Qed.

Lemma utf8_Valid_loop n s : utf8_loop n s = true ->
  Valid_loop n s = true /\ existsb (Z.eqb 0) s = false.
Proof.
  revert s; induction n as [|n IH]; intros [|c s]; try done.
  cbn [utf8_loop]. intros H.
  destruct (utf8_step (c :: s)) as [s'|] eqn:E; [|done].
  destruct (IH s' H) as [IH1 IH2]. split.
  - cbn [Valid_loop]. destruct (c <? 128) eqn:C; [|by rewrite E].
    cbn [utf8_step] in E. rewrite C in E. destruct (c =? 0); [done|]. by injection E as ->.
  - apply utf8_step_nz in E as (p & -> & Hp). by rewrite existsb_app, Hp, IH2.
Qed.

Lemma d_u32_put v b : 0 <= v <= UINT32_MAX -> d_u32 (put32 v ++ b) = Some (v, b).
Proof.
  intros Hv. unfold d_u32. rewrite zlen_app, put32_len.
  rewrite (proj2 (Z.ltb_ge _ _)) by (pose proof (zlen_nonneg b); lia).
  rewrite put32_be, ztake_app_exact, zdrop_app_exact by (by rewrite be_put_zlen).
  rewrite be_get_put_small; [done|]. unfold UINT32_MAX in Hv. simpl. lia.
Qed.

Lemma d_str_put s b : utf8 s = true -> zlen s <= OB_MAX_FRAME -> d_str (put_string s ++ b) = Some (s, b).
Proof.
  intros U L. pose proof (zlen_nonneg s). pose proof (zlen_nonneg b).
  assert (zlen s <= UINT32_MAX) by (unfold OB_MAX_FRAME, UINT32_MAX in *; lia).
  unfold d_str, put_string. rewrite <- app_assoc, u32_small, d_u32_put by lia. cbn [mbind option_bind].
  rewrite zlen_app, (proj2 (Z.ltb_ge _ _)) by lia. rewrite ztake_app_exact, zdrop_app_exact by done.
  destruct (utf8_Valid_loop _ _ U) as [V N]. unfold Valid. by rewrite V, N.
Qed.

Lemma d_count_put v b : 0 <= v <= 4096 -> d_count (put32 v ++ b) = Some (Z.to_nat v, b).
Proof.
  intros Hv. unfold d_count. rewrite d_u32_put by (unfold UINT32_MAX; lia). cbn [mbind option_bind].
  unfold MaxItems. by rewrite (proj2 (Z.ltb_ge _ _)) by lia.
Qed.

Definition short (s : option cstr) : Prop := zlen (str0 s) <= OB_MAX_FRAME.

Lemma d_args_put l b : Forall valid_str l -> Forall short l ->
  d_args (length l) (concat (map (fun a => put_string (str0 a)) l) ++ b) = Some (map str0 l, b).
Proof.
  induction 1 as [|s l [t [-> U]] Hl IH]; intros Hs; [done|]. inversion_clear Hs.
  cbn [length d_args map concat]. rewrite <- app_assoc, str0_Some, d_str_put by done.
  cbn [mbind option_bind]. by rewrite IH.
Qed.

(** The keys already decoded are the keys of the entries before. *)
Definition seen_of (before : list ob_env) (seen : list (list Z)) : Prop :=
  forall k, existsb (list_eqb k) seen = duplicate_key k before.

Lemma seen_of_snoc before seen e k : seen_of before seen -> env_key e = Some k ->
  seen_of (before ++ [e]) (k :: seen).
Proof.
  intros H E j. unfold duplicate_key. rewrite existsb_app. cbn [existsb]. rewrite E. cbn [default from_option].
  unfold id. rewrite orb_false_r, orb_comm. f_equal. apply H.
Qed.

Lemma d_env_put l b before seen : env_valid before l -> seen_of before seen ->
  Forall (fun e => short (env_key e) /\ short (env_value e)) l ->
  d_env (length l) seen
    (concat (map (fun e => put_string (str0 (env_key e)) ++ put_string (str0 (env_value e))) l) ++ b)
  = Some (map (fun e => (str0 (env_key e), str0 (env_value e))) l, b).
Proof.
  revert before seen; induction l as [|e l IH]; intros before seen HV HS Hsh; [done|].
  cbn [env_valid] in HV. destruct HV as ((k & K & U & Hk & Heq & Hdup) & (v & V & UV) & HV).
  inversion_clear Hsh as [|? ? [S1 S2] S3]. rewrite K in S1. rewrite V in S2.
  cbn [length d_env map concat]. rewrite <- !app_assoc, K, V, !str0_Some.
  rewrite d_str_put by done. cbn [mbind option_bind]. rewrite d_str_put by done. cbn [mbind option_bind].
  rewrite (proj2 (list_eqb_neq k []) Hk), Heq, HS, Hdup. cbn [orb].
  rewrite (IH (before ++ [e])); [done|done|by apply seen_of_snoc|done].
Qed.

Lemma concat_short {A} (f : A -> list Z) l M : zlen (concat (map f l)) <= M -> Forall (fun a => zlen (f a) <= M) l.
Proof.
  induction l as [|a l IH]; cbn [map concat]; intros H; constructor; rewrite zlen_app in H;
    pose proof (zlen_nonneg (f a)); pose proof (zlen_nonneg (concat (map f l))); [lia|].
  apply IH. lia.
Qed.

Definition request_of (o : ob_options) : Request :=
  Req (str0 (executable o)) (str0 (cwd o)) (map str0 (default [] (args o)))
      (map (fun e => (str0 (env_key e), str0 (env_value e))) (default [] (env o))) (stdin_enabled o =? 1).

Ltac sizes := repeat match goal with |- context [zlen ?l] => lazymatch goal with
    | _ : 0 <= zlen l |- _ => fail | _ => pose proof (zlen_nonneg l) end
  | H : context [zlen ?l] |- _ => lazymatch goal with
    | _ : 0 <= zlen l |- _ => fail | _ => pose proof (zlen_nonneg l) end end.

Lemma decodeStart_put o d out err rest : options_wf o -> options_invalid (Some o) d = false ->
  (exists n, start_size o d out err = inr n) ->
  start_bytes o d out err = start_bytes o false out err ++ rest ->
  decodeStart (start_bytes o d out err) = Some (request_of o, rest).
Proof.
  intros Hwf Hinv [n Hn] Hrest. apply start_size_ok in Hn as ((x & X & UX) & UC & HA & HE & _ & Hn & ->).
  cbn [options_invalid] in Hinv. rewrite X in Hinv. bools.
  pose proof Hwf as [Hargc Henvc].
  rewrite Hrest in Hn |- *. unfold start_bytes in Hn |- *. cbv iota in Hn |- *.
  rewrite (arg_list_all o Hwf), (env_list_all o Hwf) in *. rewrite X, str0_Some in *.
  rewrite app_nil_r, <- !app_assoc in Hn |- *. rewrite !zlen_app, !put_string_len, !put32_len in Hn.
  assert (Forall short (default [] (args o))) as SA.
  { eapply Forall_impl; [|apply (concat_short (fun a => put_string (str0 a)) _ OB_MAX_FRAME); sizes; lia].
    intros a. cbv beta. rewrite put_string_len. unfold short. lia. }
  assert (Forall (fun e => short (env_key e) /\ short (env_value e)) (default [] (env o))) as SE.
  { eapply Forall_impl; [|apply (concat_short (fun e => put_string (str0 (env_key e)) ++ put_string (str0 (env_value e))) _ OB_MAX_FRAME); sizes; lia].
    intros e. cbv beta. rewrite zlen_app, !put_string_len. unfold short. sizes. lia. }
  unfold decodeStart. rewrite d_str_put by (try done; sizes; lia). cbn [mbind option_bind].
  rewrite d_str_put by (try done; sizes; lia). cbn [mbind option_bind].
  sizes. rewrite !u32_small by (unfold UINT32_MAX; lia).
  rewrite d_count_put by lia. cbn [mbind option_bind]. rewrite Hargc.
  unfold zlen at 1. rewrite Nat2Z.id, d_args_put by done. cbn [mbind option_bind].
  rewrite d_count_put by lia. cbn [mbind option_bind]. rewrite Henvc.
  unfold zlen at 1. rewrite Nat2Z.id, (d_env_put _ _ [] []) by done. cbn [mbind option_bind].
  rewrite (proj2 (list_eqb_neq x [])) by (intros ->; by rewrite zlen_nil in *).
  cbn [app]. unfold request_of. rewrite X, str0_Some.
  match goal with H : negb _ && negb _ = false |- _ => apply andb_false_iff in H as [?|?] end; bools;
    match goal with H : stdin_enabled o = _ |- _ => rewrite H end; done.
Qed.
End ServiceProofs.

Lemma decode_encoded o p n : options_wf o ->
  encode_start true (Some o) false None None = inr (p, n) -> Service.DecodeStart p = Some (ServiceProofs.request_of o).
Proof.
  intros Hwf H.
  unfold encode_start in H. destruct (options_invalid (Some o) false) eqn:I; [done|].
  destruct (start_size o false None None) as [|n'] eqn:E; [done|]. injection H as <- <-.
  unfold Service.DecodeStart.
  rewrite (ServiceProofs.decodeStart_put o false None None []); [done|done|done|by eexists|].
  by rewrite app_nil_r.
Qed.

(** C17: the service's decoder reads back exactly the request the client
    encoded.  For every well-formed option block that START encoding accepts, decoding the
    payload succeeds and yields the same executable, working directory, arguments, environment
    and standard-input flag, with no trailing bytes. *)
Theorem start_roundtrip o p n (Hwf : options_wf o)
    (H : encode_start true (Some o) false None None = inr (p, n)) :
  Service.DecodeStart p = Some (ServiceProofs.request_of o).
Proof. by eapply decode_encoded. Qed.

(** The same for detached startup: the request and both log paths
    come back, and the decoder's extra demand that standard input is disabled is met by every
    payload the encoder produces. *)
Theorem detached_roundtrip o out err p n (Hwf : options_wf o)
    (H : encode_start true (Some o) true (Some out) (Some err) = inr (p, n)) :
  Service.DecodeDetached p = Some (ServiceProofs.request_of o, out, err).
Proof.
  unfold encode_start in H. destruct (options_invalid (Some o) true) eqn:I; [done|].
  destruct (start_size o true (Some out) (Some err)) as [|n'] eqn:E; [done|]. injection H as <- <-.
  pose proof (start_size_ok _ _ _ _ _ E) as (_ & _ & _ & _ & Hd & Hn & ->).
  destruct (Hd eq_refl) as [(so & [= <-] & US) (se & [= <-] & UE)].
  unfold Service.DecodeDetached.
  rewrite (ServiceProofs.decodeStart_put o true (Some out) (Some err) (put_string out ++ put_string err));
    [|done|done|by eexists|unfold start_bytes; cbv iota; rewrite !app_nil_r, <- !app_assoc; done].
  cbn [mbind option_bind]. cbn [options_invalid] in I. destruct (executable o); [|done]. bools.
  unfold ServiceProofs.request_of at 1. cbn [Service.Stdin].
  assert (stdin_enabled o = 0) as S0.
  { unfold truth in *. destruct (Z.eqb_spec (stdin_enabled o) 0); [done|].
    cbn [andb negb] in *. done. }
  rewrite S0. cbn [Z.eqb].
  unfold start_bytes in Hn. cbv iota in Hn. rewrite !zlen_app, !put_string_len, !str0_Some in Hn.
  rewrite ServiceProofs.d_str_put by (try done; ServiceProofs.sizes; lia). cbn [mbind option_bind].
  rewrite <- (app_nil_r (put_string err)).
  rewrite ServiceProofs.d_str_put by (try done; ServiceProofs.sizes; lia). done.
Qed.

(** [sh -c true] with one environment override. *)
Definition sample_options : ob_options :=
  Options (Some [115;104]) None (Some [Some [45;99]; Some [116;114;117;101]]) 2
          (Some [Env (Some [65]) (Some [66])]) 1 0.

Lemma encode_start_bounds_witness :
  zlen (start_bytes sample_options false None None) = 43 /\ 0 < 43 <= OB_MAX_FRAME.
Proof.
  apply (encode_start_bounds true (Some sample_options) false None None). vm_compute. reflexivity.
Defined.

Lemma start_roundtrip_witness :
  Service.DecodeStart (start_bytes sample_options false None None)
  = Some (ServiceProofs.request_of sample_options).
Proof.
  apply (start_roundtrip sample_options _ 43); [split; reflexivity|vm_compute; reflexivity].
Defined.

Lemma detached_roundtrip_witness :
  Service.DecodeDetached (start_bytes sample_options true (Some [111]) (Some []))
  = Some (ServiceProofs.request_of sample_options, [111], []).
Proof.
  apply (detached_roundtrip sample_options [111] [] _ 52); [split; reflexivity|vm_compute; reflexivity].
Defined.

(** ** Proofs: discovery *)

Definition digit (c : Z) : Prop := 48 <= c <= 57.
Definition decimal (ds : list Z) (acc : Z) : Z := fold_left (fun v c => v * 10 + (c - 48)) ds acc.

Lemma decimal_le ds acc : Forall digit ds -> 0 <= acc -> acc <= decimal ds acc.
Proof.
  intros Hd; revert acc. induction Hd as [|c ds Hc Hd IH]; intros acc Ha; [done|].
  cbn [decimal fold_left]. unfold digit in Hc. etransitivity; [|apply IH]; lia.
Qed.

Lemma port_digits_spec l acc v : 0 <= acc <= 65535 ->
  port_digits l acc = Some v <-> Forall digit l /\ decimal l acc = v /\ v <= 65535.
Proof.
  revert acc; induction l as [|c l IH]; intros acc Ha; cbn [port_digits].
  - split; [intros [= <-]; repeat split; [constructor|lia]|]. intros (_ & <- & _). done.
  - destruct ((c <? 48) || (57 <? c)) eqn:E; [split; [done|]; intros (H & _ & _); inversion_clear H; unfold digit in *; lia|].
    bools. cbn [decimal fold_left].
    replace (acc * 10 + c - 48) with (acc * 10 + (c - 48)) by lia.
    destruct (Z.ltb_spec 65535 (acc * 10 + (c - 48))).
    + split; [done|]. intros (Hd & Hv & Hle). inversion_clear Hd.
      pose proof (decimal_le l (acc * 10 + (c - 48))) as Hm. unfold decimal in *.
      specialize (Hm ltac:(done) ltac:(lia)). lia.
    + rewrite IH by lia. unfold decimal. split; intros (Hd & Hv & Hle); repeat split; try done.
      * constructor; [unfold digit; lia|done].
      * by inversion_clear Hd.
Qed.

Definition endings : list (list Z) := [[]; [10]; [13; 10]].

Lemma znth_last l c : znth (l ++ [c]) (zlen (l ++ [c]) - 1) = c.
Proof.
  unfold znth, zget. rewrite zlen_snoc. pose proof (zlen_nonneg l).
  destruct (Z.leb_spec 0 (zlen l + 1 - 1)); [|lia]. rewrite lookup_app_r by (unfold zlen in *; lia).
  by replace (Z.to_nat _ - length l)%nat with 0%nat by (unfold zlen; lia).
Qed.
Lemma take_last {A} (l : list A) c : ztake (zlen (l ++ [c]) - 1) (l ++ [c]) = l.
Proof. apply ztake_app_exact. rewrite zlen_snoc. lia. Qed.

Lemma strip_newline_split b : b <> [] -> exists tail, In tail endings /\ b = strip_newline b ++ tail.
Proof.
  intros Hb. destruct b as [|c l _] using rev_ind; [done|]. clear Hb.
  unfold strip_newline. rewrite znth_last, take_last.
  destruct (Z.eqb_spec c 10) as [->|]; [|exists []; split; [simpl; auto|by rewrite app_nil_r]].
  destruct l as [|d l _] using rev_ind; [exists [10]; split; [simpl; auto|done]|].
  rewrite znth_last, take_last. destruct (Z.eqb_spec d 13) as [->|].
  - assert (truth (zlen (l ++ [13])) = true) as -> by (unfold truth; rewrite zlen_snoc; pose proof (zlen_nonneg l); lia).
    exists [13; 10]. split; [simpl; auto|]. cbn [andb]. by rewrite <- app_assoc.
  - rewrite andb_false_r. exists [10]. split; [simpl; auto|done].
Qed.

Lemma strip_newline_app x c tail : c <> 10 -> c <> 13 -> In tail endings ->
  strip_newline ((x ++ [c]) ++ tail) = x ++ [c].
Proof.
  intros H1 H2 Ht. unfold strip_newline. simpl in Ht. destruct Ht as [<-|[<-|[<-|[]]]].
  - rewrite app_nil_r, znth_last. by rewrite (proj2 (Z.eqb_neq c 10)) by done.
  - rewrite znth_last, take_last, znth_last. cbn [Z.eqb Pos.eqb].
    rewrite (proj2 (Z.eqb_neq c 13)) by done. by rewrite andb_false_r.
  - rewrite (app_assoc _ [13] [10]), znth_last, take_last, znth_last, take_last. cbn [Z.eqb Pos.eqb].
    replace (truth _) with true; [done|]. unfold truth. rewrite !zlen_snoc. pose proof (zlen_nonneg x). lia.
Qed.

(** The discovery file is accepted exactly when it has the form the
    protocol document prescribes: at most 64 bytes, the literal loopback address, a decimal port
    between 1 and 65535, and at most one LF or CRLF at the end; the port returned is that number. *)
Theorem parse_endpoint_exact b p :
  parse_endpoint b = Some p <->
  zlen b <= 64 /\ 1 <= p <= 65535 /\
  exists ds tail, b = loopback_prefix ++ ds ++ tail /\ In tail endings /\ Forall digit ds /\ decimal ds 0 = p.
Proof.
  unfold parse_endpoint. split.
  - destruct (_ || (64 <? _)) eqn:E1; [done|]. bools.
    destruct (strip_newline_split b) as (tail & Ht & Hb); [intros ->; done|].
    destruct (_ || negb _) eqn:E2; [done|]. bools.
    destruct (port_digits _ 0) as [v|] eqn:E3; [|done]. apply port_digits_spec in E3 as (Hd & Hv & Hle); [|lia].
    destruct (Z.eqb_spec v 0); [done|]. intros [= <-].
    pose proof (decimal_le _ 0 Hd). split; [lia|]. split; [lia|].
    exists (zdrop 10 (strip_newline b)), tail. split; [|done].
    rewrite Hb at 1. rewrite <- (ztake_zdrop 10 (strip_newline b)) at 1. rewrite <- app_assoc. by f_equal.
  - intros (Hl & Hp & ds & tail & -> & Ht & Hd & Hv).
    assert (exists x c, ds = x ++ [c] /\ digit c) as (x & c & -> & Hc).
    { destruct ds as [|c x _] using rev_ind; [simpl in Hv; lia|]. exists x, c. split; [done|].
      apply Forall_app in Hd as [_ Hd]. by inversion_clear Hd. }
    unfold digit in Hc. rewrite app_assoc, (app_assoc loopback_prefix x [c]).
    rewrite strip_newline_app; [|lia|lia|done].
    rewrite (proj2 (orb_false_iff _ _)); [|split; apply Z.eqb_neq || apply Z.ltb_ge].
    2:{ rewrite !zlen_app, zlen_cons. pose proof (zlen_nonneg x). pose proof (zlen_nonneg tail).
        change (zlen loopback_prefix) with 10. pose proof (zlen_nonneg (A:=Z) []). lia. }
    2:{ rewrite <- !app_assoc. rewrite <- app_assoc in Hl. done. }
    rewrite <- app_assoc, ztake_app_exact, zdrop_app_exact, list_eqb_refl by done.
    rewrite (proj2 (orb_false_iff _ _)); [|split; [|done]; apply Z.leb_gt; rewrite zlen_app, zlen_snoc; change (zlen loopback_prefix) with 10; pose proof (zlen_nonneg x); lia].
    rewrite (proj2 (port_digits_spec _ 0 p ltac:(lia))) by (repeat split; [done|done|lia]).
    by rewrite (proj2 (Z.eqb_neq _ _)) by lia.
Qed.
