(* ===== verification/BrokerClient.v ===== *)
(** * The command broker client

    The process handle of src/sdk/c/oheco_broker.c: bounded socket I/O, framing,
    the START exchange, stdin, cancellation, events and release.  The operating
    system is the record [kernel]: every system call, clock reading and allocation
    consumes one tick and is answered by the kernel at that tick, so a theorem over
    all kernels covers every schedule of partial transfers, interruptions, errors
    and delays.  Other threads act through the atomic flags only ([k_others]): the
    writer mutex excludes them from the socket while an operation sends. *)

From S2P Require Import Prelude.
From S2P Require Import Utf8.
From S2P Require Import BrokerWire.
Import BrokerUtf8.

(** ** The operating system *)

Inductive poll_result := PollReady (nval : bool) | PollTimeout | PollFailed (e : Z).
Inductive recv_result := RecvGot (b : list Z) | RecvEof | RecvFailed (e : Z).
Inductive send_result := Sent (n : Z) | SendFailed (e : Z).

(** What other threads did to the atomics of the handle since the last tick:
    [ob_cancel] stored [cancelled], somebody poisoned, the event reader saw EXIT. *)
Record others := Others { o_cancel : bool; o_failure : ob_error; o_exit : option ob_exit }.
Definition nobody : others := Others false OB_OK None.

Record kernel := Kernel {
  k_clock : nat -> Z;                     (** CLOCK_MONOTONIC, in milliseconds *)
  k_poll : nat -> poll_result;
  k_send : nat -> list Z -> send_result;
  k_recv : nat -> Z -> recv_result;
  k_malloc : nat -> bool;
  k_mutex : nat -> Z;                     (** [pthread_mutex_init] *)
  k_socket : nat -> Z;                    (** the descriptor, negative on failure *)
  k_fcntl : nat -> bool;
  k_connect : nat -> option Z;            (** errno on failure *)
  k_soerror : nat -> Z;                   (** SO_ERROR, or the errno of [getsockopt] *)
  k_errno : nat -> Z;
  k_others : nat -> others
}.

(** POSIX: a successful transfer is positive and within the size asked for, bytes
    are bytes, a failed call leaves a nonzero errno. *)
Record kernel_ok (k : kernel) : Prop := {
  send_ok : forall t b n, k_send k t b = Sent n -> 0 <= n <= zlen b;
  send_errno : forall t b e, k_send k t b = SendFailed e -> e <> 0;
  recv_ok : forall t n b, k_recv k t n = RecvGot b -> bytes b /\ 1 <= zlen b <= n;
  recv_errno : forall t n e, k_recv k t n = RecvFailed e -> e <> 0;
  poll_errno : forall t e, k_poll k t = PollFailed e -> e <> 0
}.
(** The monotonic clock passes every instant and never goes back. *)
Definition clock_runs (k : kernel) : Prop :=
  (forall t, 0 <= k_clock k t) /\ forall end_, exists T, forall t, (T <= t)%nat -> end_ <= k_clock k t.

(** ** The process handle *)

Record ob_process := Process {
  fd : Z;
  failure : ob_error;
  cancelled : bool;
  exited : bool;
  stdin_open : Z;
  header : list Z;             (** the [header_have] bytes received *)
  payload : option (list Z);   (** NULL, or the [payload_have] bytes received *)
  payload_size : Z;
  result : ob_exit
}.
#[export] Instance eta_ob_process : Eta ob_process := fun p =>
  Process (fd p) (failure p) (cancelled p) (exited p) (stdin_open p) (header p) (payload p)
    (payload_size p) (result p).

Record ob_diagnostic := Diagnostic {
  code : ob_error; native_error : Z; stage : list Z; message : list Z }.

(** The handle, the caller's diagnostic, and the effects outside the process:
    bytes the socket accepted and delivered, open descriptors, [shutdown]. *)
Record world := World {
  proc : ob_process;
  tick : nat;
  sent : list Z;
  received : list Z;
  shut : bool;
  opened : list Z;
  closed : list Z;
  diagnostic : option ob_diagnostic
}.
#[export] Instance eta_world : Eta world := fun w =>
  World (proc w) (tick w) (sent w) (received w) (shut w) (opened w) (closed w) (diagnostic w).

Definition M (A : Type) : Type := SO world A.
#[export] Instance M_ret : MRet M := SO_ret world.
#[export] Instance M_bind : MBind M := SO_bind world.

(** [snprintf(d->stage, 24, ...)] and [snprintf(d->message, 256, ...)]. *)
Definition diag (e : ob_error) (st : list Z) (native : Z) (msg : list Z) : M ob_error := fun w =>
  Some (e, w <| diagnostic := Some (Diagnostic e native (ztake 23 st) (ztake 255 msg)) |>).

Definition ob_error_name (e : Z) : list Z :=
  if (0 <=? e) && (e <? 9) then
    nth (Z.to_nat e) (map lit ["OK"; "UNAVAILABLE"; "PROTOCOL"; "SPAWN_FAILED"; "CONNECTION_LOST";
      "INVALID_ARGUMENT"; "TIMEOUT"; "IO"; "LIMIT"]%string) []
  else lit "UNKNOWN".

Section client.
Context (k : kernel).

Definition ask {A} (f : kernel -> nat -> A) : M A := fun w =>
  Some (f k (tick w), w <| tick ::= S |>).
Definition set_proc (f : ob_process -> ob_process) : M unit := fun w => Some (tt, w <| proc ::= f |>).
Definition the {A} (f : ob_process -> A) : M A := fun w => Some (f (proc w), w).

Definition CAS (p : ob_process) (e : ob_error) : ob_process :=
  if bool_decide (failure p = OB_OK) then p <| failure := e |> else p.
Definition interfere (o : others) (p : ob_process) : ob_process :=
  let p := CAS (p <| cancelled ::= orb (o_cancel o) |>) (o_failure o) in
  match o_exit o with Some r => p <| exited := true |> <| result := r |> | None => p end.
(** [atomic_load]: what other threads stored before it becomes visible. *)
Definition atomic_load {A} (f : ob_process -> A) : M A :=
  o ← ask k_others; _ ← set_proc (interfere o); the f.

Definition now_ms : M Z := ask k_clock.
Definition deadline (timeout : Z) : M Z :=
  if timeout <? 0 then mret (-1) else n ← now_ms; mret (n + timeout).
Definition remaining (end_ : Z) : M Z :=
  if end_ <? 0 then mret (-1)
  else now ← now_ms; let n := end_ - now in
    mret (if n <=? 0 then 0 else if INT_MAX <? n then INT_MAX else n).

Fixpoint ready (fuel : nat) (end_ : Z) (interruptible : bool) : M Z :=
  match fuel with
  | O => out_of_fuel
  | S fuel =>
    c ← (if interruptible then atomic_load cancelled else mret false);
    if c : bool then mret ECANCELED
    else
      timeout ← remaining end_;
      (** the timeout only bounds how long [poll] sleeps *)
      r ← ask k_poll;
      match r with
      | PollReady nval => mret (if nval : bool then EBADF else 0)
      | PollFailed e =>
        if negb (e =? EINTR) then mret e
        else if 0 <=? end_ then
          left ← remaining end_; if left =? 0 then mret ETIMEDOUT else ready fuel end_ interruptible
        else ready fuel end_ interruptible
      | PollTimeout =>
        if 0 <=? end_ then
          left ← remaining end_; if left =? 0 then mret ETIMEDOUT else ready fuel end_ interruptible
        else ready fuel end_ interruptible
      end
  end.

(** [send(fd, data, size, MSG_NOSIGNAL)]: the accepted prefix reaches the stream. *)
Definition safe_send (b : list Z) : M send_result := fun w =>
  let r := k_send k (tick w) b in
  let w := w <| tick ::= S |> in
  match r with
  | Sent n => Some (r, w <| sent ::= fun l => l ++ ztake n b |>)
  | SendFailed _ => Some (r, w)
  end.

Fixpoint send_bytes (fuel : nat) (b : list Z) (end_ : Z) (interruptible : bool) : M Z :=
  match b, fuel with
  | [], _ => mret 0
  | _, O => out_of_fuel
  | _, S fuel' =>
    c ← (if interruptible then atomic_load cancelled else mret false);
    if c : bool then mret ECANCELED
    else
      left ← remaining end_;
      if left =? 0 then mret ETIMEDOUT
      else
        r ← safe_send b;
        match r with
        | Sent n => if 0 <? n then send_bytes fuel' (zdrop n b) end_ interruptible else mret EPIPE
        | SendFailed e =>
          if e =? EINTR then send_bytes fuel' b end_ interruptible
          else if e =? EAGAIN then
            rc ← ready fuel end_ interruptible;
            if truth rc then mret rc else send_bytes fuel' b end_ interruptible
          else mret e
        end
  end.

Definition recv (n : Z) : M recv_result := fun w =>
  let r := k_recv k (tick w) n in
  let w := w <| tick ::= S |> in
  match r with
  | RecvGot b => Some (r, w <| received ::= fun l => l ++ b |>)
  | _ => Some (r, w)
  end.

(** [recv_bytes]: [b] is what the buffer already holds ([*have] bytes); [store] writes
    the buffer back, and the result carries it for a buffer on the caller's stack. *)
Fixpoint recv_bytes (fuel : nat) (store : list Z -> ob_process -> ob_process) (b : list Z)
    (n end_ : Z) : M (Z * list Z) :=
  if n <=? zlen b then mret (0, b)
  else match fuel with
  | O => out_of_fuel
  | S fuel' =>
    r ← recv (n - zlen b);
    match r with
    | RecvGot got => _ ← set_proc (store (b ++ got)); recv_bytes fuel' store (b ++ got) n end_
    | RecvEof => mret (ECONNRESET, b)
    | RecvFailed e =>
      if e =? EINTR then
        left ← remaining end_;
        if left =? 0 then mret (ETIMEDOUT, b) else recv_bytes fuel' store b n end_
      else if negb (e =? EAGAIN) then mret (e, b)
      else
        rc ← ready fuel end_ false;
        if truth rc then mret (rc, b) else recv_bytes fuel' store b n end_
    end
  end.

Definition frame_header (type n : Z) : list Z := u8 type :: put32 (u32 n).
Definition send_frame (fuel : nat) (type : Z) (b : list Z) (end_ : Z) (interruptible : bool) : M Z :=
  rc ← send_bytes fuel (frame_header type (zlen b)) end_ interruptible;
  if truth rc then mret rc else send_bytes fuel b end_ interruptible.

Definition poison (e : ob_error) : M ob_error :=
  o ← ask k_others;
  _ ← set_proc (fun p => CAS (interfere o p) e);
  _ ← modify_o (fun w => w <| shut := true |>);
  atomic_load failure.

Definition frame_valid (starting t n : Z) : bool :=
  (n <=? OB_MAX_FRAME) &&
  (((t =? 9) && (8 <=? n)) || ((starting =? 1) && (t =? 2) && (n =? 0)) ||
   ((starting =? 2) && (t =? 11) && (n =? 4)) ||
   ((starting =? 0) && (((t =? 8) && (n =? 12)) ||
                        (((t =? 5) || (t =? 6)) && (1 <=? n) && (n <=? OB_MAX_STREAM))))).

Definition store_header (b : list Z) (p : ob_process) : ob_process := p <| header := b |>.
Definition store_payload (b : list Z) (p : ob_process) : ob_process := p <| payload := Some b |>.
Definition recv_header (fuel : nat) (end_ : Z) : M Z :=
  b ← the header; r ← recv_bytes fuel store_header b 5 end_; mret r.1.
Definition recv_payload (fuel : nat) (end_ : Z) : M Z :=
  n ← the payload_size;
  b ← the payload; r ← recv_bytes fuel store_payload (default [] b) n end_; mret r.1.

(** The tail of [receive_frame] once a whole frame is in the buffers. *)
Definition frame_result : M ob_error :=
  p ← the id;
  if znth (header p) 0 =? 9 then
    let b := default [] (payload p) in
    let c := get32 b in let n := get32 (zdrop 4 b) in
    if (c <? 1) || (8 <? c) || negb (n =? payload_size p - 8) || negb (utf8 (zsub 8 n b)) then
      e ← poison OB_PROTOCOL; diag e (lit "error") 0 (lit "Invalid ERROR payload")
    else
      e ← poison (error_of_code c); diag e (lit "server") 0 (ztake (Z.min n 255) (zdrop 8 b))
  else mret OB_OK.

Definition frame_rest (fuel : nat) (rc end_ : Z) : M ob_error :=
  rc ← (if truth rc then mret rc else recv_payload fuel end_);
  if rc =? ETIMEDOUT then
    diag OB_TIMEOUT (lit "read") rc (lit "Read deadline expired; command not cancelled")
  else if truth rc then
    e ← atomic_load failure;
    e ← poison (if bool_decide (e = OB_OK) then OB_CONNECTION_LOST else e);
    diag e (lit "read") rc (lit "Connection lost; command outcome may be unknown")
  else frame_result.

Definition receive_frame (fuel : nat) (end_ starting : Z) : M ob_error :=
  rc ← recv_header fuel end_;
  pl ← the payload;
  match truth rc, pl with
  | false, None =>
    h ← the header;
    let n := get32 (zdrop 1 h) in
    _ ← set_proc (fun p => p <| payload_size := n |>);
    if negb (frame_valid starting (znth h 0) n) then
      e ← poison OB_PROTOCOL; diag e (lit "frame") 0 (lit "Invalid frame type, order or size")
    else
      ok ← ask k_malloc;
      if negb ok then e ← poison OB_IO; diag e (lit "frame") ENOMEM (lit "Allocation failed")
      else _ ← set_proc (fun p => p <| payload := Some [] |>); frame_rest fuel rc end_
  | _, _ => frame_rest fuel rc end_
  end.

Definition clear_frame : M unit :=
  set_proc (fun p => p <| payload := None |> <| header := [] |> <| payload_size := 0 |>).

(** [ob_release]: the descriptor is closed; the memory is gone with the handle. *)
Definition ob_release : M unit := fun w =>
  Some (tt, if 0 <=? fd (proc w) then w <| closed ::= cons (fd (proc w)) |> else w).

(** ** Starting a process *)

Context (home : option cstr) (fs : cstr -> endpoint_file).

Definition new_process : ob_process :=
  Process (-1) OB_OK false false 0 [] None 0 (Exit 0 0 0).

(** The [fail:] label: the handle is released and the caller gets NULL. *)
Definition start_fail (e : ob_error) : M (ob_error * bool) := _ ← ob_release; mret (e, false).

Definition magic (detached : bool) : list Z :=
  lit (if detached then "OHECOB2" else "OHECOB1")%string ++ [10].

Definition start_connect (fuel : nat) : M Z :=
  end_ ← deadline OB_DEADLINE;
  r ← ask k_connect;
  match r with
  | None => mret 0
  | Some e =>
    if (e =? EINPROGRESS) || (e =? EINTR) then
      rc ← ready fuel end_ false;
      if truth rc then mret rc else ask k_soerror
    else mret e
  end.

(** [response] is a local array: nothing of the handle is written. *)
Definition start_handshake (fuel : nat) (detached : bool) : M (Z * bool) :=
  end_ ← deadline OB_DEADLINE;
  rc ← send_bytes fuel (magic detached) end_ false;
  if truth rc then mret (rc, false)
  else
    r ← recv_bytes fuel (fun _ p => p) [] 8 end_;
    mret (r.1, negb (truth r.1) && list_eqb (magic detached) r.2).

Definition start_request (fuel : nat) (o : ob_options) (detached : bool) (pl : list Z)
    : M (ob_error * bool) :=
  end_ ← deadline OB_DEADLINE;
  rc ← send_frame fuel (if detached then 10 else 1) pl end_ false;
  if truth rc then
    e ← diag (if rc =? ETIMEDOUT then OB_TIMEOUT else OB_CONNECTION_LOST) (lit "start") rc
           (lit "START send failed; outcome may be unknown");
    start_fail e
  else
    e ← receive_frame fuel end_ (if detached then 2 else 1);
    if bool_decide (e = OB_OK) then
      _ ← (if detached then mret tt else clear_frame);
      _ ← set_proc (fun p => p <| stdin_open := stdin_enabled o |>);
      e ← diag OB_OK (lit "start") 0 [];
      mret (e, true)
    else
      f ← (if detached && bool_decide (e = OB_TIMEOUT) then atomic_load failure else mret OB_IO);
      _ ← (if bool_decide (f = OB_OK) then
             diag e (lit "start") ETIMEDOUT
               (lit "Detached START deadline expired; outcome unknown; do not retry")
           else mret e);
      start_fail e.

Definition start_socket (fuel : nat) (o : ob_options) (detached : bool) (pl : list Z)
    : M (ob_error * bool) :=
  s ← ask k_socket;
  _ ← (if s <? 0 then mret tt else modify_o (fun w => w <| opened ::= cons s |>));
  _ ← set_proc (fun p => p <| fd := s |>);
  ok ← (if s <? 0 then mret false
        else f ← ask k_fcntl; if f : bool then ask k_fcntl else mret false);
  if negb ok then
    errno ← ask k_errno;
    e ← diag OB_UNAVAILABLE (lit "connect") errno (lit "Cannot create nonblocking socket");
    start_fail e
  else
    rc ← start_connect fuel;
    if truth rc then
      e ← diag OB_UNAVAILABLE (lit "connect") rc (lit "Broker connection failed"); start_fail e
    else
      h ← start_handshake fuel detached;
      if negb h.2 then
        e ← diag OB_PROTOCOL (lit "handshake") h.1 (lit "Handshake failed"); start_fail e
      else start_request fuel o detached pl.

(** [start_exchange]: the error and whether [*out] is a handle (then [proc]). *)
Definition start_exchange (fuel : nat) (endpoint_file : option cstr) (opts : option ob_options)
    (detached : bool) (out err : option cstr) : M (ob_error * bool) :=
  m ← ask k_malloc;
  match encode_start m opts detached out err, opts with
  | inr (pl, _), Some o =>
    m ← ask k_malloc;
    match discover endpoint_file home m fs with
    | inl rc =>
      e ← diag OB_UNAVAILABLE (lit "discovery") rc (lit "Endpoint file unavailable or malformed");
      mret (e, false)
    | inr port =>
      m ← ask k_malloc;
      if negb m then e ← diag OB_IO (lit "start") ENOMEM (lit "Allocation failed"); mret (e, false)
      else
        _ ← set_proc (fun _ => new_process);
        rc ← ask k_mutex;
        if truth rc then
          e ← diag OB_IO (lit "start") rc (lit "Mutex creation failed"); mret (e, false)
        else start_socket fuel o detached pl
    end
  | inl e, _ =>
    e ← diag e (lit "options") 0 (lit "Invalid options, invalid UTF-8 or oversized START");
    mret (e, false)
  | inr _, None => mret (OB_INVALID_ARGUMENT, false)
  end.

(** [out] says whether the caller passed a result pointer. *)
Definition ob_start (fuel : nat) (endpoint_file : option cstr) (o : option ob_options) (out : bool)
    : M (ob_error * bool) :=
  if negb out then
    e ← diag OB_INVALID_ARGUMENT (lit "start") 0 (lit "Missing result pointer"); mret (e, false)
  else start_exchange fuel endpoint_file o false None None.

(** The result and [*pid]. *)
Definition ob_spawn_detached (fuel : nat) (endpoint_file : option cstr) (o : option ob_options)
    (stdout_file stderr_file : option cstr) (pid : bool) : M (ob_error * Z) :=
  if negb pid then
    e ← diag OB_INVALID_ARGUMENT (lit "start") 0 (lit "Missing PID pointer"); mret (e, 0)
  else
    r ← start_exchange fuel endpoint_file o true
          (Some (default [] stdout_file)) (Some (default [] stderr_file));
    if negb (bool_decide (r.1 = OB_OK)) then mret (r.1, 0)
    else
      pl ← the payload;
      let value := get32 (default [] pl) in
      res ← (if (value =? 0) || (INT32_MAX <? value) then
               e ← diag OB_PROTOCOL (lit "start") 0 (lit "Invalid detached PID"); mret (e, 0)
             else mret (r.1, value));
      _ ← ob_release;
      mret res.

(** ** Standard input and cancellation *)

Fixpoint input_chunks (fuel : nat) (b : list Z) (end_ : Z) : M (ob_error * Z) :=
  match b, fuel with
  | [], _ => mret (OB_OK, 0)
  | _, O => out_of_fuel
  | _, S fuel' =>
    c ← atomic_load cancelled;
    if c : bool then mret (OB_IO, 0)
    else
      let n := if OB_MAX_STREAM <? zlen b then OB_MAX_STREAM else zlen b in
      rc ← send_frame fuel 3 (ztake n b) end_ false;
      if truth rc then mret (OB_OK, rc) else input_chunks fuel' (zdrop n b) end_
  end.

(** The checks [input] makes under the writer lock before it sends. *)
Definition input_gate : M ob_error :=
  e ← atomic_load failure;
  e ← (if bool_decide (e = OB_OK) then
         c ← atomic_load cancelled;
         x ← (if c : bool then mret true else atomic_load exited);
         mret (if x : bool then OB_IO else OB_OK)
       else mret e);
  open ← the stdin_open;
  mret (if bool_decide (e = OB_OK) && negb (truth open) then OB_INVALID_ARGUMENT else e).

(** [p] says whether the handle is non-NULL; a NULL [data] with a size is refused. *)
Definition input (fuel : nat) (p : bool) (data : option (list Z)) (size : Z) (eof : bool) : M ob_error :=
  if negb p || (bool_decide (data = None) && truth size) then
    diag OB_INVALID_ARGUMENT (lit "stdin") 0 (lit "Invalid input argument")
  else
    e ← input_gate;
    end_ ← deadline OB_DEADLINE;
    rc ← (if bool_decide (e = OB_OK) && eof then send_frame fuel 4 [] end_ false else mret 0);
    r ← (if bool_decide (e = OB_OK) && negb (truth rc)
         then input_chunks fuel (ztake size (default [] data)) end_ else mret (e, rc));
    e ← (if truth r.2 then
           poison (if r.2 =? ETIMEDOUT then OB_TIMEOUT
                   else if r.2 =? ECANCELED then OB_IO else OB_CONNECTION_LOST)
         else mret r.1);
    _ ← (if bool_decide (e = OB_OK) && eof then set_proc (fun p => p <| stdin_open := 0 |>) else mret tt);
    diag e (lit "stdin") r.2
      (if bool_decide (e = OB_OK) then [] else lit "Input failed or closed; transport failures close connection").

Definition ob_write_stdin (fuel : nat) (p : bool) (data : option (list Z)) (n : Z) : M ob_error :=
  input fuel p data n false.
Definition ob_close_stdin (fuel : nat) (p : bool) : M ob_error := input fuel p None 0 true.

Definition ob_cancel (fuel : nat) (p : bool) : M ob_error :=
  if negb p then diag OB_INVALID_ARGUMENT (lit "cancel") 0 (lit "Missing process")
  else
    _ ← set_proc (fun p => p <| cancelled := true |>);
    e ← atomic_load failure;
    rc ← (if bool_decide (e = OB_OK) then
            x ← atomic_load exited;
            if x : bool then mret 0
            else end_ ← deadline OB_DEADLINE; send_frame fuel 7 [] end_ false
          else mret 0);
    e ← (if truth rc then poison (if rc =? ETIMEDOUT then OB_TIMEOUT else OB_CONNECTION_LOST)
         else mret e);
    diag e (lit "cancel") rc
      (if bool_decide (e = OB_OK) then [] else lit "Cancellation transport failed; connection closed").

(** ** Events *)

(** [memset(event, 0, ...)] then the fields set; [data] borrows the payload. *)
Record ob_event := Event { ev_type : Z; ev_data : list Z; ev_size : Z; ev_result : ob_exit }.
Definition no_event : ob_event := Event 0 [] 0 (Exit 0 0 0).
Definition OB_STDOUT : Z := 5.
Definition OB_STDERR : Z := 6.
Definition OB_EXIT : Z := 8.

Definition frame_complete (p : ob_process) : bool :=
  (zlen (header p) =? 5) &&
  match payload p with Some b => zlen b =? payload_size p | None => false end.

(** The EXIT branch of [read_event_until]. *)
Definition exit_of (b : list Z) : option ob_exit :=
  let reason := get32 b in let code := get32 (zdrop 4 b) in let sig := get32 (zdrop 8 b) in
  let normal := (code <=? 255) && (sig =? 0) in
  let signalled := (code =? UINT32_MAX) && (0 <? sig) in
  if negb (((reason =? 0) && normal) || ((reason =? 1) && signalled) ||
           ((reason =? 2) && (normal || signalled))) then None
  else Some (Exit reason (if code =? UINT32_MAX then -1 else code) sig).

Definition read_event_until (fuel : nat) (end_ : Z) : M (ob_error * ob_event) :=
  x ← atomic_load exited;
  if x : bool then
    r ← the result; e ← diag OB_OK (lit "read") 0 []; mret (e, Event OB_EXIT [] 0 r)
  else
    e ← atomic_load failure;
    if negb (bool_decide (e = OB_OK)) then
      e ← diag e (lit "read") 0 (lit "Connection is terminal"); mret (e, no_event)
    else
      done ← the frame_complete;
      _ ← (if done : bool then clear_frame else mret tt);
      e ← receive_frame fuel end_ 0;
      if negb (bool_decide (e = OB_OK)) then mret (e, no_event)
      else
        p ← the id;
        let t := znth (header p) 0 in
        let b := default [] (payload p) in
        if t =? OB_EXIT then
          match exit_of b with
          | None =>
            e ← poison OB_PROTOCOL;
            e ← diag e (lit "exit") 0 (lit "Invalid EXIT payload");
            mret (e, Event t [] 0 (Exit 0 0 0))
          | Some r =>
            _ ← set_proc (fun p => p <| result := r |> <| exited := true |>);
            e ← diag OB_OK (lit "read") 0 []; mret (e, Event t [] 0 r)
          end
        else
          e ← diag OB_OK (lit "read") 0 []; mret (e, Event t b (payload_size p) (Exit 0 0 0)).

Definition ob_read_event (fuel : nat) (p event : bool) (timeout : Z) : M (ob_error * ob_event) :=
  if negb p || negb event || (timeout <? -1) then
    e ← diag OB_INVALID_ARGUMENT (lit "read") 0 (lit "Invalid reader argument"); mret (e, no_event)
  else end_ ← deadline timeout; read_event_until fuel end_.

Fixpoint wait_loop (fuel : nat) (io : nat) (end_ : Z) : M (ob_error * option ob_exit) :=
  match fuel with
  | O => out_of_fuel
  | S fuel =>
    r ← read_event_until io end_;
    if negb (bool_decide (r.1 = OB_OK)) then mret (r.1, None)
    else if ev_type r.2 =? OB_EXIT then mret (OB_OK, Some (ev_result r.2))
    else
      left ← (if 0 <=? end_ then remaining end_ else mret (-1));
      if left =? 0 then
        e ← diag OB_TIMEOUT (lit "wait") 0 (lit "Wait deadline expired; command not cancelled");
        mret (e, None)
      else wait_loop fuel io end_
  end.
Definition ob_wait (fuel : nat) (p result : bool) (timeout : Z) : M (ob_error * option ob_exit) :=
  if negb p || negb result || (timeout <? -1) then
    e ← diag OB_INVALID_ARGUMENT (lit "wait") 0 (lit "Invalid wait argument"); mret (e, None)
  else end_ ← deadline timeout; wait_loop fuel fuel end_.

End client.

(** ** Proofs: running a computation *)

Lemma bind_Some {A B} (c : M A) (f : A -> M B) w r :
  (c ≫= f) w = Some r <-> exists a w', c w = Some (a, w') /\ f a w' = Some r.
Proof.
  unfold mbind, M_bind, SO_bind. destruct (c w) as [[a w']|]; split.
  - eauto.
  - by intros (? & ? & [= <- <-] & ?).
  - done.
  - by intros (? & ? & ? & ?).
Qed.
Lemma ret_Some {A} (a b : A) (w w' : world) : mret (M:=M) a w = Some (b, w') -> b = a /\ w' = w.
Proof. by intros [= <- <-]. Qed.
Lemma ask_Some {A} k (f : kernel -> nat -> A) w b w' :
  ask k f w = Some (b, w') -> b = f k (tick w) /\ w' = w <| tick ::= S |>.
Proof. by intros [= <- <-]. Qed.
Lemma the_Some {A} (f : ob_process -> A) w b w' : the f w = Some (b, w') -> b = f (proc w) /\ w' = w.
Proof. by intros [= <- <-]. Qed.
Lemma set_proc_Some f w b w' : set_proc f w = Some (b, w') -> w' = w <| proc ::= f |>.
Proof. by intros [= <- <-]. Qed.
Lemma modify_o_Some (f : world -> world) w b w' : modify_o f w = Some (b, w') -> w' = f w.
Proof. by intros [= <- <-]. Qed.
Lemma diag_Some e st n m w b w' : diag e st n m w = Some (b, w') ->
  b = e /\ w' = w <| diagnostic := Some (Diagnostic e n (ztake 23 st) (ztake 255 m)) |>.
Proof. by intros [= <- <-]. Qed.

(** What an I/O loop may change: the clock, the streams, and the handle as given. *)
Record io (w w' : world) (p : ob_process) (x y : list Z) : Prop := Io {
  io_proc : proc w' = p;
  io_tick : (tick w <= tick w')%nat;
  io_sent : sent w' = sent w ++ x;
  io_received : received w' = received w ++ y;
  io_shut : shut w' = shut w;
  io_closed : (opened w', closed w') = (opened w, closed w);
  io_diagnostic : diagnostic w' = diagnostic w
}.
Lemma io_refl w : io w w (proc w) [] [].
Proof. by constructor; rewrite ?app_nil_r. Qed.
Lemma io_trans w1 w2 w3 p q x x' y y' :
  io w1 w2 p x y -> io w2 w3 q x' y' -> io w1 w3 q (x ++ x') (y ++ y').
Proof.
  intros [? ? H1 H2 ? ? ?] [? ? H1' H2' ? ? ?]. constructor; try congruence; [lia|..].
  - by rewrite H1', H1, app_assoc.
  - by rewrite H2', H2, app_assoc.
Qed.
(** Nothing happens but the passing of time. *)
Definition idle (w w' : world) : Prop := io w w' (proc w) [] [].
#[export] Instance idle_preorder : PreOrder idle.
Proof.
  split; [intros w; apply io_refl|]. intros w1 w2 w3 H1 H2. unfold idle.
  rewrite <- (io_proc _ _ _ _ _ H1). by apply (io_trans w1 w2 w3 _ _ [] [] [] [] H1).
Qed.
Lemma idle_io_l w1 w2 w3 q x y : idle w1 w2 -> io w2 w3 q x y -> io w1 w3 q x y.
Proof. intros H1 H2. by apply (io_trans _ _ _ _ _ [] x [] y H1). Qed.
Lemma idle_io_r w1 w2 w3 p x y : io w1 w2 p x y -> idle w2 w3 -> io w1 w3 p x y.
Proof.
  intros H1 H2. unfold idle in H2. rewrite (io_proc _ _ _ _ _ H1) in H2.
  rewrite <- (app_nil_r x), <- (app_nil_r y). by eapply io_trans.
Qed.
Lemma idle_tick w w' : idle w w' -> (tick w <= tick w')%nat.
Proof. apply io_tick. Qed.

Section io_proofs.
Context (k : kernel) (Hk : kernel_ok k).

Lemma ask_idle {A} (f : kernel -> nat -> A) w a w' :
  ask k f w = Some (a, w') -> a = f k (tick w) /\ idle w w' /\ tick w' = S (tick w).
Proof. intros [-> ->]%ask_Some. split; [done|]. split; [|done]. constructor; simpl; rewrite ?app_nil_r; auto. Qed.
Lemma remaining_idle end_ w a w' : remaining k end_ w = Some (a, w') ->
  idle w w' /\ (0 <= end_ -> (tick w < tick w')%nat /\ (end_ <= k_clock k (tick w) -> a = 0)).
Proof.
  unfold remaining. destruct (Z.ltb_spec end_ 0).
  - intros [-> ->]%ret_Some. split; [done|lia].
  - intros (n & w1 & (-> & Hi & Ht)%ask_idle & [-> ->]%ret_Some)%bind_Some. split; [done|].
    intros _. split; [lia|]. intros. by destruct (Z.leb_spec (end_ - k_clock k (tick w)) 0); [|lia].
Qed.
Lemma deadline_idle timeout w a w' : deadline k timeout w = Some (a, w') ->
  idle w w' /\ a = (if timeout <? 0 then -1 else k_clock k (tick w) + timeout).
Proof.
  unfold deadline. destruct (timeout <? 0); [by intros [-> ->]%ret_Some|].
  by intros (n & w1 & (-> & Hi & Ht)%ask_idle & [-> ->]%ret_Some)%bind_Some.
Qed.

(** Symbolic execution that keeps what silent steps guarantee. *)
Ltac mio1 :=
  match goal with
  | H : (_ ≫= _) _ = Some _ |- _ => apply bind_Some in H as (? & ? & ? & H); cbv beta in H
  | H : mret _ _ = Some _ |- _ => apply ret_Some in H as [? ?]
  | H : ask _ _ _ = Some _ |- _ => apply ask_idle in H as (? & ? & ?)
  | H : remaining _ _ _ = Some _ |- _ => apply remaining_idle in H as [? ?]
  | H : deadline _ _ _ = Some _ |- _ => apply deadline_idle in H as [? ?]
  | H : the _ _ = Some _ |- _ => apply the_Some in H as [? ?]
  | H : set_proc _ _ = Some _ |- _ => apply set_proc_Some in H
  | H : modify_o _ _ = Some _ |- _ => apply modify_o_Some in H
  | H : out_of_fuel _ = Some _ |- _ => discriminate H
  | H : (let _ := _ in _) _ = Some _ |- _ => cbv zeta in H
  | H : (if ?b then _ else _) _ = Some _ |- _ => destruct b eqn:?
  | H : (match ?x with _ => _ end) _ = Some _ |- _ => destruct x eqn:?
  end.
Ltac mio := repeat (mio1; subst).
Ltac chain := repeat (etransitivity; [eassumption|]); solve [done | eassumption].

Lemma ready_idle fuel end_ w rc w' : ready k fuel end_ false w = Some (rc, w') -> idle w w'.
Proof.
  revert w; induction fuel as [|fuel IH]; intros w H; [done|]. cbn [ready] in H. mio;
  repeat match goal with H : ready _ _ _ _ _ = Some _ |- _ => apply IH in H end; chain.
Qed.

Lemma safe_send_spec b w r w' : safe_send k b w = Some (r, w') ->
  tick w' = S (tick w) /\
  match r with
  | Sent n => 0 <= n <= zlen b /\ io w w' (proc w) (ztake n b) []
  | SendFailed e => e <> 0 /\ idle w w'
  end.
Proof.
  unfold safe_send. destruct (k_send k (tick w) b) eqn:E; intros [= <- <-]; (split; [done|]).
  - split; [by eapply send_ok|]. constructor; simpl; rewrite ?app_nil_r; auto.
  - split; [by eapply send_errno|]. constructor; simpl; rewrite ?app_nil_r; auto.
Qed.

(** [send_bytes] hands over a prefix of the data, and all of it exactly when it reports 0. *)
Definition sends (b : list Z) (rc : Z) (w w' : world) : Prop :=
  exists x rest, b = x ++ rest /\ io w w' (proc w) x [] /\ (rc = 0 <-> rest = []).
Lemma sends_none b rc w w' : b <> [] -> rc <> 0 -> idle w w' -> sends b rc w w'.
Proof. intros Hb Hrc Hi. exists [], b. split_and!; [done|done|]. by split. Qed.
Lemma sends_idle b rc w w1 w' : idle w w1 -> sends b rc w1 w' -> sends b rc w w'.
Proof.
  intros Hi (x & rest & Hb & Hio & Hrc). exists x, rest. split_and!; [done| |done].
  rewrite <- (io_proc _ _ _ _ _ Hi). by eapply idle_io_l.
Qed.
Lemma sends_app n b rc w w1 w' :
  io w w1 (proc w) (ztake n b) [] -> sends (zdrop n b) rc w1 w' -> sends b rc w w'.
Proof.
  intros Hi (x & rest & Hb & Hio & Hrc). exists (ztake n b ++ x), rest. split_and!; [| |done].
  - by rewrite <- app_assoc, <- Hb, ztake_zdrop.
  - rewrite <- (io_proc _ _ _ _ _ Hi). by apply (io_trans _ _ _ _ _ _ _ [] [] Hi).
Qed.

Lemma send_bytes_spec fuel b end_ w rc w' :
  send_bytes k fuel b end_ false w = Some (rc, w') -> sends b rc w w'.
Proof.
  revert b w; induction fuel as [|fuel IH]; intros b w H; destruct b as [|c b]; cbn [send_bytes] in H; try done.
  1,2: apply ret_Some in H as [-> ->]; exists [], []; split_and!; [done|apply io_refl|done].
  set (l := c :: b) in *. assert (l <> []) as Hl by done. clearbody l. mio; try (apply sends_none; [done|done|chain]).
  all: repeat match goal with
    | H : safe_send _ _ _ = Some _ |- _ => apply safe_send_spec in H as (_ & ? & ?)
    | H : ready _ _ _ _ _ = Some _ |- _ => apply ready_idle in H
    | H : send_bytes _ _ _ _ _ _ = Some _ |- _ => apply IH in H
    end.
  - eapply sends_idle; [eassumption|]. by eapply sends_app.
  - apply sends_none; [done|done|]. etransitivity; [eassumption|].
    assert (n = 0) as -> by (bools; lia). by rewrite ztake_0 in * by lia.
  - eapply sends_idle; [|eassumption]. chain.
  - apply sends_none; [done| |chain]. unfold truth in *. by bools.
  - eapply sends_idle; [|eassumption]. chain.
  - apply sends_none; [done|done|chain].
Qed.

Lemma send_frame_spec fuel t b end_ w rc w' :
  send_frame k fuel t b end_ false w = Some (rc, w') -> sends (frame_header t (zlen b) ++ b) rc w w'.
Proof.
  unfold send_frame. intros H. mio.
  - match goal with H : truth _ = true |- _ => unfold truth in H; bools end.
    match goal with H : send_bytes _ _ _ _ _ _ = Some _ |- _ => apply send_bytes_spec in H as (y & rest & Hb & Hio & Hrc) end.
    exists y, (rest ++ b). split_and!; [by rewrite app_assoc, <- Hb|done|].
    split; [done|]. intros [-> _]%app_nil. by apply Hrc.
  - match goal with H : truth _ = false |- _ => unfold truth in H; bools end. subst.
    repeat match goal with H : send_bytes _ _ _ _ _ _ = Some _ |- _ => apply send_bytes_spec in H end.
    destruct H as (z & rest & -> & Hio & Hrc). destruct H0 as (y & rest' & Hb & Hio' & Hrc').
    rewrite (proj1 Hrc' eq_refl), app_nil_r in Hb. subst y.
    exists (frame_header t (zlen (z ++ rest)) ++ z), rest. split_and!; [by rewrite app_assoc| |done].
    rewrite <- (io_proc _ _ _ _ _ Hio'). by apply (io_trans _ _ _ _ _ _ _ [] [] Hio').
Qed.

(** ** What other threads can do to the handle while an operation runs *)

(** At most one thread reads events, so nobody else sets [exited] and [result]. *)
Definition sole_reader : Prop := forall t, o_exit (k_others k t) = None.

Record settled (p p' : ob_process) : Prop := Settled {
  set_fd : fd p' = fd p;
  set_stdin_open : stdin_open p' = stdin_open p;
  set_header : header p' = header p;
  set_payload : payload p' = payload p;
  set_payload_size : payload_size p' = payload_size p;
  set_cancelled : cancelled p = true -> cancelled p' = true;
  set_exited : exited p = true -> exited p' = true;
  set_failure : failure p <> OB_OK -> failure p' = failure p;
  set_sole : sole_reader -> exited p' = exited p /\ result p' = result p
}.
#[export] Instance settled_preorder : PreOrder settled.
Proof.
  split; [by constructor|]. intros p q r [] []. constructor; try congruence; [auto..| |].
  - intros H. assert (failure q = failure p) by auto. rewrite <- H0. apply set_failure1. congruence.
  - intros H. destruct (set_sole0 H), (set_sole1 H). split; congruence.
Qed.
Lemma settled_CAS p e : settled p (CAS p e).
Proof. unfold CAS. case_bool_decide; constructor; simpl; try done; congruence. Qed.
Lemma CAS_not_ok p e : e <> OB_OK -> failure (CAS p e) <> OB_OK.
Proof. unfold CAS. case_bool_decide; done. Qed.
Lemma settled_interfere t p : settled p (interfere (k_others k t) p).
Proof.
  unfold interfere. set (o := k_others k t).
  transitivity (CAS (p <| cancelled ::= orb (o_cancel o) |>) (o_failure o)).
  - etransitivity; [|apply settled_CAS]. constructor; simpl; try done. intros ->. apply orb_true_r.
  - destruct (o_exit o) eqn:E; [|done]. constructor; simpl; try done.
    intros Hs. specialize (Hs t). unfold o in E. congruence.
Qed.

(** No traffic and the handle settled: loads, clock readings, poisoning, diagnostics. *)
Record calm (w w' : world) : Prop := Calm {
  calm_proc : settled (proc w) (proc w');
  calm_tick : (tick w <= tick w')%nat;
  calm_sent : sent w' = sent w;
  calm_received : received w' = received w;
  calm_closed : (opened w', closed w') = (opened w, closed w)
}.
#[export] Instance calm_preorder : PreOrder calm.
Proof.
  split; [by constructor|]. intros w1 w2 w3 [] []. constructor; try congruence; [|lia].
  by etransitivity.
Qed.
Lemma idle_calm w w' : idle w w' -> calm w w'.
Proof. intros [H1 H2 H3 H4 _ H5 _]. constructor; rewrite ?H1, ?H3, ?H4, ?app_nil_r; auto. reflexivity. Qed.

Lemma atomic_load_calm {A} (f : ob_process -> A) w a w' :
  atomic_load k f w = Some (a, w') -> calm w w' /\ a = f (proc w').
Proof.
  unfold atomic_load. intros H. mio. split; [|done].
  transitivity x0; [by apply idle_calm|]. constructor; try done. simpl. apply settled_interfere.
Qed.
Lemma poison_calm e w a w' : poison k e w = Some (a, w') ->
  calm w w' /\ a = failure (proc w') /\ (e <> OB_OK -> a <> OB_OK).
Proof.
  unfold poison. intros H. mio. apply atomic_load_calm in H as [Hc ->].
  assert (settled (proc x0) (CAS (interfere (k_others k (tick w)) (proc x0)) e)) as Hs
    by (etransitivity; [apply settled_interfere|apply settled_CAS]).
  split_and!; [|done|].
  - transitivity x0; [by apply idle_calm|]. etransitivity; [|exact Hc]. by constructor.
  - intros He. pose proof (set_failure _ _ (calm_proc _ _ Hc)) as Hf. simpl in Hf.
    rewrite Hf; by apply CAS_not_ok.
Qed.
Lemma diag_calm e st n m w a w' : diag e st n m w = Some (a, w') -> calm w w' /\ proc w' = proc w /\ a = e.
Proof. intros [-> ->]%diag_Some. split; [|done]. by constructor. Qed.

(** ** The writing side *)

Definition frame (f : Z * list Z) : list Z := frame_header f.1 (zlen f.2) ++ f.2.
Definition frames (fs : list (Z * list Z)) : list Z := concat (map frame fs).
Lemma frames_app fs gs : frames (fs ++ gs) = frames fs ++ frames gs.
Proof. unfold frames. by rewrite map_app, concat_app. Qed.
Lemma frames_one f : frames [f] = frame f.
Proof. unfold frames. cbn [map concat]. apply app_nil_r. Qed.

(** [x] is a frame cut short: its first bytes, and at least one is missing. *)
Definition part_of (f : Z * list Z) (x : list Z) : Prop := exists more, frame f = x ++ more /\ more <> [].

Record wrote (w w' : world) (x : list Z) : Prop := Wrote {
  wrote_proc : settled (proc w) (proc w');
  wrote_tick : (tick w <= tick w')%nat;
  wrote_sent : sent w' = sent w ++ x;
  wrote_received : received w' = received w;
  wrote_closed : (opened w', closed w') = (opened w, closed w)
}.
Lemma wrote_trans w1 w2 w3 x y : wrote w1 w2 x -> wrote w2 w3 y -> wrote w1 w3 (x ++ y).
Proof.
  intros [] []. constructor; try congruence; [by etransitivity|lia|]. rewrite wrote_sent1, wrote_sent0. by rewrite app_assoc.
Qed.
Lemma calm_wrote w w' : calm w w' -> wrote w w' [].
Proof. intros []. constructor; rewrite ?app_nil_r; auto. Qed.
Lemma wrote_calm w1 w2 w3 x : wrote w1 w2 x -> calm w2 w3 -> wrote w1 w3 x.
Proof. intros H1 H2%calm_wrote. rewrite <- (app_nil_r x). by eapply wrote_trans. Qed.
Lemma calm_wrote_l w1 w2 w3 x : calm w1 w2 -> wrote w2 w3 x -> wrote w1 w3 x.
Proof. intros H1%calm_wrote H2. by apply (wrote_trans _ _ _ [] x H1). Qed.
Lemma io_wrote w w' x : io w w' (proc w) x [] -> wrote w w' x.
Proof. intros [H]. constructor; rewrite ?H, ?app_nil_r in *; auto. reflexivity. Qed.

Lemma send_frame_wrote fuel t b end_ w rc w' : send_frame k fuel t b end_ false w = Some (rc, w') ->
  (rc = 0 /\ wrote w w' (frame (t, b))) \/ (rc <> 0 /\ exists x, wrote w w' x /\ part_of (t, b) x).
Proof.
  intros (x & rest & Hb & Hio%io_wrote & Hrc)%send_frame_spec. destruct (decide (rc = 0)) as [->|Hn]; [left|right].
  2:{ split; [done|]. exists x. split; [done|]. exists rest. split; [done|]. by intros ->%Hrc. }
  split; [done|]. rewrite (proj1 Hrc eq_refl), app_nil_r in Hb. unfold frame. cbn [fst snd]. by rewrite Hb.
Qed.

(** A stdin payload cut into frames. *)
Definition chunk (c : list Z) : Prop := 1 <= zlen c <= OB_MAX_STREAM.

Lemma chunk_take b : b <> [] ->
  chunk (ztake (if OB_MAX_STREAM <? zlen b then OB_MAX_STREAM else zlen b) b).
Proof.
  intros Hb. unfold chunk. rewrite zlen_take. assert (zlen b <> 0) by (by intros ?%zlen_0).
  pose proof (zlen_nonneg b). unfold OB_MAX_STREAM in *. destruct (Z.ltb_spec 65536 (zlen b)); lia.
Qed.

Lemma input_chunks_spec fuel b end_ w e rc w' :
  input_chunks k fuel b end_ w = Some ((e, rc), w') ->
  exists cs left rest, b = concat cs ++ left /\ Forall chunk cs /\
    wrote w w' (frames (map (pair 3) cs) ++ rest) /\
    (e = OB_OK \/ e = OB_IO) /\ (e = OB_OK -> rc = 0 -> left = []) /\ (rc = 0 -> rest = []) /\
    (rest = [] \/ exists c, chunk c /\ part_of (3, c) rest).
Proof.
  revert b w; induction fuel as [|fuel IH]; intros b w H; destruct b as [|c b]; cbn [input_chunks] in H; try done.
  1,2: apply ret_Some in H as [[= -> ->] ->]; exists [], [], []; split_and!;
    [done|done|by apply calm_wrote|auto|done|done|auto].
  set (l := c :: b) in *. assert (l <> []) as Hl by done. clearbody l. cbv zeta in H.
  apply bind_Some in H as (z & w1 & [Hc _]%atomic_load_calm & H). destruct z.
  { apply ret_Some in H as [[= -> ->] ->]. exists [], l, []. split_and!; auto; [|done]. by apply calm_wrote. }
  pose proof (chunk_take l Hl) as Hch.
  set (n := if OB_MAX_STREAM <? zlen l then OB_MAX_STREAM else zlen l) in *.
  apply bind_Some in H as (z & w2 & Hs%send_frame_wrote & H). destruct Hs as [[-> Hs]|(Hz & x & Hs & Hpart)].
  - destruct (IH _ _ H) as (cs & left & rest & Hb & Hcs & Hw & He & Hleft & Hrest & Hpart).
    exists (ztake n l :: cs), left, rest. split_and!; auto.
    + cbn [concat]. by rewrite <- app_assoc, <- Hb, ztake_zdrop.
    + eapply calm_wrote_l; [done|]. change (frames (map (pair 3) (ztake n l :: cs)))
        with (frame (3, ztake n l) ++ frames (map (pair 3) cs)).
      rewrite <- app_assoc. by eapply wrote_trans.
  - assert (truth z = true) as Ht by (unfold truth; by rewrite (proj2 (Z.eqb_neq z 0))). rewrite Ht in H.
    apply ret_Some in H as [[= -> ->] ->]. exists [], l, x. split_and!; auto; [by eapply calm_wrote_l|done..|right; by exists (ztake n l)].
Qed.

Lemma input_gate_spec w e w' : input_gate k w = Some (e, w') ->
  calm w w' /\ (e = OB_OK -> failure (proc w) = OB_OK /\ cancelled (proc w) = false /\
                             truth (stdin_open (proc w)) = true).
Proof.
  unfold input_gate. intros H. apply bind_Some in H as (e1 & w1 & [H1 ->]%atomic_load_calm & H).
  apply bind_Some in H as (e2 & w2 & H2 & H).
  apply bind_Some in H as (n & w3 & [-> ->]%the_Some & H). apply ret_Some in H as [-> ->].
  assert (calm w1 w2 /\ (e2 = OB_OK -> failure (proc w1) = OB_OK /\ cancelled (proc w1) = false)) as [Hc He].
  { case_bool_decide; [|apply ret_Some in H2 as [-> ->]; split; [done|intros; congruence]].
    apply bind_Some in H2 as (c & w3 & [Ha ->]%atomic_load_calm & H2).
    apply bind_Some in H2 as (x & w4 & H3 & H2). apply ret_Some in H2 as [-> ->].
    destruct (cancelled (proc w3)) eqn:Ec.
    - apply ret_Some in H3 as [-> ->]. by split.
    - apply atomic_load_calm in H3 as [Hb _]. split; [by etransitivity|]. intros _. split; [done|].
      destruct (cancelled (proc w1)) eqn:Ec1; [|done]. rewrite (set_cancelled _ _ (calm_proc _ _ Ha)) in Ec; done. }
  split; [by etransitivity|].
  clear H2. case_bool_decide; [|done]. subst.
  assert (calm w w2) as Hw by (by etransitivity). rewrite (set_stdin_open _ _ (calm_proc _ _ Hw)).
  destruct (truth (stdin_open (proc w))); [|done]. intros _. destruct (He eq_refl) as [Hf Hcc]. split_and!; [| |done].
  - destruct (decide (failure (proc w) = OB_OK)) as [|Hn]; [done|].
    rewrite <- (set_failure _ _ (calm_proc _ _ H1) Hn). done.
  - destruct (cancelled (proc w)) eqn:Ec1; [|done]. rewrite (set_cancelled _ _ (calm_proc _ _ H1)) in Hcc; done.
Qed.

Definition poison_code (rc : Z) : ob_error :=
  if rc =? ETIMEDOUT then OB_TIMEOUT else if rc =? ECANCELED then OB_IO else OB_CONNECTION_LOST.
Lemma poison_code_not_ok rc : poison_code rc <> OB_OK.
Proof. unfold poison_code. by repeat case_match. Qed.
Lemma truth_false z : truth z = false <-> z = 0.
Proof. unfold truth. destruct (Z.eqb_spec z 0); naive_solver. Qed.
Lemma truth_true z : truth z = true <-> z <> 0.
Proof. unfold truth. destruct (Z.eqb_spec z 0); naive_solver. Qed.

(** [ob_write_stdin]: the bytes that reached the socket are whole STDIN frames of the data in
    order, all of it on success; an incomplete frame leaves the connection poisoned. *)
Lemma write_stdin_spec fuel data size w e w' : ob_write_stdin k fuel true data size w = Some (e, w') ->
  exists cs left rest, ztake size (default [] data) = concat cs ++ left /\ Forall chunk cs /\
    wrote w w' (frames (map (pair 3) cs) ++ rest) /\ (e = OB_OK -> left = [] /\ rest = []) /\
    (rest <> [] -> failure (proc w') <> OB_OK) /\
    (cs <> [] \/ rest <> [] -> failure (proc w) = OB_OK /\ cancelled (proc w) = false /\ truth (stdin_open (proc w)) = true) /\
    (rest = [] \/ exists c, chunk c /\ part_of (3, c) rest).
Proof.
  unfold ob_write_stdin, input. cbn [negb orb]. set (d := ztake size (default [] data)). intros H.
  destruct (_ && truth size) eqn:Ebad.
  { apply diag_calm in H as (Hc & Hp & ->). exists [], d, []. split_and!; try done; [by apply calm_wrote|by intros [?|?]|by left]. }
  apply bind_Some in H as (g & w1 & (Hc & Hg)%input_gate_spec & H).
  apply bind_Some in H as (end_ & w2 & [Hd%idle_calm _]%deadline_idle & H). rewrite andb_false_r in H.
  apply bind_Some in H as (rc & w2' & [-> ->]%ret_Some & H).
  assert (calm w w2) as Hw by (by etransitivity). cbn [truth Z.eqb negb] in H. rewrite andb_true_r in H.
  apply bind_Some in H as ([e1 rc1] & w3 & H1 & H). cbn [fst snd] in H.
  apply bind_Some in H as (e2 & w4 & H2 & H). rewrite andb_false_r in H.
  apply bind_Some in H as ([] & w5 & [_ ->]%ret_Some & H). apply diag_calm in H as (Hdg & Hp & ->).
  case_bool_decide as Heg.
  - destruct (input_chunks_spec _ _ _ _ _ _ _ H1) as (cs & left & rest & Hcs & Hch & Hwr & He & Hleft & Hrest & Hpart).
    exists cs, left, rest. destruct (Hg Heg) as (Hf & Hrest').
    destruct (truth rc1) eqn:Et.
    + apply poison_calm in H2 as (Hpc & -> & Hne).
      assert (failure (proc w4) <> OB_OK) as Hbad by (apply Hne, (poison_code_not_ok rc1)).
      assert (wrote w w' (frames (map (pair 3) cs) ++ rest)) as Hall.
      { eapply calm_wrote_l; [done|]. eapply wrote_calm; [done|]. by etransitivity. }
      rewrite Hp. split_and!; done.
    + apply ret_Some in H2 as [-> ->]. apply truth_false in Et. subst rc1.
      assert (wrote w w' (frames (map (pair 3) cs) ++ rest)) as Hall.
      { eapply calm_wrote_l; [done|]. by eapply wrote_calm. }
      assert (rest = []) by auto. split_and!; try done; auto.
  - apply ret_Some in H1 as [[= -> ->] ->]. cbn [truth Z.eqb negb] in H2. apply ret_Some in H2 as [-> ->].
    exists [], d, []. split_and!; try done; [|by intros [?|?]|by left]. apply calm_wrote. by etransitivity.
Qed.

(** [settled] without the receive buffers and [stdin_open]: what every operation keeps. *)
Record kept (p p' : ob_process) : Prop := Kept {
  kept_fd : fd p' = fd p;
  kept_cancelled : cancelled p = true -> cancelled p' = true;
  kept_exited : exited p = true -> exited p' = true;
  kept_failure : failure p <> OB_OK -> failure p' = failure p
}.
#[export] Instance kept_preorder : PreOrder kept.
Proof.
  split; [by constructor|]. intros p q r [] []. constructor; try congruence; [auto..|].
  intros H. assert (failure q = failure p) by auto. rewrite <- H0. apply kept_failure1. congruence.
Qed.
Lemma settled_kept p p' : settled p p' -> kept p p'.
Proof. intros []. by constructor. Qed.
(** The event reader's part of the handle. *)
Definition reader_same (p p' : ob_process) : Prop :=
  header p' = header p /\ payload p' = payload p /\ payload_size p' = payload_size p /\
  (sole_reader -> exited p' = exited p /\ result p' = result p).
Lemma settled_reader p p' : settled p p' -> reader_same p p'.
Proof. by intros []. Qed.

Lemma close_stdin_spec fuel w e w' : ob_close_stdin k fuel true w = Some (e, w') ->
  exists fs rest, sent w' = sent w ++ frames fs ++ rest /\ received w' = received w /\ (opened w', closed w') = (opened w, closed w) /\
    kept (proc w) (proc w') /\ reader_same (proc w) (proc w') /\ (rest <> [] -> failure (proc w') <> OB_OK) /\
    (rest = [] \/ part_of (4, []) rest /\ cancelled (proc w) = false /\ truth (stdin_open (proc w)) = true) /\
    ((fs = [(4, [])] /\ e = OB_OK /\ rest = [] /\ stdin_open (proc w') = 0 /\ failure (proc w) = OB_OK /\
      cancelled (proc w) = false /\ truth (stdin_open (proc w)) = true)
     \/ (fs = [] /\ e <> OB_OK /\ stdin_open (proc w') = stdin_open (proc w))) /\
    (failure (proc w) <> OB_OK -> rest = []).
Proof.
  unfold ob_close_stdin, input. cbn [negb orb truth Z.eqb andb default]. rewrite andb_false_r. intros H.
  apply bind_Some in H as (g & w1 & (Hc & Hg)%input_gate_spec & H).
  apply bind_Some in H as (end_ & w2 & [Hd%idle_calm _]%deadline_idle & H). rewrite !andb_true_r in H.
  assert (calm w w2) as Hw by (by etransitivity).
  apply bind_Some in H as (rc & w3 & H1 & H). apply bind_Some in H as ([e1 rc1] & w4 & H2 & H). cbn [fst snd] in H.
  apply bind_Some in H as (e2 & w5 & H3 & H). rewrite andb_true_r in H.
  apply bind_Some in H as ([] & w6 & H4 & H). apply diag_calm in H as (Hdg & Hp & ->).
  destruct (decide (g = OB_OK)) as [Heg|Heg];
    [rewrite (bool_decide_true (g = OB_OK) Heg) in H1, H2|rewrite (bool_decide_false (g = OB_OK) Heg) in H1, H2].
  - destruct (Hg Heg) as (Hf & Hca & Hso). apply send_frame_wrote in H1 as [[-> Hs]|(Hrc & x & Hs & Hpart)].
    + cbn in H2. assert (e1 = OB_OK /\ rc1 = 0 /\ w4 = w3) as (-> & -> & ->).
      { destruct fuel; apply ret_Some in H2 as [[= -> ->] ->]; done. }
      cbn [truth Z.eqb negb] in H3. apply ret_Some in H3 as [-> ->]. rewrite bool_decide_true in H4 by done.
      apply set_proc_Some in H4. subst w6. exists [(4, [])], []. pose proof (calm_wrote_l _ _ _ _ Hw Hs) as [Hset Htk Hse Hre Hcl].
      destruct Hdg as [Hset' _ Hse' Hre' Hcl'].
      cbn [proc sent received opened closed upd] in *.
      rewrite frames_one, app_nil_r. split_and!; try congruence.
      * rewrite Hp. apply settled_kept in Hset. by destruct Hset; constructor.
      * rewrite Hp. by apply settled_reader in Hset.
      * by left.
      * left. by rewrite Hp.
    + rewrite (proj2 (truth_true rc)) in H2 by done. cbn in H2. apply ret_Some in H2 as [[= -> ->] ->].
      rewrite (proj2 (truth_true rc)) in H3 by done. apply poison_calm in H3 as (Hpc & -> & Hne).
      assert (failure (proc w5) <> OB_OK) as Hbad by (apply Hne, (poison_code_not_ok rc)).
      rewrite bool_decide_false in H4 by done. apply ret_Some in H4 as [_ ->].
      assert (wrote w w' x) as [Hset Htk Hse Hre Hcl].
      { eapply calm_wrote_l; [done|]. eapply wrote_calm; [done|]. by etransitivity. }
      exists [], x. split_and!; try done; [by apply settled_kept|by apply settled_reader|by rewrite Hp|by right|right].
      split_and!; try done. by apply set_stdin_open.
  - cbn in H1. apply ret_Some in H1 as [-> ->]. cbn in H2. apply ret_Some in H2 as [[= -> ->] ->].
    apply ret_Some in H3 as [-> ->]. rewrite bool_decide_false in H4 by done. apply ret_Some in H4 as [_ ->].
    assert (calm w w') as [Hset Htk Hse Hre Hcl] by (by etransitivity). exists [], [].
    split_and!; try done; [by rewrite app_nil_r|by apply settled_kept|by apply settled_reader|by left|right].
    split_and!; try done. by apply set_stdin_open.
Qed.

Lemma cancel_spec fuel w e w' : ob_cancel k fuel true w = Some (e, w') ->
  exists fs rest, sent w' = sent w ++ frames fs ++ rest /\ received w' = received w /\ (opened w', closed w') = (opened w, closed w) /\
    kept (proc w) (proc w') /\ reader_same (proc w) (proc w') /\ stdin_open (proc w') = stdin_open (proc w) /\
    cancelled (proc w') = true /\
    (rest <> [] -> failure (proc w') <> OB_OK) /\ (rest = [] \/ fs = [] /\ part_of (7, []) rest) /\ (fs = [] \/ fs = [(7, [])]) /\
    (failure (proc w) <> OB_OK -> fs = [] /\ rest = []) /\
    (e = OB_OK -> fs = [(7, [])] \/ exited (proc w') = true).
Proof.
  unfold ob_cancel. cbn [negb]. intros H.
  apply bind_Some in H as ([] & w0 & H0%set_proc_Some & H).
  apply bind_Some in H as (f & w1 & [H1 ->]%atomic_load_calm & H).
  apply bind_Some in H as (rc & w2 & H2 & H). apply bind_Some in H as (e2 & w3 & H3 & H).
  apply diag_calm in H as (Hdg & Hp & ->).
  assert (exists x, wrote w1 w2 x /\ (rc = 0 -> (x = [] /\ (failure (proc w1) = OB_OK -> exited (proc w2) = true)) \/ x = frame (7, [])) /\
           (failure (proc w1) <> OB_OK -> x = [] /\ rc = 0) /\ (rc <> 0 -> part_of (7, []) x)) as (x & Hx & Hrc & Hf & Hpart).
  { case_bool_decide as Hf1; [|apply ret_Some in H2 as [-> ->]; exists []; split_and!; [by apply calm_wrote|naive_solver|done|done]].
    apply bind_Some in H2 as (ex & w4 & [Ha ->]%atomic_load_calm & H2). destruct (exited (proc w4)) eqn:Eex.
    - apply ret_Some in H2 as [-> ->]. exists []. split_and!; [by apply calm_wrote|naive_solver|done|done].
    - apply bind_Some in H2 as (end_ & w5 & [Hd%idle_calm _]%deadline_idle & H2).
      assert (calm w1 w5) as Hw by (by etransitivity).
      apply send_frame_wrote in H2 as [[-> Hs]|(Hrc & x & Hs & Hp7)]; eexists; (split_and!; [by eapply calm_wrote_l|naive_solver|done|done]). }
  assert (calm w2 w3 /\ e2 = (if truth rc then failure (proc w3) else failure (proc w1)) /\ (rc <> 0 -> failure (proc w3) <> OB_OK)) as (Hc & He & Hne).
  { destruct (truth rc) eqn:Et.
    - apply poison_calm in H3 as (? & -> & Hn). split_and!; try done. intros _. apply Hn. by destruct (rc =? ETIMEDOUT).
    - apply ret_Some in H3 as [-> ->]. apply truth_false in Et. done. }
  assert (wrote w0 w' x) as [Hset Htk Hse Hre Hcl].
  { eapply calm_wrote_l; [done|]. eapply wrote_calm; [done|]. by etransitivity. }
  subst w0. cbn [proc sent received opened closed upd] in *.
  assert (failure (proc w) <> OB_OK -> x = [] /\ rc = 0) as Hf0.
  { intros Hn. apply Hf. pose proof (set_failure _ _ (calm_proc _ _ H1)) as Hs. cbn in Hs. rewrite Hs; done. }
  assert (kept (proc w) (proc w')) as Hk'.
  { apply settled_kept in Hset. destruct Hset; constructor; simpl in *; auto. }
  assert (reader_same (proc w) (proc w')) as Hrs by (by apply settled_reader in Hset).
  pose proof (set_stdin_open _ _ Hset) as Hso. pose proof (set_cancelled _ _ Hset eq_refl) as Hca. cbn in Hso.
  destruct (decide (rc = 0)) as [->|Hrc0].
  - destruct (Hrc eq_refl) as [[-> Hex]| ->].
    + exists [], []. split_and!; try done; auto. cbn in He. intros ->. right. symmetry in He. apply Hex in He.
      rewrite Hp. by apply (set_exited _ _ (calm_proc _ _ Hc)).
    + exists [(7, [])], []. rewrite frames_one, app_nil_r. split_and!; try done; auto. intros Hn. by destruct (Hf0 Hn).
  - exists [], x. rewrite Hp. split_and!; try done; auto; try (rewrite <- Hp; done).
    + intros Hn. destruct (Hf0 Hn). done.
    + rewrite (proj2 (truth_true rc)) in He by done. intros ->. destruct (Hne Hrc0). done.
Qed.

(** ** The reading side *)

Lemma recv_spec n w r w' : recv k n w = Some (r, w') ->
  tick w' = S (tick w) /\
  match r with
  | RecvGot b => (bytes b /\ 1 <= zlen b <= n) /\ io w w' (proc w) [] b
  | RecvEof => idle w w'
  | RecvFailed e => e <> 0 /\ idle w w'
  end.
Proof.
  unfold recv. destruct (k_recv k (tick w) n) eqn:E; intros [= <- <-]; (split; [done|]).
  - split; [by eapply recv_ok|]. constructor; simpl; rewrite ?app_nil_r; auto.
  - constructor; simpl; rewrite ?app_nil_r; auto.
  - split; [by eapply recv_errno|]. constructor; simpl; rewrite ?app_nil_r; auto.
Qed.

(** What [recv_bytes] leaves: the bytes [y] appended to the buffer [b] through [store]. *)
Definition receives (store : list Z -> ob_process -> ob_process) (b : list Z) (n : Z)
    (r : Z * list Z) (w w' : world) : Prop :=
  exists y, r.2 = b ++ y /\ bytes y /\ io w w' (store r.2 (proc w)) [] y /\
    (r.1 = 0 <-> zlen r.2 = n) /\ zlen r.2 <= n.

Section recv_bytes.
Context (store : list Z -> ob_process -> ob_process).
Context (store_store : forall a b p, store b (store a p) = store b p).

Lemma receives_none b n rc w w' : store b (proc w) = proc w -> zlen b < n -> rc <> 0 -> idle w w' ->
  receives store b n (rc, b) w w'.
Proof.
  intros Hs Hb Hrc Hi. exists []. cbn [fst snd]. rewrite app_nil_r, Hs.
  split_and!; try done; [by apply Forall_nil|split; [done|lia]|lia].
Qed.
Lemma receives_idle b n r w w1 w' : idle w w1 -> receives store b n r w1 w' -> receives store b n r w w'.
Proof.
  intros Hi (y & Hr & Hy & Hio & Hrc & Hl). exists y. split_and!; try apply Hrc; try done.
  rewrite <- (io_proc _ _ _ _ _ Hi). by eapply idle_io_l.
Qed.
Lemma receives_app b g n r w w1 w2 w' :
  io w w1 (proc w) [] g -> bytes g -> set_proc (store (b ++ g)) w1 = Some (tt, w2) ->
  receives store (b ++ g) n r w2 w' -> receives store b n r w w'.
Proof.
  intros Hi Hg Hs%set_proc_Some (y & Hr & Hy & Hio & Hrc & Hle). exists (g ++ y).
  split_and!; try done; [by rewrite app_assoc|by apply bytes_app|].
  assert (io w w2 (store (b ++ g) (proc w)) [] g) as Hi2.
  { subst w2. destruct Hi as [Hp ?]. constructor; simpl; try done. by rewrite Hp. }
  rewrite (io_proc _ _ _ _ _ Hi2), store_store in Hio. exact (io_trans _ _ _ _ _ [] [] _ _ Hi2 Hio).
Qed.

Lemma recv_bytes_spec fuel b n end_ w r w' :
  recv_bytes k fuel store b n end_ w = Some (r, w') -> store b (proc w) = proc w -> zlen b <= n ->
  receives store b n r w w'.
Proof.
  revert b w; induction fuel as [|fuel IH]; intros b w H Hst Hb; cbn [recv_bytes] in H;
    (destruct (Z.leb_spec n (zlen b));
      [apply ret_Some in H as [-> ->]; exists []; cbn [fst snd]; rewrite app_nil_r, Hst;
       split_and!; try done; [by apply Forall_nil|apply io_refl|split; [lia|done]]|]); [done|].
  apply bind_Some in H as (x & w1 & [_ Hx]%recv_spec & H). destruct x as [g| |e].
  - destruct Hx as [[Hg Hl] Hio]. apply bind_Some in H as ([] & w2 & Hs & H).
    eapply receives_app; [done..|]. apply IH in H; [done| |rewrite zlen_app; lia].
    apply set_proc_Some in Hs. subst. simpl. apply store_store.
  - apply ret_Some in H as [-> ->]. by apply receives_none.
  - destruct Hx as [He Hi].
    assert (forall w2, idle w1 w2 -> recv_bytes k fuel store b n end_ w2 = Some (r, w') -> receives store b n r w w') as Hrec.
    { intros w2 Hi2 Hr. assert (idle w w2) as Hi3 by (by etransitivity). eapply receives_idle; [done|].
      apply IH; [done| |lia]. by rewrite (io_proc _ _ _ _ _ Hi3). }
    destruct (e =? EINTR); [|destruct (negb (e =? EAGAIN))].
    + apply bind_Some in H as (l & w2 & [Hi2 _]%remaining_idle & H). destruct (l =? 0).
      * apply ret_Some in H as [-> ->]. apply receives_none; try done. by etransitivity.
      * by eapply Hrec.
    + apply ret_Some in H as [-> ->]. by apply receives_none.
    + apply bind_Some in H as (l & w2 & Hi2%ready_idle & H). destruct (truth l) eqn:El.
      * apply ret_Some in H as [-> ->]. apply receives_none; try done; [by apply truth_true|by etransitivity].
      * by eapply Hrec.
Qed.
End recv_bytes.

(** The receive buffers hold the beginning of one admissible frame. *)
Definition pending (p : ob_process) : list Z := header p ++ default [] (payload p).
Record buf_ok (starting : Z) (p : ob_process) : Prop := BufOk {
  buf_header_bytes : bytes (header p);
  buf_header_len : zlen (header p) <= 5;
  buf_payload : match payload p with
    | None => True
    | Some b => bytes b /\ zlen (header p) = 5 /\ payload_size p = get32 (zdrop 1 (header p)) /\
                zlen b <= payload_size p /\ frame_valid starting (znth (header p) 0) (payload_size p) = true
    end
}.
Lemma reader_buf starting p p' : reader_same p p' -> buf_ok starting p -> buf_ok starting p'.
Proof. intros (H1 & H2 & H3 & _) []. constructor; by rewrite ?H1, ?H2, ?H3. Qed.
Lemma reader_pending p p' : reader_same p p' -> pending p' = pending p.
Proof. intros (H1 & H2 & H3 & _). unfold pending. by rewrite H1, H2. Qed.
Lemma reader_complete p p' : reader_same p p' -> frame_complete p' = frame_complete p.
Proof. intros (H1 & H2 & H3 & _). unfold frame_complete. by rewrite H1, H2, H3. Qed.

Context (Hsole : sole_reader).

(** A step of the reader: bytes [y] arrive and are appended to the pending frame. *)
Record reads_in (starting : Z) (w w' : world) (y : list Z) : Prop := ReadsIn {
  ri_kept : kept (proc w) (proc w');
  ri_stdin : stdin_open (proc w') = stdin_open (proc w);
  ri_exited : exited (proc w') = exited (proc w) /\ result (proc w') = result (proc w);
  ri_sent : sent w' = sent w;
  ri_closed : (opened w', closed w') = (opened w, closed w);
  ri_received : received w' = received w ++ y;
  ri_buf : buf_ok starting (proc w) -> buf_ok starting (proc w') /\ pending (proc w') = pending (proc w) ++ y
}.
Lemma reads_in_trans st w1 w2 w3 y z : reads_in st w1 w2 y -> reads_in st w2 w3 z -> reads_in st w1 w3 (y ++ z).
Proof.
  intros [? ? [? ?] ? ? Hr Hb] [? ? [? ?] ? ? Hr' Hb']. constructor; try (repeat split; congruence); [by etransitivity|..].
  - by rewrite Hr', Hr, app_assoc.
  - intros [Hb1 Hp1]%Hb. destruct (Hb' Hb1) as [Hb2 Hp2]. split; [done|]. by rewrite Hp2, Hp1, app_assoc.
Qed.
(** A calm step of the reader. *)
Definition still (w w' : world) : Prop :=
  calm w w' /\ exited (proc w') = exited (proc w) /\ result (proc w') = result (proc w).
#[export] Instance still_preorder : PreOrder still.
Proof.
  split; [by split|]. intros w1 w2 w3 (? & ? & ?) (? & ? & ?). split; [by etransitivity|]. split; congruence.
Qed.
Lemma still_reads st w w' : still w w' -> reads_in st w w' [].
Proof.
  intros ([Hs ? ? ? ?] & ? & ?). constructor; rewrite ?app_nil_r; try done;
    [by apply settled_kept|by apply set_stdin_open|].
  apply settled_reader in Hs. intros Hb. split; [by eapply reader_buf|]. by apply reader_pending.
Qed.
Lemma reads_still st w1 w2 w3 y : reads_in st w1 w2 y -> still w2 w3 -> reads_in st w1 w3 y.
Proof. intros H1 H2%(still_reads st). rewrite <- (app_nil_r y). by eapply reads_in_trans. Qed.
Lemma still_reads_l st w1 w2 w3 y : still w1 w2 -> reads_in st w2 w3 y -> reads_in st w1 w3 y.
Proof. intros H1%(still_reads st) H2. by apply (reads_in_trans _ _ _ _ [] y H1). Qed.
Lemma idle_still w w' : idle w w' -> still w w'.
Proof. intros H. split; [by apply idle_calm|]. by rewrite (io_proc _ _ _ _ _ H). Qed.
Lemma calm_still w w' : calm w w' -> still w w'.
Proof. intros H. split; [done|]. by apply (set_sole _ _ (calm_proc _ _ H)). Qed.
Lemma atomic_load_still {A} (f : ob_process -> A) w a w' :
  atomic_load k f w = Some (a, w') -> still w w' /\ a = f (proc w').
Proof. intros [H ->]%atomic_load_calm. split; [by apply calm_still|done]. Qed.
Lemma poison_still e w a w' : poison k e w = Some (a, w') ->
  still w w' /\ a = failure (proc w') /\ (e <> OB_OK -> a <> OB_OK).
Proof. intros [H ?]%poison_calm. split; [by apply calm_still|done]. Qed.
Lemma diag_still e st n m w a w' : diag e st n m w = Some (a, w') -> still w w' /\ proc w' = proc w /\ a = e.
Proof. intros (Hc & Hp & ->)%diag_calm. split; [|done]. split; [done|]. by rewrite Hp. Qed.

(** Receiving into the header, then into the payload. *)
Lemma recv_header_spec st fuel end_ w rc w' : recv_header k fuel end_ w = Some (rc, w') ->
  buf_ok st (proc w) ->
  exists y, reads_in st w w' y /\ payload (proc w') = payload (proc w) /\ failure (proc w') = failure (proc w) /\
    (rc = 0 <-> zlen (header (proc w')) = 5).
Proof.
  unfold recv_header. intros H [Hb Hl Hp]. apply bind_Some in H as (b & w1 & [-> ->]%the_Some & H).
  apply bind_Some in H as (r & w1 & H & [-> ->]%ret_Some).
  apply recv_bytes_spec in H as (y & Hr & Hy & Hio & Hrc & Hle); [|done|by destruct (proc w)|done].
  exists y. destruct Hio as [Hpr Htk Hse Hre Hsh Hcl Hdi]. rewrite app_nil_r in Hse. rewrite Hpr. cbn [payload failure header upd store_header].
  split_and!; try done. constructor; rewrite ?Hpr; cbn; try done.
  intros _. destruct (payload (proc w)) as [b|] eqn:Ep.
  - destruct Hp as (? & H5 & ?). assert (y = []) as ->.
    { apply zlen_0. rewrite Hr, zlen_app in Hle. pose proof (zlen_nonneg y). lia. }
    rewrite app_nil_r in Hr. rewrite Hr, app_nil_r. split; [by constructor; cbn; rewrite ?Ep|].
    unfold pending. by rewrite Ep.
  - split; [constructor; cbn; rewrite ?Ep; rewrite ?Hr|unfold pending; cbn; rewrite Ep; cbn; by rewrite !app_nil_r, Hr].
    + by apply bytes_app. + by rewrite <- Hr. + done.
Qed.

Lemma recv_payload_spec st fuel end_ w rc w' b : recv_payload k fuel end_ w = Some (rc, w') ->
  buf_ok st (proc w) -> payload (proc w) = Some b ->
  exists y, reads_in st w w' y /\ failure (proc w') = failure (proc w) /\
    payload (proc w') = Some (b ++ y) /\ (rc = 0 <-> frame_complete (proc w') = true).
Proof.
  unfold recv_payload. intros H [Hb Hl Hp] Ep. apply bind_Some in H as (n & w1 & [-> ->]%the_Some & H).
  apply bind_Some in H as (b' & w1 & [-> ->]%the_Some & H). rewrite Ep in *.
  change (default [] (Some b)) with b in H.
  apply bind_Some in H as (r & w1 & H & [-> ->]%ret_Some). destruct Hp as (Hbb & H5 & Hsz & Hlen & Hval).
  apply recv_bytes_spec in H as (y & Hr & Hy & Hio & Hrc & Hle); [|done|by unfold store_payload; destruct (proc w); cbn in *; subst|done].
  exists y. destruct Hio as [Hpr Htk Hse Hre Hsh Hcl Hdi]. rewrite app_nil_r in Hse.
  split_and!.
  - constructor; rewrite ?Hpr; cbn; try done. intros _. split.
    + constructor; cbn; try done. rewrite Hr in *. split_and!; try done. by apply bytes_app.
    + unfold pending. cbn. by rewrite Ep, Hr, app_assoc.
  - by rewrite Hpr.
  - by rewrite Hpr, <- Hr.
  - rewrite Hrc, Hpr. unfold frame_complete. cbn. rewrite H5. cbn. by rewrite Z.eqb_eq.
Qed.

Definition outcome (e : ob_error) (w' : world) : Prop :=
  (e = OB_OK -> frame_complete (proc w') = true /\ znth (header (proc w')) 0 <> 9) /\
  (e <> OB_OK -> failure (proc w') = e \/ (e = OB_TIMEOUT /\ frame_complete (proc w') = false)).

Lemma poison_diag e st n m w a w' : (e' ← poison k e; diag e' st n m) w = Some (a, w') -> e <> OB_OK ->
  still w w' /\ a = failure (proc w') /\ a <> OB_OK.
Proof.
  intros H He. apply bind_Some in H as (e1 & w1 & (H1 & -> & Hn)%poison_still & (H2 & Hp & ->)%diag_still).
  split_and!; [by etransitivity|by rewrite Hp|auto].
Qed.
Lemma outcome_failed e w' : e = failure (proc w') -> e <> OB_OK -> outcome e w'.
Proof. intros He Hn. split; [done|auto]. Qed.

Lemma frame_result_spec w e w' : frame_result k w = Some (e, w') -> frame_complete (proc w) = true ->
  still w w' /\ outcome e w'.
Proof.
  unfold frame_result. intros H Hc. apply bind_Some in H as (p & w1 & [-> ->]%the_Some & H). cbn [id] in H.
  destruct (Z.eqb_spec (znth (header (proc w)) 0) 9) as [_|Hn].
  - cbv zeta in H. set (b := default [] (payload (proc w))) in *. destruct (_ || negb (utf8 _)) eqn:Ebad.
    + apply poison_diag in H as (? & ? & ?); [|done]. split; [done|by apply outcome_failed].
    + apply poison_diag in H as (? & ? & ?); [split; [done|by apply outcome_failed]|].
      apply orb_false_iff in Ebad as [Ebad _]. apply orb_false_iff in Ebad as [Ebad _].
      apply orb_false_iff in Ebad as [E1 E2]. bools. unfold error_of_code. repeat case_match; try done. bools. lia.
  - apply ret_Some in H as [-> ->]. split; [done|]. by split.
Qed.

Lemma frame_rest_spec st fuel rc end_ w e w' : frame_rest k fuel rc end_ w = Some (e, w') ->
  buf_ok st (proc w) ->
  (rc <> 0 /\ frame_complete (proc w) = false) \/ (rc = 0 /\ exists b, payload (proc w) = Some b) ->
  exists y, reads_in st w w' y /\ outcome e w'.
Proof.
  unfold frame_rest. intros H Hb Hcase. apply bind_Some in H as (rc' & w1 & H1 & H).
  assert (exists y, reads_in st w w1 y /\ (rc' = 0 <-> frame_complete (proc w1) = true)) as (y & Hy & Hrc).
  { destruct Hcase as [[Hrc Hc]|[-> [b Ep]]].
    - rewrite (proj2 (truth_true rc)) in H1 by done. apply ret_Some in H1 as [-> ->]. exists [].
      split; [by apply still_reads|]. rewrite Hc. split; done.
    - cbn in H1. destruct (recv_payload_spec _ _ _ _ _ _ _ H1 Hb Ep) as (y & ? & _ & _ & ?). by exists y. }
  exists y. destruct (Z.eqb_spec rc' ETIMEDOUT) as [->|Hnt]; [|destruct (truth rc') eqn:Et].
  - apply diag_still in H as (Hs & Hp & ->). split; [by eapply reads_still|]. split; [done|]. intros _. right.
    split; [done|]. rewrite Hp. destruct (frame_complete (proc w1)); [|done]. by assert (ETIMEDOUT = 0) by (by apply Hrc).
  - apply bind_Some in H as (f & w2 & [Hs1 ->]%atomic_load_still & H).
    apply poison_diag in H as (Hs2 & Ha & Hn); [|by case_bool_decide]. split; [|by apply outcome_failed].
    eapply reads_still; [done|]. by etransitivity.
  - apply frame_result_spec in H as [Hs Ho]; [|by apply Hrc, truth_false]. split; [by eapply reads_still|done].
Qed.

Lemma header_only_incomplete st p : buf_ok st p -> zlen (header p) <> 5 -> frame_complete p = false /\ payload p = None.
Proof.
  intros [_ _ Hp] Hn. unfold frame_complete. rewrite (proj2 (Z.eqb_neq _ _)) by done. split; [done|].
  destruct (payload p); [|done]. by destruct Hp as (_ & ? & _).
Qed.

Lemma frame_valid_nonneg st t n : frame_valid st t n = true -> 0 <= n.
Proof.
  unfold frame_valid. intros [_ H]%andb_true_iff.
  repeat match goal with H : _ || _ = true |- _ => apply orb_true_iff in H as [H|H] end; bools; subst; try lia.
Qed.

(** [receive_frame]: the arriving bytes extend the pending frame; success means that it is whole,
    a timeout that it is kept, anything else that the connection is poisoned with that error. *)
Lemma receive_frame_spec st fuel end_ w e w' : receive_frame k fuel end_ st w = Some (e, w') ->
  buf_ok st (proc w) -> exists y, reads_in st w w' y /\ outcome e w'.
Proof.
  unfold receive_frame. intros H Hb. apply bind_Some in H as (rc & w1 & H1 & H).
  destruct (recv_header_spec _ _ _ _ _ _ H1 Hb) as (y & Hy & Hpl & _ & Hrc).
  destruct (ri_buf _ _ _ _ Hy Hb) as [Hb1 _].
  apply bind_Some in H as (pl & w2 & [-> ->]%the_Some & H).
  destruct (truth rc) eqn:Et; [|apply truth_false in Et; subst rc; destruct (payload (proc w1)) as [b|] eqn:Ep].
  - apply truth_true in Et. destruct (header_only_incomplete _ _ Hb1) as [Hc _]; [by rewrite <- Hrc|].
    destruct (frame_rest_spec st _ _ _ _ _ _ H Hb1) as (z & Hz & Ho); [by left|].
    exists (y ++ z). split; [by eapply reads_in_trans|done].
  - destruct (frame_rest_spec st _ _ _ _ _ _ H Hb1) as (z & Hz & Ho); [right; by eauto|].
    exists (y ++ z). split; [by eapply reads_in_trans|done].
  - apply bind_Some in H as (h & w2 & [-> ->]%the_Some & H). cbv zeta in H.
    apply bind_Some in H as ([] & w2 & H2%set_proc_Some & H).
    set (n := get32 (zdrop 1 (header (proc w1)))) in *.
    assert (reads_in st w w2 y) as Hy2.
    { replace y with (y ++ []) by apply app_nil_r. eapply reads_in_trans; [done|]. subst w2.
      constructor; simpl; rewrite ?app_nil_r; try done. intros [? ? ?].
      split; [constructor; simpl; rewrite ?Ep; done|done]. }
    destruct (negb (frame_valid _ _ _)) eqn:Ev.
    + apply poison_diag in H as (Hs & Ha & Hn); [|done]. exists y. split; [by eapply reads_still|by apply outcome_failed].
    + apply bind_Some in H as (ok & w3 & (_ & Hi & _)%ask_idle & H). destruct ok; cbn [negb] in H.
      * apply bind_Some in H as ([] & w4 & H4%set_proc_Some & H).
        assert (reads_in st w w3 y) as Hy3 by (by eapply reads_still, idle_still).
        assert (zlen (header (proc w1)) = 5) as H5 by (by apply Hrc).
        assert (proc w3 = proc w1 <| payload_size := n |>) as Hp3 by (rewrite (io_proc _ _ _ _ _ Hi); by subst w2).
        destruct (ri_buf _ _ _ _ Hy3 Hb) as [[Hh1 Hh2 _] _].
        assert (reads_in st w w4 y) as Hy4.
        { replace y with (y ++ []) by apply app_nil_r. eapply reads_in_trans; [done|]. subst w4. rewrite Hp3 in *.
          constructor; simpl; rewrite ?Hp3, ?app_nil_r; try done. intros _. split; [|unfold pending; simpl; by rewrite Ep].
          constructor; simpl; try done. split_and!; try done; [by apply Forall_nil| |by apply negb_false_iff].
          apply negb_false_iff in Ev. rewrite zlen_nil. pose proof (frame_valid_nonneg _ _ _ Ev). done. }
        destruct (ri_buf _ _ _ _ Hy4 Hb) as [Hb4 _].
        destruct (frame_rest_spec st _ _ _ _ _ _ H Hb4) as (z & Hz & Ho); [right; split; [done|]; subst w4; by eexists|].
        exists (y ++ z). split; [by eapply reads_in_trans|done].
      * apply poison_diag in H as (Hs & Ha & Hn); [|done]. exists y.
        split; [|by apply outcome_failed]. eapply reads_still; [done|]. etransitivity; [by apply idle_still|done].
Qed.

(** The bytes received and not yet delivered; a whole frame in the buffers has been. *)
Definition unread (p : ob_process) : list Z := if frame_complete p then [] else pending p.

Lemma complete_frame st p : buf_ok st p -> frame_complete p = true ->
  exists b, payload p = Some b /\ payload_size p = zlen b /\ bytes b /\
    pending p = frame (znth (header p) 0, b) /\ frame_valid st (znth (header p) 0) (zlen b) = true.
Proof.
  unfold frame_complete. intros [Hh Hl Hp] Hc. destruct (payload p) as [b|] eqn:Ep; [|bools; done].
  bools. destruct Hp as (Hb & H5 & Hsz & _ & Hv). exists b. rewrite <- H0 in *. split_and!; try done.
  unfold pending, frame, frame_header. rewrite Ep. cbn [fst snd default].
  destruct (header p) as [|t h] eqn:Eh; [done|]. rewrite zlen_cons in H5. change (zdrop 1 (t :: h)) with h in Hsz.
  change (znth (t :: h) 0) with t. inversion Hh as [|? ? Ht Hh']; subst.
  rewrite get32_be in Hsz by (done || lia). rewrite ztake_ge in Hsz by lia.
  assert (u32 (zlen b) = be_get h) as ->.
  { rewrite Hsz. apply u32_small. pose proof (be_get_range h Hh') as Hr.
    replace (zlen h) with 4 in Hr by lia. unfold UINT32_MAX. change (256 ^ 4) with (2 ^ 32) in Hr. lia. }
  rewrite put32_be, be_put_get; [|done|unfold zlen in H5; lia]. rewrite u8_small by done. done.
Qed.

(** The event a frame of the service denotes. *)
Definition event_of (f : Z * list Z) (ev : ob_event) : Prop :=
  ev_type ev = f.1 /\
  ((f.1 = OB_STDOUT \/ f.1 = OB_STDERR) /\ chunk f.2 /\ ev_data ev = f.2 /\ ev_size ev = zlen f.2 \/
   f.1 = OB_EXIT /\ zlen f.2 = 12 /\ exit_of f.2 = Some (ev_result ev)).

Lemma event_frame_valid t n : frame_valid 0 t n = true -> t <> 9 ->
  (t = OB_STDOUT \/ t = OB_STDERR) /\ 1 <= n <= OB_MAX_STREAM \/ t = OB_EXIT /\ n = 12.
Proof.
  unfold frame_valid. intros [_ H]%andb_true_iff Ht.
  repeat match goal with H : _ || _ = true |- _ => apply orb_true_iff in H as [H|H] end; bools; subst;
    unfold OB_STDOUT, OB_STDERR, OB_EXIT in *; try done; try lia.
Qed.

Record read_outcome (w w' : world) (y : list Z) (e : ob_error) (ev : ob_event) : Prop := ReadOutcome {
  ro_kept : kept (proc w) (proc w');
  ro_stdin : stdin_open (proc w') = stdin_open (proc w);
  ro_sent : sent w' = sent w;
  ro_closed : (opened w', closed w') = (opened w, closed w);
  ro_received : received w' = received w ++ y;
  ro_buf : buf_ok 0 (proc w');
  ro_event : e = OB_OK -> unread (proc w') = [] /\
    exists f, unread (proc w) ++ y = frame f /\ event_of f ev /\
      (if f.1 =? OB_EXIT then exited (proc w') = true /\ result (proc w') = ev_result ev
       else exited (proc w') = false);
  ro_error : e <> OB_OK -> exited (proc w') = false /\
    (failure (proc w') = e \/ e = OB_TIMEOUT /\ unread (proc w') = unread (proc w) ++ y);
  ro_failed : failure (proc w) <> OB_OK -> e <> OB_OK
}.

Lemma clear_frame_unread w w' b : clear_frame w = Some (b, w') ->
  kept (proc w) (proc w') /\ pending (proc w') = [] /\ buf_ok 0 (proc w') /\
  stdin_open (proc w') = stdin_open (proc w) /\ exited (proc w') = exited (proc w) /\
  sent w' = sent w /\ (opened w', closed w') = (opened w, closed w) /\ received w' = received w.
Proof.
  intros ->%set_proc_Some. simpl. split_and!; try done. constructor; cbn; try done. apply Forall_nil.
Qed.

(** [read_event_until] on a handle that has not seen EXIT. *)
Lemma read_event_spec fuel end_ w e ev w' : read_event_until k fuel end_ w = Some ((e, ev), w') ->
  buf_ok 0 (proc w) -> exited (proc w) = false -> exists y, read_outcome w w' y e ev.
Proof.
  unfold read_event_until. intros H Hb Hex.
  apply bind_Some in H as (x & w1 & [Hs1 ->]%atomic_load_still & H).
  assert (exited (proc w1) = false) as Hex1 by (destruct Hs1 as (_ & -> & _); done). rewrite Hex1 in H.
  apply bind_Some in H as (f & w2 & [Hs2 ->]%atomic_load_still & H).
  assert (still w w2) as Hs by (by etransitivity). clear Hs1 Hs2 Hex1 w1.
  assert (exited (proc w2) = false) as Hex2 by (destruct Hs as (_ & -> & _); done).
  assert (buf_ok 0 (proc w2)) as Hb2 by (eapply reader_buf; [by apply settled_reader, Hs|done]).
  assert (unread (proc w2) = unread (proc w)) as Hu2.
  { unfold unread. pose proof (settled_reader _ _ (calm_proc _ _ (proj1 Hs))) as Hr. by rewrite (reader_complete _ _ Hr), (reader_pending _ _ Hr). }
  pose proof (still_reads 0 _ _ Hs) as Hr2. pose proof (kept_failure _ _ (ri_kept _ _ _ _ Hr2)) as Hfk.
  destruct (bool_decide (failure (proc w2) = OB_OK)) eqn:Ef; cbn [negb] in H.
  2:{ apply bool_decide_eq_false in Ef. apply bind_Some in H as (e1 & w3 & (Hd & Hp & ->)%diag_still & H).
      apply ret_Some in H as [[= -> ->] ->]. exists []. pose proof (reads_still 0 _ _ _ _ Hr2 Hd) as [].
      split; try done. - by rewrite Hp. - intros _. rewrite Hp. auto. }
  apply bool_decide_eq_true in Ef. assert (failure (proc w) = OB_OK) as Hok.
  { destruct (decide (failure (proc w) = OB_OK)) as [|Hn]; [done|]. rewrite <- (Hfk Hn). done. }
  apply bind_Some in H as (c & w3 & [-> ->]%the_Some & H). apply bind_Some in H as ([] & w4 & H4 & H).
  assert (exists w4', w4' = w4 /\ kept (proc w) (proc w4) /\ pending (proc w4) = unread (proc w) /\ buf_ok 0 (proc w4) /\
    stdin_open (proc w4) = stdin_open (proc w) /\ exited (proc w4) = false /\
    sent w4 = sent w /\ (opened w4, closed w4) = (opened w, closed w) /\ received w4 = received w) as (_ & _ & Hk4 & Hp4 & Hb4 & Hso4 & Hex4 & Hse4 & Hcl4 & Hre4).
  { exists w4. split; [done|]. rewrite <- Hu2. destruct Hr2 as [Hk2 Hso2 _ Hse2 Hcl2 Hre2 _]. rewrite app_nil_r in Hre2. unfold unread.
    destruct (frame_complete (proc w2)) eqn:Ec.
    - apply clear_frame_unread in H4 as (? & ? & ? & ? & ? & ? & ? & ?). split_and!; try congruence. by etransitivity.
    - apply ret_Some in H4 as [_ ->]. split_and!; done. }
  apply bind_Some in H as (e1 & w5 & H5 & H).
  destruct (receive_frame_spec _ _ _ _ _ _ H5 Hb4) as (y & Hy & Ho).
  destruct Hy as [Hk5 Hso5 [Hex5 _] Hse5 Hcl5 Hre5 Hbuf5]. destruct (Hbuf5 Hb4) as [Hb5 Hp5].
  rewrite Hp4 in Hp5. rewrite Hex4 in Hex5.
  exists y. destruct (bool_decide (e1 = OB_OK)) eqn:Ee; cbn [negb] in H.
  2:{ apply bool_decide_eq_false in Ee. apply ret_Some in H as [[= -> ->] ->]. destruct Ho as [_ Ho].
      split; try congruence; [by etransitivity|]. intros _. split; [done|].
      destruct (Ho Ee) as [?|[? Hinc]]; [by left|right; split; [done|]]. unfold unread at 1. by rewrite Hinc. }
  apply bool_decide_eq_true in Ee. destruct Ho as [Ho _]. destruct (Ho Ee) as [Hc5 Hn9].
  destruct (complete_frame _ _ Hb5 Hc5) as (b & Ep & Hsz & Hbb & Hfr & Hv). rewrite Hfr in Hp5.
  pose proof (event_frame_valid _ _ Hv Hn9) as Hev.
  apply bind_Some in H as (p5 & w6 & [-> ->]%the_Some & H). cbn [id] in H. cbv zeta in H. rewrite Ep in H.
  change (default [] (Some b)) with b in H.
  destruct (Z.eqb_spec (znth (header (proc w5)) 0) OB_EXIT) as [Et|Et].
  - destruct Hev as [[[Hx|Hx] _]|[_ H12]]; [by rewrite Et in Hx..|]. destruct (exit_of b) as [r|] eqn:Er.
    + apply bind_Some in H as ([] & w6 & H6%set_proc_Some & H). apply bind_Some in H as (e2 & w7 & (Hd & Hp & ->)%diag_still & H).
      apply ret_Some in H as [[= -> ->] ->]. destruct Hd as ([_ _ Hse7 Hre7 Hcl7] & _ & _). subst w6. cbn [proc sent received opened closed upd] in *.
      split; try (rewrite ?Hp; cbn; congruence).
      * rewrite Hp. etransitivity; [done|]. etransitivity; [done|]. constructor; cbn; done.
      * rewrite Hp. destruct Hb5. by constructor.
      * intros _. rewrite Hp. split; [unfold unread, frame_complete in *; cbn; by rewrite Hc5|].
        eexists. split; [symmetry; exact Hp5|]. rewrite Et. cbn [fst snd]. split; [|done]. split; [done|]. by right.
    + apply bind_Some in H as (e2 & w6 & (Hs6 & -> & Hn)%poison_still & H). apply bind_Some in H as (e3 & w7 & (Hd & Hp & ->)%diag_still & H).
      apply ret_Some in H as [[= -> ->] ->].
      assert (still w5 w7) as Hs7 by (by etransitivity). pose proof (still_reads 0 _ _ Hs7) as [Hk7 Hso7 [Hex7 _] Hse7 Hcl7 Hre7 Hb7].
      rewrite app_nil_r in Hre7. split; try congruence; [by etransitivity; [|etransitivity]|by apply Hb7| |].
      * intros He. exfalso. by apply Hn.
      * intros _. split; [congruence|]. left. by rewrite Hp.
  - destruct Hev as [[Hx Hlen]|[Hx _]]; [|done].
    apply bind_Some in H as (e2 & w7 & (Hd & Hp & ->)%diag_still & H). apply ret_Some in H as [[= -> ->] ->].
    destruct Hd as ([_ _ Hse7 Hre7 Hcl7] & _ & _). split; try (rewrite ?Hp; congruence).
    + rewrite Hp. by etransitivity.
    + intros _. rewrite Hp. split; [unfold unread; by rewrite Hc5|].
      eexists. split; [symmetry; exact Hp5|]. cbn [fst snd]. rewrite (proj2 (Z.eqb_neq _ _)) by done.
      split; [|done]. split; [done|]. left. split_and!; try done.
Qed.

(** Once EXIT was seen, every read repeats it without touching the socket. *)
Lemma read_exited_spec fuel end_ w e ev w' : read_event_until k fuel end_ w = Some ((e, ev), w') ->
  exited (proc w) = true -> e = OB_OK /\ ev = Event OB_EXIT [] 0 (result (proc w)) /\ still w w'.
Proof.
  unfold read_event_until. intros H Hex.
  apply bind_Some in H as (x & w1 & [Hs1 ->]%atomic_load_still & H).
  destruct Hs1 as (Hc & He & Hr). rewrite He, Hex in H.
  apply bind_Some in H as (r & w2 & [-> ->]%the_Some & H).
  apply bind_Some in H as (e1 & w2 & (Hd & _ & ->)%diag_still & H). apply ret_Some in H as [[= -> ->] ->].
  rewrite Hr. split_and!; try done. by transitivity w1.
Qed.

End io_proofs.

(** ** A whole session: any sequence of operations on a started process *)

Inductive client_op := DoWrite (data : list Z) | DoClose | DoCancel | DoRead (timeout : Z).

Definition run_op (k : kernel) (fuel : nat) (op : client_op) : M (ob_error * ob_event) :=
  match op with
  | DoWrite data => e ← ob_write_stdin k fuel true (Some data) (zlen data); mret (e, no_event)
  | DoClose => e ← ob_close_stdin k fuel true; mret (e, no_event)
  | DoCancel => e ← ob_cancel k fuel true; mret (e, no_event)
  | DoRead timeout => ob_read_event k fuel true true timeout
  end.
(** The events that reads returned with OB_OK. *)
Definition delivered (op : client_op) (r : ob_error * ob_event) : list ob_event :=
  match op with
  | DoRead _ => if bool_decide (r.1 = OB_OK) then [r.2] else []
  | _ => []
  end.
Fixpoint run_ops (k : kernel) (fuel : nat) (l : list client_op) : M (list ob_event) :=
  match l with
  | [] => mret []
  | op :: l => r ← run_op k fuel op; evs ← run_ops k fuel l; mret (delivered op r ++ evs)
  end.

(** What the service may receive: STDIN chunks, at most one EOF after them, CANCEL at any time
    and no input after it. *)
Definition accepts_input (fs : list (Z * list Z)) : Prop := Forall (fun f => f.1 = 3) fs.
Inductive conversation (enabled : bool) : list (Z * list Z) -> Prop :=
  | conv_nil : conversation enabled []
  | conv_stdin fs b : conversation enabled fs -> enabled = true -> accepts_input fs -> chunk b ->
      conversation enabled (fs ++ [(3, b)])
  | conv_eof fs : conversation enabled fs -> enabled = true -> accepts_input fs ->
      conversation enabled (fs ++ [(4, [])])
  | conv_cancel fs : conversation enabled fs -> conversation enabled (fs ++ [(7, [])]).

Lemma conversation_types enabled fs : conversation enabled fs -> Forall (fun f => f.1 = 3 \/ f.1 = 4 \/ f.1 = 7) fs.
Proof. induction 1; [constructor|..]; apply Forall_app; (split; [done|]); (constructor; [simpl; auto|constructor]). Qed.
Lemma conv_chunks enabled fs cs : conversation enabled fs -> enabled = true -> accepts_input fs ->
  Forall chunk cs -> conversation enabled (fs ++ map (pair 3) cs).
Proof.
  intros Hc He Ha Hcs. revert fs Hc Ha. induction Hcs as [|c cs Hch Hcs IH]; intros fs Hc Ha; cbn [map].
  - by rewrite app_nil_r.
  - change ((3, c) :: map (pair 3) cs) with ([(3, c)] ++ map (pair 3) cs). rewrite app_assoc. apply IH; [by constructor|]. apply Forall_app. split; [done|]. by repeat constructor.
Qed.

(** [rest] after the frames [fs]: nothing, or the beginning of the one frame that could come
    next, with at least a byte of it missing. *)
Definition unfinished (enabled : bool) (fs : list (Z * list Z)) (rest : list Z) : Prop :=
  rest = [] \/ exists f, conversation enabled (fs ++ [f]) /\ part_of f rest.
(** What [w] has sent since [w0]: whole frames, and a frame cut short only if poisoned. *)
Definition on_wire (enabled : bool) (w0 w : world) (fs : list (Z * list Z)) : Prop :=
  exists rest, sent w = sent w0 ++ frames fs ++ rest /\ unfinished enabled fs rest /\
    (rest <> [] -> failure (proc w) <> OB_OK).

(** The state of a session that began in [w0]: [fs] was sent, [gs] received and delivered as
    [evs], the last of them EXIT once [exited]. *)
Record session (enabled : bool) (w0 w : world) (fs gs : list (Z * list Z)) (evs : list ob_event) : Prop := Session {
  s_sent : on_wire enabled w0 w fs;
  s_conv : conversation enabled fs;
  s_open : truth (stdin_open (proc w)) = true -> enabled = true /\ Forall (fun f => f.1 <> 4) fs;
  s_cancel : Exists (fun f => f.1 = 7) fs -> cancelled (proc w) = true;
  s_buf : buf_ok 0 (proc w);
  s_received : exists tail, received w = received w0 ++ frames gs ++ tail /\
                            (failure (proc w) = OB_OK -> tail = unread (proc w));
  s_events : Forall2 event_of gs evs;
  s_exit : exited (proc w) = true -> unread (proc w) = [] /\
             exists gs0 g, gs = gs0 ++ [(OB_EXIT, g)] /\ exit_of g = Some (result (proc w))
}.

Section session.
Context (k : kernel) (Hk : kernel_ok k) (Hsole : sole_reader k) (enabled : bool) (w0 : world).

Lemma session_accepts w fs gs evs : session enabled w0 w fs gs evs ->
  cancelled (proc w) = false -> truth (stdin_open (proc w)) = true -> enabled = true /\ accepts_input fs.
Proof.
  intros [_ Hc Ho Hca _ _ _ _] Hcan Hop. destruct (Ho Hop) as [He H4]. split; [done|].
  pose proof (conversation_types _ _ Hc) as Ht. unfold accepts_input. rewrite Forall_forall in *.
  intros f Hf. destruct (Ht f Hf) as [|[Hx|Hx]]; [done|by destruct (H4 f Hf)|].
  rewrite Hca in Hcan; [done|]. apply Exists_exists. eauto.
Qed.

(** The reader's part of a session survives an operation of the writers. *)
Lemma session_reader w w' fs fs' gs evs :
  session enabled w0 w fs gs evs -> reader_same k (proc w) (proc w') -> kept (proc w) (proc w') ->
  received w' = received w ->
  on_wire enabled w0 w' fs' ->
  conversation enabled fs' ->
  (truth (stdin_open (proc w')) = true -> enabled = true /\ Forall (fun f => f.1 <> 4) fs') ->
  (Exists (fun f => f.1 = 7) fs' -> cancelled (proc w') = true) ->
  session enabled w0 w' fs' gs evs.
Proof.
  intros [_ _ _ _ Hb (tail & Hr & Ht) He Hx] Hrs Hkp Hre ? ? ? ?. constructor; try done.
  - by eapply reader_buf.
  - exists tail. split; [by rewrite Hre|]. intros Hf. unfold unread.
    rewrite (reader_complete _ _ _ Hrs), (reader_pending _ _ _ Hrs). apply Ht.
    destruct (decide (failure (proc w) = OB_OK)) as [|Hn]; [done|]. rewrite <- (kept_failure _ _ Hkp Hn). done.
  - destruct Hrs as (? & ? & ? & Hs). destruct (Hs Hsole) as [-> ->]. intros [Hu Hg]%Hx. split; [|done].
    unfold unread, frame_complete, pending in *. by rewrite H3, H4, H5.
Qed.

(** An incomplete frame on the wire means that the connection is poisoned. *)
Lemma session_sent w w' fs fs' gs evs rest :
  session enabled w0 w fs gs evs -> kept (proc w) (proc w') -> sent w' = sent w ++ frames fs' ++ rest ->
  (rest <> [] -> failure (proc w') <> OB_OK) -> (failure (proc w) <> OB_OK -> fs' = [] /\ rest = []) ->
  unfinished enabled (fs ++ fs') rest -> on_wire enabled w0 w' (fs ++ fs').
Proof.
  intros [(r & Hs & Hu & Hr) _ _ _ _ _ _ _] Hkp Hs' Hrest Hfail Hu'. destruct (decide (failure (proc w) = OB_OK)) as [Hok|Hn].
  - exists rest. split; [|done]. destruct (decide (r = [])) as [->|Hne]; [|by destruct (Hr Hne)].
    rewrite Hs', Hs, frames_app, app_nil_r, <- !app_assoc. done.
  - destruct (Hfail Hn) as [-> ->]. exists r. rewrite app_nil_r. split_and!; [by rewrite Hs', Hs, !app_nil_r|done|].
    intros _. rewrite (kept_failure _ _ Hkp Hn). done.
Qed.

Definition exit_event (p : ob_process) : ob_event := Event OB_EXIT [] 0 (result p).

(** One operation extends the session; after EXIT the reader's side stands still. *)
Definition session_step (w w' : world) (fs gs : list (Z * list Z)) (evs out : list ob_event) : Prop :=
  exists fs' gs' evs' reps, session enabled w0 w' (fs ++ fs') (gs ++ gs') (evs ++ evs') /\ out = evs' ++ reps /\
    Forall (eq (exit_event (proc w'))) reps /\ (reps <> [] -> exited (proc w') = true) /\
    (exited (proc w) = true -> evs' = [] /\ exited (proc w') = true /\ result (proc w') = result (proc w)).

Lemma writer_step w w' fs fs' gs evs : session enabled w0 w (fs) gs evs ->
  session enabled w0 w' (fs ++ fs') gs evs -> reader_same k (proc w) (proc w') -> session_step w w' fs gs evs [].
Proof.
  intros _ H (_ & _ & _ & Hs). exists fs', [], [], []. rewrite !app_nil_r. split_and!; try done.
  destruct (Hs Hsole) as [-> ->]. done.
Qed.

Lemma write_step fuel data w e w' fs gs evs : session enabled w0 w fs gs evs ->
  ob_write_stdin k fuel true (Some data) (zlen data) w = Some (e, w') -> session_step w w' fs gs evs [].
Proof.
  intros Hs H. destruct (write_stdin_spec k Hk _ _ _ _ _ _ H) as (cs & left & rest & _ & Hch & [Hset _ Hse Hre _] & _ & Hrest & Hcs & Hf).
  pose proof (settled_reader _ _ _ Hset) as Hrs. pose proof (settled_kept _ _ _ Hset) as Hkp.
  apply writer_step with (fs' := map (pair 3) cs); try done.
  assert (cs <> [] \/ rest <> [] -> enabled = true /\ accepts_input fs) as Hin.
  { intros (_ & ? & ?)%Hcs. by eapply session_accepts. }
  assert (cs = [] \/ enabled = true /\ accepts_input fs) as Hacc.
  { destruct (decide (cs = [])) as [|Hn]; [by left|right]. apply Hin. by left. }
  eapply session_reader; try done.
  - eapply session_sent; try done.
    + intros Hn. destruct (decide (cs = [])) as [->|Hc]; [|by destruct (Hcs (or_introl Hc))].
      destruct (decide (rest = [])) as [->|Hr]; [done|by destruct (Hcs (or_intror Hr))].
    + destruct Hf as [->|(c & Hc & Hpart)]; [by left|]. destruct (decide (rest = [])) as [->|Hne]; [by left|right].
      exists (3, c). split; [|done]. destruct Hin as [He Ha]; [by right|]. apply conv_stdin; try done.
      * apply conv_chunks; try done. apply Hs.
      * apply Forall_app. split; [done|]. apply Forall_forall. by intros f (x & <- & _)%in_map_iff.
  - destruct Hacc as [->|[? ?]]; [cbn; rewrite app_nil_r; apply Hs|]. apply conv_chunks; try done. apply Hs.
  - rewrite (set_stdin_open _ _ _ Hset). intros [? Ho]%(s_open _ _ _ _ _ _ Hs). split; [done|]. apply Forall_app. split; [done|].
    apply Forall_forall. intros f (c & <- & _)%in_map_iff. done.
  - intros [Hx|Hx]%Exists_app.
    + apply (set_cancelled _ _ _ Hset). by apply Hs.
    + apply Exists_exists in Hx as (f & (c & <- & _)%in_map_iff & [=]).
Qed.

Lemma close_step fuel w e w' fs gs evs : session enabled w0 w fs gs evs ->
  ob_close_stdin k fuel true w = Some (e, w') -> session_step w w' fs gs evs [].
Proof.
  intros Hs H. destruct (close_stdin_spec k Hk _ _ _ _ H) as (fs' & rest & Hse & Hre & _ & Hkp & Hrs & Hrest & Hpart & Hcase & Hf).
  apply writer_step with (fs' := fs'); try done. eapply session_reader; try done.
  - eapply session_sent; try done.
    + intros Hn. split; [|by apply Hf]. by destruct Hcase as [(_ & _ & _ & _ & ? & _)|[? _]].
    + destruct Hpart as [->|(Hpart & Hca & Hop)]; [by left|]. destruct Hcase as [(_ & _ & -> & _)|[-> _]]; [by left|].
      rewrite app_nil_r. right. exists (4, []). split; [|done].
      destruct (session_accepts _ _ _ _ Hs Hca Hop). apply conv_eof; try done. apply Hs.
  - destruct Hcase as [(-> & _ & _ & _ & _ & Hca & Hop)|[-> _]]; [|rewrite app_nil_r; apply Hs].
    destruct (session_accepts _ _ _ _ Hs Hca Hop). apply conv_eof; try done. apply Hs.
  - destruct Hcase as [(_ & _ & _ & -> & _)|(-> & _ & ->)]; [done|]. rewrite app_nil_r. apply Hs.
  - intros [Hx|Hx]%Exists_app; [apply (kept_cancelled _ _ Hkp); by apply Hs|].
    destruct Hcase as [(-> & _)|[-> _]]; inversion Hx as [? ? Hx'|? ? Hx']; [done|inversion Hx'].
Qed.

Lemma cancel_step fuel w e w' fs gs evs : session enabled w0 w fs gs evs ->
  ob_cancel k fuel true w = Some (e, w') -> session_step w w' fs gs evs [].
Proof.
  intros Hs H. destruct (cancel_spec k Hk _ _ _ _ H) as (fs' & rest & Hse & Hre & _ & Hkp & Hrs & Hso & Hca & Hrest & Hpart & Hfs & Hf & _).
  apply writer_step with (fs' := fs'); try done. eapply session_reader; try done.
  - eapply session_sent; try done. destruct Hpart as [->|[-> Hpart]]; [by left|].
    rewrite app_nil_r. right. exists (7, []). split; [|done]. apply conv_cancel, Hs.
  - destruct Hfs as [->| ->]; [rewrite app_nil_r; apply Hs|]. apply conv_cancel, Hs.
  - rewrite Hso. intros [? Ho]%(s_open _ _ _ _ _ _ Hs). split; [done|]. apply Forall_app. split; [done|].
    by destruct Hfs as [->| ->]; repeat constructor.
Qed.

Lemma kept_ok p p' : kept p p' -> failure p' = OB_OK -> failure p = OB_OK.
Proof. intros H Hf. destruct (decide (failure p = OB_OK)) as [|Hn]; [done|]. by rewrite <- (kept_failure _ _ H Hn). Qed.

(** A read that was not a repetition of EXIT: one frame more, or the pending bytes kept. *)
Lemma read_outcome_step w w1 w' fs gs evs e ev y : proc w1 = proc w -> session enabled w0 w1 fs gs evs ->
  exited (proc w1) = false -> read_outcome w1 w' y e ev ->
  session_step w w' fs gs evs (if bool_decide (e = OB_OK) then [ev] else []).
Proof.
  intros Hp1 Hs1 Hex [Hkp Hso Hse _ Hre Hb Hev Herr Hfail].
  destruct (s_sent _ _ _ _ _ _ Hs1) as (rest & Hsent & Hu1 & Hrest). destruct (s_received _ _ _ _ _ _ Hs1) as (tail & Hrec & Htail).
  assert (on_wire enabled w0 w' (fs ++ [])) as Hsent'.
  { exists rest. rewrite app_nil_r, Hse. split_and!; [done|done|]. intros Hn%Hrest. by rewrite (kept_failure _ _ Hkp Hn). }
  assert (Exists (fun f => f.1 = 7) fs -> cancelled (proc w') = true) as Hcan.
  { intros Hx. apply (kept_cancelled _ _ Hkp). by apply Hs1. }
  assert (forall x, exited (proc w) = true -> x) as Hnot by (intros x; rewrite <- Hp1, Hex; done).
  case_bool_decide as He.
  - destruct (Hev He) as (Hu & f & Hf & Heo & Hxx). exists [], [f], [ev], [].
    split_and!; [|done|by apply Forall_nil|done|by apply Hnot].
    rewrite app_nil_r in *. constructor; rewrite ?Hso; try apply Hs1; try done.
    + exists []. rewrite app_nil_r, Hre, Hrec, frames_app, frames_one, <- Hf, Htail; [by rewrite <- !app_assoc|].
      destruct (decide (failure (proc w1) = OB_OK)) as [|Hn]; [done|by destruct (Hfail Hn)].
    + apply Forall2_app; [apply Hs1|by constructor].
    + intros Hxt. split; [done|]. exists gs, f.2. destruct (Z.eqb_spec f.1 OB_EXIT) as [E|]; [|congruence].
      destruct Hxx as [_ Hres]. rewrite <- E. split; [by destruct f|].
      destruct Heo as [_ [[[E'|E'] _]|(_ & _ & Hexo)]]; [by rewrite E in E'..|]. by rewrite Hres.
  - destruct (Herr He) as [Hx' Hcase]. exists [], [], [], []. split_and!; [|done|by apply Forall_nil|done|by apply Hnot].
    rewrite !app_nil_r in *. constructor; rewrite ?Hso; try apply Hs1; try done.
    + exists (tail ++ y). split; [by rewrite Hre, Hrec, <- !app_assoc|]. intros Hok.
      destruct Hcase as [Hc|[_ ->]]; [congruence|]. rewrite Htail; [done|]. by eapply kept_ok.
    + rewrite Hx'. done.
Qed.

Lemma read_step fuel timeout w r w' fs gs evs : session enabled w0 w fs gs evs ->
  ob_read_event k fuel true true timeout w = Some (r, w') ->
  session_step w w' fs gs evs (delivered (DoRead timeout) r).
Proof.
  intros Hs H. unfold ob_read_event in H. cbn [negb orb] in H. destruct (timeout <? -1).
  { apply bind_Some in H as (e & w1 & (Hd & Hp & ->)%(diag_still k) & H). apply ret_Some in H as [-> ->]. cbn.
    apply writer_step with (fs' := []); rewrite ?app_nil_r; try done. 2:{ by rewrite Hp. }
    destruct Hd as ([_ _ Hse Hre _] & _). destruct Hs. unfold on_wire in *. constructor; unfold on_wire; rewrite ?Hp, ?Hse, ?Hre; done. }
  apply bind_Some in H as (end_ & w1 & [Hi _]%deadline_idle & H).
  assert (session enabled w0 w1 fs gs evs) as Hs1.
  { destruct Hi as [Hp _ Hse Hre _ _ _]. destruct Hs. unfold on_wire in *. rewrite app_nil_r in *. constructor; unfold on_wire; rewrite ?Hp, ?Hse, ?Hre; done. }
  pose proof (io_proc _ _ _ _ _ Hi) as Hp1. destruct r as [e ev]. unfold delivered. cbn [fst snd].
  destruct (exited (proc w1)) eqn:Hex.
  - destruct (read_exited_spec k Hsole _ _ _ _ _ _ H Hex) as (-> & -> & (Hc & He & Hr)). rewrite bool_decide_true by done.
    exists [], [], [], [exit_event (proc w')]. rewrite !app_nil_r. destruct Hc as [Hset _ Hse Hre _].
    pose proof (settled_reader _ _ _ Hset) as Hrs. pose proof (settled_kept _ _ _ Hset) as Hkp.
    split_and!; [|by unfold exit_event; rewrite Hr|by repeat constructor|by rewrite He|].
    + eapply session_reader; try done; rewrite ?Hse, ?(set_stdin_open _ _ _ Hset); try apply Hs1.
      * destruct (s_sent _ _ _ _ _ _ Hs1) as (rest & ? & ? & Hrest). exists rest. rewrite Hse. split_and!; [done|done|].
        intros Hn%Hrest. by rewrite (kept_failure _ _ Hkp Hn).
      * intros Hx. apply (kept_cancelled _ _ Hkp). by apply Hs1.
    + intros _. rewrite <- Hp1. split; [done|]. split; congruence.
  - destruct (read_event_spec k Hk Hsole _ _ _ _ _ _ H (s_buf _ _ _ _ _ _ Hs1) Hex) as (y & Hro).
    by apply (read_outcome_step w w1 w' fs gs evs e ev y).
Qed.

Lemma op_step fuel op w r w' fs gs evs : session enabled w0 w fs gs evs ->
  run_op k fuel op w = Some (r, w') -> session_step w w' fs gs evs (delivered op r).
Proof.
  intros Hs H. destruct op; cbn [run_op delivered] in *; try (by eapply read_step).
  all: apply bind_Some in H as (e & w1 & H & [-> ->]%ret_Some).
  - by eapply write_step.
  - by eapply close_step.
  - by eapply cancel_step.
Qed.

Lemma session_runs fuel ops w out w' fs gs evs : session enabled w0 w fs gs evs ->
  run_ops k fuel ops w = Some (out, w') -> session_step w w' fs gs evs out.
Proof.
  revert w out fs gs evs. induction ops as [|op ops IH]; intros w out fs gs evs Hs H; cbn [run_ops] in H.
  - apply ret_Some in H as [-> ->]. exists [], [], [], []. rewrite !app_nil_r.
    split_and!; [done|done|by apply Forall_nil|done|done].
  - apply bind_Some in H as (r & w1 & H1 & H). apply bind_Some in H as (o & w2 & H2 & [-> ->]%ret_Some).
    destruct (op_step _ _ _ _ _ _ _ _ Hs H1) as (fs1 & gs1 & evs1 & reps1 & Hs1 & -> & Hr1 & Hx1 & Hst1).
    destruct (IH _ _ _ _ _ Hs1 H2) as (fs2 & gs2 & evs2 & reps2 & Hs2 & -> & Hr2 & Hx2 & Hst2).
    exists (fs1 ++ fs2), (gs1 ++ gs2). rewrite !app_assoc. destruct (decide (reps1 = [])) as [->|Hn].
    + exists (evs1 ++ evs2), reps2. rewrite !app_assoc, app_nil_r. split_and!; try done.
      intros (-> & ? & ?)%Hst1. destruct (Hst2 ltac:(done)) as (-> & ? & ?). split; [done|]. split; congruence.
    + destruct (Hst2 (Hx1 Hn)) as (-> & Hx & Hr). exists evs1, (reps1 ++ reps2). rewrite !app_nil_r in *.
      split_and!; try done.
      * by rewrite <- app_assoc.
      * apply Forall_app. split; [|done]. eapply Forall_impl; [|exact Hr1]. intros ? <-. unfold exit_event. by rewrite Hr.
      * intros (-> & ? & ?)%Hst1. split; [done|]. split; congruence.
Qed.
End session.

(** A handle as [ob_start] returns it. *)
Definition fresh (p : ob_process) : Prop := header p = [] /\ payload p = None /\ exited p = false.
Lemma fresh_session w : fresh (proc w) -> session (truth (stdin_open (proc w))) w w [] [] [].
Proof.
  intros (Hh & Hp & Hx). constructor; try done.
  - exists []. rewrite !app_nil_r. split_and!; [done|by left|done].
  - constructor.
  - intros H. inversion H.
  - constructor; rewrite ?Hh, ?Hp; try done. apply Forall_nil.
  - exists []. rewrite !app_nil_r. split; [done|]. intros _. unfold unread, frame_complete, pending. by rewrite Hh, Hp.
  - by rewrite Hx.
Qed.

(** ** A poisoned connection *)

(** Nothing moved: the same first failure, the same streams, the same exit status. *)
Record inert (w w' : world) : Prop := Inert {
  in_failure : failure (proc w') = failure (proc w);
  in_sent : sent w' = sent w;
  in_received : received w' = received w;
  in_exit : exited (proc w') = exited (proc w) /\ result (proc w') = result (proc w)
}.
#[export] Instance inert_preorder : PreOrder inert.
Proof.
  split; [by constructor|]. intros w1 w2 w3 [? ? ? []] [? ? ? []]. constructor; try congruence. split; congruence.
Qed.

(** What a thread does to a poisoned handle: a new operation, or the [poison] of an operation that
    was already inside a transfer when the first failure came. *)
Inductive handle_act := Act (op : client_op) | LatePoison (e : ob_error).
Definition run_act (k : kernel) (fuel : nat) (a : handle_act) : M (ob_error * ob_event) :=
  match a with
  | Act op => run_op k fuel op
  | LatePoison e => e ← poison k e; mret (e, no_event)
  end.
Fixpoint run_acts (k : kernel) (fuel : nat) (l : list handle_act) : M (list (ob_error * ob_event)) :=
  match l with
  | [] => mret []
  | a :: l => r ← run_act k fuel a; rs ← run_acts k fuel l; mret (r :: rs)
  end.
(** The answer of a poisoned handle [p]: its failure, except that a read repeats an EXIT that was
    seen before and refuses a timeout below -1. *)
Definition refused (p : ob_process) (a : handle_act) (r : ob_error * ob_event) : Prop :=
  match a with
  | Act (DoRead timeout) =>
      r = if timeout <? -1 then (OB_INVALID_ARGUMENT, no_event)
          else if exited p then (OB_OK, exit_event p) else (failure p, no_event)
  | _ => r = (failure p, no_event)
  end.

Section poisoned.
Context (k : kernel) (Hsole : sole_reader k).

Lemma calm_inert w w' : calm k w w' -> failure (proc w) <> OB_OK -> inert w w'.
Proof.
  intros [Hset _ Hs Hr _] Hf. constructor; try done; [by apply (set_failure _ _ _ Hset)|by apply (set_sole _ _ _ Hset)].
Qed.
Lemma inert_failed w w' : inert w w' -> failure (proc w) <> OB_OK -> failure (proc w') <> OB_OK.
Proof. by intros [-> _ _ _]. Qed.

Lemma gate_refused w e w' : failure (proc w) <> OB_OK -> input_gate k w = Some (e, w') ->
  calm k w w' /\ e = failure (proc w).
Proof.
  intros Hf H. unfold input_gate in H. apply bind_Some in H as (e1 & w1 & [H1 ->]%atomic_load_calm & H).
  pose proof (set_failure _ _ _ (calm_proc _ _ _ H1) Hf) as Hf1. rewrite Hf1, bool_decide_false in H by done.
  apply bind_Some in H as (e2 & w2 & [-> ->]%ret_Some & H). apply bind_Some in H as (n & w3 & [_ ->]%the_Some & H).
  rewrite bool_decide_false in H by done. by apply ret_Some in H as [-> ->].
Qed.
Lemma input_refused fuel data size eof w e w' : failure (proc w) <> OB_OK ->
  bool_decide (data = None) && truth size = false ->
  input k fuel true data size eof w = Some (e, w') -> calm k w w' /\ e = failure (proc w).
Proof.
  intros Hf Hd H. unfold input in H. cbn [negb orb] in H. rewrite Hd in H.
  apply bind_Some in H as (g & w1 & [Hc ->]%(gate_refused _ _ _ Hf) & H).
  apply bind_Some in H as (end_ & w2 & [Hi%(idle_calm k) _]%deadline_idle & H). rewrite !(bool_decide_false _ Hf) in H.
  cbn [andb] in H. apply bind_Some in H as (rc & w3 & [-> ->]%ret_Some & H).
  apply bind_Some in H as (r & w4 & [-> ->]%ret_Some & H). cbn [fst snd truth Z.eqb negb] in H.
  apply bind_Some in H as (e1 & w5 & [-> ->]%ret_Some & H). rewrite (bool_decide_false _ Hf) in H. cbn [andb] in H.
  apply bind_Some in H as ([] & w6 & [_ ->]%ret_Some & H). apply (diag_calm k) in H as (Hg & _ & ->).
  split; [|done]. etransitivity; [exact Hc|]. by etransitivity.
Qed.
Lemma cancel_refused fuel w e w' : failure (proc w) <> OB_OK -> ob_cancel k fuel true w = Some (e, w') ->
  inert w w' /\ e = failure (proc w).
Proof.
  intros Hf H. unfold ob_cancel in H. cbn [negb] in H. apply bind_Some in H as ([] & w0 & ->%set_proc_Some & H).
  apply bind_Some in H as (f & w1 & [H1 ->]%atomic_load_calm & H). apply calm_inert in H1; [|done].
  pose proof (in_failure _ _ H1) as Hf1. cbn in Hf1. rewrite Hf1, bool_decide_false in H by done.
  apply bind_Some in H as (rc & w2 & [-> ->]%ret_Some & H). cbn [truth Z.eqb negb] in H.
  apply bind_Some in H as (e1 & w3 & [-> ->]%ret_Some & H).
  apply (diag_calm k) in H as (Hg & _ & ->). apply calm_inert in Hg; [|by rewrite Hf1].
  split; [|done]. transitivity w1; [|done]. by destruct H1.
Qed.
Lemma read_refused fuel timeout w r w' : failure (proc w) <> OB_OK ->
  ob_read_event k fuel true true timeout w = Some (r, w') -> inert w w' /\ refused (proc w) (Act (DoRead timeout)) r.
Proof.
  intros Hf H. unfold ob_read_event in H. cbn [negb orb] in H. cbn [refused]. destruct (timeout <? -1).
  { apply bind_Some in H as (e & w1 & (Hd & _ & ->)%(diag_calm k) & [-> ->]%ret_Some).
    split; [by apply calm_inert|done]. }
  apply bind_Some in H as (end_ & w1 & [Hi%(idle_calm k) _]%deadline_idle & H).
  unfold read_event_until in H. apply bind_Some in H as (x & w2 & [Hc2 ->]%atomic_load_calm & H).
  assert (calm k w w2) as Hc by (by etransitivity). pose proof (calm_inert _ _ Hc Hf) as Hi2.
  destruct (in_exit _ _ Hi2) as [Hx Hr]. rewrite Hx in H. destruct (exited (proc w)).
  - apply bind_Some in H as (rs & w3 & [-> ->]%the_Some & H).
    apply bind_Some in H as (e & w4 & (Hd & _ & ->)%(diag_calm k) & [-> ->]%ret_Some).
    split; [|by unfold exit_event; rewrite Hr]. transitivity w2; [done|]. apply calm_inert; [done|]. by eapply inert_failed.
  - apply bind_Some in H as (f & w3 & [Hc3 ->]%atomic_load_calm & H).
    assert (inert w w3) as Hi3 by (apply calm_inert; [by etransitivity|done]).
    pose proof (in_failure _ _ Hi3) as Hf3. rewrite Hf3, bool_decide_false in H by done. cbn [negb] in H.
    apply bind_Some in H as (e & w4 & (Hd & _ & ->)%(diag_calm k) & [-> ->]%ret_Some).
    split; [|done]. transitivity w3; [done|]. apply calm_inert; [done|]. by rewrite Hf3.
Qed.

Lemma act_refused fuel a w r w' : failure (proc w) <> OB_OK -> run_act k fuel a w = Some (r, w') ->
  inert w w' /\ refused (proc w) a r.
Proof.
  intros Hf H. destruct a as [[data| | |timeout]|e]; cbn [run_act run_op] in H; try (by eapply read_refused);
    apply bind_Some in H as (x & w1 & H & [-> ->]%ret_Some).
  - apply input_refused in H as [Hc ->]; [|done|done]. split; [by apply calm_inert|done].
  - apply input_refused in H as [Hc ->]; [|done|done]. split; [by apply calm_inert|done].
  - by apply cancel_refused in H as [Hc ->].
  - apply poison_calm in H as (Hc & -> & _). pose proof (calm_inert _ _ Hc Hf) as Hi.
    split; [done|]. cbn [refused]. by rewrite (in_failure _ _ Hi).
Qed.
Lemma refused_inert w w' a r : inert w w' -> refused (proc w') a r -> refused (proc w) a r.
Proof.
  intros [Hf _ _ [Hx Hr]]. destruct a as [[]|]; cbn [refused]; unfold exit_event; rewrite ?Hf, ?Hx, ?Hr; done.
Qed.
Lemma acts_refused fuel l w rs w' : failure (proc w) <> OB_OK -> run_acts k fuel l w = Some (rs, w') ->
  inert w w' /\ Forall2 (refused (proc w)) l rs.
Proof.
  revert w rs. induction l as [|a l IH]; intros w rs Hf H; cbn [run_acts] in H.
  { apply ret_Some in H as [-> ->]. by split. }
  apply bind_Some in H as (r & w1 & [Hi Hr]%act_refused & H); [|done].
  apply bind_Some in H as (rs' & w2 & H & [-> ->]%ret_Some).
  destruct (IH _ _ (inert_failed _ _ Hi Hf) H) as [Hi' Hrs]. split; [by etransitivity|]. constructor; [done|].
  eapply Forall2_impl; [|exact Hrs]. intros b x. by apply refused_inert.
Qed.
Lemma ops_inert fuel ops w evs w' : failure (proc w) <> OB_OK -> run_ops k fuel ops w = Some (evs, w') -> inert w w'.
Proof.
  revert w evs. induction ops as [|op ops IH]; intros w evs Hf H; cbn [run_ops] in H; [by apply ret_Some in H as [-> ->]|].
  apply bind_Some in H as (r & w1 & H1 & H). apply (act_refused fuel (Act op)) in H1 as [Hi _]; [|done].
  apply bind_Some in H as (rs' & w2 & H & [-> ->]%ret_Some). etransitivity; [exact Hi|].
  eapply IH; [|done]. by eapply inert_failed.
Qed.
Lemma run_ops_app fuel ops ops' w evs w' evs1 w1 : run_ops k fuel (ops ++ ops') w = Some (evs, w') ->
  run_ops k fuel ops w = Some (evs1, w1) -> exists evs2, run_ops k fuel ops' w1 = Some (evs2, w').
Proof.
  revert w evs evs1. induction ops as [|op ops IH]; intros w evs evs1 H H1; cbn [run_ops app] in *.
  { apply ret_Some in H1 as [-> ->]. eauto. }
  apply bind_Some in H as (r & w2 & Ha & H). apply bind_Some in H as (rs & w3 & H & [-> ->]%ret_Some).
  apply bind_Some in H1 as (r' & w2' & Hb & H1). apply bind_Some in H1 as (rs' & w3' & H1 & [-> ->]%ret_Some).
  rewrite Ha in Hb. injection Hb as <- <-. by eapply IH.
Qed.
End poisoned.

(** C5: whatever the caller does with a started process (write, close stdin,
    cancel, read, in any order) and however the kernel splits, interrupts or fails the transfers,
    the bytes sent are whole frames that obey the protocol: stdin chunks of 1..65536 bytes, only
    if stdin was enabled, no input after end of file or cancellation.  The stream ends with those
    frames or with the beginning of one more legal frame that was cut short; in that case the
    connection is poisoned.  From the moment the connection is poisoned, for whatever reason, no
    further operation sends a byte. *)
Theorem session_writes k fuel ops w evs w' :
  kernel_ok k -> sole_reader k -> fresh (proc w) -> run_ops k fuel ops w = Some (evs, w') ->
  (exists fs rest, sent w' = sent w ++ frames fs ++ rest /\
     conversation (truth (stdin_open (proc w))) fs /\ unfinished (truth (stdin_open (proc w))) fs rest /\
     (rest <> [] -> failure (proc w') <> OB_OK)) /\
  (forall before after evs1 w1, ops = before ++ after -> run_ops k fuel before w = Some (evs1, w1) ->
     failure (proc w1) <> OB_OK -> sent w' = sent w1).
Proof.
  intros Hk Hsole Hf H. split.
  - destruct (session_runs k Hk Hsole _ w _ _ _ _ _ _ _ _ (fresh_session w Hf) H)
      as (fs & gs & evs' & reps & [(rest & Hs & Hu & Hr) Hc _ _ _ _ _ _] & _). by exists fs, rest.
  - intros before after evs1 w1 -> H1 Hfail. destruct (run_ops_app _ _ _ _ _ _ _ _ _ H H1) as [evs2 H2].
    by apply (ops_inert k Hsole) in H2 as [_ ? _ _].
Qed.

(** C7: the events a caller gets are exactly the frames of the byte stream, in
    order, none lost, repeated or invented, across timeouts, partial reads and interleaved
    writes: output frames carry their payload, EXIT its decoded status, and further reads after
    EXIT repeat it.  While the connection is not poisoned, the bytes received beyond the delivered
    frames are the pending partial frame that the handle keeps. *)
Theorem session_reads k fuel ops w evs w' :
  kernel_ok k -> sole_reader k -> fresh (proc w) -> run_ops k fuel ops w = Some (evs, w') ->
  exists gs evs' reps tail, evs = evs' ++ reps /\ Forall2 event_of gs evs' /\
    received w' = received w ++ frames gs ++ tail /\
    (failure (proc w') = OB_OK -> tail = unread (proc w')) /\
    Forall (eq (exit_event (proc w'))) reps /\
    (exited (proc w') = true -> exists gs0 g, gs = gs0 ++ [(OB_EXIT, g)] /\ exit_of g = Some (result (proc w'))) /\
    (reps <> [] -> exited (proc w') = true).
Proof.
  intros Hk Hsole Hf H. destruct (session_runs k Hk Hsole _ w _ _ _ _ _ _ _ _ (fresh_session w Hf) H)
    as (fs & gs & evs' & reps & [_ _ _ _ _ (tail & Hr & Ht) He Hx] & Ho & Hreps & Hrx & _).
  exists gs, evs', reps, tail. split_and!; try done. intros Hxt. by apply Hx.
Qed.

(** A kernel that accepts every byte and delivers one-byte STDOUT frames. *)
Definition demo_kernel : kernel := Kernel (fun t => Z.of_nat t) (fun _ => PollReady false)
  (fun _ b => Sent (zlen b))
  (fun _ n => if n =? 5 then RecvGot [5; 0; 0; 0; 1] else if n =? 1 then RecvGot [65] else RecvEof)
  (fun _ => true) (fun _ => 0) (fun _ => 3) (fun _ => true) (fun _ => None) (fun _ => 0) (fun _ => 0)
  (fun _ => nobody).
Lemma demo_kernel_ok : kernel_ok demo_kernel.
Proof.
  split; simpl; try done.
  - intros _ b n [= <-]. pose proof (zlen_nonneg b). lia.
  - intros _ n b. destruct (Z.eqb_spec n 5) as [->|]; [|destruct (Z.eqb_spec n 1) as [->|]; [|done]];
      intros [= <-]; (split; [repeat constructor; lia|done]).
  - intros _ n e. repeat case_match; done.
Qed.
Definition demo_world : world :=
  World (Process 3 OB_OK false false 1 [] None 0 (Exit 0 0 0)) 0 [] [] false [] [] None.
Definition demo_ops : list client_op := [DoWrite [104; 105]; DoRead 1000; DoClose; DoRead 0; DoCancel; DoRead (-1)].

(** A kernel that takes at most four bytes of each transfer and fails from tick 9 on. *)
Definition cutting_kernel : kernel := Kernel (fun t => Z.of_nat t) (fun _ => PollReady false)
  (fun t b => if (t <? 9)%nat then Sent (Z.min 4 (zlen b)) else SendFailed EPIPE) (fun _ _ => RecvEof)
  (fun _ => true) (fun _ => 0) (fun _ => 3) (fun _ => true) (fun _ => None) (fun _ => 0) (fun _ => 0)
  (fun _ => nobody).
Lemma session_writes_witness : exists evs w', run_ops cutting_kernel 9 demo_ops demo_world = Some (evs, w') /\
  sent w' = [3; 0; 0; 0; 2] /\ failure (proc w') = OB_CONNECTION_LOST /\
  exists fs rest, sent w' = [] ++ frames fs ++ rest /\ conversation true fs /\ unfinished true fs rest.
Proof.
  eexists _, _. split; [vm_compute; reflexivity|]. split; [reflexivity|]. split; [reflexivity|].
  edestruct (session_writes cutting_kernel 9 demo_ops demo_world) as [(fs & rest & Hs & Hc & Hu & _) _];
    [|intros t; reflexivity|by repeat split|vm_compute; reflexivity|exists fs, rest; split_and!; [exact Hs|exact Hc|exact Hu]].
  split; simpl; try done.
  - intros t b n. destruct (t <? 9)%nat; [|done]. intros [= <-]. pose proof (zlen_nonneg b). lia.
  - intros t b e. destruct (t <? 9)%nat; [done|]. by intros [= <-].
Defined.
Lemma session_reads_witness : exists evs w', run_ops demo_kernel 4 demo_ops demo_world = Some (evs, w') /\
  length evs = 3%nat /\
  exists gs evs' reps tail, evs = evs' ++ reps /\ Forall2 event_of gs evs' /\
    received w' = [] ++ frames gs ++ tail /\ (failure (proc w') = OB_OK -> tail = unread (proc w')) /\
    Forall (eq (exit_event (proc w'))) reps /\
    (exited (proc w') = true -> exists gs0 g, gs = gs0 ++ [(OB_EXIT, g)] /\ exit_of g = Some (result (proc w'))) /\
    (reps <> [] -> exited (proc w') = true).
Proof.
  eexists _, _. split; [vm_compute; reflexivity|]. split; [reflexivity|].
  eapply (session_reads demo_kernel 4 demo_ops demo_world);
    [apply demo_kernel_ok|intros t; reflexivity|by repeat split|vm_compute; reflexivity].
Defined.

(** ** Starting: ownership of the socket and the request on the wire *)

Section start.
Context (k : kernel) (Hk : kernel_ok k) (Hsole : sole_reader k).

(** The descriptor of the handle has been closed, nothing was opened. *)
Definition released (w w' : world) : Prop :=
  opened w' = opened w /\ closed w' = (if 0 <=? fd (proc w) then [fd (proc w)] else []) ++ closed w.
(** Nothing opened or closed and the handle owns the same descriptor. *)
Definition holds_fd (w w' : world) : Prop :=
  (opened w', closed w') = (opened w, closed w) /\ fd (proc w') = fd (proc w).
#[local] Instance holds_fd_preorder : PreOrder holds_fd.
Proof. split; [by split|]. intros ? ? ? [] []. split; congruence. Qed.

Lemma start_fail_spec e w r w' : start_fail e w = Some (r, w') -> r = (e, false) /\ released w w'.
Proof.
  unfold start_fail. intros H. apply bind_Some in H as ([] & w1 & H1 & [-> ->]%ret_Some). split; [done|].
  unfold ob_release in H1. injection H1 as <-. unfold released. by destruct (0 <=? fd (proc w)).
Qed.
Lemma released_after w w1 w' : holds_fd w w1 -> released w1 w' -> released w w'.
Proof. intros [[= Ho Hc] Hf] [Ho' Hc']. unfold released. by rewrite Ho', Hc', Ho, Hc, Hf. Qed.
Lemma idle_fd w w' : idle w w' -> holds_fd w w'.
Proof. intros [Hp _ _ _ _ Hc _]. split; [done|by rewrite Hp]. Qed.
Lemma io_fd w w' x y : io w w' (proc w) x y -> holds_fd w w'.
Proof. intros [Hp _ _ _ _ Hc _]. split; [done|by rewrite Hp]. Qed.
Lemma diag_fd e st n m w a w' : diag e st n m w = Some (a, w') -> a = e /\ holds_fd w w' /\ proc w' = proc w /\ sent w' = sent w.
Proof. intros [-> ->]%diag_Some. done. Qed.
Lemma calm_fd w w' : calm k w w' -> holds_fd w w'.
Proof. intros [Hp _ _ _ Hc]. split; [done|]. by apply (set_fd _ _ _ Hp). Qed.
Lemma reads_fd st w w' y : reads_in st w w' y -> holds_fd w w'.
Proof. intros [Hp _ _ _ Hc _ _]. split; [done|]. by apply (kept_fd _ _ Hp). Qed.

Lemma diag_fail e st n m w r w' : (e' ← diag e st n m; start_fail e') w = Some (r, w') -> r = (e, false) /\ released w w'.
Proof.
  intros H. apply bind_Some in H as (e1 & w1 & (-> & Hf & _)%diag_fd & [-> Hr]%start_fail_spec).
  split; [done|]. by eapply released_after.
Qed.

(** What a successful request leaves behind. *)
Definition requested (o : ob_options) (detached : bool) (pl : list Z) (w w' : world) : Prop :=
  sent w' = sent w ++ frame (if detached then 10 else 1, pl) /\ holds_fd w w' /\
  stdin_open (proc w') = stdin_enabled o /\
  if detached then exists b, payload (proc w') = Some b /\ zlen b = 4 /\ bytes b else fresh (proc w').

Lemma ack_frame_valid (detached : bool) t n : frame_valid (if detached then 2 else 1) t n = true -> t <> 9 ->
  n = (if detached then 4 else 0).
Proof.
  unfold frame_valid. intros [_ H]%andb_true_iff Ht.
  repeat match goal with H : _ || _ = true |- _ => apply orb_true_iff in H as [H|H] end; destruct detached; bools; done.
Qed.

Lemma start_request_spec fuel o detached pl w r w' : fresh (proc w) ->
  start_request k fuel o detached pl w = Some (r, w') ->
  (r = (OB_OK, true) /\ requested o detached pl w w') \/ (exists e, r = (e, false) /\ e <> OB_OK /\ released w w').
Proof.
  intros (Hh & Hpl & Hex) H. unfold start_request in H.
  apply bind_Some in H as (end_ & w1 & [Hi1 _]%deadline_idle & H).
  apply bind_Some in H as (rc & w2 & (x & rest & Hx & Hio & Hrc)%(send_frame_spec k Hk) & H).
  assert (holds_fd w w2) as Hf2 by (etransitivity; [by apply idle_fd|by eapply io_fd]).
  destruct (truth rc) eqn:Et.
  { right. apply diag_fail in H as [-> Hr]. eexists. split; [done|]. split; [by destruct (rc =? ETIMEDOUT)|]. by eapply released_after. }
  apply truth_false in Et. rewrite (proj1 Hrc Et), app_nil_r in Hx. subst x.
  pose proof (io_proc _ _ _ _ _ Hi1) as Hp1. pose proof (io_proc _ _ _ _ _ Hio) as Hp2. rewrite Hp1 in Hp2.
  set (st := if detached then 2 else 1) in *.
  apply bind_Some in H as (e & w3 & H3 & H).
  assert (buf_ok st (proc w2)) as Hb2 by (rewrite Hp2; constructor; rewrite ?Hh, ?Hpl; try done; apply Forall_nil).
  destruct (receive_frame_spec k Hk Hsole st _ _ _ _ _ H3 Hb2) as (y & Hy & Hok & _).
  assert (holds_fd w w3) as Hf3 by (etransitivity; [done|by eapply reads_fd]).
  assert (sent w3 = sent w ++ frame (if detached then 10 else 1, pl)) as Hs3.
  { rewrite (ri_sent _ _ _ _ Hy), (io_sent _ _ _ _ _ Hio), (io_sent _ _ _ _ _ Hi1), app_nil_r. done. }
  destruct (ri_buf _ _ _ _ Hy Hb2) as [Hb3 _]. destruct (ri_exited _ _ _ _ Hy) as [Hex3 _]. rewrite Hp2, Hex in Hex3.
  case_bool_decide as He.
  - left. destruct (Hok He) as [Hc Hn9]. destruct (complete_frame _ _ Hb3 Hc) as (b & Eb & _ & Hbb & _ & Hv).
    apply ack_frame_valid in Hv; [|done].
    apply bind_Some in H as ([] & w4 & H4 & H). apply bind_Some in H as ([] & w5 & ->%set_proc_Some & H).
    apply bind_Some in H as (e6 & w6 & (-> & Hf6 & Hp6 & Hs6)%diag_fd & [-> ->]%ret_Some). split; [done|].
    assert (holds_fd w3 w4 /\ sent w4 = sent w3 /\ if detached then proc w4 = proc w3 else fresh (proc w4)) as (Hf4 & Hs4 & Hq).
    { destruct detached; [by apply ret_Some in H4 as [_ ->]|]. apply set_proc_Some in H4. by subst w4. }
    unfold requested. rewrite Hs6, Hp6. cbn [proc sent upd]. split_and!; [congruence| |done|].
    + etransitivity; [done|]. etransitivity; [done|]. destruct Hf6 as [Hc6 Hfd6]. by split.
    + destruct detached; [rewrite Hq; by exists b|done].
  - right. exists e. apply bind_Some in H as (f & w4 & H4 & H). apply bind_Some in H as (d & w5 & H5 & H).
    apply start_fail_spec in H as [-> Hr]. split_and!; try done. eapply released_after; [|done].
    etransitivity; [done|]. transitivity w4.
    + destruct (detached && _); [apply atomic_load_calm in H4 as [H4 _]; by apply calm_fd|by apply ret_Some in H4 as [_ ->]].
    + case_bool_decide; [by apply diag_fd in H5 as (_ & ? & _)|by apply ret_Some in H5 as [_ ->]].
Qed.

(** Every descriptor opened in between was closed again. *)
Definition no_leak (w w' : world) : Prop := exists l, opened w' = l ++ opened w /\ closed w' = l ++ closed w.
(** The caller holds a handle on a freshly opened socket that carries the request. *)
Definition started (o : ob_options) (detached : bool) (pl : list Z) (w w' : world) : Prop :=
  opened w' = fd (proc w') :: opened w /\ closed w' = closed w /\ 0 <= fd (proc w') /\
  sent w' = sent w ++ magic detached ++ frame (if detached then 10 else 1, pl) /\
  stdin_open (proc w') = stdin_enabled o /\
  if detached then exists b, payload (proc w') = Some b /\ zlen b = 4 /\ bytes b else fresh (proc w').

Lemma start_connect_idle fuel w rc w' : start_connect k fuel w = Some (rc, w') -> idle w w'.
Proof.
  unfold start_connect. intros H. apply bind_Some in H as (end_ & w1 & [Hi1 _]%deadline_idle & H).
  apply bind_Some in H as (r & w2 & (_ & Hi2 & _)%ask_idle & H). assert (idle w w2) as Hi by (by etransitivity).
  destruct r as [e|]; [|by apply ret_Some in H as [_ ->]]. destruct (_ || _); [|by apply ret_Some in H as [_ ->]].
  apply bind_Some in H as (rc1 & w3 & Hi3%ready_idle & H). assert (idle w w3) as Hi' by (by etransitivity).
  destruct (truth rc1); [by apply ret_Some in H as [_ ->]|]. apply ask_idle in H as (_ & ? & _). by etransitivity.
Qed.

Lemma start_handshake_spec fuel detached w r w' : start_handshake k fuel detached w = Some (r, w') ->
  holds_fd w w' /\ proc w' = proc w /\ (r.2 = true -> sent w' = sent w ++ magic detached).
Proof.
  unfold start_handshake. intros H. apply bind_Some in H as (end_ & w1 & [Hi1 _]%deadline_idle & H).
  apply bind_Some in H as (rc & w2 & (x & rest & Hx & Hio & Hrc)%(send_bytes_spec k Hk) & H).
  assert (holds_fd w w2) as Hf2 by (etransitivity; [by apply idle_fd|by eapply io_fd]).
  pose proof (io_proc _ _ _ _ _ Hi1) as Hp1. pose proof (io_proc _ _ _ _ _ Hio) as Hp2. rewrite Hp1 in Hp2.
  destruct (truth rc) eqn:Et; [apply ret_Some in H as [-> ->]; done|].
  apply truth_false in Et. rewrite (proj1 Hrc Et), app_nil_r in Hx. subst x.
  apply bind_Some in H as (r1 & w3 & H3 & [-> ->]%ret_Some).
  apply (recv_bytes_spec k Hk) in H3 as (y & _ & _ & Hio3 & _); [|done|done|done].
  split_and!.
  - etransitivity; [done|]. by eapply io_fd.
  - by rewrite (io_proc _ _ _ _ _ Hio3).
  - intros _. rewrite (io_sent _ _ _ _ _ Hio3), (io_sent _ _ _ _ _ Hio), (io_sent _ _ _ _ _ Hi1), !app_nil_r. done.
Qed.

Lemma start_socket_spec fuel o detached pl w r w' : proc w = new_process ->
  start_socket k fuel o detached pl w = Some (r, w') ->
  (r = (OB_OK, true) /\ started o detached pl w w') \/ (exists e, r = (e, false) /\ e <> OB_OK /\ no_leak w w').
Proof.
  intros Hnew H. unfold start_socket in H. apply bind_Some in H as (s & w1 & (-> & Hi1 & _)%ask_idle & H).
  set (s := k_socket k (tick w)) in *. apply bind_Some in H as ([] & w2 & H2 & H).
  apply bind_Some in H as ([] & w3 & ->%set_proc_Some & H). set (w3 := w2 <| proc ::= _ |>) in *.
  assert (opened w3 = (if 0 <=? s then [s] else []) ++ opened w /\ closed w3 = closed w /\ sent w3 = sent w /\
          proc w3 = new_process <| fd := s |>) as (Ho & Hc & Hs & Hp).
  { pose proof (io_closed _ _ _ _ _ Hi1) as [= Ho1 Hc1]. pose proof (io_sent _ _ _ _ _ Hi1) as Hs1. rewrite app_nil_r in Hs1.
    pose proof (io_proc _ _ _ _ _ Hi1) as Hp1. rewrite Hnew in Hp1. unfold w3. cbn.
    destruct (Z.ltb_spec s 0); destruct (Z.leb_spec 0 s); try lia.
    - apply ret_Some in H2 as [_ ->]. by rewrite Ho1, Hc1, Hs1, Hp1.
    - apply modify_o_Some in H2. subst w2. cbn. by rewrite Ho1, Hc1, Hs1, Hp1. }
  clearbody w3.
  assert (forall w4, holds_fd w3 w4 -> forall e, r = (e, false) /\ released w4 w' -> e <> OB_OK ->
           exists e, r = (e, false) /\ e <> OB_OK /\ no_leak w w') as Hfail.
  { intros w4 Hf4 e [-> Hr] He. exists e. split_and!; try done. destruct (released_after _ _ _ Hf4 Hr) as [Ho' Hc'].
    rewrite Hp in Hc'. cbn [fd upd] in Hc'. exists (if 0 <=? s then [s] else []). by rewrite Ho', Hc', Ho, Hc. }
  apply bind_Some in H as (ok & w4 & H4 & H).
  assert (idle w3 w4 /\ (ok = true -> 0 <= s)) as [Hi4 Hs4].
  { destruct (Z.ltb_spec s 0); [by apply ret_Some in H4 as [-> ->]|]. split; [|lia].
    apply bind_Some in H4 as (f & w5 & (_ & Hi5 & _)%ask_idle & H4).
    destruct f; [apply ask_idle in H4 as (_ & ? & _); by etransitivity|by apply ret_Some in H4 as [_ ->]]. }
  destruct ok; cbn [negb] in H.
  2:{ right. apply bind_Some in H as (en & w5 & (_ & Hi5 & _)%ask_idle & H). eapply (Hfail w5); [|by apply diag_fail in H|done].
      etransitivity; by apply idle_fd. }
  apply bind_Some in H as (rc & w5 & Hi5%start_connect_idle & H). assert (idle w3 w5) as Hi35 by (by etransitivity).
  destruct (truth rc); [right; eapply (Hfail w5); [by apply idle_fd|by apply diag_fail in H|done]|].
  apply bind_Some in H as (h & w6 & (Hf6 & Hp6 & Hs6)%start_handshake_spec & H).
  assert (holds_fd w3 w6) as Hf36 by (etransitivity; [by apply idle_fd|done]).
  destruct h as [hrc [|]]; cbn [snd negb fst] in *; [|right; eapply (Hfail w6); [done|by apply diag_fail in H|done]].
  rewrite (io_proc _ _ _ _ _ Hi35), Hp in Hp6.
  apply start_request_spec in H as [[-> Hr]|(e & Hr & He & Hrel)]; [left|right; by eapply (Hfail w6)|by rewrite Hp6].
  split; [done|]. destruct Hr as (Hsr & Hfr & Hso & Hrest).
  assert (holds_fd w3 w') as [[= Ho' Hc'] Hfd'] by (by etransitivity). rewrite Hp in Hfd'. cbn in Hfd'.
  unfold started. rewrite Ho', Ho, Hc', Hc, Hfd', (proj2 (Z.leb_le 0 s)) by auto.
  split_and!; auto. rewrite Hsr, (Hs6 eq_refl), (io_sent _ _ _ _ _ Hi35), Hs, app_nil_r. by rewrite <- app_assoc.
Qed.

Context (home : option cstr) (fs : cstr -> endpoint_file).

Lemma start_exchange_spec fuel path opts detached out err w r w' :
  start_exchange k home fs fuel path opts detached out err w = Some (r, w') ->
  (exists o pl n, opts = Some o /\ encode_start true opts detached out err = inr (pl, n) /\
     r = (OB_OK, true) /\ started o detached pl w w') \/
  (exists e, r = (e, false) /\ e <> OB_OK /\ no_leak w w').
Proof.
  unfold start_exchange. intros H. apply bind_Some in H as (m & w1 & (_ & Hi1 & _)%ask_idle & H).
  assert (forall w2 w3, idle w w2 -> holds_fd w2 w3 -> no_leak w w3) as Hnone.
  { intros w2 w3 H2%idle_fd H3. assert (holds_fd w w3) as [[= Ho Hc] _] by (by etransitivity). by exists []. }
  destruct (encode_start m opts detached out err) as [e|[pl n]] eqn:Ee.
  { right. apply bind_Some in H as (e1 & w2 & (-> & Hf & _)%diag_fd & [-> ->]%ret_Some). exists e.
    split_and!; try done; [|by eapply Hnone]. intros ->. by eapply encode_start_error. }
  destruct opts as [o|]; [|unfold encode_start in Ee; simpl in Ee; done].
  assert (encode_start true (Some o) detached out err = inr (pl, n)) as Ee'.
  { destruct m; [done|]. unfold encode_start in *. destruct (options_invalid _ _); [done|]. by destruct (start_size o detached out err). }
  apply bind_Some in H as (m2 & w2 & (_ & Hi2 & _)%ask_idle & H). assert (idle w w2) as Hi by (by etransitivity).
  destruct (discover path home m2 fs) as [rc|port].
  { right. apply bind_Some in H as (e1 & w3 & (-> & Hf & _)%diag_fd & [-> ->]%ret_Some). eexists. split_and!; try done. by eapply Hnone. }
  apply bind_Some in H as (m3 & w3 & (_ & Hi3 & _)%ask_idle & H). assert (idle w w3) as Hi' by (by etransitivity).
  destruct m3; cbn [negb] in H.
  2:{ right. apply bind_Some in H as (e1 & w4 & (-> & Hf & _)%diag_fd & [-> ->]%ret_Some). eexists. split_and!; try done. by eapply Hnone. }
  apply bind_Some in H as ([] & w4 & ->%set_proc_Some & H).
  apply bind_Some in H as (rc & w5 & (_ & Hi5 & _)%ask_idle & H).
  assert (opened w5 = opened w /\ closed w5 = closed w /\ sent w5 = sent w /\ proc w5 = new_process) as (Ho & Hc & Hs & Hp).
  { pose proof (io_closed _ _ _ _ _ Hi') as [= Ho' Hc']. pose proof (io_sent _ _ _ _ _ Hi') as Hs'.
    destruct Hi5 as [Hp5 _ Hs5 _ _ [= Ho5 Hc5] _]. cbn in *. rewrite app_nil_r in *. split_and!; congruence. }
  destruct (truth rc).
  { right. apply bind_Some in H as (e1 & w6 & (-> & [[= Ho6 Hc6] _] & _)%diag_fd & [-> ->]%ret_Some). eexists. split_and!; try done.
    exists []. split; cbn; congruence. }
  apply start_socket_spec in H as [[-> Hst]|(e & -> & He & l & Hl & Hl')]; [left|right|done].
  - exists o, pl, n. split_and!; try done. unfold started in *. by rewrite Ho, Hc, Hs in Hst.
  - exists e. split_and!; try done. exists l. by rewrite Hl, Hl', Ho, Hc.
Qed.
End start.

(** C18: [ob_start] either fails, returns no handle and has closed every
    descriptor it opened, or hands over a handle that owns the one socket it opened, with empty
    buffers, on which exactly the greeting and one START frame were sent; the service decodes that
    frame to the options of the caller. *)
Theorem ob_start_request k home fs fuel path opts w e got w' :
  kernel_ok k -> sole_reader k ->
  ob_start k home fs fuel path (Some opts) true w = Some ((e, got), w') -> options_wf opts ->
  if got then
    e = OB_OK /\ opened w' = fd (proc w') :: opened w /\ closed w' = closed w /\ fresh (proc w') /\
    stdin_open (proc w') = stdin_enabled opts /\
    exists pl, sent w' = sent w ++ magic false ++ frame (1, pl) /\ zlen pl <= OB_MAX_FRAME /\
               Service.DecodeStart pl = Some (ServiceProofs.request_of opts)
  else e <> OB_OK /\ no_leak w w'.
Proof.
  intros Hk Hsole H Hwf. unfold ob_start in H. cbn [negb] in H.
  apply start_exchange_spec in H as [(o & pl & n & [= <-] & Ee & [= -> ->] & Hst)|(e' & [= -> ->] & He & Hl)]; try done.
  destruct Hst as (? & ? & _ & ? & ? & ?). split_and!; try done. exists pl. split_and!; try done.
  - destruct (encode_start_size _ _ _ _ _ _ _ Ee). lia.
  - by eapply decode_encoded.
Qed.

(** Detached startup reports success exactly with a PID in 1..INT32_MAX and
    zero otherwise, and in every outcome the connection it opened is closed again: the caller never
    holds a handle. *)
Theorem detached_pid k home fs fuel path opts out err w e pid w' :
  kernel_ok k -> sole_reader k ->
  ob_spawn_detached k home fs fuel path opts out err true w = Some ((e, pid), w') ->
  no_leak w w' /\ ((e = OB_OK /\ 1 <= pid <= INT32_MAX) \/ (e <> OB_OK /\ pid = 0)).
Proof.
  intros Hk Hsole H. unfold ob_spawn_detached in H. cbn [negb] in H.
  apply bind_Some in H as (r & w1 & H1 & H).
  apply start_exchange_spec in H1 as [(o & pl & n & -> & Ee & -> & Hst)|(e' & -> & He & Hl)]; try done; cbn [fst] in H.
  2:{ rewrite bool_decide_false in H by done. apply ret_Some in H as [[= -> ->] ->]. auto. }
  rewrite bool_decide_true in H by done. cbn [negb] in H. destruct Hst as (Ho & Hc & Hfd & _ & _ & b & Eb & Hlen & Hb).
  apply bind_Some in H as (pl' & w2 & [-> ->]%the_Some & H). rewrite Eb in H. change (default [] (Some b)) with b in H. cbv zeta in H.
  apply bind_Some in H as (res & w2 & H2 & H). apply bind_Some in H as ([] & w3 & H3 & [<- ->]%ret_Some).
  assert (holds_fd w1 w2 /\ ((e = OB_OK /\ 1 <= pid <= INT32_MAX) \/ (e <> OB_OK /\ pid = 0))) as [[[= Ho2 Hc2] Hf2] Hres].
  { pose proof (be_get_range (ztake 4 b) (bytes_take _ _ Hb)) as Hr. rewrite <- get32_be in Hr by (done || lia).
    destruct (_ || _) eqn:Eo.
    - apply bind_Some in H2 as (e1 & w4 & (-> & Hf & _)%diag_fd & H2). apply ret_Some in H2 as [[= -> ->] ->]. auto.
    - apply ret_Some in H2 as [[= -> ->] ->]. split; [by split|]. left. bools. split; [done|lia]. }
  split; [|done]. unfold ob_release in H3. injection H3 as <-. rewrite Hf2, (proj2 (Z.leb_le 0 _)) by done.
  exists [fd (proc w1)]. cbn. by rewrite Ho2, Ho, Hc2, Hc.
Qed.

(** A kernel on which the service answers the greeting and then acknowledges. *)
Definition start_kernel (greeting ack body : list Z) : kernel := Kernel (fun t => Z.of_nat t) (fun _ => PollReady false)
  (fun _ b => Sent (zlen b))
  (fun _ n => if n =? 8 then RecvGot greeting else if n =? 5 then RecvGot ack else if n =? 4 then RecvGot body else RecvEof)
  (fun _ => true) (fun _ => 0) (fun _ => 7) (fun _ => true) (fun _ => None) (fun _ => 0) (fun _ => 0) (fun _ => nobody).
Lemma start_kernel_ok g a b : bytes g -> zlen g = 8 -> bytes a -> zlen a = 5 -> bytes b -> zlen b = 4 ->
  kernel_ok (start_kernel g a b).
Proof.
  intros. split; simpl; try done.
  - intros _ l n [= <-]. pose proof (zlen_nonneg l). lia.
  - intros _ n l. destruct (Z.eqb_spec n 8) as [->|]; [|destruct (Z.eqb_spec n 5) as [->|]; [|destruct (Z.eqb_spec n 4) as [->|]; [|done]]];
      intros [= <-]; (split; [done|lia]).
  - intros _ n e. repeat case_match; done.
Qed.
Definition sample_file (_ : cstr) : endpoint_file := EndpointFile None None true [ReadGot (lit "127.0.0.1:8080")].
Definition empty_world : world := World new_process 0 [] [] false [] [] None.

Lemma ob_start_request_witness : exists w',
  ob_start (start_kernel (magic false) [2; 0; 0; 0; 0] [0; 0; 0; 0]) None sample_file 9 (Some [47]) (Some sample_options) true
    empty_world = Some ((OB_OK, true), w') /\
  exists pl, sent w' = magic false ++ frame (1, pl) /\ Service.DecodeStart pl = Some (ServiceProofs.request_of sample_options).
Proof.
  eexists. split; [vm_compute; reflexivity|].
  edestruct (ob_start_request (start_kernel (magic false) [2; 0; 0; 0; 0] [0; 0; 0; 0]) None sample_file 9 (Some [47]) sample_options
    empty_world OB_OK true) as (_ & _ & _ & _ & _ & pl & Hs & _ & Hd).
  - apply start_kernel_ok; first [done | repeat constructor; lia].
  - intros t. reflexivity.
  - vm_compute. reflexivity.
  - split; reflexivity.
  - exists pl. split; [exact Hs|exact Hd].
Defined.
Lemma detached_pid_witness : exists w',
  ob_spawn_detached (start_kernel (magic true) [11; 0; 0; 0; 4] [0; 0; 1; 44]) None sample_file 9 (Some [47]) (Some sample_options) None None true
    empty_world = Some ((OB_OK, 300), w') /\ no_leak empty_world w' /\
  ((OB_OK = OB_OK /\ 1 <= 300 <= INT32_MAX) \/ (OB_OK <> OB_OK /\ 300 = 0)).
Proof.
  eexists. split; [vm_compute; reflexivity|].
  eapply (detached_pid (start_kernel (magic true) [11; 0; 0; 0; 4] [0; 0; 1; 44]) None sample_file 9 (Some [47]) (Some sample_options) None None).
  - apply start_kernel_ok; first [done | repeat constructor; lia].
  - intros t. reflexivity.
  - vm_compute. reflexivity.
Defined.

(** ** Deadlines *)

Section deadlines.
Context (k : kernel).

(** From tick [T] on the clock shows [end_] or later. *)
Definition due (end_ : Z) (T : nat) : Prop := 0 <= end_ /\ forall t, (T <= t)%nat -> end_ <= k_clock k t.

Lemma remaining_due end_ T w : due end_ T -> exists left w1, remaining k end_ w = Some (left, w1) /\
  tick w1 = S (tick w) /\ ((left =? 0) = false -> (tick w < T)%nat).
Proof.
  intros [H0 HT]. unfold remaining. rewrite (proj2 (Z.ltb_ge _ _)) by done. eexists _, _. split; [reflexivity|]. split; [done|].
  destruct (le_lt_dec T (tick w)) as [Hle|]; [|done]. cbn.
  destruct (Z.leb_spec (end_ - k_clock k (tick w)) 0); [done|]. specialize (HT _ Hle). lia.
Qed.
Ltac run_remaining T Hd :=
  lazymatch goal with |- exists r, (remaining k ?e ≫= _) ?w = Some r =>
    let l := fresh "left" in let w1 := fresh "w1" in let E := fresh "E" in let Ht := fresh "Ht" in let Hl := fresh "Hl" in
    destruct (remaining_due e T w Hd) as (l & w1 & E & Ht & Hl);
    unfold mbind at 1, M_bind at 1, SO_bind at 1; rewrite E; destruct (l =? 0) eqn:?; [by eexists|specialize (Hl eq_refl)] end.

Lemma ready_terminates T end_ fuel w : due end_ T -> (T - tick w < fuel)%nat -> exists r, ready k fuel end_ false w = Some r.
Proof.
  intros Hd. revert w. induction fuel as [|fuel IH]; intros w Hf; [lia|]. cbn [ready].
  unfold mbind at 1, M_bind at 1, SO_bind at 1. cbn. destruct (remaining_due end_ T w Hd) as (l & w1 & E & Ht & _).
  unfold mbind at 1, M_bind at 1, SO_bind at 1. rewrite E. unfold mbind at 1, M_bind at 1, SO_bind at 1. unfold ask at 1.
  assert (forall w2, tick w2 = S (tick w1) -> exists r,
    (left ← remaining k end_; if left =? 0 then mret ETIMEDOUT else ready k fuel end_ false) w2 = Some r) as Hrec.
  { intros w2 Ht2. run_remaining T Hd. apply IH. lia. }
  destruct Hd as [H0 _]. destruct (k_poll k (tick w1)) as [nv| |e]; [by eexists|..];
    rewrite ?(proj2 (Z.leb_le 0 end_)) by done; [by apply Hrec|]. destruct (negb (e =? EINTR)); [by eexists|by apply Hrec].
Qed.

Lemma send_bytes_terminates T end_ fuel b w : due end_ T -> (T - tick w < fuel)%nat ->
  exists r, send_bytes k fuel b end_ false w = Some r.
Proof.
  intros Hd. revert b w. induction fuel as [|fuel IH]; intros b w Hf; [lia|].
  destruct b as [|c b]; cbn [send_bytes]; [by eexists|]. set (l := c :: b). clearbody l.
  unfold mbind at 1, M_bind at 1, SO_bind at 1. cbn -[ready send_bytes]. run_remaining T Hd.
  unfold mbind at 1, M_bind at 1, SO_bind at 1. unfold safe_send. destruct (k_send k (tick w1) l) as [n|e].
  - destruct (0 <? n); [|by eexists]. apply IH. cbn. lia.
  - destruct (e =? EINTR); [apply IH; cbn; lia|]. destruct (e =? EAGAIN); [|by eexists].
    destruct (ready_terminates T end_ (S fuel) (w1 <| tick ::= S |>) Hd) as [[rc w3] Er]; [cbn; lia|].
    unfold mbind at 1, M_bind at 1, SO_bind at 1. rewrite Er. destruct (truth rc); [by eexists|].
    apply IH. apply ready_idle, idle_tick in Er. cbn in Er. lia.
Qed.

Context (Hk : kernel_ok k).
Lemma send_frame_terminates T end_ fuel t b w : due end_ T -> (T - tick w < fuel)%nat ->
  exists r, send_frame k fuel t b end_ false w = Some r.
Proof.
  intros Hd Hf. unfold send_frame, mbind at 1, M_bind at 1, SO_bind at 1.
  destruct (send_bytes_terminates T end_ fuel (frame_header t (zlen b)) w Hd Hf) as [[rc w1] E]. rewrite E.
  destruct (truth rc); [by eexists|]. apply (send_bytes_terminates T); [done|].
  apply (send_bytes_spec k Hk) in E as (x & rest & _ & Hio & _). apply io_tick in Hio. lia.
Qed.
Lemma send_frame_ticks fuel t b end_ w rc w' : send_frame k fuel t b end_ false w = Some (rc, w') -> (tick w <= tick w')%nat.
Proof. intros (x & rest & _ & Hio & _)%(send_frame_spec k Hk). by apply io_tick in Hio. Qed.

Lemma input_chunks_terminates T end_ fuel b w : due end_ T -> (T - tick w < fuel)%nat -> (length b <= fuel)%nat ->
  exists r, input_chunks k fuel b end_ w = Some r.
Proof.
  intros Hd. revert b w. induction fuel as [|fuel IH]; intros b w Hf Hb; [lia|].
  destruct b as [|c b]; cbn [input_chunks]; [by eexists|]. set (l := c :: b) in *.
  set (n := if OB_MAX_STREAM <? zlen l then OB_MAX_STREAM else zlen l).
  assert (1 <= n) as Hn. { unfold n, OB_MAX_STREAM. unfold zlen, l in *. cbn [length]. destruct (65536 <? _); lia. }
  assert (l <> []) as Hl by done. clearbody n l.
  unfold mbind at 1, M_bind at 1, SO_bind at 1. unfold atomic_load.
  destruct ((o ← ask k k_others; _ ← set_proc (interfere o); the cancelled) w) as [[ca w1]|] eqn:E; [|done].
  pose proof (atomic_load_calm k cancelled _ _ _ E) as [Hc _]. apply calm_tick in Hc.
  destruct ca; [by eexists|]. assert (tick w1 = S (tick w)) as Ht1 by (injection E; intros <-; done).
  unfold mbind at 1, M_bind at 1, SO_bind at 1.
  destruct (send_frame_terminates T end_ (S fuel) 3 (ztake n l) w1 Hd) as [[rc w2] Es]; [lia|]. rewrite Es.
  apply send_frame_ticks in Es. destruct (truth rc); [by eexists|].
  assert (length (zdrop n l) <= fuel)%nat as Hlen by (unfold zdrop; rewrite length_drop; lia).
  destruct (decide (zdrop n l = [])) as [->|Hne]; [destruct fuel; by eexists|].
  apply IH; [|done]. destruct (zdrop n l); [done|]. cbn in Hlen. lia.
Qed.

Lemma deadline_due w : clock_runs k -> exists end_ T, deadline k OB_DEADLINE w = Some (end_, w <| tick ::= S |>) /\ due end_ T.
Proof.
  intros [H0 H]. destruct (H (k_clock k (tick w) + OB_DEADLINE)) as [T HT]. eexists _, T. split; [reflexivity|].
  split; [|done]. specialize (H0 (tick w)). unfold OB_DEADLINE. lia.
Qed.
Lemma bind_total {A B} (c : M A) (f : A -> M B) w :
  (exists r, c w = Some r) -> (forall a w', c w = Some (a, w') -> exists r, f a w' = Some r) -> exists r, (c ≫= f) w = Some r.
Proof. intros [[a w'] E] H. unfold mbind, M_bind, SO_bind. rewrite E. by apply H. Qed.
Lemma atomic_load_total {A} (f : ob_process -> A) w : exists r, atomic_load k f w = Some r.
Proof. by eexists. Qed.
Lemma poison_total e w : exists r, poison k e w = Some r.
Proof. by eexists. Qed.
Lemma input_gate_total w : exists r, input_gate k w = Some r.
Proof.
  apply bind_total; [apply atomic_load_total|intros e w1 _]. apply bind_total; [|intros; by eexists].
  case_bool_decide; [|by eexists]. apply bind_total; [apply atomic_load_total|intros c w2 _].
  apply bind_total; [|intros; by eexists]. destruct c; by eexists.
Qed.
Lemma finish_total (rc : Z) (e e' : ob_error) st m (g : ob_error -> M unit) w :
  (forall x w, exists r, g x w = Some r) ->
  exists r, (e1 ← (if truth rc then poison k e else mret e'); _ ← g e1; diag e1 st rc (m e1)) w = Some r.
Proof.
  intros Hg. apply bind_total; [destruct (truth rc); [apply poison_total|by eexists]|intros e1 w1 _].
  apply bind_total; [apply Hg|intros; by eexists].
Qed.

Lemma input_terminates data size eof w : clock_runs k -> exists F, forall fuel, (F <= fuel)%nat ->
  exists r, input k fuel true data size eof w = Some r.
Proof.
  intros Hrun. unfold input. cbn [negb orb]. destruct (_ && truth size); [exists 0%nat; by eexists|].
  destruct (input_gate_total w) as [[e w1] Eg]. destruct (deadline_due w1 Hrun) as (end_ & T & Ed & Hd).
  set (d := ztake size (default [] data)). exists (S T + length d)%nat. intros fuel Hf.
  apply bind_total; [by eexists|]. rewrite Eg. intros ? ? [= <- <-]. apply bind_total; [by eexists|].
  rewrite Ed. intros ? ? [= <- <-]. apply bind_total.
  { destruct (_ && eof); [|by eexists]. apply (send_frame_terminates T); [done|cbn; lia]. }
  intros rc w3 _. apply bind_total.
  { destruct (_ && negb _); [|by eexists]. apply (input_chunks_terminates T); [done|lia..]. }
  intros r w4 _. eapply (finish_total r.2 _ r.1 (lit "stdin")). intros x w5. destruct (_ && eof); by eexists.
Qed.

Lemma cancel_terminates w : clock_runs k -> exists F, forall fuel, (F <= fuel)%nat -> exists r, ob_cancel k fuel true w = Some r.
Proof.
  intros Hrun. unfold ob_cancel. cbn [negb].
  set (w0 := w <| proc ::= fun p => p <| cancelled := true |> |>).
  destruct (atomic_load_total failure w0) as [[e w1] E1]. destruct (atomic_load_total exited w1) as [[x w2] E2].
  destruct (deadline_due w2 Hrun) as (end_ & T & Ed & Hd). exists (S T). intros fuel Hf.
  apply bind_total; [by eexists|]. intros [] w' ->%set_proc_Some. change (w <| proc ::= _ |>) with w0.
  apply bind_total; [by eexists|]. rewrite E1. intros ? ? [= <- <-].
  apply bind_total.
  { case_bool_decide; [|by eexists]. apply bind_total; [by eexists|]. rewrite E2. intros ? ? [= <- <-]. destruct x; [by eexists|].
    apply bind_total; [by eexists|]. rewrite Ed. intros ? ? [= <- <-]. apply (send_frame_terminates T); [done|cbn; lia]. }
  intros rc w3 _. apply bind_total; [destruct (truth rc); [apply poison_total|by eexists]|intros; by eexists].
Qed.
End deadlines.

(** C39: once the clock runs, writing, closing stdin and cancelling return,
    whatever the socket does (endless EINTR and EAGAIN included): the three-second budget bounds
    every loop.  For every operation there is an amount of fuel from which on it never runs out. *)
Theorem writers_terminate k w data :
  kernel_ok k -> clock_runs k ->
  exists F, forall fuel, (F <= fuel)%nat ->
    (exists r, ob_write_stdin k fuel true (Some data) (zlen data) w = Some r) /\
    (exists r, ob_close_stdin k fuel true w = Some r) /\ (exists r, ob_cancel k fuel true w = Some r).
Proof.
  intros Hk Hrun. destruct (input_terminates k Hk (Some data) (zlen data) false w Hrun) as [F1 H1].
  destruct (input_terminates k Hk None 0 true w Hrun) as [F2 H2]. destruct (cancel_terminates k Hk w Hrun) as [F3 H3].
  exists (F1 + F2 + F3)%nat. intros fuel Hf. split_and!; [apply H1|apply H2|apply H3]; lia.
Qed.
(** A kernel whose socket never accepts a byte. *)
Definition stuck_kernel : kernel := Kernel (fun t => Z.of_nat t) (fun _ => PollTimeout) (fun _ _ => SendFailed EAGAIN)
  (fun _ _ => RecvFailed EAGAIN) (fun _ => true) (fun _ => 0) (fun _ => 7) (fun _ => true) (fun _ => None)
  (fun _ => 0) (fun _ => 0) (fun _ => nobody).
Lemma writers_terminate_witness : exists F, forall fuel, (F <= fuel)%nat ->
    (exists r, ob_write_stdin stuck_kernel fuel true (Some [1]) (zlen [1]) demo_world = Some r) /\
    (exists r, ob_close_stdin stuck_kernel fuel true demo_world = Some r) /\
    (exists r, ob_cancel stuck_kernel fuel true demo_world = Some r).
Proof.
  apply writers_terminate.
  - by split; simpl; intros; simplify_eq.
  - split; simpl; [intros; lia|]. intros e. exists (Z.to_nat e). intros; lia.
Defined.

(** C40: the first failure of a connection is final.  Whatever sequence of
    operations follows, and whatever threads that were still inside a transfer report afterwards,
    the handle keeps that failure; no byte is sent or received any more; and every call answers
    with exactly that failure, except that a read repeats an EXIT seen before it (and refuses a
    timeout below -1 as an argument error).  In particular, after a stdin write ran out of its
    budget each read reports OB_TIMEOUT although waiting longer can never succeed. *)
Theorem failure_is_final k fuel l w rs w' :
  sole_reader k -> failure (proc w) <> OB_OK -> run_acts k fuel l w = Some (rs, w') ->
  failure (proc w') = failure (proc w) /\ sent w' = sent w /\ received w' = received w /\
  exited (proc w') = exited (proc w) /\ Forall2 (refused (proc w)) l rs.
Proof.
  intros Hsole Hf H. destruct (acts_refused k Hsole _ _ _ _ _ Hf H) as [[? ? ? []] ?]. done.
Qed.
Definition poisoned_world : world := demo_world <| proc ::= fun p => p <| failure := OB_TIMEOUT |> |>.
Definition late_acts : list handle_act :=
  [Act (DoRead 1000); LatePoison OB_CONNECTION_LOST; Act (DoWrite [1]); Act DoClose; Act DoCancel; Act (DoRead (-1))].
Lemma failure_is_final_witness : exists rs w', run_acts demo_kernel 9 late_acts poisoned_world = Some (rs, w') /\
    failure (proc w') = OB_TIMEOUT /\ sent w' = [] /\ received w' = [] /\
    Forall2 (refused (proc poisoned_world)) late_acts rs /\ rs = replicate 6 (OB_TIMEOUT, no_event).
Proof.
  eexists _, _. split; [vm_compute; reflexivity|].
  edestruct (failure_is_final demo_kernel 9 late_acts poisoned_world) as (H1 & H2 & H3 & _ & H5);
    [intros t; reflexivity|done|vm_compute; reflexivity|]. split_and!; [exact H1|exact H2|exact H3|exact H5|reflexivity].
Defined.
