(* ===== verification/Json.v ===== *)
(** * Exact integers in control messages

    src/sdk/c/remote/ob_json.c: the scanner that checks how a top-level unsigned
    field of an already parsed JSON object is spelled.  A position in the text is
    the suffix that starts there; the end of the text ([length]) is the empty
    suffix.  The parser itself is cJSON and is not modelled. *)

From S2P Require Import Prelude.

(** [ob_json_parse_complete] only adds the argument checks to cJSON's parser,
    which is the parameter [parse]. *)
Definition ob_json_parse_complete {J : Type} (parse : list Z -> option J)
    (text : option (list Z)) (terminated : bool) (length : Z) : option J :=
  match text with
  | None => None
  | Some t => if (length =? 2 ^ 64 - 1) || negb terminated then None else parse (ztake length t)
  end.

Definition json_space (c : Z) : bool := (c =? 32) || (c =? 9) || (c =? 13) || (c =? 10).
Fixpoint skip_space (s : list Z) : list Z :=
  match s with
  | c :: s' => if json_space c then skip_space s' else s
  | [] => []
  end.

Definition quote : Z := 34.
Definition backslash : Z := 92.

(** The loop of [string_end]: past the closing quote, or the end of the text. *)
Fixpoint string_rest (s : list Z) : list Z :=
  match s with
  | [] => []
  | c :: s' =>
    if c =? quote then s'
    else if c =? backslash then match s' with [] => [] | _ :: s'' => string_rest s'' end
    else string_rest s'
  end.
Definition string_end (s : list Z) : list Z :=
  match s with
  | c :: s' => if c =? quote then string_rest s' else []
  | [] => []
  end.

Definition hex_digit (c : Z) : Z :=
  if (48 <=? c) && (c <=? 57) then c - 48
  else if (97 <=? c) && (c <=? 102) then c - 97 + 10
  else if (65 <=? c) && (c <=? 70) then c - 65 + 10
  else -1.

(** The character an escape denotes and what follows it, if this scanner accepts it. *)
Definition unescape (c : Z) (s : list Z) : option (Z * list Z) :=
  if c =? 117 then
    match s with
    | a :: b :: d :: e :: s =>
      if existsb (fun x => hex_digit x <? 0) [a; b; d; e] then None
      else
        let code := ((hex_digit a * 16 + hex_digit b) * 16 + hex_digit d) * 16 + hex_digit e in
        if (code =? 0) || (127 <? code) then None else Some (code, s)
    | _ => None
    end
  else if c =? 98 then Some (8, s) else if c =? 102 then Some (12, s)
  else if c =? 110 then Some (10, s) else if c =? 114 then Some (13, s)
  else if c =? 116 then Some (9, s)
  else if (c =? quote) || (c =? backslash) || (c =? 47) then Some (c, s)
  else None.

(** [ascii_key_equal] on the bytes between the quotes. *)
Fixpoint key_loop (fuel : nat) (body field : list Z) : bool :=
  match fuel, body with
  | _, [] => list_eqb field []
  | O, _ => false
  | S fuel, c :: body =>
    let next := if c =? backslash then match body with [] => None | e :: body => unescape e body end
                else Some (c, body) in
    match next, field with
    | Some (c, body), f :: field => if c =? f then key_loop fuel body field else false
    | _, _ => false
    end
  end.
Definition ascii_key_equal (body field : list Z) : bool := key_loop (length body) body field.

(** [value_end]: the suffix at the comma or bracket that ends the value. *)
Fixpoint value_loop (fuel : nat) (depth : Z) (s : list Z) : list Z :=
  match fuel, s with
  | _, [] => []
  | O, _ => []
  | S fuel, c :: s' =>
    if c =? quote then match string_end s with [] => [] | e => value_loop fuel depth e end
    else if (c =? 123) || (c =? 91) then
      if depth =? 2 ^ 64 - 1 then [] else value_loop fuel (depth + 1) s'
    else if (c =? 125) || (c =? 93) then if depth =? 0 then s else value_loop fuel (depth - 1) s'
    else if (c =? 44) && (depth =? 0) then s
    else value_loop fuel depth s'
  end.
Definition value_end (s : list Z) : list Z := value_loop (length s) 0 s.

(** [text[begin..end)], where both are suffixes. *)
Definition between (b e : list Z) : list Z := ztake (zlen b - zlen e) b.

Fixpoint digits_value (l : list Z) (result : Z) : option Z :=
  match l with
  | [] => Some result
  | c :: l =>
    if (c <? 48) || (57 <? c) then None
    else let digit := c - 48 in
      if (UINT64_MAX - digit) / 10 <? result then None
      else digits_value l (result * 10 + digit)
  end.
Fixpoint trim_back (fuel : nat) (l : list Z) : list Z :=
  match fuel with
  | O => l
  | S fuel => if (0 <? zlen l) && json_space (znth l (zlen l - 1)) then trim_back fuel (ztake (zlen l - 1) l) else l
  end.
Definition uint_literal (raw : list Z) (min max : Z) : option Z :=
  let l := trim_back (length raw) raw in
  if (zlen l =? 0) || ((1 <? zlen l) && (znth l 0 =? 48)) then None
  else match digits_value l 0 with
  | None => None
  | Some result => if (result <? min) || (max <? result) then None else Some result
  end.

Fixpoint field_loop (fuel : nat) (s field : list Z) (min max : Z) : option Z :=
  match fuel, s with
  | _, [] => None
  | O, _ => None
  | S fuel, _ =>
    let b := skip_space s in
    if negb (znth b 0 =? quote) || (zlen b =? 0) then None
    else
      let e := string_end b in
      if zlen e =? 0 then None
      else
        let key := between b e in
        let matches := (1 <? zlen key) && ascii_key_equal (zsub 1 (zlen key - 2) key) field in
        let c := skip_space e in
        if (zlen c =? 0) || negb (znth c 0 =? 58) then None
        else
          let v := skip_space (zdrop 1 c) in
          let ve := value_end v in
          if zlen ve =? 0 then None
          else if matches then uint_literal (between v ve) min max
          else if negb (znth ve 0 =? 44) then None
          else field_loop fuel (zdrop 1 ve) field min max
  end.

(** [ob_json_uint_field]: [Some] is the return value 1 and the number stored. *)
Definition ob_json_uint_field (text : option (list Z)) (field : option (list Z)) (min max : Z) : option Z :=
  match text, field with
  | Some t, Some f =>
    if (zlen f =? 0) || (max <? min) then None
    else
      let s := skip_space t in
      match s with
      | c :: s => if negb (c =? 123) then None else field_loop (length s) s f min max
      | [] => None
      end
  | _, _ => None
  end.

(** A number that is found lies within the bounds asked for. *)
Lemma field_loop_range fuel s field min max n : field_loop fuel s field min max = Some n -> min <= n <= max.
Proof.
  revert s. induction fuel as [|fuel IH]; intros s; cbn [field_loop]; [by destruct s|]. destruct s as [|c s]; [done|]. cbv zeta.
  destruct (_ || _); [done|]. destruct (_ =? 0); [done|]. destruct (_ || _); [done|]. destruct (_ =? 0); [done|].
  destruct (_ && _).
  - unfold uint_literal. destruct (_ || _); [done|]. destruct (digits_value _ _) as [r|]; [|done].
    destruct (_ || _) eqn:E; [done|]. intros [= <-]. bools. lia.
  - destruct (negb _); [done|]. apply IH.
Qed.
Lemma uint_field_range t f min max n : ob_json_uint_field t f min max = Some n -> min <= n <= max.
Proof.
  unfold ob_json_uint_field. destruct t, f; try done. destruct (_ || _); [done|]. destruct (skip_space _); [done|].
  destruct (negb _); [done|]. apply field_loop_range.
Qed.

(** ** What an object looks like *)

(** The raw bytes between the quotes of a string. *)
Inductive string_body : list Z -> Prop :=
  | body_nil : string_body []
  | body_plain c l : c <> quote -> c <> backslash -> string_body l -> string_body (c :: l)
  | body_escape c l : string_body l -> string_body (backslash :: c :: l).

(** The raw bytes of a value that starts at nesting depth [d] and ends at 0: no comma at depth 0. *)
Inductive value_text : Z -> list Z -> Prop :=
  | value_nil : value_text 0 []
  | value_string d b l : string_body b -> value_text d l -> value_text d (quote :: b ++ quote :: l)
  | value_open d c l : c = 123 \/ c = 91 -> value_text (d + 1) l -> value_text d (c :: l)
  | value_close d c l : c = 125 \/ c = 93 -> 0 < d -> value_text (d - 1) l -> value_text d (c :: l)
  | value_plain d c l : c <> quote -> c <> 123 -> c <> 91 -> c <> 125 -> c <> 93 -> (c = 44 -> 0 < d) ->
      value_text d l -> value_text d (c :: l).

Definition spaces (l : list Z) : Prop := Forall (fun c => json_space c = true) l.

Record member := Member { m_lead : list Z; m_key : list Z; m_before : list Z; m_after : list Z; m_value : list Z }.
Record member_ok (m : member) : Prop := {
  mo_lead : spaces (m_lead m); mo_key : string_body (m_key m);
  mo_before : spaces (m_before m); mo_after : spaces (m_after m);
  mo_value : value_text 0 (m_value m);
  mo_start : exists c l, m_value m = c :: l /\ json_space c = false;
  mo_size : zlen (m_value m) < 2 ^ 64 - 1
}.
Definition member_text (m : member) : list Z :=
  m_lead m ++ quote :: m_key m ++ quote :: m_before m ++ 58 :: m_after m ++ m_value m.
Fixpoint members_text (ms : list member) (close : list Z) : list Z :=
  match ms with
  | [] => close
  | [m] => member_text m ++ close
  | m :: ms => member_text m ++ 44 :: members_text ms close
  end.

(** The decoded key, for the keys the scanner can compare. *)
Fixpoint decode_key (fuel : nat) (body : list Z) : option (list Z) :=
  match fuel, body with
  | _, [] => Some []
  | O, _ => None
  | S fuel, c :: body =>
    '(c, body) ← (if c =? backslash then match body with [] => None | e :: body => unescape e body end
                  else Some (c, body));
    l ← decode_key fuel body; Some (c :: l)
  end.
Definition key_is (field : list Z) (m : member) : bool :=
  bool_decide (decode_key (length (m_key m)) (m_key m) = Some field).

(** A canonical decimal literal with its value, then optional white space. *)
Definition dec_digit (c : Z) : Prop := 48 <= c <= 57.
Definition dec_value (ds : list Z) (acc : Z) : Z := fold_left (fun n c => n * 10 + (c - 48)) ds acc.
Definition canonical (ds : list Z) (n : Z) : Prop :=
  ds <> [] /\ Forall dec_digit ds /\ (1 < zlen ds -> znth ds 0 <> 48) /\ dec_value ds 0 = n.

(** ** Proofs *)

Lemma skip_space_app w s c : spaces w -> json_space c = false -> skip_space (w ++ c :: s) = c :: s.
Proof. induction 1 as [|x l Hx Hl IH]; intros Hc; simpl; [by rewrite Hc|]. rewrite Hx. auto. Qed.

Lemma string_rest_body b rest : string_body b -> string_rest (b ++ quote :: rest) = rest.
Proof.
  induction 1 as [|c l H1 H2 _ IH|c l _ IH]; cbn [app string_rest]; [done| |done].
  by rewrite (proj2 (Z.eqb_neq c _)), (proj2 (Z.eqb_neq c _)) by done.
Qed.

Lemma value_loop_text fuel d l stop rest : value_text d l -> 0 <= d -> d + zlen l < 2 ^ 64 - 1 ->
  stop = 44 \/ stop = 125 \/ stop = 93 -> (length (l ++ stop :: rest) <= fuel)%nat ->
  value_loop fuel d (l ++ stop :: rest) = stop :: rest.
Proof.
  intros Hv. revert fuel. induction Hv as [|d b l Hb Hv IH|d c l Hc Hv IH|d c l Hc Hd Hv IH|d c l H1 H2 H3 H4 H5 H6 Hv IH];
    intros fuel Hd0 Hlen Hs Hf; (destruct fuel as [|fuel]; [cbn in Hf; lia|]); rewrite ?zlen_cons in Hlen; try pose proof (zlen_nonneg l).
  - cbn. by destruct Hs as [->|[->| ->]].
  - rewrite zlen_app, zlen_cons in Hlen. pose proof (zlen_nonneg b).
    rewrite <- app_comm_cons, <- app_assoc, <- app_comm_cons. cbn [value_loop]. rewrite Z.eqb_refl.
    cbn [string_end]. rewrite Z.eqb_refl, string_rest_body by done.
    assert (length (l ++ stop :: rest) <= fuel)%nat as Hfl.
    { repeat (rewrite length_app in Hf || cbn in Hf). rewrite length_app. cbn. lia. }
    specialize (IH fuel Hd0 ltac:(lia) Hs Hfl). destruct (l ++ stop :: rest) eqn:E; [by destruct l|exact IH].
  - cbn [app value_loop]. assert ((c =? quote) = false) as -> by (apply Z.eqb_neq; unfold quote; lia).
    assert ((c =? 123) || (c =? 91) = true) as -> by (apply orb_true_iff; rewrite !Z.eqb_eq; lia).
    rewrite (proj2 (Z.eqb_neq d _)) by lia. apply IH; try done; cbn in Hf; lia.
  - cbn [app value_loop]. assert ((c =? quote) = false) as -> by (apply Z.eqb_neq; unfold quote; lia).
    assert ((c =? 123) || (c =? 91) = false) as -> by (apply orb_false_iff; rewrite !Z.eqb_neq; lia).
    assert ((c =? 125) || (c =? 93) = true) as -> by (apply orb_true_iff; rewrite !Z.eqb_eq; lia).
    rewrite (proj2 (Z.eqb_neq d _)) by lia. apply IH; try done; cbn in Hf; lia.
  - cbn [app value_loop]. rewrite (proj2 (Z.eqb_neq c _)) by done.
    assert ((c =? 123) || (c =? 91) = false) as -> by (apply orb_false_iff; rewrite !Z.eqb_neq; lia).
    assert ((c =? 125) || (c =? 93) = false) as -> by (apply orb_false_iff; rewrite !Z.eqb_neq; lia).
    assert ((c =? 44) && (d =? 0) = false) as ->.
    { apply andb_false_iff. destruct (Z.eqb_spec c 44); [right; apply Z.eqb_neq; lia|by left]. }
    apply IH; try done; cbn in Hf; lia.
Qed.

Lemma key_equal_decode fuel body field : (length body <= fuel)%nat ->
  key_loop fuel body field = bool_decide (decode_key fuel body = Some field).
Proof.
  assert (forall f b c b', unescape c b = Some (f, b') -> (length b' <= length b)%nat) as Hun.
  { intros f b c b'. unfold unescape. repeat case_match; intros; simplify_eq/=; lia. }
  revert body field; induction fuel as [|fuel IH]; intros body field Hf; destruct body as [|c body];
    cbn [key_loop decode_key]; try (cbn in Hf; lia).
  1,2: destruct field; symmetry; [by apply bool_decide_true|by apply bool_decide_false].
  set (next := if c =? backslash then _ else _).
  assert (forall c' b', next = Some (c', b') -> (length b' <= fuel)%nat) as Hn.
  { intros c' b'. unfold next. cbn in Hf. destruct (c =? backslash); [destruct body as [|e body]; [done|]|intros; simplify_eq; lia].
    intros H%Hun. cbn in Hf. lia. }
  clearbody next. destruct next as [[c' b']|]; cbn; [|by rewrite bool_decide_false].
  specialize (Hn _ _ eq_refl). destruct field as [|f field].
  - rewrite bool_decide_false; [done|]. by destruct (decode_key fuel b').
  - rewrite IH by done. destruct (Z.eqb_spec c' f) as [->|Hne].
    + destruct (decode_key fuel b') as [l|]; cbn; [|by rewrite !bool_decide_false].
      apply bool_decide_ext. naive_solver.
    + rewrite bool_decide_false; [done|]. destruct (decode_key fuel b') as [l|]; cbn; naive_solver.
Qed.

Lemma znth_snoc l c : znth (l ++ [c]) (zlen (l ++ [c]) - 1) = c.
Proof.
  unfold znth, zget. rewrite zlen_snoc. replace (zlen l + 1 - 1) with (zlen l) by lia.
  rewrite (proj2 (Z.leb_le 0 _)) by apply zlen_nonneg. unfold zlen. rewrite Nat2Z.id.
  by rewrite lookup_app_r, Nat.sub_diag by lia.
Qed.
Lemma ztake_snoc l (c : Z) : ztake (zlen (l ++ [c]) - 1) (l ++ [c]) = l.
Proof. apply ztake_app_exact. rewrite zlen_snoc. lia. Qed.
Lemma trim_back_split fuel raw : exists w, raw = trim_back fuel raw ++ w /\ spaces w.
Proof.
  revert raw; induction fuel as [|fuel IH]; intros raw; [exists []; split; [by rewrite app_nil_r|constructor]|].
  cbn [trim_back]. destruct raw as [|c l _] using rev_ind; [exists []; split; [done|constructor]|].
  rewrite znth_snoc, ztake_snoc. destruct (_ && json_space c) eqn:E; [|exists []; split; [by rewrite app_nil_r|constructor]].
  bools. destruct (IH l) as (w & Hl & Hw). exists (w ++ [c]). split; [by rewrite app_assoc, <- Hl|].
  apply Forall_app. split; [done|]. by repeat constructor.
Qed.
Lemma trim_back_keeps fuel l c : json_space c = false -> trim_back fuel (l ++ [c]) = l ++ [c].
Proof. intros Hc. destruct fuel; [done|]. cbn [trim_back]. by rewrite znth_snoc, Hc, andb_false_r. Qed.
Lemma trim_back_spaces fuel l c w : json_space c = false -> spaces w -> (length w <= fuel)%nat ->
  trim_back fuel ((l ++ [c]) ++ w) = l ++ [c].
Proof.
  intros Hc. revert fuel; induction w as [|x w IH] using rev_ind; intros fuel Hw Hf.
  - rewrite app_nil_r. by apply trim_back_keeps.
  - apply Forall_app in Hw as [Hw Hx]. inversion_clear Hx as [|? ? Hx' _]. rewrite length_app in Hf. cbn in Hf.
    destruct fuel as [|fuel]; [lia|]. cbn [trim_back]. rewrite app_assoc, znth_snoc, ztake_snoc, Hx'.
    rewrite (proj2 (Z.ltb_lt 0 _)); [|rewrite zlen_snoc; pose proof (zlen_nonneg ((l ++ [c]) ++ w)); lia].
    apply IH; [done|lia].
Qed.

Lemma dec_value_le ds acc : Forall dec_digit ds -> 0 <= acc -> acc <= dec_value ds acc.
Proof.
  intros Hd. revert acc. induction Hd as [|c ds Hc Hd IH]; intros acc Ha; [cbn; lia|].
  cbn. unfold dec_digit in Hc. specialize (IH (acc * 10 + (c - 48)) ltac:(lia)). unfold dec_value in IH. lia.
Qed.
Lemma digits_value_spec ds acc n : 0 <= acc <= UINT64_MAX ->
  digits_value ds acc = Some n <-> Forall dec_digit ds /\ dec_value ds acc = n /\ n <= UINT64_MAX.
Proof.
  unfold UINT64_MAX. revert acc; induction ds as [|c ds IH]; intros acc Ha; cbn [digits_value].
  - cbn. split; [intros [= <-]; split_and!; [constructor|done|lia]|by intros (_ & -> & _)].
  - destruct ((c <? 48) || (57 <? c)) eqn:Ec.
    { split; [done|]. intros (Hd & _). inversion_clear Hd. unfold dec_digit in *. apply orb_true_iff in Ec as [|]; bools; lia. }
    bools. cbv zeta. unfold UINT64_MAX. destruct (Z.ltb_spec ((2 ^ 64 - 1 - (c - 48)) / 10) acc) as [Hlt|Hge].
    + split; [done|]. intros (Hd & Hv & Hn). inversion_clear Hd. pose proof (dec_value_le ds (acc * 10 + (c - 48))) as Hle.
      cbn in Hv. unfold dec_value in Hle. specialize (Hle ltac:(done) ltac:(lia)). Z.to_euclidean_division_equations; lia.
    + rewrite IH by (Z.to_euclidean_division_equations; lia). split.
      * intros (Hd & Hv & Hn). split_and!; try done. constructor; [unfold dec_digit; lia|done].
      * intros (Hd & Hv & Hn). inversion_clear Hd. done.
Qed.

Lemma digit_not_space c : dec_digit c -> json_space c = false.
Proof. unfold dec_digit, json_space. intros. repeat (apply orb_false_iff; split); apply Z.eqb_neq; lia. Qed.

Lemma uint_literal_exact raw min max n :
  uint_literal raw min max = Some n <->
  exists ds w, raw = ds ++ w /\ spaces w /\ canonical ds n /\ min <= n <= max /\ n <= UINT64_MAX.
Proof.
  unfold uint_literal. cbv zeta. split.
  - destruct (trim_back_split (length raw) raw) as (w & Hw & Hs). set (l := trim_back (length raw) raw) in *.
    destruct (_ || _) eqn:E1; [done|]. destruct (digits_value l 0) as [v|] eqn:E2; [|done].
    destruct (_ || (max <? v)) eqn:E3; [done|]. intros [= ->]. bools.
    apply digits_value_spec in E2 as (Hd & Hv & Hn); [|unfold UINT64_MAX; lia].
    exists l, w. split; [done|]. split; [done|]. split; [|lia]. split; [by intros ->|]. split; [done|]. split; [|done].
    intros Hl1 Hz. rewrite Hz, (proj2 (Z.ltb_lt 1 (zlen l))) in * by done. done.
  - intros (ds & w & -> & Hw & (Hne & Hd & Hz & Hv) & Hr & Hm).
    assert (trim_back (length (ds ++ w)) (ds ++ w) = ds) as ->.
    { destruct ds as [|c ds _] using rev_ind; [done|]. apply Forall_app in Hd as [_ Hd]. inversion_clear Hd.
      apply trim_back_spaces; [by apply digit_not_space|done|]. rewrite !length_app. lia. }
    assert (digits_value ds 0 = Some n) as -> by (apply digits_value_spec; [unfold UINT64_MAX; lia|done]).
    rewrite (proj2 (Z.eqb_neq (zlen ds) 0)) by (intros ?%zlen_0; done). cbn [orb].
    assert ((1 <? zlen ds) && (znth ds 0 =? 48) = false) as ->.
    { apply andb_false_iff. destruct (Z.ltb_spec 1 (zlen ds)); [right; apply Z.eqb_neq; auto|by left]. }
    rewrite (proj2 (Z.ltb_ge n min)), (proj2 (Z.ltb_ge max n)) by lia. done.
Qed.

Lemma between_app a e : between (a ++ e) e = a.
Proof. unfold between. apply ztake_app_exact. rewrite zlen_app. lia. Qed.
Lemma key_slice (k : list Z) : zsub 1 (zlen (quote :: k ++ [quote]) - 2) (quote :: k ++ [quote]) = k.
Proof.
  rewrite zlen_cons, zlen_snoc. unfold zsub. change (zdrop 1 (quote :: k ++ [quote])) with (k ++ [quote]).
  apply ztake_app_exact. lia.
Qed.

Lemma zlen_cons_nz (x : Z) l : (zlen (x :: l) =? 0) = false.
Proof. apply Z.eqb_neq. rewrite zlen_cons. pose proof (zlen_nonneg l). lia. Qed.

Lemma field_step fuel m stop rest field min max : member_ok m -> stop = 44 \/ stop = 125 ->
  field_loop (S fuel) (member_text m ++ stop :: rest) field min max =
  if key_is field m then uint_literal (m_value m) min max
  else if stop =? 44 then field_loop fuel rest field min max else None.
Proof.
  intros [Hl Hk Hb Ha Hv (v0 & vs & Hv0 & Hsp) Hlen] Hstop.
  set (tail := m_value m ++ stop :: rest).
  assert (member_text m ++ stop :: rest = m_lead m ++ quote :: m_key m ++ quote :: m_before m ++ 58 :: m_after m ++ tail) as ->.
  { unfold member_text, tail. repeat (rewrite <- app_assoc; cbn [app]). done. }
  cbn [field_loop]. destruct (m_lead m ++ _) as [|x xs] eqn:E; [by destruct (m_lead m)|]. rewrite <- E. clear x xs E.
  rewrite skip_space_app by done. set (e := m_before m ++ 58 :: m_after m ++ tail).
  change (znth (quote :: m_key m ++ quote :: e) 0) with quote. rewrite Z.eqb_refl. cbn [negb orb].
  rewrite zlen_cons_nz.
  assert (string_end (quote :: m_key m ++ quote :: e) = e) as -> by (cbn; by apply string_rest_body).
  rewrite (proj2 (Z.eqb_neq (zlen e) 0)) by (intros H%zlen_0; unfold e in H; by destruct (m_before m)).
  replace (quote :: m_key m ++ quote :: e) with ((quote :: m_key m ++ [quote]) ++ e) by (cbn; by rewrite <- app_assoc).
  rewrite between_app, key_slice. cbv zeta. unfold e. rewrite skip_space_app by done.
  change (znth (58 :: m_after m ++ tail) 0) with 58. change (zdrop 1 (58 :: m_after m ++ tail)) with (m_after m ++ tail).
  rewrite zlen_cons_nz. cbn [negb orb Z.eqb Pos.eqb].
  assert (skip_space (m_after m ++ tail) = tail) as -> by (unfold tail; rewrite Hv0; by apply skip_space_app).
  assert (value_end tail = stop :: rest) as -> by (unfold value_end, tail; apply value_loop_text; auto; lia || tauto).
  rewrite zlen_cons_nz.
  unfold tail. rewrite between_app. change (znth (stop :: rest) 0) with stop. change (zdrop 1 (stop :: rest)) with rest.
  rewrite (proj2 (Z.ltb_lt 1 _)) by (rewrite zlen_cons, zlen_snoc; pose proof (zlen_nonneg (m_key m)); lia). cbn [andb].
  unfold ascii_key_equal. rewrite key_equal_decode by done. unfold key_is. case_bool_decide; [done|].
  by destruct (Z.eqb_spec stop 44).
Qed.

Lemma field_loop_members ms tail fuel field min max : Forall member_ok ms -> (length ms < fuel)%nat ->
  field_loop fuel (members_text ms (125 :: tail)) field min max =
  m ← list_find (fun m => key_is field m = true) ms; uint_literal (m_value m.2) min max.
Proof.
  intros Hok. revert fuel. induction Hok as [|m ms Hm Hok IH]; intros fuel Hf; (destruct fuel as [|fuel]; [cbn in Hf; lia|]).
  - reflexivity.
  - cbn in Hf. cbn [list_find].
    assert (members_text (m :: ms) (125 :: tail) =
            member_text m ++ match ms with [] => 125 :: tail | _ => 44 :: members_text ms (125 :: tail) end) as -> by (by destruct ms).
    destruct ms as [|m' ms]; rewrite field_step by auto.
    + by destruct (key_is field m).
    + destruct (key_is field m); [done|]. cbn [decide]. rewrite Z.eqb_refl, IH by (done || lia).
      by destruct (list_find _ (m' :: ms)) as [[? ?]|].
Qed.
Lemma members_text_length ms (tail : list Z) : (length ms < length (members_text ms (125%Z :: tail)))%nat.
Proof.
  induction ms as [|m ms IH]; [cbn; lia|].
  assert (1 <= length (member_text m))%nat by (unfold member_text; rewrite length_app; cbn; lia).
  destruct ms as [|m' ms]; cbn [members_text] in *; rewrite length_app; cbn [length] in *; lia.
Qed.

(** C35: on the text of a JSON object, with any white space, nested values and
    escaped keys, [ob_json_uint_field] accepts exactly when the first member of that name is
    spelled as a canonical unsigned decimal (no sign, fraction, exponent or leading zero) in the
    given range, and returns that number exactly, up to 2^64 - 1. *)
Theorem uint_field_exact lead ms tail field min max n :
  spaces lead -> Forall member_ok ms -> field <> [] ->
  ob_json_uint_field (Some (lead ++ 123 :: members_text ms (125 :: tail))) (Some field) min max = Some n <->
  exists i m ds w, list_find (fun m => key_is field m = true) ms = Some (i, m) /\
    m_value m = ds ++ w /\ spaces w /\ canonical ds n /\ min <= n <= max /\ n <= UINT64_MAX.
Proof.
  intros Hl Hm Hf. unfold ob_json_uint_field. rewrite (proj2 (Z.eqb_neq (zlen field) 0)) by (by intros ?%zlen_0). cbn [orb].
  rewrite skip_space_app by done. cbv zeta. cbn [Z.eqb Pos.eqb negb].
  rewrite field_loop_members by (done || apply members_text_length). destruct (Z.ltb_spec max min) as [Hlt|Hge].
  - split; [done|]. intros (i & m & ds & w & _ & _ & _ & _ & Hr & _). lia.
  - destruct (list_find _ ms) as [[i m]|] eqn:E; cbn; [|split; [done|by intros (? & ? & ? & ? & [=] & _)]].
    rewrite uint_literal_exact. split.
    + intros (ds & w & ? & ? & ? & ? & ?). by exists i, m, ds, w.
    + intros (? & ? & ds & w & [= <- <-] & ? & ? & ? & ? & ?). by exists ds, w.
Qed.

(** {"a":[1,{}], "se\u0071" : 42 } *)
Definition sample_members : list member :=
  [Member [] [97] [] [] [91; 49; 44; 123; 125; 93]; Member [32] (lit "se\u0071") [32] [32] [52; 50; 32]].
Lemma sample_members_ok : Forall member_ok sample_members.
Proof.
  constructor; [|constructor; [|constructor]]; split; cbn;
    repeat first [ done | apply Forall_nil | apply Forall_cons; split; [done|] | apply value_nil
      | apply value_open; [lia|] | apply value_close; [lia|lia|] | apply value_plain; [unfold quote; lia..|]
      | apply body_nil | apply body_escape | apply body_plain; [done|done|] ].
  all: first [ by repeat constructor | eexists _, _; split; reflexivity ].
Qed.
Lemma uint_field_exact_witness :
  ob_json_uint_field (Some ([32] ++ 123 :: members_text sample_members (125 :: []))) (Some (lit "seq")) 1 MAX_SAFE = Some 42.
Proof.
  apply (uint_field_exact [32] sample_members [] (lit "seq") 1 MAX_SAFE 42).
  - by repeat constructor.
  - apply sample_members_ok.
  - done.
  - exists 1%nat, (Member [32] (lit "se\u0071") [32] [32] [52; 50; 32]), [52; 50], [32]. split; [vm_compute; reflexivity|].
    split; [reflexivity|]. split; [by repeat constructor|]. split; [|split; [split|]; done].
    split; [done|]. split; [repeat constructor; lia|]. split; [done|reflexivity].
Defined.
