(* ===== verification/Peer.v ===== *)
(** * The peer handle

    Types of src/sdk/c/remote/ob_remote.h and peer/internal.h, the reconnect policy
    and state reporting of peer/recovery.c, and the failure handling, validation and
    creation of src/sdk/c/remote/ob_remote.c.  The functions run under the handle's
    mutex and are pure functions of the handle; readings of the monotonic clock are
    arguments, in the order the code takes them. *)

From S2P Require Import Prelude.

(** ** Results and errors *)

Definition OB_REMOTE_EINVAL : Z := -1.
Definition OB_REMOTE_ENOMEM : Z := -2.
Definition OB_REMOTE_EHTTP : Z := -3.
Definition OB_REMOTE_EAUTH : Z := -4.
Definition OB_REMOTE_ETIMEOUT : Z := -5.
Definition OB_REMOTE_EICE : Z := -6.
Definition OB_REMOTE_EQUIC : Z := -7.
Definition OB_REMOTE_EACL : Z := -8.
Definition OB_REMOTE_EIO : Z := -9.
Definition OB_REMOTE_ECLOSED : Z := -10.
Definition OB_REMOTE_ELIMIT : Z := -11.
Definition OB_REMOTE_EPROTOCOL : Z := -12.

Definition OB_REMOTE_RELAY_AUTO : Z := 0.
Definition OB_REMOTE_RELAY_NEVER : Z := 1.
Definition OB_REMOTE_RELAY_FORCE : Z := 2.
Definition OB_REMOTE_TCP : Z := 1.
Definition OB_REMOTE_UDP : Z := 2.
Definition OB_MAX_HOST : Z := 253.
Definition OB_MAX_ACL : Z := 128.

Record ob_remote_error := RemoteError { e_code : Z; e_http : Z; e_message : list Z }.
Definition no_error : ob_remote_error := RemoteError 0 0 [].

Definition ob_remote_strerror (r : Z) : list Z :=
  if r =? 0 then lit "success" else if r =? OB_REMOTE_EINVAL then lit "invalid argument"
  else if r =? OB_REMOTE_ENOMEM then lit "allocation failed" else if r =? OB_REMOTE_EHTTP then lit "control request failed"
  else if r =? OB_REMOTE_EAUTH then lit "peer authentication failed" else if r =? OB_REMOTE_ETIMEOUT then lit "timeout"
  else if r =? OB_REMOTE_EICE then lit "ICE transport failed" else if r =? OB_REMOTE_EQUIC then lit "QUIC transport failed"
  else if r =? OB_REMOTE_EACL then lit "target denied" else if r =? OB_REMOTE_EIO then lit "socket I/O failed"
  else if r =? OB_REMOTE_ECLOSED then lit "peer closed or revoked" else if r =? OB_REMOTE_ELIMIT then lit "resource limit"
  else if r =? OB_REMOTE_EPROTOCOL then lit "invalid peer protocol" else lit "unknown remote error".

(** [ob_error] stores the error ([snprintf] keeps 255 bytes) and returns its code. *)
Definition ob_error (code http : Z) (message : option (list Z)) : ob_remote_error :=
  RemoteError code http (ztake 255 (match message with Some m => m | None => ob_remote_strerror code end)).

(** ** Reconnect policy and connection state *)

Record policy := Policy {
  struct_size : Z; disabled : Z; max_attempts : Z; initial_delay_ms : Z; max_delay_ms : Z;
  retry_budget_ms : Z; flow_grace_ms : Z; stable_reset_ms : Z; transport_timeout_ms : Z }.
Definition POLICY_SIZE : Z := 36.

Inductive conn_state :=
  | CONNECTING | CONNECTED | RECONNECTING | RETRY_WAIT | PAUSED | FAILED | CLOSED.
#[export] Instance conn_state_eq_dec : EqDecision conn_state.
Proof. solve_decision. Defined.

Record connection_info := Info {
  state : conn_state; attempts : Z; generation : Z; next_retry_ms : Z; last_error : ob_remote_error }.
#[export] Instance eta_info : Eta connection_info := fun i =>
  Info (state i) (attempts i) (generation i) (next_retry_ms i) (last_error i).

(** [callback] names the callback and its data the caller registered. *)
Record ob_recovery := Recovery {
  r_policy : policy; info : connection_info; callback : option Z; requested : bool;
  callback_pending : bool; outage_us : Z; stable_us : Z; retry_us : Z }.
#[export] Instance eta_recovery : Eta ob_recovery := fun r =>
  Recovery (r_policy r) (info r) (callback r) (requested r) (callback_pending r)
    (outage_us r) (stable_us r) (retry_us r).

Definition ob_remote_reconnect_policy_init : policy :=
  Policy POLICY_SIZE 0 8 1000 15000 60000 120000 30000 15000.

Definition copy_default (field fallback : Z) : Z := if truth field then field else fallback.
(** [normalize]: [None] is OB_REMOTE_EINVAL. *)
Definition normalize (input : option policy) : option policy :=
  let d := ob_remote_reconnect_policy_init in
  match input with
  | None => Some d
  | Some i =>
    if (truth (struct_size i) && negb (struct_size i =? POLICY_SIZE)) || (1 <? disabled i) then None
    else
      let o := Policy (struct_size d) (disabled i) (copy_default (max_attempts i) (max_attempts d))
        (copy_default (initial_delay_ms i) (initial_delay_ms d)) (copy_default (max_delay_ms i) (max_delay_ms d))
        (copy_default (retry_budget_ms i) (retry_budget_ms d)) (copy_default (flow_grace_ms i) (flow_grace_ms d))
        (copy_default (stable_reset_ms i) (stable_reset_ms d))
        (copy_default (transport_timeout_ms i) (transport_timeout_ms d)) in
      if (10000 <? max_attempts o) || (max_delay_ms o <? initial_delay_ms o) || (300000 <? max_delay_ms o) ||
         (3600000 <? retry_budget_ms o) || (3600000 <? flow_grace_ms o) || (3600000 <? stable_reset_ms o) ||
         (transport_timeout_ms o <? 1000) || (300000 <? transport_timeout_ms o) then None
      else Some o
  end.

Definition ob_recovery_init : ob_recovery :=
  Recovery ob_remote_reconnect_policy_init (Info CONNECTING 0 0 0 no_error) None false false 0 0 0.

Definition ob_recovery_apply_policy_locked (now : Z) (r : ob_recovery) (p : policy) : ob_recovery :=
  let r := r <| r_policy := p |> in
  if negb (truth (retry_us r)) then r
  else
    let maximum := u64 (now + max_delay_ms p * 1000) in
    if maximum <? retry_us r then
      let r := r <| retry_us := maximum |> in
      if bool_decide (state (info r) = RETRY_WAIT) then r <| callback_pending := true |> else r
    else r.

Definition ob_recovery_set_locked (r : ob_recovery) (s : conn_state) (e : option ob_remote_error) : ob_recovery :=
  let r := r <| info ::= fun i => i <| state := s |> |> in
  let r := match e with Some e => r <| info ::= fun i => i <| last_error := e |> |> | None => r end in
  r <| callback_pending := true |>.

Definition snapshot (now : Z) (r : ob_recovery) : connection_info :=
  (info r) <| next_retry_ms :=
    if bool_decide (state (info r) = RETRY_WAIT) && (now <? retry_us r)
    then u64 (retry_us r - now + 999) / 1000 else 0 |>.

(** [ob_recovery_deliver]: the callback to run outside the lock with its argument. *)
Definition ob_recovery_deliver (now : Z) (r : ob_recovery) : option (Z * connection_info) * ob_recovery :=
  let cb := if callback_pending r then callback r else None in
  ((c ← cb; Some (c, snapshot now r)), r <| callback_pending := false |>).

(** ** The handle *)

Record ob_remote_peer := Peer {
  is_server : bool; relay : Z;
  broker_id : list Z; session_id : option (list Z); bearer : option (list Z);
  stun : option (list Z); stun_port : Z;
  timeout_ms : Z; max_maps : Z; max_flows : Z; udp_idle_ms : Z;
  stop : bool; attempt_stop : bool; managed : bool;
  attempt_result : Z; attempt_error : ob_remote_error;
  recovery : ob_recovery;
  result : Z; ready : bool; tls_ready : bool; proof_ready : bool;
  ice_ready : bool; gathered : bool; ice_failed : bool;
  error : ob_remote_error;
  deadline_us : Z; lease_deadline_us : Z; next_timer_us : Z;
  transport_generation : Z; recovery_deadline_us : Z; next_ping_us : Z; transport_idle_ms : Z;
  transport_available : bool; transport_detached : bool; transport_detaching : bool;
  wire_version : Z; resume_context_available : bool; ever_ready : bool;
  connection_id : list Z; request_id : list Z; requested_session_token : list Z;
  control_generation : Z; request_pending : bool; control_managed : bool;
  control_discovered : bool; control_retryable : bool; lease_deadline_set : bool;
  approved : bool; tx_sequence : Z; rx_sequence : Z;
  shared : list Z; tx_key : list Z; rx_key : list Z; fingerprint : list Z;
  resume_key : list Z; fresh_resume_key : list Z; resume_key_set : bool;
  pending_session_id : option (list Z); pending_control_generation : Z;
  control_cleanup : bool; heartbeat_id : Z; heartbeat_due_us : Z; heartbeat_sent_us : Z;
  reconnect_us : Z; reconnect_backoff : Z
}.
#[export] Instance eta_peer : Eta ob_remote_peer := fun p => Peer (is_server p) (relay p)
  (broker_id p) (session_id p) (bearer p) (stun p) (stun_port p) (timeout_ms p) (max_maps p) (max_flows p)
  (udp_idle_ms p) (stop p) (attempt_stop p) (managed p) (attempt_result p) (attempt_error p) (recovery p)
  (result p) (ready p) (tls_ready p) (proof_ready p) (ice_ready p) (gathered p) (ice_failed p) (error p)
  (deadline_us p) (lease_deadline_us p) (next_timer_us p) (transport_generation p) (recovery_deadline_us p)
  (next_ping_us p) (transport_idle_ms p) (transport_available p) (transport_detached p) (transport_detaching p)
  (wire_version p) (resume_context_available p) (ever_ready p) (connection_id p) (request_id p)
  (requested_session_token p) (control_generation p) (request_pending p) (control_managed p)
  (control_discovered p) (control_retryable p) (lease_deadline_set p) (approved p) (tx_sequence p) (rx_sequence p)
  (shared p) (tx_key p) (rx_key p) (fingerprint p) (resume_key p) (fresh_resume_key p) (resume_key_set p)
  (pending_session_id p) (pending_control_generation p) (control_cleanup p) (heartbeat_id p) (heartbeat_due_us p)
  (heartbeat_sent_us p) (reconnect_us p) (reconnect_backoff p).

Definition peer_state (p : ob_remote_peer) : conn_state := state (info (recovery p)).
Definition set_state (s : conn_state) (e : option ob_remote_error) (p : ob_remote_peer) : ob_remote_peer :=
  p <| recovery ::= fun r => ob_recovery_set_locked r s e |>.

Definition ob_peer_fail_locked (p : ob_remote_peer) (code : Z) (message : list Z) : ob_remote_peer :=
  if bool_decide (peer_state p = CLOSED) then p
  else
    let p := if truth (result p) then p
             else
               let p := p <| result := code |> in
               if negb (code =? OB_REMOTE_EHTTP) || negb (e_code (error p) =? OB_REMOTE_EHTTP)
               then p <| error := ob_error code 0 (Some message) |> else p in
    let p := p <| stop := true |> <| attempt_stop := true |> <| transport_available := false |> in
    set_state FAILED (Some (error p)) p.

Definition ob_peer_transport_fail_locked (t1 t2 : Z) (p : ob_remote_peer) (code : Z) (message : list Z)
    : ob_remote_peer :=
  if stop p then p
  else if negb (managed p) then ob_peer_fail_locked p code message
  else
    let p := if truth (attempt_result p) then p
             else p <| attempt_result := code |> <| attempt_error := ob_error code 0 (Some message) |> in
    let p := p <| ready := false |> <| proof_ready := false |> <| transport_available := false |> in
    let p := if truth (outage_us (recovery p)) then p
             else p <| recovery ::= fun r => r <| outage_us := t1 |> |> in
    let p := if ever_ready p && negb (truth (recovery_deadline_us p))
             then p <| recovery_deadline_us := u64 (t2 + flow_grace_ms (r_policy (recovery p)) * 1000) |> else p in
    let p := p <| attempt_stop := true |> in
    set_state RECONNECTING (Some (attempt_error p)) p.

(** [ob_peer_mark_ready]; [transport_ready] is the mapping layer's hook, which runs
    on the same handle and may fail it. *)
Definition ob_peer_mark_ready (transport_ready : ob_remote_peer -> ob_remote_peer) (now : Z)
    (p : ob_remote_peer) : ob_remote_peer :=
  if ready p || stop p || attempt_stop p then p
  else
    let p := p <| proof_ready := true |> <| ready := true |> in
    let p := transport_ready p in
    if stop p || attempt_stop p then p
    else
      let p := if negb (resume_context_available p) && resume_key_set p
               then p <| resume_key := fresh_resume_key p |> else p in
      let p := if ever_ready p then p
               else p <| recovery ::= fun r => r <| info ::= fun i => i <| attempts := 0 |> |> <| outage_us := 0 |> |> in
      let p := p <| ever_ready := true |> <| recovery_deadline_us := 0 |> in
      let p := p <| recovery ::= fun r => r <| requested := false |> <| stable_us := now |> <| retry_us := 0 |> |> in
      set_state CONNECTED None p.

(** ** Requests of the caller *)

Definition ob_remote_peer_set_reconnect_policy (now : Z) (p : ob_remote_peer) (i : option policy)
    : Z * ob_remote_peer :=
  match normalize i with
  | None => (OB_REMOTE_EINVAL, p)
  | Some n => (0, p <| recovery ::= fun r => ob_recovery_apply_policy_locked now r n |>)
  end.
Definition ob_remote_peer_get_state (now : Z) (p : ob_remote_peer) : connection_info := snapshot now (recovery p).
Definition ob_remote_peer_set_state_callback (p : ob_remote_peer) (cb : option Z) : ob_remote_peer :=
  p <| recovery ::= fun r => r <| callback := cb |> <| callback_pending := true |> |>.
Definition ob_remote_peer_reconnect (p : ob_remote_peer) : Z * ob_remote_peer :=
  let rc := if stop p then if truth (result p) then result p else OB_REMOTE_ECLOSED else 0 in
  (rc, if negb (truth rc) && negb (bool_decide (peer_state p = CONNECTED))
       then p <| recovery ::= fun r => r <| requested := true |> |> else p).
Definition ob_remote_peer_status (p : ob_remote_peer) : Z * ob_remote_error := (result p, error p).
(** The state part of [ob_remote_peer_close]; [ob_peer_destroy] follows. *)
Definition ob_remote_peer_close (p : ob_remote_peer) : ob_remote_peer :=
  let p := ob_peer_fail_locked p OB_REMOTE_ECLOSED (lit "Peer closed by caller") in
  set_state CLOSED (Some (error p)) p.

(** ** Validation and creation *)

Definition hex_lower (c : Z) : bool := ((48 <=? c) && (c <=? 57)) || ((97 <=? c) && (c <=? 102)).
Definition id_char (i : nat) (c : Z) : bool :=
  if bool_decide (i = 8 \/ i = 13 \/ i = 18 \/ i = 23)%nat then c =? 45 else hex_lower c.
Fixpoint id_chars (i : nat) (l : list Z) : bool :=
  match l with [] => true | c :: l => id_char i c && id_chars (S i) l end.
Definition ob_valid_id (s : option (list Z)) : bool :=
  match s with None => false | Some s => (zlen s =? 36) && id_chars 0 s end.

Definition alnum (c : Z) : bool :=
  ((48 <=? c) && (c <=? 57)) || ((65 <=? c) && (c <=? 90)) || ((97 <=? c) && (c <=? 122)).
Definition host_char (cidr : bool) (c : Z) : bool :=
  alnum c || (c =? 45) || (c =? 46) || (c =? 58) || (cidr && (c =? 47)).
Definition ob_valid_host (host : option (list Z)) (cidr : bool) : bool :=
  match host with
  | None => false
  | Some h => negb (zlen h =? 0) && (zlen h <=? OB_MAX_HOST) && forallb (host_char cidr) h
  end.

Record connect_options := ConnectOptions {
  o_relay_mode : Z; o_timeout_ms : Z; o_stun_server : option (list Z); o_stun_port : Z;
  o_max_maps : Z; o_max_flows : Z; o_udp_idle_timeout_ms : Z }.
Definition def (value fallback : Z) : Z := if truth value then value else fallback.

(** The argument checks of [ob_remote_connect_async]; [api] and [out] say whether the pointers are set. *)
Definition connect_invalid (api out : bool) (id password : option (list Z)) (o : option connect_options) : bool :=
  negb api || negb out || negb (ob_valid_id id) ||
  match password with None => true | Some pw => (zlen pw =? 0) || (1024 <? zlen pw) end ||
  match o with
  | None => false
  | Some o => (o_relay_mode o <? 0) || (OB_REMOTE_RELAY_FORCE <? o_relay_mode o) || (128 <? o_max_maps o) ||
      (512 <? o_max_flows o) || (300000 <? o_timeout_ms o) ||
      match o_stun_server o with None => false | Some _ => negb (ob_valid_host (o_stun_server o) false) end
  end.

(** The fields [ob_peer_alloc] sets on the zeroed handle. *)
Definition new_peer (now : Z) (id : list Z) (o : option connect_options) : ob_remote_peer :=
  let opt f d := match o with Some o => def (f o) d | None => d end in
  let timeout := opt o_timeout_ms 30000 in
  let deadline := u64 (now + timeout * 1000) in
  Peer false (match o with Some o => o_relay_mode o | None => OB_REMOTE_RELAY_AUTO end)
    id None None (o ≫= o_stun_server) (opt o_stun_port 3478)
    timeout (opt o_max_maps 32) (opt o_max_flows 128) (opt o_udp_idle_timeout_ms 60000)
    false false true 0 no_error ob_recovery_init 0 false false false false false false no_error
    deadline deadline 0 0 0 0 0 false true false 1 false false [] [] [] 0 false false false false false
    false 0 0 [] [] [] [] [] [] false None 0 false 0 0 0 0 0.
(** [ok] says that the allocations and the wake pipe succeeded. *)
Definition ob_peer_alloc (ok : bool) (now : Z) (id : list Z) (o : option connect_options) : option ob_remote_peer :=
  if ok then Some (new_peer now id o) else None.
(** [ob_remote_connect_async] up to the start of the threads, whose result is [start]. *)
Definition ob_remote_connect_async (ok : bool) (now start : Z) (api out : bool) (id password : option (list Z))
    (o : option connect_options) : Z + ob_remote_peer :=
  if connect_invalid api out id password o then inl OB_REMOTE_EINVAL
  else match ob_peer_alloc ok now (default [] id) o with
  | None => inl OB_REMOTE_ENOMEM
  | Some p => if truth start then inl start else inr p
  end.
(** The first thing [ob_peer_destroy] does, before it joins the threads and frees the handle. *)
Definition ob_peer_destroy (p : ob_remote_peer) : ob_remote_peer := p <| stop := true |> <| attempt_stop := true |>.
(** The wait of [ob_remote_connect]: in each round whether the time is over, and otherwise
    what the threads of the handle do to it meanwhile. *)
Fixpoint connect_wait (rounds : list (bool * (ob_remote_peer -> ob_remote_peer))) (p : ob_remote_peer) : option ob_remote_peer :=
  if ready p || truth (result p) then Some p
  else match rounds with
  | [] => None
  | (late, moves) :: rounds =>
    if late then Some (ob_peer_fail_locked p OB_REMOTE_ETIMEOUT (lit "Peer setup timed out")) else connect_wait rounds (moves p)
  end.
(** [inl]: the error code and the destroyed handle, if there was one. *)
Definition ob_remote_connect (ok : bool) (now start : Z) (api out : bool) (id password : option (list Z)) (o : option connect_options)
    (rounds : list (bool * (ob_remote_peer -> ob_remote_peer))) : option ((Z * option ob_remote_peer) + ob_remote_peer) :=
  if negb out then Some (inl (OB_REMOTE_EINVAL, None))
  else match ob_remote_connect_async ok now start api out id password o with
  | inl rc => Some (inl (rc, None))
  | inr p =>
    match connect_wait rounds p with
    | None => None
    | Some p => Some (if truth (result p) then inl (result p, Some (ob_peer_destroy p)) else inr p)
    end
  end.
(** A handle that [ob_remote_connect] returns is ready, unless the handle was closed under it. *)
Lemma connect_ready ok now start api out id password o rounds p :
  ob_remote_connect ok now start api out id password o rounds = Some (inr p) -> result p = 0 /\ (ready p = true \/ peer_state p = CLOSED).
Proof.
  unfold ob_remote_connect. destruct (negb out); [done|]. destruct (ob_remote_connect_async _ _ _ _ _ _ _ _) as [|q]; [done|].
  destruct (connect_wait rounds q) as [r|] eqn:E; [|done]. destruct (truth (result r)) eqn:R; [done|]. intros [= <-].
  assert (Z0 : result r = 0) by (unfold truth in R; apply negb_false_iff, Z.eqb_eq in R; done). split; [done|].
  revert q E. induction rounds as [|[late moves] rounds IH]; intros q; cbn [connect_wait]; (destruct (ready q || truth (result q)) eqn:C;
    [intros [= ->]; rewrite R, orb_false_r in C; by left|]); [done|]. destruct late; [|apply IH]. intros [= <-]. right.
  unfold ob_peer_fail_locked in *. case_bool_decide as S; [done|]. exfalso. apply orb_false_iff in C as [_ C]. rewrite C in Z0. cbv zeta in Z0.
  by destruct (_ || _).
Qed.

(** ** The life of a handle *)

(** What happens to a handle after creation, in any order: failures reported by the
    workers, a transport that becomes ready, and the requests of the caller. *)
Inductive peer_event :=
  | EvFail (code : Z) (message : list Z)
  | EvTransportFail (t1 t2 code : Z) (message : list Z)
  | EvReady (hook : ob_remote_peer -> ob_remote_peer) (now : Z)
  | EvPolicy (now : Z) (i : option policy)
  | EvCallback (cb : option Z)
  | EvReconnect
  | EvDeliver (now : Z)
  | EvClose.

Definition peer_step (p : ob_remote_peer) (ev : peer_event) : ob_remote_peer :=
  match ev with
  | EvFail code message => ob_peer_fail_locked p code message
  | EvTransportFail t1 t2 code message => ob_peer_transport_fail_locked t1 t2 p code message
  | EvReady hook now => ob_peer_mark_ready hook now p
  | EvPolicy now i => (ob_remote_peer_set_reconnect_policy now p i).2
  | EvCallback cb => ob_remote_peer_set_state_callback p cb
  | EvReconnect => (ob_remote_peer_reconnect p).2
  | EvDeliver now => p <| recovery := (ob_recovery_deliver now (recovery p)).2 |>
  | EvClose => ob_remote_peer_close p
  end.
Definition peer_run (p : ob_remote_peer) (evs : list peer_event) : ob_remote_peer := fold_left peer_step evs p.

(** A handle that failed with [code]: the workers are told to stop. *)
Definition failed (code : Z) (p : ob_remote_peer) : Prop :=
  stop p = true /\ result p = code /\ code <> 0 /\ peer_state p <> CONNECTED.
(** The state the caller is shown. *)
Definition reported (p : ob_remote_peer) : Prop := peer_state p = FAILED \/ peer_state p = CLOSED.
Lemma failed_truth code p : failed code p -> truth (result p) = true.
Proof. intros (_ & -> & H & _). unfold truth. by rewrite (proj2 (Z.eqb_neq _ _)). Qed.
Lemma failed_fail code p c m : failed code p ->
  failed code (ob_peer_fail_locked p c m) /\ error (ob_peer_fail_locked p c m) = error p /\ ready (ob_peer_fail_locked p c m) = ready p /\
  (peer_state (ob_peer_fail_locked p c m) = FAILED \/ peer_state (ob_peer_fail_locked p c m) = CLOSED).
Proof.
  intros H. unfold ob_peer_fail_locked. case_bool_decide; [by split_and!; [..|right]|]. rewrite (failed_truth _ _ H).
  destruct H as (? & ? & ? & ?). unfold failed. cbn. split_and!; try done. by left.
Qed.
Lemma failed_step code p ev : failed code p -> failed code (peer_step p ev) /\ error (peer_step p ev) = error p /\
  ready (peer_step p ev) = ready p /\ (reported p -> reported (peer_step p ev)).
Proof.
  intros H. pose proof (failed_truth _ _ H) as Ht. pose proof H as (Hs & Hr & Hc & Hst). unfold failed, reported.
  destruct ev; cbn [peer_step].
  - destruct (failed_fail _ _ code0 message H) as ((? & ? & ? & ?) & ? & ? & ?). by split_and!.
  - unfold ob_peer_transport_fail_locked. rewrite Hs. by split_and!.
  - unfold ob_peer_mark_ready. rewrite Hs, orb_true_r. by split_and!.
  - unfold ob_remote_peer_set_reconnect_policy. destruct (normalize i); cbn; [|by split_and!].
    unfold peer_state in *. cbn. unfold ob_recovery_apply_policy_locked. cbn. repeat case_match; by split_and!.
  - cbn. by split_and!.
  - unfold ob_remote_peer_reconnect. rewrite Hs, !Ht. cbn. by split_and!.
  - cbn. by split_and!.
  - unfold ob_remote_peer_close. destruct (failed_fail _ _ OB_REMOTE_ECLOSED (lit "Peer closed by caller") H) as ((? & ? & ? & ?) & ? & ? & ?).
    cbn. split_and!; auto.
Qed.

Definition sample_peer : ob_remote_peer := new_peer 5 [] None.

(** ** Outages *)

(** Within one outage neither the moment it began nor the end of the grace period moves. *)
Definition outage_fixed (p p' : ob_remote_peer) : Prop :=
  (outage_us (recovery p) <> 0 -> outage_us (recovery p') = outage_us (recovery p)) /\
  (recovery_deadline_us p <> 0 -> recovery_deadline_us p' = recovery_deadline_us p).
#[export] Instance outage_fixed_preorder : PreOrder outage_fixed.
Proof.
  split; [by split|]. intros p q r [H1 H2] [H3 H4]. split; intros H.
  - rewrite H3, H1; [done|done|]. by rewrite H1.
  - rewrite H4, H2; [done|done|]. by rewrite H2.
Qed.
Lemma truth_nz z : truth z = false -> z = 0.
Proof. unfold truth. by destruct (Z.eqb_spec z 0). Qed.
Definition not_ready (ev : peer_event) : Prop := match ev with EvReady _ _ => False | _ => True end.
Lemma fail_outage p code message : outage_fixed p (ob_peer_fail_locked p code message).
Proof.
  unfold ob_peer_fail_locked. case_bool_decide; [done|]. destruct (truth (result p)); [by split|]. destruct (_ || _); by split.
Qed.
Lemma transport_fail_outage t1 t2 p code message : outage_fixed p (ob_peer_transport_fail_locked t1 t2 p code message).
Proof.
  unfold ob_peer_transport_fail_locked. destruct (stop p); [done|]. destruct (managed p); [cbn [negb]|by apply fail_outage].
  assert (forall q, recovery q = recovery p -> recovery_deadline_us q = recovery_deadline_us p -> ever_ready q = ever_ready p ->
    outage_fixed p (let q := if truth (outage_us (recovery q)) then q else q <| recovery ::= fun r => r <| outage_us := t1 |> |> in
      if ever_ready q && negb (truth (recovery_deadline_us q))
      then q <| recovery_deadline_us := u64 (t2 + flow_grace_ms (r_policy (recovery q)) * 1000) |> else q)) as H.
  { intros q Hq1 Hq2 Hq3. cbv zeta. destruct (truth (outage_us (recovery q))) eqn:E1;
      destruct (truth (recovery_deadline_us q)) eqn:E2; destruct (ever_ready q) eqn:E3; cbn; rewrite ?E2, ?E3; cbn;
      try apply truth_nz in E1; try apply truth_nz in E2; split; cbn; congruence. }
  destruct (truth (attempt_result p)); cbv zeta;
    match goal with |- outage_fixed _ (set_state _ _ (?x <| attempt_stop := true |>)) =>
      assert (outage_fixed p x) as [? ?]; [|by split] end; by apply H.
Qed.
Lemma step_outage p ev : not_ready ev -> outage_fixed p (peer_step p ev).
Proof.
  destruct ev; cbn [peer_step]; intros Hn; try done.
  - apply fail_outage.
  - apply transport_fail_outage.
  - unfold ob_remote_peer_set_reconnect_policy. destruct (normalize i); cbn; [|done].
    unfold ob_recovery_apply_policy_locked. cbn. repeat case_match; by split.
  - unfold ob_remote_peer_reconnect. destruct (_ && _); by split.
  - unfold ob_remote_peer_close. etransitivity; [apply fail_outage|]. by split.
Qed.

(** From the first transport failure of an outage until the transport is ready
    again, further failures, policy changes and requests move neither the start of the retry budget
    nor the end of the flow grace period, however many and in whatever order; the grace period
    ends the configured time after the failure that began it. *)
Theorem outage_clock p t1 t2 code message evs :
  managed p = true -> stop p = false -> outage_us (recovery p) = 0 -> recovery_deadline_us p = 0 ->
  ever_ready p = true -> 0 < t1 -> 0 < t2 ->
  0 <= flow_grace_ms (r_policy (recovery p)) -> t2 + flow_grace_ms (r_policy (recovery p)) * 1000 <= UINT64_MAX ->
  Forall not_ready evs ->
  let p' := peer_run (ob_peer_transport_fail_locked t1 t2 p code message) evs in
  outage_us (recovery p') = t1 /\
  recovery_deadline_us p' = t2 + flow_grace_ms (r_policy (recovery p)) * 1000.
Proof.
  intros Hm Hs Ho Hd He Ht1 Ht2 Hg Hmax Hevs. cbv zeta. set (p0 := ob_peer_transport_fail_locked t1 t2 p code message).
  assert (outage_us (recovery p0) = t1 /\ recovery_deadline_us p0 = t2 + flow_grace_ms (r_policy (recovery p)) * 1000) as [H1 H2].
  { unfold p0, ob_peer_transport_fail_locked. rewrite Hs, Hm. cbn [negb].
    destruct (truth (attempt_result p)); cbn; rewrite ?Ho; cbn; rewrite ?He, ?Hd; cbn; rewrite u64_small by lia; done. }
  assert (outage_fixed p0 (peer_run p0 evs)) as [H3 H4].
  { clearbody p0. clear H1 H2. revert p0. induction Hevs as [|ev evs Hev Hevs IH]; intros q; [done|]. cbn.
    etransitivity; [by apply step_outage|apply IH]. }
  rewrite H3, H4, H1, H2; [done|lia|lia].
Qed.
Definition outage_peer : ob_remote_peer := sample_peer <| ever_ready := true |> <| ready := true |>.
Lemma outage_clock_witness :
  let p' := peer_run (ob_peer_transport_fail_locked 7 8 outage_peer OB_REMOTE_EICE []) [EvTransportFail 50 60 OB_REMOTE_EQUIC []; EvReconnect; EvPolicy 70 None] in
  outage_us (recovery p') = 7 /\ recovery_deadline_us p' = 8 + 120000 * 1000.
Proof.
  apply (outage_clock outage_peer 7 8 OB_REMOTE_EICE []); try reflexivity; try (cbn; unfold UINT64_MAX; lia).
  repeat constructor.
Defined.

(** ** The policy *)

Record policy_ok (o : policy) : Prop := {
  po_size : struct_size o = POLICY_SIZE;
  po_disabled : 0 <= disabled o <= 1;
  po_attempts : 1 <= max_attempts o <= 10000;
  po_delay : 1 <= initial_delay_ms o <= max_delay_ms o;
  po_max : max_delay_ms o <= 300000;
  po_budget : 1 <= retry_budget_ms o <= 3600000;
  po_grace : 1 <= flow_grace_ms o <= 3600000;
  po_stable : 1 <= stable_reset_ms o <= 3600000;
  po_timeout : 1000 <= transport_timeout_ms o <= 300000
}.
(** The fields of the structure are 32-bit. *)
Definition policy_u32 (i : policy) : Prop :=
  Forall (fun z => 0 <= z <= UINT32_MAX) [struct_size i; disabled i; max_attempts i; initial_delay_ms i; max_delay_ms i;
    retry_budget_ms i; flow_grace_ms i; stable_reset_ms i; transport_timeout_ms i].
Lemma copy_default_pos f d : 0 <= f -> 1 <= d -> 1 <= copy_default f d.
Proof. unfold copy_default, truth. destruct (Z.eqb_spec f 0); cbn; lia. Qed.
Lemma copy_default_id f d : 1 <= f -> copy_default f d = f.
Proof. unfold copy_default, truth. destruct (Z.eqb_spec f 0); cbn; lia. Qed.

Lemma normalize_ok i o : (forall x, i = Some x -> policy_u32 x) -> normalize i = Some o -> policy_ok o.
Proof.
  intros Hu. unfold normalize. destruct i as [i|]; [|intros [= <-]; split; cbn; lia].
  specialize (Hu i eq_refl). unfold policy_u32 in Hu. repeat match goal with H : Forall _ (_ :: _) |- _ => inversion_clear H end.
  destruct (_ || (1 <? disabled i)) eqn:E1; [done|]. destruct (_ || _) eqn:E2 in |- *; [done|]. intros [= <-]. bools. cbn in *.
  split; cbn; try lia; try (split; [apply copy_default_pos; lia|lia]).
Qed.
Lemma normalize_idem o : policy_ok o -> normalize (Some o) = Some o.
Proof.
  intros [H1 H2 H3 H4 H5 H6 H7 H8 H9]. unfold normalize. rewrite !copy_default_id by lia. cbn [struct_size disabled max_attempts
    initial_delay_ms max_delay_ms retry_budget_ms flow_grace_ms stable_reset_ms transport_timeout_ms ob_remote_reconnect_policy_init].
  rewrite H1, Z.eqb_refl, andb_false_r. cbn [orb].
  rewrite !(proj2 (Z.ltb_ge _ _)) by lia. cbn [orb]. destruct o; cbn in *; subst; done.
Qed.

(** A policy is accepted only after normalisation to the documented limits,
    which is idempotent, and applying it while a retry is scheduled can only move that retry
    earlier, never past the new maximum delay from now. *)
Theorem policy_applied now p i rc p' :
  (forall x, i = Some x -> policy_u32 x) -> 0 <= now -> now + 300000 * 1000 <= UINT64_MAX ->
  ob_remote_peer_set_reconnect_policy now p i = (rc, p') ->
  (rc = OB_REMOTE_EINVAL /\ p' = p) \/
  (rc = 0 /\ policy_ok (r_policy (recovery p')) /\ normalize i = Some (r_policy (recovery p')) /\
   normalize (Some (r_policy (recovery p'))) = Some (r_policy (recovery p')) /\
   retry_us (recovery p') = (if retry_us (recovery p) =? 0 then 0
     else Z.min (retry_us (recovery p)) (now + max_delay_ms (r_policy (recovery p')) * 1000)) /\
   outage_us (recovery p') = outage_us (recovery p)).
Proof.
  intros Hu Hn Hm. unfold ob_remote_peer_set_reconnect_policy. destruct (normalize i) as [o|] eqn:E; intros [= <- <-]; [right|by left].
  pose proof (normalize_ok _ _ Hu E) as Ho. pose proof Ho as [? ? ? ? ? ? ? ? ?].
  assert (r_policy (ob_recovery_apply_policy_locked now (recovery p) o) = o /\
    outage_us (ob_recovery_apply_policy_locked now (recovery p) o) = outage_us (recovery p) /\
    retry_us (ob_recovery_apply_policy_locked now (recovery p) o) =
      (if retry_us (recovery p) =? 0 then 0 else Z.min (retry_us (recovery p)) (now + max_delay_ms o * 1000))) as (H1' & H2' & H3').
  { unfold ob_recovery_apply_policy_locked. cbn. rewrite u64_small by lia. unfold truth.
    destruct (Z.eqb_spec (retry_us (recovery p)) 0) as [Hz|Hz]; cbn; [done|].
    destruct (Z.ltb_spec (now + max_delay_ms o * 1000) (retry_us (recovery p))); cbn; [case_bool_decide; cbn|];
      (split; [done|]; split; [done|lia]). }
  cbn. rewrite H1', H2', H3'. split_and!; try done. by apply normalize_idem.
Qed.
Lemma policy_applied_witness :
  let p := sample_peer <| recovery ::= fun r => r <| retry_us := 99000000 |> |> in
  exists p', ob_remote_peer_set_reconnect_policy 1000 p (Some (Policy 0 0 3 0 2000 0 0 0 0)) = (0, p') /\
    retry_us (recovery p') = 1000 + 2000 * 1000.
Proof.
  eexists. split; [reflexivity|].
  destruct (policy_applied 1000 (sample_peer <| recovery ::= fun r => r <| retry_us := 99000000 |> |>)
    (Some (Policy 0 0 3 0 2000 0 0 0 0)) 0 _ ltac:(intros x [= <-]; repeat constructor; cbn; unfold UINT32_MAX; lia) ltac:(lia)
    ltac:(unfold UINT64_MAX; lia) eq_refl) as [[[=] _]|(_ & _ & _ & _ & H & _)]. exact H.
Defined.
