(* ===== verification/PeerCrypto.v ===== *)
(** * Peer authentication

    src/sdk/c/remote/peer/crypto.c: hexadecimal text, the authenticated signalling
    messages, key derivation, the channel and reattachment proofs, and the check of
    the peer's QUIC transport parameters.  SHA-256, HMAC-SHA-256 and HKDF are
    BoringSSL's and are parameters; what is proved is what the SDK feeds them. *)

From S2P Require Import Prelude.
From S2P Require Import Peer.

(** ** Hexadecimal text *)

Definition hex_char (n : Z) : Z := if n <? 10 then 48 + n else 87 + n.
Definition ob_hex (l : list Z) : list Z :=
  concat (map (fun b => [hex_char (Z.shiftr b 4); hex_char (Z.land b 15)]) l).

Definition unhex_char (c : Z) : Z :=
  if (48 <=? c) && (c <=? 57) then c - 48
  else if (97 <=? c) && (c <=? 102) then c - 97 + 10 else -1.
(** The loop reads two characters per byte; [None] is the return value -1. *)
Fixpoint unhex_loop (l : list Z) : option (list Z) :=
  match l with
  | a :: b :: l =>
    let n := unhex_char a in
    if n <? 0 then None
    else
      let m := unhex_char b in
      if m <? 0 then None
      else rest ← unhex_loop l; Some (Z.lor (u8 (Z.shiftl n 4)) (u8 m) :: rest)
  | [a] => if unhex_char a <? 0 then None else Some []
  | [] => Some []
  end.
Definition ob_unhex (text : option (list Z)) (size : Z) : option (list Z) :=
  match text with
  | None => None
  | Some t => if zlen t =? size * 2 then unhex_loop t else None
  end.

Section crypto.
(** [hmac key message], [None] when the library fails; [hkdf length secret salt info]. *)
Context (sha256 : list Z -> list Z) (hmac : list Z -> list Z -> option (list Z))
        (hkdf : Z -> list Z -> list Z -> list Z -> option (list Z)).

Definition hmac32 (key message : list Z) : option (list Z) :=
  out ← hmac key message; if zlen out =? 32 then Some out else None.

Definition signal_mac_input (seq : Z) (type payload : list Z) : list Z :=
  be_put 8 seq ++ (type ++ [0]) ++ payload.
Definition ob_signal_mac (key : list Z) (seq : Z) (type payload : list Z) : option (list Z) :=
  hmac32 key (signal_mac_input seq type payload).

Definition suite : list Z := lit "OBP1/BoringSSL-SPAKE2-draft02/Ed25519/SHA512/HKDF-SHA256" ++ [0].
Definition signalling_info : list Z := lit "ob-peer-v1 directional signalling".
Definition transcript (p : ob_remote_peer) (client_msg server_msg : list Z) : list Z :=
  suite ++ (broker_id p ++ [0]) ++ (default [] (session_id p) ++ [0]) ++ client_msg ++ server_msg.
Definition ob_derive_keys (p : ob_remote_peer) (client_msg server_msg : list Z) : option ob_remote_peer :=
  let salt := sha256 (transcript p client_msg server_msg) in
  keys ← hkdf 64 (shared p) salt signalling_info;
  Some (p <| tx_key := zsub (if is_server p then 32 else 0) 32 keys |>
          <| rx_key := zsub (if is_server p then 0 else 32) 32 keys |>).

Definition SPAKE2_MAX_KEY_SIZE : Z := 64.
Definition channel_label : list Z := lit "EXPORTER-ob-peer-v1".
Definition channel_mac_input (role : Z) (fp exporter : list Z) : list Z :=
  (channel_label ++ [0]) ++ [u8 role] ++ ztake 32 fp ++ ztake 32 exporter.
Definition ob_channel_mac (shared : option (list Z)) (fp exporter : list Z) (sender_server : Z) : option (list Z) :=
  match shared with
  | None => None
  | Some s =>
    if negb (zlen s =? SPAKE2_MAX_KEY_SIZE) || (negb (sender_server =? 0) && negb (sender_server =? 1)) then None
    else hmac32 s (channel_mac_input sender_server fp exporter)
  end.

(** ** QUIC transport parameters *)

Fixpoint varint_loop (l : list Z) (v : Z) : Z :=
  match l with [] => v | b :: l => varint_loop l (Z.lor (u64 (Z.shiftl v 8)) b) end.
(** [quic_varint]: the number of bytes and the value. *)
Definition quic_varint (b : list Z) : option (Z * Z) :=
  match b with
  | [] => None
  | c :: _ =>
    let n := Z.shiftl 1 (Z.shiftr c 6) in
    if zlen b <? n then None else Some (n, varint_loop (zsub 1 (n - 1) b) (Z.land c 63))
  end.

Definition NO_CRYPTO : Z := 0x1000.
Fixpoint params_loop (fuel : nat) (b : list Z) (seen : bool) : bool :=
  match b, fuel with
  | [], _ => true
  | _, O => false
  | _, S fuel =>
    match quic_varint b with
    | None => false
    | Some (used, id) =>
      let b := zdrop used b in
      match quic_varint b with
      | None => false
      | Some (used, size) =>
        let b := zdrop used b in
        if zlen b <? size then false
        else if id =? NO_CRYPTO then
          if seen then false
          else match quic_varint (ztake size b) with
          | None => false
          | Some (used, no_crypto) =>
            if negb (used =? size) || negb (no_crypto =? 0) then false
            else params_loop fuel (zdrop size b) true
          end
        else params_loop fuel (zdrop size b) seen
      end
    end
  end.
Definition ob_transport_params_encrypted (params : option (list Z)) : bool :=
  match params with
  | None => false
  | Some b => if zlen b =? 0 then false else params_loop (length b) b false
  end.

(** [ob_connection_encrypted] for a connection whose TLS object reports [params]. *)
Definition ob_connection_encrypted (conn : option (option (list Z))) : bool :=
  match conn with None => false | Some params => ob_transport_params_encrypted params end.

(** [ob_connection_proof]: [conn] as above, [exporter] the exported keying material
    bound to the session id, [None] when the export fails. *)
Definition ob_connection_proof (p : ob_remote_peer) (conn : option (option (list Z)))
    (exporter : list Z -> list Z -> option (list Z)) (sender_server : Z) : option (list Z) :=
  if negb (tls_ready p) || negb (ob_connection_encrypted conn) then None
  else
    e ← exporter channel_label (default [] (session_id p));
    ob_channel_mac (Some (shared p)) (fingerprint p) e sender_server.

Definition ob_certificate_matches (p : ob_remote_peer) (der : list Z) : bool :=
  negb (zlen der =? 0) && list_eqb (sha256 der) (fingerprint p).

(** ** Reattachment *)

Definition resume_info : list Z := lit "ob-peer-v2 logical recovery context".
(** [ob_resume_key_derive]: [None] is -1. *)
Definition ob_resume_key_derive (p : ob_remote_peer) : option ob_remote_peer :=
  if negb (control_managed p) || negb (ob_valid_id (Some (connection_id p))) then Some p
  else
    key ← hkdf 32 (shared p) (connection_id p) resume_info;
    let p := p <| fresh_resume_key := key |> in
    Some (if resume_key_set p then p else p <| resume_key := key |> <| resume_key_set := true |>).

Definition resume_label : list Z := lit "ob-peer-v2 authenticated reattachment" ++ [0].
Definition resume_proof_input (role : Z) (broker connection session : list Z) (generation : Z) (fresh : list Z) : list Z :=
  resume_label ++ [u8 role] ++ (broker ++ [0]) ++ (connection ++ [0]) ++ (session ++ [0]) ++ be_put 8 generation ++ fresh.
Definition ob_resume_proof (p : ob_remote_peer) (sender_server : Z) : option (list Z) :=
  match session_id p with
  | None => None
  | Some sid =>
    if negb (resume_key_set p) || (negb (sender_server =? 0) && negb (sender_server =? 1)) then None
    else hmac32 (resume_key p)
           (resume_proof_input sender_server (broker_id p) (connection_id p) sid (control_generation p) (sha256 (shared p)))
  end.

End crypto.

(** ** Proofs: hexadecimal *)

Lemma unhex_hex_char n : 0 <= n < 16 -> unhex_char (hex_char n) = n.
Proof.
  intros. unfold hex_char, unhex_char. destruct (Z.ltb_spec n 10); repeat case_match; bools;
    repeat match goal with H : _ && _ = false |- _ => apply andb_false_iff in H as [H|H] end; bools; lia.
Qed.
Lemma hex_unhex_char c : 0 <= unhex_char c -> 0 <= unhex_char c < 16 /\ hex_char (unhex_char c) = c.
Proof.
  unfold hex_char, unhex_char. repeat case_match; bools; try lia; repeat case_match; bools; lia.
Qed.
Lemma nibbles b : byte b -> 0 <= Z.shiftr b 4 < 16 /\ 0 <= Z.land b 15 < 16 /\
  Z.lor (u8 (Z.shiftl (Z.shiftr b 4) 4)) (u8 (Z.land b 15)) = b.
Proof.
  unfold byte. intros Hb. change 15 with (Z.ones 4). rewrite Z.land_ones, Z.shiftr_div_pow2 by lia. change (2 ^ 4) with 16.
  assert (0 <= b / 16 < 16) as H1 by (Z.to_euclidean_division_equations; lia).
  assert (0 <= b mod 16 < 16) as H2 by (Z.to_euclidean_division_equations; lia). split; [done|]. split; [done|].
  rewrite (u8_small (b mod 16)) by lia. rewrite u8_small; [|rewrite Z.shiftl_mul_pow2; lia].
  rewrite lor_shiftl_add by lia. change (2 ^ 4) with 16. Z.to_euclidean_division_equations; lia.
Qed.
Lemma nibbles_join n m : 0 <= n < 16 -> 0 <= m < 16 ->
  let b := Z.lor (u8 (Z.shiftl n 4)) (u8 m) in byte b /\ Z.shiftr b 4 = n /\ Z.land b 15 = m.
Proof.
  intros Hn Hm. cbv zeta. rewrite (u8_small m) by lia. rewrite u8_small; [|rewrite Z.shiftl_mul_pow2; lia].
  rewrite lor_shiftl_add by lia. change (2 ^ 4) with 16. unfold byte. split; [lia|].
  change 15 with (Z.ones 4). rewrite Z.land_ones, Z.shiftr_div_pow2 by lia. change (2 ^ 4) with 16.
  Z.to_euclidean_division_equations; lia.
Qed.

Lemma hex_len l : zlen (ob_hex l) = zlen l * 2.
Proof. induction l as [|b l IH]; [done|]. unfold ob_hex in *. cbn [map concat app]. rewrite !zlen_cons, IH. lia. Qed.
Lemma unhex_loop_hex l : bytes l -> unhex_loop (ob_hex l) = Some l.
Proof.
  induction 1 as [|b l Hb Hl IH]; [done|]. unfold ob_hex in *. cbn [map concat app unhex_loop].
  destruct (nibbles b Hb) as (H1 & H2 & H3). rewrite !unhex_hex_char by done.
  rewrite (proj2 (Z.ltb_ge (Z.shiftr b 4) 0)), (proj2 (Z.ltb_ge (Z.land b 15) 0)) by lia. rewrite IH. cbn. by rewrite H3.
Qed.
Lemma hex_unhex_loop n t l : (length t <= 2 * n)%nat -> zlen t mod 2 = 0 -> unhex_loop t = Some l -> bytes l /\ t = ob_hex l.
Proof.
  revert t l; induction n as [|n IH]; intros t l Hn Hm H.
  - destruct t; [|cbn in Hn; lia]. injection H as <-. split; [constructor|done].
  - destruct t as [|a [|b t]]; [injection H as <-; split; [constructor|done]|by unfold zlen in Hm|]. cbn [unhex_loop] in H.
    destruct (Z.ltb_spec (unhex_char a) 0) as [|Ha]; [done|]. destruct (Z.ltb_spec (unhex_char b) 0) as [|Hb]; [done|].
    apply bind_Some in H as (rest & Hr & [= <-]).
    destruct (IH t rest) as [Hrb Hrt]; [cbn in Hn; lia|rewrite !zlen_cons in Hm; Z.to_euclidean_division_equations; lia|done|].
    destruct (hex_unhex_char a Ha) as [Ha1 Ha2]. destruct (hex_unhex_char b Hb) as [Hb1 Hb2].
    destruct (nibbles_join _ _ Ha1 Hb1) as (H1 & H2 & H3). split; [by constructor|].
    unfold ob_hex in *. cbn [map concat app]. by rewrite H2, H3, Ha2, Hb2, <- Hrt.
Qed.

(** Decoding accepts exactly the lower-case text that encoding prints for [size]
    bytes and returns those bytes: no two texts denote the same key, MAC or fingerprint. *)
Theorem hex_exact t size l : 0 <= size -> ob_unhex (Some t) size = Some l <-> bytes l /\ zlen l = size /\ t = ob_hex l.
Proof.
  intros Hs. unfold ob_unhex. destruct (Z.eqb_spec (zlen t) (size * 2)) as [Hl|Hl].
  - split.
    + intros H. apply (hex_unhex_loop (length t)) in H as [Hb ->]; [|lia|rewrite Hl; Z.to_euclidean_division_equations; lia].
      split; [done|]. split; [|done]. rewrite hex_len in Hl. lia.
    + intros (Hb & _ & ->). by apply unhex_loop_hex.
  - split; [done|]. intros (_ & Hz & ->). rewrite hex_len in Hl. lia.
Qed.
Lemma hex_exact_witness : ob_unhex (Some (ob_hex [0; 171; 255])) 3 = Some [0; 171; 255].
Proof. apply (hex_exact (ob_hex [0; 171; 255]) 3 [0; 171; 255]); [lia|]. split; [repeat constructor; lia|done]. Defined.

(** ** Proofs: what the MACs bind *)

(** A NUL-terminated string is a prefix code. *)
Lemma cstring_inj (a b x y : list Z) : ~ In 0 a -> ~ In 0 b -> (a ++ [0]) ++ x = (b ++ [0]) ++ y -> a = b /\ x = y.
Proof.
  rewrite <- !app_assoc. revert b; induction a as [|c a IH]; intros [|d b] Ha Hb H; cbn in *.
  - by injection H.
  - injection H as H1 _. exfalso. apply Hb. auto.
  - injection H as H1 _. exfalso. apply Ha. auto.
  - injection H as -> H. destruct (IH b) as [-> ->]; auto.
Qed.
Lemma be8_inj s s' (x y : list Z) : 0 <= s <= UINT64_MAX -> 0 <= s' <= UINT64_MAX -> be_put 8 s ++ x = be_put 8 s' ++ y -> s = s' /\ x = y.
Proof.
  unfold UINT64_MAX. intros Hs Hs' H. apply app_inj_1 in H as [H ->]; [|by rewrite !be_put_length]. split; [|done].
  rewrite <- (be_get_put_small 8 s), <- (be_get_put_small 8 s') by (cbn; lia). by rewrite H.
Qed.

(** The bytes under a signalling MAC determine the sequence number, the
    message type and the payload: no two different messages are authenticated by the same bytes,
    so a captured MAC fits no other position, type or content. *)
Theorem signal_mac_binds seq type payload seq' type' payload' :
  0 <= seq <= UINT64_MAX -> 0 <= seq' <= UINT64_MAX -> ~ In 0 type -> ~ In 0 type' ->
  signal_mac_input seq type payload = signal_mac_input seq' type' payload' ->
  seq = seq' /\ type = type' /\ payload = payload'.
Proof.
  unfold signal_mac_input. intros Hs Hs' Ht Ht' H. apply be8_inj in H as [-> H]; [|done|done].
  apply cstring_inj in H as [-> ->]; done.
Qed.
Lemma signal_mac_binds_witness : signal_mac_input 7 (lit "ice") [1] = signal_mac_input 7 (lit "ice") [1] /\ 7 = 7 /\ lit "ice" = lit "ice" /\ [1] = [1].
Proof.
  split; [reflexivity|]. apply signal_mac_binds; [unfold UINT64_MAX; lia|unfold UINT64_MAX; lia|cbn; lia|cbn; lia|reflexivity].
Defined.

(** The bytes under a reattachment proof determine the role of the sender, the
    broker, the logical connection, the control session, its generation and the fresh secret; in
    particular a proof of one role is never a proof of the other. *)
Theorem proof_binds role broker conn sess gen fresh role' broker' conn' sess' gen' fresh' :
  0 <= role <= 1 -> 0 <= role' <= 1 -> 0 <= gen <= UINT64_MAX -> 0 <= gen' <= UINT64_MAX ->
  Forall (fun s => ~ In 0 s) [broker; conn; sess; broker'; conn'; sess'] ->
  resume_proof_input role broker conn sess gen fresh = resume_proof_input role' broker' conn' sess' gen' fresh' ->
  role = role' /\ broker = broker' /\ conn = conn' /\ sess = sess' /\ gen = gen' /\ fresh = fresh'.
Proof.
  intros Hr Hr' Hg Hg' Hz. repeat match goal with H : Forall _ (_ :: _) |- _ => inversion_clear H end.
  unfold resume_proof_input. intros Heq. apply app_inv_head in Heq. cbn [app] in Heq. injection Heq as Hrole Heq.
  rewrite !u8_small in Hrole by lia. apply cstring_inj in Heq as [-> Heq]; [|done|done]. apply cstring_inj in Heq as [-> Heq]; [|done|done].
  apply cstring_inj in Heq as [-> Heq]; [|done|done]. apply be8_inj in Heq as [-> ->]; done.
Qed.
Lemma proof_binds_witness : 1 = 1 /\ [98] = [98] /\ [99] = [99] /\ [115] = [115] /\ 3 = 3 /\ [5] = [5].
Proof.
  apply (proof_binds 1 [98] [99] [115] 3 [5] 1 [98] [99] [115] 3 [5]); try lia; try (unfold UINT64_MAX; lia); [|reflexivity].
  repeat constructor; cbn; lia.
Defined.

(** From the same PAKE secret, identities and transcript the two roles derive
    mirrored directional keys: what one side sends with the other receives with, and the two
    directions use disjoint halves of the output. *)
Theorem keys_mirror sha256 hkdf c s cm sm c' s' :
  is_server c = false -> is_server s = true -> broker_id c = broker_id s -> session_id c = session_id s -> shared c = shared s ->
  (forall n k salt i out, 0 <= n -> hkdf n k salt i = Some out -> zlen out = n) ->
  ob_derive_keys sha256 hkdf c cm sm = Some c' -> ob_derive_keys sha256 hkdf s cm sm = Some s' ->
  tx_key c' = rx_key s' /\ rx_key c' = tx_key s' /\
  exists keys, tx_key c' ++ rx_key c' = keys /\ zlen keys = 64 /\ zlen (tx_key c') = 32.
Proof.
  intros Hc Hs Hb Hsid Hsh Hlen Hd Hd'. unfold ob_derive_keys, transcript in *. rewrite Hc, Hb, Hsid, Hsh in Hd. rewrite Hs in Hd'.
  apply bind_Some in Hd as (keys & Hk & [= <-]). apply bind_Some in Hd' as (keys' & Hk' & [= <-]).
  rewrite Hk in Hk'. injection Hk' as <-. apply Hlen in Hk; [|lia]. cbn [tx_key rx_key upd]. split; [done|]. split; [done|].
  pose proof (zsub_split 0 32 32 keys ltac:(lia) ltac:(lia) ltac:(lia)) as Hcat. change (32 + 32) with 64 in Hcat.
  change (0 + 32) with 32 in Hcat. rewrite zsub_all in Hcat by done.
  exists keys. split; [by symmetry|]. split; [done|]. apply zlen_sub; lia.
Qed.
Definition toy_sha (l : list Z) : list Z := ztake 32 (l ++ repeat 0 32).
Definition toy_hkdf (n : Z) (k salt i : list Z) : option (list Z) := Some (ztake n (k ++ salt ++ i ++ repeat 0 (Z.to_nat n))).
Lemma toy_hkdf_len n k salt i out : 0 <= n -> toy_hkdf n k salt i = Some out -> zlen out = n.
Proof.
  intros Hn [= <-]. rewrite zlen_take, !zlen_app. pose proof (zlen_nonneg k). pose proof (zlen_nonneg salt). pose proof (zlen_nonneg i).
  assert (zlen (repeat 0 (Z.to_nat n)) = n) as -> by (unfold zlen; rewrite repeat_length; lia). lia.
Qed.
Definition toy_peer (server : bool) : ob_remote_peer :=
  sample_peer <| is_server := server |> <| session_id := Some [115] |> <| shared := repeat 9 64 |>.
Lemma keys_mirror_witness : exists c' s',
  ob_derive_keys toy_sha toy_hkdf (toy_peer false) [1] [2] = Some c' /\ ob_derive_keys toy_sha toy_hkdf (toy_peer true) [1] [2] = Some s' /\
  tx_key c' = rx_key s' /\ rx_key c' = tx_key s'.
Proof.
  eexists _, _. split; [reflexivity|]. split; [reflexivity|].
  destruct (keys_mirror toy_sha toy_hkdf (toy_peer false) (toy_peer true) [1] [2] _ _ eq_refl eq_refl eq_refl eq_refl eq_refl
    toy_hkdf_len eq_refl eq_refl)
    as (H1 & H2 & _). by split.
Defined.

(** ** Proofs: transport parameters *)

(** RFC 9000 section 16: the two high bits of the first byte give the length. *)
Definition varint_enc (e : list Z) (v : Z) : Prop :=
  exists c tl, e = c :: tl /\ bytes e /\ zlen e = 2 ^ (c / 64) /\ v = be_get (c mod 64 :: tl).
(** RFC 9000 section 18: identifier, length and value of a parameter. *)
Record param := Param { id_bytes : list Z; param_id : Z; size_bytes : list Z; body : list Z }.
Definition param_text (p : param) : list Z := id_bytes p ++ size_bytes p ++ body p.
Record param_ok (p : param) : Prop := {
  pk_id : varint_enc (id_bytes p) (param_id p);
  pk_size : varint_enc (size_bytes p) (zlen (body p));
  pk_encrypted : param_id p = NO_CRYPTO -> varint_enc (body p) 0
}.
Definition is_no_crypto (p : param) : bool := param_id p =? NO_CRYPTO.

Lemma varint_loop_be l v : bytes l -> 0 <= v -> (v + 1) * 256 ^ zlen l <= 2 ^ 64 ->
  varint_loop l v = fold_left (fun n b => n * 256 + b) l v.
Proof.
  intros Hb. revert v. induction Hb as [|b l Hb Hl IH]; intros v Hv Hm; [done|]. cbn [varint_loop fold_left].
  rewrite zlen_cons, Z.pow_add_r, Z.pow_1_r in Hm by (pose proof (zlen_nonneg l); lia). unfold byte in Hb.
  assert (1 <= 256 ^ zlen l) by (pose proof (Z.pow_pos_nonneg 256 (zlen l)); pose proof (zlen_nonneg l); lia).
  rewrite u64_small by (rewrite Z.shiftl_mul_pow2 by lia; unfold UINT64_MAX; nia).
  rewrite lor_shiftl_add by lia. change (2 ^ 8) with 256. apply IH; nia.
Qed.
Lemma varint_len c : byte c -> Z.shiftl 1 (Z.shiftr c 6) = 2 ^ (c / 64) /\ 1 <= 2 ^ (c / 64) <= 8.
Proof.
  unfold byte. intros Hc. rewrite Z.shiftr_div_pow2 by lia. change (2 ^ 6) with 64.
  rewrite Z.shiftl_mul_pow2 by (Z.to_euclidean_division_equations; lia). split; [lia|].
  assert (c / 64 = 0 \/ c / 64 = 1 \/ c / 64 = 2 \/ c / 64 = 3) as [->|[->|[->| ->]]] by (Z.to_euclidean_division_equations; lia); cbn; lia.
Qed.
Lemma varint_value c tl : bytes (c :: tl) -> zlen tl <= 7 -> varint_loop tl (Z.land c 63) = be_get (c mod 64 :: tl).
Proof.
  intros Hb Hl. inversion_clear Hb as [|? ? Hc Htl]. change 63 with (Z.ones 6). rewrite Z.land_ones by lia. change (2 ^ 6) with 64.
  assert (0 <= c mod 64 < 64) by (Z.to_euclidean_division_equations; lia).
  rewrite varint_loop_be; [done|done|lia|].
  assert (256 ^ zlen tl <= 256 ^ 7) by (apply Z.pow_le_mono_r; lia). change (256 ^ 7) with (2 ^ 56) in *. nia.
Qed.
Lemma quic_varint_spec b n v : bytes b ->
  quic_varint b = Some (n, v) <-> exists e rest, b = e ++ rest /\ zlen e = n /\ varint_enc e v.
Proof.
  intros Hb. split.
  - destruct b as [|c b]; [done|]. cbn [quic_varint]. inversion_clear Hb as [|? ? Hc Hb']. destruct (varint_len c Hc) as [-> Hr].
    destruct (Z.ltb_spec (zlen (c :: b)) (2 ^ (c / 64))) as [|Hle]; [done|]. intros [= <- <-]. rewrite zlen_cons in Hle.
    change (zsub 1 (2 ^ (c / 64) - 1) (c :: b)) with (ztake (2 ^ (c / 64) - 1) b). set (k := 2 ^ (c / 64)) in *.
    assert (zlen (ztake (k - 1) b) = k - 1) as Hk by (rewrite zlen_take; lia).
    exists (c :: ztake (k - 1) b), (zdrop (k - 1) b). split; [by rewrite <- app_comm_cons, ztake_zdrop|].
    split; [rewrite zlen_cons; lia|]. assert (bytes (c :: ztake (k - 1) b)) by (constructor; [done|by apply bytes_take]).
    exists c, (ztake (k - 1) b). split; [done|]. split; [done|]. split; [rewrite zlen_cons; lia|]. apply varint_value; [done|lia].
  - intros (e & rest & -> & <- & (c & tl & -> & He & Hl & ->)). inversion He as [|? ? Hc Htl]; subst.
    destruct (varint_len c Hc) as [Hs Hr]. cbn [app quic_varint]. rewrite Hs, <- Hl. rewrite zlen_cons in *.
    rewrite zlen_cons, zlen_app, (proj2 (Z.ltb_ge _ _)) by (pose proof (zlen_nonneg rest); lia).
    change (zsub 1 (1 + zlen tl - 1) (c :: tl ++ rest)) with (ztake (1 + zlen tl - 1) (tl ++ rest)).
    rewrite ztake_app_exact by lia. do 2 f_equal. apply varint_value; [done|lia].
Qed.

Lemma varint_nonempty e v : varint_enc e v -> 1 <= zlen e.
Proof. intros (c & tl & -> & _). rewrite zlen_cons. pose proof (zlen_nonneg tl). lia. Qed.
Lemma varint_bytes e v : varint_enc e v -> bytes e.
Proof. by intros (c & tl & -> & ? & _). Qed.
Lemma quic_varint_app e v rest : varint_enc e v -> bytes rest -> quic_varint (e ++ rest) = Some (zlen e, v).
Proof. intros He Hr. apply quic_varint_spec; [apply bytes_app; split; [by eapply varint_bytes|done]|]. by exists e, rest. Qed.
Definition crypto_count (ps : list param) : nat := length (List.filter is_no_crypto ps).

(** One round of the loop reads one parameter. *)
Lemma params_step fuel p rest seen : bytes (body p) -> bytes rest -> varint_enc (id_bytes p) (param_id p) ->
  varint_enc (size_bytes p) (zlen (body p)) ->
  params_loop (S fuel) (param_text p ++ rest) seen =
  if is_no_crypto p then negb seen && bool_decide (quic_varint (body p) = Some (zlen (body p), 0)) && params_loop fuel rest true
  else params_loop fuel rest seen.
Proof.
  intros Hb Hr Hi Hs. pose proof (varint_bytes _ _ Hi) as Hib. pose proof (varint_bytes _ _ Hs) as Hsb.
  unfold param_text. rewrite <- !app_assoc. cbn [params_loop]. pose proof (varint_nonempty _ _ Hi) as Hne.
  destruct (id_bytes p ++ size_bytes p ++ body p ++ rest) as [|x xs] eqn:E;
    [apply (f_equal zlen) in E; rewrite zlen_app in E; pose proof (zlen_nonneg (size_bytes p ++ body p ++ rest)); unfold zlen at 3 in E; cbn in E; lia|].
  rewrite <- E. clear x xs E.
  rewrite (quic_varint_app (id_bytes p) (param_id p)) by (try done; repeat (apply bytes_app; split); done). cbv zeta. rewrite zdrop_app_exact by done.
  rewrite (quic_varint_app (size_bytes p) (zlen (body p))) by (done || by apply bytes_app).
  rewrite zdrop_app_exact by done. rewrite zlen_app, (proj2 (Z.ltb_ge _ _)) by (pose proof (zlen_nonneg rest); lia).
  rewrite ztake_app_exact, zdrop_app_exact by done. unfold is_no_crypto. destruct (param_id p =? NO_CRYPTO); [|done].
  destruct seen; [done|]. cbn [negb andb]. destruct (quic_varint (body p)) as [[u v]|]; [|by rewrite bool_decide_false].
  destruct (Z.eqb_spec u (zlen (body p))) as [->|Hu]; cbn [negb orb]; [|rewrite bool_decide_false; [done|by intros [= ? ?]]].
  destruct (Z.eqb_spec v 0) as [->|Hv]; cbn [negb orb]; [by rewrite bool_decide_true|rewrite bool_decide_false; [done|by intros [= ?]]].
Qed.

Lemma varint_whole b : bytes b -> quic_varint b = Some (zlen b, 0) <-> varint_enc b 0.
Proof.
  intros Hb. rewrite quic_varint_spec by done. split.
  - intros (e & rest & -> & Hl & He). rewrite zlen_app in Hl. rewrite (zlen_0 rest), app_nil_r by lia. done.
  - intros He. exists b, []. by rewrite app_nil_r.
Qed.
Lemma params_sound fuel b seen : bytes b -> params_loop fuel b seen = true ->
  exists ps, b = concat (map param_text ps) /\ Forall param_ok ps /\ (crypto_count ps <= if seen then 0 else 1)%nat.
Proof.
  revert b seen; induction fuel as [|fuel IH]; intros b seen Hb H.
  { destruct b; [|done]. exists []. split; [done|]. split; [constructor|cbn; lia]. }
  destruct (decide (b = [])) as [->|Hne]; [exists []; split; [done|]; split; [constructor|cbn; lia]|].
  assert (exists p rest, b = param_text p ++ rest /\ varint_enc (id_bytes p) (param_id p) /\ varint_enc (size_bytes p) (zlen (body p))) as (p & rest & -> & Hi & Hs).
  { destruct b as [|x b]; [done|]. cbn [params_loop] in H. set (l := x :: b) in *. clearbody l.
    destruct (quic_varint l) as [[u id]|] eqn:E1; [|done]. apply quic_varint_spec in E1 as (e & r & -> & <- & He); [|done].
    apply bytes_app in Hb as [_ Hr]. cbv zeta in H. rewrite zdrop_app_exact in H by done.
    destruct (quic_varint r) as [[u size]|] eqn:E2; [|done]. apply quic_varint_spec in E2 as (e2 & r2 & -> & <- & He2); [|done].
    rewrite zdrop_app_exact in H by done. destruct (Z.ltb_spec (zlen r2) size) as [|Hle]; [done|].
    assert (0 <= size). { destruct He2 as (c & tl & -> & Hb2 & _ & ->). apply be_get_range. inversion_clear Hb2. constructor; [|done].
      unfold byte. Z.to_euclidean_division_equations; lia. }
    exists (Param e id e2 (ztake size r2)), (zdrop size r2). unfold param_text. cbn.
    rewrite <- !app_assoc, ztake_zdrop. split; [done|]. split; [done|]. by replace (zlen (ztake size r2)) with size by (rewrite zlen_take; lia). }
  apply bytes_app in Hb as [Hp Hr]. unfold param_text in Hp. apply bytes_app in Hp as [_ Hp]. apply bytes_app in Hp as [_ Hp].
  rewrite params_step in H by done. destruct (is_no_crypto p) eqn:En.
  - apply andb_true_iff in H as [H H2]. apply andb_true_iff in H as [H1 H3]. apply bool_decide_eq_true in H3. apply varint_whole in H3; [|done].
    destruct seen; [done|]. destruct (IH _ _ Hr H2) as (ps & -> & Hps & Hc). exists (p :: ps). split; [done|]. split; [by constructor|].
    unfold crypto_count in *. cbn. rewrite En. cbn. lia.
  - destruct (IH _ _ Hr H) as (ps & -> & Hps & Hc). exists (p :: ps). split; [done|]. split.
    + constructor; [|done]. split; try done. intros Hid. unfold is_no_crypto in En. by rewrite Hid in En.
    + unfold crypto_count in *. cbn. by rewrite En.
Qed.
Lemma params_complete ps fuel (seen : bool) : Forall param_ok ps -> Forall (fun p => bytes (body p)) ps ->
  (crypto_count ps <= if seen then 0 else 1)%nat -> (length ps <= fuel)%nat ->
  params_loop fuel (concat (map param_text ps)) seen = true.
Proof.
  intros Hok. revert fuel seen. induction Hok as [|p ps [Hi Hs He] Hok IH]; intros fuel seen Hb Hc Hf; [by destruct fuel|].
  inversion_clear Hb as [|? ? Hb1 Hb2]. destruct fuel as [|fuel]; [cbn in Hf; lia|]. cbn [map concat].
  assert (bytes (concat (map param_text ps))) as Hr.
  { clear IH Hc Hf. induction Hok as [|q qs [Hi' Hs' _] Hok IH]; [constructor|]. inversion_clear Hb2. cbn. apply bytes_app. split; [|by apply IH].
    unfold param_text. repeat (apply bytes_app; split); [by eapply varint_bytes..|done]. }
  rewrite params_step by done. unfold crypto_count in *. cbn in Hc, Hf. unfold is_no_crypto in *. destruct (Z.eqb_spec (param_id p) NO_CRYPTO) as [Hn|Hn].
  - destruct seen; cbn in Hc; [lia|]. cbn [negb andb]. rewrite bool_decide_true by (apply varint_whole; auto). apply IH; try done; lia.
  - apply IH; try done; lia.
Qed.

(** C30: the transport parameters are accepted exactly when they are a non-empty,
    complete sequence of parameters, at most one of which is xquic's private [no_crypto], and that
    one is spelled as the value zero: a peer that announces unencrypted packets, twice or with
    trailing bytes, is refused. *)
Theorem params_exact b : bytes b ->
  ob_transport_params_encrypted (Some b) = true <->
  exists ps, b = concat (map param_text ps) /\ ps <> [] /\ Forall param_ok ps /\ (crypto_count ps <= 1)%nat.
Proof.
  intros Hb. unfold ob_transport_params_encrypted. destruct (Z.eqb_spec (zlen b) 0) as [Hz|Hz].
  - split; [done|]. intros (ps & -> & Hne & Hok & _). destruct Hok as [|p ps [Hi _ _] _]; [done|]. exfalso.
    cbn [map concat] in Hz. rewrite zlen_app in Hz. pose proof (zlen_nonneg (concat (map param_text ps))).
    assert (1 <= zlen (param_text p)); [|lia]. unfold param_text. rewrite !zlen_app. pose proof (varint_nonempty _ _ Hi).
    pose proof (zlen_nonneg (size_bytes p)). pose proof (zlen_nonneg (body p)). lia.
  - split.
    + intros H. destruct (params_sound _ _ _ Hb H) as (ps & -> & Hok & Hc). exists ps. split; [done|]. split; [|done]. by intros ->.
    + intros (ps & -> & _ & Hok & Hc). apply params_complete; try done.
      * clear Hz Hc. induction Hok as [|p ps _ _ IH]; [constructor|]. cbn in Hb. apply bytes_app in Hb as [Hp Hb]. constructor; [|auto].
        unfold param_text in Hp. apply bytes_app in Hp as [_ Hp]. by apply bytes_app in Hp as [_ Hp].
      * clear Hz Hc Hb. induction Hok as [|p ps [Hi _ _] _ IH]; [cbn; lia|]. cbn. rewrite length_app. unfold param_text at 1. rewrite length_app.
        pose proof (varint_nonempty _ _ Hi) as Hn. unfold zlen in Hn. lia.
Qed.
Lemma params_exact_witness : ob_transport_params_encrypted (Some [1; 1; 7; 80; 0; 1; 0]) = true.
Proof.
  apply (params_exact [1; 1; 7; 80; 0; 1; 0]); [repeat constructor; lia|].
  exists [Param [1] 1 [1] [7]; Param [80; 0] NO_CRYPTO [1] [0]]. split; [reflexivity|]. split; [done|]. split; [|cbn; lia].
  repeat constructor; try (by intros [=]); try (intros _); (eexists _, _; split; [reflexivity|]; split; [repeat constructor; lia|]; split; reflexivity).
Defined.
