(* ===== verification/Certificate.v ===== *)
(** * The certificate of one attempt

    src/sdk/c/remote/peer/crypto.c: a broker makes an ephemeral key and certificate for each
    transport, in files of a private directory, because the QUIC library reads them from there;
    [retire_attempt] of peer/coordinator.c removes them.  The file system is a finite map from
    paths to entries; which call fails, and the key and certificate themselves, are arguments. *)

From stdpp Require Import gmap.
From S2P Require Import Prelude.
#[local] Open Scope Z_scope.
#[local] Arguments lit : simpl never.

(** ** Files *)

Inductive entry := Dir (mode : Z) | File (mode : Z) (content : list Z).
Abbreviation fs := (gmap (list Z) entry).
Definition under (d path : list Z) : Prop := exists q, path = d ++ 47 :: q.
Definition underb (d path : list Z) : bool := list_eqb (ztake (zlen d + 1) path) (d ++ [47]).
(** Entries live in directories that exist. *)
Definition tree (f : fs) : Prop := forall d path, under d path -> f !! path <> None -> exists mode, f !! d = Some (Dir mode).

(** [mkdtemp]: the suffix it chose, [None] when it fails; the directory is new. *)
Definition mkdtemp (suffix : option (list Z)) (template : list Z) (f : fs) : option (list Z * fs) :=
  match suffix with
  | None => None
  | Some x =>
    let d := ztake (zlen template - 6) template ++ x in
    match f !! d with Some _ => None | None => Some (d, <[d := Dir 448]> f) end
  end.
Definition st_mode (e : entry) : Z := match e with Dir m | File m _ => m end.
(** [open] with O_CREAT and O_EXCL. *)
Definition open_excl (ok : bool) (path : list Z) (f : fs) : option fs :=
  if ok && bool_decide (f !! path = None) then Some (<[path := File 384 []]> f) else None.
Definition unlink (ok : bool) (path : list Z) (f : fs) : fs :=
  match f !! path with Some (File _ _) => if ok then delete path f else f | _ => f end.
Definition empty_dir (d : list Z) (f : fs) : bool := bool_decide (filter (fun kv => underb d kv.1 = true) f = ∅).
Definition rmdir (ok : bool) (d : list Z) (f : fs) : fs :=
  match f !! d with Some (Dir _) => if ok && empty_dir d f then delete d f else f | _ => f end.
(** [snprintf] into a buffer of [n] bytes. *)
Definition snprintf (n : Z) (s : list Z) : list Z := ztake (n - 1) s.

(** ** The certificate *)

Record certificate := Certificate { c_serial : list Z; c_version : Z; c_not_before : Z; c_not_after : Z; c_name : list Z; c_key : list Z }.
(** The fields of a handle, of 1024, 1100, 1100 and 32 bytes. *)
Record cert_files := CertFiles { cert_dir : list Z; cert_path : list Z; key_path : list Z; fingerprint : list Z }.
#[export] Instance cert_eta : Eta cert_files := fun x => CertFiles (cert_dir x) (cert_path x) (key_path x) (fingerprint x).
(** What the calls answer, in their order. *)
Record cert_env := CertEnv {
  v_tmp : option (list Z); v_suffix : option (list Z); v_stat : bool; v_ctx : bool; v_cert : bool; v_init : bool; v_curve : bool; v_key : option (list Z);
  v_serial : option (list Z); v_asn : bool; v_set_serial : bool; v_version : bool; v_before : bool; v_after : bool; v_pubkey : bool;
  v_name : bool; v_issuer : bool; v_sign : bool; v_digest : option Z; v_files : bool -> bool * bool * (list Z * bool) }.
Section make.
Context (sha256 : certificate -> list Z).

(** [write_pem]: whether the file opens, whether the BIO is allocated, and the text written with
    whether that succeeded. *)
Definition write_pem (v : bool * bool * (list Z * bool)) (path : list Z) (f : fs) : Z * fs :=
  let '(opened, bio, (text, ok)) := v in
  match open_excl opened path f with
  | None => (-1, f)
  | Some f => if bio then (if ok then 0 else -1, <[path := File 384 text]> f) else (-1, f)
  end.
Definition serial_of (random : list Z) : list Z := match random with b :: l => Z.land b 127 :: l | [] => [] end.
(** Key and certificate, up to the first call that fails. *)
Definition generate (v : cert_env) : option certificate :=
  if negb (v_ctx v && v_cert v && v_init v && v_curve v) then None
  else match v_key v with
  | None => None
  | Some key =>
    match v_serial v with
    | None => None
    | Some random =>
      if v_asn v && v_set_serial v && v_version v && v_before v && v_after v && v_pubkey v && v_name v && v_issuer v && v_sign v
      then Some (Certificate (serial_of random) 2 (-60) 86400 (lit "ob-peer-ephemeral") key) else None
    end
  end.
Definition ob_make_certificate (v : cert_env) (p : cert_files) (f : fs) : Z * cert_files * fs :=
  match v_tmp v with
  | None => (-1, p, f)
  | Some tmp =>
    if (zlen tmp =? 0) || (900 <? zlen tmp) then (-1, p, f)
    else match mkdtemp (v_suffix v) (snprintf 1024 (tmp ++ lit "/ob-peer.XXXXXX")) f with
    | None => (-1, p <| cert_dir := [] |>, f)
    | Some (d, f) =>
      let p := p <| cert_dir := d |> in
      if negb (v_stat v) || match f !! d with Some e => negb (Z.land (st_mode e) 63 =? 0) | None => true end then (-1, p, f)
      else
        let p := p <| cert_path := snprintf 1100 (d ++ lit "/cert.pem") |> <| key_path := snprintf 1100 (d ++ lit "/key.pem") |> in
        match generate v with
        | None => (-1, p, f)
        | Some c =>
          match v_digest v with
          | None => (-1, p, f)
          | Some len =>
            let p := p <| fingerprint := sha256 c |> in
            if negb (len =? 32) then (-1, p, f)
            else
              let r := write_pem (v_files v true) (key_path p) f in
              if truth r.1 then (-1, p, r.2)
              else let r := write_pem (v_files v false) (cert_path p) r.2 in (if truth r.1 then -1 else 0, p, r.2)
          end
        end
    end
  end.
End make.
Definition nonempty (s : list Z) : bool := negb (zlen s =? 0).
Definition ob_certificate_cleanup (ok : Z -> bool) (p : cert_files) (f : fs) : fs :=
  let f := if nonempty (key_path p) then unlink (ok 0) (key_path p) f else f in
  let f := if nonempty (cert_path p) then unlink (ok 1) (cert_path p) f else f in
  if nonempty (cert_dir p) then rmdir (ok 2) (cert_dir p) f else f.
(** The part of [retire_attempt] that concerns the files. *)
Definition retire_files (ok : Z -> bool) (p : cert_files) (f : fs) : cert_files * fs :=
  (p <| cert_dir := [] |> <| cert_path := [] |> <| key_path := [] |>, ob_certificate_cleanup ok p f).

(** ** Nothing is left behind *)

Definition clear (p : cert_files) : Prop := cert_dir p = [] /\ cert_path p = [] /\ key_path p = [].
Definition inside (d path : list Z) : bool := list_eqb path d || underb d path.
Lemma underb_spec d path : underb d path = true <-> under d path.
Proof.
  unfold underb. rewrite list_eqb_eq. split.
  - intros E. exists (zdrop (zlen d + 1) path). rewrite <- (ztake_zdrop (zlen d + 1) path) at 1. rewrite E, <- app_assoc. done.
  - intros [q ->]. replace (d ++ 47 :: q) with ((d ++ [47]) ++ q) by (by rewrite <- app_assoc). apply ztake_app_exact. by rewrite zlen_snoc.
Qed.
Lemma inside_spec d path : inside d path = true <-> path = d \/ under d path.
Proof. unfold inside. by rewrite orb_true_iff, list_eqb_eq, underb_spec. Qed.
(** A file of a directory that exists. *)
Definition leaf (d : list Z) (name : string) : list Z := d ++ lit name.
Lemma key_under d : under d (leaf d "/key.pem").
Proof. by eexists. Qed.
Lemma cert_under d : under d (leaf d "/cert.pem").
Proof. by eexists. Qed.
Lemma app_self (d l : list Z) : l <> [] -> d ++ l <> d.
Proof. intros N E. apply (f_equal length) in E. rewrite length_app in E. destruct l; [done|cbn in E; lia]. Qed.
Lemma leaf_dir d : leaf d "/key.pem" <> d /\ leaf d "/cert.pem" <> d /\ leaf d "/key.pem" <> leaf d "/cert.pem".
Proof. split_and!; [by apply app_self..|]. intros E. by apply app_inv_head in E. Qed.

(** What a call leaves in the file system, whichever step failed: nothing, or a private directory
    with some of the two files, all under names the handle records. *)
Record made (p : cert_files) (f f' : fs) : Prop := {
  md_new : f !! cert_dir p = None;
  md_dir : f' !! cert_dir p = Some (Dir 448);
  md_outside : forall path, inside (cert_dir p) path = false -> f' !! path = f !! path;
  md_inside : forall path e, under (cert_dir p) path -> f' !! path = Some e ->
    (path = key_path p \/ path = cert_path p) /\ exists text, e = File 384 text;
  md_names : (key_path p = [] /\ cert_path p = []) \/
             (key_path p = leaf (cert_dir p) "/key.pem" /\ cert_path p = leaf (cert_dir p) "/cert.pem") }.
Lemma made_file p f f' path text : made p f f' -> path = key_path p \/ path = cert_path p -> under (cert_dir p) path ->
  made p f (<[path := File 384 text]> f').
Proof.
  intros [M1 M2 M3 M4 M5] N U. assert (path <> cert_dir p) as Nd.
  { destruct U as [q ->]. by apply app_self. }
  constructor; try done.
  - by rewrite lookup_insert_ne.
  - intros q Hq. rewrite lookup_insert_ne; [by apply M3|]. intros <-. apply underb_spec in U. unfold inside in Hq. by rewrite U, orb_true_r in Hq.
  - intros q e Hq He. destruct (decide (q = path)) as [->|D]; [|rewrite lookup_insert_ne in He by done; by apply M4].
    rewrite lookup_insert_eq in He. injection He as <-. split; [done|by eexists].
Qed.
Lemma write_made v p f f' path : made p f f' -> path = key_path p \/ path = cert_path p -> under (cert_dir p) path -> made p f (write_pem v path f').2.
Proof.
  intros M N U. destruct v as [[opened bio] [text ok]]. unfold write_pem, open_excl. destruct (_ && _); [|done].
  destruct bio; [|by apply made_file]. cbn [snd]. apply made_file; [by apply made_file|done..].
Qed.
Lemma write_done v path f : (write_pem v path f).1 = 0 -> exists text, (write_pem v path f).2 !! path = Some (File 384 text).
Proof.
  destruct v as [[opened bio] [text ok]]. unfold write_pem, open_excl. destruct (_ && _); [|done]. destruct bio; [|done]. destruct ok; [|done].
  intros _. exists text. cbn [snd]. apply lookup_insert_eq.
Qed.
Lemma write_other v path q f : q <> path -> (write_pem v path f).2 !! q = f !! q.
Proof.
  intros N. destruct v as [[opened bio] [text ok]]. unfold write_pem, open_excl. destruct (_ && _); [|done].
  destruct bio; cbn [snd]; by rewrite ?lookup_insert_ne.
Qed.
Lemma fresh_made p f d : tree f -> f !! d = None -> d <> [] -> cert_dir p = d -> key_path p = [] -> cert_path p = [] -> made p f (<[d := Dir 448]> f).
Proof.
  intros T N Nd <- K C. constructor; [done|by rewrite lookup_insert_eq| | |by left].
  - intros path Hp. rewrite lookup_insert_ne; [done|]. intros <-. unfold inside in Hp. by rewrite list_eqb_refl in Hp.
  - intros path e U He. rewrite lookup_insert_ne in He by (destruct U as [q ->]; intros E; by apply (app_self (cert_dir p) (47 :: q))).
    destruct (T _ _ U) as [m E]; [congruence|]. congruence.
Qed.
Lemma named_made p f f' d : made p f f' -> cert_dir p = d -> key_path p = [] -> cert_path p = [] ->
  (forall path, under d path -> f' !! path = None) ->
  made (p <| cert_path := leaf d "/cert.pem" |> <| key_path := leaf d "/key.pem" |>) f f'.
Proof.
  intros [M1 M2 M3 M4 M5] E K C U. subst d. constructor; cbn; try done; [|by right]. intros path e Hp He. by rewrite U in He.
Qed.
Definition suffix_ok (v : cert_env) : Prop := forall x, v_suffix v = Some x -> zlen x = 6.
Lemma snprintf_fits n s : zlen s < n -> snprintf n s = s.
Proof. intros H. apply ztake_ge. lia. Qed.
Lemma mkdtemp_new x tmp f d f1 : (forall s, x = Some s -> zlen s = 6) -> zlen tmp <= 900 ->
  mkdtemp x (snprintf 1024 (tmp ++ lit "/ob-peer.XXXXXX")) f = Some (d, f1) ->
  f !! d = None /\ f1 = <[d := Dir 448]> f /\ d <> [] /\ zlen d <= 915.
Proof.
  intros S L. rewrite snprintf_fits by (rewrite zlen_app; change (zlen (lit "/ob-peer.XXXXXX")) with 15; lia). unfold mkdtemp.
  destruct x as [x|]; [|done]. cbv zeta. rewrite zlen_app. change (zlen (lit "/ob-peer.XXXXXX")) with 15.
  set (d0 := ztake _ _ ++ x). assert (zlen d0 = zlen tmp + 9 + 6) as Ld.
  { subst d0. rewrite zlen_app, zlen_take, zlen_app, (S x eq_refl). change (zlen (lit "/ob-peer.XXXXXX")) with 15. pose proof (zlen_nonneg tmp). lia. }
  destruct (f !! d0) eqn:E; [done|]. intros [= <- <-]. split_and!; try done; [|lia]. intros Hd. rewrite Hd in Ld. change (zlen []) with 0 in Ld. pose proof (zlen_nonneg tmp). lia.
Qed.
Section outcome.
Context (sha256 : certificate -> list Z).
Lemma make_outcome v p f rc q f' : clear p -> tree f -> suffix_ok v -> ob_make_certificate sha256 v p f = (rc, q, f') ->
  (clear q /\ f' = f /\ rc <> 0) \/
  (cert_dir q <> [] /\ made q f f' /\
   (rc = 0 -> (key_path q = leaf (cert_dir q) "/key.pem" /\ cert_path q = leaf (cert_dir q) "/cert.pem") /\
     exists k c, f' !! key_path q = Some (File 384 k) /\ f' !! cert_path q = Some (File 384 c))).
Proof.
  intros (C1 & C2 & C3) T S. unfold ob_make_certificate. destruct (v_tmp v) as [tmp|]; [|intros [= <- <- <-]; by left].
  destruct (_ || _) eqn:L; [intros [= <- <- <-]; by left|]. apply orb_false_iff in L as [_ L%Z.ltb_ge].
  destruct (mkdtemp _ _ f) as [[d f1]|] eqn:Mk; [|intros [= <- <- <-]; by left].
  destruct (mkdtemp_new _ _ _ _ _ S L Mk) as (N & -> & Nd & Ld). intros Hm. right. revert Hm.
  assert (made (p <| cert_dir := d |>) f (<[d := Dir 448]> f)) as M by (by apply fresh_made).
  assert (forall path, under d path -> <[d := Dir 448]> f !! path = None) as U.
  { intros path [r ->]. rewrite lookup_insert_ne by (intros E; by apply (app_self d (47 :: r))). destruct (f !! (d ++ 47 :: r)) eqn:E; [|done].
    destruct (T d (d ++ 47 :: r)) as [m Em]; [by eexists|congruence|congruence]. }
  cbv zeta. destruct (_ || _); [intros [= <- <- <-]; by split_and!|].
  rewrite !snprintf_fits by (rewrite zlen_app; (change (zlen (lit "/cert.pem")) with 9 || change (zlen (lit "/key.pem")) with 8); lia).
  fold (leaf d "/cert.pem") (leaf d "/key.pem"). pose proof (named_made _ _ _ d M eq_refl C3 C2 U) as M2. clear M U.
  set (p2 := p <| cert_dir := d |> <| cert_path := leaf d "/cert.pem" |> <| key_path := leaf d "/key.pem" |>) in *.
  destruct (generate v) as [c|]; [|intros [= <- <- <-]; by split_and!]. destruct (v_digest v) as [len|]; [|intros [= <- <- <-]; by split_and!].
  cbv zeta. set (p3 := p2 <| fingerprint := sha256 c |>). assert (made p3 f (<[d := Dir 448]> f)) as M3 by (by destruct M2).
  destruct (negb (len =? 32)); [intros [= <- <- <-]; by split_and!|]. change (key_path p3) with (leaf d "/key.pem"). change (cert_path p3) with (leaf d "/cert.pem").
  pose proof (write_made (v_files v true) p3 f _ (leaf d "/key.pem") M3 (or_introl eq_refl) (key_under d)) as M4.
  pose proof (write_done (v_files v true) (leaf d "/key.pem") (<[d := Dir 448]> f)) as D4. destruct (write_pem (v_files v true) _ _) as [r4 f4]. cbn [fst snd] in *.
  unfold truth. destruct (Z.eqb_spec r4 0) as [->|]; cbn [negb]; [|intros [= <- <- <-]; by split_and!].
  pose proof (write_made (v_files v false) p3 f f4 (leaf d "/cert.pem") M4 (or_intror eq_refl) (cert_under d)) as M5.
  pose proof (write_done (v_files v false) (leaf d "/cert.pem") f4) as D5. pose proof (write_other (v_files v false) (leaf d "/cert.pem") (leaf d "/key.pem") f4) as O5.
  destruct (write_pem (v_files v false) _ f4) as [r5 f5]. cbn [fst snd] in *. intros [= <- <- <-]. split; [done|]. split; [done|].
  destruct (Z.eqb_spec r5 0) as [->|]; cbn [negb]; [|done]. intros _. split; [done|]. destruct (D4 eq_refl) as [k K], (D5 eq_refl) as [x X]. exists k, x.
  change (key_path p3) with (leaf d "/key.pem"). change (cert_path p3) with (leaf d "/cert.pem"). split_and!; try done. rewrite O5; [done|]. apply leaf_dir.
Qed.
Lemma unlink_lookup path f q : (forall e, f !! path = Some e -> exists m text, e = File m text) ->
  unlink true path f !! q = if list_eqb q path then None else f !! q.
Proof.
  intros H. unfold unlink. destruct (list_eqb q path) eqn:E.
  - apply list_eqb_eq in E as ->. destruct (f !! path) as [e|] eqn:L; [|done]. destruct (H e eq_refl) as (m & t & ->). by rewrite lookup_delete_eq.
  - apply list_eqb_neq in E. destruct (f !! path) as [e|] eqn:L; [|done]. destruct (H e eq_refl) as (m & t & ->). by rewrite lookup_delete_ne.
Qed.
Lemma rmdir_empty d f m : f !! d = Some (Dir m) -> (forall path, under d path -> f !! path = None) ->
  forall q, rmdir true d f !! q = if list_eqb q d then None else f !! q.
Proof.
  intros D U q. unfold rmdir. rewrite D. replace (empty_dir d f) with true.
  - cbn [andb]. destruct (list_eqb q d) eqn:E; [apply list_eqb_eq in E as ->; by rewrite lookup_delete_eq|]. apply list_eqb_neq in E. by rewrite lookup_delete_ne.
  - symmetry. apply bool_decide_eq_true, map_empty. intros path. apply map_lookup_filter_None. right. intros e L H. cbn in H. apply underb_spec in H. by rewrite U in L.
Qed.
(** Cleaning up removes the directory and all it holds, and touches nothing else. *)
Lemma cleanup_lookup p g : cert_dir p <> [] -> g !! cert_dir p = Some (Dir 448) ->
  (forall path e, under (cert_dir p) path -> g !! path = Some e -> (path = key_path p \/ path = cert_path p) /\ exists text, e = File 384 text) ->
  (key_path p = [] /\ cert_path p = []) \/ (key_path p = leaf (cert_dir p) "/key.pem" /\ cert_path p = leaf (cert_dir p) "/cert.pem") ->
  forall q, ob_certificate_cleanup (fun _ => true) p g !! q = if inside (cert_dir p) q then None else g !! q.
Proof.
  intros Nd D In Nm q. unfold ob_certificate_cleanup. cbv zeta. replace (nonempty (cert_dir p)) with true.
  2:{ unfold nonempty. destruct (Z.eqb_spec (zlen (cert_dir p)) 0) as [E|]; [by apply zlen_0 in E|done]. }
  set (f2 := if nonempty (cert_path p) then _ else _).
  assert (forall r, f2 !! r = if underb (cert_dir p) r then None else g !! r) as H2.
  { destruct Nm as [[K C]|[K C]].
    - subst f2. rewrite K, C. cbn [nonempty]. change (nonempty []) with false. cbv iota. intros r. destruct (underb (cert_dir p) r) eqn:U; [|done].
      apply underb_spec in U. destruct (g !! r) as [e|] eqn:L; [|done]. destruct (In r e U L) as [[->| ->] _]; exfalso;
        destruct U as [x X]; rewrite ?K, ?C in X; by destruct (cert_dir p).
    - subst f2. rewrite K, C in *. destruct (leaf_dir (cert_dir p)) as (N1 & N2 & N3).
      assert (forall x, nonempty (leaf (cert_dir p) x) = true \/ lit x = []) as NE.
      { intros x. unfold nonempty, leaf. destruct (Z.eqb_spec (zlen (cert_dir p ++ lit x)) 0) as [E|]; [|by left]. apply zlen_0, app_eq_nil in E as [_ E]. by right. }
      destruct (NE "/key.pem"%string) as [-> |?]; [|done]. destruct (NE "/cert.pem"%string) as [-> |?]; [|done].
      assert (forall r, unlink true (leaf (cert_dir p) "/key.pem") g !! r = if list_eqb r (leaf (cert_dir p) "/key.pem") then None else g !! r) as H1.
      { intros r. apply unlink_lookup. intros e L. destruct (In _ e (key_under _) L) as [_ [t ->]]. by exists 384, t. }
      intros r. rewrite unlink_lookup.
      2:{ intros e. rewrite H1. rewrite (proj2 (list_eqb_neq _ _)) by done. intros L. destruct (In _ e (cert_under _) L) as [_ [t ->]]. by exists 384, t. }
      rewrite H1. destruct (list_eqb r (leaf (cert_dir p) "/cert.pem")) eqn:E1.
      { apply list_eqb_eq in E1 as ->. by rewrite (proj2 (underb_spec _ _) (cert_under _)). }
      destruct (list_eqb r (leaf (cert_dir p) "/key.pem")) eqn:E2; [apply list_eqb_eq in E2 as ->; by rewrite (proj2 (underb_spec _ _) (key_under _))|].
      destruct (underb (cert_dir p) r) eqn:U; [|done]. apply underb_spec in U. destruct (g !! r) as [e|] eqn:L; [|done].
      apply list_eqb_neq in E1, E2. by destruct (In r e U L) as [[?|?] _]. }
  rewrite (rmdir_empty (cert_dir p) f2 448).
  - unfold inside. destruct (list_eqb q (cert_dir p)); [done|]. by rewrite H2.
  - rewrite H2. replace (underb (cert_dir p) (cert_dir p)) with false; [done|]. symmetry. apply not_true_iff_false. intros [x X]%underb_spec.
    by apply (app_self (cert_dir p) (47 :: x)).
  - intros path U. rewrite H2. by rewrite (proj2 (underb_spec _ _) U).
Qed.

(** C31: whichever step of making the certificate fails, and whatever happens elsewhere in the file
    system until the attempt is retired, retiring it removes the directory with everything in it,
    the private key above all, touches nothing else, and leaves the handle without names; a
    certificate that was made lies, complete, in files only their owner may read in a directory
    only its owner may enter. *)
Theorem no_key_left v p f rc q f' g : clear p -> tree f -> suffix_ok v -> ob_make_certificate sha256 v p f = (rc, q, f') ->
  (forall path, inside (cert_dir q) path = true -> g !! path = f' !! path) ->
  let r := retire_files (fun _ => true) q g in
  clear r.1 /\
  (forall path, r.2 !! path = if nonempty (cert_dir q) && inside (cert_dir q) path then None else g !! path) /\
  (forall path, nonempty (cert_dir q) && inside (cert_dir q) path = false -> f' !! path = f !! path) /\
  (rc = 0 -> f' !! cert_dir q = Some (Dir 448) /\ under (cert_dir q) (key_path q) /\ under (cert_dir q) (cert_path q) /\
     exists k c, f' !! key_path q = Some (File 384 k) /\ f' !! cert_path q = Some (File 384 c)).
Proof.
  intros C T S M G. cbv zeta. split; [done|]. cbn [retire_files snd]. apply make_outcome in M as [((C1 & C2 & C3) & -> & Hr)|(Nd & M & D)]; try done.
  - rewrite C1. change (nonempty []) with false. cbn [andb]. unfold ob_certificate_cleanup. rewrite C1, C2, C3. by split_and!.
  - replace (nonempty (cert_dir q)) with true.
    2:{ unfold nonempty. destruct (Z.eqb_spec (zlen (cert_dir q)) 0) as [E|]; [by apply zlen_0 in E|done]. }
    cbn [andb]. destruct M as [M1 M2 M3 M4 M5]. split; [|split; [done|]].
    + apply cleanup_lookup; [done| | |done].
      * rewrite G; [done|]. by apply inside_spec; left.
      * intros path e U L. rewrite G in L by (by apply inside_spec; right). by apply (M4 path e).
    + intros Hr. destruct (D Hr) as ((E1 & E2) & K). rewrite E1, E2 in *. split_and!; [done|apply key_under|apply cert_under|done].
Qed.
End outcome.

(** An example: the disk is full when the certificate is written. *)
Definition demo_fs : fs := <[lit "/tmp" := Dir 511]> {[ [] := Dir 493 ]}.
Definition demo_cert_env : cert_env :=
  CertEnv (Some (lit "/tmp")) (Some (lit "abcdef")) true true true true true (Some (lit "key")) (Some (replicate 16 200)) true true true true true true true true true
    (Some 32) (fun key => (true, true, (lit "-----BEGIN", key))).
Definition demo_sha (c : certificate) : list Z := replicate 32 1.
Definition no_files : cert_files := CertFiles [] [] [] [].
Definition demo_made : Z * cert_files * fs := ob_make_certificate demo_sha demo_cert_env no_files demo_fs.
Lemma demo_tree : tree demo_fs.
Proof.
  intros d path [q ->] H. unfold demo_fs in *. destruct (decide (d ++ 47 :: q = lit "/tmp")) as [E|N].
  - destruct d as [|a d]; [by exists 493|]. exfalso. change (lit "/tmp") with [47; 116; 109; 112] in E. do 3 (destruct d as [|? d]; [done|]). injection E as _ _ _ _ E. by destruct d.
  - rewrite lookup_insert_ne in H by done. destruct (decide (d ++ 47 :: q = [])) as [E|N2]; [by destruct d|]. by rewrite lookup_singleton_ne in H.
Qed.
Lemma no_key_left_witness :
  demo_made.1.1 = -1 /\ demo_made.2 !! lit "/tmp/ob-peer.abcdef/key.pem" = Some (File 384 (lit "-----BEGIN")) /\
  (retire_files (fun _ => true) demo_made.1.2 demo_made.2).2 !! lit "/tmp/ob-peer.abcdef/key.pem" = None.
Proof.
  split; [vm_compute; reflexivity|]. split; [vm_compute; reflexivity|].
  destruct (no_key_left demo_sha demo_cert_env no_files demo_fs demo_made.1.1 demo_made.1.2 demo_made.2 demo_made.2) as (_ & H & _).
  - done.
  - exact demo_tree.
  - by intros x [= <-].
  - vm_compute. reflexivity.
  - done.
  - rewrite H. vm_compute. reflexivity.
Defined.
