(* ===== verification/Api.v ===== *)
(** * The management API client

    src/sdk/c/remote/ob_api.c and ob_api.h: validation of tokens, identifiers and
    paths, the bounded response buffer, one HTTP request, the retry after a refreshed
    account token, and every typed endpoint.  curl and cJSON are parameters: an HTTP
    exchange is what curl delivers to the callbacks plus its result, and a JSON value
    is what cJSON returns. *)

From S2P Require Import Prelude.
From S2P Require Import Peer PeerCrypto.

(** ** Results *)

Definition OB_API_OK : Z := 0.
Definition OB_API_INVALID : Z := -1.
Definition OB_API_NOMEM : Z := -2.
Definition OB_API_TRANSPORT : Z := -3.
Definition OB_API_HTTP : Z := -4.
Definition OB_API_LIMIT : Z := -5.
Definition OB_API_JSON : Z := -6.
Definition OB_API_CRYPTO : Z := -7.
Definition OB_API_MAX_REQUEST_BYTES : Z := 256 * 1024.
Definition OB_API_MAX_RESPONSE_BYTES : Z := 1024 * 1024.
Definition OB_API_MAX_HEADER_BYTES : Z := 64 * 1024.
Definition SIZE_LIMIT : Z := 2 ^ 64 - 1.

Record ob_api_error := ApiError { ae_code : Z; http_status : Z; transport_code : Z; ae_message : list Z }.
Definition api_fail (code http : Z) (message : list Z) : ob_api_error := ApiError code http 0 (ztake 127 message).

(** ** Validation *)

Definition member (c : Z) (set : list Z) : bool := existsb (Z.eqb c) set.
Definition token_char (c : Z) : bool := alnum c || member c (lit "._~+/-=").
(** NULL is allowed: it selects the client's own token. *)
Definition token_valid (s : option (list Z)) : bool :=
  match s with None => true | Some s => (zlen s <=? 8192) && forallb token_char s end.
Definition id_valid (s : option (list Z)) : bool :=
  match s with
  | None => false
  | Some s => negb (zlen s =? 0) && (zlen s <=? 128) && forallb (fun c => alnum c || (c =? 45) || (c =? 95)) s
  end.

Fixpoint split_query (s : list Z) : list Z * option (list Z) :=
  match s with
  | [] => ([], None)
  | c :: s => if c =? 63 then ([], Some s) else let r := split_query s in (c :: r.1, r.2)
  end.
Fixpoint double_slash (p : list Z) : bool :=
  match p with
  | [] => false
  | a :: p' => match p' with b :: _ => ((a =? 47) && (b =? 47)) || double_slash p' | [] => false end
  end.
(** The segments between slashes, from [segment] on. *)
Fixpoint segments (p : list Z) : list (list Z) :=
  match p with
  | [] => [[]]
  | c :: p => if c =? 47 then [] :: segments p
              else match segments p with s :: l => (c :: s) :: l | [] => [[c]] end
  end.
Definition dots (s : list Z) : bool := list_eqb s [46] || list_eqb s [46; 46].
Definition path_char (c : Z) : bool := alnum c || member c (lit "/_-.").
Definition query_char (c : Z) : bool := alnum c || member c (lit "_-=&").
Definition path_valid (s : option (list Z)) : bool :=
  match s with
  | None => false
  | Some s =>
    if negb (list_eqb (ztake 4 s) (lit "/v1/")) || (2048 <? zlen s) then false
    else
      let (path, query) := split_query s in
      if (zlen path <=? 4) || (znth path (zlen path - 1) =? 47) then false
      else if negb (forallb path_char path) || double_slash path then false
      else if existsb dots (segments (zdrop 1 path)) then false
      else match query with
      | None => true
      | Some q => negb (zlen q =? 0) && forallb query_char q
      end
  end.
Definition text_valid (s : option (list Z)) (max : Z) (allow_empty : bool) : bool :=
  match s with None => false | Some s => (zlen s <=? max) && (allow_empty || (0 <? zlen s)) end.

(** ** The response buffer *)

Record buffer := Buffer { data : list Z; capacity : Z; headers : Z; limit : bool; nomem : bool }.
#[export] Instance eta_buffer : Eta buffer := fun b => Buffer (data b) (capacity b) (headers b) (limit b) (nomem b).
Definition used (b : buffer) : Z := zlen (data b).
Definition empty_buffer : buffer := Buffer [] 0 0 false false.

(** The doubling loop: it stops within 21 rounds since [cap] starts at 1 or more. *)
Fixpoint grow (fuel : nat) (cap wanted : Z) : Z :=
  match fuel with
  | O => cap
  | S fuel => if (cap <? wanted) && (cap <? OB_API_MAX_RESPONSE_BYTES + 1) then grow fuel (cap * 2) wanted else cap
  end.
(** [size * count] bytes arrive at [ptr]; the number accepted and the buffer.
    [realloc_ok] is the allocator's answer. *)
Definition body_write (realloc_ok : bool) (ptr : list Z) (size count : Z) (b : buffer) : Z * buffer :=
  if truth count && (SIZE_LIMIT / count <? size) then (0, b <| limit := true |>)
  else
    let n := size * count in
    if OB_API_MAX_RESPONSE_BYTES - used b <? n then (0, b <| limit := true |>)
    else
      let wanted := used b + n + 1 in
      let cap := Z.min (grow 21 (if truth (capacity b) then capacity b else 1024) wanted) (OB_API_MAX_RESPONSE_BYTES + 1) in
      if (capacity b <? wanted) && negb realloc_ok then (0, b <| nomem := true |>)
      else
        let b := if capacity b <? wanted then b <| capacity := cap |> else b in
        (n, b <| data ::= fun d => d ++ ztake n ptr |>).
Definition header_write (size count : Z) (b : buffer) : Z * buffer :=
  if truth count && (SIZE_LIMIT / count <? size) then (0, b <| limit := true |>)
  else
    let n := size * count in
    if OB_API_MAX_HEADER_BYTES - headers b <? n then (0, b <| limit := true |>)
    else (n, b <| headers ::= Z.add n |>).

(** ** One request *)

(** A JSON tree as cJSON exposes it, a node with its key, its first child and its next
    sibling; [Null] is the NULL pointer. *)
Inductive cjson := Null | Node (key : option (list Z)) (child next : cjson).
Fixpoint contains_hash (j : cjson) : bool :=
  match j with
  | Null => false
  | Node key child next =>
    match key with
    | Some k => list_eqb k (lit "password_hash") || list_eqb k (lit "passwordHash") || list_eqb k (lit "hashed_password")
    | None => false
    end || contains_hash child || contains_hash next
  end.

(** What curl does with a request: an option it refuses or a failed allocation before
    the transfer, or the deliveries to the callbacks, its result and the status. *)
Inductive delivery := BodyChunk (ok : bool) (ptr : list Z) | HeaderLine (line : list Z).
Record exchange := Exchange { deliveries : list delivery; curl_code : Z; status : Z }.
Inductive transfer := SetupNomem | SetupFailed (code : Z) | Performed (x : exchange).
Definition CURLE_OK : Z := 0.
Definition CURLE_FILESIZE_EXCEEDED : Z := 63.

Record request := Request { rq_method : list Z; rq_path : list Z; rq_bearer : option (list Z); rq_body : option (list Z) }.

Section request.
Context (parse : list Z -> option cjson).

(** The checks before curl is used: the error and the token to send. *)
Definition request_checks (tenant : option (list Z)) (r : request) : ob_api_error + option (list Z) :=
  if negb (existsb (list_eqb (rq_method r)) [lit "GET"; lit "POST"; lit "PATCH"; lit "DELETE"]) || negb (path_valid (Some (rq_path r))) ||
     (bool_decide (is_Some (rq_body r)) && list_eqb (rq_method r) (lit "GET"))
  then inl (api_fail OB_API_INVALID 0 (lit "Invalid request arguments"))
  else
    let token := match rq_bearer r with Some b => Some b | None => tenant end in
    if negb (token_valid token) then inl (api_fail OB_API_INVALID 0 (lit "Invalid bearer token"))
    else match rq_body r with
    | None => inr token
    | Some b =>
      if OB_API_MAX_REQUEST_BYTES <? zlen b then inl (api_fail OB_API_LIMIT 0 (lit "Request body limit exceeded"))
      else if bool_decide (parse b = None) then inl (api_fail OB_API_JSON 0 (lit "Invalid request JSON"))
      else inr token
    end.

(** curl feeds the callbacks until one of them refuses. *)
Fixpoint receive (ds : list delivery) (b : buffer) : buffer :=
  match ds with
  | [] => b
  | BodyChunk ok ptr :: ds =>
    let r := body_write ok ptr 1 (zlen ptr) b in if r.1 =? zlen ptr then receive ds r.2 else r.2
  | HeaderLine line :: ds =>
    let r := header_write 1 (zlen line) b in if r.1 =? zlen line then receive ds r.2 else r.2
  end.

(** What follows [curl_easy_perform]: the error if any, and the response text. *)
Definition response_checks (x : exchange) (calloc_ok : bool) : option ob_api_error * option (list Z) :=
  let b := receive (deliveries x) empty_buffer in
  let e code m := Some (api_fail code (status x) m) in
  if limit b || (curl_code x =? CURLE_FILESIZE_EXCEEDED) then (e OB_API_LIMIT (lit "Response budget exceeded"), None)
  else if nomem b then (e OB_API_NOMEM (lit "Allocation failed"), None)
  else if negb (curl_code x =? CURLE_OK) then
    (Some (ApiError OB_API_TRANSPORT (status x) (curl_code x) (lit "HTTP transport or TLS verification failed")), None)
  else
    let http := if (status x <? 200) || (300 <=? status x) then e OB_API_HTTP (lit "Control server returned an HTTP error") else None in
    if truth (used b) then
      if existsb (Z.eqb 0) (data b) then (e OB_API_JSON (lit "Invalid response JSON"), None)
      else match parse (data b) with
      | None => (e OB_API_JSON (lit "Invalid response JSON"), None)
      | Some j => if contains_hash j then (e OB_API_JSON (lit "Unsafe response fields rejected"), None) else (http, Some (data b))
      end
    else if calloc_ok then (http, Some []) else (e OB_API_NOMEM (lit "Allocation failed"), None).

(** [request_raw]: [perform] is curl; the log of requests that reached it is returned. *)
Definition request_raw (tenant : option (list Z)) (perform : request -> transfer) (calloc_ok : bool) (r : request)
    : option ob_api_error * option (list Z) * list request :=
  match request_checks tenant r with
  | inl e => (Some e, None, [])
  | inr token =>
    let sent := Request (rq_method r) (rq_path r) token (rq_body r) in
    match perform sent with
    | SetupNomem => (Some (api_fail OB_API_NOMEM 0 (lit "Allocation failed")), None, [])
    | SetupFailed cr => (Some (ApiError OB_API_TRANSPORT 0 cr (lit "HTTP transport or TLS verification failed")), None, [])
    | Performed x => (response_checks x calloc_ok, [sent])
    end
  end.

(** The account manager as this function uses it: the token it yields or the error,
    the token in its snapshot when the first answer is 401, whether a forced refresh
    succeeds, and the token it yields then. *)
Record account := Account {
  acc_token : ob_api_error + list Z; acc_current : list Z; acc_refresh : bool; acc_token2 : option (list Z) }.

(** [want_error]: the caller passed an error structure.  [perform n] is curl's answer
    to the [n]-th transfer. *)
Definition ob_api_request_cancelled (auth : option account) (tenant : option (list Z)) (want_error : bool)
    (perform : nat -> request -> transfer) (calloc_ok : bool) (r : request)
    : option ob_api_error * option (list Z) * list request :=
  match rq_bearer r, auth with
  | None, Some a =>
    match acc_token a with
    | inl e => (Some e, None, [])
    | inr token =>
      let first := request_raw tenant (perform 0%nat) calloc_ok (Request (rq_method r) (rq_path r) (Some token) (rq_body r)) in
      match first.1.1 with
      | Some e =>
        if list_eqb (rq_method r) (lit "GET") && (ae_code e =? OB_API_HTTP) && want_error && (http_status e =? 401) then
          if negb (list_eqb (acc_current a) token) || acc_refresh a then
            match acc_token2 a with
            | Some token' =>
              let again := request_raw tenant (perform 1%nat) calloc_ok (Request (rq_method r) (rq_path r) (Some token') (rq_body r)) in
              (again.1, first.2 ++ again.2)
            | None => first
            end
          else first
        else first
      | None => first
      end
    end
  | _, _ => request_raw tenant (perform 0%nat) calloc_ok r
  end.
End request.

(** [ob_api_request]: no cancel callback. *)
Definition ob_api_request := ob_api_request_cancelled.

(** ** Typed requests

    Each function validates its arguments and calls [ob_api_request] with a method, a
    path, a bearer and a body, or reports [Bad] arguments.  [printer] stands for cJSON's
    object construction and printing; [None] is a failed allocation. *)

Inductive jval := JStr (s : list Z) | JNum (n : Z) | JBool (b : bool).
Definition jobject := list (list Z * jval).
Inductive typed := Bad | NoMem | Send (r : request).
Definition bad_args : typed := Bad.
Definition GET := lit "GET".
Definition POST := lit "POST".
Definition PATCH := lit "PATCH".
Definition DELETE := lit "DELETE".
Definition braces : option (list Z) := Some (lit "{}").

(** [%llu]: the decimal digits, most significant first. *)
Fixpoint digits (fuel : nat) (n : Z) : list Z :=
  match fuel with
  | O => []
  | S fuel => (if n <? 10 then [] else digits fuel (n / 10)) ++ [48 + n mod 10]
  end.
Definition decimal (n : Z) : list Z := digits 20 n.

(** [route]: the path, or [None] for a bad id or a path that does not fit [size]. *)
Definition route (size : Z) (kind : list Z) (id : option (list Z)) (suffix : list Z) : option (list Z) :=
  if negb (id_valid id) then None
  else let p := lit "/v1/" ++ kind ++ lit "/" ++ default [] id ++ suffix in
       if zlen p <? size then Some p else None.
(** [token && *token]. *)
Definition given (token : option (list Z)) : bool := match token with Some (_ :: _) => true | _ => false end.

Section typed.
Context (printer : jobject -> option (list Z)).

Definition send_object (method path : list Z) (token : option (list Z)) (j : jobject) : typed :=
  match printer j with None => NoMem | Some body => Send (Request method path token (Some body)) end.
Definition one_string (key : list Z) (value : option (list Z)) : jobject := [(key, JStr (default [] value))].
Definition routed (kind : list Z) (id : option (list Z)) (suffix : list Z) (ok : bool) (f : list Z -> typed) : typed :=
  match route 256 kind id suffix with Some p => if ok then f p else bad_args | None => bad_args end.

Definition ob_api_tenant_register_credentials (name password email : option (list Z)) : typed :=
  if negb (text_valid name 128 false) || negb (text_valid password 72 false) || (zlen (default [] password) <? 12) ||
     (bool_decide (is_Some email) && negb (text_valid email 254 false)) then bad_args
  else send_object POST (lit "/v1/tenants/register") (Some [])
         (one_string (lit "name") name ++ one_string (lit "password") password ++
          match email with Some _ => one_string (lit "email") email | None => [] end).
Definition ob_api_tenant_login (name password : option (list Z)) : typed :=
  if negb (text_valid name 128 false) || negb (text_valid password 72 false) then bad_args
  else send_object POST (lit "/v1/tenants/login") (Some [])
         (one_string (lit "name") name ++ one_string (lit "password") password).
Definition ob_api_tenant_logout : typed := Send (Request POST (lit "/v1/tenants/logout") None braces).
Definition ob_api_account_get : typed := Send (Request GET (lit "/v1/me") None None).
Definition ob_api_account_update (name email : option (list Z)) : typed :=
  if (negb (bool_decide (is_Some name)) && negb (bool_decide (is_Some email))) ||
     (bool_decide (is_Some name) && negb (text_valid name 128 false)) ||
     (bool_decide (is_Some email) && negb (text_valid email 254 true)) then bad_args
  else send_object PATCH (lit "/v1/me") None
         (match name with Some _ => one_string (lit "name") name | None => [] end ++
          match email with Some _ => one_string (lit "email") email | None => [] end).
Definition ob_api_account_password (password : option (list Z)) : typed :=
  if negb (text_valid password 72 false) || (zlen (default [] password) <? 12) then bad_args
  else send_object POST (lit "/v1/me/password") None (one_string (lit "password") password).
Definition ob_api_capabilities : typed := Send (Request GET (lit "/v1/capabilities") None None).
Definition ob_api_usage : typed := Send (Request GET (lit "/v1/usage") None None).
Definition ob_api_broker_register (name : option (list Z)) : typed :=
  if negb (text_valid name 128 false) then bad_args
  else send_object POST (lit "/v1/brokers") None (one_string (lit "name") name).
Definition ob_api_broker_list : typed := Send (Request GET (lit "/v1/brokers") None None).
Definition ob_api_broker_get (id : option (list Z)) : typed :=
  routed (lit "brokers") id [] true (fun p => Send (Request GET p None None)).
Definition ob_api_broker_rename (id name : option (list Z)) : typed :=
  routed (lit "brokers") id [] (text_valid name 128 false) (fun p => send_object PATCH p None (one_string (lit "name") name)).
Definition ob_api_broker_delete (id : option (list Z)) : typed :=
  routed (lit "brokers") id [] true (fun p => Send (Request DELETE p None None)).
Definition ob_api_broker_token_rotate (id : option (list Z)) : typed :=
  routed (lit "brokers") id (lit "/token") true (fun p => Send (Request POST p None braces)).
Definition ob_api_broker_usage (id : option (list Z)) : typed :=
  routed (lit "brokers") id (lit "/usage") true (fun p => Send (Request GET p None None)).
Definition ob_api_broker_offline (id token : option (list Z)) : typed :=
  routed (lit "brokers") id (lit "/offline") (given token) (fun p => Send (Request POST p token braces)).
Definition ob_api_broker_heartbeat (id token : option (list Z)) : typed :=
  routed (lit "brokers") id (lit "/heartbeat") (given token) (fun p => Send (Request POST p token braces)).
Definition ob_api_broker_sessions (id token : option (list Z)) : typed :=
  routed (lit "brokers") id (lit "/sessions") (given token) (fun p => Send (Request GET p token None)).
Definition ob_api_session_create (id mode : option (list Z)) : typed :=
  if negb (id_valid id) ||
     negb (existsb (fun m => bool_decide (mode = Some m)) [lit "auto"; lit "never"; lit "force"]) then bad_args
  else send_object POST (lit "/v1/sessions") None (one_string (lit "broker_id") id ++ one_string (lit "relay_mode") mode).
Definition ob_api_session_get (id token : option (list Z)) : typed :=
  routed (lit "sessions") id [] (given token) (fun p => Send (Request GET p token None)).
Definition ob_api_session_capabilities (id token : option (list Z)) : typed :=
  routed (lit "sessions") id (lit "/capabilities") (given token) (fun p => Send (Request GET p token None)).
Definition ob_api_session_delete (id token : option (list Z)) : typed :=
  routed (lit "sessions") id [] (given token) (fun p => Send (Request DELETE p token None)).
Definition ob_api_session_heartbeat (id token : option (list Z)) : typed :=
  routed (lit "sessions") id (lit "/heartbeat") (given token) (fun p => Send (Request POST p token braces)).
Definition ob_api_session_messages (id token : option (list Z)) (after : Z) : typed :=
  routed (lit "sessions") id (lit "/messages?after=" ++ decimal after) (given token && (after <=? MAX_SAFE))
    (fun p => Send (Request GET p token None)).
Definition ob_api_session_message_send (id token : option (list Z)) (seq : Z) (text : option (list Z)) : typed :=
  routed (lit "sessions") id (lit "/messages")
    (given token && truth seq && (seq <=? MAX_SAFE) && text_valid text (32 * 1024) true)
    (fun p => send_object POST p token (one_string (lit "data") text ++ [(lit "sequence", JNum seq)])).
Definition ob_api_session_approve (id token : option (list Z)) (relay : Z) : typed :=
  routed (lit "sessions") id (lit "/approve") (given token && ((relay =? 0) || (relay =? 1)))
    (fun p => send_object POST p token [(lit "peer_authenticated", JBool true); (lit "relay", JBool (truth relay))]).
Definition ob_api_session_turn (id token : option (list Z)) : typed :=
  routed (lit "sessions") id (lit "/turn") (given token) (fun p => Send (Request POST p token braces)).
End typed.

(** ** Generated credentials and the client's origin *)

Record ob_api_credentials := Credentials { c_name : list Z; c_password : list Z }.
Definition set_at (l : list Z) (i v : Z) : list Z := ztake i l ++ [v] ++ zdrop (i + 1) l.
(** [random]: the 32 bytes of RAND_bytes, [None] when it fails. *)
Definition ob_api_credentials_generate (random : option (list Z)) : ob_api_error + ob_api_credentials :=
  match random with
  | None => inl (api_fail OB_API_CRYPTO 0 (lit "Secure random generation failed"))
  | Some r =>
    let r := set_at r 6 (Z.lor (Z.land (znth r 6) 15) 64) in
    let r := set_at r 8 (Z.lor (Z.land (znth r 8) 63) 128) in
    inr (Credentials
      (lit "tenant-" ++ ob_hex (zsub 0 4 r) ++ [45] ++ ob_hex (zsub 4 2 r) ++ [45] ++ ob_hex (zsub 6 2 r) ++ [45] ++
       ob_hex (zsub 8 2 r) ++ [45] ++ ob_hex (zsub 10 6 r))
      (ob_hex (zsub 16 16 r)))
  end.
(** The credentials stay with the caller on every outcome after they are generated. *)
Definition ob_api_tenant_register (printer : jobject -> option (list Z)) (random : option (list Z))
    : (ob_api_error + typed) * option ob_api_credentials :=
  match ob_api_credentials_generate random with
  | inl e => (inl e, None)
  | inr c => (inr (ob_api_tenant_register_credentials printer (Some (c_name c)) (Some (c_password c)) None), Some c)
  end.

(** A URL as curl takes it apart: [u_forbidden] when user, password, options, query,
    fragment or zone id is present, [u_whole] the normalised spelling. *)
Record url := Url {
  u_scheme : list Z; u_host : list Z; u_path : list Z; u_forbidden : bool; u_whole : list Z; u_port : option (list Z) }.
Record ob_api_options := ApiOptions {
  base_url : option (list Z); tenant_token : option (list Z); ca_file : option (list Z); api_timeout : Z }.
Record ob_api_client := ApiClient {
  cl_base : list Z; cl_token : option (list Z); cl_ca : option (list Z); cl_timeout : Z; cl_resolve : option (list Z) }.

Fixpoint strip_slash (l : list Z) : list Z :=
  match l with [] => [] | c :: l => if c =? 47 then strip_slash l else c :: l end.
Definition strip_slashes (l : list Z) : list Z := rev (strip_slash (rev l)).

Section client.
(** inet_pton for both families (an address in host order, sixteen bytes), curl's URL
    parser, the allocator. *)
Context (pton4 : list Z -> option Z) (pton6 : list Z -> option (list Z)).
Context (curl_url : list Z -> option url) (curl_ready alloc_ok : bool).

Definition loopback_host (host : list Z) : bool :=
  if list_eqb host (lit "localhost") then true
  else match pton4 host with
  | Some ip => Z.shiftr ip 24 =? 127
  | None => if list_eqb host (lit "[::1]") then true
            else match pton6 host with Some a => list_eqb a (replicate 15 0 ++ [1]) | None => false end
  end.
Definition origin_char (c : Z) : bool := negb ((c <=? 32) || (127 <=? c) || (c =? 37) || (c =? 92)).

Definition invalid_origin : ob_api_error :=
  api_fail OB_API_INVALID 0 (lit "Expected HTTPS origin or literal loopback HTTP origin").
Definition ob_api_client_create (o : ob_api_options) : ob_api_error + ob_api_client :=
  match base_url o with
  | None => inl (api_fail OB_API_INVALID 0 (lit "Invalid client options"))
  | Some base =>
    if (zlen base =? 0) || (2048 <? zlen base) || negb (token_valid (tenant_token o)) ||
       (api_timeout o <? 0) || (300000 <? api_timeout o)
    then inl (api_fail OB_API_INVALID 0 (lit "Invalid client options"))
    else if negb curl_ready then inl (api_fail OB_API_TRANSPORT 0 (lit "HTTP library initialization failed"))
    else match curl_url base with
    | None => inl invalid_origin
    | Some u =>
      if (negb (list_eqb (u_scheme u) (lit "https")) && negb (list_eqb (u_scheme u) (lit "http"))) ||
         negb (list_eqb (u_path u) (lit "/")) || u_forbidden u || negb (forallb origin_char (u_host u)) ||
         (list_eqb (u_scheme u) (lit "http") && negb (loopback_host (u_host u)))
      then inl invalid_origin
      else if negb alloc_ok then inl (api_fail OB_API_NOMEM 0 (lit "Allocation failed"))
      else
        let client := ApiClient (strip_slashes (u_whole u)) (tenant_token o) (ca_file o)
                        (if truth (api_timeout o) then api_timeout o else 15000) in
        if list_eqb (u_scheme u) (lit "http") && list_eqb (u_host u) (lit "localhost") then
          match u_port u with
          | None => inl invalid_origin
          | Some port => inr (client (Some (lit "localhost:" ++ port ++ lit ":127.0.0.1")))
          end
        else inr (client None)
    end
  end.
End client.

(** ** What the typed requests address

    [resource] is the intended resource of a call, as path segments below /v1 and a
    query; [scope] the credential the call is made with, [None] the account's. *)

Inductive call :=
  | TenantRegister (name password email : option (list Z)) | TenantLogin (name password : option (list Z)) | TenantLogout
  | AccountGet | AccountUpdate (name email : option (list Z)) | AccountPassword (password : option (list Z))
  | Capabilities | Usage | BrokerRegister (name : option (list Z)) | BrokerList
  | BrokerGet (id : option (list Z)) | BrokerRename (id name : option (list Z)) | BrokerDelete (id : option (list Z))
  | BrokerTokenRotate (id : option (list Z)) | BrokerUsage (id : option (list Z))
  | BrokerOffline (id token : option (list Z)) | BrokerHeartbeat (id token : option (list Z)) | BrokerSessions (id token : option (list Z))
  | SessionCreate (id mode : option (list Z)) | SessionGet (id token : option (list Z)) | SessionCapabilities (id token : option (list Z))
  | SessionDelete (id token : option (list Z)) | SessionHeartbeat (id token : option (list Z))
  | SessionMessages (id token : option (list Z)) (after : Z)
  | SessionMessageSend (id token : option (list Z)) (seq : Z) (text : option (list Z))
  | SessionApprove (id token : option (list Z)) (relay : Z) | SessionTurn (id token : option (list Z)).

Definition issue (printer : jobject -> option (list Z)) (c : call) : typed :=
  match c with
  | TenantRegister n p e => ob_api_tenant_register_credentials printer n p e
  | TenantLogin n p => ob_api_tenant_login printer n p | TenantLogout => ob_api_tenant_logout
  | AccountGet => ob_api_account_get | AccountUpdate n e => ob_api_account_update printer n e
  | AccountPassword p => ob_api_account_password printer p
  | Capabilities => ob_api_capabilities | Usage => ob_api_usage
  | BrokerRegister n => ob_api_broker_register printer n | BrokerList => ob_api_broker_list
  | BrokerGet i => ob_api_broker_get i | BrokerRename i n => ob_api_broker_rename printer i n
  | BrokerDelete i => ob_api_broker_delete i | BrokerTokenRotate i => ob_api_broker_token_rotate i
  | BrokerUsage i => ob_api_broker_usage i | BrokerOffline i t => ob_api_broker_offline i t
  | BrokerHeartbeat i t => ob_api_broker_heartbeat i t | BrokerSessions i t => ob_api_broker_sessions i t
  | SessionCreate i m => ob_api_session_create printer i m | SessionGet i t => ob_api_session_get i t
  | SessionCapabilities i t => ob_api_session_capabilities i t | SessionDelete i t => ob_api_session_delete i t
  | SessionHeartbeat i t => ob_api_session_heartbeat i t | SessionMessages i t a => ob_api_session_messages i t a
  | SessionMessageSend i t q x => ob_api_session_message_send printer i t q x
  | SessionApprove i t r => ob_api_session_approve printer i t r | SessionTurn i t => ob_api_session_turn i t
  end.

Definition resource (c : call) : list (list Z) * option (list Z) :=
  let broker i l := (lit "brokers" :: default [] i :: l, None) in
  let session i l := (lit "sessions" :: default [] i :: l, None) in
  match c with
  | TenantRegister _ _ _ => ([lit "tenants"; lit "register"], None)
  | TenantLogin _ _ => ([lit "tenants"; lit "login"], None)
  | TenantLogout => ([lit "tenants"; lit "logout"], None)
  | AccountGet | AccountUpdate _ _ => ([lit "me"], None)
  | AccountPassword _ => ([lit "me"; lit "password"], None)
  | Capabilities => ([lit "capabilities"], None) | Usage => ([lit "usage"], None)
  | BrokerRegister _ | BrokerList => ([lit "brokers"], None)
  | BrokerGet i | BrokerRename i _ | BrokerDelete i => broker i []
  | BrokerTokenRotate i => broker i [lit "token"] | BrokerUsage i => broker i [lit "usage"]
  | BrokerOffline i _ => broker i [lit "offline"] | BrokerHeartbeat i _ => broker i [lit "heartbeat"]
  | BrokerSessions i _ => broker i [lit "sessions"]
  | SessionCreate _ _ => ([lit "sessions"], None)
  | SessionGet i _ | SessionDelete i _ => session i []
  | SessionCapabilities i _ => session i [lit "capabilities"]
  | SessionHeartbeat i _ => session i [lit "heartbeat"]
  | SessionMessages i _ a => (lit "sessions" :: default [] i :: [lit "messages"], Some (lit "after=" ++ decimal a))
  | SessionMessageSend i _ _ _ => session i [lit "messages"]
  | SessionApprove i _ _ => session i [lit "approve"] | SessionTurn i _ => session i [lit "turn"]
  end.
Definition scope (c : call) : option (list Z) :=
  match c with
  | TenantRegister _ _ _ | TenantLogin _ _ => Some []
  | BrokerOffline _ t | BrokerHeartbeat _ t | BrokerSessions _ t | SessionGet _ t | SessionCapabilities _ t
  | SessionDelete _ t | SessionHeartbeat _ t | SessionMessages _ t _ | SessionMessageSend _ t _ _
  | SessionApprove _ t _ | SessionTurn _ t => t
  | _ => None
  end.

(** ** Paths *)

Definition segment_ok (s : list Z) : Prop :=
  s <> [] /\ Forall (fun c => path_char c = true /\ c <> 47) s /\ dots s = false.
Definition join (l : list (list Z)) : list Z := concat (map (fun s => 47 :: s) l).
Definition query_text (q : option (list Z)) : list Z := match q with Some q => 63 :: q | None => [] end.
Definition query_ok (q : option (list Z)) : Prop := forall t, q = Some t -> t <> [] /\ forallb query_char t = true.

Lemma path_char_63 : path_char 63 = false.
Proof. done. Qed.
Lemma split_query_app p q : Forall (fun c => path_char c = true) p -> split_query (p ++ query_text q) = (p, q).
Proof.
  induction 1 as [|c p Hc Hp IH]; [by destruct q|]. cbn [app split_query].
  destruct (Z.eqb_spec c 63) as [->|]; [by rewrite path_char_63 in Hc|]. by rewrite IH.
Qed.
Lemma segments_plain s : Forall (fun c => path_char c = true /\ c <> 47) s -> segments s = [s].
Proof.
  induction 1 as [|c s [_ Hc] Hs IH]; [done|]. cbn [segments].
  destruct (Z.eqb_spec c 47); [done|]. by rewrite IH.
Qed.
Lemma segments_slash s p : Forall (fun c => path_char c = true /\ c <> 47) s -> segments (s ++ 47 :: p) = s :: segments p.
Proof.
  induction 1 as [|c s [_ Hc] Hs IH]; [done|]. cbn [app segments].
  destruct (Z.eqb_spec c 47); [done|]. by rewrite IH.
Qed.
Lemma segments_join l s : Forall segment_ok (s :: l) -> segments (s ++ join l) = s :: l.
Proof.
  revert s. induction l as [|t l IH]; intros s H; inversion H as [|? ? [_ [Hs _]] Hl]; subst.
  - unfold join. cbn. rewrite app_nil_r. by apply segments_plain.
  - unfold join. cbn [map concat]. rewrite <- app_comm_cons, segments_slash by done. f_equal. by apply IH.
Qed.
Lemma double_slash_seg s p : Forall (fun c => path_char c = true /\ c <> 47) s -> double_slash p = false -> double_slash (s ++ p) = false.
Proof.
  induction 1 as [|c s [_ Hc] Hs IH]; [done|]. intros Hp. specialize (IH Hp). cbn [app double_slash].
  destruct (s ++ p); [done|]. rewrite IH. destruct (Z.eqb_spec c 47); done.
Qed.
Lemma double_slash_join l : Forall segment_ok l -> double_slash (join l) = false.
Proof.
  induction 1 as [|s l [Hne [Hs _]] Hl IH]; [done|]. unfold join in *. cbn [map concat app].
  destruct s as [|c s]; [done|]. pose proof (double_slash_seg (c :: s) _ Hs IH) as H.
  inversion Hs as [|? ? [_ Hc] _]; subst. cbn [app double_slash] in *. rewrite H.
  destruct (Z.eqb_spec c 47); [done|]. by rewrite andb_false_r.
Qed.
Lemma join_chars l : Forall segment_ok l -> Forall (fun c => path_char c = true) (join l).
Proof.
  induction 1 as [|s l [_ [Hs _]] Hl IH]; [constructor|]. unfold join in *. cbn [map concat app].
  constructor; [done|]. apply Forall_app. split; [|done]. revert Hs. apply Forall_impl. by intros ? [? _].
Qed.
Lemma join_last l : Forall segment_ok l -> l <> [] -> exists p c, join l = p ++ [c] /\ c <> 47.
Proof.
  induction l as [|s l _] using rev_ind; [done|]. intros H _. apply Forall_app in H as [_ H].
  inversion H as [|? ? [Hne [Hs _]] _]; subst. destruct s as [|c s _] using rev_ind; [done|].
  apply Forall_app in Hs as [_ Hs]. inversion Hs as [|? ? [_ Hc] _]; subst.
  exists (join l ++ 47 :: s), c. split; [|done]. unfold join. rewrite map_app, concat_app. cbn.
  by rewrite app_nil_r, <- !app_assoc.
Qed.

(** A path built from proper segments and a proper query is accepted, and taking it
    apart gives the same segments and query. *)
Lemma built_path l q :
  Forall segment_ok l -> l <> [] -> query_ok q ->
  let p := join (lit "v1" :: l) in
  zlen (p ++ query_text q) <= 2048 ->
  path_valid (Some (p ++ query_text q)) = true /\ split_query (p ++ query_text q) = (p, q) /\
  segments (zdrop 1 p) = lit "v1" :: l.
Proof.
  intros Hl Hne Hq p Hlen.
  assert (Forall segment_ok (lit "v1" :: l)) as Hall.
  { constructor; [|done]. split; [done|]. split; [|done]. by repeat constructor. }
  assert (split_query (p ++ query_text q) = (p, q)) as Hsplit by by apply split_query_app, join_chars.
  assert (segments (zdrop 1 p) = lit "v1" :: l) as Hseg by exact (segments_join l (lit "v1") Hall).
  split; [|done]. unfold path_valid. rewrite Hsplit, Hseg.
  assert (exists s r, l = s :: r /\ s <> []) as (s & r & -> & Hs).
  { destruct l as [|s r]; [done|]. exists s, r. by inversion Hl as [|? ? [? _] _]. }
  assert (p = lit "/v1/" ++ s ++ join r) as Hp by done.
  replace (list_eqb (ztake 4 (p ++ query_text q)) (lit "/v1/")) with true
    by (rewrite Hp, <- app_assoc, ztake_app_exact by done; done).
  destruct (Z.ltb_spec 2048 (zlen (p ++ query_text q))); [lia|]. cbn [negb orb].
  destruct (join_last (lit "v1" :: s :: r) Hall ltac:(done)) as (p' & c & Hpc & Hc). fold p in Hpc.
  assert (4 < zlen p).
  { rewrite Hp, !zlen_app. change (zlen (lit "/v1/")) with 4. pose proof (zlen_nonneg (join r)).
    destruct s; [done|]. rewrite zlen_cons. pose proof (zlen_nonneg s). lia. }
  destruct (Z.leb_spec (zlen p) 4); [lia|].
  replace (znth p (zlen p - 1)) with c.
  2:{ rewrite Hpc, zlen_snoc. unfold znth, zget. pose proof (zlen_nonneg p').
      replace (0 <=? zlen p' + 1 - 1) with true by lia. rewrite lookup_app_r by (unfold zlen; lia).
      replace (Z.to_nat (zlen p' + 1 - 1) - length p')%nat with 0%nat by (unfold zlen; lia). done. }
  destruct (Z.eqb_spec c 47); [done|]. cbn [orb].
  replace (forallb path_char p) with true
    by (symmetry; apply forallb_forall; intros x Hx; by apply (proj1 (Forall_forall _ _) (join_chars _ Hall))).
  replace (double_slash p) with false by (symmetry; exact (double_slash_join _ Hall)). cbn [negb orb].
  replace (existsb dots (lit "v1" :: s :: r)) with false.
  2:{ symmetry. apply not_true_iff_false. intros (x & Hx & Hd)%existsb_exists.
      by destruct (proj1 (Forall_forall _ _) Hall x Hx) as (_ & _ & ?); rewrite Hd in *. }
  destruct q as [t|]; [|done]. destruct (Hq t eq_refl) as [Ht ->].
  destruct t; [done|]. rewrite zlen_cons. pose proof (zlen_nonneg t). by destruct (Z.eqb_spec (1 + zlen t) 0); [lia|].
Qed.

Lemma id_segment id : id_valid (Some id) = true -> segment_ok id.
Proof.
  unfold id_valid. intros H. bools. rewrite forallb_forall in *.
  assert (Forall (fun c => (alnum c || (c =? 45) || (c =? 95)) = true) id) as Hc
    by (apply Forall_forall; intros; by apply H0).
  split; [by intros ->|]. split.
  - revert Hc. apply Forall_impl. intros c Hc. unfold path_char, member. cbn.
    destruct (alnum c) eqn:E; [split; [done|]|]; [intros ->; done|].
    cbn in Hc. destruct (Z.eqb_spec c 45) as [->|]; [done|]. cbn in Hc. by apply Z.eqb_eq in Hc as ->.
  - unfold dots. apply orb_false_iff. split; apply list_eqb_neq; intros ->; by inversion Hc.
Qed.
Lemma digits_spec fuel n :
  0 <= n -> Forall (fun c => 48 <= c <= 57) (digits fuel n) /\ (length (digits fuel n) <= fuel)%nat /\ (fuel <> 0%nat -> digits fuel n <> []).
Proof.
  revert n. induction fuel as [|fuel IH]; intros n Hn; [by repeat constructor|]. cbn [digits].
  pose proof (Z.mod_pos_bound n 10 ltac:(lia)). pose proof (Z.div_pos n 10 Hn ltac:(lia)).
  destruct (IH (n / 10) ltac:(done)) as (H1 & H2 & _).
  split; [|split].
  - apply Forall_app. split; [by destruct (n <? 10); [constructor|]|]. constructor; [lia|constructor].
  - rewrite length_app. destruct (n <? 10); cbn; lia.
  - intros _. by destruct (if n <? 10 then [] else digits fuel (n / 10)).
Qed.
Lemma decimal_query n : 0 <= n -> query_ok (Some (lit "after=" ++ decimal n)).
Proof.
  intros Hn t Ht. assert (t = lit "after=" ++ decimal n) as -> by congruence. split; [done|]. rewrite forallb_app. apply andb_true_iff. split; [done|].
  apply forallb_forall. intros c Hc. destruct (digits_spec 20 n Hn) as (H & _ & _).
  assert (48 <= c <= 57) by exact (proj1 (Forall_forall _ _) H c Hc). unfold query_char, alnum.
  by replace ((48 <=? c) && (c <=? 57)) with true by lia.
Qed.

(** The request of a call addresses its resource. *)
Definition addresses (c : call) (r : request) : Prop :=
  path_valid (Some (rq_path r)) = true /\
  (exists p, split_query (rq_path r) = (p, (resource c).2) /\ segments (zdrop 1 p) = lit "v1" :: (resource c).1) /\
  rq_bearer r = scope c /\ (rq_method r = GET -> rq_body r = None).

Definition suffix_of (l : list (list Z)) (q : option (list Z)) : list Z := join l ++ query_text q.
Lemma routed_addresses kind id suffix ok f l q r :
  Forall segment_ok (kind :: l) -> query_ok q -> suffix = suffix_of l q ->
  routed kind id suffix ok f = Send r ->
  exists p, f p = Send r /\ ok = true /\ path_valid (Some p) = true /\
    exists p', split_query p = (p', q) /\ segments (zdrop 1 p') = lit "v1" :: kind :: default [] id :: l.
Proof.
  intros Hl Hq -> H. unfold routed, route in H.
  destruct id as [id|]; [|done]. destruct (id_valid (Some id)) eqn:Hid; [|done]. cbn [negb default] in H.
  match type of H with context [if zlen ?p <? 256 then _ else _] => set (path := p) in H; destruct (Z.ltb_spec (zlen path) 256); [|done] end.
  destruct ok; [|done]. exists path. split; [done|]. split; [done|].
  inversion Hl as [|? ? Hk Hl']; subst.
  assert (path = join (lit "v1" :: kind :: id :: l) ++ query_text q) as Hp.
  { subst path. unfold suffix_of, join. cbn [map concat]. change (47 :: lit "v1") with (lit "/v1").
    change (lit "/v1/") with (lit "/v1" ++ [47]). rewrite <- !app_assoc. cbn [app]. by rewrite <- ?app_assoc. }
  rewrite Hp. destruct (built_path (kind :: id :: l) q) as (? & ? & ?); [|done|done|rewrite <- Hp; lia|].
  { constructor; [done|]. constructor; [by apply id_segment|done]. }
  split; [done|]. by exists (join (lit "v1" :: kind :: id :: l)).
Qed.
Lemma send_object_Send printer m p t j r :
  send_object printer m p t j = Send r -> exists b, r = Request m p t (Some b).
Proof. unfold send_object. destruct (printer j) as [b|]; [|done]. intros [= <-]. by exists b. Qed.

Definition uint_args (c : call) : Prop := match c with SessionMessages _ _ after => 0 <= after | _ => True end.

Lemma addresses_intro c r p :
  rq_path r = p -> path_valid (Some p) = true ->
  (exists p', split_query p = (p', (resource c).2) /\ segments (zdrop 1 p') = lit "v1" :: (resource c).1) ->
  rq_bearer r = scope c -> (rq_method r = GET -> rq_body r = None) -> addresses c r.
Proof. intros <- ? ? ? ?. by split; [|split]. Qed.

(** Unfold the function of a call. *)
Ltac unfold_call :=
  match goal with H : ?t = Send _ |- _ =>
    let rec hd x := lazymatch x with ?f _ => hd f | _ => x end in
    let h := hd t in unfold h in H end.
(** A call with a fixed path: evaluation decides everything about the path. *)
Ltac fixed_path :=
  lazymatch goal with
  | H : (if _ then bad_args else _) = Send _ |- _ => case_match; [done|]; fixed_path
  | H : send_object _ _ _ _ _ = Send _ |- _ => apply send_object_Send in H as [? ->]; fixed_path
  | H : Send _ = Send _ |- _ => injection H as <-; fixed_path
  | _ => eapply addresses_intro; [reflexivity|vm_compute; reflexivity|eexists; split; vm_compute; reflexivity|done|done]
  end.
(** A call below an identifier; [l] and [q] are the rest of the path and the query. *)
Ltac identified_path l q :=
  unfold_call;
  match goal with H : _ = Send _ |- _ =>
    eapply (routed_addresses _ _ _ _ _ l q) in H;
      [|by repeat constructor|try (by intros ? ?); by apply decimal_query|reflexivity] end;
  match goal with H : exists p, _ |- _ => destruct H as (? & H & ? & ? & ?) end;
  first [match goal with H : send_object _ _ _ _ _ = Send _ |- _ => apply send_object_Send in H as [? ->] end
        |match goal with H : Send _ = Send _ |- _ => injection H as <- end];
  eapply addresses_intro; done.

(** C34: every typed request that is sent asks for exactly the resource of its call, with a
    path the generic request accepts: whatever identifier, name or text the caller supplies,
    the path splits into /v1, the fixed segments and the identifier as one segment, the query
    is the one of the call, the credential is the scoped one (or none for registration and
    login, or the account's), and no GET carries a body. *)
Theorem typed_requests printer c r : uint_args c -> issue printer c = Send r -> addresses c r.
Proof.
  intros Hu H. destruct c; cbn [issue] in H.
  1-10: unfold_call; fixed_path.
  9: unfold_call; fixed_path.
  1-3: identified_path (@nil (list Z)) (@None (list Z)).
  - identified_path [lit "token"] (@None (list Z)).
  - identified_path [lit "usage"] (@None (list Z)).
  - identified_path [lit "offline"] (@None (list Z)).
  - identified_path [lit "heartbeat"] (@None (list Z)).
  - identified_path [lit "sessions"] (@None (list Z)).
  - identified_path (@nil (list Z)) (@None (list Z)).
  - identified_path [lit "capabilities"] (@None (list Z)).
  - identified_path (@nil (list Z)) (@None (list Z)).
  - identified_path [lit "heartbeat"] (@None (list Z)).
  - identified_path [lit "messages"] (Some (lit "after=" ++ decimal after)).
  - identified_path [lit "messages"] (@None (list Z)).
  - identified_path [lit "approve"] (@None (list Z)).
  - identified_path [lit "turn"] (@None (list Z)).
Qed.
Lemma typed_requests_witness :
  exists r, issue (fun _ => None) (SessionMessages (Some (lit "a-1")) (Some (lit "t")) 17) = Send r /\
    rq_path r = lit "/v1/sessions/a-1/messages?after=17" /\
    addresses (SessionMessages (Some (lit "a-1")) (Some (lit "t")) 17) r.
Proof.
  eexists. split; [vm_compute; reflexivity|]. split; [reflexivity|].
  apply (typed_requests (fun _ => None)); [cbn; lia|vm_compute; reflexivity].
Defined.

(** ** The response buffer is bounded *)

Definition bodies (ds : list delivery) : list Z :=
  concat (map (fun d => match d with BodyChunk _ ptr => ptr | HeaderLine _ => [] end) ds).
Definition buffer_ok (b : buffer) : Prop :=
  (capacity b = 0 /\ data b = [] \/ 1024 <= capacity b <= OB_API_MAX_RESPONSE_BYTES + 1 /\ used b + 1 <= capacity b) /\
  0 <= headers b <= OB_API_MAX_HEADER_BYTES.

Lemma grow_enough fuel cap wanted :
  0 < cap -> wanted <= OB_API_MAX_RESPONSE_BYTES + 1 -> OB_API_MAX_RESPONSE_BYTES + 1 <= cap * 2 ^ Z.of_nat fuel ->
  cap <= grow fuel cap wanted /\ wanted <= Z.min (grow fuel cap wanted) (OB_API_MAX_RESPONSE_BYTES + 1).
Proof.
  revert cap. induction fuel as [|fuel IH]; intros cap Hc Hw Hf; cbn [grow].
  - change (2 ^ Z.of_nat 0) with 1 in Hf. lia.
  - destruct (Z.ltb_spec cap wanted), (Z.ltb_spec cap (OB_API_MAX_RESPONSE_BYTES + 1)); cbn [andb]; try lia.
    rewrite Nat2Z.inj_succ, Z.pow_succ_r in Hf by lia.
    destruct (IH (cap * 2)); lia.
Qed.
Lemma body_write_ok ok ptr b :
  buffer_ok b -> let r := body_write ok ptr 1 (zlen ptr) b in
  buffer_ok r.2 /\ (r.1 = zlen ptr -> limit r.2 = limit b -> nomem r.2 = nomem b -> data r.2 = data b ++ ptr) /\
  (r.1 <> zlen ptr -> limit r.2 = true \/ nomem r.2 = true).
Proof.
  intros [Hb Hh]. unfold body_write. pose proof (zlen_nonneg ptr). set (MAX := OB_API_MAX_RESPONSE_BYTES) in *.
  destruct (truth (zlen ptr) && (SIZE_LIMIT / zlen ptr <? 1)) eqn:E1.
  { cbn. split; [done|]. split; [|by left].
    intros Hz. rewrite <- Hz in E1. done. }
  rewrite Z.mul_1_l. destruct (Z.ltb_spec (MAX - used b) (zlen ptr)) as [Hn|Hn].
  { cbn. split; [done|]. split; [|by left]. intros Hz. exfalso.
    destruct Hb as [[_ Hb]|[? ?]]; unfold used in Hn; [rewrite Hb, zlen_nil in Hn|fold (used b) in Hn]; revert Hn;
      unfold MAX, OB_API_MAX_RESPONSE_BYTES in *; lia. }
  set (start := if truth (capacity b) then capacity b else 1024).
  assert (1024 <= start) as Hstart.
  { subst start. destruct Hb as [[-> _]|[? _]]; [done|]. unfold truth. by destruct (Z.eqb_spec (capacity b) 0); [lia|cbn; lia]. }
  assert (0 <= used b) by apply zlen_nonneg.
  destruct (grow_enough 21 start (used b + zlen ptr + 1)) as [Hg1 Hg2];
    [lia|fold MAX; lia|fold MAX; change (2 ^ Z.of_nat 21) with 2097152; unfold MAX, OB_API_MAX_RESPONSE_BYTES; lia|].
  fold MAX in Hg2. destruct (Z.ltb_spec (capacity b) (used b + zlen ptr + 1)) as [Hc|Hc]; [destruct ok|]; cbn [negb andb].
  2:{ cbn. split; [done|]. split; [|by right]. intros Hz Hl Hm. rewrite <- Hz in *.
      assert (ptr = []) as -> by (by apply zlen_0). by rewrite app_nil_r. }
  all: split; [|split; [intros; cbn; by rewrite ztake_ge by lia|done]].
  all: split; [right|done]; unfold used in *; cbn -[grow Z.min Z.add Z.le OB_API_MAX_RESPONSE_BYTES]; rewrite zlen_app, zlen_take; fold MAX.
  - subst start. unfold MAX, OB_API_MAX_RESPONSE_BYTES in *. lia.
  - destruct Hb as [[Hb _]|[? ?]]; [pose proof (zlen_nonneg (data b))|]; unfold MAX, OB_API_MAX_RESPONSE_BYTES in *; lia.
Qed.
Lemma header_write_ok (line : list Z) b :
  buffer_ok b -> let r := header_write 1 (zlen line) b in
  buffer_ok r.2 /\ data r.2 = data b /\ nomem r.2 = nomem b /\
  (r.1 <> zlen line -> limit r.2 = true).
Proof.
  intros [Hb [Hh1 Hh2]]. unfold header_write. pose proof (zlen_nonneg line).
  destruct (truth (zlen line) && (SIZE_LIMIT / zlen line <? 1)); [done|].
  rewrite Z.mul_1_l. destruct (Z.ltb_spec (OB_API_MAX_HEADER_BYTES - headers b) (zlen line)); [done|].
  split; [|done]. split; [exact Hb|]. cbn -[OB_API_MAX_HEADER_BYTES Z.add Z.le]. lia.
Qed.
(** The flags only go up. *)
Lemma flags_up d b : (limit b = true -> limit (receive [d] b) = true) /\ (nomem b = true -> nomem (receive [d] b) = true).
Proof.
  destruct d as [ok ptr|line]; cbn [receive].
  - unfold body_write. repeat case_match; done.
  - unfold header_write. repeat case_match; done.
Qed.
Lemma receive_cons d ds b :
  exists b', receive [d] b = b' /\ (receive (d :: ds) b = b' \/ receive (d :: ds) b = receive ds b').
Proof. eexists; split; [done|]. destruct d; cbn [receive]; case_match; auto. Qed.
Lemma receive_flags ds b : (limit b = true -> limit (receive ds b) = true) /\ (nomem b = true -> nomem (receive ds b) = true).
Proof.
  revert b. induction ds as [|d ds IH]; intros b; [done|].
  destruct (receive_cons d ds b) as (b2 & <- & Hc); destruct Hc as [Hc|Hc]; rewrite Hc; [apply flags_up|].
  destruct (flags_up d b), (IH (receive [d] b)). tauto.
Qed.
Lemma receive_ok ds b :
  buffer_ok b -> buffer_ok (receive ds b) /\
  (limit (receive ds b) = false -> nomem (receive ds b) = false -> data (receive ds b) = data b ++ bodies ds).
Proof.
  revert b. induction ds as [|d ds IH]; intros b Hb; [by rewrite app_nil_r|].
  destruct (receive_flags (d :: ds) b) as [Fl Fn].
  destruct d as [ok ptr|line]; cbn [receive] in *; cbv zeta in *.
  - destruct (body_write_ok ok ptr b Hb) as (H1 & H2 & H3).
    set (r := body_write ok ptr 1 (zlen ptr) b) in *.
    destruct (Z.eqb_spec r.1 (zlen ptr)) as [He|He].
    + destruct (IH r.2 H1) as [H4 H5]. split; [done|]. intros Hl Hn. rewrite H5 by done.
      destruct (receive_flags ds r.2) as [Gl Gn].
      rewrite H2; [unfold bodies; cbn [map concat]; by rewrite app_assoc|done| |].
      * destruct (limit r.2); [by rewrite Gl in Hl|]. destruct (limit b); [by rewrite Fl in Hl|done].
      * destruct (nomem r.2); [by rewrite Gn in Hn|]. destruct (nomem b); [by rewrite Fn in Hn|done].
    + split; [done|]. intros Hl Hn. destruct (H3 He); congruence.
  - destruct (header_write_ok line b Hb) as (H1 & H2 & H3 & H4).
    set (r := header_write 1 (zlen line) b) in *.
    destruct (Z.eqb_spec r.1 (zlen line)) as [He|He].
    + destruct (IH r.2 H1) as [H5 H6]. split; [done|]. intros Hl Hn. by rewrite H6, H2.
    + split; [done|]. intros Hl Hn. by rewrite H4 in Hl.
Qed.
Lemma empty_buffer_ok : buffer_ok empty_buffer.
Proof. split; [by left|done]. Qed.

(** Whatever the server sends, in whatever pieces, the receive buffer holds the bytes
    accepted and their terminator within a capacity of at most 1 MiB plus one, the headers
    stay below 64 KiB, and a response text that is returned is the whole body: without a NUL
    byte, complete JSON when not empty, and free of password-hash members. *)
Theorem response_bounded parse x calloc_ok :
  let b := receive (deliveries x) empty_buffer in
  buffer_ok b /\
  match (response_checks parse x calloc_ok).2 with
  | Some t => t = bodies (deliveries x) /\ zlen t <= OB_API_MAX_RESPONSE_BYTES /\ curl_code x = CURLE_OK /\
      (t <> [] -> ~ In 0 t /\ exists j, parse t = Some j /\ contains_hash j = false)
  | None => exists e, (response_checks parse x calloc_ok).1 = Some e /\ ae_code e <> OB_API_OK
  end.
Proof.
  intros b. destruct (receive_ok (deliveries x) empty_buffer empty_buffer_ok) as [Hok Hdata].
  fold b in Hok, Hdata. split; [done|]. unfold response_checks. fold b.
  destruct (limit b || (curl_code x =? CURLE_FILESIZE_EXCEEDED)) eqn:E1; [by eexists|].
  destruct (nomem b) eqn:E2; [by eexists|].
  destruct (negb (curl_code x =? CURLE_OK)) eqn:E3; [by eexists|]. bools.
  assert (data b = bodies (deliveries x)) as Hd by (by rewrite Hdata).
  assert (zlen (data b) <= OB_API_MAX_RESPONSE_BYTES).
  { destruct Hok as [[[_ ->]|[? ?]] _]; [done|]. unfold used in *. lia. }
  destruct (truth (used b)) eqn:E4.
  - destruct (existsb (Z.eqb 0) (data b)) eqn:E5; [by eexists|].
    destruct (parse (data b)) as [j|] eqn:E6; [|by eexists].
    destruct (contains_hash j) eqn:E7; [by eexists|]. cbn [fst snd]. split; [done|]. split; [done|]. split; [done|].
    intros _. split; [|by exists j]. intros Hin. apply not_true_iff_false in E5. apply E5.
    apply existsb_exists. by exists 0.
  - destruct calloc_ok; [|by eexists]. cbn [fst snd].
    assert (data b = []) as Hnil.
    { unfold truth in E4. bools. by apply zlen_0. }
    rewrite <- Hd, Hnil. split; [done|]. split; [by cbn|]. split; [done|]. by intros [].
Qed.

(** A request reaches the server at most twice, and only as a GET made with the account's
    own token is it ever repeated: any other method, and any request made with an explicit
    (scoped) bearer, is sent at most once.  What is sent has the caller's method, path and
    body, and an explicit bearer is never replaced. *)
Theorem no_replay parse auth tenant want_error perform calloc_ok r :
  let log := (ob_api_request parse auth tenant want_error perform calloc_ok r).2 in
  (length log <= 2)%nat /\
  (rq_method r <> GET \/ rq_bearer r <> None -> (length log <= 1)%nat) /\
  Forall (fun s => rq_method s = rq_method r /\ rq_path s = rq_path r /\ rq_body s = rq_body r /\
                   (rq_bearer r <> None -> rq_bearer s = rq_bearer r)) log.
Proof.
  assert (forall p q, let l := (request_raw parse tenant p calloc_ok q).2 in
    (length l <= 1)%nat /\ Forall (fun s => rq_method s = rq_method q /\ rq_path s = rq_path q /\ rq_body s = rq_body q /\
      (rq_bearer q <> None -> rq_bearer s = rq_bearer q)) l) as Hraw.
  { intros p q. unfold request_raw. destruct (request_checks parse tenant q) as [e|tok] eqn:E; [split; [cbn; lia|constructor]|].
    destruct (p _); cbn; (split; [lia|]); repeat constructor. cbn. intros Hb. unfold request_checks in E.
    destruct (rq_bearer q); [|done]. repeat case_match; congruence. }
  intros log. subst log. unfold ob_api_request, ob_api_request_cancelled.
  destruct (rq_bearer r) as [br|] eqn:Hb.
  { destruct (Hraw (perform 0%nat) r) as [H1 H2]. rewrite Hb in H2. destruct auth; (split; [lia|]); done. }
  destruct auth as [a|].
  2:{ destruct (Hraw (perform 0%nat) r) as [H1 H2]. rewrite Hb in H2. by split; [lia|]. }
  destruct (acc_token a) as [e|token]; [split; [cbn; lia|]; split; [cbn; lia|constructor]|].
  set (first := request_raw _ _ _ _ _).
  destruct (Hraw (perform 0%nat) (Request (rq_method r) (rq_path r) (Some token) (rq_body r))) as [H1 H2]. fold first in H1, H2.
  assert (Forall (fun s => rq_method s = rq_method r /\ rq_path s = rq_path r /\ rq_body s = rq_body r /\
     (@None (list Z) <> None -> rq_bearer s = None)) first.2) as H3.
  { revert H2. apply Forall_impl. cbn. intros s (? & ? & ? & _). by split_and!. }
  assert ((length first.2 <= 2)%nat /\ (rq_method r <> GET \/ @None (list Z) <> None -> (length first.2 <= 1)%nat)) as H4 by (split; lia).
  destruct H4 as [H4 H4'].
  destruct first.1.1 as [e|]; [|done].
  destruct (list_eqb (rq_method r) (lit "GET") && _ && _ && _) eqn:Hget; [|done].
  destruct (negb _ || _); [|done]. destruct (acc_token2 a) as [token'|]; [|done].
  destruct (Hraw (perform 1%nat) (Request (rq_method r) (rq_path r) (Some token') (rq_body r))) as [H5 H6].
  cbn [snd]. split; [rewrite length_app; lia|]. split.
  - intros [Hm|Hm]; [|done]. bools. done.
  - apply Forall_app. split; [done|]. revert H6. apply Forall_impl. cbn. intros s (? & ? & ? & _). by split_and!.
Qed.
