(* ===== verification/Coordinator.v ===== *)
(** * The connection coordinator

    src/sdk/c/remote/peer/coordinator.c: the thread that opens control sessions, paces
    the attempts and restarts the transport of one handle.  The answers of the control
    server, the random bytes and the clock are arguments; every request that is sent is
    recorded. *)

From Stdlib Require Import QArith Qround.
From S2P Require Import Prelude.
From S2P Require Import Peer PeerCrypto Api.
#[local] Open Scope Z_scope.
#[local] Arguments lit : simpl never.

(** ** Replies as cJSON returns them *)

(** A number is the rational its double stands for. *)
Inductive jvalue := Jstring (s : list Z) | Jnumber (v : Q) | Jother.
Definition reply := list (list Z * jvalue).
Fixpoint item (j : reply) (key : list Z) : option jvalue :=
  match j with [] => None | (k, v) :: j => if list_eqb k key then Some v else item j key end.
Definition text (j : option reply) (key : list Z) : option (list Z) :=
  match j ≫= fun j => item j key with Some (Jstring s) => Some s | _ => None end.
Definition integer (j : option reply) (key : list Z) : option Z :=
  match j ≫= fun j => item j key with
  | Some (Jnumber v) =>
    if negb (Qle_bool 0 v) || negb (Qle_bool v (inject_Z MAX_SAFE)) then None
    else let n := Qfloor v in if Qeq_bool (inject_Z n) v then Some n else None
  | _ => None
  end.

(** [random]: sixteen bytes, [None] when RAND_bytes fails. *)
Definition uuid (random : option (list Z)) : option (list Z) :=
  match random with
  | None => None
  | Some b =>
    let b := set_at b 6 (Z.lor (Z.land (znth b 6) 15) 64) in
    let b := set_at b 8 (Z.lor (Z.land (znth b 8) 63) 128) in
    let raw := ob_hex b in
    Some (zsub 0 8 raw ++ [45] ++ zsub 8 4 raw ++ [45] ++ zsub 12 4 raw ++ [45] ++ zsub 16 4 raw ++ [45] ++ zsub 20 12 raw)
  end.

Definition request_cancel (now : Z) (p : ob_remote_peer) : bool := stop p || (deadline_us p <=? now).

Definition api_failure (e : ob_api_error) : ob_remote_error :=
  let c := ae_code e in
  ob_error (if c =? OB_API_NOMEM then OB_REMOTE_ENOMEM else if c =? OB_API_JSON then OB_REMOTE_EPROTOCOL
            else if c =? OB_API_LIMIT then OB_REMOTE_ELIMIT else if c =? OB_API_INVALID then OB_REMOTE_EINVAL
            else if c =? OB_API_CRYPTO then OB_REMOTE_EAUTH else OB_REMOTE_EHTTP) (http_status e) (Some (ae_message e)).
Definition retryable (e : ob_remote_error) : bool :=
  (e_code e =? OB_REMOTE_EICE) || (e_code e =? OB_REMOTE_EQUIC) || (e_code e =? OB_REMOTE_ETIMEOUT) || (e_code e =? OB_REMOTE_EIO) ||
  ((e_code e =? OB_REMOTE_EHTTP) && (negb (truth (e_http e)) || (e_http e =? 409) || (e_http e =? 429) || (500 <=? e_http e))).

(** ** Opening a session *)

(** An answer: the error of the request, if any, and the reply that parsed. *)
Definition answer := (option ob_api_error * option reply)%type.
Definition post := (list Z * jobject)%type.
(** What the surroundings contribute to one call. *)
Record session_env := SessionEnv {
  status_answer : answer; random1 : option (list Z); random2 : option (list Z); random_token : option (list Z);
  body_ok : bool; print_ok : bool; copy_ok : bool;
  send : nat -> post -> answer; has_auth : bool; refresh_ok : bool; now_cancel : Z }.

Definition relay_text (relay : Z) : list Z :=
  if relay =? OB_REMOTE_RELAY_FORCE then lit "force" else if relay =? OB_REMOTE_RELAY_NEVER then lit "never" else lit "auto".
(** The request that proposes a session; adding a member to the body is taken to succeed once the
    body was created. *)
Definition session_post (p : ob_remote_peer) : post :=
  let body := one_string (lit "broker_id") (Some (broker_id p)) ++ one_string (lit "relay_mode") (Some (relay_text (relay p))) in
  if control_managed p then
    (lit "/v1/connections/" ++ connection_id p ++ lit "/session",
     body ++ (lit "expected_generation", JNum (control_generation p)) ::
     one_string (lit "request_id") (Some (request_id p)) ++ one_string (lit "session_token") (Some (requested_session_token p)))
  else (lit "/v1/sessions", body).

Definition discover (env : session_env) (p : ob_remote_peer) : ob_remote_error + ob_remote_peer :=
  if control_discovered p then inr p
  else match (status_answer env).1 with
  | Some e =>
    if http_status e =? 404 then inr (p <| control_discovered := true |>) else inl (api_failure e)
  | None =>
    let p := if bool_decide (integer (status_answer env).2 (lit "connection_recovery_version") = Some 1)
             then p <| control_managed := true |> else p in
    inr (p <| control_discovered := true |>)
  end.
(** The identifiers and the token of the transaction; the handle even when it fails. *)
Definition propose (env : session_env) (p : ob_remote_peer) : option ob_remote_error * ob_remote_peer :=
  if negb (control_managed p) then (None, p)
  else
    match (if zlen (connection_id p) =? 0 then uuid (random1 env) else Some (connection_id p)) with
    | None => (Some (ob_error OB_REMOTE_EAUTH 0 (Some (lit "Cannot generate logical connection identity"))), p)
    | Some cid =>
      let p := p <| connection_id := cid |> in
      if request_pending p then (None, p)
      else
        let failed := Some (ob_error OB_REMOTE_EAUTH 0 (Some (lit "Cannot generate connection request credentials"))) in
        match uuid (random2 env) with
        | None => (failed, p)
        | Some rid =>
          let p := p <| request_id := rid |> in
          match random_token env with
          | None => (failed, p)
          | Some t => (None, p <| requested_session_token := ob_hex t |> <| request_pending := true |>)
          end
        end
    end.
(** The answer to the proposal and the requests sent. *)
Definition transact (env : session_env) (p : ob_remote_peer) : answer * list post :=
  let q := session_post p in
  let a := send env 0%nat q in
  match a.1 with
  | Some e =>
    if control_managed p && has_auth env && (http_status e =? 401) && negb (request_cancel (now_cancel env) p) && refresh_ok env
    then (send env 1%nat q, [q; q]) else (a, [q])
  | None => (a, [q])
  end.
Definition rejected (e : ob_api_error) (response : option reply) (p : ob_remote_peer) : ob_remote_peer :=
  if control_managed p && ((http_status e =? 409) || (http_status e =? 410)) &&
     existsb (fun r => bool_decide (text response (lit "error_code") = Some r)) [lit "session_expired"; lit "connection_conflict"]
  then match integer response (lit "generation") with
       | Some g => if control_generation p <=? g
                   then p <| control_generation := g |> <| request_pending := false |> <| control_retryable := true |> else p
       | None => p
       end
  else p.
Definition granted (copy_ok : bool) (response : option reply) (p : ob_remote_peer) : option ob_remote_error * ob_remote_peer :=
  let sid := text response (lit "session_id") in
  let token := if control_managed p then Some (requested_session_token p) else text response (lit "session_token") in
  let connection := text response (lit "connection_id") in
  let generation := integer response (lit "generation") in
  if negb (ob_valid_id sid) || negb (given token) ||
     (control_managed p && (negb (bool_decide (connection = Some (connection_id p))) ||
        match generation with None => true | Some g => g <=? control_generation p end))
  then (Some (ob_error OB_REMOTE_EPROTOCOL 0 (Some (lit "Invalid connection session grant"))), p)
  else if negb copy_ok then (Some (ob_error OB_REMOTE_ENOMEM 0 None), p)
  else
    let p := p <| session_id := sid |> <| bearer := token |> in
    (None, if control_managed p
           then p <| control_generation := default 0 generation |> <| request_pending := false |> else p).

Definition open_session (env : session_env) (p : ob_remote_peer) : option ob_remote_error * ob_remote_peer * list post :=
  let p := p <| control_retryable := false |> in
  match discover env p with
  | inl e => (Some e, p, [])
  | inr p =>
    let (e, p) := propose env p in
    match e with
    | Some e => (Some e, p, [])
    | None =>
      if negb (body_ok env && print_ok env) then (Some (ob_error OB_REMOTE_ENOMEM 0 None), p, [])
      else
        let (a, log) := transact env p in
        match a.1 with
        | Some e => (Some (api_failure e), rejected e a.2 p, log)
        | None => (granted (copy_ok env) a.2 p, log)
        end
    end
  end.

(** ** Pacing the attempts *)

(** One round of the loop of [schedule] at time [now]: the handle is stopped, an attempt
    may start, or the thread waits.  [manual] records a manual request of this call. *)
Inductive round := Stopped | Start (p : ob_remote_peer) | Wait (manual : bool) (p : ob_remote_peer).
Definition exhausted (now : Z) (manual : bool) (p : ob_remote_peer) : bool :=
  let r := recovery p in
  (truth (disabled (r_policy r)) && truth (transport_generation p) && negb manual) ||
  (max_attempts (r_policy r) <=? attempts (info r)) ||
  (truth (outage_us r) && (retry_budget_ms (r_policy r) * 1000 <=? u64 (now - outage_us r))).
Definition take_request (now : Z) (manual : bool) (p : ob_remote_peer) : bool * ob_remote_peer :=
  if requested (recovery p) then
    (true, p <| recovery ::= fun r =>
       r <| requested := false |> <| info ::= fun i => i <| attempts := 0 |> |> <| outage_us := now |> <| retry_us := 0 |> |>)
  else (manual, p).
Definition enter (s : conn_state) (p : ob_remote_peer) : ob_remote_peer :=
  if bool_decide (peer_state p = s) then p else set_state s (Some (attempt_error p)) p.
(** [deliver]: the callback runs, on the coordinator's thread, outside the lock. *)
Definition deliver (now : Z) (p : ob_remote_peer) : ob_remote_peer :=
  p <| recovery ::= fun r => (ob_recovery_deliver now r).2 |>.
Definition begin_attempt (p : ob_remote_peer) : ob_remote_peer :=
  let p := p <| transport_generation ::= fun g => u64 (g + 1) |> in
  let p := p <| recovery ::= fun r => r <| info ::= fun i =>
             i <| attempts := u32 (attempts i + 1) |> <| generation := transport_generation p |> |> |> in
  set_state (if ever_ready p then RECONNECTING else CONNECTING) None p.
Definition schedule_round (now : Z) (manual : bool) (p : ob_remote_peer) : round :=
  if stop p then Stopped
  else
    let (manual, p) := take_request now manual p in
    if exhausted now manual p then Wait manual (deliver now (enter PAUSED p))
    else if negb (truth (retry_us (recovery p))) || (retry_us (recovery p) <=? now)
    then Start (deliver now (begin_attempt p))
    else Wait manual (deliver now (enter RETRY_WAIT p)).
(** The loop: during each wait the rest of the program acts on the handle.  [None]: still
    waiting after the given rounds. *)
Fixpoint schedule (rounds : list (Z * (ob_remote_peer -> ob_remote_peer))) (manual : bool) (p : ob_remote_peer)
    : option (Z * ob_remote_peer) :=
  match rounds with
  | [] => None
  | (now, others) :: rounds =>
    match schedule_round now manual p with
    | Stopped => Some (-1, p)
    | Start p => Some (0, p)
    | Wait manual p => schedule rounds manual (others p)
    end
  end.

(** The doubling loop, [i] from 1 while below [attempts]. *)
Fixpoint backoff (n : nat) (delay max : Z) : Z :=
  match n with
  | O => delay
  | S n => if delay <? max then backoff n (u64 (delay * 2)) max else delay
  end.
(** [t1], [t2]: readings of the clock; [jitter] the random word. *)
Definition delay_next (t1 t2 jitter : Z) (p : ob_remote_peer) : ob_remote_peer :=
  let r := recovery p in
  let r := if truth (outage_us r) then r else r <| outage_us := t1 |> in
  if negb (truth (attempts (info r))) then p <| recovery := r <| retry_us := 0 |> |>
  else
    let max := max_delay_ms (r_policy r) in
    let delay := Z.min (backoff (Z.to_nat (attempts (info r) - 1)) (initial_delay_ms (r_policy r)) max) max in
    let delay := Z.min (u64 (delay + jitter mod (delay / 4 + 1))) max in
    p <| recovery := r <| retry_us := u64 (t2 + delay * 1000) |> |>.

(** A round of [server_session]: the broker side waits for the next session of its client. *)
Definition server_session_round (now : Z) (p : ob_remote_peer) : option (Z * ob_remote_peer) * ob_remote_peer :=
  match pending_session_id p with
  | None =>
    if stop p then (Some (-1, p), p)
    else (None, deliver now (if bool_decide (peer_state p = RETRY_WAIT) then p else set_state RETRY_WAIT None p))
  | Some sid =>
    if stop p then (Some (-1, p), p)
    else (Some (0, p <| pending_session_id := None |> <| session_id := Some sid |>
                    <| control_generation := pending_control_generation p |>), p)
  end.

(** ** One attempt of [ob_peer_coordinator] *)

(** The fields reset before an attempt. *)
Definition reset_attempt (now : Z) (p : ob_remote_peer) : ob_remote_peer :=
  let p := p <| attempt_result := 0 |> <| attempt_error := no_error |> <| ready := false |> <| tls_ready := false |>
    <| proof_ready := false |> <| transport_available := false |> <| lease_deadline_set := false |> <| approved := false |>
    <| control_cleanup := false |> <| tx_sequence := 0 |> <| rx_sequence := 0 |> <| heartbeat_id := 0 |>
    <| heartbeat_due_us := 0 |> <| heartbeat_sent_us := 0 |> <| reconnect_us := 0 |> <| reconnect_backoff := 0 |>
    <| next_timer_us := 0 |> <| deadline_us := u64 (now + timeout_ms p * 1000) |> in
  let p := if negb (is_server p) && truth (outage_us (recovery p)) then
             let budget := u64 (outage_us (recovery p) + retry_budget_ms (r_policy (recovery p)) * 1000) in
             if budget <? deadline_us p then p <| deadline_us := budget |> else p
           else p in
  let p := p <| ice_ready := false |> <| gathered := false |> <| ice_failed := false |> <| attempt_stop := false |> in
  if is_server p then
    let p := p <| transport_generation ::= fun g => u64 (g + 1) |> in
    let p := p <| recovery ::= fun r => r <| info ::= fun i => i <| generation := transport_generation p |> |> |> in
    set_state (if ever_ready p then RECONNECTING else CONNECTING) None p
  else p.
(** A session could not be opened: the failure is transient or final. *)
Definition session_failed (t1 t2 : Z) (e : ob_remote_error) (p : ob_remote_peer) : ob_remote_peer :=
  if (retryable e || control_retryable p) && (control_managed p || negb (control_discovered p))
  then (ob_peer_transport_fail_locked t1 t2 p (e_code e) (e_message e)) <| attempt_error := e |>
  else ob_peer_fail_locked (p <| error := e |>) (e_code e) (e_message e).
(** While the attempt lives: a stable transport renews the budget. *)
Definition stable_tick (now : Z) (p : ob_remote_peer) : ob_remote_peer :=
  let r := recovery p in
  if ready p && truth (stable_us r) && (stable_reset_ms (r_policy r) * 1000 <=? u64 (now - stable_us r))
  then p <| recovery ::= fun r => r <| info ::= fun i => i <| attempts := 0 |> |> <| outage_us := 0 |> |> else p.
(** After [retire_attempt]: [None] leaves the loop. *)
Definition attempt_over (t1 t2 jitter : Z) (p : ob_remote_peer) : ob_remote_peer * bool :=
  if stop p then (p, false)
  else if negb (control_managed p) && control_discovered p
  then (ob_peer_fail_locked p OB_REMOTE_ECLOSED (lit "Transport recovery requires a managed control connection"), false)
  else (if is_server p then p else delay_next t1 t2 jitter p, true).

Fixpoint server_session (rounds : list (Z * (ob_remote_peer -> ob_remote_peer))) (p : ob_remote_peer) : option (Z * ob_remote_peer) :=
  match rounds with
  | [] => None
  | (now, others) :: rounds =>
    match server_session_round now p with
    | (Some r, _) => Some r
    | (None, p) => server_session rounds (others p)
    end
  end.

(** What the surroundings contribute to one turn of the main loop.  [a_workers] is all
    that the setup worker, the engine and the caller do to the handle, the ticks of
    [stable_tick] included, until one of the stop flags is up. *)
Record attempt_env := AttemptEnv {
  a_first : bool; a_rounds : list (Z * (ob_remote_peer -> ob_remote_peer)); a_reset : Z; a_session : session_env;
  a_fail1 : Z; a_fail2 : Z; a_setup : bool; a_workers : ob_remote_peer -> ob_remote_peer;
  a_delay1 : Z; a_delay2 : Z; a_jitter : Z }.
(** One turn: the handle, whether the loop goes on, and the requests sent. *)
Definition coordinator_attempt (env : attempt_env) (p : ob_remote_peer) : option (ob_remote_peer * bool * list post) :=
  if stop p then Some (p, false, [])
  else
  let start := if is_server p then if a_first env then Some (0, p) else server_session (a_rounds env) p
               else schedule (a_rounds env) false p in
  match start with
  | None => None
  | Some (rc, p) =>
    if truth rc then Some (p, false, [])
    else
      let p := reset_attempt (a_reset env) p in
      let '(e, p, log) := if is_server p then (None, p, []) else open_session (a_session env) p in
      let p := match e with
        | Some e => session_failed (a_fail1 env) (a_fail2 env) e p
        | None => if a_setup env then a_workers env p
                  else ob_peer_transport_fail_locked (a_fail1 env) (a_fail2 env) p OB_REMOTE_EIO (lit "Cannot start connection setup worker")
        end in
      Some (attempt_over (a_delay1 env) (a_delay2 env) (a_jitter env) p, log)
  end.

(** ** The transaction that opens a session *)

(** What identifies the transaction; nothing but [open_session] writes these fields of a
    client's handle. *)
Definition identity (p : ob_remote_peer) :=
  (is_server p, broker_id p, relay p, connection_id p, request_id p, requested_session_token p, control_generation p,
   (request_pending p, control_managed p, control_discovered p)).
Definition frames {A} (I : ob_remote_peer -> A) (f : ob_remote_peer -> ob_remote_peer) : Prop := forall p, I (f p) = I p.
Lemma identity_post p q : identity p = identity q -> session_post p = session_post q.
Proof. unfold identity, session_post. by intros [= _ -> -> -> -> -> -> _ -> _]. Qed.

Lemma identity_server p q : identity p = identity q -> is_server p = is_server q.
Proof. unfold identity. by intros [= -> _ _ _ _ _ _ _ _ _]. Qed.
Lemma identity_pending p q : identity p = identity q -> request_pending p = request_pending q.
Proof. unfold identity. by intros [= _ _ _ _ _ _ _ -> _ _]. Qed.

Lemma set_state_identity s e : frames identity (set_state s e).
Proof. done. Qed.
Lemma fail_identity code m : frames identity (fun p => ob_peer_fail_locked p code m).
Proof.
  intros p. unfold ob_peer_fail_locked. case_bool_decide; [done|]. destruct (truth (result p)); [done|]. by destruct (_ || _).
Qed.
Lemma transport_fail_identity t1 t2 code m : frames identity (fun p => ob_peer_transport_fail_locked t1 t2 p code m).
Proof.
  intros p. unfold ob_peer_transport_fail_locked. destruct (stop p); [done|].
  destruct (managed p); [|apply fail_identity]. cbv zeta. cbn [negb].
  destruct (truth (attempt_result p)); destruct (truth (outage_us _)); destruct (ever_ready _ && _); done.
Qed.
Lemma take_request_identity now m p : identity (take_request now m p).2 = identity p.
Proof. unfold take_request. by destruct (requested _). Qed.
Lemma schedule_round_identity now m p :
  match schedule_round now m p with Stopped => True | Start q | Wait _ q => identity q = identity p end.
Proof.
  unfold schedule_round. destruct (stop p); [done|]. pose proof (take_request_identity now m p) as H.
  destruct (take_request now m p) as [m' q]. cbn [snd] in H.
  destruct (exhausted now m' q); [|destruct (_ || _)]; rewrite <- H; try done;
    unfold enter; case_bool_decide; done.
Qed.
Lemma schedule_identity rounds m p rc q :
  Forall (fun r => frames identity r.2) rounds -> schedule rounds m p = Some (rc, q) -> identity q = identity p.
Proof.
  intros Hr. revert m p. induction Hr as [|[now f] rounds Hf Hr IH]; intros m p; [done|]. cbn [schedule].
  pose proof (schedule_round_identity now m p) as H. destruct (schedule_round now m p).
  - by intros [= _ <-].
  - by intros [= _ <-].
  - intros Hs. rewrite (IH _ _ Hs), Hf. done.
Qed.
Lemma reset_identity now : frames identity (reset_attempt now).
Proof.
  intros p. unfold reset_attempt. cbv zeta. destruct (negb _ && _); [destruct (_ <? _)|]; destruct (is_server _); done.
Qed.
Lemma session_failed_identity t1 t2 e : frames identity (session_failed t1 t2 e).
Proof.
  intros p. unfold session_failed. destruct (_ && _); [exact (transport_fail_identity _ _ _ _ p)|exact (fail_identity _ _ (p <| error := e |>))].
Qed.
Lemma attempt_over_identity t1 t2 j : frames identity (fun p => (attempt_over t1 t2 j p).1).
Proof.
  intros p. unfold attempt_over. destruct (stop p); [done|]. destruct (_ && _); [apply fail_identity|].
  destruct (is_server p); [done|]. cbn. unfold delay_next. destruct (truth (attempts _)); done.
Qed.

(** A pending transaction has its identifiers. *)
Definition pend_ok (p : ob_remote_peer) : Prop :=
  request_pending p = true -> control_managed p = true /\ control_discovered p = true /\ connection_id p <> [].
Lemma pend_ok_identity p q : identity p = identity q -> pend_ok p -> pend_ok q.
Proof. unfold identity, pend_ok. by intros [= _ _ _ -> _ _ _ -> -> ->]. Qed.

Lemma discover_spec env p :
  match discover env p with
  | inl _ => control_discovered p = false
  | inr q => control_discovered q = true /\ connection_id q = connection_id p /\ request_pending q = request_pending p /\
      (control_discovered p = true -> q = p) /\ control_generation q = control_generation p /\
      session_id q = session_id p /\ bearer q = bearer p /\ (control_managed p = true -> control_managed q = true)
  end.
Proof.
  unfold discover. destruct (control_discovered p) eqn:E; [done|]. destruct (status_answer env).1 as [e|].
  - destruct (http_status e =? 404); [|done]. by repeat split.
  - case_bool_decide; by repeat split.
Qed.
Lemma uuid_nonempty b r : uuid b = Some r -> r <> [].
Proof. destruct b; [|done]. cbn [uuid]. intros [= <-] H%(f_equal (@length Z)). rewrite !length_app in H. cbn in H. lia. Qed.

Lemma propose_spec env p e q :
  control_discovered p = true -> pend_ok p -> propose env p = (e, q) ->
  pend_ok q /\ control_managed q = control_managed p /\ control_generation q = control_generation p /\
  session_id q = session_id p /\ bearer q = bearer p /\ control_retryable q = control_retryable p /\
  (request_pending p = true -> q = p) /\
  (e = None -> request_pending q = control_managed q) /\ (e <> None -> request_pending q = false).
Proof.
  intros Hd Hp. unfold propose. destruct (control_managed p) eqn:Hm; cbn [negb].
  2:{ intros [= <- <-]. split_and!; try done. intros _. rewrite Hm. destruct (request_pending p) eqn:E; [|done].
      destruct (Hp E) as [? _]. congruence. }
  destruct (if zlen (connection_id p) =? 0 then _ else _) as [cid|] eqn:Ec.
  2:{ intros [= <- <-]. split_and!; try done. intros _. destruct (request_pending p) eqn:E; [|done].
      destruct (Hp E) as (_ & _ & Hc). destruct (Z.eqb_spec (zlen (connection_id p)) 0) as [Hz|]; [|done]. by apply zlen_0 in Hz. }
  assert (cid <> []) as Hcid.
  { destruct (Z.eqb_spec (zlen (connection_id p)) 0) as [Hz|Hz]; [by apply uuid_nonempty in Ec|].
    injection Ec as <-. intros H. by rewrite H in Hz. }
  cbv zeta. change (request_pending (p <| connection_id := cid |>)) with (request_pending p).
  destruct (request_pending p) eqn:E.
  - destruct (Hp E) as (_ & _ & Hc).
    destruct (Z.eqb_spec (zlen (connection_id p)) 0) as [Hz|Hz]; [by apply zlen_0 in Hz|]. injection Ec as <-.
    assert (p <| connection_id := connection_id p |> = p) as -> by by destruct p.
    intros [= <- <-]. split_and!; try done. by rewrite E, Hm.
  - destruct (uuid (random2 env)) as [rid|]; [destruct (random_token env) as [t|]|]; intros [= <- <-]; cbn;
      unfold pend_ok; cbn; split_and!; try done; by rewrite ?E.
Qed.
Lemma transact_spec env p a log :
  transact env p = (a, log) -> Forall (eq (session_post p)) log /\ (1 <= length log <= 2)%nat.
Proof. unfold transact. repeat case_match; intros [= _ <-]; (split; [by repeat constructor|cbn; lia]). Qed.
Lemma rejected_spec e r p :
  let q := rejected e r p in
  (q = p \/ (request_pending q = false /\ control_retryable q = true /\ control_managed p = true)) /\
  control_generation p <= control_generation q /\
  session_id q = session_id p /\ bearer q = bearer p /\ control_managed q = control_managed p.
Proof.
  unfold rejected. destruct (_ && _) eqn:E; [|by split_and!; [left|..]].
  destruct (integer r _) as [g|]; [|by split_and!; [left|..]].
  destruct (Z.leb_spec (control_generation p) g); [|by split_and!; [left|..]].
  bools. cbn. by split_and!; [right|..].
Qed.
(** What a grant establishes; [p] is the handle the request was made for. *)
Record grant_ok (p q : ob_remote_peer) : Prop := {
  go_id : ob_valid_id (session_id q) = true;
  go_token : exists t, bearer q = Some t /\ t <> [] /\ (control_managed q = true -> t = requested_session_token q);
  go_resolved : control_managed q = true -> request_pending q = false;
  go_newer : control_managed q = true -> control_generation p < control_generation q }.
Lemma given_spec t : given t = true -> exists s, t = Some s /\ s <> [].
Proof. destruct t as [[|c s]|]; try done. intros _. by eexists. Qed.
Lemma granted_spec ok r p e q :
  granted ok r p = (e, q) -> match e with Some _ => q = p | None => grant_ok p q end.
Proof.
  unfold granted. destruct (_ || _) eqn:E; [by intros [= <- <-]|]. destruct ok; [|by intros [= <- <-]]. cbn [negb].
  apply orb_false_iff in E as [E1 E3]. bools. apply given_spec in H0 as (t & Ht & Hne).
  destruct (control_managed p) eqn:Hm; intros [= <- <-].
  - cbn [andb] in E3. bools. destruct (integer r (lit "generation")) as [g|]; [|done]. bools.
    split; cbn; rewrite Hm; cbn; [done| |done|intros _; change (control_generation p < g); lia]. exists t. split; [done|]. split; [done|]. intros _. congruence.
  - split; cbn; rewrite Hm; cbn; [done| |congruence|congruence]. exists t. split; [done|]. split; [done|]. congruence.
Qed.

Lemma granted_frame ok r p e q :
  granted ok r p = (e, q) ->
  control_managed q = control_managed p /\
  (control_managed p = false -> request_pending q = request_pending p /\ control_generation q = control_generation p).
Proof.
  unfold granted. destruct (_ || _); [by intros [= _ <-]|]. destruct (negb _); [by intros [= _ <-]|].
  intros [= _ <-]. cbn. destruct (control_managed p) eqn:E; cbn; by rewrite ?E.
Qed.
(** Close the conjuncts that follow from equations at hand. *)
Ltac facts := split_and!; try first [done|lia|congruence|intros ?; congruence|left; congruence|right; congruence|solve [auto]].

Lemma open_session_spec env p e q log :
  pend_ok p -> open_session env p = (e, q, log) ->
  pend_ok q /\
  (request_pending q = true -> Forall (eq (session_post q)) log) /\
  (request_pending p = true -> request_pending q = true -> identity q = identity p) /\
  control_generation p <= control_generation q /\
  match e with
  | None => grant_ok p q
  | Some _ => session_id q = session_id p /\ bearer q = bearer p /\
      (control_generation q = control_generation p \/ control_retryable q = true)
  end.
Proof.
  intros Hp. unfold open_session. set (p0 := p <| control_retryable := false |>).
  assert (pend_ok p0) as Hp0 by exact Hp. change (request_pending p) with (request_pending p0).
  change (control_generation p) with (control_generation p0). change (session_id p) with (session_id p0).
  change (bearer p) with (bearer p0). change (identity p) with (identity p0).
  assert (grant_ok p q <-> grant_ok p0 q) as Hg by (split; by intros []; split).
  pose proof (discover_spec env p0) as Hdisc. destruct (discover env p0) as [e0|p1].
  { intros [= <- <- <-]. by split_and!; [..|left]. }
  destruct Hdisc as (Hd1 & Hd2 & Hd3 & Hd4 & Hd5 & Hd6 & Hd7 & Hd8).
  assert (pend_ok p1) as Hp1.
  { intros Hr. rewrite Hd3 in Hr. destruct (Hp0 Hr) as (? & ? & ?). rewrite Hd2. auto. }
  destruct (propose env p1) as [e1 p2] eqn:Hprop.
  destruct (propose_spec env p1 e1 p2 Hd1 Hp1 Hprop) as (H1 & H2 & H3 & H4 & H5 & H6 & H7 & H8 & H9).
  assert (request_pending p0 = true -> identity p2 = identity p0) as Hid.
  { intros Hr. destruct (Hp0 Hr) as (? & ? & ?). rewrite H7, Hd4; [done|done|congruence]. }
  destruct e1 as [e1|].
  { intros [= <- <- <-]. facts. }
  specialize (H8 eq_refl). destruct (negb _).
  { intros [= <- <- <-]. facts. }
  destruct (transact env p2) as [a lg] eqn:Ht. destruct (transact_spec env p2 a lg Ht) as [Hlog _].
  destruct a.1 as [e2|] eqn:Ea.
  - intros [= <- <- <-]. destruct (rejected_spec e2 a.2 p2) as (Hr1 & Hr2 & Hr3 & Hr4 & Hr5).
    destruct Hr1 as [->|(Hr1 & Hr6 & Hr7)].
    + facts.
    + facts.
  - intros Hgr. destruct (granted (copy_ok env) a.2 p2) as [e3 p3] eqn:Hgr3. injection Hgr as <- <- <-.
    pose proof (granted_spec _ _ _ _ _ Hgr3) as Hs. destruct e3 as [e3|].
    + subst p3. facts.
    + destruct Hs as [G1 G2 G3 G4].
      destruct (granted_frame _ _ _ _ _ Hgr3) as [Hm Hrp].
      assert (request_pending p3 = false) as Hrf.
      { destruct (control_managed p2) eqn:E; [by apply G3; congruence|]. destruct Hrp; congruence. }
      assert (control_generation p2 <= control_generation p3).
      { destruct (control_managed p2) eqn:E; [specialize (G4 ltac:(congruence))|destruct Hrp]; lia. }
      facts. apply Hg. split; try done. intros Hm3. specialize (G4 Hm3). lia.
Qed.

(** *** What the service said *)

(** The reply [r] to the request [asked] that puts the handle from [p] into the session of [q]. *)
Record session_grant (p q : ob_remote_peer) (asked : post) (r : reply) : Prop := {
  sg_id : exists sid, item r (lit "session_id") = Some (Jstring sid) /\ session_id q = Some sid /\ ob_valid_id (Some sid) = true;
  sg_connection : control_managed q = true -> item r (lit "connection_id") = Some (Jstring (connection_id q)) /\
    asked.1 = lit "/v1/connections/" ++ connection_id q ++ lit "/session";
  sg_generation : control_managed q = true -> control_generation p < control_generation q /\
    (exists v, item r (lit "generation") = Some (Jnumber v) /\ Qeq v (inject_Z (control_generation q))) /\
    In (lit "expected_generation", JNum (control_generation p)) asked.2;
  sg_token : control_managed q = true -> bearer q = Some (requested_session_token q) /\ requested_session_token q <> [] /\
    In (lit "session_token", JStr (requested_session_token q)) asked.2 /\ request_pending q = false;
  sg_unmanaged : control_managed q = false -> control_generation q = control_generation p /\
    exists t, item r (lit "session_token") = Some (Jstring t) /\ t <> [] /\ bearer q = Some t }.
(** The refusal that moves the generation of a managed handle: a conflict or an expired grant,
    with the generation the service holds. *)
Definition generation_told (q : ob_remote_peer) (e : ob_api_error) (r : reply) : Prop :=
  control_managed q = true /\ (http_status e = 409 \/ http_status e = 410) /\
  (item r (lit "error_code") = Some (Jstring (lit "session_expired")) \/
   item r (lit "error_code") = Some (Jstring (lit "connection_conflict"))) /\
  exists v, item r (lit "generation") = Some (Jnumber v) /\ Qeq v (inject_Z (control_generation q)).

Lemma text_item j key t : text j key = Some t -> exists r, j = Some r /\ item r key = Some (Jstring t).
Proof. unfold text. destruct j as [r|]; [|done]. cbn. destruct (item r key) as [[]|] eqn:E; try done. intros [= ->]. by eexists. Qed.
Lemma integer_item j key n : integer j key = Some n -> exists r v, j = Some r /\ item r key = Some (Jnumber v) /\ Qeq v (inject_Z n).
Proof.
  unfold integer. destruct j as [r|]; [|done]. cbn [mbind option_bind]. destruct (item r key) as [[|v|]|] eqn:Ev; try done.
  destruct (_ || _); [done|]. cbv zeta. destruct (Qeq_bool _ _) eqn:E; [|done]. intros [= <-]. apply Qeq_bool_iff in E.
  exists r, v. split; [done|]. split; [done|]. by symmetry.
Qed.
Lemma transact_answer env p a log : transact env p = (a, log) -> exists n, a = send env n (session_post p) /\ log = replicate (S n) (session_post p).
Proof.
  unfold transact. destruct (send env 0 (session_post p)).1 as [e|]; [destruct (_ && _)|]; intros [= <- <-];
    first [by exists 0%nat|by exists 1%nat].
Qed.
Lemma granted_grant ok j p q : granted ok j p = (None, q) -> exists r, j = Some r /\ session_grant p q (session_post p) r.
Proof.
  unfold granted. destruct (_ || _) eqn:E; [done|]. destruct ok; [|done]. cbn [negb].
  apply orb_false_iff in E as [E1 E3]. apply orb_false_iff in E1 as [Hv%negb_false_iff Ht%negb_false_iff].
  destruct (text j (lit "session_id")) as [sid|] eqn:Es; [|done]. apply text_item in Es as (r & -> & Hsid).
  intros H. apply pair_inj in H as [_ <-]. exists r. split; [done|]. unfold session_post.
  change (control_managed (p <| session_id := Some sid |> <| bearer := _ |>)) with (control_managed p).
  destruct (control_managed p) eqn:M.
  - cbn [andb] in E3. apply orb_false_iff in E3 as [Ec%negb_false_iff%bool_decide_eq_true Eg].
    destruct (integer (Some r) (lit "generation")) as [g|] eqn:Ei; [|done]. apply Z.leb_gt in Eg.
    apply text_item in Ec as (r' & [= <-] & Hc). apply integer_item in Ei as (r' & v & [= <-] & Hg & Hv').
    destruct (requested_session_token p) as [|c t] eqn:Et; [done|].
    split; cbn -[lit connection_id control_generation]; rewrite ?M; [by exists sid| | | |congruence]; intros _.
    + done.
    + split; [exact Eg|]. split; [by exists v|]. cbn. tauto.
    + rewrite Et. split_and!; try done. cbn. tauto.
  - apply given_spec in Ht as (t & Ht & Hne). apply text_item in Ht as (r' & [= <-] & Ht).
    split; cbn -[lit]; rewrite ?M; [by exists sid|congruence..|]. intros _. split; [done|]. exists t.
    split; [done|]. split; [done|]. unfold text. cbn [mbind option_bind]. by rewrite Ht.
Qed.
Lemma rejected_told e j p : control_generation (rejected e j p) = control_generation p \/
  exists r, j = Some r /\ generation_told (rejected e j p) e r.
Proof.
  unfold rejected. destruct (_ && _) eqn:E; [|by left]. destruct (integer j (lit "generation")) as [g|] eqn:Ei; [|by left].
  destruct (control_generation p <=? g); [|by left]. right. apply integer_item in Ei as (r & v & -> & Hg & Hv).
  exists r. split; [done|]. apply andb_true_iff in E as [E Er]. apply andb_true_iff in E as [M Eh].
  split; [exact M|]. split; [apply orb_true_iff in Eh as [?%Z.eqb_eq|?%Z.eqb_eq]; auto|]. split; [|by exists v].
  cbn [existsb] in Er. rewrite orb_false_r in Er.
  apply orb_true_iff in Er as [H%bool_decide_eq_true|H%bool_decide_eq_true]; apply text_item in H as (r' & [= <-] & H); auto.
Qed.
Lemma open_session_answer env p e q log : pend_ok p -> open_session env p = (e, q, log) ->
  match e with
  | None => exists n asked r, send env n asked = (None, Some r) /\ log = replicate (S n) asked /\ session_grant p q asked r
  | Some _ => control_generation q = control_generation p \/
      exists n asked ae r, send env n asked = (Some ae, Some r) /\ log = replicate (S n) asked /\ generation_told q ae r
  end.
Proof.
  intros Hp. unfold open_session. set (p0 := p <| control_retryable := false |>).
  assert (pend_ok p0) as Hp0 by exact Hp. change (control_generation p) with (control_generation p0).
  pose proof (discover_spec env p0) as Hdisc. destruct (discover env p0) as [e0|p1]; [intros [= <- <- <-]; by left|].
  destruct Hdisc as (Hd1 & Hd2 & Hd3 & _ & Hd5 & _ & _ & Hd8).
  assert (pend_ok p1) as Hp1.
  { intros Hr. rewrite Hd3 in Hr. destruct (Hp0 Hr) as (? & ? & ?). rewrite Hd2. auto. }
  destruct (propose env p1) as [e1 p2] eqn:Hprop.
  destruct (propose_spec env p1 e1 p2 Hd1 Hp1 Hprop) as (_ & _ & H3 & _ & _ & _ & _ & H8 & _).
  destruct e1 as [e1|]; [intros [= <- <- <-]; left; congruence|].
  destruct (negb _); [intros [= <- <- <-]; left; congruence|].
  destruct (transact env p2) as [a lg] eqn:Ht. apply transact_answer in Ht as (n & -> & ->).
  destruct (send env n (session_post p2)) as [[e2|] j] eqn:Es; cbn [fst snd].
  - intros [= <- <- <-]. destruct (rejected_told e2 j p2) as [->|(r & -> & Hr)]; [left; congruence|right].
    by exists n, (session_post p2), e2, r.
  - destruct (granted (copy_ok env) j p2) as [[e3|] p3] eqn:Hg; intros [= <- <- <-].
    + apply granted_spec in Hg as ->. left. congruence.
    + apply granted_grant in Hg as (r & -> & Hs). exists n, (session_post p2), r. split; [done|]. split; [done|].
      destruct Hs. rewrite H3, Hd5 in *. by split.
Qed.

(** Opening a session leaves the role and the recovery state alone. *)
Definition outside (p : ob_remote_peer) := (is_server p, recovery p).
Lemma open_session_outside env p : outside (open_session env p).1.2 = outside p.
Proof.
  unfold open_session. set (p0 := p <| control_retryable := false |>). change (outside p) with (outside p0).
  assert (match discover env p0 with inl _ => True | inr p1 => outside p1 = outside p0 end) as H1.
  { unfold discover. destruct (control_discovered p0); [done|]. destruct (status_answer env).1; [by destruct (_ =? _)|].
    by case_bool_decide. }
  destruct (discover env p0) as [e|p1]; [done|]. rewrite <- H1. clear H1.
  assert (outside (propose env p1).2 = outside p1) as H2.
  { unfold propose. destruct (negb _); [done|]. destruct (if _ =? _ then _ else _); [|done]. cbv zeta.
    destruct (request_pending _); [done|]. destruct (uuid _); [|done]. by destruct (random_token env). }
  destruct (propose env p1) as [e p2]. cbn [snd] in H2. rewrite <- H2. clear H2.
  destruct e; [done|]. destruct (negb _); [done|]. destruct (transact env p2) as [a lg]. destruct a.1 as [e|].
  - cbn [fst snd]. unfold rejected. destruct (_ && _); [|done]. destruct (integer _ _); [|done]. by destruct (_ <=? _).
  - cbn [fst snd]. unfold granted. destruct (_ || _); [done|]. destruct (negb _); [done|]. cbn [snd]. by destruct (control_managed _).
Qed.

Lemma outside_server p q : outside p = outside q -> is_server p = is_server q.
Proof. unfold outside. by intros [= -> _]. Qed.

(** The surroundings do not write the identity of the transaction. *)
Definition env_frames {A} (I : ob_remote_peer -> A) (env : attempt_env) : Prop :=
  Forall (fun r => frames I r.2) (a_rounds env) /\ frames I (a_workers env).
(** Turns of a client's coordinator after each of which the transaction is still pending,
    with the requests they sent. *)
Inductive unresolved : ob_remote_peer -> list post -> ob_remote_peer -> Prop :=
  | unresolved_none p : unresolved p [] p
  | unresolved_turn p log p1 env p2 go log2 :
      unresolved p log p1 -> env_frames identity env ->
      coordinator_attempt env p1 = Some (p2, go, log2) -> request_pending p2 = true ->
      unresolved p (log ++ log2) p2.

Lemma attempt_identity env p q go log :
  is_server p = false -> pend_ok p -> env_frames identity env -> coordinator_attempt env p = Some (q, go, log) ->
  pend_ok q /\ is_server q = false /\
  (request_pending q = true -> Forall (eq (session_post q)) log /\ (request_pending p = true -> identity q = identity p)).
Proof.
  intros Hs Hp [Hr Hw]. unfold coordinator_attempt. rewrite Hs.
  destruct (stop p). { intros [= <- <- <-]. by split_and!; [..|split]. }
  destruct (schedule (a_rounds env) false p) as [[rc p1]|] eqn:E; [|done].
  apply schedule_identity in E; [|done]. destruct (truth rc).
  { intros [= <- <- <-]. split; [by apply (pend_ok_identity p)|]. split; [by rewrite (identity_server _ _ E)|by split]. }
  pose proof (reset_identity (a_reset env) p1) as E2. rewrite E in E2.
  set (p2 := reset_attempt (a_reset env) p1) in *. clearbody p2.
  assert (is_server p2 = false) as Hs2 by (by rewrite (identity_server _ _ E2)). rewrite Hs2.
  assert (pend_ok p2) as Hp2 by (by apply (pend_ok_identity p p2)).
  assert (request_pending p2 = request_pending p) as Hrp by (by apply identity_pending).
  destruct (open_session (a_session env) p2) as [[e p3] lg] eqn:Ho.
  destruct (open_session_spec _ _ _ _ _ Hp2 Ho) as (H1 & H2 & H3 & _ & _).
  assert (is_server p3 = is_server p2) as Hs3.
  { pose proof (open_session_outside (a_session env) p2) as H. rewrite Ho in H. cbn [fst snd] in H. by apply outside_server. }
  set (p4 := match e with Some e => _ | None => _ end).
  assert (identity p4 = identity p3) as E4.
  { subst p4. destruct e; [apply session_failed_identity|]. destruct (a_setup env); [apply Hw|exact (transport_fail_identity _ _ _ _ p3)]. }
  clearbody p4.
  intros [= H <-]. pose proof (attempt_over_identity (a_delay1 env) (a_delay2 env) (a_jitter env) p4) as E5.
  cbn beta in E5. rewrite H in E5. cbn [fst] in E5. rewrite E4 in E5.
  split; [by apply (pend_ok_identity p3)|]. split; [by rewrite (identity_server _ _ E5), Hs3|].
  intros Hq. assert (request_pending p3 = true) as Hq3 by (by rewrite <- (identity_pending _ _ E5)).
  rewrite (identity_post _ _ E5). split; [auto|]. intros Hpp. rewrite E5, H3; [done|congruence|done].
Qed.

Lemma unresolved_spec p log p' :
  is_server p = false -> pend_ok p -> unresolved p log p' ->
  is_server p' = false /\ pend_ok p' /\ Forall (eq (session_post p')) log /\
  (log = [] \/ request_pending p' = true) /\
  (request_pending p = true -> identity p' = identity p).
Proof.
  intros Hs Hp. induction 1 as [p|p log p1 env p2 go log2 Hun IH Hf Hc Hr]; [by split_and!; [..|left|]|].
  destruct (IH Hs Hp) as (Hs1 & Hp1 & Hl1 & He1 & Hi1).
  destruct (attempt_identity _ _ _ _ _ Hs1 Hp1 Hf Hc) as (Hp2 & Hs2 & H2). destruct (H2 Hr) as [Hl2 Hi2].
  split_and!; [done|done| |by right|].
  - apply Forall_app. split; [|done]. destruct He1 as [->|He1]; [constructor|].
    by rewrite (identity_post _ _ (Hi2 He1)).
  - intros Hpp. assert (request_pending p1 = true) as H1 by (by rewrite (identity_pending _ _ (Hi1 Hpp))).
    by rewrite (Hi2 H1), Hi1.
Qed.

(** C14: as long as the outcome of a proposed session is unknown, across any number of
    failed attempts, refreshed account tokens and transport restarts, every request that is
    sent is the same transaction: same connection, expected generation, request identifier
    and proposed token.  A proposal that was pending before is the one that is repeated. *)
Theorem same_proposal p log p' :
  is_server p = false -> pend_ok p -> unresolved p log p' ->
  Forall (eq (session_post p')) log /\ (request_pending p = true -> session_post p = session_post p').
Proof.
  intros Hs Hp Hu. destruct (unresolved_spec _ _ _ Hs Hp Hu) as (_ & _ & Hl & _ & Hi). split; [done|].
  intros Hr. symmetry. by apply identity_post, Hi.
Qed.
Definition managed_peer : ob_remote_peer := sample_peer <| control_managed := true |> <| control_discovered := true |>.
Definition lost : answer := (Some (ApiError OB_API_TRANSPORT 0 28 []), None).
(** A turn in which the session request times out. *)
Definition lost_turn (now seed : Z) : attempt_env :=
  AttemptEnv true [(now, id)] now
    (SessionEnv lost (Some (replicate 16 seed)) (Some (replicate 16 (seed + 1))) (Some (replicate 32 (seed + 2)))
       true true true (fun _ _ => lost) false false now) now now true id now now 3.
Lemma lost_turn_frames now seed : env_frames identity (lost_turn now seed).
Proof. split; [by repeat constructor|done]. Qed.
Definition turn (env : attempt_env) (p : ob_remote_peer) : ob_remote_peer * list post :=
  match coordinator_attempt env p with Some (q, _, log) => (q, log) | None => (p, []) end.
Lemma turn_eq env p :
  match coordinator_attempt env p with Some (_, go, _) => go | None => false end = true ->
  coordinator_attempt env p = Some ((turn env p).1, true, (turn env p).2).
Proof. unfold turn. destruct (coordinator_attempt env p) as [[[q []] log]|]; done. Qed.
Definition lost1 := turn (lost_turn 1000 1) managed_peer.
Definition lost2 := turn (lost_turn 9000000 7) lost1.1.
Lemma unresolved_two p env1 p1 log1 env2 p2 log2 :
  env_frames identity env1 -> env_frames identity env2 ->
  coordinator_attempt env1 p = Some (p1, true, log1) -> coordinator_attempt env2 p1 = Some (p2, true, log2) ->
  request_pending p1 = true -> request_pending p2 = true -> unresolved p (log1 ++ log2) p2.
Proof.
  intros F1 F2 H1 H2 P1 P2. refine (unresolved_turn _ _ _ _ _ _ _ _ F2 H2 P2).
  exact (unresolved_turn _ [] _ _ _ _ _ (unresolved_none p) F1 H1 P1).
Qed.
Lemma lost1_eq : coordinator_attempt (lost_turn 1000 1) managed_peer = Some (lost1.1, true, lost1.2).
Proof. apply turn_eq. vm_compute. reflexivity. Qed.
Lemma lost2_eq : coordinator_attempt (lost_turn 9000000 7) lost1.1 = Some (lost2.1, true, lost2.2).
Proof. apply turn_eq. vm_compute. reflexivity. Qed.
Lemma lost_pending : request_pending lost1.1 = true /\ request_pending lost2.1 = true.
Proof. vm_compute. done. Qed.
Lemma same_proposal_witness :
  length (lost1.2 ++ lost2.2) = 2%nat /\ Forall (eq (session_post lost2.1)) (lost1.2 ++ lost2.2).
Proof.
  split; [vm_compute; reflexivity|].
  exact (proj1 (same_proposal managed_peer _ _ eq_refl ltac:(discriminate)
    (unresolved_two _ _ _ _ _ _ _ (lost_turn_frames _ _) (lost_turn_frames _ _) lost1_eq lost2_eq (proj1 lost_pending) (proj2 lost_pending)))).
Defined.

(** C32: a session is entered only on a successful reply to the last request sent that names a
    well-formed session identifier, which becomes the handle's.  On a managed control server the
    reply also names the handle's own connection, the one in the path of the request, and an
    integral generation newer than the one the request expected, which becomes the handle's; the
    bearer is the token that request proposed, and the proposal is resolved.  On an unmanaged one
    the bearer is the non-empty token of the reply.  When opening fails for whatever reason,
    session and bearer stay as they were, and the generation stays or becomes the one that a 409
    or 410 reply to the last request reports as a conflict or an expired grant; it never goes
    back. *)
Theorem session_outcome env p e q log :
  pend_ok p -> open_session env p = (e, q, log) ->
  pend_ok q /\ control_generation p <= control_generation q /\
  match e with
  | None => exists n asked r, send env n asked = (None, Some r) /\ log = replicate (S n) asked /\ session_grant p q asked r
  | Some _ => session_id q = session_id p /\ bearer q = bearer p /\
      (control_generation q = control_generation p \/
       exists n asked ae r, send env n asked = (Some ae, Some r) /\ log = replicate (S n) asked /\ generation_told q ae r)
  end.
Proof.
  intros Hp Ho. destruct (open_session_spec _ _ _ _ _ Hp Ho) as (? & _ & _ & ? & Hs).
  pose proof (open_session_answer _ _ _ _ _ Hp Ho) as Ha. split_and!; [done|done|]. destruct e; [|done].
  destruct Hs as (? & ? & _). done.
Qed.
Definition sample_id : list Z := lit "01234567-89ab-4cde-8f01-23456789abcd".
Definition grant_env : session_env :=
  SessionEnv lost (Some (replicate 16 1)) (Some (replicate 16 2)) (Some (replicate 32 3)) true true true
    (fun _ _ => (None, Some [(lit "session_id", Jstring sample_id); (lit "generation", Jnumber 6);
       (lit "connection_id", Jstring sample_id)])) false false 5.
Definition grant_peer : ob_remote_peer := managed_peer <| connection_id := sample_id |> <| control_generation := 5 |>.
Lemma session_outcome_witness :
  exists q log, open_session grant_env grant_peer = (None, q, log) /\ control_generation q = 6 /\
    exists n asked r, send grant_env n asked = (None, Some r) /\ log = replicate (S n) asked /\ session_grant grant_peer q asked r.
Proof.
  do 2 eexists. split; [vm_compute; reflexivity|]. split; [reflexivity|].
  refine (proj2 (proj2 (session_outcome grant_env grant_peer None _ _ _ _))); [discriminate|vm_compute; reflexivity].
Defined.

(** ** A failed handle *)

(** Everything that writes the handle's life, in any order: the failures and requests of
    [peer_event], and the sections of the coordinator's own thread. *)
Inductive handle_event :=
  | OfPeer (ev : peer_event)
  | CoSchedule (now : Z) (manual : bool)
  | CoServer (now : Z)
  | CoReset (now : Z)
  | CoOpen (env : session_env)
  | CoFailed (t1 t2 : Z) (e : ob_remote_error)
  | CoStable (now : Z)
  | CoOver (t1 t2 jitter : Z)
  (** [send_signal] of the setup worker records the error of a request. *)
  | WorkerError (e : ob_remote_error)
  (** The engine retires a transport; the handle is destroyed. *)
  | EngineRetire
  | Destroy.
Definition handle_step (p : ob_remote_peer) (ev : handle_event) : ob_remote_peer :=
  match ev with
  | OfPeer ev => peer_step p ev
  | CoSchedule now manual => match schedule_round now manual p with Stopped => p | Start q | Wait _ q => q end
  | CoServer now => match server_session_round now p with (Some (_, q), _) => q | (None, q) => q end
  | CoReset now => reset_attempt now p
  | CoOpen env => (open_session env p).1.2
  | CoFailed t1 t2 e => session_failed t1 t2 e p
  | CoStable now => stable_tick now p
  | CoOver t1 t2 jitter => (attempt_over t1 t2 jitter p).1
  | WorkerError e => if truth (result p) then p else p <| error := e |>
  | EngineRetire => p <| ready := false |> <| tls_ready := false |> <| proof_ready := false |>
  | Destroy => ob_peer_destroy p
  end.
Definition handle_run (p : ob_remote_peer) (evs : list handle_event) : ob_remote_peer := fold_left handle_step evs p.
(** The two sections that write what is reported without looking at [stop]: the reset before an
    attempt of the broker side, and the end of a request that cannot be retried. *)
Definition keeps_report (p : ob_remote_peer) (ev : handle_event) : Prop :=
  match ev with
  | CoReset _ => is_server p = false
  | CoFailed _ _ e => retryable e = true /\ control_managed p = true
  | _ => True
  end.

(** The fields a failure is about. *)
Definition life_of (p : ob_remote_peer) := (stop p, result p, error p, ready p, recovery p).
Lemma open_session_life env p : life_of (open_session env p).1.2 = life_of p.
Proof.
  unfold open_session. set (p0 := p <| control_retryable := false |>).
  change (life_of p) with (life_of p0).
  assert (match discover env p0 with inl _ => True | inr p1 => life_of p1 = life_of p0 end) as H1.
  { unfold discover. destruct (control_discovered p0); [done|]. destruct (status_answer env).1; [by destruct (_ =? _)|].
    by case_bool_decide. }
  destruct (discover env p0) as [e|p1]; [done|]. rewrite <- H1. clear H1.
  assert (life_of (propose env p1).2 = life_of p1) as H2.
  { unfold propose. destruct (negb _); [done|]. destruct (if _ =? _ then _ else _); [|done]. cbv zeta.
    destruct (request_pending _); [done|]. destruct (uuid _); [|done]. by destruct (random_token env). }
  destruct (propose env p1) as [e p2]. cbn [snd] in H2. rewrite <- H2. clear H2.
  destruct e; [done|]. destruct (negb _); [done|]. destruct (transact env p2) as [a lg]. destruct a.1 as [e|].
  - cbn [fst snd]. unfold rejected. destruct (_ && _); [|done]. destruct (integer _ _); [|done]. by destruct (_ <=? _).
  - cbn [fst snd]. unfold granted. destruct (_ || _); [done|]. destruct (negb _); [done|]. cbn [snd]. by destruct (control_managed _).
Qed.
Lemma failed_same code p q : life_of q = life_of p ->
  failed code p -> failed code q /\ error q = error p /\ ready q = ready p /\ (reported p -> reported q).
Proof. unfold failed, reported, peer_state, life_of. intros [= -> -> -> -> ->]. auto. Qed.
Lemma reset_life now p : (stop (reset_attempt now p), result (reset_attempt now p), error (reset_attempt now p), ready (reset_attempt now p)) =
  (stop p, result p, error p, false).
Proof. unfold reset_attempt. cbv zeta. destruct (negb _ && _); [destruct (_ <? _)|]; destruct (is_server _); done. Qed.
Lemma reset_client now p : is_server p = false -> recovery (reset_attempt now p) = recovery p.
Proof.
  intros S. unfold reset_attempt. cbv zeta. destruct (negb _ && _); [destruct (_ <? _)|];
    match goal with |- context [if ?b then _ else _] => change b with (is_server p); rewrite S; reflexivity end.
Qed.
Lemma reset_server now p : is_server p = true -> peer_state (reset_attempt now p) <> CONNECTED.
Proof.
  intros S. unfold reset_attempt. cbv zeta. destruct (negb _ && _); [destruct (_ <? _)|];
    match goal with |- context [if ?b then _ else _] => change b with (is_server p); rewrite S end;
    match goal with |- peer_state ?x <> _ => change (peer_state x) with (if ever_ready p then RECONNECTING else CONNECTING) end; by destruct (ever_ready p).
Qed.
(** A failed handle stays failed; what it reports changes in two places only. *)
Definition stays (code : Z) (p q : ob_remote_peer) : Prop :=
  failed code q /\ (ready q = true -> ready p = true) /\ error q = error p /\ (reported p -> reported q).
Lemma life_stays code p q : failed code p -> life_of q = life_of p -> stays code p q.
Proof. intros H Hq. destruct (failed_same _ _ _ Hq H) as (? & ? & Hr & ?). unfold stays. by rewrite Hr. Qed.
Lemma stable_stays code now p : failed code p -> stays code p (stable_tick now p).
Proof.
  intros H. unfold stable_tick. cbv zeta. destruct (_ && _); [|by apply life_stays].
  destruct p; destruct H as (? & ? & ? & ?). unfold stays, failed, reported, peer_state in *. cbn in *. by split_and!.
Qed.
Lemma restart_stays code p q : (stop q, result q, error q, ready q) = (stop p, result p, error p, false) ->
  (is_server p = false -> recovery q = recovery p) -> (is_server p = true -> peer_state q <> CONNECTED) -> failed code p ->
  failed code q /\ (ready q = true -> ready p = true) /\ (is_server p = false -> stays code p q).
Proof.
  intros E C B (Hs & Hr & Hc & Hst). injection E as H1 H2 H3 H4.
  assert (failed code q) as Hq.
  { unfold failed, peer_state in *. rewrite H1, H2. split_and!; try done. destruct (is_server p); [by apply B|by rewrite C]. }
  split; [done|]. rewrite H4. split; [done|]. intros S. unfold stays, reported, peer_state. rewrite H4, H3, (C S). by split_and!.
Qed.
Lemma reset_stays code now p : failed code p -> failed code (reset_attempt now p) /\ (ready (reset_attempt now p) = true -> ready p = true) /\
  (is_server p = false -> stays code p (reset_attempt now p)).
Proof. exact (restart_stays code p _ (reset_life now p) (reset_client now p) (reset_server now p)). Qed.
Lemma session_failed_stays code t1 t2 e p : failed code p ->
  failed code (session_failed t1 t2 e p) /\ (ready (session_failed t1 t2 e p) = true -> ready p = true) /\
  (retryable e = true /\ control_managed p = true -> stays code p (session_failed t1 t2 e p)).
Proof.
  intros H. unfold session_failed. destruct (_ && _) eqn:E.
  - unfold ob_peer_transport_fail_locked. destruct H as (Hs & H). rewrite Hs.
    assert (stays code p (p <| attempt_error := e |>)) as Hst by (apply life_stays; [by split|done]).
    destruct Hst as (? & ? & ?). by split_and!.
  - assert (failed code (p <| error := e |>)) as H' by (destruct p; exact H).
    destruct (failed_fail _ _ (e_code e) (e_message e) H') as (? & _ & Hq & _). split; [done|]. rewrite Hq. split; [by destruct p|].
    intros [Hre Hm]. rewrite Hre, Hm in E. done.
Qed.
Lemma handle_failed code p ev : failed code p -> failed code (handle_step p ev) /\
  (ready (handle_step p ev) = true -> ready p = true) /\ (keeps_report p ev -> stays code p (handle_step p ev)).
Proof.
  intros H. assert (forall q, stays code p q -> failed code q /\ (ready q = true -> ready p = true) /\ (keeps_report p ev -> stays code p q)) as Hst.
  { intros q Hq. pose proof Hq as (? & ? & ?). by split_and!. }
  pose proof (life_stays code p p H eq_refl) as Hp. pose proof (proj1 H) as Hs.
  destruct ev; cbn [handle_step].
  - apply Hst. destruct (failed_step code p ev H) as (? & ? & Hq & ?). unfold stays. by rewrite Hq.
  - unfold schedule_round. rewrite Hs. by apply Hst.
  - unfold server_session_round. destruct (pending_session_id p); rewrite Hs; by apply Hst.
  - by apply reset_stays.
  - apply Hst, life_stays; [done|]. apply open_session_life.
  - by apply session_failed_stays.
  - by apply Hst, stable_stays.
  - unfold attempt_over. rewrite Hs. by apply Hst.
  - rewrite (failed_truth _ _ H). by apply Hst.
  - apply Hst. destruct p, H as (? & ? & ? & ?). unfold stays, failed, reported, peer_state in *. cbn in *. by split_and!.
  - apply Hst, life_stays; [done|]. unfold life_of, ob_peer_destroy. destruct p. cbn in *. by rewrite Hs.
Qed.

(** Every event of the list keeps the report of the state it happens in. *)
Fixpoint all_keep (p : ob_remote_peer) (evs : list handle_event) : Prop :=
  match evs with [] => True | ev :: evs => keeps_report p ev /\ all_keep (handle_step p ev) evs end.
Lemma handle_run_failed code evs p : failed code p ->
  failed code (handle_run p evs) /\ (ready (handle_run p evs) = true -> ready p = true) /\
  (all_keep p evs -> error (handle_run p evs) = error p /\ (reported p -> reported (handle_run p evs))).
Proof.
  revert p. induction evs as [|ev evs IH]; intros p H; [done|]. destruct (handle_failed code p ev H) as (H1 & H2 & H3).
  destruct (IH _ H1) as (H4 & H5 & H6). change (handle_run p (ev :: evs)) with (handle_run (handle_step p ev) evs).
  split_and!; [done|auto|]. intros [K1 K2]. destruct (H3 K1) as (_ & _ & E1 & R1). destruct (H6 K2) as [E2 R2]. split; [congruence|auto].
Qed.

(** C37: a handle that has failed is never revived.  Whatever follows, in any order, from the
    workers, the caller and the coordinator's own thread (a transport that comes up, a manual
    reconnect, another failure, a request that ends late, the reset before an attempt), the
    handle stays stopped, keeps the first error code, never becomes ready or CONNECTED, and
    every later reconnect request is refused with that first code.  The error text and the
    reported state, FAILED or CLOSED, stay as well, except where the coordinator ends a request
    that cannot be retried or the broker side resets the handle for an attempt: those two write
    them without looking whether the handle has failed. *)
Theorem failure_terminal p code message evs :
  result p = 0 -> peer_state p <> CLOSED -> code <> 0 ->
  let q := ob_peer_fail_locked p code message in
  let p' := handle_run q evs in
  stop p' = true /\ (ob_remote_peer_status p').1 = code /\ (ob_remote_peer_reconnect p').1 = code /\
  peer_state p' <> CONNECTED /\ (ready p' = true -> ready p = true) /\
  (all_keep q evs -> error p' = error q /\ (peer_state p' = FAILED \/ peer_state p' = CLOSED)).
Proof.
  intros Hr Hst Hc. cbv zeta. set (q := ob_peer_fail_locked p code message).
  assert (failed code q /\ ready q = ready p /\ reported q) as (Hq & Hrd & Hrep).
  { unfold q, ob_peer_fail_locked, failed, reported. rewrite bool_decide_false by done. rewrite Hr. cbn [truth Z.eqb negb].
    destruct (_ || _); cbn; split_and!; auto; done. }
  destruct (handle_run_failed code evs q Hq) as (Hf & Hrdy & Hk). pose proof (failed_truth _ _ Hf) as Ht.
  destruct Hf as (Hs & Hres & _ & Hnc). unfold ob_remote_peer_status, ob_remote_peer_reconnect. rewrite Hs, Ht. cbn [fst].
  split; [done|]. split; [exact Hres|]. split; [exact Hres|]. split; [done|]. split; [rewrite <- Hrd; exact Hrdy|].
  intros K. destruct (Hk K) as [? Hrep']. split; [done|]. by apply Hrep'.
Qed.
Definition late_events : list handle_event :=
  [OfPeer EvReconnect; OfPeer (EvReady id 9); CoOpen grant_env; CoStable 7; OfPeer (EvTransportFail 1 2 OB_REMOTE_EICE []); OfPeer EvClose].
Lemma failure_terminal_witness :
  let q := ob_peer_fail_locked sample_peer OB_REMOTE_EAUTH (lit "pin") in
  let p' := handle_run q late_events in
  stop p' = true /\ (ob_remote_peer_status p').1 = OB_REMOTE_EAUTH /\ (ob_remote_peer_reconnect p').1 = OB_REMOTE_EAUTH /\
  peer_state p' <> CONNECTED /\ (ready p' = true -> ready sample_peer = true) /\
  (all_keep q late_events -> error p' = error q /\ (peer_state p' = FAILED \/ peer_state p' = CLOSED)).
Proof. apply failure_terminal; [reflexivity|discriminate|discriminate]. Defined.
(** Both exceptions happen: a late refusal replaces the error that is reported with the first
    code, and a broker's reset shows a failed handle as connecting. *)
Definition failed_peer : ob_remote_peer := ob_peer_fail_locked sample_peer OB_REMOTE_EAUTH (lit "pin").
Example report_overwritten :
  let p := handle_step failed_peer (CoFailed 1 2 (ob_error OB_REMOTE_EHTTP 403 (Some (lit "no")))) in
  ob_remote_peer_status p = (OB_REMOTE_EAUTH, ob_error OB_REMOTE_EHTTP 403 (Some (lit "no"))) /\
  peer_state (handle_step (failed_peer <| is_server := true |>) (CoReset 5)) = CONNECTING.
Proof. vm_compute. done. Qed.

(** ** Retries within one outage *)

(** What paces the attempts of an outage; while it lasts, only the coordinator writes it. *)
Definition pacing (p : ob_remote_peer) :=
  (is_server p, r_policy (recovery p), attempts (info (recovery p)), outage_us (recovery p), requested (recovery p)).
Definition in_outage (p : ob_remote_peer) : Prop :=
  is_server p = false /\ outage_us (recovery p) <> 0 /\ requested (recovery p) = false /\
  policy_ok (r_policy (recovery p)) /\ 0 <= attempts (info (recovery p)).
Lemma pacing_in_outage p q : pacing p = pacing q -> in_outage p -> in_outage q.
Proof. unfold pacing, in_outage. by intros [= -> -> -> -> ->]. Qed.
Definition started (now : Z) (p q : ob_remote_peer) : Prop :=
  pacing q = (is_server p, r_policy (recovery p), attempts (info (recovery p)) + 1, outage_us (recovery p), requested (recovery p)) /\
  attempts (info (recovery p)) < max_attempts (r_policy (recovery p)) /\
  u64 (now - outage_us (recovery p)) < retry_budget_ms (r_policy (recovery p)) * 1000.

Lemma pacing_server p q : pacing p = pacing q -> is_server p = is_server q.
Proof. unfold pacing. by intros [= -> _ _ _ _]. Qed.
Lemma pacing_outage p q : pacing p = pacing q -> outage_us (recovery p) = outage_us (recovery q).
Proof. unfold pacing. by intros [= _ _ _ -> _]. Qed.
Lemma started_server now p q : started now p q -> is_server q = is_server p.
Proof. unfold started, pacing. by intros [[= -> _ _ _ _] _]. Qed.
Lemma started_outage now p q : started now p q -> outage_us (recovery q) = outage_us (recovery p).
Proof. unfold started, pacing. by intros [[= _ _ _ -> _] _]. Qed.
Lemma started_pacing now p p' q : pacing p = pacing p' -> started now p q -> started now p' q.
Proof. unfold pacing at 1 2, started. by intros [= -> -> -> -> ->]. Qed.
Lemma enter_pacing s : frames pacing (enter s).
Proof. intros p. unfold enter. by case_bool_decide. Qed.
Lemma schedule_round_started now m p :
  in_outage p ->
  match schedule_round now m p with
  | Stopped => True | Wait _ q => pacing q = pacing p | Start q => started now p q /\ stop q = stop p end.
Proof.
  intros (Hs & Ho & Hr & Hp & Ha). unfold schedule_round. destruct (stop p) eqn:Hst; [done|].
  unfold take_request. rewrite Hr. destruct (exhausted now m p) eqn:E.
  { change (pacing (enter PAUSED p) = pacing p). apply enter_pacing. }
  destruct (_ || _); [|change (pacing (enter RETRY_WAIT p) = pacing p); apply enter_pacing].
  unfold exhausted in E. bools. unfold truth in *. rewrite (proj2 (Z.eqb_neq _ _) Ho) in *. cbn [negb andb] in *. bools.
  split; [|done]. split; [|by split]. pose proof (po_attempts _ Hp).
  assert (u32 (attempts (info (recovery p)) + 1) = attempts (info (recovery p)) + 1) as Hu
    by (apply u32_small; unfold UINT32_MAX; lia).
  unfold pacing, deliver, begin_attempt. cbn. by rewrite Hu.
Qed.
Lemma schedule_started rounds m p q :
  in_outage p -> Forall (fun r => frames pacing r.2) rounds -> schedule rounds m p = Some (0, q) ->
  exists now, In now (map fst rounds) /\ started now p q.
Proof.
  intros Hp Hr. revert m p Hp. induction Hr as [|[now f] rounds Hf Hr IH]; intros m p Hp; [done|]. cbn [schedule map fst].
  pose proof (schedule_round_started now m p Hp) as H. destruct (schedule_round now m p) as [|q1|m' q1]; [done| |].
  - intros [= <-]. exists now. split; [by left|]. by destruct H.
  - intros Hq. assert (pacing (f q1) = pacing p) as Hpc by (transitivity (pacing q1); [exact (Hf q1)|done]).
    destruct (IH m' (f q1) (pacing_in_outage _ _ (eq_sym Hpc) Hp) Hq) as (n & Hn & Hst). exists n. split; [by right|].
    exact (started_pacing _ _ _ _ Hpc Hst).
Qed.
Lemma reset_pacing now p : is_server p = false -> pacing (reset_attempt now p) = pacing p.
Proof.
  intros Hs. unfold reset_attempt. cbv zeta. destruct (negb _ && _); [destruct (_ <? _)|];
    (destruct (is_server _) eqn:E; [exfalso; change (is_server p = true) in E; congruence|done]).
Qed.
Lemma outside_pacing p q : outside p = outside q -> pacing p = pacing q.
Proof. unfold pacing. by intros [= -> ->]. Qed.
Lemma fail_pacing code m : frames pacing (fun p => ob_peer_fail_locked p code m).
Proof.
  intros p. unfold ob_peer_fail_locked. case_bool_decide; [done|]. destruct (truth (result p)); [done|]. by destruct (_ || _).
Qed.
Lemma transport_fail_pacing t1 t2 p code m :
  outage_us (recovery p) <> 0 -> pacing (ob_peer_transport_fail_locked t1 t2 p code m) = pacing p.
Proof.
  intros Ho. unfold ob_peer_transport_fail_locked. destruct (stop p); [done|].
  assert (truth (outage_us (recovery p)) = true) as Ht by (unfold truth; by rewrite (proj2 (Z.eqb_neq _ _) Ho)).
  destruct (managed p); cbn [negb]; [|apply fail_pacing].
  cbv zeta. destruct (truth (attempt_result p));
    (destruct (truth (outage_us _)) eqn:E; [|exfalso; change (truth (outage_us (recovery p)) = false) in E; congruence]);
    by destruct (ever_ready _ && _).
Qed.
Lemma session_failed_pacing t1 t2 e p : outage_us (recovery p) <> 0 -> pacing (session_failed t1 t2 e p) = pacing p.
Proof.
  intros Ho. unfold session_failed. destruct (_ && _); [exact (transport_fail_pacing _ _ _ _ _ Ho)|].
  exact (fail_pacing _ _ (p <| error := e |>)).
Qed.
Lemma attempt_over_pacing t1 t2 j p : outage_us (recovery p) <> 0 -> pacing (attempt_over t1 t2 j p).1 = pacing p.
Proof.
  intros Ho. unfold attempt_over. destruct (stop p); [done|].
  assert (truth (outage_us (recovery p)) = true) as Ht by (unfold truth; by rewrite (proj2 (Z.eqb_neq _ _) Ho)).
  destruct (_ && _); [apply fail_pacing|].
  destruct (is_server p) eqn:Hs; [done|]. unfold delay_next. cbv zeta. rewrite Ht. by destruct (truth (attempts _)).
Qed.

(** Turns of a client within one outage, each of which started an attempt. *)
Inductive outage_turns : list attempt_env -> ob_remote_peer -> ob_remote_peer -> Prop :=
  | outage_none p : outage_turns [] p p
  | outage_turn p envs p1 env p2 p3 go log :
      outage_turns envs p p1 -> env_frames pacing env -> schedule (a_rounds env) false p1 = Some (0, p2) ->
      coordinator_attempt env p1 = Some (p3, go, log) -> outage_turns (envs ++ [env]) p p3.

Lemma client_attempt env p p1 :
  is_server p = false -> schedule (a_rounds env) false p = Some (0, p1) -> is_server (reset_attempt (a_reset env) p1) = false ->
  coordinator_attempt env p =
    let '(e, p3, log) := open_session (a_session env) (reset_attempt (a_reset env) p1) in
    Some (attempt_over (a_delay1 env) (a_delay2 env) (a_jitter env)
      match e with
      | Some e => session_failed (a_fail1 env) (a_fail2 env) e p3
      | None => if a_setup env then a_workers env p3
                else ob_peer_transport_fail_locked (a_fail1 env) (a_fail2 env) p3 OB_REMOTE_EIO (lit "Cannot start connection setup worker")
      end, log).
Proof.
  intros H1 H2 H3. unfold coordinator_attempt. rewrite H1, H2. destruct (stop p) eqn:S.
  - destruct (a_rounds env) as [|[now f] l]; [done|]. cbn [schedule] in H2. unfold schedule_round in H2. by rewrite S in H2.
  - change (truth 0) with false. cbv iota zeta. by rewrite H3.
Qed.
Lemma attempt_pacing env p q r go log :
  in_outage p -> env_frames pacing env -> schedule (a_rounds env) false p = Some (0, q) ->
  coordinator_attempt env p = Some (r, go, log) -> pacing r = pacing q.
Proof.
  intros Hp [Hr Hw] Hs. pose proof Hp as (Hsv & Ho & _ & _ & _).
  destruct (schedule_started _ _ _ _ Hp Hr Hs) as (now & _ & Hst).
  assert (is_server q = false) as Hsq by (by rewrite (started_server _ _ _ Hst)).
  assert (outage_us (recovery q) <> 0) as Hoq by (by rewrite (started_outage _ _ _ Hst)).
  pose proof (reset_pacing (a_reset env) q Hsq) as E2.
  assert (is_server (reset_attempt (a_reset env) q) = false) as Hs2 by (by rewrite (pacing_server _ _ E2)).
  rewrite (client_attempt _ _ _ Hsv Hs Hs2). set (p2 := reset_attempt (a_reset env) q) in *. clearbody p2.
  pose proof (open_session_outside (a_session env) p2) as E3. destruct (open_session (a_session env) p2) as [[e p3] lg].
  cbn [fst snd] in E3. apply outside_pacing in E3. rewrite E2 in E3.
  assert (outage_us (recovery p3) <> 0) as Ho3 by (by rewrite (pacing_outage _ _ E3)).
  set (p4 := match e with Some e => _ | None => _ end). intros [= Hc <-].
  assert (pacing p4 = pacing p3) as E4.
  { subst p4. destruct e; [by apply session_failed_pacing|]. destruct (a_setup env); [apply Hw|by apply transport_fail_pacing]. }
  clearbody p4. rewrite E3 in E4.
  assert (outage_us (recovery p4) <> 0) as Ho4 by (by rewrite (pacing_outage _ _ E4)).
  pose proof (attempt_over_pacing (a_delay1 env) (a_delay2 env) (a_jitter env) p4 Ho4) as E5. rewrite Hc in E5.
  cbn [fst] in E5. by rewrite E5.
Qed.

Lemma outage_turns_spec envs p p' :
  in_outage p -> outage_turns envs p p' ->
  in_outage p' /\ r_policy (recovery p') = r_policy (recovery p) /\ outage_us (recovery p') = outage_us (recovery p) /\
  attempts (info (recovery p')) = attempts (info (recovery p)) + zlen envs /\
  (envs <> [] -> attempts (info (recovery p')) <= max_attempts (r_policy (recovery p))) /\
  Forall (fun env => exists now, In now (map fst (a_rounds env)) /\
    u64 (now - outage_us (recovery p)) < retry_budget_ms (r_policy (recovery p)) * 1000) envs.
Proof.
  intros Hp. induction 1 as [p|p envs p1 env p2 p3 go log Hturns IH Hf Hs Hc].
  { split_and!; try done. rewrite zlen_nil. lia. }
  destruct (IH Hp) as (Hp1 & Hpol & Hout & Hatt & _ & Hfor).
  destruct (schedule_started _ _ _ _ Hp1 (proj1 Hf) Hs) as (now & Hnow & Hst & Hmax & Hbud).
  pose proof (attempt_pacing _ _ _ _ _ _ Hp1 Hf Hs Hc) as Hpac. rewrite Hst in Hpac.
  assert (attempts (info (recovery p3)) = attempts (info (recovery p1)) + 1 /\ r_policy (recovery p3) = r_policy (recovery p1) /\
    outage_us (recovery p3) = outage_us (recovery p1) /\ is_server p3 = is_server p1 /\
    requested (recovery p3) = requested (recovery p1)) as (H1 & H2 & H3 & H4 & H5).
  { unfold pacing in Hpac. injection Hpac as -> -> -> -> ->. done. }
  destruct Hp1 as (G1 & G2 & G3 & G4 & G5). split_and!.
  - unfold in_outage. rewrite H1, H2, H3, H4, H5. by split_and!; [..|lia].
  - congruence.
  - congruence.
  - rewrite zlen_snoc. lia.
  - intros _. rewrite <- Hpol. lia.
  - apply Forall_app. split; [done|]. repeat constructor. exists now. split; [done|]. by rewrite <- Hpol, <- Hout.
Qed.

Definition outage_client : ob_remote_peer := managed_peer <| recovery ::= fun r => r <| outage_us := 500 |> |>.
Lemma lost_turn_pacing now seed : env_frames pacing (lost_turn now seed).
Proof. split; [by repeat constructor|done]. Qed.
Lemma lost_in_outage : in_outage outage_client.
Proof. by split_and!. Qed.
Lemma lost_started :
  match schedule (a_rounds (lost_turn 1000 1)) false outage_client with Some (rc, _) => rc =? 0 | None => false end = true /\
  match coordinator_attempt (lost_turn 1000 1) outage_client with Some (_, go, _) => go | None => false end = true.
Proof. vm_compute. done. Qed.
Lemma lost_turns : outage_turns [lost_turn 1000 1] outage_client (turn (lost_turn 1000 1) outage_client).1.
Proof.
  destruct lost_started as [H1 H2].
  destruct (schedule (a_rounds (lost_turn 1000 1)) false outage_client) as [[rc q]|] eqn:E; [|done]. apply Z.eqb_eq in H1 as ->.
  exact (outage_turn _ [] _ _ _ _ _ _ (outage_none _) (lost_turn_pacing _ _) E (turn_eq (lost_turn 1000 1) outage_client H2)).
Qed.

(** ** Backoff *)

Lemma backoff_spec n delay max :
  0 < delay -> 0 < max <= 300000 ->
  Z.min (backoff n delay max) max = Z.min (delay * 2 ^ Z.of_nat n) max.
Proof.
  revert delay. induction n as [|n IH]; intros delay Hd Hm; cbn [backoff].
  - change (2 ^ Z.of_nat 0) with 1. by rewrite Z.mul_1_r.
  - rewrite Nat2Z.inj_succ, Z.pow_succ_r by lia. assert (0 < 2 ^ Z.of_nat n) by (apply Z.pow_pos_nonneg; lia).
    destruct (Z.ltb_spec delay max).
    + rewrite u64_small by (unfold UINT64_MAX; lia). rewrite IH by lia. f_equal. lia.
    + rewrite !Z.min_r by nia. done.
Qed.

(** After a failed attempt the next one is scheduled after the initial delay doubled once
    per attempt so far, capped at the maximum, plus a random part of at most a quarter of it,
    and never later than the maximum delay; the start of the outage is recorded once. *)
Theorem backoff_bounds t1 t2 jitter p :
  policy_ok (r_policy (recovery p)) -> 1 <= attempts (info (recovery p)) -> 0 <= jitter ->
  0 <= t2 -> t2 + 300000 * 1000 <= UINT64_MAX ->
  let r := recovery (delay_next t1 t2 jitter p) in
  let pol := r_policy (recovery p) in
  let base := Z.min (initial_delay_ms pol * 2 ^ (attempts (info (recovery p)) - 1)) (max_delay_ms pol) in
  exists delay, retry_us r = t2 + delay * 1000 /\ base <= delay <= max_delay_ms pol /\ delay <= base + base / 4 /\
    outage_us r = (if outage_us (recovery p) =? 0 then t1 else outage_us (recovery p)).
Proof.
  intros [? ? ? Hd Hm ? ? ? ?] Ha Hj Ht2 Hmax. cbv zeta. unfold delay_next. cbv zeta.
  set (r0 := if truth (outage_us (recovery p)) then recovery p else _).
  assert (attempts (info r0) = attempts (info (recovery p)) /\ r_policy r0 = r_policy (recovery p) /\
    outage_us r0 = if outage_us (recovery p) =? 0 then t1 else outage_us (recovery p)) as (E1 & E2 & E3).
  { subst r0. unfold truth. by destruct (outage_us (recovery p) =? 0). }
  rewrite E1, E2. clearbody r0. unfold truth. rewrite (proj2 (Z.eqb_neq _ _)) by lia. cbn [negb].
  set (pol := r_policy (recovery p)) in *. clearbody pol.
  rewrite backoff_spec by lia. rewrite Z2Nat.id by lia.
  set (base := Z.min (initial_delay_ms pol * _) _). exists (Z.min (u64 (base + jitter mod (base / 4 + 1))) (max_delay_ms pol)).
  assert (1 <= base <= max_delay_ms pol) as Hb.
  { subst base. assert (0 < 2 ^ (attempts (info (recovery p)) - 1)) by (apply Z.pow_pos_nonneg; lia). nia. }
  clearbody base. pose proof (Z.mod_pos_bound jitter (base / 4 + 1)). pose proof (Z.div_le_upper_bound base 4 base).
  assert (0 <= base / 4) by (apply Z.div_pos; lia).
  rewrite (u64_small (base + _)) by (unfold UINT64_MAX; lia). split_and!; try lia; [|exact E3].
  change (u64 (t2 + Z.min (base + jitter mod (base / 4 + 1)) (max_delay_ms pol) * 1000) =
    t2 + Z.min (base + jitter mod (base / 4 + 1)) (max_delay_ms pol) * 1000). apply u64_small. lia.
Qed.
Lemma backoff_bounds_witness :
  let p := outage_client <| recovery ::= fun r => r <| info ::= fun i => i <| attempts := 3 |> |> |> in
  exists delay, retry_us (recovery (delay_next 9 1000 77 p)) = 1000 + delay * 1000 /\ 4000 <= delay <= 15000 /\ delay <= 4000 + 1000.
Proof.
  intros p. destruct (backoff_bounds 9 1000 77 p) as (d & H1 & H2 & H3 & _);
    [split; cbn; lia|cbn; lia|lia|lia|unfold UINT64_MAX; lia|]. exists d. split; [exact H1|]. split; [exact H2|exact H3].
Defined.
