(* ===== verification/Target.v ===== *)
(** * Target authorisation

    src/sdk/c/remote/peer/target.c: the broker side resolves a requested target once and
    connects only to an address its allow rules admit.  getaddrinfo and inet_pton are
    parameters. *)

From S2P Require Import Prelude.
From S2P Require Import Peer.

(** An address: its family (true for IPv6) and its bytes in network order. *)
Record sockaddr := Sockaddr { v6 : bool; octets : list Z }.
Record addrinfo := Addrinfo { ai_known : bool; ai_fits : bool; ai_addr : sockaddr }.
Record allow_rule := AllowRule { rule_host : list Z; port_first : Z; port_last : Z; rule_protocol : Z }.

Definition lower (c : Z) : Z := if (65 <=? c) && (c <=? 90) then c + 32 else c.
Definition strcasecmp_eq (a b : list Z) : bool := list_eqb (map lower a) (map lower b).
Definition isspace (c : Z) : bool := (c =? 32) || ((9 <=? c) && (c <=? 13)).
Definition isdigit (c : Z) : bool := (48 <=? c) && (c <=? 57).

(** [strtol] in base ten: the value and the text behind the number; without digits the
    end is the beginning.  Values beyond a long saturate, here they grow: both are above
    every bound they are compared with. *)
Fixpoint strtol_digits (l : list Z) (acc : Z) : Z * list Z :=
  match l with
  | c :: l' => if isdigit c then strtol_digits l' (acc * 10 + (c - 48)) else (acc, l)
  | [] => (acc, [])
  end.
Fixpoint skip_isspace (l : list Z) : list Z :=
  match l with c :: l' => if isspace c then skip_isspace l' else l | [] => [] end.
Definition strtol (l : list Z) : Z * list Z :=
  let s := skip_isspace l in
  let '(neg, d) := match s with c :: s' => if c =? 45 then (true, s') else if c =? 43 then (false, s') else (false, s) | [] => (false, []) end in
  match d with
  | c :: _ => if isdigit c then let r := strtol_digits d 0 in (if neg then - r.1 else r.1, r.2) else (0, l)
  | [] => (0, l)
  end.
(** [%d] of [sscanf]: blanks, a sign, digits. *)
Definition scan_int (l : list Z) : option (Z * list Z) :=
  let s := skip_isspace l in
  let '(neg, d) := match s with c :: s' => if c =? 45 then (true, s') else if c =? 43 then (false, s') else (false, s) | [] => (false, []) end in
  match d with
  | c :: _ => if isdigit c then let r := strtol_digits d 0 in Some (if neg then - r.1 else r.1, r.2) else None
  | [] => None
  end.
(** [strchr] of a slash: the text before it and what follows, if there is one. *)
Fixpoint cut (sep : Z) (l : list Z) : list Z * option (list Z) :=
  match l with
  | [] => ([], None)
  | c :: l => if c =? sep then ([], Some l) else let r := cut sep l in (c :: r.1, r.2)
  end.

Section target.
Context (pton : bool -> list Z -> option (list Z)).

(** The prefix length of a rule for a family, [None] when it is not usable. *)
Definition rule_bits (family : bool) (slash : option (list Z)) : option Z :=
  let bits := if family then 128 else 32 in
  match slash with
  | None => Some bits
  | Some s => let (n, rest) := strtol s in
      if (zlen s =? 0) || negb (zlen rest =? 0) || (n <? 0) || (bits <? n) then None else Some n
  end.
Definition prefix_equal (bits : Z) (network chosen : list Z) : bool :=
  list_eqb (ztake (bits / 8) network) (ztake (bits / 8) chosen) &&
  ((bits mod 8 =? 0) ||
   (Z.land (Z.lxor (znth network (bits / 8)) (znth chosen (bits / 8))) (Z.shiftl 255 (8 - bits mod 8)) =? 0)).
Definition ip_matches (rule : list Z) (addr : sockaddr) : bool :=
  let (text, slash) := cut 47 (ztake OB_MAX_HOST rule) in
  match rule_bits (v6 addr) slash with
  | None => false
  | Some bits => match pton (v6 addr) text with
                 | None => false
                 | Some network => prefix_equal bits network (octets addr)
                 end
  end.

Definition rule_applies (protocol port : Z) (rule : allow_rule) : bool :=
  (rule_protocol rule =? protocol) && (port_first rule <=? port) && (port <=? port_last rule).
Definition rule_admits (host : list Z) (protocol port : Z) (addr : sockaddr) (rule : allow_rule) : bool :=
  rule_applies protocol port rule && (strcasecmp_eq (rule_host rule) host || ip_matches (rule_host rule) addr).
Fixpoint first_admitted (rules : list allow_rule) (host : list Z) (protocol port : Z) (l : list addrinfo) : option sockaddr :=
  match l with
  | [] => None
  | ai :: l =>
    if ai_known ai && ai_fits ai && existsb (rule_admits host protocol port (ai_addr ai)) rules then Some (ai_addr ai)
    else first_admitted rules host protocol port l
  end.

(** [resolver] is getaddrinfo, [None] when it fails.  The result is an error code or the
    address, and whether the resolver was asked. *)
Definition ob_target_resolve (p : ob_remote_peer) (rules : list allow_rule) (resolver : list Z -> Z -> option (list addrinfo))
    (host : list Z) (port protocol : Z) : (Z + sockaddr) * bool :=
  if negb (is_server p) || negb (ready p) || negb (truth port) || negb (ob_valid_host (Some host) false) then (inl OB_REMOTE_EACL, false)
  else if negb (existsb (rule_applies protocol port) rules) then (inl OB_REMOTE_EACL, false)
  else match resolver host port with
  | None => (inl OB_REMOTE_EIO, true)
  | Some l => (match first_admitted rules host protocol port l with Some a => inr a | None => inl OB_REMOTE_EACL end, true)
  end.
End target.

(** ** What a rule means *)

(** Bit [i] of an address, from the most significant bit of the first octet. *)
Definition addr_bit (l : list Z) (i : Z) : bool := Z.testbit (znth l (i / 8)) (7 - i mod 8).
Definition same_prefix (bits : Z) (l k : list Z) : Prop := forall i, 0 <= i < bits -> addr_bit l i = addr_bit k i.

Lemma znth_take (l : list Z) n i : 0 <= i < n -> znth (ztake n l) i = znth l i.
Proof.
  intros Hi. unfold znth, zget, ztake. rewrite (proj2 (Z.leb_le 0 i)) by lia. f_equal. apply lookup_take_lt. lia.
Qed.
Lemma byte_bits a b : byte a -> byte b -> (forall j, 0 <= j < 8 -> Z.testbit a j = Z.testbit b j) -> a = b.
Proof.
  intros Ha Hb H. apply Z.bits_inj'. intros j Hj. destruct (Z.lt_ge_cases j 8) as [Hl|Hl]; [auto|].
  rewrite !(Z.bits_above_log2); [done|..]; unfold byte in *.
  - lia.
  - destruct (Z.eq_dec b 0) as [->|]; [cbn; lia|]. apply Z.log2_lt_pow2; [lia|].
    apply Z.lt_le_trans with (2 ^ 8); [lia|]. apply Z.pow_le_mono_r; lia.
  - lia.
  - destruct (Z.eq_dec a 0) as [->|]; [cbn; lia|]. apply Z.log2_lt_pow2; [lia|].
    apply Z.lt_le_trans with (2 ^ 8); [lia|]. apply Z.pow_le_mono_r; lia.
Qed.
Lemma znth_byte l i : bytes l -> byte (znth l i).
Proof.
  intros Hl. unfold znth, zget. destruct (0 <=? i); [|cbn; unfold byte; lia].
  destruct (l !! Z.to_nat i) as [x|] eqn:E; [|cbn; unfold byte; lia]. cbn. by eapply Forall_lookup_1 in E.
Qed.
(** The octets before position [n] agree exactly when their bits do. *)
Lemma octets_bits n l k :
  bytes l -> bytes k -> 0 <= n <= zlen l -> zlen k = zlen l ->
  ztake n l = ztake n k <-> same_prefix (8 * n) l k.
Proof.
  intros Hl Hk Hn Hlen. split.
  - intros H i Hi. unfold addr_bit. assert (0 <= i / 8 < n) by (split; [apply Z.div_pos; lia|apply Z.div_lt_upper_bound; lia]).
    by rewrite <- (znth_take l n), <- (znth_take k n), H.
  - intros H. apply list_eq. intros i. unfold ztake.
    destruct (decide (i < Z.to_nat n)%nat) as [Hi|Hi].
    2:{ rewrite !lookup_take_ge by lia. done. }
    rewrite !lookup_take_lt by lia.
    assert (znth l (Z.of_nat i) = znth k (Z.of_nat i)) as Hz.
    { apply byte_bits; [by apply znth_byte..|]. intros j Hj.
      specialize (H (8 * Z.of_nat i + (7 - j)) ltac:(lia)). unfold addr_bit in H.
      rewrite (Z.mul_comm 8), Z.div_add_l, Z.div_small, Z.add_0_r in H by lia.
      rewrite Z.add_comm, Z_mod_plus_full, Z.mod_small in H by lia. by replace (7 - (7 - j)) with j in H by lia. }
    unfold znth, zget in Hz. rewrite (proj2 (Z.leb_le 0 (Z.of_nat i))) in Hz by lia. rewrite Nat2Z.id in Hz.
    destruct (lookup_lt_is_Some_2 l i) as [x Hx]; [unfold zlen in *; lia|].
    destruct (lookup_lt_is_Some_2 k i) as [y Hy]; [unfold zlen in *; lia|].
    rewrite Hx, Hy in *. cbn in Hz. by rewrite Hz.
Qed.
(** The masked comparison of one octet looks at its [m] leading bits. *)
Lemma mask_bits a b m :
  byte a -> byte b -> 0 < m < 8 ->
  Z.land (Z.lxor a b) (Z.shiftl 255 (8 - m)) = 0 <-> forall j, 8 - m <= j < 8 -> Z.testbit a j = Z.testbit b j.
Proof.
  intros Ha Hb Hm. split.
  - intros H j Hj. apply (f_equal (fun z => Z.testbit z j)) in H. rewrite Z.land_spec, Z.lxor_spec, Z.shiftl_spec, Z.bits_0 in H by lia.
    assert (Z.testbit 255 (j - (8 - m)) = true) as Ht.
    { change 255 with (Z.ones 8). apply Z.ones_spec_low. lia. }
    rewrite Ht, andb_true_r in H. by apply xorb_eq.
  - intros H. apply Z.bits_inj'. intros j Hj. rewrite Z.land_spec, Z.lxor_spec, Z.shiftl_spec, Z.bits_0 by lia.
    destruct (Z.lt_ge_cases j (8 - m)); [rewrite (Z.testbit_neg_r 255) by lia; apply andb_false_r|].
    destruct (Z.lt_ge_cases j 8) as [Hj8|Hj8]; [by rewrite H, xorb_nilpotent by lia|].
    assert (forall x, byte x -> Z.testbit x j = false) as Hx.
    { intros x Hx. rewrite Z.testbit_eqb by lia. rewrite Z.div_small; [done|]. unfold byte in Hx.
      split; [lia|]. apply Z.lt_le_trans with (2 ^ 8); [lia|]. apply Z.pow_le_mono_r; lia. }
    by rewrite !Hx.
Qed.
Lemma prefix_equal_spec bits l k :
  bytes l -> bytes k -> zlen k = zlen l -> 0 <= bits <= 8 * zlen l ->
  prefix_equal bits l k = true <-> same_prefix bits l k.
Proof.
  intros Hl Hk Hlen Hb. pose proof (Z.div_mod bits 8 ltac:(lia)) as Hdm. pose proof (Z.mod_pos_bound bits 8 ltac:(lia)).
  assert (0 <= bits / 8 <= zlen l) as Hq by (split; [apply Z.div_pos; lia|apply Z.div_le_upper_bound; lia]).
  assert (same_prefix bits l k <-> same_prefix (8 * (bits / 8)) l k /\
    (bits mod 8 = 0 \/ forall j, 8 - bits mod 8 <= j < 8 -> Z.testbit (znth l (bits / 8)) j = Z.testbit (znth k (bits / 8)) j)) as Hs.
  { split.
    - intros H'. split; [intros i Hi; apply H'; lia|]. right. intros j Hj.
      specialize (H' (8 * (bits / 8) + (7 - j)) ltac:(lia)). unfold addr_bit in H'.
      rewrite (Z.mul_comm 8), Z.div_add_l, (Z.div_small (7 - j)), Z.add_0_r in H' by lia.
      rewrite Z.add_comm, Z_mod_plus_full, Z.mod_small in H' by lia. by replace (7 - (7 - j)) with j in H' by lia.
    - intros [H1 H2] i Hi. destruct (Z.lt_ge_cases i (8 * (bits / 8))) as [Hi8|Hi8]; [apply H1; lia|].
      destruct H2 as [H2|H2]; [lia|]. unfold addr_bit. replace (i / 8) with (bits / 8) by (apply (Z.div_unique i 8 _ (i - 8 * (bits / 8))); lia).
      apply H2. replace (i mod 8) with (i - 8 * (bits / 8)) by (apply (Z.mod_unique i 8 (bits / 8)); lia). lia. }
  rewrite Hs, <- (octets_bits (bits / 8) l k Hl Hk Hq Hlen). unfold prefix_equal.
  rewrite andb_true_iff, orb_true_iff, list_eqb_eq, !Z.eqb_eq.
  destruct (Z.eq_dec (bits mod 8) 0) as [Hz|Hz]; [tauto|].
  rewrite (mask_bits _ _ (bits mod 8)) by (try apply znth_byte; done || lia). tauto.
Qed.

(** inet_pton yields four octets for IPv4 and sixteen for IPv6. *)
Definition pton_ok (pton : bool -> list Z -> option (list Z)) : Prop :=
  forall family t l, pton family t = Some l -> bytes l /\ zlen l = if family then 16 else 4.
Definition sockaddr_ok (a : sockaddr) : Prop := bytes (octets a) /\ zlen (octets a) = if v6 a then 16 else 4.

(** A rule written as an address or a network covers an address: same family, and the
    leading bits agree. *)
Definition covers (pton : bool -> list Z -> option (list Z)) (rule : list Z) (a : sockaddr) : Prop :=
  exists bits network, rule_bits (v6 a) (cut 47 (ztake OB_MAX_HOST rule)).2 = Some bits /\
    pton (v6 a) (cut 47 (ztake OB_MAX_HOST rule)).1 = Some network /\ same_prefix bits network (octets a).
Definition admitted (pton : bool -> list Z -> option (list Z)) (rules : list allow_rule) (host : list Z) (protocol port : Z) (a : sockaddr) : Prop :=
  exists rule, In rule rules /\ rule_protocol rule = protocol /\ port_first rule <= port <= port_last rule /\
    (map lower (rule_host rule) = map lower host \/ covers pton (rule_host rule) a).

Lemma rule_bits_range family slash bits : rule_bits family slash = Some bits -> 0 <= bits <= if family then 128 else 32.
Proof.
  unfold rule_bits. destruct slash as [s|]; [|intros [= <-]; destruct family; lia].
  destruct (strtol s) as [n rest]. destruct (_ || _) eqn:E; [done|]. intros [= <-]. bools. destruct family; lia.
Qed.
Lemma ip_matches_spec pton rule a : pton_ok pton -> sockaddr_ok a -> ip_matches pton rule a = true <-> covers pton rule a.
Proof.
  intros Hp [Ha1 Ha2]. unfold ip_matches, covers. destruct (cut 47 _) as [text slash]. cbn [fst snd].
  destruct (rule_bits (v6 a) slash) as [bits|] eqn:E; [|split; [done|by intros (? & ? & ? & _)]].
  apply rule_bits_range in E. destruct (pton (v6 a) text) as [network|] eqn:En; [|split; [done|by intros (? & ? & _ & ? & _)]].
  destruct (Hp _ _ _ En) as [Hn1 Hn2]. rewrite prefix_equal_spec; [|done|done|congruence|rewrite Hn2; destruct (v6 a); lia].
  split; [intros; by exists bits, network|]. by intros (? & ? & [= <-] & [= <-] & ?).
Qed.
Lemma admitted_spec pton rules host protocol port a :
  pton_ok pton -> sockaddr_ok a ->
  existsb (rule_admits pton host protocol port a) rules = true <-> admitted pton rules host protocol port a.
Proof.
  intros Hp Ha. rewrite existsb_exists. unfold admitted. f_equiv. intros rule. unfold rule_admits, rule_applies, strcasecmp_eq.
  rewrite !andb_true_iff, orb_true_iff, list_eqb_eq, (ip_matches_spec pton) by done. rewrite Z.eqb_eq, !Z.leb_le. tauto.
Qed.

(** C10: the broker connects only to an address that the resolver returned for the requested
    host in its single query and that a rule for this protocol and port admits, either by naming
    the host or because the leading bits of the address agree with the rule's network; it takes
    the first such address and refuses when there is none.  A target no rule allows by
    protocol and port is refused without a query, and so is any target before the peer is
    ready. *)
Theorem target_authorized pton p rules resolver host port protocol :
  pton_ok pton -> (forall l, resolver host port = Some l -> Forall (fun ai => sockaddr_ok (ai_addr ai)) l) ->
  match ob_target_resolve pton p rules resolver host port protocol with
  | (inr a, asked) => asked = true /\ ready p = true /\ is_server p = true /\
      exists before ai after, resolver host port = Some (before ++ ai :: after) /\ ai_addr ai = a /\
        admitted pton rules host protocol port a /\
        Forall (fun x => ai_known x && ai_fits x = true -> ~ admitted pton rules host protocol port (ai_addr x)) before
  | (inl rc, true) => (rc = OB_REMOTE_EIO /\ resolver host port = None) \/
      (rc = OB_REMOTE_EACL /\ exists l, resolver host port = Some l /\
        Forall (fun x => ai_known x && ai_fits x = true -> ~ admitted pton rules host protocol port (ai_addr x)) l)
  | (inl rc, false) => rc = OB_REMOTE_EACL /\
      (ready p = false \/ is_server p = false \/ port = 0 \/ ob_valid_host (Some host) false = false \/
       forall a, ~ admitted pton rules host protocol port a)
  end.
Proof.
  intros Hp Hres. unfold ob_target_resolve. destruct (_ || _) eqn:E1.
  { split; [done|]. repeat (apply orb_true_iff in E1 as [E1|E1]); apply negb_true_iff in E1; auto.
    right; right; left. unfold truth in E1. by bools. }
  bools. destruct (existsb (rule_applies protocol port) rules) eqn:E2; cbn [negb].
  2:{ split; [done|]. do 4 right. intros a (rule & Hin & <- & Hpt & _).
      apply not_true_iff_false in E2. apply E2. apply existsb_exists. exists rule. split; [done|].
      unfold rule_applies. rewrite Z.eqb_refl, !(proj2 (Z.leb_le _ _)) by lia. done. }
  destruct (resolver host port) as [l|]; [|by left]. specialize (Hres l eq_refl).
  assert (match first_admitted pton rules host protocol port l with
    | Some a => exists before ai after, l = before ++ ai :: after /\ ai_addr ai = a /\ admitted pton rules host protocol port a /\
        Forall (fun x => ai_known x && ai_fits x = true -> ~ admitted pton rules host protocol port (ai_addr x)) before
    | None => Forall (fun x => ai_known x && ai_fits x = true -> ~ admitted pton rules host protocol port (ai_addr x)) l end) as Hf.
  { induction Hres as [|ai l Hai Hl IH]; [constructor|]. cbn [first_admitted].
    destruct (ai_known ai && ai_fits ai) eqn:Ek; cbn [andb].
    - destruct (existsb (rule_admits pton host protocol port (ai_addr ai)) rules) eqn:Ea.
      + apply admitted_spec in Ea; [|done|done]. exists [], ai, l. split; [done|]. split; [done|]. split; [done|constructor].
      + assert (~ admitted pton rules host protocol port (ai_addr ai)) as Hn by (rewrite <- admitted_spec by done; by rewrite Ea).
        destruct (first_admitted pton rules host protocol port l); [|by constructor].
        destruct IH as (b & x & r & -> & <- & ? & ?). exists (ai :: b), x, r. by split_and!; [..|constructor].
    - destruct (first_admitted pton rules host protocol port l); [|constructor; [congruence|done]].
      destruct IH as (b & x & r & -> & <- & ? & ?). exists (ai :: b), x, r. split_and!; try done. constructor; [congruence|done]. }
  destruct (first_admitted pton rules host protocol port l) as [a|]; [|right; split; [done|]; by exists l].
  destruct Hf as (b & x & r & -> & Hx & Ha & Hb). split; [done|]. split; [done|]. split; [done|]. by exists b, x, r.
Qed.

(** Dotted text stands for itself in the sample below. *)
Definition toy_pton (family : bool) (t : list Z) : option (list Z) :=
  if family then None else if list_eqb t (lit "10.1.0.0") then Some [10; 1; 0; 0] else None.
Lemma target_authorized_witness :
  let p := sample_peer <| is_server := true |> <| ready := true |> in
  let rules := [AllowRule (lit "10.1.0.0/20") 80 90 OB_REMOTE_TCP] in
  let resolver := fun _ _ => Some [Addrinfo true true (Sockaddr false [10; 2; 0; 1]); Addrinfo true true (Sockaddr false [10; 1; 15; 9])] in
  ob_target_resolve toy_pton p rules resolver (lit "db") 85 OB_REMOTE_TCP = (inr (Sockaddr false [10; 1; 15; 9]), true) /\
  admitted toy_pton rules (lit "db") OB_REMOTE_TCP 85 (Sockaddr false [10; 1; 15; 9]).
Proof.
  intros p rules resolver. split; [vm_compute; reflexivity|].
  assert (pton_ok toy_pton) as Hp.
  { intros family t l. unfold toy_pton. destruct family; [discriminate|]. destruct (list_eqb t _); [|discriminate].
    intros [= <-]. split; [repeat constructor; lia|reflexivity]. }
  pose proof (target_authorized toy_pton p rules resolver (lit "db") 85 OB_REMOTE_TCP Hp) as H.
  replace (ob_target_resolve toy_pton p rules resolver (lit "db") 85 OB_REMOTE_TCP) with
    ((inr (Sockaddr false [10; 1; 15; 9]) : Z + sockaddr), true) in H by (vm_compute; reflexivity).
  destruct H as (_ & _ & _ & b & x & r & _ & _ & Ha & _); [|exact Ha].
  intros l [= <-]. repeat constructor; lia.
Defined.
