(* ===== verification/Juice.v ===== *)
(** * The description parser of libjuice

    src/sdk/c/tpr/libjuice/src/ice.c, the copy the project vendors: how a session description
    that [juice_set_remote_description] is given becomes a list of candidates.  The lines of the
    text, the recognised attributes and the [sscanf] of a candidate are modelled; the addresses
    ([ice_resolve_candidate]) and the order by priority are not, since neither adds or removes a
    candidate.  The second half says which candidate a line spells by its blank-separated
    fields, independently of any scanner. *)

From S2P Require Import Prelude.
From S2P Require Import Api Target.
#[local] Open Scope Z_scope.
#[local] Arguments lit : simpl never.

(** ** Scanning *)

(** [%Ns]: blanks, then at least one and at most [n] other characters. *)
Fixpoint take_word (n : nat) (l : list Z) : list Z * list Z :=
  match n, l with
  | S n, c :: l' => if isspace c then ([], l) else let r := take_word n l' in (c :: r.1, r.2)
  | _, _ => ([], l)
  end.
Definition scan_word (n : nat) (l : list Z) : option (list Z * list Z) :=
  match take_word n (skip_isspace l) with ([], _) => None | r => Some r end.
(** A word of the format behind a blank. *)
Definition scan_literal (want l : list Z) : option (list Z) :=
  let s := skip_isspace l in
  if list_eqb (ztake (zlen want) s) want then Some (zdrop (zlen want) s) else None.

Inductive candidate_type := HOST | SERVER_REFLEXIVE | RELAYED.
Inductive candidate_transport := UDP | TCP_ACTIVE | TCP_PASSIVE | TCP_SO.
#[export] Instance candidate_type_eq : EqDecision candidate_type.
Proof. solve_decision. Defined.
#[export] Instance candidate_transport_eq : EqDecision candidate_transport.
Proof. solve_decision. Defined.
(** [component] and [priority] as they are spelled. *)
Record ice_candidate := IceCandidate {
  c_foundation : list Z; c_component : Z; c_transport : candidate_transport; c_priority : Z;
  c_hostname : list Z; c_service : list Z; c_type : candidate_type
}.

Definition upper (c : Z) : Z := if (97 <=? c) && (c <=? 122) then c - 32 else c.
Definition parse_type (s : list Z) : option candidate_type :=
  let s := map lower s in
  if list_eqb s (lit "host") then Some HOST else if list_eqb s (lit "srflx") then Some SERVER_REFLEXIVE
  else if list_eqb s (lit "relay") then Some RELAYED else None.
Definition parse_transport (s tcp_type : list Z) : option candidate_transport :=
  let s := map upper s in
  if list_eqb s (lit "TCP") then
    if list_eqb tcp_type (lit "active") then Some TCP_ACTIVE else if list_eqb tcp_type (lit "passive") then Some TCP_PASSIVE
    else if list_eqb tcp_type (lit "so") then Some TCP_SO else None
  else if list_eqb s (lit "UDP") then Some UDP else None.
(** The seven fields of the format, then none or two more ([res] is 7 or 9). *)
Definition parse_sdp_candidate (line : list Z) : option ice_candidate :=
  '(foundation, l) ← scan_word 32 line;
  '(component, l) ← scan_int l;
  '(transport, l) ← scan_word 32 l;
  '(priority, l) ← scan_int l;
  '(hostname, l) ← scan_word 256 l;
  '(service, l) ← scan_word 32 l;
  l ← scan_literal (lit "typ") l;
  '(type, l) ← scan_word 32 l;
  tcp_type ← match scan_word 7 l with
             | None => Some []
             | Some (_, l) => fst <$> scan_word 7 l
             end;
  kind ← parse_type type;
  tr ← parse_transport transport tcp_type;
  Some (IceCandidate foundation component tr priority hostname service kind).
Definition candidate_text : list Z := lit "a=candidate:".
Definition ice_parse_candidate_sdp (line : list Z) : option ice_candidate :=
  if list_eqb (ztake 12 line) candidate_text then parse_sdp_candidate (zdrop 12 line) else None.

(** ** A description *)

Record ice_description := IceDescription {
  ice_ufrag : list Z; ice_pwd : list Z; ice_lite : bool; candidates : list ice_candidate; finished : bool }.
#[export] Instance eta_ice_description : Eta ice_description := fun d =>
  IceDescription (ice_ufrag d) (ice_pwd d) (ice_lite d) (candidates d) (finished d).
#[export] Instance eta_ice_candidate : Eta ice_candidate := fun c =>
  IceCandidate (c_foundation c) (c_component c) (c_transport c) (c_priority c) (c_hostname c) (c_service c) (c_type c).

Definition ICE_MAX_CANDIDATES_COUNT : Z := 30.
Definition BUFFER_SIZE : Z := 1024.
Definition starts_with (prefix l : list Z) : bool := list_eqb (ztake (zlen prefix) l) prefix.
(** A foundation of a single hyphen is replaced by the position of the candidate. *)
Definition ice_add_candidate (c : ice_candidate) (d : ice_description) : ice_description :=
  if ICE_MAX_CANDIDATES_COUNT <=? zlen (candidates d) then d
  else d <| candidates ::= fun l => l ++ [if list_eqb (c_foundation c) (lit "-")
                                          then c <| c_foundation := decimal (zlen (candidates d) + 1) |> else c] |>.
(** [sscanf] without a word leaves the field as it is. *)
Definition parse_sdp_line (line : list Z) (d : ice_description) : ice_description :=
  if starts_with (lit "a=ice-ufrag:") line then
    match scan_word 256 (zdrop 12 line) with Some (w, _) => d <| ice_ufrag := w |> | None => d end
  else if starts_with (lit "a=ice-pwd:") line then
    match scan_word 256 (zdrop 10 line) with Some (w, _) => d <| ice_pwd := w |> | None => d end
  else if starts_with (lit "a=ice-lite") line then d <| ice_lite := true |>
  else if starts_with (lit "a=end-of-candidates") line then d <| finished := true |>
  else match ice_parse_candidate_sdp line with Some c => ice_add_candidate c d | None => d end.
(** The lines [ice_parse_sdp] collects in its buffer: carriage returns are dropped wherever they
    stand, a line is cut at 1023 characters, empty lines and an unterminated last line are not
    parsed. *)
Fixpoint sdp_buffers (buffer l : list Z) : list (list Z) :=
  match l with
  | [] => []
  | c :: l =>
    if c =? 10 then if zlen buffer =? 0 then sdp_buffers [] l else buffer :: sdp_buffers [] l
    else if negb (c =? 13) && (zlen buffer + 1 <? BUFFER_SIZE) then sdp_buffers (buffer ++ [c]) l
    else sdp_buffers buffer l
  end.
Definition juice_lines (sdp : list Z) : list (list Z) := sdp_buffers [] sdp.
Definition no_description : ice_description := IceDescription [] [] false [] false.
(** The description [ice_parse_sdp] has read at the end of its loop, before the candidates are
    sorted by priority; [parse_sdp_line] never answers ICE_PARSE_ERROR, so the loop reads all. *)
Definition read_description (sdp : list Z) : ice_description :=
  fold_left (fun d line => parse_sdp_line line d) (juice_lines sdp) no_description.

(** ** What a candidate line spells *)

Definition sdp_blank (c : Z) : Prop := c = 32 \/ c = 9 \/ c = 13 \/ c = 10.
Definition ends (l : list Z) : Prop := forall c r, l = c :: r -> sdp_blank c.
(** The text begins with these fields, blanks before and between them. *)
Inductive sdp_fields : list (list Z) -> list Z -> Prop :=
  | fields_nil l : sdp_fields [] l
  | fields_cons b t rest ts : Forall sdp_blank b -> t <> [] -> Forall (fun c => ~ sdp_blank c) t -> ends rest ->
      sdp_fields ts rest -> sdp_fields (t :: ts) (b ++ t ++ rest).
(** RFC 5245, 15.1: foundation, component, transport, priority, address, port, [typ] and the
    type; here component 1 over UDP of type relay. *)
Definition relay_spelled (line priority host port : list Z) : Prop :=
  ztake 12 line = candidate_text /\
  exists f tr kind, sdp_fields [f; lit "1"; tr; priority; host; port; lit "typ"; kind] (zdrop 12 line) /\
    zlen f <= 32 /\ map lower tr = lit "udp" /\ map lower kind = lit "relay".
(** The lines on which [sscanf] cuts the same fields: no vertical tab or form feed (blanks to
    [sscanf] only), a priority of digits, a port that fits its buffer. *)
Definition plain (line priority port : list Z) : Prop :=
  Forall (fun c => c <> 11 /\ c <> 12) line /\ Forall (fun c => isdigit c = true) priority /\ zlen port <= 32.

Lemma fields_unique ts ts' l : sdp_fields ts l -> sdp_fields ts' l -> length ts = length ts' -> ts = ts'.
Proof.
  intros H. revert ts'. induction H as [|b t rest ts Hb Ht Htb He _ IH]; intros ts' H' Hl; [by destruct ts'|].
  assert (forall b t rest l, Forall sdp_blank b -> t <> [] -> Forall (fun c => ~ sdp_blank c) t -> ends rest -> l = b ++ t ++ rest ->
    forall b' t' rest', Forall sdp_blank b' -> t' <> [] -> Forall (fun c => ~ sdp_blank c) t' -> ends rest' -> l = b' ++ t' ++ rest' ->
    t = t' /\ rest = rest') as Hcut.
  { clear. intros b t rest l Hb Ht Htb He -> b' t' rest' Hb' Ht' Htb' He' Heq.
    assert (forall u u' r r', Forall (fun c => ~ sdp_blank c) u -> Forall (fun c => ~ sdp_blank c) u' -> ends r -> ends r' ->
      u ++ r = u' ++ r' -> u = u' /\ r = r') as Hw.
    { clear. intros u. induction u as [|c u IH]; intros [|c' u'] r r' Hu Hu' Hr Hr' E; cbn in E.
      - done.
      - destruct (Forall_inv Hu' (Hr _ _ E)).
      - destruct (Forall_inv Hu (Hr' _ _ (eq_sym E))).
      - injection E as -> E. inversion Hu; inversion Hu'; subst. destruct (IH _ _ _ ltac:(done) ltac:(done) Hr Hr' E) as [-> ->]. done. }
    revert b' Hb' Heq. induction Hb as [|c b Hc Hb IH]; intros b' Hb' Heq.
    - destruct Hb' as [|c' b' Hc' Hb']; [by apply Hw|]. destruct t as [|d t]; [done|]. cbn in Heq. injection Heq as -> _. by inversion Htb.
    - destruct Hb' as [|c' b' Hc' Hb'].
      + destruct t' as [|d t']; [done|]. cbn in Heq. injection Heq as <- _. by inversion Htb'.
      + cbn in Heq. injection Heq as _ Heq. by apply (IH b'). }
  remember (b ++ t ++ rest) as l eqn:El. destruct H' as [|b' t' rest' ts'' Hb' Ht' Htb' He' H']; [done|].
  destruct (Hcut b t rest _ Hb Ht Htb He El b' t' rest' Hb' Ht' Htb' He' eq_refl) as [-> ->]. f_equal. apply IH; [done|].
  cbn in Hl. lia.
Qed.

(** *** [sscanf] on a plain line *)

Lemma blank_space c : sdp_blank c -> isspace c = true.
Proof. unfold sdp_blank, isspace. intros [->|[->|[->| ->]]]; done. Qed.
Lemma plain_space c : c <> 11 /\ c <> 12 -> ~ sdp_blank c -> isspace c = false.
Proof. unfold sdp_blank, isspace. intros. destruct (Z.eqb_spec c 32), (Z.leb_spec 9 c), (Z.leb_spec c 13); try done; lia. Qed.
Lemma skip_blanks b l : Forall sdp_blank b -> skip_isspace (b ++ l) = skip_isspace l.
Proof. induction 1 as [|c b Hc _ IH]; [done|]. cbn. by rewrite blank_space. Qed.
Lemma skip_word c t : isspace c = false -> skip_isspace (c :: t) = c :: t.
Proof. intros H. cbn. by rewrite H. Qed.
Lemma take_word_field n t rest : Forall (fun c => isspace c = false) t -> ends rest -> (length t <= n)%nat ->
  take_word n (t ++ rest) = (t, rest).
Proof.
  intros Ht He. revert n. induction Ht as [|c t Hc _ IH]; intros n Hn.
  - destruct n as [|n]; [done|]. destruct rest as [|c r]; [done|]. cbn. by rewrite (blank_space c) by (by eapply He).
  - destruct n as [|n]; [cbn in Hn; lia|]. cbn. rewrite Hc, IH by (cbn in Hn; lia). done.
Qed.
Lemma scan_word_field n b t rest : Forall sdp_blank b -> t <> [] -> Forall (fun c => isspace c = false) t -> ends rest ->
  (length t <= n)%nat -> scan_word n (b ++ t ++ rest) = Some (t, rest).
Proof.
  intros Hb Ht Hs He Hn. unfold scan_word. rewrite skip_blanks by done. destruct t as [|c t]; [done|].
  rewrite <- app_comm_cons, skip_word by (by inversion Hs). rewrite app_comm_cons, take_word_field by done. done.
Qed.
Lemma digits_field t rest acc : Forall (fun c => isdigit c = true) t -> ends rest ->
  exists v, strtol_digits (t ++ rest) acc = (v, rest).
Proof.
  intros Ht He. revert acc. induction Ht as [|c t Hc _ IH]; intros acc.
  - exists acc. destruct rest as [|c r]; [done|]. cbn. destruct (He c r eq_refl) as [->|[->|[->| ->]]]; done.
  - cbn. rewrite Hc. apply IH.
Qed.
Lemma digit_word c : isdigit c = true -> isspace c = false /\ (c =? 45) = false /\ (c =? 43) = false.
Proof. unfold isdigit, isspace. intros [?%Z.leb_le ?%Z.leb_le]%andb_true_iff. repeat split; lia. Qed.
Lemma scan_int_field b t rest : Forall sdp_blank b -> t <> [] -> Forall (fun c => isdigit c = true) t -> ends rest ->
  exists v, scan_int (b ++ t ++ rest) = Some (v, rest).
Proof.
  intros Hb Ht Hd He. destruct (digits_field t rest 0 Hd He) as [v Hv]. exists v. unfold scan_int. rewrite skip_blanks by done.
  destruct t as [|c t]; [done|]. assert (isdigit c = true) as Hc by (by inversion Hd). destruct (digit_word c Hc) as (Hs & H1 & H2).
  rewrite <- app_comm_cons in *. rewrite skip_word, H1, H2, Hc, Hv by done. done.
Qed.
Lemma scan_literal_field b t rest : Forall sdp_blank b -> t <> [] -> Forall (fun c => isspace c = false) t ->
  scan_literal t (b ++ t ++ rest) = Some rest.
Proof.
  intros Hb Ht Hs. unfold scan_literal. rewrite skip_blanks by done. destruct t as [|c t]; [done|].
  rewrite <- app_comm_cons, skip_word by (by inversion Hs). rewrite app_comm_cons, ztake_app_exact, list_eqb_refl, zdrop_app_exact by done. done.
Qed.

Lemma upper_lower c : upper (lower c) = upper c.
Proof.
  unfold lower. destruct (Z.leb_spec 65 c), (Z.leb_spec c 90); try done. cbn [andb]. unfold upper.
  rewrite !(proj2 (Z.leb_le _ _)) by lia. destruct (Z.leb_spec 97 c); cbn; lia.
Qed.
Lemma transport_udp tr tcp : map lower tr = lit "udp" -> parse_transport tr tcp = Some UDP.
Proof.
  intros H. unfold parse_transport. assert (map upper tr = lit "UDP") as ->; [|done].
  rewrite <- (map_ext _ _ upper_lower), <- map_map, H. done.
Qed.
Lemma type_relay kind : map lower kind = lit "relay" -> parse_type kind = Some RELAYED.
Proof. intros H. unfold parse_type. by rewrite H. Qed.
Lemma lower_length s w : map lower s = lit w -> length s = length (lit w).
Proof. intros <-. by rewrite length_map. Qed.
Lemma plain_word line t : Forall (fun c => c <> 11 /\ c <> 12) line -> (forall c, In c t -> In c line) ->
  Forall (fun c => ~ sdp_blank c) t -> Forall (fun c => isspace c = false) t.
Proof. rewrite !Forall_forall. intros Hl Hin Ht c Hc. apply plain_space; auto. Qed.

Lemma fields_inv t ts l : sdp_fields (t :: ts) l -> exists b rest, l = b ++ t ++ rest /\ Forall sdp_blank b /\ t <> [] /\
  Forall (fun c => ~ sdp_blank c) t /\ ends rest /\ sdp_fields ts rest.
Proof. inversion 1; subst. by eexists _, _. Qed.
Lemma bind_eq {A B} (o : option A) (f : A -> option B) a : o = Some a -> (o ≫= f) = f a.
Proof. by intros ->. Qed.
(** On a plain line libjuice reads the candidate the fields spell. *)
Lemma relay_parsed line priority host port c :
  relay_spelled line priority host port -> plain line priority port -> zlen line <= 256 ->
  ice_parse_candidate_sdp line = Some c ->
  c_type c = RELAYED /\ c_transport c = UDP /\ c_hostname c = host /\ c_service c = port.
Proof.
  intros (Hpre & f & tr & kind & Hf & Hlf & Htr & Hkind) (Hp & Hpr & Hport) Hlen. unfold ice_parse_candidate_sdp. rewrite Hpre, list_eqb_refl.
  assert (Forall (fun c => c <> 11 /\ c <> 12) (zdrop 12 line)) as Hp' by (by apply Forall_drop).
  assert (zlen (zdrop 12 line) <= 256) as Hlen' by (pose proof (zlen_nonneg line); rewrite zlen_drop; lia). clear Hp Hlen Hpre.
  set (l := zdrop 12 line) in *. clearbody l.
  assert (length f <= 32)%nat as Hf32 by (unfold zlen in Hlf; lia).
  assert (length tr <= 32)%nat as Ht32 by (rewrite (lower_length _ _ Htr); apply Nat.leb_le; reflexivity).
  assert (length kind <= 32)%nat as Hk32 by (rewrite (lower_length _ _ Hkind); apply Nat.leb_le; reflexivity).
  assert (length port <= 32)%nat as Hp32 by (unfold zlen in Hport; lia).
  assert (Forall (fun c => isdigit c = true) (lit "1")) as H1 by (by repeat constructor).
  apply fields_inv in Hf as (b0 & r0 & -> & Hb0 & Hn0 & Hw0 & He0 & Hf).
  apply fields_inv in Hf as (b1 & r1 & -> & Hb1 & Hn1 & Hw1 & He1 & Hf).
  apply fields_inv in Hf as (b2 & r2 & -> & Hb2 & Hn2 & Hw2 & He2 & Hf).
  apply fields_inv in Hf as (b3 & r3 & -> & Hb3 & Hn3 & Hw3 & He3 & Hf).
  apply fields_inv in Hf as (b4 & r4 & -> & Hb4 & Hn4 & Hw4 & He4 & Hf).
  apply fields_inv in Hf as (b5 & r5 & -> & Hb5 & Hn5 & Hw5 & He5 & Hf).
  apply fields_inv in Hf as (b6 & r6 & -> & Hb6 & Hn6 & Hw6 & He6 & Hf).
  apply fields_inv in Hf as (b7 & r7 & -> & Hb7 & Hn7 & Hw7 & He7 & Hf).
  repeat match goal with H : Forall _ (_ ++ _) |- _ => apply Forall_app in H as [? ?] end.
  assert (forall t, Forall (fun c => c <> 11 /\ c <> 12) t -> Forall (fun c => ~ sdp_blank c) t -> Forall (fun c => isspace c = false) t) as Hw.
  { intros t Ha Hb. by apply (plain_word t). }
  assert (length host <= 256)%nat as Hh by (rewrite !zlen_app in Hlen'; unfold zlen in Hlen'; lia).
  edestruct (scan_int_field b1 (lit "1")) as [v1 Hv1]; [exact Hb1|exact Hn1|exact H1|exact He1|].
  edestruct (scan_int_field b3 priority) as [v3 Hv3]; [exact Hb3|exact Hn3|exact Hpr|exact He3|].
  unfold parse_sdp_candidate. rewrite (bind_eq _ _ _ (scan_word_field 32 b0 f _ Hb0 Hn0 ltac:(auto) He0 Hf32)). cbv beta iota.
  rewrite (bind_eq _ _ _ Hv1). cbv beta iota.
  rewrite (bind_eq _ _ _ (scan_word_field 32 b2 tr _ Hb2 Hn2 ltac:(auto) He2 Ht32)). cbv beta iota.
  rewrite (bind_eq _ _ _ Hv3). cbv beta iota.
  rewrite (bind_eq _ _ _ (scan_word_field 256 b4 host _ Hb4 Hn4 ltac:(auto) He4 Hh)). cbv beta iota.
  rewrite (bind_eq _ _ _ (scan_word_field 32 b5 port _ Hb5 Hn5 ltac:(auto) He5 Hp32)). cbv beta iota.
  rewrite (bind_eq _ _ _ (scan_literal_field b6 (lit "typ") _ Hb6 Hn6 ltac:(auto))).
  rewrite (bind_eq _ _ _ (scan_word_field 32 b7 kind _ Hb7 Hn7 ltac:(auto) He7 Hk32)). cbv beta iota.
  destruct (match scan_word 7 r7 with None => _ | Some _ => _ end) as [tcp|]; [|done]. rewrite (bind_eq (Some tcp) _ tcp eq_refl).
  rewrite (bind_eq _ _ _ (type_relay _ Hkind)), (bind_eq _ _ _ (transport_udp _ tcp Htr)). intros Hc. apply (inj Some) in Hc. by subst c.
Qed.

(** Every candidate of a description was read from one of its lines; only the name of its
    foundation may have been replaced. *)
Lemma candidates_read sdp c : In c (candidates (read_description sdp)) ->
  exists line c', In line (juice_lines sdp) /\ ice_parse_candidate_sdp line = Some c' /\ exists f, c = c' <| c_foundation := f |>.
Proof.
  unfold read_description. set (ls := juice_lines sdp).
  assert (forall l d, (forall line, In line l -> In line ls) ->
    (forall c, In c (candidates d) -> exists line c', In line ls /\ ice_parse_candidate_sdp line = Some c' /\ exists f, c = c' <| c_foundation := f |>) ->
    forall c, In c (candidates (fold_left (fun d line => parse_sdp_line line d) l d)) ->
    exists line c', In line ls /\ ice_parse_candidate_sdp line = Some c' /\ exists f, c = c' <| c_foundation := f |>) as Hgen.
  { intros l. induction l as [|line l IH]; intros d Hl Hd; [done|]. cbn [fold_left]. apply IH; [intros x Hx; apply Hl; by right|].
    unfold parse_sdp_line. intros x.
    destruct (starts_with (lit "a=ice-ufrag:") line); [destruct (scan_word 256 _) as [[]|]; apply Hd|].
    destruct (starts_with (lit "a=ice-pwd:") line); [destruct (scan_word 256 _) as [[]|]; apply Hd|].
    destruct (starts_with (lit "a=ice-lite") line); [apply Hd|]. destruct (starts_with (lit "a=end-of-candidates") line); [apply Hd|].
    destruct (ice_parse_candidate_sdp line) as [k|] eqn:E; [|apply Hd]. unfold ice_add_candidate.
    destruct (ICE_MAX_CANDIDATES_COUNT <=? _); [apply Hd|]. cbn. intros [Hx|[Hx|[]]]%in_app_or; [by apply Hd|].
    exists line, k. split; [apply Hl; by left|]. split; [done|]. destruct (list_eqb _ _).
    - by eexists.
    - exists (c_foundation k). rewrite <- Hx. by destruct k. }
  apply Hgen; [done|]. intros ? [].
Qed.

(** *** The lines of a text *)

Definition drop_cr (l : list Z) : list Z := List.filter (fun c => negb (c =? 13)) l.
Lemma buffer_full n (buf l : list Z) : zlen buf = n -> ztake n (buf ++ l) = buf.
Proof. intros H. by rewrite ztake_app_exact. Qed.
Lemma sdp_buffers_line buf y r : ~ In 10 y -> zlen buf <= 1023 ->
  sdp_buffers buf (y ++ 10 :: r) =
  if zlen (ztake 1023 (buf ++ drop_cr y)) =? 0 then sdp_buffers [] r else ztake 1023 (buf ++ drop_cr y) :: sdp_buffers [] r.
Proof.
  revert buf. induction y as [|c y IH]; intros buf Hn Hb.
  - cbn. rewrite app_nil_r, ztake_ge by lia. done.
  - cbn in Hn. cbn [app sdp_buffers drop_cr List.filter]. destruct (Z.eqb_spec c 10) as [->|]; [tauto|].
    destruct (c =? 13); cbn [negb andb]; [apply IH; [tauto|done]|].
    unfold BUFFER_SIZE. destruct (Z.ltb_spec (zlen buf + 1) 1024).
    + rewrite IH by (try tauto; rewrite zlen_app, zlen_cons; unfold zlen in *; cbn; lia). by rewrite <- app_assoc.
    + rewrite IH by (try tauto; lia). by rewrite !buffer_full by lia.
Qed.
Lemma sdp_buffers_last buf l : ~ In 10 l -> sdp_buffers buf l = [].
Proof.
  revert buf. induction l as [|c l IH]; intros buf Hn; [done|]. cbn in *. destruct (Z.eqb_spec c 10) as [->|]; [tauto|].
  destruct (_ && _); apply IH; tauto.
Qed.
Lemma juice_line_of ls last line : Forall (fun x => exists y, x = y ++ [10] /\ ~ In 10 y) ls -> ~ In 10 last ->
  In line (juice_lines (concat ls ++ last)) -> exists y, In (y ++ [10]) ls /\ ~ In 10 y /\ line = ztake 1023 (drop_cr y).
Proof.
  intros Hls Hlast. unfold juice_lines. induction Hls as [|x ls (y & -> & Hy) Hls IH]; cbn [concat].
  - cbn [app]. by rewrite sdp_buffers_last.
  - rewrite <- !app_assoc. cbn [app]. rewrite sdp_buffers_line by (try done; cbn; lia). cbn [app].
    assert (In line (sdp_buffers [] (concat ls ++ last)) ->
      exists y0, In (y0 ++ [10]) ((y ++ [10]) :: ls) /\ ~ In 10 y0 /\ line = ztake 1023 (drop_cr y0)) as Hrest.
    { intros (y' & H1 & H2)%IH. exists y'. split; [by right|done]. }
    destruct (zlen _ =? 0); [done|]. intros [<-|H]; [|by apply Hrest]. exists y. split; [by left|done].
Qed.
