(* ===== verification/Ws.v ===== *)
(** * The control websocket

    src/sdk/c/remote/ob_ws.c: one owner thread exchanges JSON text messages with the
    control server, validates every frame, queues pushes and results within fixed limits
    and correlates results with requests.  curl's answers, the allocator, cancellation and
    the JSON parser are arguments; all calls are made by the owner, as the header demands. *)

From Stdlib Require Import QArith Qround.
From S2P Require Import Prelude.
From S2P Require Import Utf8 Json Api Coordinator.
#[local] Open Scope Z_scope.
#[local] Arguments lit : simpl never.
#[local] Set Warnings "-register-all".

Definition OB_WS_MAX_FRAME : Z := 262144.
Definition OB_WS_MAX_QUEUE_BYTES : Z := 1024 * 1024.
Definition OB_WS_MAX_QUEUE_COUNT : Z := 64.

(** ** JSON values *)

Inductive cj :=
  | CNull | CBool (b : bool) | CNum (v : Q) | CStr (s : list Z) | CArr (l : list cj) | CObj (l : list (list Z * cj)).
Fixpoint member_of (l : list (list Z * cj)) (k : list Z) : option cj :=
  match l with [] => None | (k', v) :: l => if list_eqb k' k then Some v else member_of l k end.
(** cJSON_GetObjectItemCaseSensitive; NULL for anything but an object. *)
Definition get_item (j : cj) (k : list Z) : option cj := match j with CObj l => member_of l k | _ => None end.
Definition str (j : cj) (k : list Z) : option (list Z) := match get_item j k with Some (CStr s) => Some s | _ => None end.
Definition is_object (j : option cj) : bool := match j with Some (CObj _) => true | _ => false end.

Definition in_range (v : option cj) (min max : Z) : bool :=
  match v with
  | Some (CNum q) => Qle_bool (inject_Z min) q && Qle_bool q (inject_Z max) && Qeq_bool (inject_Z (Qfloor q)) q
  | _ => false
  end.

(** [unique]: the node count after the subtree, [None] for a duplicate key or a tree that
    is too deep or too large. *)
Fixpoint unique (j : cj) (depth nodes : Z) : option Z :=
  if (32 <? depth) || (16384 <? nodes + 1) then None
  else match j with
  | CObj l =>
    (fix go (l : list (list Z * cj)) (members nodes : Z) : option Z :=
       match l with
       | [] => Some nodes
       | (k, v) :: l =>
         if (512 <? members + 1) || existsb (fun kv => list_eqb k kv.1) l then None
         else match unique v (depth + 1) nodes with Some n => go l (members + 1) n | None => None end
       end) l 0 (nodes + 1)
  | CArr l =>
    (fix go (l : list cj) (nodes : Z) : option Z :=
       match l with
       | [] => Some nodes
       | v :: l => match unique v (depth + 1) nodes with Some n => go l n | None => None end
       end) l (nodes + 1)
  | _ => Some (nodes + 1)
  end.

Fixpoint name_index (names : list (list Z)) (k : list Z) (i : Z) : option Z :=
  match names with [] => None | n :: names => if list_eqb k n then Some i else name_index names k (i + 1) end.
Fixpoint fields_loop (l : list (list Z * cj)) (names : list (list Z)) (seen : Z) : Z + unit :=
  match l with
  | [] => inl seen
  | (k, _) :: l => match name_index names k 0 with
                   | None => inr tt
                   | Some i => if Z.testbit seen i then inr tt else fields_loop l names (Z.lor seen (Z.shiftl 1 i))
                   end
  end.
Definition fields (j : cj) (names : list (list Z)) : bool :=
  match j with
  | CObj l => match fields_loop l names 0 with inl seen => seen =? Z.shiftl 1 (zlen names) - 1 | inr _ => false end
  | _ => false
  end.

(** ** The connection *)

Record queued := Queued { q_json : cj; q_bytes : Z }.
(** [frame] holds the bytes of the frame so far; [pending] has eight slots. *)
Record ob_ws := Ws {
  broker : bool; connected : bool; next_id : Z; pending : list Z; frame : list Z; frame_offset : Z; header_bytes : Z;
  fragment : bool; subprotocol : bool; header_invalid : bool; queue : list queued }.
#[export] Instance eta_ws : Eta ob_ws := fun w => Ws (broker w) (connected w) (next_id w) (pending w) (frame w)
  (frame_offset w) (header_bytes w) (fragment w) (subprotocol w) (header_invalid w) (queue w).
Definition count (w : ob_ws) : Z := zlen (queue w).
Definition queue_bytes (w : ob_ws) : Z := fold_right (fun q n => q_bytes q + n) 0 (queue w).

Definition is_type (t : list Z) (q : queued) : bool := bool_decide (str (q_json q) (lit "type") = Some t).
(** The queued message is the result of request [id]. *)
Definition is_result (id : Z) (q : queued) : bool :=
  is_type (lit "result") q &&
  match get_item (q_json q) (lit "id") with Some (CNum v) => Qeq_bool v (inject_Z id) | _ => false end.

(** A NUL escape inside a string of the text. *)
Fixpoint nul_escape (fuel : nat) (quoted : bool) (s : list Z) : bool :=
  match fuel, s with
  | S fuel, c :: s =>
    if c =? 34 then nul_escape fuel (negb quoted) s
    else if quoted && (c =? 92) then
      if list_eqb (ztake 5 s) (lit "u0000") then true else nul_escape fuel quoted (tail s)
    else nul_escape fuel quoted s
  | _, _ => false
  end.

Section ws.
(** ob_json_parse_complete on the frame. *)
Context (parse : list Z -> option cj).

Definition uint_in (t : list Z) (k : list Z) (min max : Z) : option Z := ob_json_uint_field (Some t) (Some k) min max.
Definition message_ok (w : ob_ws) (j : cj) : bool :=
  let t := frame w in
  let some {A} (o : option A) := match o with Some _ => true | None => false end in
  in_range (get_item j (lit "v")) 1 1 && some (uint_in t (lit "v") 1 1) &&
  match str j (lit "type") with
  | None => false
  | Some type =>
    if list_eqb type (lit "result") then
      fields j [lit "v"; lit "type"; lit "id"; lit "status"; lit "body"] && in_range (get_item j (lit "id")) 1 MAX_SAFE &&
      in_range (get_item j (lit "status")) 100 599 && some (uint_in t (lit "status") 100 599) &&
      match uint_in t (lit "id") 1 MAX_SAFE with
      | None => false
      | Some id => existsb (Z.eqb id) (pending w) && negb (existsb (is_result id) (queue w))
      end
    else if list_eqb type (lit "sessions") || list_eqb type (lit "capabilities") then
      fields j [lit "v"; lit "type"; lit "body"] && is_object (get_item j (lit "body")) &&
      (if broker w then list_eqb type (lit "sessions") else list_eqb type (lit "capabilities"))
    else if list_eqb type (lit "message") then
      negb (broker w) && fields j [lit "v"; lit "type"; lit "sequence"; lit "data"] &&
      in_range (get_item j (lit "sequence")) 1 MAX_SAFE && some (uint_in t (lit "sequence") 1 MAX_SAFE) &&
      match str j (lit "data") with Some d => zlen d <=? 32768 | None => false end
    else if list_eqb type (lit "revoked") then
      fields j [lit "v"; lit "type"; lit "status"; lit "body"] && in_range (get_item j (lit "status")) 400 599 &&
      some (uint_in t (lit "status") 400 599) && is_object (get_item j (lit "body"))
    else false
  end.
Definition enqueue (alloc_ok : bool) (w : ob_ws) : Z * ob_ws :=
  if negb (WsUtf8.utf8 (frame w)) then (OB_API_JSON, w)
  else if nul_escape (length (frame w)) false (frame w) then (OB_API_JSON, w)
  else match parse (frame w) with
  | None => (OB_API_JSON, w)
  | Some j =>
    if bool_decide (unique j 0 0 = None) then (OB_API_JSON, w)
    else if negb (message_ok w j) then (OB_API_JSON, w)
    else if (OB_WS_MAX_QUEUE_COUNT <=? count w) || (OB_WS_MAX_QUEUE_BYTES - queue_bytes w <? zlen (frame w)) then (OB_API_LIMIT, w)
    else if negb alloc_ok then (OB_API_NOMEM, w)
    else (0, w <| queue ::= fun q => q ++ [Queued j (zlen (frame w))] |>)
  end.

Definition ob_ws_create (bk : bool) (id bearer : option (list Z)) (alloc_ok : bool) : option ob_ws :=
  match id, bearer with
  | Some id, Some bearer =>
    if (zlen id =? 36) && negb (zlen bearer =? 0) && (zlen bearer <=? 8192) &&
       forallb (fun c => Api.member c (lit "0123456789abcdef-")) id && forallb token_char bearer && alloc_ok
    then Some (Ws bk false 0 (replicate 8 0) [] 0 0 false false false []) else None
  | _, _ => None
  end.
Definition ob_ws_disconnect (w : ob_ws) : ob_ws :=
  Ws (broker w) false (next_id w) (replicate 8 0) [] 0 0 false false false [].

(** One line of the response header, of which [size * count] is the length. *)
Definition ascii_lower (c : Z) : Z := if (65 <=? c) && (c <=? 90) then c + 32 else c.
Definition trailing (c : Z) : bool := (c =? 13) || (c =? 10) || (c =? 32) || (c =? 9).
Definition blank (c : Z) : bool := (c =? 32) || (c =? 9).
Fixpoint drop_front (f : Z -> bool) (l : list Z) : list Z :=
  match l with c :: l' => if f c then drop_front f l' else l | [] => [] end.
Definition header_key : list Z := lit "Sec-WebSocket-Protocol:".
Definition header (line : list Z) (w : ob_ws) : Z * ob_ws :=
  let n := zlen line in
  if 65536 - header_bytes w <? n then (0, w)
  else
    let w := w <| header_bytes ::= Z.add n |> in
    let k := zlen header_key in
    if (k <=? n) && list_eqb (map ascii_lower (ztake k line)) (map ascii_lower header_key) then
      let value := drop_front blank (rev (drop_front trailing (rev (zdrop k line)))) in
      (n, if subprotocol w || negb (list_eqb value (lit "ob-signaling-v1")) then w <| header_invalid := true |>
          else w <| subprotocol := true |>)
    else (n, w).

(** curl delivers header lines until one is refused. *)
Fixpoint headers (lines : list (list Z)) (w : ob_ws) : bool * ob_ws :=
  match lines with
  | [] => (true, w)
  | l :: lines => let r := header l w in if r.1 =? zlen l then headers lines r.2 else (false, r.2)
  end.
(** [ob_ws_connect]: the header lines curl delivers, its result and the status; [setup] is
    false when an allocation or option failed before the transfer. *)
Definition ob_ws_connect (consumed : Z) (cancelled setup : bool) (lines : list (list Z)) (rc status : Z) (socket_ok : bool)
    (w : ob_ws) : option ob_api_error * ob_ws :=
  if MAX_SAFE <? consumed then (Some (api_fail OB_API_INVALID 0 (lit "Invalid WebSocket owner/cursor")), w)
  else
    let w := ob_ws_disconnect w in
    if cancelled then (Some (api_fail OB_API_TRANSPORT 0 (lit "WebSocket cancelled")), w)
    else if negb setup then (Some (api_fail OB_API_NOMEM 0 (lit "WebSocket allocation failed")), w)
    else
      let (delivered, w) := headers lines w in
      if delivered && (rc =? CURLE_OK) && (status =? 101) && subprotocol w && negb (header_invalid w) && socket_ok
      then (None, w <| connected := true |>)
      else (Some (api_fail (if 400 <=? status then OB_API_HTTP else OB_API_TRANSPORT) status
                   (lit "WebSocket upgrade/TLS verification failed")), ob_ws_disconnect w).

(** What curl_ws_recv returns: nothing yet (and whether polling fails), a failure, or a
    piece of a frame with its description. *)
Record meta := Meta { m_close : bool; m_control : bool; m_text : bool; m_other : bool; m_offset : Z; m_bytesleft : Z; m_cont : bool }.
Inductive recv := Again (wait_failed : bool) | RecvFailed | Piece (m : option meta) (chunk : list Z).

Definition lost_connection (code : Z) (text : list Z) (w : ob_ws) : option ob_api_error * ob_ws :=
  (Some (api_fail code 0 text), ob_ws_disconnect w).
Definition ob_ws_pump (cancelled : bool) (r : recv) (alloc_ok : bool) (w : ob_ws) : option ob_api_error * ob_ws :=
  if negb (connected w) then (Some (api_fail OB_API_TRANSPORT 0 (lit "WebSocket disconnected")), w)
  else if cancelled then (Some (api_fail OB_API_TRANSPORT 0 (lit "WebSocket cancelled")), w)
  else
    let transport := lost_connection OB_API_TRANSPORT (lit "WebSocket connection lost") w in
    let invalid := lost_connection OB_API_JSON (lit "Invalid WebSocket text frame") w in
    match r with
    | Again failed => if failed then transport else (None, w)
    | RecvFailed => transport
    | Piece None _ => invalid
    | Piece (Some m) chunk =>
      if m_close m then transport
      else if m_control m then (None, w)
      else if negb (m_text m) || m_other m || (m_offset m <? 0) || (m_bytesleft m <? 0) || negb (m_offset m =? frame_offset w) then invalid
      else if (OB_WS_MAX_FRAME <? u64 (m_offset m + zlen chunk + m_bytesleft m)) || (OB_WS_MAX_FRAME - zlen (frame w) <? zlen chunk)
      then lost_connection OB_API_LIMIT (lit "WebSocket frame/message limit exceeded") w
      else
        let w := w <| frame ::= fun f => f ++ chunk |> <| frame_offset ::= Z.add (zlen chunk) |> in
        if negb (m_bytesleft m =? 0) then (None, w)
        else
          let w := w <| frame_offset := 0 |> in
          if m_cont m then (None, w <| fragment := true |>)
          else
            let (rc, w) := enqueue alloc_ok w in
            let w := w <| frame := [] |> <| fragment := false |> in
            if truth rc then lost_connection rc (lit "Invalid/overflow WebSocket application frame") w else (None, w)
    end.

(** One round of the loop of [send_text]: cancelled or out of time, curl's answer (bytes
    taken; 0 sent, 1 try again, 2 failed), and the pump and poll while blocked. *)
Record send_round := SendRound { s_over : bool; s_sent : Z; s_rc : Z; s_cancel : bool; s_recv : recv; s_alloc : bool; s_wait_failed : bool }.
(** [left]: bytes still to send.  [None]: the rounds are used up. *)
Fixpoint send_loop (rounds : list send_round) (left : Z) (w : ob_ws) : option (option ob_api_error * ob_ws) :=
  if left <=? 0 then Some (None, w)
  else match rounds with
  | [] => None
  | r :: rounds =>
    if s_over r then Some (lost_connection OB_API_TRANSPORT (lit "WebSocket send cancelled/timed out") w)
    else
      let left := left - s_sent r in
      if s_rc r =? 2 then Some (lost_connection OB_API_TRANSPORT (lit "WebSocket send failed") w)
      else if (0 <? left) && ((s_rc r =? 1) || (s_sent r =? 0)) then
        match ob_ws_pump (s_cancel r) (s_recv r) (s_alloc r) w with
        | (Some e, w) => Some (Some e, w)
        | (None, w) => if s_wait_failed r then Some (lost_connection OB_API_TRANSPORT (lit "WebSocket send disconnected") w)
                       else send_loop rounds left w
        end
      else send_loop rounds left w
  end.
Definition send_text (size : Z) (rounds : list send_round) (w : ob_ws) : option (option ob_api_error * ob_ws) :=
  if OB_WS_MAX_FRAME <? size then Some (Some (api_fail OB_API_LIMIT 0 (lit "WebSocket send limit")), w)
  else send_loop rounds size w.

Definition set_slot (i : nat) (v : Z) (w : ob_ws) : ob_ws := w <| pending ::= fun l => <[i := v]> l |>.
Fixpoint free_slot (l : list Z) : option nat :=
  match l with [] => None | v :: l => if truth v then option_map S (free_slot l) else Some 0%nat end.
Definition op_valid (bk : bool) (op : list Z) : bool :=
  existsb (list_eqb op) (if bk then [lit "heartbeat"; lit "offline"]
    else [lit "heartbeat"; lit "capabilities"; lit "send"; lit "approve"; lit "turn"; lit "delete"]).
(** [size] is the length of the printed request, [None] when building it fails. *)
Definition ob_ws_begin (op : list Z) (size : option Z) (rounds : list send_round) (w : ob_ws)
    : option (option ob_api_error * Z * ob_ws) :=
  if negb (connected w) then Some (Some (api_fail OB_API_INVALID 0 (lit "Invalid WebSocket RPC")), 0, w)
  else if negb (op_valid (broker w) op) then Some (Some (api_fail OB_API_INVALID 0 (lit "Invalid scoped WebSocket operation")), 0, w)
  else match free_slot (pending w) with
  | None => Some (Some (api_fail OB_API_LIMIT 0 (lit "WebSocket RPC limit")), 0, w)
  | Some slot =>
    if MAX_SAFE <=? next_id w then Some (Some (api_fail OB_API_LIMIT 0 (lit "WebSocket RPC IDs exhausted")), 0, w)
    else
      let w := w <| next_id ::= Z.add 1 |> in
      let id := next_id w in
      match size with
      | None => Some (Some (api_fail OB_API_NOMEM 0 (lit "WebSocket allocation failed")), id, w)
      | Some size =>
        match send_text size rounds (set_slot slot id w) with
        | None => None
        | Some (Some e, w) => Some (Some e, id, set_slot slot 0 w)
        | Some (None, w) => Some (None, id, w)
        end
      end
  end.

(** The first queued message with a property, and the queue without it. *)
Fixpoint take_first (f : queued -> bool) (l : list queued) : option (queued * list queued) :=
  match l with
  | [] => None
  | q :: l => if f q then Some (q, l) else match take_first f l with Some (x, r) => Some (x, q :: r) | None => None end
  end.
Definition ob_ws_result (id : Z) (w : ob_ws) : option cj * ob_ws :=
  match take_first (is_result id) (queue w) with
  | None => (None, w)
  | Some (q, rest) =>
    (Some (q_json q), w <| queue := rest |> <| pending ::= map (fun v => if v =? id then 0 else v) |>)
  end.
Definition ob_ws_pop (type : list Z) (w : ob_ws) : option cj * ob_ws :=
  match take_first (is_type type) (queue w) with
  | None => (None, w)
  | Some (q, rest) => (Some (q_json q), w <| queue := rest |>)
  end.
Definition in_quotes (k : string) : list Z := [34] ++ lit k ++ [34].
Definition ack_text (consumed : Z) : list Z :=
  [123] ++ in_quotes "v" ++ lit ":1," ++ in_quotes "type" ++ lit ":" ++ in_quotes "ack" ++ lit "," ++ in_quotes "sequence" ++ lit ":" ++ decimal consumed ++ [125].
Definition ob_ws_ack (consumed : Z) (rounds : list send_round) (w : ob_ws) : option (option ob_api_error * ob_ws) :=
  if negb (connected w) || (consumed =? 0) || (MAX_SAFE <? consumed)
  then Some (Some (api_fail OB_API_INVALID 0 (lit "Invalid consumed cursor")), w)
  else send_text (zlen (ack_text consumed)) rounds w.
End ws.

(** ** Any use of a connection *)

Inductive ws_op :=
  | OpConnect (consumed : Z) (cancelled setup : bool) (lines : list (list Z)) (rc status : Z) (socket_ok : bool)
  | OpPump (cancelled : bool) (r : recv) (alloc_ok : bool)
  | OpBegin (op : list Z) (size : option Z) (rounds : list send_round)
  | OpResult (id : Z) | OpPop (type : list Z) | OpAck (consumed : Z) (rounds : list send_round) | OpDisconnect.
Section run.
Context (parse : list Z -> option cj).
Definition ws_step (w : ob_ws) (o : ws_op) : option ob_ws :=
  match o with
  | OpConnect c x s l rc st k => Some (ob_ws_connect c x s l rc st k w).2
  | OpPump c r a => Some (ob_ws_pump parse c r a w).2
  | OpBegin op size rounds => option_map snd (ob_ws_begin parse op size rounds w)
  | OpResult id => Some (ob_ws_result id w).2
  | OpPop t => Some (ob_ws_pop t w).2
  | OpAck c rounds => option_map snd (ob_ws_ack parse c rounds w)
  | OpDisconnect => Some (ob_ws_disconnect w)
  end.
Fixpoint ws_run (w : ob_ws) (ops : list ws_op) : option ob_ws :=
  match ops with [] => Some w | o :: ops => match ws_step w o with Some w => ws_run w ops | None => None end end.

(** A property of the connection that every operation keeps is kept by any use: pumping,
    disconnecting, the request slots, the identifiers, the header and removing from the
    queue are all that the operations do. *)
Section keeps_all.
Context (R : ob_ws -> ob_ws -> Prop) `{!PreOrder R}.
Context (Rdisc : forall w, R w (ob_ws_disconnect w)).
Context (Rpump : forall c r a w, R w (ob_ws_pump parse c r a w).2).
Context (Rhead : forall l w, R w (header l w).2).
Context (Rconn : forall w b, R w (w <| connected := b |>)).
Context (Rnext : forall w slot, next_id w < MAX_SAFE ->
  let w' := w <| next_id ::= Z.add 1 |> in R w w' /\ R w (set_slot slot (next_id w') w')).
Context (Rslot : forall w slot, R w (set_slot slot 0 w)).
Context (Rtake : forall f w q rest, take_first f (queue w) = Some (q, rest) -> R w (w <| queue := rest |>)).
Context (Rclear : forall w id, R w (w <| pending ::= map (fun v => if v =? id then 0 else v) |>)).

Lemma keeps_send rounds left w e w' : send_loop parse rounds left w = Some (e, w') -> R w w'.
Proof.
  revert left w. induction rounds as [|r rounds IH]; intros left w; cbn [send_loop].
  - destruct (left <=? 0); [|done]. by intros [= _ <-].
  - destruct (left <=? 0); [by intros [= _ <-]|]. destruct (s_over r); [intros [= _ <-]; apply Rdisc|].
    cbv zeta. destruct (s_rc r =? 2); [intros [= _ <-]; apply Rdisc|]. destruct (_ && _); [|apply IH].
    pose proof (Rpump (s_cancel r) (s_recv r) (s_alloc r) w) as Hp.
    destruct (ob_ws_pump parse (s_cancel r) (s_recv r) (s_alloc r) w) as [[e1|] w1]; cbn [snd] in Hp; [by intros [= _ <-]|].
    destruct (s_wait_failed r); [intros [= _ <-]; etransitivity; [exact Hp|apply Rdisc]|].
    intros H. etransitivity; [exact Hp|]. by eapply IH.
Qed.
Lemma keeps_send_text size rounds w e w' : send_text parse size rounds w = Some (e, w') -> R w w'.
Proof. unfold send_text. destruct (_ <? _); [by intros [= _ <-]|apply keeps_send]. Qed.
Lemma keeps_headers lines w : R w (headers lines w).2.
Proof.
  revert w. induction lines as [|l lines IH]; intros w; [done|]. cbn [headers]. cbv zeta.
  destruct (_ =? _); [|apply Rhead]. etransitivity; [apply Rhead|apply IH].
Qed.
Lemma keeps_step w o w' : ws_step w o = Some w' -> R w w'.
Proof.
  destruct o; cbn [ws_step].
  - intros [= <-]. unfold ob_ws_connect. destruct (_ <? _); [done|]. destruct cancelled; [apply Rdisc|].
    destruct (negb setup); [apply Rdisc|]. cbv zeta. pose proof (keeps_headers lines (ob_ws_disconnect w)) as Hh.
    destruct (headers lines (ob_ws_disconnect w)) as [d w1]. cbn [snd] in Hh.
    assert (R w w1) by (etransitivity; [apply Rdisc|exact Hh]).
    destruct (_ && _); cbn [snd]; (etransitivity; [eassumption|]); [apply Rconn|apply Rdisc].
  - intros [= <-]. apply Rpump.
  - unfold ob_ws_begin. destruct (negb (connected w)); [by intros [= <-]|]. destruct (negb _); [by intros [= <-]|].
    destruct (free_slot (pending w)) as [slot|]; [|by intros [= <-]].
    destruct (Z.leb_spec MAX_SAFE (next_id w)) as [Hm|Hm]; [by intros [= <-]|]. cbv zeta.
    destruct (Rnext w slot Hm) as [H1 H2]. cbv zeta in H1, H2. destruct size as [size|]; [|intros [= <-]; exact H1].
    destruct (send_text parse size rounds _) as [[[e|] w1]|] eqn:Es; [..|done]; intros [= <-];
      apply keeps_send_text in Es; (etransitivity; [exact H2|]); [|exact Es]. etransitivity; [exact Es|apply Rslot].
  - intros [= <-]. unfold ob_ws_result. destruct (take_first _ _) as [[q rest]|] eqn:E; [|done]. cbn [snd].
    etransitivity; [by apply (Rtake _ _ _ _ E)|apply Rclear].
  - intros [= <-]. unfold ob_ws_pop. destruct (take_first _ _) as [[q rest]|] eqn:E; [|done]. by apply (Rtake _ _ _ _ E).
  - unfold ob_ws_ack. destruct (_ || _); [by intros [= <-]|]. destruct (send_text _ _ _ _) as [[e w1]|] eqn:E; [|done].
    intros [= <-]. by apply keeps_send_text in E.
  - intros [= <-]. apply Rdisc.
Qed.
Lemma keeps_run ops w w' : ws_run w ops = Some w' -> R w w'.
Proof.
  revert w. induction ops as [|o ops IH]; intros w; cbn [ws_run]; [by intros [= <-]|].
  destruct (ws_step w o) as [w1|] eqn:E; [|done]. intros H. etransitivity; [by eapply keeps_step|by apply IH].
Qed.
End keeps_all.
End run.

(** ** Limits *)

Record ws_bounds (w : ob_ws) : Prop := {
  wb_frame : zlen (frame w) <= OB_WS_MAX_FRAME;
  wb_count : count w <= OB_WS_MAX_QUEUE_COUNT;
  wb_sizes : Forall (fun q => 0 <= q_bytes q) (queue w);
  wb_bytes : queue_bytes w <= OB_WS_MAX_QUEUE_BYTES;
  wb_header : 0 <= header_bytes w <= 65536;
  wb_pending : length (pending w) = 8%nat }.
Definition keeps_bounds (w w' : ob_ws) : Prop := ws_bounds w -> ws_bounds w'.
#[export] Instance keeps_bounds_preorder : PreOrder keeps_bounds.
Proof. split; [intros w H; exact H|]. intros a b c H1 H2 H. auto. Qed.

Lemma queue_bytes_snoc l q : fold_right (fun q n => q_bytes q + n) 0 (l ++ [q]) = fold_right (fun q n => q_bytes q + n) 0 l + q_bytes q.
Proof. induction l as [|x l IH]; cbn; [lia|rewrite IH; lia]. Qed.
Lemma enqueue_cases parse a w :
  let r := enqueue parse a w in
  r.2 = w /\ r.1 <> 0 \/
  r.1 = 0 /\ exists j, parse (frame w) = Some j /\ message_ok w j = true /\ r.2 = (w <| queue ::= fun q => q ++ [Queued j (zlen (frame w))] |>) /\
    count w < OB_WS_MAX_QUEUE_COUNT /\ queue_bytes w + zlen (frame w) <= OB_WS_MAX_QUEUE_BYTES.
Proof.
  unfold enqueue. destruct (negb _); [by left|]. destruct (nul_escape _ _ _); [by left|].
  destruct (parse (frame w)) as [j|]; [|by left]. case_bool_decide; [by left|]. destruct (message_ok w j) eqn:E; [|by left].
  cbn [negb]. destruct (_ || _) eqn:El; [by left|]. destruct a; [|by left]. right. bools.
  split; [done|]. exists j. split; [done|]. split; [done|]. split; [done|]. lia.
Qed.
Lemma disconnect_bounds w : keeps_bounds w (ob_ws_disconnect w).
Proof. intros _. split; cbn; try done; unfold OB_WS_MAX_FRAME, OB_WS_MAX_QUEUE_COUNT, OB_WS_MAX_QUEUE_BYTES; lia. Qed.
Lemma enqueue_bounds parse a w : keeps_bounds w (enqueue parse a w).2.
Proof.
  destruct (enqueue_cases parse a w) as [[H _]|(_ & j & _ & _ & H & Hc & Hb)]; rewrite H; [done|].
  intros [B1 B2 B3 B4 B5]. split; try done.
  - change (zlen (queue w ++ [Queued j (zlen (frame w))]) <= OB_WS_MAX_QUEUE_COUNT). rewrite zlen_snoc. unfold count in Hc. lia.
  - apply Forall_app. split; [done|]. repeat constructor. apply zlen_nonneg.
  - unfold queue_bytes. cbn -[OB_WS_MAX_QUEUE_BYTES]. rewrite queue_bytes_snoc. exact Hb.
Qed.
Lemma pump_bounds parse c r a w : keeps_bounds w (ob_ws_pump parse c r a w).2.
Proof.
  unfold ob_ws_pump. destruct (negb (connected w)); [done|]. destruct c; [done|]. cbv zeta.
  destruct r as [failed| |m chunk]; [destruct failed; [apply disconnect_bounds|done]|apply disconnect_bounds|].
  destruct m as [m|]; [|apply disconnect_bounds]. destruct (m_close m); [apply disconnect_bounds|].
  destruct (m_control m); [done|]. destruct (_ || _); [apply disconnect_bounds|].
  destruct (_ || _) eqn:El; [apply disconnect_bounds|]. apply orb_false_iff in El as [_ El]. bools.
  set (w1 := w <| frame ::= fun f => f ++ chunk |> <| frame_offset ::= Z.add (zlen chunk) |>).
  assert (keeps_bounds w w1) as H1.
  { intros [B1 B2 B3 B4 B5]. split; try done. change (zlen (frame w ++ chunk) <= OB_WS_MAX_FRAME). rewrite zlen_app. lia. }
  destruct (negb _); [exact H1|].
  assert (keeps_bounds w (w1 <| frame_offset := 0 |>)) as H2 by (intros H; by destruct (H1 H)).
  destruct (m_cont m); [intros H; by destruct (H2 H)|]. clearbody w1. set (w2 := w1 <| frame_offset := 0 |>) in *. clearbody w2.
  pose proof (enqueue_bounds parse a w2) as H3. destruct (enqueue parse a w2) as [rc w3]. cbn [snd] in H3.
  assert (keeps_bounds w (w3 <| frame := [] |> <| fragment := false |>)) as H4.
  { intros H. destruct (H3 (H2 H)) as [C1 C2 C3 C4 C5]. by split. }
  destruct (truth rc); [|exact H4]. etransitivity; [exact H4|apply disconnect_bounds].
Qed.
Lemma header_bounds l w : keeps_bounds w (header l w).2.
Proof.
  intros [B1 B2 B3 B4 B5]. unfold header. destruct (Z.ltb_spec (65536 - header_bytes w) (zlen l)); [done|]. cbv zeta.
  pose proof (zlen_nonneg l).
  assert (ws_bounds (w <| header_bytes ::= Z.add (zlen l) |>)) as [C1 C2 C3 C4 C5] by (split; try done; cbn -[Z.add]; lia).
  destruct (_ && _); [|done]. by destruct (_ || _).
Qed.
Lemma take_first_spec f l q rest :
  take_first f l = Some (q, rest) -> exists a b, l = a ++ q :: b /\ rest = a ++ b /\ f q = true /\ Forall (fun x => f x = false) a.
Proof.
  revert q rest. induction l as [|x l IH]; intros q rest; cbn [take_first]; [done|]. destruct (f x) eqn:E.
  - intros [= <- <-]. by exists [], l.
  - destruct (take_first f l) as [[y r]|]; [|done]. intros [= <- <-].
    destruct (IH y r eq_refl) as (a & b & -> & -> & Hy & Ha). exists (x :: a), b. by split_and!; [..|constructor].
Qed.
Lemma take_bounds f w q rest : take_first f (queue w) = Some (q, rest) -> keeps_bounds w (w <| queue := rest |>).
Proof.
  intros (a & b & Hq & -> & _)%take_first_spec [B1 B2 B3 B4 B5]. unfold count, queue_bytes in *. rewrite Hq in *.
  apply Forall_app in B3 as [B3 B3']. inversion B3' as [|? ? Hp Hb]; subst. split; try done; cbn -[zlen OB_WS_MAX_QUEUE_COUNT OB_WS_MAX_QUEUE_BYTES].
  - rewrite zlen_app in *. rewrite zlen_cons in B2. unfold count. cbn -[zlen OB_WS_MAX_QUEUE_COUNT]. rewrite zlen_app. lia.
  - by apply Forall_app.
  - unfold queue_bytes. cbn -[OB_WS_MAX_QUEUE_BYTES]. clear Hq B2.
    revert B4. rewrite !fold_right_app. cbn. clear -Hp.
    assert (forall a n m, n <= m -> fold_right (fun q n => q_bytes q + n) n a <= fold_right (fun q n => q_bytes q + n) m a) as H.
    { induction a0 as [|x a0 IH]; intros n m Hnm; cbn; [done|]. specialize (IH n m Hnm). lia. }
    intros HB. etransitivity; [apply H|exact HB]. lia.
Qed.

(** C36: whatever the server sends and however the owner uses the connection, the reassembled
    message stays below 256 KiB, at most 64 messages and 1 MiB of text are queued, and at most
    64 KiB of response headers are read; the table of requests that wait for an answer always has
    its eight slots. *)
Theorem ws_bounded parse bk id bearer alloc w ops w' :
  ob_ws_create bk id bearer alloc = Some w -> ws_run parse w ops = Some w' -> ws_bounds w'.
Proof.
  intros Hc Hr. refine (keeps_run parse keeps_bounds _ _ _ _ _ _ _ _ ops w w' Hr _).
  - apply disconnect_bounds.
  - apply pump_bounds.
  - apply header_bounds.
  - by intros ? ? [].
  - intros ? ? ?. split; intros []; split; try done. cbn. by rewrite length_insert.
  - intros ? ? []; split; try done. cbn. by rewrite length_insert.
  - apply take_bounds.
  - intros ? ? []; split; try done. cbn. by rewrite length_map.
  - unfold ob_ws_create in Hc. destruct id, bearer; try done. destruct (_ && _); [|done]. injection Hc as <-.
    split; cbn; try done; unfold OB_WS_MAX_FRAME, OB_WS_MAX_QUEUE_COUNT, OB_WS_MAX_QUEUE_BYTES; lia.
Qed.
Definition sample_ws : list ws_op :=
  [OpConnect 0 false true [lit "Sec-WebSocket-Protocol: ob-signaling-v1"] 0 101 true;
   OpPump false (Piece (Some (Meta false false true false 0 3 false)) [1; 2; 3]) true; OpPump false (Again true) true].
Definition fresh_ws : ob_ws := Ws false false 0 (replicate 8 0) [] 0 0 false false false [].
Lemma ws_bounded_witness :
  exists w', ws_run (fun _ => None) fresh_ws (take 2 sample_ws) = Some w' /\ frame w' = [1; 2; 3] /\ ws_bounds w'.
Proof.
  eexists. split; [vm_compute; reflexivity|]. split; [reflexivity|].
  apply (ws_bounded (fun _ => None) false (Some sample_id) (Some (lit "t")) true fresh_ws (take 2 sample_ws)); vm_compute; reflexivity.
Defined.

(** ** Results are delivered once *)

(** The JSON parser reads the identifier of a result as the number its text denotes. *)
Definition parse_id (parse : list Z -> option cj) : Prop := forall t j v n,
  parse t = Some j -> get_item j (lit "id") = Some (CNum v) -> uint_in t (lit "id") 1 MAX_SAFE = Some n -> Qeq v (inject_Z n).
(** How many results for [id] are queued. *)
Definition results (id : Z) (l : list queued) : nat := length (List.filter (is_result id) l).
(** Nothing in the connection can produce a result for [id] any more. *)
Definition answered (id : Z) (w : ob_ws) : Prop := 1 <= id <= next_id w /\ ~ In id (pending w) /\ results id (queue w) = 0%nat.
Record ws_ids (w : ob_ws) : Prop := {
  wi_next : 0 <= next_id w;
  wi_pending : Forall (fun v => 0 <= v <= next_id w) (pending w);
  wi_begun : forall id, results id (queue w) <> 0%nat -> 1 <= id <= next_id w;
  wi_one : forall id, (results id (queue w) <= 1)%nat }.
Definition keeps_ids (w w' : ob_ws) : Prop :=
  ws_ids w -> ws_ids w' /\ next_id w <= next_id w' /\ forall id, answered id w -> answered id w'.
#[export] Instance keeps_ids_preorder : PreOrder keeps_ids.
Proof.
  split; [by intros w H; split; [|split; [lia|]]|]. intros a b c H1 H2 H.
  destruct (H1 H) as (I1 & N1 & A1). destruct (H2 I1) as (I2 & N2 & A2). split; [done|]. split; [lia|]. auto.
Qed.
(** Operations that touch neither slots nor queue nor identifiers. *)
Lemma keeps_ids_same w w' : pending w' = pending w -> queue w' = queue w -> next_id w' = next_id w -> keeps_ids w w'.
Proof.
  intros H1 H2 H3 [I1 I2 I3 I4]. split; [|split; [lia|]].
  - split; rewrite ?H1, ?H2, ?H3; done.
  - intros id. unfold answered. by rewrite H1, H2, H3.
Qed.
(** Operations that only clear slots. *)
Lemma keeps_ids_slots w f :
  (forall l v, In v (f l) -> v = 0 \/ In v l) -> keeps_ids w (w <| pending ::= f |>).
Proof.
  intros Hf [I1 I2 I3 I4]. split; [|split; [done|]].
  - split; try done. apply Forall_forall. intros v Hv. change (In v (f (pending w))) in Hv.
    destruct (Hf _ _ Hv) as [->|Hv']; [cbn; lia|]. exact (proj1 (Forall_forall _ _) I2 v Hv').
  - intros id (Hi & Hp & Hr). split; [done|]. split; [|done]. intros Hv. destruct (Hf _ _ Hv); [lia|done].
Qed.
Lemma insert_In (l : list Z) i x v : In v (<[i := x]> l) -> v = x \/ In v l.
Proof.
  revert i. induction l as [|y l IH]; intros [|i]; cbn; try tauto; [intuition congruence|].
  intros [->|H]; [by right; left|]. destruct (IH i H); tauto.
Qed.
Lemma disconnect_ids w : keeps_ids w (ob_ws_disconnect w).
Proof.
  intros [I1 I2 I3 I4]. split; [|split; [done|]].
  - split; cbn; try done; [|lia]. repeat constructor; done.
  - intros id (Hi & _ & _). split; [done|]. split; [|done]. cbn. intuition lia.
Qed.
Lemma results_app id l k : results id (l ++ k) = (results id l + results id k)%nat.
Proof. unfold results. by rewrite List.filter_app, length_app. Qed.
Lemma results_existsb id l : existsb (is_result id) l = false -> results id l = 0%nat.
Proof.
  induction l as [|q l IH]; [done|]. cbn [existsb]. intros [E1 E2]%orb_false_iff. unfold results in *. cbn [List.filter].
  rewrite E1. auto.
Qed.
Lemma take_ids f w q rest : take_first f (queue w) = Some (q, rest) -> keeps_ids w (w <| queue := rest |>).
Proof.
  intros (a & b & Hq & -> & _)%take_first_spec [I1 I2 I3 I4].
  assert (forall id, (results id (a ++ b) <= results id (queue w))%nat) as Hle.
  { intros id. rewrite Hq, !results_app. change (q :: b) with ([q] ++ b). rewrite results_app. lia. }
  split; [|split; [done|]].
  - split; try done; intros id; specialize (Hle id); cbn -[results].
    + intros H. apply I3. lia.
    + specialize (I4 id). lia.
  - intros id (Hi & Hp & Hr). split; [done|]. split; [done|]. specialize (Hle id). cbn -[results]. lia.
Qed.

Section once.
Context (parse : list Z -> option cj) (Hparse : parse_id parse).

Lemma enqueue_ids a w : keeps_ids w (enqueue parse a w).2.
Proof.
  destruct (enqueue_cases parse a w) as [[H _]|(_ & j & Hj & Hm & H & _)]; rewrite H; [reflexivity|].
  intros [I1 I2 I3 I4].
  assert (forall id, is_result id (Queued j (zlen (frame w))) = true -> In id (pending w) /\ results id (queue w) = 0%nat /\ 1 <= id) as Hid.
  { intros id. unfold is_result, is_type. cbn [q_json]. intros [Ht Hv]%andb_true_iff. apply bool_decide_eq_true in Ht.
    destruct (get_item j (lit "id")) as [[| |v| | |]|] eqn:Ev; try done. apply Qeq_bool_iff in Hv.
    unfold message_ok in Hm. apply andb_true_iff in Hm as [_ Hm]. rewrite Ht, list_eqb_refl in Hm.
    apply andb_true_iff in Hm as [_ Hm]. destruct (uint_in (frame w) (lit "id") 1 MAX_SAFE) as [n|] eqn:En; [|done].
    pose proof (Hparse _ _ _ _ Hj Ev En) as Hq. assert (id = n) as -> by (apply (proj1 (inject_Z_injective id n)); by rewrite <- Hv, Hq).
    apply andb_true_iff in Hm as [Hp Hn]. apply negb_true_iff in Hn. apply existsb_exists in Hp as (x & Hx & ->%Z.eqb_eq).
    split; [done|]. split; [by apply results_existsb|].
    pose proof (uint_field_range _ _ _ _ _ En). lia. }
  assert (forall id, results id (queue w ++ [Queued j (zlen (frame w))]) =
    (results id (queue w) + if is_result id (Queued j (zlen (frame w))) then 1 else 0)%nat) as Hres.
  { intros id. rewrite results_app. unfold results at 2. cbn [List.filter]. by destruct (is_result id _). }
  split; [|split; [done|]].
  - split; try done; intros id; cbn -[results is_result]; rewrite Hres.
    + destruct (is_result id _) eqn:E; [|intros Hn; apply I3; lia]. intros _. destruct (Hid id E) as (Hp & _ & H1).
      pose proof (proj1 (Forall_forall _ _) I2 id Hp) as Hb. cbn in Hb. lia.
    + specialize (I4 id). destruct (is_result id _) eqn:E; [|lia]. destruct (Hid id E) as (_ & H0 & _). lia.
  - intros id (Hi & Hp & Hr). split; [done|]. split; [done|]. cbn -[results is_result]. rewrite Hres, Hr.
    destruct (is_result id _) eqn:E; [|done]. by destruct (Hid id E).
Qed.
Lemma pump_ids c r a w : keeps_ids w (ob_ws_pump parse c r a w).2.
Proof.
  unfold ob_ws_pump. destruct (negb (connected w)); [reflexivity|]. destruct c; [reflexivity|]. cbv zeta.
  destruct r as [failed| |m chunk]; [destruct failed; [apply disconnect_ids|reflexivity]|apply disconnect_ids|].
  destruct m as [m|]; [|apply disconnect_ids]. destruct (m_close m); [apply disconnect_ids|].
  destruct (m_control m); [reflexivity|]. destruct (_ || _); [apply disconnect_ids|].
  destruct (_ || _); [apply disconnect_ids|].
  set (w1 := w <| frame ::= fun f => f ++ chunk |> <| frame_offset ::= Z.add (zlen chunk) |>).
  assert (keeps_ids w w1) as H1 by by apply keeps_ids_same.
  destruct (negb _); [exact H1|]. clearbody w1.
  set (w2 := w1 <| frame_offset := 0 |>).
  assert (keeps_ids w w2) as H2 by (etransitivity; [exact H1|by apply keeps_ids_same]).
  destruct (m_cont m); [etransitivity; [exact H2|by apply keeps_ids_same]|]. clearbody w2.
  pose proof (enqueue_ids a w2) as H3. destruct (enqueue parse a w2) as [rc w3]. cbn [snd] in H3.
  assert (keeps_ids w (w3 <| frame := [] |> <| fragment := false |>)) as H4.
  { etransitivity; [exact H2|]. etransitivity; [exact H3|]. by apply keeps_ids_same. }
  destruct (truth rc); [|exact H4]. etransitivity; [exact H4|apply disconnect_ids].
Qed.
Lemma header_ids l w : keeps_ids w (header l w).2.
Proof.
  unfold header. destruct (_ <? _); [reflexivity|]. cbv zeta. destruct (_ && _); [|by apply keeps_ids_same].
  destruct (_ || _); by apply keeps_ids_same.
Qed.
Lemma next_ids w slot :
  let w' := w <| next_id ::= Z.add 1 |> in keeps_ids w w' /\ keeps_ids w (set_slot slot (next_id w') w').
Proof.
  intros w'. assert (next_id w' = 1 + next_id w) as Hn by done.
  assert (keeps_ids w w') as H1.
  { intros [I1 I2 I3 I4]. split; [|split; [lia|]].
    - split; [lia| |intros id Hr; specialize (I3 id Hr); lia|done]. revert I2. apply Forall_impl. intros v Hv. lia.
    - intros id (Hi & Hp & Hr). split; [lia|done]. }
  split; [done|]. intros I. destruct (H1 I) as ([J1 J2 J3 J4] & _ & HA). destruct I as [I1 I2 I3 I4]. split; [|split; [cbn -[Z.add]; lia|]].
  - split; try done. apply Forall_forall. intros v [->|Hv]%insert_In; [cbn -[Z.add]; lia|exact (proj1 (Forall_forall _ _) J2 v Hv)].
  - intros id Ha. destruct (HA id Ha) as (Hi & Hp & Hr). destruct Ha as (Hi' & _ & _). split; [done|]. split; [|done].
    intros [->|Hv]%insert_In; [lia|done].
Qed.
Lemma ids_run ops w w' : ws_run parse w ops = Some w' -> keeps_ids w w'.
Proof.
  apply (keeps_run parse keeps_ids).
  - apply disconnect_ids.
  - apply pump_ids.
  - apply header_ids.
  - intros; by apply keeps_ids_same.
  - intros; apply next_ids.
  - intros w0 slot. apply keeps_ids_slots. intros l v [H|H]%insert_In; auto.
  - apply take_ids.
  - intros w0 id. apply keeps_ids_slots. intros l v (x & Hx & Hin)%in_map_iff. destruct (x =? id); [by left|right; congruence].
Qed.
End once.

Lemma create_ids bk id bearer alloc w : ob_ws_create bk id bearer alloc = Some w -> ws_ids w.
Proof.
  unfold ob_ws_create. destruct id, bearer; try done. destruct (_ && _); [|done]. intros [= <-].
  split; cbn; try done; [|lia]. repeat constructor; done.
Qed.

(** C19: a request is answered at most once.  A result is handed out only for an identifier that
    was given to a request on this connection, and after that, whatever the server sends and
    however the connection is used, lost and re-established, no result for the same identifier
    is ever handed out again. *)
Theorem result_once parse bk i bearer alloc w0 ops w id j w1 ops' w2 :
  parse_id parse -> ob_ws_create bk i bearer alloc = Some w0 -> ws_run parse w0 ops = Some w ->
  ob_ws_result id w = (Some j, w1) -> ws_run parse w1 ops' = Some w2 ->
  1 <= id <= next_id w /\ (ob_ws_result id w2).1 = None.
Proof.
  intros Hp Hc Hr Hres Hr'. destruct (ids_run parse Hp _ _ _ Hr (create_ids _ _ _ _ _ Hc)) as (Hi & _ & _).
  pose proof Hi as [I1 I2 I3 I4]. unfold ob_ws_result in Hres.
  destruct (take_first (is_result id) (queue w)) as [[q rest]|] eqn:E; [|done].
  assert (w1 = (w <| queue := rest |> <| pending ::= map (fun v => if v =? id then 0 else v) |>)) as Hw1 by congruence. clear Hres.
  destruct (take_first_spec _ _ _ _ E) as (a & b & Hq & -> & Hf & _).
  assert (results id (a ++ b) = 0%nat /\ 1 <= id <= next_id w) as [H0 Hid].
  { specialize (I3 id). specialize (I4 id). rewrite Hq, results_app in *. change (q :: b) with ([q] ++ b) in *. rewrite results_app in *.
    assert (results id [q] = 1%nat) as H1 by (unfold results; cbn [List.filter]; by rewrite Hf). split; [lia|apply I3; lia]. }
  split; [done|]. destruct (take_ids _ _ _ _ E Hi) as (J1 & _ & _).
  assert (answered id w1 /\ ws_ids w1) as [HA J2].
  { rewrite Hw1. split.
    - split; [done|]. split; [|done]. cbn. intros (x & Hx & Hin)%in_map_iff. destruct (Z.eqb_spec x id); lia.
    - refine (proj1 (keeps_ids_slots _ _ _ J1)). intros l v (x & Hx & Hin)%in_map_iff. destruct (x =? id); [by left|right; congruence]. }
  destruct (ids_run parse Hp _ _ _ Hr' J2) as (_ & _ & HA'). destruct (HA' id HA) as (_ & _ & Hz).
  unfold ob_ws_result. destruct (take_first (is_result id) (queue w2)) as [[q' rest']|] eqn:E'; [|done].
  destruct (take_first_spec _ _ _ _ E') as (a' & b' & Hq' & _ & Hf' & _). rewrite Hq', results_app in Hz.
  unfold results at 2 in Hz. cbn [List.filter] in Hz. rewrite Hf' in Hz. cbn in Hz. lia.
Qed.
Definition result_text : list Z :=
  [123] ++ in_quotes "v" ++ lit ":1," ++ in_quotes "type" ++ lit ":" ++ in_quotes "result" ++ lit "," ++ in_quotes "id" ++ lit ":1," ++
  in_quotes "status" ++ lit ":200," ++ in_quotes "body" ++ lit ":null}".
Definition result_json : cj :=
  CObj [(lit "v", CNum 1); (lit "type", CStr (lit "result")); (lit "id", CNum 1); (lit "status", CNum 200); (lit "body", CNull)].
Definition toy_parse (t : list Z) : option cj := if list_eqb t result_text then Some result_json else None.
Lemma toy_parse_id : parse_id toy_parse.
Proof.
  intros t j v n. unfold toy_parse. destruct (list_eqb t result_text) eqn:E; [|discriminate]. apply list_eqb_eq in E as ->.
  intros [= <-]. replace (get_item result_json (lit "id")) with (Some (CNum 1)) by (vm_compute; reflexivity).
  replace (uint_in result_text (lit "id") 1 MAX_SAFE) with (Some 1) by (vm_compute; reflexivity). intros [= <-] [= <-]. reflexivity.
Qed.
Definition whole (t : list Z) : ws_op := OpPump false (Piece (Some (Meta false false true false 0 0 false)) t) true.
Definition rpc_ops : list ws_op :=
  take 1 sample_ws ++ [OpBegin (lit "heartbeat") (Some 60) [SendRound false 60 0 false RecvFailed true false]; whole result_text].
Definition after_ops (w : ob_ws) (ops : list ws_op) : ob_ws := default w (ws_run toy_parse w ops).
Lemma result_once_witness :
  let w := after_ops fresh_ws rpc_ops in let w1 := (ob_ws_result 1 w).2 in let w2 := after_ops w1 [whole result_text] in
  (ob_ws_result 1 w).1 = Some result_json /\ 1 <= 1 <= next_id w /\ (ob_ws_result 1 w2).1 = None.
Proof.
  cbv zeta. split; [vm_compute; reflexivity|].
  apply (result_once toy_parse false (Some sample_id) (Some (lit "t")) true fresh_ws rpc_ops (after_ops fresh_ws rpc_ops) 1 result_json
    (ob_ws_result 1 (after_ops fresh_ws rpc_ops)).2 [whole result_text]); [exact toy_parse_id|vm_compute; reflexivity..].
Defined.
