(* ===== verification/Control.v ===== *)
(** * Signalling and setup of a peer

    src/sdk/c/remote/peer/control.c and its part ws_control.inc: the authorisation lease,
    the authenticated signalling messages, the key exchange, relay-only candidate filtering
    and the setup worker.  The websocket's answers, libjuice, SPAKE2 and the clocks are
    arguments. *)

From Stdlib Require Import QArith.
From S2P Require Import Prelude.
From S2P Require Import Json Peer PeerCrypto Api Coordinator Target Juice Ws.
#[local] Open Scope Z_scope.
#[local] Arguments lit : simpl never.

(** ** Parsing replies *)

(** Escaped NUL characters are refused before cJSON sees the text. *)
Fixpoint nul_scan (fuel : nat) (in_string : bool) (s : list Z) : bool :=
  match fuel, s with
  | S fuel, c :: s =>
    if negb in_string then nul_scan fuel (c =? 34) s
    else if c =? 34 then nul_scan fuel false s
    else if c =? 92 then
      match s with
      | [] => true
      | d :: s' => if (d =? 117) && list_eqb (ztake 4 s') (lit "0000") then true else nul_scan fuel true s'
      end
    else nul_scan fuel true s
  | _, _ => false
  end.
Definition ob_peer_json_parse (parse : list Z -> option cj) (text : list Z) : option cj :=
  if nul_scan (length text) false text then None else parse text.

(** [ob_control_request]: the answer of the API and, on success, the parsed body. *)
Definition ob_control_request (parse : list Z -> option cj) (print_ok : bool) (answer : option ob_api_error * list Z)
    : ob_remote_error + cj :=
  if negb print_ok then inl (ob_error OB_REMOTE_ENOMEM 0 None)
  else match answer.1 with
  | Some e => inl (ob_error OB_REMOTE_EHTTP (http_status e) (Some (ae_message e)))
  | None =>
    match (if zlen answer.2 =? 0 then Some (CObj []) else ob_peer_json_parse parse answer.2) with
    | None => inl (ob_error OB_REMOTE_EPROTOCOL 0 (Some (lit "Invalid control JSON response")))
    | Some j => inr j
    end
  end.

(** ** The authorisation lease *)

Definition expect (c : Z) (l : list Z) : option (list Z) := match l with x :: l => if x =? c then Some l else None | [] => None end.
(** Days since 1970 of a date whose month is in range; the day may lie outside the month. *)
Definition days_from_civil (y m d : Z) : Z :=
  let y := if m <=? 2 then y - 1 else y in
  let era := y / 400 in
  let yoe := y mod 400 in
  let doy := (153 * (m + (if 2 <? m then -3 else 9)) + 2) / 5 + d - 1 in
  era * 146097 + (yoe * 365 + yoe / 4 - yoe / 100 + doy) - 719468.
Definition timegm (y m d h min sec : Z) : Z := ((days_from_civil y m d * 24 + h) * 60 + min) * 60 + sec.
Definition expiry (text : option (list Z)) : Z :=
  default 0 (
    t ← text; '(y, t) ← scan_int t; t ← expect 45 t; '(m, t) ← scan_int t; t ← expect 45 t; '(d, t) ← scan_int t;
    t ← expect 84 t; '(h, t) ← scan_int t; t ← expect 58 t; '(min, t) ← scan_int t; t ← expect 58 t; '(sec, _) ← scan_int t;
    if (y <? 2020) || (m <? 1) || (12 <? m) || (d <? 1) || (31 <? d) || (23 <? h) || (59 <? min) || (60 <? sec) then None
    else let t := timegm y m d h min sec in if 0 <? t then Some (u64 (t * 1000000)) else None).

Definition MAX_LEASE : Z := 120000000.
Definition set_lease (realtime now : Z) (expires broker_expires : option (list Z)) (p : ob_remote_peer) : Z * ob_remote_peer :=
  let session := expiry expires in
  let broker := expiry broker_expires in
  if (session =? 0) || (broker =? 0) || (session <=? realtime) || (broker <=? realtime) then (-1, p)
  else
    let remaining := Z.min (Z.min session broker - realtime) MAX_LEASE in
    if lease_deadline_set p && (lease_deadline_us p <=? now) then (-1, p)
    else (0, p <| lease_deadline_us := u64 (now + remaining) |> <| lease_deadline_set := true |>).

(** [alive]: the first failure found is reported.  [t1], [t2]: readings of the clock; the
    further arguments are the clock readings of a transport failure. *)
Definition alive (t1 t2 f1 f2 : Z) (p : ob_remote_peer) : bool * ob_remote_peer :=
  if stop p || attempt_stop p then (false, p)
  else
    let expired := lease_deadline_set p && (lease_deadline_us p <=? t1) in
    if expired then
      (false, if control_managed p then ob_peer_transport_fail_locked f1 f2 p OB_REMOTE_ECLOSED (lit "Control authorization lease expired")
              else ob_peer_fail_locked p OB_REMOTE_ECLOSED (lit "Control authorization lease expired"))
    else if negb (ready p) && (deadline_us p <=? t2) then
      (false, ob_peer_transport_fail_locked f1 f2 p OB_REMOTE_ETIMEOUT (lit "Peer setup timed out"))
    else (true, p).

(** [peer_cancel]: what stops curl while the worker waits for it. *)
Definition peer_cancel (t1 t2 : Z) (p : ob_remote_peer) : bool :=
  negb (control_cleanup p) &&
  (stop p || attempt_stop p || (lease_deadline_set p && (lease_deadline_us p <=? t1)) || (negb (ready p) && (deadline_us p <=? t2))).

(** ** Endpoints in replies *)

(** [strtoul]: a value beyond an unsigned long saturates, a minus sign negates modulo 2^64. *)
Definition strtoul (s : list Z) : Z * list Z :=
  let (n, rest) := strtol s in (if UINT64_MAX <? Z.abs n then UINT64_MAX else n mod (UINT64_MAX + 1), rest).
(** A port up to a terminator: all of the text is a number, from 1 to 65535. *)
Definition port_number (s : list Z) (stop_at : list Z) : option Z :=
  let (n, rest) := strtoul s in
  if (zlen rest =? zlen s) || negb (match rest with [] => true | c :: _ => existsb (Z.eqb c) stop_at end) then None
  else if (n <? 1) || (65535 <? n) then None else Some n.
Fixpoint cut_last (sep : Z) (l : list Z) : option (list Z * list Z) :=
  match l with
  | [] => None
  | c :: l => match cut_last sep l with
              | Some (a, b) => Some (c :: a, b)
              | None => if c =? sep then Some ([], l) else None
              end
  end.
(** [discover_stun]: the endpoint the reply names, [Some None] for none, [None] for an invalid one. *)
Definition stun_endpoint (address : option (list Z)) : option (option (list Z * Z)) :=
  match address with
  | None | Some [] => Some None
  | Some ((c :: r) as a) =>
    if 270 <? zlen a then None
    else
      let split := if c =? 91 then match cut 93 r with
                                   | (h, Some (58 :: port)) => Some (h, port)
                                   | _ => None
                                   end
                   else match cut_last 58 a with
                        | Some (h, port) => if existsb (Z.eqb 58) h then None else Some (h, port)
                        | None => None
                        end in
      match split with
      | None => None
      | Some (host, port) =>
        if (zlen host =? 0) || (OB_MAX_HOST <? zlen host) || negb (ob_valid_host (Some host) false) then None
        else match port_number port [] with Some n => Some (Some (host, n)) | None => None end
      end
  end.
Definition discover_stun (address : option (list Z)) (has_ice alloc_ok : bool) (p : ob_remote_peer) : Z * ob_remote_peer :=
  if bool_decide (is_Some (stun p)) || has_ice then (0, p)
  else match stun_endpoint address with
  | None => (-1, p)
  | Some None => (0, p)
  | Some (Some (host, n)) => if alloc_ok then (0, p <| stun := Some host |> <| stun_port := n |>) else (-1, p)
  end.

(** [turn_config]: host, port and credentials of a TURN reply. *)
Record turn_server := TurnServer { t_host : list Z; t_port : Z; t_user : list Z; t_password : list Z }.
Definition first_url (urls : option cj) : option (list Z) :=
  match urls with
  | Some (CStr s) => Some s
  | Some (CArr (CStr s :: _)) => Some s
  | _ => None
  end.
Definition turn_config (response : cj) : option turn_server :=
  match first_url (get_item response (lit "urls")), str response (lit "username"), str response (lit "password") with
  | Some url, Some user, Some password =>
    if negb (list_eqb (ztake 5 url) (lit "turn:")) then None
    else
      let b := zdrop 5 url in
      let b := if list_eqb (ztake 2 b) (lit "//") then zdrop 2 b else b in
      let (text, query) := cut 63 b in
      if match query with Some q => negb (list_eqb q (lit "transport=udp")) | None => false end then None
      else
        let split := match text with
          | 91 :: r => match cut 93 r with
                       | (h, Some (58 :: port)) => Some (h, Some port)
                       | (h, Some _) => Some (h, None)
                       | (_, None) => None
                       end
          | _ => match cut 58 text with (h, port) => Some (h, port) end
          end in
        match split with
        | None => None
        | Some (host, port) =>
          if (zlen host =? 0) || (253 <? zlen host) || negb (ob_valid_host (Some host) false) then None
          else match port with
          | None => Some (TurnServer host 3478 user password)
          | Some t => match port_number t [] with Some n => Some (TurnServer host n user password) | None => None end
          end
        end
  | _, _, _ => None
  end.

(** ** Control errors *)

Definition fatal_status (status : Z) : bool := (status =? 401) || (status =? 403) || (status =? 404) || (status =? 410).
Definition heartbeat_interval (remaining : Z) : Z := Z.max (Z.min (remaining / 3) 10000000) 50000.
(** The capabilities of a reply: STUN endpoint, lease, approval. *)
Definition apply_capabilities (realtime now f1 f2 : Z) (has_ice alloc_ok : bool) (response : option cj) (p : ob_remote_peer) : Z * ob_remote_peer :=
  let get k := match response with Some j => str j k | None => None end in
  let invalid := (OB_REMOTE_EPROTOCOL, ob_peer_fail_locked p OB_REMOTE_EPROTOCOL (lit "Invalid pushed capabilities/STUN endpoint")) in
  if negb (is_object response) then invalid
  else
    let (rc, q) := discover_stun (get (lit "stun_address")) has_ice alloc_ok p in
    if truth rc then invalid
    else
      let (rc, q) := set_lease realtime now (get (lit "expires_at")) (get (lit "broker_lease_expires_at")) q in
      if truth rc then
        (OB_REMOTE_ECLOSED,
         if control_managed q then ob_peer_transport_fail_locked f1 f2 q OB_REMOTE_ECLOSED (lit "Control authorization lease expired")
         else ob_peer_fail_locked q OB_REMOTE_ECLOSED (lit "Control authorization lease expired"))
      else (0, q <| approved := match response with
                                | Some j => match get_item j (lit "peer_authenticated") with Some (CBool true) => true | _ => false end
                                | None => false end |>).
Definition peer_authorization_error (f1 f2 : Z) (body : option cj) (p : ob_remote_peer) : Z * ob_remote_peer :=
  let reason := match body with Some j => str j (lit "error_code") | None => None end in
  let terminal := bool_decide (reason = Some (lit "connection_revoked")) || bool_decide (reason = Some (lit "credential_revoked")) in
  (OB_REMOTE_ECLOSED,
   if negb (control_managed p) || terminal
   then ob_peer_fail_locked p OB_REMOTE_ECLOSED (lit "Control authorization was explicitly revoked")
   else ob_peer_transport_fail_locked f1 f2 p OB_REMOTE_ECLOSED (lit "Control session requires fresh authorization")).
(** [jitter]: the random word. *)
Definition peer_transport_error (now jitter f1 f2 : Z) (e : ob_api_error) (p : ob_remote_peer) : Z * ob_remote_peer :=
  if fatal_status (http_status e) then
    (OB_REMOTE_ECLOSED,
     if control_managed p then ob_peer_transport_fail_locked f1 f2 p OB_REMOTE_ECLOSED (lit "Control session requires fresh authorization")
     else ob_peer_fail_locked p OB_REMOTE_ECLOSED (lit "Control session revoked"))
  else if (ae_code e =? OB_API_JSON) || (ae_code e =? OB_API_LIMIT) || (ae_code e =? OB_API_NOMEM) then
    let rc := if ae_code e =? OB_API_NOMEM then OB_REMOTE_ENOMEM else OB_REMOTE_EPROTOCOL in
    (rc, ob_peer_fail_locked p rc (ae_message e))
  else
    let backoff := if truth (reconnect_backoff p) then reconnect_backoff p else 100 in
    (0, p <| heartbeat_id := 0 |> <| reconnect_us := u64 (now + (backoff + jitter mod (backoff / 4 + 1)) * 1000) |>
          <| reconnect_backoff := if backoff <? 2000 then backoff * 2 else 2000 |>).

(** ** Signalling messages *)

Section signals.
Context (parse : list Z -> option cj) (hmac : list Z -> list Z -> option (list Z)).

Definition envelope_names : list (list Z) := [lit "v"; lit "sid"; lit "seq"; lit "t"; lit "payload"; lit "mac"].
Definition number_is (v : option cj) (n : Z) : bool := match v with Some (CNum q) => Qeq_bool q (inject_Z n) | _ => false end.
Definition literal_is (data k : list Z) (n : Z) : bool :=
  match ob_json_uint_field (Some data) (Some k) n n with Some _ => true | None => false end.
(** The checks of [ob_decode_signal] on an envelope that parsed. *)
Definition envelope_valid (p : ob_remote_peer) (data : list Z) (want : Z) (rest_sequence : Q) (type : list Z) (authenticated : bool)
    (envelope : cj) : bool :=
  match envelope with
  | CObj l => match fields_loop l envelope_names 0 with inl seen => seen =? (if authenticated then 63 else 31) | inr _ => false end
  | _ => false
  end &&
  number_is (get_item envelope (lit "v")) 1 && literal_is data (lit "v") 1 && literal_is data (lit "seq") want &&
  Qeq_bool rest_sequence (inject_Z want) && number_is (get_item envelope (lit "seq")) want &&
  bool_decide (str envelope (lit "sid") = session_id p) && bool_decide (is_Some (session_id p)) &&
  bool_decide (str envelope (lit "t") = Some type) && bool_decide (is_Some (str envelope (lit "payload"))).
Definition mac_valid (p : ob_remote_peer) (want : Z) (type payload : list Z) (claimed : option (list Z)) : bool :=
  match ob_unhex claimed 32, ob_signal_mac hmac (rx_key p) want type payload with
  | Some c, Some m => list_eqb m c
  | _, _ => false
  end.
(** The result code, the payload and the handle. *)
Definition ob_decode_signal (alloc_ok : bool) (data : option (list Z)) (rest_sequence : Q) (type : list Z) (authenticated : bool)
    (p : ob_remote_peer) : Z * option (list Z) * ob_remote_peer :=
  if MAX_SAFE <=? rx_sequence p then (OB_REMOTE_EPROTOCOL, None, p)
  else
    let want := rx_sequence p + 1 in
    let invalid := (if authenticated then OB_REMOTE_EAUTH else OB_REMOTE_EPROTOCOL, None, p) in
    match data with
    | None => invalid
    | Some d =>
      match (if zlen d <=? 16384 then ob_peer_json_parse parse d else None) with
      | None => invalid
      | Some j =>
        let payload := default [] (str j (lit "payload")) in
        if negb (envelope_valid p d want rest_sequence type authenticated j) then invalid
        else if authenticated && negb (mac_valid p want type payload (str j (lit "mac"))) then invalid
        else if negb alloc_ok then (OB_REMOTE_ENOMEM, None, p)
        else (0, Some payload, p <| rx_sequence := want |>)
      end
    end.

(** What one round of [receive_signal] sees: the worker must stop, the control connection
    reports an error, nothing arrived, or a message; [ack] is the error of acknowledging it
    when [peer_transport_error] found that one fatal, else 0. *)
Inductive signal_round := NotAlive | TickError (rc : Z) | Nothing | Message (sequence : Q) (data : option (list Z)) (alloc_ok : bool) (ack : Z).
Fixpoint receive_signal (rounds : list signal_round) (type : list Z) (authenticated : bool) (p : ob_remote_peer)
    : option (Z * option (list Z) * ob_remote_peer) :=
  match rounds with
  | [] => None
  | NotAlive :: _ => Some (OB_REMOTE_ECLOSED, None, p)
  | TickError rc :: _ => Some (rc, None, p)
  | Nothing :: rounds => receive_signal rounds type authenticated p
  | Message sequence data ok ack :: rounds =>
    if Qle_bool sequence (inject_Z (rx_sequence p)) then receive_signal rounds type authenticated p
    else
      let '(rc, out, q) := ob_decode_signal ok data sequence type authenticated p in
      Some (if (rc =? 0) && truth ack then (ack, None, q) else (rc, out, q))
  end.

(** The envelope [send_signal] builds, as an object. *)
Definition signal_envelope (p : ob_remote_peer) (type payload : list Z) (authenticated : bool) : Z + jobject :=
  let seq := tx_sequence p + 1 in
  let base := [(lit "v", JNum 1); (lit "sid", JStr (default [] (session_id p))); (lit "seq", JNum seq); (lit "t", JStr type);
               (lit "payload", JStr payload)] in
  if authenticated then
    match ob_signal_mac hmac (tx_key p) seq type payload with
    | None => inl OB_REMOTE_EAUTH
    | Some mac => inr (base ++ [(lit "mac", JStr (ob_hex mac))])
    end
  else inr base.
(** [rpc]: the answer of the control server to the message, 0 or an error with its status. *)
Definition send_signal (print_ok : bool) (rpc : jobject -> Z * ob_remote_error) (type payload : list Z) (authenticated : bool)
    (p : ob_remote_peer) : Z * ob_remote_peer * list jobject :=
  match signal_envelope p type payload authenticated with
  | inl rc => (rc, p, [])
  | inr e =>
    if negb print_ok then (OB_REMOTE_ENOMEM, p, [])
    else
      let (rc, err) := rpc e in
      if rc =? 0 then (0, p <| tx_sequence := tx_sequence p + 1 |>, [e])
      else
        let p := if truth (result p) then p else p <| error := err |> in
        (if authenticated && fatal_status (e_http err) then OB_REMOTE_EAUTH else rc, p, [e])
  end.
End signals.

(** ** Relay-only candidates *)

Definition ice_space (c : Z) : bool := (c =? 32) || (c =? 9) || (c =? 13) || (c =? 10).
Definition ice_token (s want : list Z) : bool := list_eqb (map lower s) want.
Definition candidate_prefix : list Z := lit "a=candidate:".
(** The next token and the rest; an empty token means there is none. *)
Fixpoint ice_take (l : list Z) : list Z * list Z :=
  match l with
  | c :: l' => if ice_space c then ([], l) else let r := ice_take l' in (c :: r.1, r.2)
  | [] => ([], [])
  end.
Fixpoint ice_skip (l : list Z) : list Z := match l with c :: l' => if ice_space c then ice_skip l' else l | [] => [] end.
Fixpoint ice_tokens (n : nat) (l : list Z) : option (list (list Z)) :=
  match n with
  | O => Some []
  | S n => let (t, rest) := ice_take (ice_skip l) in
           if zlen t =? 0 then None else ts ← ice_tokens n rest; Some (t :: ts)
  end.
Definition JUICE_MAX_CANDIDATE_SDP_STRING_LEN : Z := 256.
Definition JUICE_MAX_SDP_STRING_LEN : Z := 4096.
Definition ob_relay_candidate (line : list Z) : bool :=
  if (zlen line <? 12) || (JUICE_MAX_CANDIDATE_SDP_STRING_LEN <=? zlen line) || negb (list_eqb (ztake 12 line) candidate_prefix) then false
  else match ice_tokens 8 (zdrop 12 line) with
  | Some [foundation; component; transport; _; _; _; typ; kind] =>
    (zlen foundation <=? 32) && list_eqb component (lit "1") && ice_token transport (lit "udp") &&
    list_eqb typ (lit "typ") && ice_token kind (lit "relay")
  | _ => false
  end.
Definition is_candidate (line : list Z) : bool := (12 <=? zlen line) && list_eqb (ztake 12 line) candidate_prefix.
(** The lines of a description, each with its newline. *)
Fixpoint next_line (l : list Z) : list Z * list Z :=
  match l with
  | [] => ([], [])
  | c :: l => if c =? 10 then ([c], l) else let r := next_line l in (c :: r.1, r.2)
  end.
Fixpoint stray_cr (l : list Z) : bool :=
  match l with
  | [] => false
  | c :: l' => ((c =? 13) && negb (match l' with d :: _ => d =? 10 | [] => false end)) || stray_cr l'
  end.
Fixpoint filter_loop (fuel : nat) (l out : list Z) (relays : Z) : option (list Z) :=
  match fuel, l with
  | S fuel, _ :: _ =>
    let (line, rest) := next_line l in
    if stray_cr line then None
    else
      let relay := is_candidate line && ob_relay_candidate line in
      if negb (is_candidate line) || relay then
        if JUICE_MAX_SDP_STRING_LEN <=? zlen out + zlen line then None
        else filter_loop fuel rest (out ++ line) (if relay then relays + 1 else relays)
      else filter_loop fuel rest out relays
  | _, _ => if truth relays then Some out else None
  end.
Definition ob_filter_relay_description (source : list Z) : option (list Z) := filter_loop (length source) source [] 0.

(** ** Key exchange *)

Definition SPAKE2_MAX_MSG_SIZE : Z := 32.
Definition confirmation : list Z := lit "ob-peer-v1 key confirmation".
Section setup.
Context (parse : list Z -> option cj) (printer : jobject -> option (list Z)).
Context (sha256 : list Z -> list Z) (hmac : list Z -> list Z -> option (list Z)) (hkdf : Z -> list Z -> list Z -> list Z -> option (list Z)).

(** [mine]: the message SPAKE2 generates for the password and the two names; [process] is
    the shared key for the peer's message.  [rpc n] answers the [n]-th message sent,
    [rounds n] is what the [n]-th wait sees. *)
Record pake_env := PakeEnv {
  k_mine : option (list Z); k_process : list Z -> option (list Z);
  k_rpc : nat -> jobject -> Z * ob_remote_error; k_rounds : nat -> list signal_round }.
Definition pake_finish (rc : Z) (p : ob_remote_peer) : Z * ob_remote_peer :=
  if rc =? 0 then match ob_resume_key_derive hkdf p with Some p => (0, p) | None => (OB_REMOTE_EAUTH, p) end else (rc, p).
Definition pake (env : pake_env) (p : ob_remote_peer) : option (Z * ob_remote_peer) :=
  match k_mine env with
  | None => Some (OB_REMOTE_EAUTH, p)
  | Some mine =>
    if negb (zlen mine =? SPAKE2_MAX_MSG_SIZE) then Some (OB_REMOTE_EAUTH, p)
    else
      let '(rc, p, _) := send_signal hmac true (k_rpc env 0) (lit "pake") (ob_hex mine) false p in
      if truth rc then Some (rc, p)
      else match receive_signal parse hmac (k_rounds env 0) (lit "pake") false p with
      | None => None
      | Some (rc, remote, p) =>
        if truth rc then Some (rc, p)
        else match ob_unhex remote SPAKE2_MAX_MSG_SIZE with
        | None => Some (OB_REMOTE_EAUTH, p)
        | Some theirs =>
          match k_process env theirs with
          | None => Some (OB_REMOTE_EAUTH, p)
          | Some key =>
            let p := p <| shared := key |> in
            if negb (zlen key =? SPAKE2_MAX_KEY_SIZE) then Some (OB_REMOTE_EAUTH, p)
            else match ob_derive_keys sha256 hkdf p (if is_server p then theirs else mine) (if is_server p then mine else theirs) with
            | None => Some (OB_REMOTE_EAUTH, p)
            | Some p =>
              let '(rc, p, _) := send_signal hmac true (k_rpc env 1) (lit "confirm") confirmation true p in
              if truth rc then Some (rc, p)
              else match receive_signal parse hmac (k_rounds env 1) (lit "confirm") true p with
              | None => None
              | Some (rc, remote, p) =>
                Some (pake_finish (if (rc =? 0) && negb (bool_decide (remote = Some confirmation)) then OB_REMOTE_EAUTH else rc) p)
              end
            end
          end
        end
      end
  end.

(** ** Connectivity *)

(** What the surroundings answer while the transport is set up, in the order of use. *)
Record ice_env := IceEnv {
  i_approve : bool -> Z * ob_remote_error; i_certificate : option (list Z); i_capabilities : Z;
  i_turn : Z * ob_remote_error * option cj; i_created : bool; i_tick1 : Z; i_gathered : bool; i_local : option (list Z);
  i_rpc : jobject -> Z * ob_remote_error; i_rounds : list signal_round; i_set_remote : list Z -> bool;
  i_tick2 : Z; i_connected : bool }.
(** What happened: the candidates libjuice may gather and use, the description sent, and
    the peer's description that was installed. *)
Record ice_trace := IceTrace { tr_relay_only : bool; tr_turn : option turn_server; tr_sent : option (list Z); tr_installed : option (list Z) }.
Definition no_trace : ice_trace := IceTrace false None None None.
Definition ice_result : Type := option (Z * ob_remote_peer * ice_trace).

(** Approval and certificate, on the broker's side. *)
Definition ice_approve (env : ice_env) (p : ob_remote_peer) : Z * ob_remote_peer :=
  if negb (is_server p) then (0, p)
  else
    let (rc, e) := i_approve env (negb (relay p =? OB_REMOTE_RELAY_NEVER)) in
    let rc := if truth rc && (relay p =? OB_REMOTE_RELAY_AUTO) && ((e_http e =? 403) || (e_http e =? 503)) then (i_approve env false).1 else rc in
    if truth rc then (rc, p)
    else match i_certificate env with None => (OB_REMOTE_EAUTH, p) | Some fp => (0, p <| fingerprint := fp |>) end.
(** The TURN server to use, or the error that ends the setup. *)
Definition ice_turn (env : ice_env) (p : ob_remote_peer) : Z + option turn_server :=
  if relay p =? OB_REMOTE_RELAY_NEVER then inr None
  else
    let '(rc, e, response) := i_turn env in
    match (if rc =? 0 then response ≫= turn_config else None) with
    | Some t => inr (Some t)
    | None => if truth rc && (e_http e =? 0) then inl rc
              else if relay p =? OB_REMOTE_RELAY_FORCE then inl OB_REMOTE_EICE else inr None
    end.
(** The description to send and the message around it. *)
Definition local_description (env : ice_env) (p : ob_remote_peer) : option (list Z) :=
  local ← i_local env; if relay p =? OB_REMOTE_RELAY_FORCE then ob_filter_relay_description local else Some local.
Definition ice_body (p : ob_remote_peer) (sdp : list Z) : option jobject :=
  let base := [(lit "sdp", JStr sdp); (lit "mapping_version", JNum 2)] in
  let fp := if is_server p then [(lit "cert_sha256", JStr (ob_hex (fingerprint p)))] else [] in
  if resume_key_set p then
    proof ← ob_resume_proof sha256 hmac p (b2z (is_server p)); Some (base ++ [(lit "resume_proof", JStr (ob_hex proof))] ++ fp)
  else Some (base ++ fp).
(** The authenticated answer of the peer: error code, the handle, the description to install. *)
Definition ice_answer (p : ob_remote_peer) (remote : option cj) : Z * ob_remote_peer * option (list Z) :=
  let get k := match remote with Some j => str j k | None => None end in
  let version := match remote with Some j => get_item j (lit "mapping_version") | None => None end in
  let rc := match version with None => 0 | Some v => if number_is (Some v) 1 || number_is (Some v) 2 then 0 else OB_REMOTE_EPROTOCOL end in
  let p := p <| wire_version := if number_is version 2 then 2 else 1 |> <| resume_context_available := false |> in
  let p := if (rc =? 0) && (wire_version p =? 2) && resume_key_set p then
             match ob_resume_proof sha256 hmac p (b2z (negb (is_server p))), ob_unhex (get (lit "resume_proof")) 32 with
             | Some expected, Some received =>
               if list_eqb expected received then p <| resume_context_available := ever_ready p |> else p
             | _, _ => p
             end
           else p in
  match get (lit "sdp") with
  | None => (OB_REMOTE_EPROTOCOL, p, None)
  | Some sdp =>
    if JUICE_MAX_SDP_STRING_LEN <=? zlen sdp then (OB_REMOTE_EPROTOCOL, p, None)
    else if truth rc then (rc, p, None)
    else
      let pinned := if is_server p then Some p
                    else fp ← ob_unhex (get (lit "cert_sha256")) 32; Some (p <| fingerprint := fp |>) in
      match pinned with
      | None => (OB_REMOTE_EAUTH, p, None)
      | Some p =>
        if relay p =? OB_REMOTE_RELAY_FORCE then
          match ob_filter_relay_description sdp with None => (OB_REMOTE_EICE, p, None) | Some f => (0, p, Some f) end
        else (0, p, Some sdp)
      end
  end.

Definition establish_ice (env : ice_env) (p : ob_remote_peer) : ice_result :=
  let (rc, p) := ice_approve env p in
  if truth rc then Some (rc, p, no_trace)
  else if truth (i_capabilities env) then Some (i_capabilities env, p, no_trace)
  else match ice_turn env p with
  | inl rc => Some (rc, p, no_trace)
  | inr turn =>
    let trace := IceTrace (relay p =? OB_REMOTE_RELAY_FORCE) turn in
    if negb (i_created env) then Some (OB_REMOTE_EICE, p, trace None None)
    else if truth (i_tick1 env) then Some (i_tick1 env, p, trace None None)
    else if negb (i_gathered env) then Some (OB_REMOTE_EICE, p, trace None None)
    else match local_description env p with
    | None => Some (OB_REMOTE_EICE, p, trace None None)
    | Some sdp =>
      match ice_body p sdp with
      | None => Some (OB_REMOTE_EAUTH, p, trace None None)
      | Some body =>
        match printer body with
        | None => Some (OB_REMOTE_ENOMEM, p, trace None None)
        | Some payload =>
          let '(rc, p, log) := send_signal hmac true (i_rpc env) (lit "ice") payload true p in
          let sent := if bool_decide (log = []) then None else Some sdp in
          if truth rc then Some (rc, p, trace sent None)
          else match receive_signal parse hmac (i_rounds env) (lit "ice") true p with
          | None => None
          | Some (rc, remote, p) =>
            if truth rc then Some (rc, p, trace sent None)
            else
              let '(rc, p, install) := ice_answer p (remote ≫= ob_peer_json_parse parse) in
              match install with
              | None => Some (rc, p, trace sent None)
              | Some sdp' =>
                let done := trace sent (Some sdp') in
                if negb (i_set_remote env sdp') then Some (OB_REMOTE_EICE, p, done)
                else if truth (i_tick2 env) then Some (i_tick2 env, p, done)
                else if negb (i_connected env) then Some (OB_REMOTE_EICE, p, done)
                else Some (0, if stop p || attempt_stop p then p
                              else p <| transport_detached := false |> <| transport_available := true |>, done)
              end
          end
        end
      end
    end
  end.
End setup.

(** ** The setup worker *)

(** The failure of a setup step: transient failures retire only the attempt. *)
Definition setup_failed (t1 t2 rc : Z) (p : ob_remote_peer) : ob_remote_peer :=
  if truth rc && negb (stop p) && negb (attempt_stop p) then
    if (rc =? OB_REMOTE_EICE) || (rc =? OB_REMOTE_EQUIC) || (rc =? OB_REMOTE_ETIMEOUT) || (rc =? OB_REMOTE_EIO) ||
       ((rc =? OB_REMOTE_EHTTP) && control_managed p)
    then ob_peer_transport_fail_locked t1 t2 p rc (ob_remote_strerror rc)
    else ob_peer_fail_locked p rc (ob_remote_strerror rc)
  else p.
(** A message that arrives after setup. *)
Definition late_message (sequence : Q) (p : ob_remote_peer) : ob_remote_peer :=
  if Qle_bool sequence (inject_Z (rx_sequence p)) then p
  else ob_peer_fail_locked p OB_REMOTE_EPROTOCOL (lit "Unexpected post-setup signal").
(** [cancel_session]: whether the session is closed over the websocket or, when that
    fails, by one REST request, which is returned. *)
Definition cancel_session (ws_connected rpc_closed : bool) (p : ob_remote_peer) : ob_remote_peer * option request :=
  match session_id p, Peer.bearer p with
  | Some sid, Some token =>
    let p := p <| control_cleanup := true |> in
    (p, if ws_connected && rpc_closed then None else Some (Request DELETE (lit "/v1/sessions/" ++ sid) (Some token) None))
  | _, _ => (p, None)
  end.
Definition ob_control_close_connection (p : ob_remote_peer) : option request :=
  if negb (control_managed p) || negb (ob_valid_id (Some (connection_id p))) then None
  else Some (Request DELETE (lit "/v1/connections/" ++ connection_id p) (if is_server p then Peer.bearer p else None) None).

(** ** Messages are accepted in order *)

Record delivery := Delivery { d_alloc : bool; d_data : option (list Z); d_rest : Q; d_type : list Z; d_auth : bool }.
Record accepted := Accepted { ac_seq : Z; ac_type : list Z; ac_auth : bool; ac_payload : list Z; ac_data : list Z }.
(** Any messages, decoded one after the other: the ones accepted, with the number each was
    accepted under, and the handle. *)
Fixpoint decode_run (parse : list Z -> option cj) (hmac : list Z -> list Z -> option (list Z)) (ds : list delivery) (p : ob_remote_peer)
    : list accepted * ob_remote_peer :=
  match ds with
  | [] => ([], p)
  | d :: ds =>
    match ob_decode_signal parse hmac (d_alloc d) (d_data d) (d_rest d) (d_type d) (d_auth d) p with
    | (_, Some payload, q) =>
      let r := decode_run parse hmac ds q in
      (Accepted (rx_sequence q) (d_type d) (d_auth d) payload (default [] (d_data d)) :: r.1, r.2)
    | (_, None, q) => decode_run parse hmac ds q
    end
  end.
(** What makes a message the peer's next one: its text spells the sequence number, its envelope
    names this session, the type and the payload, and, where the type is authenticated, its
    [mac] member is the hexadecimal HMAC of number, type and payload under the receive key. *)
Definition authentic (parse : list Z -> option cj) (hmac : list Z -> list Z -> option (list Z)) (p : ob_remote_peer) (a : accepted) : Prop :=
  literal_is (ac_data a) (lit "seq") (ac_seq a) = true /\
  exists j sid, ob_peer_json_parse parse (ac_data a) = Some j /\ session_id p = Some sid /\ str j (lit "sid") = Some sid /\
    str j (lit "t") = Some (ac_type a) /\ str j (lit "payload") = Some (ac_payload a) /\
    (ac_auth a = true -> exists mac, str j (lit "mac") = Some (ob_hex mac) /\
       hmac (rx_key p) (signal_mac_input (ac_seq a) (ac_type a) (ac_payload a)) = Some mac).
Definition keys_of (p : ob_remote_peer) := (rx_key p, session_id p).

Lemma mac_valid_spec hmac p want type payload claimed : mac_valid hmac p want type payload claimed = true ->
  exists mac, claimed = Some (ob_hex mac) /\ hmac (rx_key p) (signal_mac_input want type payload) = Some mac.
Proof.
  unfold mac_valid, ob_signal_mac, hmac32. destruct claimed as [t|]; [|done].
  destruct (ob_unhex (Some t) 32) as [c|] eqn:Ec; [|done]. apply hex_exact in Ec as (_ & _ & ->); [|done].
  destruct (hmac _ _) as [m|]; [|done]. cbn. destruct (zlen m =? 32); [|done]. intros ->%list_eqb_eq. by exists c.
Qed.
Lemma decode_signal_spec parse hmac ok data rest type auth p rc out q :
  ob_decode_signal parse hmac ok data rest type auth p = (rc, out, q) ->
  match out with
  | None => q = p /\ rc <> 0
  | Some payload => rc = 0 /\ rx_sequence q = rx_sequence p + 1 /\ keys_of q = keys_of p /\
      authentic parse hmac p (Accepted (rx_sequence q) type auth payload (default [] data))
  end.
Proof.
  unfold ob_decode_signal. destruct (_ <=? _); [by intros [= <- <- <-]|]. cbv zeta.
  assert ((if auth then OB_REMOTE_EAUTH else OB_REMOTE_EPROTOCOL) <> 0) as Hne by by destruct auth.
  destruct data as [d|]; [|by intros [= <- <- <-]].
  destruct (if zlen d <=? 16384 then _ else _) as [j|] eqn:Ej; [|by intros [= <- <- <-]].
  destruct (zlen d <=? 16384); [|done].
  destruct (envelope_valid p d _ rest type auth j) eqn:Ev; cbn [negb]; [|by intros [= <- <- <-]].
  destruct (auth && negb _) eqn:Em; [by intros [= <- <- <-]|]. destruct ok; [|by intros [= <- <- <-]]. cbn [negb].
  intros [= <- <- <-]. unfold envelope_valid in Ev. bools.
  repeat match goal with H : bool_decide _ = true |- _ => apply bool_decide_eq_true in H end.
  match goal with H : is_Some (str j (lit "payload")) |- _ => destruct H as [payload Hp] end. rewrite Hp. cbn [default].
  split; [done|]. split; [done|]. split; [done|]. split; [done|].
  match goal with H : is_Some (session_id p) |- _ => destruct H as [sid Hsid] end. rewrite Hsid in *.
  exists j, sid. cbn [ac_auth ac_seq ac_type ac_payload ac_data default]. split_and!; try done.
  intros ->. cbn [andb] in Em. apply negb_false_iff in Em. rewrite Hp in Em. by apply mac_valid_spec in Em.
Qed.

(** C21: among all messages that arrive, in whatever order, repeated, forged or truncated, those
    that are accepted carry the consecutive sequence numbers after the last one consumed, as
    written in their text; each names this session, the expected type and the payload handed out,
    and the MAC member of each authenticated one is the HMAC of exactly that number, type and
    payload under the receive key; nothing else changes the cursor.  A replayed message is
    therefore never accepted a second time. *)
Theorem signals_in_order parse hmac ds p :
  let r := decode_run parse hmac ds p in
  map ac_seq r.1 = map (fun i => rx_sequence p + 1 + Z.of_nat i) (seq 0 (length r.1)) /\
  rx_sequence r.2 = rx_sequence p + zlen r.1 /\ keys_of r.2 = keys_of p /\
  Forall (authentic parse hmac p) r.1.
Proof.
  revert p. induction ds as [|d ds IH]; intros p; cbn [decode_run].
  { cbn. split; [done|]. split; [unfold zlen; cbn; lia|]. split; [done|constructor]. }
  destruct (ob_decode_signal parse hmac (d_alloc d) (d_data d) (d_rest d) (d_type d) (d_auth d) p) as [[rc out] q] eqn:E.
  apply decode_signal_spec in E. destruct out as [payload|]; [|destruct E as [-> _]; apply IH].
  destruct E as (_ & Hrx & Hk & Ha). cbv zeta. destruct (IH q) as (H1 & H2 & H3 & H4). cbv zeta in *.
  set (r := decode_run parse hmac ds q) in *. cbn [fst snd map length seq]. split_and!.
  - rewrite H1. cbn [ac_seq]. f_equal; [lia|]. rewrite <- seq_shift, map_map. apply map_ext. intros i. lia.
  - rewrite H2, zlen_cons. lia.
  - by rewrite H3.
  - constructor; [done|]. revert H4. apply Forall_impl. intros a. unfold authentic. unfold keys_of in Hk. by injection Hk as -> ->.
Qed.

(** Two authenticated messages, the first delivered again in between, and one with a wrong MAC. *)
Definition signal_text (n : string) : list Z := map (fun c => if c =? 39 then 34 else c) (lit "{'v':1,'seq':" ++ lit n ++ lit "}").
Definition zero_mac (key message : list Z) : option (list Z) := Some (replicate 32 0).
Definition signal_json (n : Z) (mac : list Z) : cj :=
  CObj [(lit "v", CNum 1); (lit "sid", CStr (lit "s")); (lit "seq", CNum (inject_Z n)); (lit "t", CStr (lit "ice"));
        (lit "payload", CStr (lit "x")); (lit "mac", CStr mac)].
Definition signal_parse (text : list Z) : option cj :=
  if list_eqb text (signal_text "1") then Some (signal_json 1 (ob_hex (replicate 32 0)))
  else if list_eqb text (signal_text "2") then Some (signal_json 2 (ob_hex (replicate 32 0)))
  else if list_eqb text (signal_text "3") then Some (signal_json 3 (ob_hex (replicate 32 1))) else None.
Definition signal_peer : ob_remote_peer := sample_peer <| session_id := Some (lit "s") |>.
Definition signal_run : list delivery :=
  map (fun x => Delivery true (Some (signal_text x.1)) (inject_Z x.2) (lit "ice") true) [("1", 1); ("1", 1); ("2", 2); ("3", 3)]%string.
Lemma signals_in_order_witness : map ac_seq (decode_run signal_parse zero_mac signal_run signal_peer).1 = [1; 2] /\
  Forall (authentic signal_parse zero_mac signal_peer) (decode_run signal_parse zero_mac signal_run signal_peer).1.
Proof.
  split; [vm_compute; reflexivity|].
  exact (proj2 (proj2 (proj2 (signals_in_order signal_parse zero_mac signal_run signal_peer)))).
Defined.

(** ** Relay-only setup *)

Fixpoint lines (fuel : nat) (l : list Z) : list (list Z) :=
  match fuel, l with
  | S fuel, _ :: _ => let r := next_line l in r.1 :: lines fuel r.2
  | _, _ => []
  end.
Definition sdp_lines (l : list Z) : list (list Z) := lines (length l) l.
(** What libjuice makes of a description: every candidate it reads comes from a line whose fields
    spell a relay candidate over UDP, and on a plain line the candidate read is that one; a line
    of the text spells a relay candidate. *)
Definition relay_only (sdp : list Z) : Prop :=
  (forall c, In c (candidates (read_description sdp)) -> exists line priority host port,
     In line (juice_lines sdp) /\ relay_spelled line priority host port /\
     (plain line priority port -> c_type c = RELAYED /\ c_transport c = UDP /\ c_hostname c = host /\ c_service c = port)) /\
  Exists (fun line => exists priority host port, relay_spelled line priority host port) (sdp_lines sdp) /\
  zlen sdp < JUICE_MAX_SDP_STRING_LEN.

(** *** Fields *)

Lemma ice_space_blank c : ice_space c = true <-> sdp_blank c.
Proof. unfold ice_space, sdp_blank. rewrite !orb_true_iff, !Z.eqb_eq. tauto. Qed.
Lemma ice_skip_spec l : exists b, l = b ++ ice_skip l /\ Forall sdp_blank b /\ (forall c r, ice_skip l = c :: r -> ~ sdp_blank c).
Proof.
  induction l as [|c l (b & Hl & Hb & Hn)]; [by exists []|]. cbn. destruct (ice_space c) eqn:E.
  - exists (c :: b). split; [cbn; by rewrite <- Hl|]. split; [constructor; [by apply ice_space_blank|done]|done].
  - exists []. split; [done|]. split; [constructor|]. intros ? ? [= <- _] H%ice_space_blank. congruence.
Qed.
Lemma ice_take_spec l : l = (ice_take l).1 ++ (ice_take l).2 /\ Forall (fun c => ~ sdp_blank c) (ice_take l).1 /\ ends (ice_take l).2.
Proof.
  induction l as [|c l (Hl & Ht & He)]; [split_and!; [done|constructor|intros ? ? [=]]|]. cbn. destruct (ice_space c) eqn:E; cbn.
  - split_and!; [done|constructor|]. intros ? ? [= <- _]. by apply ice_space_blank.
  - split_and!; [by rewrite <- Hl| |done]. constructor; [|done]. intros H%ice_space_blank. congruence.
Qed.
Lemma ice_tokens_fields n l ts : ice_tokens n l = Some ts -> sdp_fields ts l.
Proof.
  revert l ts. induction n as [|n IH]; intros l ts; cbn [ice_tokens]; [intros [= <-]; constructor|].
  destruct (ice_skip_spec l) as (b & Hl & Hb & _). destruct (ice_take_spec (ice_skip l)) as (Hs & Ht & He).
  destruct (ice_take (ice_skip l)) as [t rest]. cbn [fst snd] in *. destruct (Z.eqb_spec (zlen t) 0) as [|Hne]; [done|].
  intros (ts' & Hts & [= <-])%bind_Some. rewrite Hl, Hs. constructor; auto. by intros ->.
Qed.
(** Blanks behind the text change no field. *)
Lemma ice_take_blank w e : Forall sdp_blank e -> ice_take (w ++ e) = ((ice_take w).1, (ice_take w).2 ++ e).
Proof.
  intros He. induction w as [|c w IH].
  - destruct He as [|c e Hc He]; [done|]. cbn. by rewrite (proj2 (ice_space_blank c) Hc).
  - cbn. destruct (ice_space c); [done|]. by rewrite IH.
Qed.
Lemma ice_skip_blank w e : Forall sdp_blank e -> ice_skip (w ++ e) = ice_skip w ++ e \/ ice_skip w = [] /\ ice_skip (w ++ e) = [].
Proof.
  intros He. induction w as [|c w IH].
  - right. split; [done|]. induction He as [|c e Hc _ IH]; [done|]. cbn. by rewrite (proj2 (ice_space_blank c) Hc).
  - cbn. destruct (ice_space c); [done|by left].
Qed.
Lemma ice_tokens_blank n w e : Forall sdp_blank e -> ice_tokens n (w ++ e) = ice_tokens n w.
Proof.
  intros He. revert w. induction n as [|n IH]; intros w; [done|]. cbn [ice_tokens].
  destruct (ice_skip_blank w e He) as [->|[-> ->]]; [|done]. rewrite ice_take_blank by done.
  destruct (ice_take (ice_skip w)) as [t rest]. cbn [fst snd]. destruct (_ =? 0); [done|]. by rewrite IH.
Qed.
Lemma relay_candidate_spelled line : ob_relay_candidate line = true ->
  zlen line < 256 /\ exists priority host port, relay_spelled line priority host port.
Proof.
  unfold ob_relay_candidate, JUICE_MAX_CANDIDATE_SDP_STRING_LEN. destruct (_ || _) eqn:E; [done|].
  apply orb_false_iff in E as [E Hpre]. apply orb_false_iff in E as [_ Hlen%Z.leb_gt]. apply negb_false_iff, list_eqb_eq in Hpre.
  destruct (ice_tokens 8 (zdrop 12 line)) as [[|f [|co [|tr [|pr [|host [|port [|typ [|kind [|]]]]]]]]]|] eqn:Et; try done.
  apply ice_tokens_fields in Et. intros H. bools. split; [done|]. exists pr, host, port. split; [done|].
  exists f, tr, kind. subst co typ. unfold ice_token in *. bools. by split_and!.
Qed.
Lemma relay_candidate_blank w e : Forall sdp_blank e -> 12 <= zlen w -> ob_relay_candidate (w ++ e) = true -> ob_relay_candidate w = true.
Proof.
  intros He Hw. unfold ob_relay_candidate. rewrite ztake_app_le, zdrop_app_le, ice_tokens_blank, zlen_app by done.
  pose proof (zlen_nonneg e). destruct (_ || _) eqn:E; [done|].
  apply orb_false_iff in E as [E ->]. apply orb_false_iff in E as [_ Hlen%Z.leb_gt].
  destruct (Z.ltb_spec (zlen w) 12); [lia|]. destruct (Z.leb_spec JUICE_MAX_CANDIDATE_SDP_STRING_LEN (zlen w)); [lia|]. done.
Qed.
(** A line without a stray carriage return has at most the one before its newline. *)
Lemma cr_last y : stray_cr (y ++ [10]) = false -> ~ In 10 y -> exists z, drop_cr y = z /\ (y = z \/ y = z ++ [13]).
Proof.
  induction y as [|c y IH]; intros H Hn; [exists []; auto|]. cbn in H, Hn. apply orb_false_iff in H as [Hc H].
  destruct IH as (z & Hz & Hy); [done|tauto|].
  change (drop_cr (c :: y)) with (if negb (c =? 13) then c :: drop_cr y else drop_cr y). destruct (Z.eqb_spec c 13) as [->|Hne]; cbn [negb].
  - destruct y as [|d y]; [by exists []; auto|]. cbn in Hc, Hn. destruct (Z.eqb_spec d 10); [tauto|done].
  - exists (c :: z). rewrite Hz. split; [done|]. destruct Hy as [->| ->]; auto.
Qed.

Lemma next_line_app l : (next_line l).1 ++ (next_line l).2 = l.
Proof. induction l as [|c l IH]; [done|]. cbn. destruct (c =? 10); [done|]. cbn. by rewrite IH. Qed.
Lemma next_line_nonempty c l : (next_line (c :: l)).1 <> [].
Proof. cbn. by destruct (c =? 10). Qed.
(** A terminated line is cut off whole, whatever follows. *)
Definition terminated (x : list Z) : Prop := exists y, x = y ++ [10] /\ ~ In 10 y.
Lemma next_line_cases l : terminated (next_line l).1 \/ (next_line l).2 = [] /\ ~ In 10 (next_line l).1.
Proof.
  induction l as [|c l IH]; [right; split; [done|intros []]|]. cbn. destruct (Z.eqb_spec c 10) as [->|Hc]; [left; exists []; split; [done|intros []]|].
  destruct IH as [(y & Hy & Hn)|[H Hn]]; cbn.
  - left. rewrite Hy. exists (c :: y). split; [done|]. cbn. tauto.
  - right. split; [done|]. cbn. tauto.
Qed.
Lemma next_line_terminated x r : terminated x -> next_line (x ++ r) = (x, r).
Proof.
  intros (y & -> & Hn). induction y as [|c y IH]; [done|]. cbn in *. destruct (Z.eqb_spec c 10); [tauto|].
  rewrite IH by tauto. done.
Qed.
Lemma next_line_last x : ~ In 10 x -> next_line x = (x, []).
Proof.
  induction x as [|c x IH]; [done|]. cbn. intros H. destruct (Z.eqb_spec c 10); [tauto|]. by rewrite IH by tauto.
Qed.
Lemma terminated_cons x : terminated x -> exists c r, x = c :: r.
Proof. intros ([|c y] & -> & _); by eexists _, _. Qed.
Lemma lines_concat ls last fuel :
  Forall terminated ls -> ~ In 10 last -> (length (concat ls ++ last) <= fuel)%nat ->
  lines fuel (concat ls ++ last) = ls ++ (match last with [] => [] | _ => [last] end).
Proof.
  intros Hls Hlast. revert fuel. induction Hls as [|x ls Hx Hls IH]; intros fuel Hf.
  - cbn [concat app] in *. destruct last as [|c last]; [by destruct fuel|]. destruct fuel as [|fuel]; [cbn in Hf; lia|].
    cbn [lines]. rewrite (next_line_last (c :: last)) by done. cbn [fst snd]. by destruct fuel.
  - cbn [concat]. rewrite <- app_assoc. cbn [concat] in Hf. rewrite <- app_assoc, length_app in Hf.
    destruct (terminated_cons x Hx) as (c & r & Hc). destruct fuel as [|fuel]; [rewrite Hc in Hf; cbn in Hf; lia|].
    assert (lines (S fuel) (x ++ concat ls ++ last) = (next_line (x ++ concat ls ++ last)).1 :: lines fuel (next_line (x ++ concat ls ++ last)).2) as ->
      by (rewrite Hc; done).
    rewrite next_line_terminated by done. cbn [fst snd app]. f_equal. apply IH. rewrite Hc in Hf. cbn in Hf. lia.
Qed.

Definition kept (line : list Z) : bool := negb (is_candidate line) || ob_relay_candidate line.
Definition tail_line (last : list Z) : list (list Z) := match last with [] => [] | _ => [last] end.
Lemma tail_line_one x : x <> [] -> tail_line x = [x].
Proof. by destruct x. Qed.
(** The output so far: kept lines, all terminated unless the input is used up. *)
Definition filtered (l out : list Z) (relays : Z) : Prop := exists ls last,
  out = concat ls ++ last /\ Forall terminated ls /\ ~ In 10 last /\ (last = [] \/ l = []) /\
  Forall (fun x => kept x = true /\ stray_cr x = false) (ls ++ tail_line last) /\
  (relays <> 0 -> Exists (fun line => is_candidate line = true /\ ob_relay_candidate line = true) (ls ++ tail_line last)).
(** A line libjuice parses as a candidate is a kept line of the text without its line end. *)
Lemma juice_line_kept y : stray_cr (y ++ [10]) = false -> ~ In 10 y -> kept (y ++ [10]) = true ->
  ztake 12 (ztake 1023 (drop_cr y)) = candidate_text ->
  zlen (ztake 1023 (drop_cr y)) <= 256 /\ exists priority host port, relay_spelled (ztake 1023 (drop_cr y)) priority host port.
Proof.
  intros Hcr Hn Hk. destruct (cr_last y Hcr Hn) as (z & -> & Hy). rewrite ztake_ztake, Z.min_l by lia. intros Hpre.
  assert (12 <= zlen z) as Hz.
  { apply (f_equal zlen) in Hpre. rewrite zlen_take in Hpre. change (zlen candidate_text) with 12 in Hpre. lia. }
  assert (exists e, y ++ [10] = z ++ e /\ Forall sdp_blank e) as (e & Hye & He).
  { destruct Hy as [->| ->]; [exists [10]|exists [13; 10]; rewrite <- app_assoc]; (split; [done|]); repeat constructor; unfold sdp_blank; tauto. }
  rewrite Hye in Hk. assert (ob_relay_candidate z = true) as Hrel.
  { apply (relay_candidate_blank z e He Hz). unfold kept, is_candidate in Hk.
    rewrite ztake_app_le, Hpre in Hk by done. change (list_eqb candidate_text candidate_prefix) with true in Hk.
    rewrite (proj2 (Z.leb_le 12 _)) in Hk by (rewrite zlen_app; pose proof (zlen_nonneg e); lia). done. }
  destruct (relay_candidate_spelled z Hrel) as [Hl Hs]. rewrite ztake_ge by lia. split; [lia|done].
Qed.
Lemma filtered_relay_only out relays :
  filtered [] out relays -> relays <> 0 -> zlen out < JUICE_MAX_SDP_STRING_LEN -> relay_only out.
Proof.
  intros (ls & last & -> & Ht & Hn & _ & Hk & Hex) Hr Hz. unfold relay_only, sdp_lines. rewrite lines_concat by (done || lia).
  split; [|split; [|done]].
  - intros c (line & c' & Hin & Hc' & f & ->)%candidates_read. destruct (juice_line_of _ _ _ Ht Hn Hin) as (y & Hy & Hny & ->).
    apply Forall_app in Hk as [Hk _]. rewrite Forall_forall in Hk. destruct (Hk _ Hy) as [Hkept Hcr].
    pose proof Hc' as Hpre. unfold ice_parse_candidate_sdp in Hpre. destruct (list_eqb _ candidate_text) eqn:E; [|done]. apply list_eqb_eq in E.
    destruct (juice_line_kept y Hcr Hny Hkept E) as (Hlen & pr & host & port & Hs). exists (ztake 1023 (drop_cr y)), pr, host, port.
    split; [done|]. split; [done|]. intros Hp. by apply (relay_parsed _ _ _ _ _ Hs Hp Hlen) in Hc'.
  - eapply Exists_impl; [|by apply Hex]. intros x [_ Hx]. by apply relay_candidate_spelled in Hx as [_ ?].
Qed.
Lemma filtered_step c l out relays (more : bool) :
  filtered (c :: l) out relays -> kept (next_line (c :: l)).1 = true -> stray_cr (next_line (c :: l)).1 = false ->
  more = is_candidate (next_line (c :: l)).1 && ob_relay_candidate (next_line (c :: l)).1 ->
  filtered (next_line (c :: l)).2 (out ++ (next_line (c :: l)).1) (if more then relays + 1 else relays).
Proof.
  intros (ls & last & -> & Ht & Hn & Hl & Hk & Hex) Hkept Hcr Hmore. destruct Hl as [->|]; [|done].
  rewrite app_nil_r in *. set (line := (next_line (c :: l)).1) in *.
  assert (tail_line line = [line]) as Hline by (apply tail_line_one, next_line_nonempty).
  cbn [tail_line] in *. rewrite ?app_nil_r in *.
  assert (Forall (fun x => kept x = true /\ stray_cr x = false) (ls ++ [line])) as Hk' by (apply Forall_app; split; [done|by constructor]).
  assert ((if more then relays + 1 else relays) <> 0 ->
    Exists (fun x => is_candidate x = true /\ ob_relay_candidate x = true) (ls ++ [line])) as Hex'.
  { intros Hr. apply Exists_app. destruct more; [right; constructor; symmetry in Hmore; by bools|left; auto]. }
  destruct (next_line_cases (c :: l)) as [Hterm|[Hrest Hno]].
  - exists (ls ++ [line]), []. rewrite concat_app. cbn [concat tail_line]. rewrite !app_nil_r.
    split; [done|]. split; [apply Forall_app; split; [done|by constructor]|]. split; [intros []|]. split; [by left|]. done.
  - exists ls, line. rewrite Hline. split; [done|]. split; [done|]. split; [done|]. split; [by right|]. done.
Qed.
Lemma filtered_skip c l out relays : filtered (c :: l) out relays -> filtered (next_line (c :: l)).2 out relays.
Proof.
  intros (ls & last & -> & Ht & Hn & Hl & Hk & Hex). destruct Hl as [->|]; [|done]. exists ls, []. split; [done|]. split; [done|]. split; [done|]. split; [by left|]. done.
Qed.
Lemma filter_loop_spec fuel l out relays r :
  (length l <= fuel)%nat -> filtered l out relays -> 0 <= relays -> zlen out < JUICE_MAX_SDP_STRING_LEN ->
  filter_loop fuel l out relays = Some r -> relay_only r.
Proof.
  revert l out relays. induction fuel as [|fuel IH]; intros l out relays Hl Hf Hr Hz.
  - destruct l; [|cbn in Hl; lia]. cbn. destruct (truth relays) eqn:E; [|done]. intros [= <-].
    apply (filtered_relay_only out relays); [done| |done]. unfold truth in E. by bools.
  - destruct l as [|c l].
    + cbn. destruct (truth relays) eqn:E; [|done]. intros [= <-].
      apply (filtered_relay_only out relays); [done| |done]. unfold truth in E. by bools.
    + cbn [filter_loop]. pose proof (next_line_app (c :: l)) as Happ. pose proof (next_line_nonempty c l) as Hne.
      pose proof (filtered_step c l out relays) as Hstep. pose proof (filtered_skip c l out relays Hf) as Hskip.
      destruct (next_line (c :: l)) as [line rest]. cbn [fst snd] in *.
      assert (length rest <= fuel)%nat as Hrest.
      { apply (f_equal (@length Z)) in Happ. rewrite length_app in Happ. cbn in Happ, Hl. destruct line; [done|]. cbn in Happ. lia. }
      destruct (stray_cr line) eqn:Ecr; [done|]. cbv zeta.
      assert (negb (is_candidate line) || is_candidate line && ob_relay_candidate line = kept line) as ->
        by (unfold kept; by destruct (is_candidate line)).
      destruct (kept line) eqn:Ek; [|by apply IH].
      destruct (Z.leb_spec JUICE_MAX_SDP_STRING_LEN (zlen out + zlen line)); [done|]. apply IH; [done| | |].
      * by apply Hstep.
      * destruct (_ && _); lia.
      * rewrite zlen_app. lia.
Qed.
Lemma filter_relay_only source r : ob_filter_relay_description source = Some r -> relay_only r.
Proof.
  apply filter_loop_spec; [done| |done|done]. exists [], []. split; [done|]. split; [constructor|]. split; [intros []|]. split; [by left|]. split; [constructor|done].
Qed.

Lemma send_signal_relay hmac ok rpc type payload auth p : relay (send_signal hmac ok rpc type payload auth p).1.2 = relay p.
Proof.
  unfold send_signal. destruct (signal_envelope hmac p type payload auth); [done|]. destruct (negb ok); [done|].
  destruct (rpc _) as [rc e]. destruct (rc =? 0); [done|]. cbn [fst snd]. by destruct (truth (result p)).
Qed.
Lemma receive_signal_relay parse hmac rounds type auth p rc out q :
  receive_signal parse hmac rounds type auth p = Some (rc, out, q) -> relay q = relay p.
Proof.
  induction rounds as [|r rounds IH]; cbn [receive_signal]; [done|]. destruct r as [| | |sq data ok ack]; try (by intros [= _ _ <-]); [done|].
  destruct (Qle_bool _ _); [done|].
  destruct (ob_decode_signal parse hmac ok data sq type auth p) as [[rc' out'] q'] eqn:E.
  assert (relay q' = relay p) as Hq.
  { revert E. unfold ob_decode_signal. destruct (_ <=? _); [by intros [= _ _ <-]|]. cbv zeta.
    destruct data as [d|]; [|by intros [= _ _ <-]]. destruct (if zlen d <=? 16384 then _ else _); [|by intros [= _ _ <-]].
    destruct (negb _); [by intros [= _ _ <-]|]. destruct (_ && _); [by intros [= _ _ <-]|]. destruct (negb ok); by intros [= _ _ <-]. }
  destruct (_ && _); by intros [= _ _ <-].
Qed.
Lemma ice_answer_relay sha256 hmac p remote rc q install :
  relay p = OB_REMOTE_RELAY_FORCE -> ice_answer sha256 hmac p remote = (rc, q, install) ->
  match install with Some sdp => relay_only sdp | None => rc <> 0 end.
Proof.
  intros Hr. unfold ice_answer. cbv zeta.
  set (rc0 := match (match remote with Some j => get_item j (lit "mapping_version") | None => None end) with None => 0 | Some v => _ end).
  set (q0 := if (rc0 =? 0) && _ && _ then _ else _).
  assert (relay q0 = OB_REMOTE_RELAY_FORCE) as Hq0.
  { subst q0. destruct (_ && _); [|done]. destruct (ob_resume_proof _ _ _ _); [|done]. destruct (ob_unhex _ _); [|done].
    by destruct (list_eqb _ _). }
  clearbody q0. destruct (match remote with Some j => str j (lit "sdp") | None => None end) as [sdp|]; [|by intros [= <- _ <-]].
  destruct (_ <=? _); [by intros [= <- _ <-]|]. destruct (truth rc0) eqn:E; [intros [= <- _ <-]; unfold truth in E; by bools|].
  destruct (if is_server q0 then Some q0 else _) as [q1|] eqn:Ep; [|by intros [= <- _ <-]].
  assert (relay q1 = OB_REMOTE_RELAY_FORCE) as Hq1.
  { destruct (is_server q0); [congruence|]. destruct (ob_unhex _ 32); [|done]. injection Ep as <-. done. }
  rewrite Hq1. cbn [Z.eqb]. change (OB_REMOTE_RELAY_FORCE =? OB_REMOTE_RELAY_FORCE) with true. cbv iota.
  destruct (ob_filter_relay_description sdp) eqn:Ef; [|by intros [= <- _ <-]]. intros [= <- _ <-]. by eapply filter_relay_only.
Qed.

(** Only relay candidates leave or enter, and success needs a TURN server and the peer's
    description. *)
Definition force_ok (rc : Z) (trace : ice_trace) : Prop :=
  (forall sdp, tr_sent trace = Some sdp \/ tr_installed trace = Some sdp -> relay_only sdp) /\
  (rc = 0 -> tr_relay_only trace = true /\ is_Some (tr_turn trace) /\ is_Some (tr_installed trace)).
Lemma force_failed rc b turn sent : rc <> 0 -> (forall s, sent = Some s -> relay_only s) -> force_ok rc (IceTrace b turn sent None).
Proof. intros Hr Hs. split; [intros s [H|H]; [by apply Hs|done]|done]. Qed.
Lemma force_installed rc turn sent sdp :
  is_Some turn -> (forall s, sent = Some s -> relay_only s) -> relay_only sdp -> force_ok rc (IceTrace true turn sent (Some sdp)).
Proof. intros Ht Hs Hi. split; [intros s [H|H]; [by apply Hs|cbn in H; congruence]|done]. Qed.
Lemma truth_nonzero z : truth z = true -> z <> 0.
Proof. unfold truth. intros H. by bools. Qed.
Lemma force_eqb p : relay p = OB_REMOTE_RELAY_FORCE ->
  (relay p =? OB_REMOTE_RELAY_FORCE) = true /\ (relay p =? OB_REMOTE_RELAY_NEVER) = false.
Proof. by intros ->. Qed.
Lemma ice_approve_relay env p : relay (ice_approve env p).2 = relay p.
Proof.
  unfold ice_approve. destruct (negb _); [done|]. destruct (i_approve env _) as [r1 e1]. destruct (truth _); [done|].
  by destruct (i_certificate env).
Qed.
Lemma ice_turn_force env p :
  relay p = OB_REMOTE_RELAY_FORCE -> match ice_turn env p with inl rc => rc <> 0 | inr turn => is_Some turn end.
Proof.
  intros Hr. destruct (force_eqb p Hr) as [Hf Hn]. unfold ice_turn. rewrite Hn, Hf. destruct (i_turn env) as [[r e] resp].
  destruct (if r =? 0 then _ else _); [done|]. destruct (truth r) eqn:E; [|done]. destruct (_ =? 0); [by apply truth_nonzero|done].
Qed.
Lemma local_description_force env p sdp :
  relay p = OB_REMOTE_RELAY_FORCE -> local_description env p = Some sdp -> relay_only sdp.
Proof.
  intros Hr. destruct (force_eqb p Hr) as [Hf _]. unfold local_description. rewrite Hf.
  destruct (i_local env); [|done]. apply filter_relay_only.
Qed.


(** A broker that gathered a host and a relay candidate offers only the latter. *)
Definition relay_line : list Z := lit "a=candidate:1 1 UDP 9 198.51.100.7 4000 typ relay" ++ [13; 10].
Definition host_line : list Z := lit "a=candidate:2 1 UDP 9 10.0.0.1 4000 typ host" ++ [13; 10].
Definition offer_env : ice_env :=
  IceEnv (fun _ => (0, no_error)) (Some (replicate 32 7)) 0
    (0, no_error, Some (CObj [(lit "urls", CStr (lit "turn:relay.example:3478?transport=udp")); (lit "username", CStr (lit "u"));
                              (lit "password", CStr (lit "p"))]))
    true 0 true (Some (lit "a=ice-lite" ++ [10] ++ host_line ++ relay_line)) (fun _ => (0, no_error)) [Nothing; NotAlive]
    (fun _ => true) 0 true.
Definition force_peer : ob_remote_peer := sample_peer <| relay := OB_REMOTE_RELAY_FORCE |> <| is_server := true |>.
Definition toy_hmac (key message : list Z) : option (list Z) := Some (replicate 32 0).

(** The side condition is needed: these lines pass the filter as relay candidates, and libjuice
    reads a host candidate from each.  [sscanf] ends a priority at its last digit and a port at 32
    characters, matches [typ] without a blank behind it, and takes a vertical tab for a blank. *)
Definition evading_priority : list Z := lit "a=candidate:1 1 udp 5fe80::1 9 typhost typ relay" ++ [10].
Definition evading_port : list Z := lit "a=candidate:1 1 udp 5 10.0.0.1 00000000000000000000000000009999typhost typ relay" ++ [10].
Definition evading_tab : list Z :=
  map (fun c => if c =? 95 then 11 else c) (lit "a=candidate:f_1_UDP_5_10.0.0.1_9_typ_host 1 udp 5 10.0.0.1 9 typ relay") ++ [10].
Lemma relay_filter_evaded : Forall (fun line => ob_filter_relay_description line = Some line /\
    map c_type (candidates (read_description line)) = [HOST]) [evading_priority; evading_port; evading_tab].
Proof. repeat constructor; vm_compute; reflexivity. Qed.

(** ** The lease *)

Record lease_event := LeaseEvent { l_realtime : Z; l_now : Z; l_expires : option (list Z); l_broker : option (list Z) }.
Definition lease_run (evs : list lease_event) (p : ob_remote_peer) : list Z * ob_remote_peer :=
  fold_left (fun s ev => let r := set_lease (l_realtime ev) (l_now ev) (l_expires ev) (l_broker ev) s.2 in (s.1 ++ [r.1], r.2)) evs ([], p).
(** What a lease amounts to at an event. *)
Definition granted_until (ev : lease_event) : Z :=
  l_now ev + Z.min (Z.min (expiry (l_expires ev)) (expiry (l_broker ev)) - l_realtime ev) MAX_LEASE.
Definition event_ok (ev : lease_event) : Prop := 0 <= l_now ev /\ l_now ev + MAX_LEASE <= UINT64_MAX.

Lemma set_lease_spec realtime now e b p :
  0 <= now -> now + MAX_LEASE <= UINT64_MAX ->
  let r := set_lease realtime now e b p in
  r.1 = -1 /\ r.2 = p \/
  r.1 = 0 /\ realtime < Z.min (expiry e) (expiry b) /\ (lease_deadline_set p = true -> now < lease_deadline_us p) /\
  lease_deadline_set r.2 = true /\ lease_deadline_us r.2 = granted_until (LeaseEvent realtime now e b).
Proof.
  intros Hn Hm. unfold set_lease. cbv zeta. destruct (_ || _) eqn:E; [by left|]. bools.
  destruct (lease_deadline_set p && _) eqn:E2; [by left|]. right. split; [done|]. split; [lia|]. split.
  { intros Hs. rewrite Hs in E2. cbn [andb] in E2. bools. lia. }
  split; [done|]. unfold granted_until. cbn [l_now l_expires l_broker l_realtime].
  change (u64 (now + Z.min (Z.min (expiry e) (expiry b) - realtime) MAX_LEASE) = now + Z.min (Z.min (expiry e) (expiry b) - realtime) MAX_LEASE).
  apply u64_small. unfold MAX_LEASE in *. lia.
Qed.
Lemma lease_run_snoc evs ev p :
  lease_run (evs ++ [ev]) p =
    let s := lease_run evs p in let r := set_lease (l_realtime ev) (l_now ev) (l_expires ev) (l_broker ev) s.2 in (s.1 ++ [r.1], r.2).
Proof. unfold lease_run. by rewrite fold_left_app. Qed.
Lemma lease_source evs p :
  Forall event_ok evs -> lease_deadline_set p = false -> let q := (lease_run evs p).2 in
  lease_deadline_set q = true -> exists ev, In ev evs /\ lease_deadline_us q = granted_until ev /\
    l_realtime ev < Z.min (expiry (l_expires ev)) (expiry (l_broker ev)).
Proof.
  intros He Hp. induction evs as [|ev evs IH] using rev_ind; [cbn; congruence|]. rewrite lease_run_snoc. cbv zeta. cbn [snd].
  apply Forall_app in He as [He Hev]. inversion Hev as [|? ? [Hn Hm] _]; subst.
  destruct (set_lease_spec (l_realtime ev) (l_now ev) (l_expires ev) (l_broker ev) (lease_run evs p).2 Hn Hm) as [[_ ->]|(_ & Hlt & _ & _ & ->)].
  - intros Hs. destruct (IH He Hs) as (x & Hx & ?). exists x. split; [apply in_or_app; by left|done].
  - intros _. exists ev. split; [apply in_or_app; right; by left|]. split; [by destruct ev|done].
Qed.
Lemma lease_expired evs p :
  Forall event_ok evs -> lease_deadline_set p = true -> Forall (fun ev => lease_deadline_us p <= l_now ev) evs ->
  (lease_run evs p).2 = p /\ Forall (eq (-1)) (lease_run evs p).1.
Proof.
  intros He Hp Hl. induction evs as [|ev evs IH] using rev_ind; [by split; [|constructor]|]. rewrite lease_run_snoc. cbv zeta. cbn [fst snd].
  apply Forall_app in He as [He Hev]. apply Forall_app in Hl as [Hl Hlev]. inversion Hev as [|? ? [Hn Hm] _]; subst.
  inversion Hlev as [|? ? Hnow _]; subst. destruct (IH He Hl) as [-> H2].
  destruct (set_lease_spec (l_realtime ev) (l_now ev) (l_expires ev) (l_broker ev) p Hn Hm) as [[H ->]|(_ & _ & H & _)].
  - split; [done|]. apply Forall_app. split; [done|]. by repeat constructor.
  - specialize (H Hp). lia.
Qed.

(** C38: the lease of an attempt ends no later than the earlier of the two expiries some reply of
    the control server stated, and at most two minutes after that reply; once it has expired, no
    later reply revives it, however far in the future its expiry: every reply is refused, the
    handle is unchanged and the worker finds itself no longer alive. *)
Theorem lease_final evs evs' p :
  Forall event_ok (evs ++ evs') -> lease_deadline_set p = false ->
  let q := (lease_run evs p).2 in
  lease_deadline_set q = true ->
  (exists ev, In ev evs /\ lease_deadline_us q = granted_until ev /\
     l_realtime ev < Z.min (expiry (l_expires ev)) (expiry (l_broker ev))) /\
  (Forall (fun ev => lease_deadline_us q <= l_now ev) evs' ->
   (lease_run evs' q).2 = q /\ Forall (eq (-1)) (lease_run evs' q).1 /\
   forall t1 t2 f1 f2, lease_deadline_us q <= t1 -> (alive t1 t2 f1 f2 q).1 = false).
Proof.
  intros [He He']%Forall_app Hp q Hq. split; [by apply lease_source|]. intros Hl.
  destruct (lease_expired evs' q He' Hq Hl) as [H1 H2]. split; [done|]. split; [done|].
  intros t1 t2 f1 f2 Ht. unfold alive. destruct (_ || _); [done|]. rewrite Hq, (proj2 (Z.leb_le _ _) Ht). done.
Qed.
Definition until (s : string) : option (list Z) := Some (lit s).
Lemma lease_final_witness :
  let ev now := LeaseEvent 1767225600000000 now (until "2026-01-01T00:05:00Z") (until "2026-01-01T00:01:00Z") in
  let q := (lease_run [ev 1000] sample_peer).2 in
  lease_deadline_us q = 1000 + 60000000 /\ (lease_run [ev 70000000] q).2 = q.
Proof.
  intros ev q. split; [vm_compute; reflexivity|].
  refine (proj1 (proj2 (lease_final [ev 1000] [ev 70000000] sample_peer _ _ _) _)).
  - repeat constructor; cbn; unfold MAX_LEASE, UINT64_MAX; lia.
  - reflexivity.
  - vm_compute. reflexivity.
  - constructor; [|constructor]. apply Z.leb_le. vm_compute. reflexivity.
Defined.
