(* ===== verification/ControlLoop.v ===== *)
(** * The control connection of a peer

    The rest of src/sdk/c/remote/peer/ws_control.inc and of the setup worker in control.c: one
    tick of the control connection (connect, read, authorisation, heartbeat), a request over
    it, and the loops that wait.  The state is the websocket of Ws.v and the handle of
    Peer.v; clocks, curl's answers and libjuice are arguments. *)

From Stdlib Require Import QArith Qround.
From S2P Require Import Prelude.
From S2P Require Import Json Peer PeerCrypto Api Coordinator Target Ws Control.
#[local] Open Scope Z_scope.
#[local] Arguments lit : simpl never.

(** ** One tick *)

(** [jitter]: [random] is the random word. *)
Definition jitter (random n : Z) : Z := n + random mod (n / 4 + 1).
(** What a connection attempt meets. *)
Record connect_answer := ConnectAnswer {
  ca_cancelled : bool; ca_setup : bool; ca_lines : list (list Z); ca_rc : Z; ca_status : Z; ca_socket : bool }.
Definition status_of (j : cj) : Z := match get_item j (lit "status") with Some (CNum q) => Qfloor q | _ => 0 end.
(** The clocks of [alive], of an error of the connection (with the random word), and of one
    capabilities message (with whether the copy of the endpoint is allocated). *)
Record alive_env := AliveEnv { v_t1 : Z; v_t2 : Z; v_f1 : Z; v_f2 : Z }.
Record error_env := ErrorEnv { x_now : Z; x_random : Z; x_f1 : Z; x_f2 : Z }.
Record caps_env := CapsEnv { c_realtime : Z; c_now : Z; c_f1 : Z; c_f2 : Z; c_ice : bool; c_alloc : bool }.
(** What one tick reads, in order. *)
Record tick_env := TickEnv {
  k_alive : alive_env; k_now : Z; k_connect : connect_answer; k_error : error_env; k_pump : bool * recv * bool;
  k_revoked : Z * Z; k_caps : nat -> caps_env; k_body : caps_env; k_reply : Z * Z; k_due : Z; k_waited : Z;
  k_begin_now : Z; k_begin : option Z * list send_round; k_sent : Z; k_begin_error : error_env }.

Definition is_alive (v : alive_env) (p : ob_remote_peer) : bool * ob_remote_peer := alive (v_t1 v) (v_t2 v) (v_f1 v) (v_f2 v) p.
Definition transport_error (v : error_env) (e : ob_api_error) (p : ob_remote_peer) : Z * ob_remote_peer :=
  peer_transport_error (x_now v) (x_random v) (x_f1 v) (x_f2 v) e p.
Definition apply_caps (v : caps_env) (body : option cj) (p : ob_remote_peer) : Z * ob_remote_peer :=
  apply_capabilities (c_realtime v) (c_now v) (c_f1 v) (c_f2 v) (c_ice v) (c_alloc v) body p.

(** A step that may end the tick: [inl] with the result. *)
Definition control : Type := ob_ws * ob_remote_peer.
Definition tick_step : Type := (Z * control) + control.

Section tick.
Context (parse : list Z -> option cj) (api_timeout_ms : Z).

(** Connect when it is time to. *)
Definition tick_connect (v : tick_env) (x : control) : tick_step :=
  let (w, p) := x in
  if connected w then inr x
  else if k_now v <? reconnect_us p then inl (0, x)
  else
    let a := k_connect v in
    match ob_ws_connect (rx_sequence p) (ca_cancelled a) (ca_setup a) (ca_lines a) (ca_rc a) (ca_status a) (ca_socket a) w with
    | (Some e, w) => let (rc, p) := transport_error (k_error v) e p in inl (rc, (w, p))
    | (None, w) => inr (w, p <| heartbeat_id := 0 |> <| heartbeat_due_us := 0 |> <| reconnect_backoff := 100 |> <| reconnect_us := 0 |>)
    end.
Definition tick_pump (v : tick_env) (x : control) : tick_step :=
  let (w, p) := x in
  let '(cancelled, r, alloc_ok) := k_pump v in
  match ob_ws_pump parse cancelled r alloc_ok w with
  | (Some e, w) => let (rc, p) := transport_error (k_error v) e p in inl (rc, (w, p))
  | (None, w) => inr (w, p)
  end.
(** A revocation ends the tick: an unavailable service only drops the connection. *)
Definition tick_revoked (v : tick_env) (x : control) : tick_step :=
  let (w, p) := x in
  match ob_ws_pop (lit "revoked") w with
  | (None, w) => inr (w, p)
  | (Some j, w) =>
    let status := status_of j in
    if 500 <=? status then
      let (rc, p) := transport_error (k_error v) (api_fail OB_API_TRANSPORT status []) p in inl (rc, (ob_ws_disconnect w, p))
    else let (rc, p) := peer_authorization_error (k_revoked v).1 (k_revoked v).2 (get_item j (lit "body")) p in inl (rc, (w, p))
  end.
(** Pushed capabilities, until one is refused; [fuel] is the length of the queue. *)
Fixpoint tick_capabilities (fuel i : nat) (v : tick_env) (x : control) : tick_step :=
  match fuel with
  | O => inr x
  | S fuel =>
    match ob_ws_pop (lit "capabilities") x.1 with
    | (None, w) => inr (w, x.2)
    | (Some j, w) =>
      let (rc, p) := apply_caps (k_caps v i) (get_item j (lit "body")) x.2 in
      if truth rc then inl (rc, (w, p)) else tick_capabilities fuel (S i) v (w, p)
    end
  end.
(** The reply to a heartbeat, or its loss. *)
Definition tick_reply (v : tick_env) (x : control) : tick_step :=
  let (w, p) := x in
  if negb (truth (heartbeat_id p)) then inr x
  else match ob_ws_result (heartbeat_id p) w with
  | (Some j, w) =>
    let p := p <| heartbeat_id := 0 |> in
    let status := status_of j in
    let body := get_item j (lit "body") in
    let (rc, p) := if (200 <=? status) && (status <? 300) then apply_caps (k_body v) body p
                   else if fatal_status status || (control_managed p && (status =? 409))
                   then peer_authorization_error (k_reply v).1 (k_reply v).2 body p
                   else (0, p) in
    if truth rc then inl (rc, (w, p))
    else
      let lease := lease_deadline_us p in
      inr (w, p <| heartbeat_due_us := u64 (k_due v + heartbeat_interval (if k_due v <? lease then lease - k_due v else 0)) |>)
  | (None, w) =>
    if api_timeout_ms * 1000 <=? u64 (k_waited v - heartbeat_sent_us p)
    then inl (0, (ob_ws_disconnect w, p <| heartbeat_id := 0 |>)) else inr (w, p)
  end.
(** The next heartbeat; [None] when the rounds of its sending are used up. *)
Definition tick_heartbeat (v : tick_env) (x : control) : option (Z * control) :=
  let (w, p) := x in
  if negb (truth (heartbeat_id p)) && (heartbeat_due_us p <=? k_begin_now v) && connected w then
    match ob_ws_begin parse (lit "heartbeat") (k_begin v).1 (k_begin v).2 w with
    | None => None
    | Some (Some e, id, w) =>
      let (rc, p) := transport_error (k_begin_error v) e (p <| heartbeat_id := id |> <| heartbeat_sent_us := k_sent v |>) in Some (rc, (w, p))
    | Some (None, id, w) => Some (0, (w, p <| heartbeat_id := id |> <| heartbeat_sent_us := k_sent v |>))
    end
  else Some (0, x).
Definition peer_tick (v : tick_env) (x : control) : option (Z * control) :=
  let (ok, p) := is_alive (k_alive v) x.2 in
  if negb ok then Some (OB_REMOTE_ECLOSED, (x.1, p))
  else match tick_connect v (x.1, p) with
  | inl r => Some r
  | inr x =>
    match tick_pump v x with
    | inl r => Some r
    | inr x =>
      match tick_revoked v x with
      | inl r => Some r
      | inr x =>
        match tick_capabilities (length (queue x.1)) 0 v x with
        | inl r => Some r
        | inr x => match tick_reply v x with inl r => Some r | inr x => tick_heartbeat v x end
        end
      end
    end
  end.

(** ** Requests *)

(** One round of [peer_rpc]: [g_time] says that its time is not over. *)
Record rpc_round := RpcRound {
  g_alive : alive_env; g_time : bool; g_tick : tick_env; g_begin : option Z * list send_round; g_error : error_env }.
Definition lost_turn : ob_remote_error := ob_error OB_REMOTE_EHTTP 0 (Some (lit "TURN outcome lost; setup must restart")).
Definition repeatable (op : list Z) : bool := negb (list_eqb op (lit "turn")).
(** The end of the loop without an answer. *)
Definition rpc_over (x : control) : ob_remote_error * control :=
  (ob_error (if stop x.2 then OB_REMOTE_ECLOSED else OB_REMOTE_ETIMEOUT) 0 (Some (lit "Control WebSocket RPC timed out")),
   (ob_ws_disconnect x.1, x.2 <| heartbeat_id := 0 |>)).
(** The error or the body of the reply with the state, [None] when the rounds are used up; and
    the identifiers under which the request was begun, the last one first. *)
Definition rpc_result : Type := option ((ob_remote_error + option cj) * control) * list Z.
Definition rpc_reply (id : Z) (x : control) : option (ob_remote_error + option cj) * control :=
  match ob_ws_result id x.1 with
  | (Some j, w) =>
    (Some (if (status_of j <? 200) || (300 <=? status_of j)
           then inl (ob_error OB_REMOTE_EHTTP (status_of j) (Some (lit "Control WebSocket RPC failed")))
           else inr (get_item j (lit "body"))), (w, x.2))
  | (None, w) => (None, (w, x.2))
  end.
Fixpoint rpc_loop (rounds : list rpc_round) (op : list Z) (id : Z) (attempted : bool) (x : control) (begun : list Z) : rpc_result :=
  match rounds with
  | [] => (None, begun)
  | r :: rounds =>
    let (ok, p) := is_alive (g_alive r) x.2 in
    let x := (x.1, p) in
    if negb (ok && g_time r) then let (e, x) := rpc_over x in (Some (inl e, x), begun)
    else if truth id && negb (connected x.1) && negb (repeatable op) then (Some (inl lost_turn, x), begun)
    else
      let id := if truth id && negb (connected x.1) then 0 else id in
      match peer_tick (g_tick r) x with
      | None => (None, begun)
      | Some (rc, x) =>
        if truth rc then (Some (inl (ob_error rc 0 None), x), begun)
        else if negb (connected x.1) then
          if attempted && negb (repeatable op) then (Some (inl lost_turn, x), begun) else rpc_loop rounds op 0 attempted x begun
        else
          let answer (id : Z) (attempted : bool) (x : control) (begun : list Z) : rpc_result :=
            match rpc_reply id x with
            | (Some a, x) => (Some (a, x), begun)
            | (None, x) => rpc_loop rounds op id attempted x begun
            end in
          if truth id then answer id attempted x begun
          else match ob_ws_begin parse op (g_begin r).1 (g_begin r).2 x.1 with
          | None => (None, (next_id x.1 + 1) :: begun)
          | Some (Some e, id, w) =>
            let (fatal, p) := transport_error (g_error r) e x.2 in
            if truth fatal then (Some (inl (ob_error fatal (http_status e) (Some (ae_message e))), (w, p)), id :: begun)
            else if negb (repeatable op) then (Some (inl lost_turn, (w, p)), id :: begun)
            else rpc_loop rounds op 0 true (w, p) (id :: begun)
          | Some (None, id, w) => answer id true (w, x.2) (id :: begun)
          end
      end
  end.
Definition peer_rpc (rounds : list rpc_round) (op : list Z) (x : control) : rpc_result := rpc_loop rounds op 0 false x [].

(** [capabilities]: ticks until there is a lease and, when asked for, the approval. *)
Fixpoint capabilities (rounds : list (alive_env * tick_env)) (wait_approved : bool) (x : control) : option (Z * control) :=
  match rounds with
  | [] => None
  | (a, t) :: rounds =>
    let (ok, p) := is_alive a x.2 in
    if negb ok then Some (OB_REMOTE_ECLOSED, (x.1, p))
    else match peer_tick t (x.1, p) with
    | None => None
    | Some (rc, x) =>
      if truth rc then Some (rc, x)
      else if lease_deadline_set x.2 && (negb wait_approved || approved x.2) then Some (0, x)
      else capabilities rounds wait_approved x
    end
  end.

(** ** After setup *)

(** The messages queued after setup: the first one that is not a replay fails the handle. *)
Fixpoint late_messages (fuel : nat) (x : control) : control :=
  match fuel with
  | O => x
  | S fuel =>
    match ob_ws_pop (lit "message") x.1 with
    | (None, w) => (w, x.2)
    | (Some j, w) =>
      let sequence := match get_item j (lit "sequence") with Some (CNum q) => q | _ => 0%Q end in
      let p := late_message sequence x.2 in
      if Qle_bool sequence (inject_Z (rx_sequence x.2)) then late_messages fuel (w, p) else (w, p)
    end
  end.
(** The loop of [ob_setup_worker] once setup has ended: what other threads did to the handle,
    then the clocks of [alive], then the tick. *)
Record keep_round := KeepRound { z_moves : ob_remote_peer -> ob_remote_peer; z_alive : alive_env; z_tick : tick_env }.
Fixpoint maintain (rounds : list keep_round) (x : control) : option control :=
  match rounds with
  | [] => None
  | r :: rounds =>
    let (ok, p) := is_alive (z_alive r) (z_moves r x.2) in
    if negb ok then Some (x.1, p)
    else match peer_tick (z_tick r) (x.1, p) with
    | None => None
    | Some (rc, x) => if truth rc then Some x else maintain rounds (late_messages (length (queue x.1)) x)
    end
  end.

(** [close_rpc]: one request, and a bounded wait for its success. *)
Fixpoint close_wait (rounds : list (bool * (bool * recv * bool))) (id : Z) (w : ob_ws) : option (bool * ob_ws) :=
  match rounds with
  | [] => None
  | (time, (cancelled, r, alloc_ok)) :: rounds =>
    if negb time then Some (false, w)
    else match ob_ws_result id w with
    | (Some j, w) => Some ((200 <=? status_of j) && (status_of j <? 300), w)
    | (None, w) =>
      match ob_ws_pump parse cancelled r alloc_ok w with
      | (Some _, w) => Some (false, w)
      | (None, w) => close_wait rounds id w
      end
    end
  end.
Definition close_rpc (op : list Z) (begin : option Z * list send_round) (rounds : list (bool * (bool * recv * bool))) (w : ob_ws) : option (bool * ob_ws) :=
  if negb (connected w) then Some (false, w)
  else match ob_ws_begin parse op begin.1 begin.2 w with
  | None => None
  | Some (Some _, _, w) => Some (false, w)
  | Some (None, id, w) => close_wait rounds id w
  end.
End tick.

(** ** The setup worker *)

Section worker.
Context (parse : list Z -> option cj) (printer : jobject -> option (list Z)) (api_timeout_ms : Z).
Context (sha256 : list Z -> list Z) (hmac : list Z -> list Z -> option (list Z)) (hkdf : Z -> list Z -> list Z -> list Z -> option (list Z)).
(** What a worker meets: [e_moves] is what its own ticks and the other threads do to the handle
    during key exchange and connectivity setup, [e_ws] the connection after them, [e_closed]
    whether the closing request succeeds. *)
Record worker_env := WorkerEnv {
  e_caps : list (alive_env * tick_env); e_pake : pake_env; e_alive : alive_env; e_ice : ice_env;
  e_moves : ob_remote_peer -> ob_remote_peer; e_ws : ob_ws; e_fail : Z * Z; e_rounds : list keep_round; e_closed : bool }.
Definition setup_steps (env : worker_env) (x : control) : option (Z * ob_remote_peer) :=
  '(rc, x) ← capabilities parse api_timeout_ms (e_caps env) false x;
  if truth rc then Some (rc, x.2)
  else
    '(rc, p) ← pake parse sha256 hmac hkdf (e_pake env) x.2;
    if truth rc then Some (rc, p)
    else
      let (ok, p) := is_alive (e_alive env) p in
      if negb ok then Some (0, p)
      else '(rc, p, _) ← establish_ice parse printer sha256 hmac (e_ice env) p; Some (rc, p).
(** [ob_setup_worker]; [created] is the new websocket.  The handle at the end and the request
    that deletes the session, if one is made. *)
Definition ob_setup_worker (created : option ob_ws) (env : worker_env) (p : ob_remote_peer) : option (ob_remote_peer * option request) :=
  let fail := setup_failed (e_fail env).1 (e_fail env).2 in
  let finish (ws_connected : bool) p := if stop p && negb (control_managed p) then cancel_session ws_connected (e_closed env) p else (p, None) in
  match created with
  | None => Some (finish false (fail OB_REMOTE_ENOMEM p))
  | Some w =>
    '(rc, p) ← setup_steps env (w, p);
    x ← maintain parse api_timeout_ms (e_rounds env) (e_ws env, fail rc (e_moves env p));
    Some (finish (connected x.1) x.2)
  end.
End worker.

(** ** A tick only uses the connection *)

Section uses.
Context (parse : list Z -> option cj) (api_timeout_ms : Z).
(** The second connection is the first one after some operations on it. *)
Definition uses (w w' : ob_ws) : Prop := exists ops, ws_run parse w ops = Some w'.
Lemma ws_run_app w w1 w2 a b : ws_run parse w a = Some w1 -> ws_run parse w1 b = Some w2 -> ws_run parse w (a ++ b) = Some w2.
Proof.
  revert w. induction a as [|o a IH]; intros w; cbn [ws_run app]; [by intros [= <-]|]. destruct (ws_step parse w o); [|done]. apply IH.
Qed.
#[export] Instance uses_preorder : PreOrder uses.
Proof. split; [by exists []|]. intros x y z [a A] [b B]. exists (a ++ b). by eapply ws_run_app. Qed.
Lemma uses_step w o w' : ws_step parse w o = Some w' -> uses w w'.
Proof. intros H. exists [o]. cbn. by rewrite H. Qed.
Lemma uses_disconnect w : uses w (ob_ws_disconnect w).
Proof. by apply (uses_step _ OpDisconnect). Qed.
Lemma uses_connect c x s l rc st k w e w' : ob_ws_connect c x s l rc st k w = (e, w') -> uses w w'.
Proof. intros E. apply (uses_step _ (OpConnect c x s l rc st k)). cbn. by rewrite E. Qed.
Lemma uses_pump c r a w e w' : ob_ws_pump parse c r a w = (e, w') -> uses w w'.
Proof. intros E. apply (uses_step _ (OpPump c r a)). cbn. by rewrite E. Qed.
Lemma uses_begin op size rounds w e w' : ob_ws_begin parse op size rounds w = Some (e, w') -> uses w w'.
Proof. intros E. apply (uses_step _ (OpBegin op size rounds)). cbn. by rewrite E. Qed.
Lemma uses_result id w j w' : ob_ws_result id w = (j, w') -> uses w w'.
Proof. intros E. apply (uses_step _ (OpResult id)). cbn. by rewrite E. Qed.
Lemma uses_pop t w j w' : ob_ws_pop t w = (j, w') -> uses w w'.
Proof. intros E. apply (uses_step _ (OpPop t)). cbn. by rewrite E. Qed.
Create HintDb ws discriminated.
#[local] Hint Resolve uses_connect uses_pump uses_begin uses_result uses_pop uses_disconnect : ws.

Definition step_ws (t : tick_step) : ob_ws := match t with inl r => r.2.1 | inr x => x.1 end.
Lemma connect_uses v x : uses x.1 (step_ws (tick_connect v x)).
Proof.
  destruct x as [w p]. unfold tick_connect. destruct (connected w); [done|]. destruct (_ <? _); [done|]. cbv zeta.
  destruct (ob_ws_connect _ _ _ _ _ _ _ _) as [[e|] w'] eqn:E; [destruct (transport_error _ _ _)|]; cbn; eauto with ws.
Qed.
Lemma pump_uses v x : uses x.1 (step_ws (tick_pump parse v x)).
Proof.
  destruct x as [w p]. unfold tick_pump. destruct (k_pump v) as [[c r] a].
  destruct (ob_ws_pump _ _ _ _ _) as [[e|] w'] eqn:E; [destruct (transport_error _ _ _)|]; cbn; eauto with ws.
Qed.
Lemma revoked_uses v x : uses x.1 (step_ws (tick_revoked v x)).
Proof.
  destruct x as [w p]. unfold tick_revoked. destruct (ob_ws_pop _ _) as [[j|] w'] eqn:E; [|cbn; eauto with ws]. cbv zeta.
  destruct (_ <=? _); [destruct (transport_error _ _ _)|destruct (peer_authorization_error _ _ _ _)]; cbn; [|eauto with ws].
  etransitivity; [|apply uses_disconnect]. eauto with ws.
Qed.
Lemma capabilities_uses fuel i v x : uses x.1 (step_ws (tick_capabilities fuel i v x)).
Proof.
  revert i x. induction fuel as [|fuel IH]; intros i x; cbn [tick_capabilities]; [done|].
  destruct (ob_ws_pop _ _) as [[j|] w'] eqn:E; [|cbn; eauto with ws]. destruct (apply_caps _ _ _) as [rc p].
  destruct (truth rc); [cbn; eauto with ws|]. etransitivity; [by eapply uses_pop|]. apply (IH _ (w', p)).
Qed.
Lemma reply_uses v x : uses x.1 (step_ws (tick_reply api_timeout_ms v x)).
Proof.
  destruct x as [w p]. unfold tick_reply. destruct (negb _); [done|]. destruct (ob_ws_result _ _) as [[j|] w'] eqn:E; cbv zeta.
  - match goal with |- context [let (rc, p0) := ?e in _] => destruct e as [rc p'] end. destruct (truth rc); cbn; eauto with ws.
  - destruct (_ <=? _); cbn; [|eauto with ws]. etransitivity; [|apply uses_disconnect]. eauto with ws.
Qed.
Lemma heartbeat_uses v x rc x' : tick_heartbeat parse v x = Some (rc, x') -> uses x.1 x'.1.
Proof.
  destruct x as [w p]. unfold tick_heartbeat. destruct (_ && _); [|by intros [= _ <-]].
  destruct (ob_ws_begin _ _ _ _ _) as [[[[e|] id] w']|] eqn:E; [| |done].
  - destruct (transport_error _ _ _). intros [= _ <-]. eauto with ws.
  - intros [= _ <-]. eauto with ws.
Qed.
Lemma tick_uses v x rc x' : peer_tick parse api_timeout_ms v x = Some (rc, x') -> uses x.1 x'.1.
Proof.
  unfold peer_tick. destruct (is_alive _ _) as [ok p]. destruct (negb ok); [by intros [= _ <-]|].
  pose proof (connect_uses v (x.1, p)) as U1. destruct (tick_connect v (x.1, p)) as [r1|x1]; cbn [step_ws fst] in U1; [by intros [= ->]|].
  pose proof (transitivity U1 (pump_uses v x1)) as U2. clear U1. destruct (tick_pump parse v x1) as [r2|x2]; cbn [step_ws] in U2; [by intros [= ->]|].
  pose proof (transitivity U2 (revoked_uses v x2)) as U3. clear U2. destruct (tick_revoked v x2) as [r3|x3]; cbn [step_ws] in U3; [by intros [= ->]|].
  pose proof (transitivity U3 (capabilities_uses (length (queue x3.1)) 0 v x3)) as U4. clear U3.
  destruct (tick_capabilities _ _ _ _) as [r4|x4]; cbn [step_ws] in U4; [by intros [= ->]|].
  pose proof (transitivity U4 (reply_uses v x4)) as U5. clear U4. destruct (tick_reply _ _ _) as [r5|x5]; cbn [step_ws] in U5; [by intros [= ->]|].
  intros H. etransitivity; [exact U5|by eapply heartbeat_uses].
Qed.

(** Identifiers only grow. *)
Definition grows (w w' : ob_ws) : Prop := next_id w <= next_id w'.
#[export] Instance grows_preorder : PreOrder grows.
Proof. unfold grows. split; [intros ?; lia|intros ? ? ?; lia]. Qed.
Lemma pump_next c r a w : next_id (ob_ws_pump parse c r a w).2 = next_id w.
Proof.
  unfold ob_ws_pump, lost_connection. cbv zeta. destruct (negb (connected w)); [done|]. destruct c; [done|].
  destruct r as [[]| |[m|] chunk]; try done. destruct (m_close m); [done|]. destruct (m_control m); [done|]. destruct (_ || _); [done|]. destruct (_ || _); [done|].
  destruct (negb _); [done|]. destruct (m_cont m); [done|].
  match goal with |- context [enqueue parse a ?w1] => assert (E : next_id (enqueue parse a w1).2 = next_id w) end.
  { unfold enqueue. destruct (negb _); [done|]. destruct (nul_escape _ _ _); [done|]. destruct (parse _); [|done]. case_bool_decide; [done|].
    destruct (negb _); [done|]. destruct (_ || _); [done|]. by destruct (negb a). }
  destruct (enqueue parse a _) as [rc w2]. cbn [snd] in E. by destruct (truth rc).
Qed.
Lemma uses_next w w' : uses w w' -> next_id w <= next_id w'.
Proof.
  intros [ops H]. revert H. apply (keeps_run parse grows); unfold grows.
  - done.
  - intros c r a w0. rewrite pump_next. lia.
  - intros l w0. unfold header. cbv zeta. by repeat case_match.
  - done.
  - intros w0 slot _. cbn -[Z.add]. lia.
  - done.
  - done.
  - done.
Qed.
Lemma begin_id op size rounds w id w' : ob_ws_begin parse op size rounds w = Some (None, id, w') -> id = next_id w + 1 /\ id <= next_id w'.
Proof.
  unfold ob_ws_begin. destruct (negb (connected w)); [done|]. destruct (negb _); [done|]. destruct (free_slot _); [|done].
  destruct (_ <=? _); [done|]. cbv zeta. destruct size as [size|]; [|done].
  destruct (send_text parse size rounds _) as [[[e|] w1]|] eqn:S; [done| |done]. intros [= <- <-]. split; [cbn -[Z.add]; lia|].
  apply (keeps_send_text parse grows) in S; [exact S|intros ?; unfold grows; cbn; lia|]. unfold grows. intros c r a w0. rewrite pump_next. lia.
Qed.
(** The message [j] is a successful result for [id] with this body. *)
Definition reply_to (id : Z) (j : cj) (body : option cj) : Prop :=
  str j (lit "type") = Some (lit "result") /\
  (exists v, get_item j (lit "id") = Some (CNum v) /\ Qeq v (inject_Z id)) /\
  (exists s, get_item j (lit "status") = Some (CNum s) /\ Qle (inject_Z 200) s /\ Qlt s (inject_Z 300)) /\
  body = get_item j (lit "body").
Definition answer_taken (id : Z) (w w' : ob_ws) (a : option cj) : Prop := exists before q after,
  queue w = before ++ q :: after /\ queue w' = before ++ after /\ reply_to id (q_json q) a.
Lemma is_result_spec id q : is_result id q = true ->
  str (q_json q) (lit "type") = Some (lit "result") /\ exists v, get_item (q_json q) (lit "id") = Some (CNum v) /\ Qeq v (inject_Z id).
Proof.
  unfold is_result, is_type. intros [H%bool_decide_eq_true Hid]%andb_true_iff. split; [done|].
  destruct (get_item _ (lit "id")) as [[]|]; try done. eexists. split; [done|]. by apply Qeq_bool_iff.
Qed.
Lemma status_success j : (status_of j <? 200) || (300 <=? status_of j) = false ->
  exists s, get_item j (lit "status") = Some (CNum s) /\ Qle (inject_Z 200) s /\ Qlt s (inject_Z 300).
Proof.
  unfold status_of. intros [H1%Z.ltb_ge H2%Z.leb_gt]%orb_false_iff. destruct (get_item j (lit "status")) as [[| |s| | |]|]; try lia.
  exists s. split; [done|]. split.
  - eapply Qle_trans; [|apply Qfloor_le]. by rewrite <- Zle_Qle.
  - eapply Qlt_le_trans; [apply Qlt_floor|]. rewrite <- Zle_Qle. lia.
Qed.
Lemma reply_result id x a x' : rpc_reply id x = (Some (inr a), x') -> answer_taken id x.1 x'.1 a.
Proof.
  unfold rpc_reply, ob_ws_result. destruct (take_first _ (queue x.1)) as [[q rest]|] eqn:E; [|done].
  destruct (_ || _) eqn:B; [done|]. intros H. apply pair_inj in H as [H <-]. injection H as <-.
  apply take_first_spec in E as (before & after & Hq & -> & Hr & _). apply is_result_spec in Hr as [Ht Hid].
  exists before, q, after. split; [done|]. split; [done|]. split; [done|]. split; [done|]. split; [by apply status_success|done].
Qed.
Lemma reply_uses_ws id x r x' : rpc_reply id x = (r, x') -> uses x.1 x'.1 /\ x'.2 = x.2.
Proof. unfold rpc_reply. destruct (ob_ws_result id x.1) as [[j|] w] eqn:E; intros [= <- <-]; (split; [by eapply uses_result|done]). Qed.

(** *** Requests that must not be repeated *)

(** A request that is not repeatable is begun at most once; [id] is set once it is. *)
Definition once_state (id : Z) (attempted : bool) (begun : list Z) : Prop :=
  if attempted then id <> 0 /\ length begun = 1%nat else id = 0 /\ begun = [].
Lemma once_length id attempted begun : once_state id attempted begun -> (length begun <= 1)%nat.
Proof. unfold once_state. destruct attempted; [intros [_ ->]; lia|intros [_ ->]; cbn; lia]. Qed.
Lemma rpc_once rounds op id attempted x begun : repeatable op = false -> 0 <= next_id x.1 -> once_state id attempted begun ->
  (length (rpc_loop parse api_timeout_ms rounds op id attempted x begun).2 <= 1)%nat.
Proof.
  intros Hr. revert id attempted x begun. induction rounds as [|r rounds IH]; intros id attempted x begun Hn Ho; pose proof (once_length _ _ _ Ho) as Hl; [done|].
  cbn [rpc_loop]. destruct (is_alive _ _) as [ok p]. destruct (negb _); [done|]. rewrite Hr. cbn [negb fst snd]. rewrite !andb_true_r.
  destruct (truth id && negb (connected x.1)) eqn:C; [done|]. destruct (peer_tick _ _ _ _) as [[rc x1]|] eqn:T; [|done].
  assert (Hn1 : 0 <= next_id x1.1) by (apply tick_uses, uses_next in T; cbn in T; lia).
  destruct (truth rc); [done|]. destruct (negb (connected x1.1)).
  { destruct attempted; [done|]. apply IH; [done|]. destruct Ho as [_ ->]. done. }
  destruct (truth id) eqn:I.
  - destruct (rpc_reply id x1) as [[a|] x2] eqn:R; [done|]. apply reply_uses_ws in R as [R%uses_next _]. apply IH; [lia|done].
  - destruct attempted; [destruct Ho as [Ho _]; unfold truth in I; apply negb_false_iff, Z.eqb_eq in I; done|]. destruct Ho as [-> ->].
    destruct (ob_ws_begin _ _ _ _ _) as [[[[e|] id'] w]|] eqn:B; [destruct (transport_error _ _ _) as [f p2]; by destruct (truth f)| |done].
    apply begin_id in B as [B1 B2]. destruct (rpc_reply id' (w, x1.2)) as [[a|] x2] eqn:R; [done|]. apply reply_uses_ws in R as [R%uses_next _]. cbn in R.
    apply IH; [lia|]. split; [lia|done].
Qed.

(** *** A reply answers the request *)

(** The reply [a] was taken out of the queue of a later state of the connection [w0], and it is
    the result for the last request begun, whose identifier is new since [w0]. *)
Definition answers (w0 : ob_ws) (a : option cj) (x' : control) (begun : list Z) : Prop := exists id rest w before q after,
  begun = id :: rest /\ next_id w0 < id <= next_id x'.1 /\ uses w0 w /\
  queue w = before ++ q :: after /\ queue x'.1 = before ++ after /\ reply_to id (q_json q) a.
Definition waits_for (w0 : ob_ws) (id : Z) (x : control) (begun : list Z) : Prop :=
  id <> 0 -> exists rest, begun = id :: rest /\ next_id w0 < id <= next_id x.1.
Lemma waits_keeps w0 id x x' begun : waits_for w0 id x begun -> uses x.1 x'.1 -> waits_for w0 id x' begun.
Proof. intros W U%uses_next I. destruct (W I) as (rest & -> & B). exists rest. split; [done|lia]. Qed.
Lemma reply_answers w0 id x begun a x' : uses w0 x.1 -> id <> 0 -> waits_for w0 id x begun -> rpc_reply id x = (Some (inr a), x') -> answers w0 a x' begun.
Proof.
  intros U I W R. destruct (W I) as (rest & -> & B). pose proof (proj1 (reply_uses_ws _ _ _ _ R)) as N%uses_next.
  apply reply_result in R as (before & q & after & R1 & R2 & R3). exists id, rest, x.1, before, q, after. split_and!; (done || lia).
Qed.
Lemma rpc_loop_answers w0 rounds op id attempted x begun a x' begun' : uses w0 x.1 -> 0 <= next_id w0 -> waits_for w0 id x begun ->
  rpc_loop parse api_timeout_ms rounds op id attempted x begun = (Some (inr a, x'), begun') -> answers w0 a x' begun'.
Proof.
  revert id attempted x begun. induction rounds as [|r rounds IH]; intros id attempted x begun U H0 W; [done|].
  cbn [rpc_loop]. destruct (is_alive _ _) as [ok p]. destruct (negb _); [done|]. cbn [fst snd]. destruct (_ && _ && _); [done|].
  set (i := if truth id && _ then 0 else id). assert (W1 : waits_for w0 i x begun) by (unfold i; destruct (_ && _); [by intros []|done]). clearbody i. clear W.
  destruct (peer_tick _ _ _ _) as [[rc x1]|] eqn:T; [|done]. apply tick_uses in T. cbn [fst] in T.
  pose proof (transitivity U T) as U1. apply (waits_keeps _ _ _ x1) in W1; [|exact T]. clear U T.
  destruct (truth rc); [done|]. destruct (negb (connected x1.1)). { destruct (_ && _); [done|]. apply IH; [done|done|by intros []]. }
  cbv zeta. destruct (truth i) eqn:I.
  - assert (Hi : i <> 0) by (unfold truth in I; apply negb_true_iff, Z.eqb_neq in I; done).
    destruct (rpc_reply i x1) as [[b|] x2] eqn:R; [intros [= -> -> ->]; by eapply reply_answers|].
    apply reply_uses_ws in R as [R _]. apply IH; [by transitivity x1.1|done|by eapply waits_keeps].
  - destruct (ob_ws_begin _ _ _ _ _) as [[[[e|] id'] w]|] eqn:B; [| |done].
    + pose proof (uses_begin _ _ _ _ _ _ B) as U2. destruct (transport_error _ _ _) as [f p2]. destruct (truth f); [done|]. destruct (negb _); [done|].
      apply IH; [by transitivity x1.1|done|by intros []].
    + pose proof (uses_begin _ _ _ _ _ _ B) as U2. apply begin_id in B as [B1 B2].
      assert (W2 : waits_for w0 id' (w, x1.2) (id' :: begun)) by (intros _; exists begun; apply uses_next in U1; split; [done|cbn; lia]).
      assert (U3 : uses w0 (w, x1.2).1) by (by transitivity x1.1). assert (Hi : id' <> 0) by (apply uses_next in U1; lia).
      destruct (rpc_reply id' (w, x1.2)) as [[b|] x2] eqn:R; [intros [= -> -> <-]; by apply (reply_answers _ _ _ _ _ _ U3 Hi W2 R)|].
      apply reply_uses_ws in R as [R _]. apply IH; [by transitivity w|done|by eapply waits_keeps].
Qed.

(** C24: TURN credentials are requested at most once by a setup.  However often the connection is
    lost, re-established, slow or refuses to send, [peer_rpc] begins a "turn" request at most
    once, as docs/WS-SIGNALING.md asks of a request that must not be repeated. *)
Theorem turn_once rounds x : 0 <= next_id x.1 -> (length (peer_rpc parse api_timeout_ms rounds (lit "turn") x).2 <= 1)%nat.
Proof. intros H. unfold peer_rpc. apply rpc_once; [vm_compute; reflexivity|exact H|split; reflexivity]. Qed.

(** C25: a reply returned by [peer_rpc] is the one to its own request.  When it returns a body,
    the request was begun under an identifier newer than every earlier one on the connection, and
    the body is the "body" member of a queued message of type "result" whose "id" member is that
    identifier and whose "status" member is a success; that message is taken out of the queue.
    An answer to an abandoned or earlier request is never taken for it. *)
Theorem rpc_answered rounds op x a x' begun : 0 <= next_id x.1 ->
  peer_rpc parse api_timeout_ms rounds op x = (Some (inr a, x'), begun) -> answers x.1 a x' begun.
Proof. intros H. unfold peer_rpc. apply rpc_loop_answers; [reflexivity|exact H|by intros []]. Qed.
End uses.

(** ** The end of a control worker *)

(** What every operation on a handle keeps: a closed handle has been told to stop. *)
Definition closed_stops (p : ob_remote_peer) : Prop := peer_state p = CLOSED -> stop p = true.
Definition halted (p : ob_remote_peer) : Prop := stop p = true \/ attempt_stop p = true.
(** The fields the two are about. *)
Definition life (p : ob_remote_peer) := (recovery p, stop p, attempt_stop p).
Lemma life_closed p q : life q = life p -> closed_stops p -> closed_stops q.
Proof. unfold closed_stops, peer_state. by intros [= -> -> _]. Qed.
Lemma fail_halts p code m : closed_stops p -> closed_stops (ob_peer_fail_locked p code m) /\ halted (ob_peer_fail_locked p code m).
Proof.
  intros H. unfold ob_peer_fail_locked. case_bool_decide as C; [split; [done|left; by apply H]|]. cbv zeta. split; [|by left]. done.
Qed.
Lemma transport_fail_halts t1 t2 p code m : closed_stops p ->
  closed_stops (ob_peer_transport_fail_locked t1 t2 p code m) /\ halted (ob_peer_transport_fail_locked t1 t2 p code m).
Proof.
  intros H. unfold ob_peer_transport_fail_locked. destruct (stop p) eqn:S; [split; [done|by left]|]. destruct (negb _); [by apply fail_halts|]. cbv zeta.
  split; [done|by right].
Qed.
(** A step that fails leaves a halted handle. *)
Definition ends (rc : Z) (p : ob_remote_peer) : Prop := closed_stops p /\ (rc <> 0 -> halted p).
Lemma ends_halted rc p : closed_stops p /\ halted p -> ends rc p.
Proof. intros []. by split. Qed.
Lemma ends_zero p q : life q = life p -> closed_stops p -> ends 0 q.
Proof. intros E H. split; [by eapply life_closed|done]. Qed.
Create HintDb ends discriminated.
#[local] Hint Resolve ends_halted fail_halts transport_fail_halts ends_zero : ends.
Lemma alive_ends v p : closed_stops p -> closed_stops (is_alive v p).2 /\ ((is_alive v p).1 = false -> halted (is_alive v p).2).
Proof.
  intros H. unfold is_alive, alive. destruct (stop p || attempt_stop p) eqn:S; [apply orb_true_iff in S; by split|]. cbv zeta.
  destruct (_ && _); [cbn [fst snd]; destruct (control_managed p); [destruct (transport_fail_halts (v_f1 v) (v_f2 v) p OB_REMOTE_ECLOSED (lit "Control authorization lease expired") H)
    |destruct (fail_halts p OB_REMOTE_ECLOSED (lit "Control authorization lease expired") H)]; by split|].
  destruct (_ && _); cbn [fst snd]; [|done].
  destruct (transport_fail_halts (v_f1 v) (v_f2 v) p OB_REMOTE_ETIMEOUT (lit "Peer setup timed out") H). by split.
Qed.
Lemma transport_error_ends v e p : closed_stops p -> ends (transport_error v e p).1 (transport_error v e p).2.
Proof.
  intros H. unfold transport_error, peer_transport_error. destruct (fatal_status _); [cbn [fst snd]; destruct (control_managed p); eauto with ends|].
  destruct (_ || _ || _); cbn [fst snd]; [eauto with ends|]. by apply (ends_zero p).
Qed.
Lemma authorization_ends f1 f2 b p : closed_stops p -> ends (peer_authorization_error f1 f2 b p).1 (peer_authorization_error f1 f2 b p).2.
Proof. intros H. unfold peer_authorization_error. cbv zeta. cbn [fst snd]. destruct (_ || _); eauto with ends. Qed.
Lemma discover_life a i k p : life (discover_stun a i k p).2 = life p.
Proof. unfold discover_stun. destruct (_ || _); [done|]. destruct (stun_endpoint a) as [[[h n]|]|]; [by destruct k|done..]. Qed.
Lemma set_lease_life r n e b p : life (set_lease r n e b p).2 = life p.
Proof. unfold set_lease. cbv zeta. destruct (_ || _ || _ || _); [done|]. by destruct (_ && _). Qed.
Lemma apply_caps_ends v b p : closed_stops p -> ends (apply_caps v b p).1 (apply_caps v b p).2.
Proof.
  intros H. unfold apply_caps, apply_capabilities. cbv zeta. destruct (negb _); [cbn [fst snd]; eauto with ends|].
  match goal with |- context [discover_stun ?a ?i ?k p] => pose proof (discover_life a i k p) as D; destruct (discover_stun a i k p) as [rc q] end. cbn [snd] in D.
  destruct (truth rc); [cbn [fst snd]; eauto with ends|].
  match goal with |- context [set_lease ?r ?n ?e ?b q] => pose proof (set_lease_life r n e b q) as L; destruct (set_lease r n e b q) as [rc' q'] end. cbn [snd] in L.
  assert (H' : closed_stops q') by (eapply life_closed; [|exact H]; congruence).
  destruct (truth rc'); [cbn [fst snd]; destruct (control_managed q'); eauto with ends|]. by apply (ends_zero q').
Qed.

Section halts.
Context (parse : list Z -> option cj) (api_timeout_ms : Z).
Definition step_ends (t : tick_step) : Prop := match t with inl r => ends r.1 r.2.2 | inr x => closed_stops x.2 end.
Lemma connect_ends v x : closed_stops x.2 -> step_ends (tick_connect v x).
Proof.
  destruct x as [w p]. cbn [snd]. intros H. unfold tick_connect. destruct (connected w); [exact H|]. destruct (_ <? _); [by apply (ends_zero p)|]. cbv zeta.
  destruct (ob_ws_connect _ _ _ _ _ _ _ _) as [[e|] w']; [|exact H].
  pose proof (transport_error_ends (k_error v) e p H) as E. destruct (transport_error _ _ _). exact E.
Qed.
Lemma pump_ends v x : closed_stops x.2 -> step_ends (tick_pump parse v x).
Proof.
  destruct x as [w p]. cbn [snd]. intros H. unfold tick_pump. destruct (k_pump v) as [[c r] a]. destruct (ob_ws_pump _ _ _ _ _) as [[e|] w']; [|exact H].
  pose proof (transport_error_ends (k_error v) e p H) as E. destruct (transport_error _ _ _). exact E.
Qed.
Lemma revoked_ends v x : closed_stops x.2 -> step_ends (tick_revoked v x).
Proof.
  destruct x as [w p]. cbn [snd]. intros H. unfold tick_revoked. destruct (ob_ws_pop _ _) as [[j|] w']; [|exact H]. cbv zeta. destruct (_ <=? _).
  - pose proof (transport_error_ends (k_error v) (api_fail OB_API_TRANSPORT (status_of j) []) p H) as E. destruct (transport_error _ _ _). exact E.
  - pose proof (authorization_ends (k_revoked v).1 (k_revoked v).2 (get_item j (lit "body")) p H) as E. destruct (peer_authorization_error _ _ _ _). exact E.
Qed.
Lemma capabilities_ends fuel i v x : closed_stops x.2 -> step_ends (tick_capabilities fuel i v x).
Proof.
  revert i x. induction fuel as [|fuel IH]; intros i x H; cbn [tick_capabilities]; [exact H|]. destruct (ob_ws_pop _ _) as [[j|] w']; [|exact H].
  pose proof (apply_caps_ends (k_caps v i) (get_item j (lit "body")) x.2 H) as E. destruct (apply_caps _ _ _) as [rc p]. cbn [fst snd] in E.
  destruct (truth rc); [exact E|]. apply IH. exact (proj1 E).
Qed.
Lemma reply_ends v x : closed_stops x.2 -> step_ends (tick_reply api_timeout_ms v x).
Proof.
  destruct x as [w p]. cbn [snd]. intros H. unfold tick_reply. destruct (negb _); [exact H|]. destruct (ob_ws_result _ _) as [[j|] w']; cbv zeta.
  - set (q := p <| heartbeat_id := 0 |>). assert (Hq : closed_stops q) by exact H. clearbody q.
    match goal with |- context [let (rc, p0) := ?e in _] => assert (E : ends e.1 e.2); [|destruct e as [rc q']] end.
    { destruct (_ && _); [by apply apply_caps_ends|]. destruct (_ || _); [by apply authorization_ends|by apply (ends_zero q)]. }
    destruct (truth rc); [exact E|exact (proj1 E)].
  - destruct (_ <=? _); [by apply (ends_zero p)|exact H].
Qed.
Lemma tick_ends v x rc x' : closed_stops x.2 -> peer_tick parse api_timeout_ms v x = Some (rc, x') -> ends rc x'.2.
Proof.
  intros H. unfold peer_tick. destruct (alive_ends (k_alive v) x.2 H) as [A1 A2]. destruct (is_alive _ _) as [ok p]. cbn [fst snd] in A1, A2.
  destruct ok; cbn [negb]; [|intros [= <- <-]; by apply ends_halted; split; [|apply A2]].
  pose proof (connect_ends v (x.1, p) A1) as U. destruct (tick_connect v (x.1, p)) as [r1|x1]; [by intros [= ->]|]. cbn [step_ends] in U.
  apply (pump_ends v) in U. destruct (tick_pump parse v x1) as [r2|x2]; [by intros [= ->]|]. cbn [step_ends] in U.
  apply (revoked_ends v) in U. destruct (tick_revoked v x2) as [r3|x3]; [by intros [= ->]|]. cbn [step_ends] in U.
  apply (capabilities_ends (length (queue x3.1)) 0 v) in U. destruct (tick_capabilities _ _ _ _) as [r4|x4]; [by intros [= ->]|]. cbn [step_ends] in U.
  apply (reply_ends v) in U. destruct (tick_reply _ _ _) as [r5|[w p5]]; [by intros [= ->]|]. cbn [step_ends snd] in U.
  unfold tick_heartbeat. destruct (_ && _); [|intros [= <- <-]; by apply (ends_zero p5)].
  destruct (ob_ws_begin _ _ _ _ _) as [[[[e|] id] w']|]; [| |done].
  - match goal with |- context [transport_error ?a ?b ?c] => pose proof (transport_error_ends a b c U) as E; destruct (transport_error a b c) end. by intros [= <- <-].
  - intros [= <- <-]. by apply (ends_zero p5).
Qed.
Lemma late_closed fuel x : closed_stops x.2 -> closed_stops (late_messages fuel x).2.
Proof.
  revert x. induction fuel as [|fuel IH]; intros x H; cbn [late_messages]; [done|]. destruct (ob_ws_pop _ _) as [[j|] w]; [|done]. cbv zeta.
  set (q := match get_item j (lit "sequence") with Some (CNum q) => q | _ => 0%Q end).
  assert (L : closed_stops (late_message q x.2)) by (unfold late_message; destruct (Qle_bool _ _); [done|by apply fail_halts]).
  destruct (Qle_bool _ _); [by apply IH|exact L].
Qed.
Definition moves_ok (f : ob_remote_peer -> ob_remote_peer) : Prop := forall p, closed_stops p -> closed_stops (f p).
Lemma maintain_halts rounds x x' : Forall (fun r => moves_ok (z_moves r)) rounds -> closed_stops x.2 ->
  maintain parse api_timeout_ms rounds x = Some x' -> halted x'.2.
Proof.
  intros F. revert x. induction F as [|r rounds M _ IH]; intros x H; cbn [maintain]; [done|].
  destruct (alive_ends (z_alive r) _ (M _ H)) as [A1 A2]. destruct (is_alive _ _) as [ok p]. cbn [fst snd] in A1, A2.
  destruct ok; cbn [negb]; [|intros [= <-]; by apply A2]. destruct (peer_tick _ _ _ _) as [[rc x1]|] eqn:T; [|done].
  apply tick_ends in T as [T1 T2]; [|exact A1]. destruct (truth rc) eqn:R; [intros [= <-]; apply T2; by apply truth_nonzero|].
  apply IH. by apply late_closed.
Qed.

Context (printer : jobject -> option (list Z)) (sha256 : list Z -> list Z) (hmac : list Z -> list Z -> option (list Z)).
Context (hkdf : Z -> list Z -> list Z -> list Z -> option (list Z)).
Lemma send_signal_life ok rpc type payload auth p : life (send_signal hmac ok rpc type payload auth p).1.2 = life p.
Proof.
  unfold send_signal. destruct (signal_envelope _ _ _ _ _); [done|]. destruct (negb ok); [done|]. destruct (rpc _) as [rc e]. destruct (rc =? 0); [done|].
  cbn [fst snd]. by destruct (truth (result p)).
Qed.
Lemma decode_life ok data rest type auth p : life (ob_decode_signal parse hmac ok data rest type auth p).2 = life p.
Proof.
  unfold ob_decode_signal. destruct (_ <=? _); [done|]. cbv zeta. destruct data as [d|]; [|done]. destruct (if zlen d <=? 16384 then _ else _); [|done].
  destruct (negb _); [done|]. destruct (_ && _); [done|]. by destruct (negb ok).
Qed.
Lemma receive_life rounds type auth p rc out q : receive_signal parse hmac rounds type auth p = Some (rc, out, q) -> life q = life p.
Proof.
  induction rounds as [|r rounds IH]; cbn [receive_signal]; [done|]. destruct r as [| | |sq data ok ack]; try (by intros [= _ _ <-]); [done|].
  destruct (Qle_bool _ _); [done|]. pose proof (decode_life ok data sq type auth p) as D. destruct (ob_decode_signal _ _ _ _ _ _ _ _) as [[rc' out'] q'].
  cbn [snd] in D. destruct (_ && _); intros [= _ _ <-]; exact D.
Qed.
Lemma derive_life p a b q : ob_derive_keys sha256 hkdf p a b = Some q -> life q = life p.
Proof. unfold ob_derive_keys. destruct (hkdf _ _ _ _); [|done]. by intros [= <-]. Qed.
Lemma resume_life p q : ob_resume_key_derive hkdf p = Some q -> life q = life p.
Proof. unfold ob_resume_key_derive. destruct (_ || _); [by intros [= <-]|]. destruct (hkdf _ _ _ _); [|done]. cbv zeta. intros [= <-]. by destruct (resume_key_set _). Qed.
Lemma pake_life env p rc q : pake parse sha256 hmac hkdf env p = Some (rc, q) -> life q = life p.
Proof.
  unfold pake. destruct (k_mine env) as [mine|]; [|by intros [= _ <-]]. destruct (negb _); [by intros [= _ <-]|].
  match goal with |- context [send_signal ?a ?b ?c ?d ?e ?f ?g] => pose proof (send_signal_life b c d e f g) as S1; destruct (send_signal a b c d e f g) as [[rc1 p1] l1] end.
  cbn [fst snd] in S1. destruct (truth rc1); [by intros [= _ <-]|].
  destruct (receive_signal _ _ _ _ _ _) as [[[rc2 remote] p2]|] eqn:R1; [|done]. apply receive_life in R1.
  destruct (truth rc2); [intros [= _ <-]; congruence|]. destruct (ob_unhex _ _) as [theirs|]; [|intros [= _ <-]; congruence].
  destruct (k_process env theirs) as [key|]; [|intros [= _ <-]; congruence]. cbv zeta.
  assert (S2 : life (p2 <| shared := key |>) = life p) by (change (life p2 = life p); congruence). set (p3 := p2 <| shared := key |>) in *. clearbody p3.
  destruct (negb _); [intros [= _ <-]; congruence|]. destruct (ob_derive_keys _ _ _ _ _) as [p4|] eqn:D; [|intros [= _ <-]; congruence]. apply derive_life in D.
  match goal with |- context [send_signal ?a ?b ?c ?d ?e ?f ?g] => pose proof (send_signal_life b c d e f g) as S3; destruct (send_signal a b c d e f g) as [[rc3 p5] l2] end.
  cbn [fst snd] in S3. destruct (truth rc3); [intros [= _ <-]; congruence|].
  destruct (receive_signal _ _ _ _ _ _) as [[[rc4 remote2] p6]|] eqn:R2; [|done]. apply receive_life in R2. unfold pake_finish.
  destruct (_ =? 0); [|intros [= _ <-]; congruence]. destruct (ob_resume_key_derive hkdf p6) as [p7|] eqn:K; [|intros [= _ <-]; congruence].
  apply resume_life in K. intros [= _ <-]. congruence.
Qed.
Lemma answer_life p remote : life (ice_answer sha256 hmac p remote).1.2 = life p.
Proof.
  unfold ice_answer. cbv zeta. set (rc0 := match (match remote with Some j => get_item j (lit "mapping_version") | None => None end) with None => 0 | Some v => _ end).
  set (q0 := if (rc0 =? 0) && _ && _ then _ else _).
  assert (E : life q0 = life p) by (subst q0; destruct (_ && _ && _); [|done]; repeat (case_match; try done)). clearbody q0.
  destruct (match remote with Some j => str j (lit "sdp") | None => None end); [|done]. destruct (_ <=? _); [done|]. destruct (truth rc0); [done|].
  destruct (if is_server q0 then Some q0 else _) as [q1|] eqn:P; [|done].
  assert (life q1 = life p) by (destruct (is_server q0); [congruence|]; destruct (ob_unhex _ _); [|done]; injection P as <-; done).
  destruct (_ =? _); [|done]. by destruct (ob_filter_relay_description _).
Qed.
Lemma approve_life env p : life (ice_approve env p).2 = life p.
Proof.
  unfold ice_approve. destruct (negb _); [done|]. destruct (i_approve env _) as [rc e]. cbv zeta. destruct (truth _); [done|]. by destruct (i_certificate env).
Qed.
Lemma establish_life env p rc q trace : establish_ice parse printer sha256 hmac env p = Some (rc, q, trace) -> life q = life p.
Proof.
  unfold establish_ice. pose proof (approve_life env p) as A. destruct (ice_approve env p) as [rc1 p1]. cbn [snd] in A. destruct (truth rc1); [by intros [= _ <- _]|].
  destruct (truth _); [by intros [= _ <- _]|]. destruct (ice_turn env p1); [by intros [= _ <- _]|]. cbv zeta. destruct (negb _); [by intros [= _ <- _]|].
  destruct (truth _); [by intros [= _ <- _]|]. destruct (negb _); [by intros [= _ <- _]|]. destruct (local_description env p1); [|by intros [= _ <- _]].
  destruct (ice_body _ _ _ _); [|by intros [= _ <- _]]. destruct (printer _); [|by intros [= _ <- _]].
  match goal with |- context [send_signal ?a ?b ?c ?d ?e ?f ?g] => pose proof (send_signal_life b c d e f g) as S; destruct (send_signal a b c d e f g) as [[rc2 p2] l2] end.
  cbn [fst snd] in S. destruct (truth rc2); [intros [= _ <- _]; congruence|].
  destruct (receive_signal _ _ _ _ _ _) as [[[rc3 remote] p3]|] eqn:R; [|done]. apply receive_life in R. destruct (truth rc3); [intros [= _ <- _]; congruence|].
  pose proof (answer_life p3 (remote ≫= ob_peer_json_parse parse)) as N. destruct (ice_answer _ _ _ _) as [[rc4 p4] install]. cbn [fst snd] in N.
  destruct install; [|intros [= _ <- _]; congruence]. destruct (negb _); [intros [= _ <- _]; congruence|]. destruct (truth _); [intros [= _ <- _]; congruence|].
  destruct (negb _); [intros [= _ <- _]; congruence|]. intros [= _ <- _]. rewrite <- A, <- S, <- R, <- N. by destruct (stop p4 || attempt_stop p4).
Qed.
Lemma capabilities_closed rounds wait x rc x' : closed_stops x.2 -> capabilities parse api_timeout_ms rounds wait x = Some (rc, x') -> closed_stops x'.2.
Proof.
  revert x. induction rounds as [|[a t] rounds IH]; intros x H; cbn [capabilities]; [done|].
  destruct (alive_ends a x.2 H) as [A1 _]. destruct (is_alive a x.2) as [ok p]. cbn [snd] in A1. destruct (negb ok); [by intros [= _ <-]|].
  destruct (peer_tick _ _ _ _) as [[rc1 x1]|] eqn:T; [|done]. apply tick_ends in T as [T _]; [|exact A1].
  destruct (truth rc1); [by intros [= _ <-]|]. destruct (_ && _); [by intros [= _ <-]|]. by apply IH.
Qed.
Lemma setup_steps_closed env x rc p : closed_stops x.2 -> setup_steps parse printer api_timeout_ms sha256 hmac hkdf env x = Some (rc, p) -> closed_stops p.
Proof.
  intros H. unfold setup_steps. destruct (capabilities _ _ _ _ _) as [[rc1 x1]|] eqn:C; [|done]. cbn [mbind option_bind]. apply capabilities_closed in C; [|done].
  destruct (truth rc1); [by intros [= _ <-]|]. destruct (pake _ _ _ _ _ _) as [[rc2 p2]|] eqn:K; [|done]. cbn [mbind option_bind]. apply pake_life in K.
  apply (life_closed _ _ K) in C. clear K. destruct (truth rc2); [by intros [= _ <-]|].
  destruct (alive_ends (e_alive env) p2 C) as [A _]. destruct (is_alive _ p2) as [ok p3]. cbn [snd] in A. destruct (negb ok); [by intros [= _ <-]|].
  destruct (establish_ice _ _ _ _ _ _) as [[[rc3 p4] tr]|] eqn:I; [|done]. cbn [mbind option_bind]. apply establish_life in I. intros [= _ <-]. by apply (life_closed _ _ I).
Qed.
Lemma setup_failed_ends t1 t2 rc p : closed_stops p -> ends rc (setup_failed t1 t2 rc p).
Proof.
  intros H. unfold setup_failed. destruct (truth rc) eqn:R; cbn [andb]; [|apply negb_false_iff, Z.eqb_eq in R; subst rc; by apply (ends_zero p)].
  destruct (stop p) eqn:S; cbn [negb andb]; [by split; [|left]|]. destruct (attempt_stop p) eqn:A; cbn [negb]; [by split; [|right]|].
  destruct (_ || _); eauto with ends.
Qed.
(** C23: a control worker ends only with its handle halted.  Whatever happens on the connection, in
    the key exchange and to the handle meanwhile, when [ob_setup_worker] returns the handle has
    been told to stop, or its transport attempt has: no transport keeps running without the
    worker that renews and watches its authorisation.  A managed session is never deleted by
    it. *)
Theorem worker_ends_halted created env p p' req : closed_stops p -> moves_ok (e_moves env) -> Forall (fun r => moves_ok (z_moves r)) (e_rounds env) ->
  ob_setup_worker parse printer api_timeout_ms sha256 hmac hkdf created env p = Some (p', req) ->
  halted p' /\ (control_managed p' = true -> req = None).
Proof.
  intros H M F. unfold ob_setup_worker. cbv zeta.
  assert (L : forall b q, halted q -> (if stop q && negb (control_managed q) then cancel_session b (e_closed env) q else (q, None)) = (p', req) ->
    halted p' /\ (control_managed p' = true -> req = None)).
  { intros b q Hq. destruct (stop q) eqn:S; cbn [andb]; [|by intros [= <- <-]]. destruct (control_managed q) eqn:C; cbn [negb]; [by intros [= <- <-]|].
    unfold cancel_session. destruct (session_id q), (Peer.bearer q); intros [= <- <-]; (split; [exact Hq|cbn; congruence]). }
  destruct created as [w|].
  - destruct (setup_steps _ _ _ _ _ _ _ _) as [[rc q]|] eqn:S; [|done]. cbn [mbind option_bind]. apply setup_steps_closed in S; [|exact H].
    destruct (maintain _ _ _ _) as [x|] eqn:K; [|done]. cbn [mbind option_bind].
    apply maintain_halts in K; [|exact F|apply (setup_failed_ends _ _ rc), M, S]. intros [= E]. exact (L _ _ K E).
  - intros [= E]. refine (L false _ _ E). by apply (setup_failed_ends _ _ OB_REMOTE_ENOMEM p H).
Qed.
End halts.

(** *** Runs *)

Definition calm : alive_env := AliveEnv 0 0 0 0.
Definition no_error_env : error_env := ErrorEnv 0 0 0 0.
Definition quiet_tick (pump : recv) : tick_env :=
  let c := CapsEnv 0 0 0 0 false true in
  TickEnv calm 0 (ConnectAnswer false true [] 0 101 true) no_error_env (false, pump, true) (0, 0) (fun _ => c) c (0, 0) 0 0 0 (None, []) 0 no_error_env.
Definition rpc_step (pump : recv) : rpc_round :=
  RpcRound calm true (quiet_tick pump) (Some 60, [SendRound false 60 0 false RecvFailed true false]) no_error_env.
Definition rpc_start : control :=
  (after_ops fresh_ws (take 1 sample_ws), new_peer 0 sample_id None <| heartbeat_due_us := 1000000 |>).
Definition reply_piece : recv := Piece (Some (Meta false false true false 0 0 false)) result_text.
(** The connection is lost after the request went out: it is not sent again. *)
Lemma turn_once_witness : let r := peer_rpc toy_parse 30000 [rpc_step (Again false); rpc_step RecvFailed] (lit "turn") rpc_start in
  option_map fst r.1 = Some (inl lost_turn) /\ r.2 = [1] /\ (length r.2 <= 1)%nat.
Proof.
  cbv zeta. split; [vm_compute; reflexivity|]. split; [vm_compute; reflexivity|]. apply turn_once. vm_compute. discriminate.
Defined.
Definition rpc_done := peer_rpc toy_parse 30000 [rpc_step (Again false); rpc_step reply_piece] (lit "turn") rpc_start.
Definition rpc_end : control := match rpc_done.1 with Some (_, x) => x | None => rpc_start end.
Lemma rpc_answered_witness : answers toy_parse rpc_start.1 (Some CNull) rpc_end [1].
Proof.
  apply (rpc_answered toy_parse 30000 [rpc_step (Again false); rpc_step reply_piece] (lit "turn")); [vm_compute; discriminate|vm_compute; reflexivity].
Defined.

(** A worker whose key exchange fails, on an unmanaged session. *)
Definition failing_env : worker_env :=
  let no_ice := IceEnv (fun _ => (0, no_error)) None 0 (0, no_error, None) false 0 false None (fun _ => (0, no_error)) [] (fun _ => false) 0 false in
  WorkerEnv [(calm, quiet_tick (Again false))] (PakeEnv None (fun _ => None) (fun _ _ => (0, no_error)) (fun _ => [])) calm no_ice
    (fun p => p) fresh_ws (0, 0) [KeepRound (fun p => p) calm (quiet_tick (Again false))] false.
Definition worker_peer : ob_remote_peer :=
  rpc_start.2 <| lease_deadline_set := true |> <| lease_deadline_us := 5000 |> <| session_id := Some sample_id |> <| Peer.bearer := Some (lit "t") |>.
Lemma worker_ends_halted_witness :
  let r := ob_setup_worker toy_parse (fun _ => None) 30000 (fun x => x) (fun _ _ => None) (fun _ _ _ _ => None) (Some rpc_start.1) failing_env worker_peer in
  exists p', r = Some (p', Some (Request DELETE (lit "/v1/sessions/" ++ sample_id) (Some (lit "t")) None)) /\ result p' = OB_REMOTE_EAUTH /\ halted p'.
Proof.
  cbv zeta. eexists. split; [vm_compute; reflexivity|]. split; [reflexivity|].
  refine (proj1 (worker_ends_halted toy_parse 30000 (fun _ => None) (fun x => x) (fun _ _ => None) (fun _ _ _ _ => None) (Some rpc_start.1) failing_env worker_peer _ _ _ _ _ _));
    [by vm_compute|by intros ?|constructor; [by intros ?|constructor]|vm_compute; reflexivity].
Defined.

(** The wait between connection attempts, error after error: the cap of two seconds is
    passed once, since it is tested before the doubling. *)
Fixpoint backoffs (n : nat) (p : ob_remote_peer) : list Z :=
  match n with
  | O => []
  | S n => let p := (transport_error no_error_env (api_fail OB_API_TRANSPORT 0 []) p).2 in reconnect_backoff p :: backoffs n p
  end.
Example backoff_overshoots : backoffs 7 (new_peer 0 sample_id None) = [200; 400; 800; 1600; 3200; 2000; 2000].
Proof. vm_compute. reflexivity. Qed.
