(* ===== verification/AuthTime.v ===== *)
(** * Times of the account protocol

    [timestamp] of src/sdk/c/remote/ob_auth.c, which reads the RFC 3339 times of the
    management service, against a calendar that counts days year by year and month by
    month; and the spelling of such times by Go's encoding/json, which the service uses. *)

From S2P Require Import Prelude.
From S2P Require Import Json Target.
#[local] Arguments lit : simpl never.

(** ** Reading a time *)

(** [%wd] of sscanf: blanks, then at most [w] characters of an optional sign and digits;
    the number and the text behind it. *)
Definition scan_field (w : Z) (l : list Z) : option (Z * list Z) :=
  let s := skip_isspace l in
  let window := ztake w s in
  let '(neg, d) := match window with c :: r => if c =? 45 then (true, r) else if c =? 43 then (false, r) else (false, window) | [] => (false, []) end in
  match d with
  | c :: _ =>
    if isdigit c then let r := strtol_digits d 0 in Some (if neg then - r.1 else r.1, zdrop (zlen window - zlen r.2) s)
    else None
  | [] => None
  end.
(** A literal character of the format. *)
Definition scan_char (c : Z) (l : list Z) : option (list Z) := match l with x :: l => if x =? c then Some l else None | [] => None end.
(** A date and a time of day. *)
Record civil := Civil { year : Z; month : Z; day : Z; hour : Z; minute : Z; second : Z }.
(** [sscanf(s,"%4d-%2d-%2dT%2d:%2d:%2d%n",…)] with all six fields converted, and [n]. *)
Definition scan_civil (s : list Z) : option (civil * Z) :=
  '(y, t) ← scan_field 4 s; t ← scan_char 45 t; '(m, t) ← scan_field 2 t; t ← scan_char 45 t; '(d, t) ← scan_field 2 t;
  t ← scan_char 84 t; '(h, t) ← scan_field 2 t; t ← scan_char 58 t; '(mi, t) ← scan_field 2 t; t ← scan_char 58 t;
  '(sec, t) ← scan_field 2 t; Some (Civil y m d h mi sec, zlen s - zlen t).

Definition digit_positions : list Z := [0; 1; 2; 3; 5; 6; 8; 9; 11; 12; 14; 15; 17; 18].
Definition month_lengths : list Z := [31; 28; 31; 30; 31; 30; 31; 31; 30; 31; 30; 31].
Definition leap (y : Z) : bool := ((y mod 4 =? 0) && negb (y mod 100 =? 0)) || (y mod 400 =? 0).
Definition month_days (y m : Z) : Z := znth month_lengths (m - 1) + b2z ((m =? 2) && leap y).

(** The loop over the digits of the fraction: the milliseconds and digits so far. *)
Fixpoint fraction_loop (l : list Z) (millis digits : Z) : Z * Z * list Z :=
  match l with
  | c :: l' => if isdigit c then fraction_loop l' (if digits <? 3 then millis * 10 + (c - 48) else millis) (digits + 1)
               else (millis, digits, l)
  | [] => (millis, digits, [])
  end.
(** [while(digits++<3)millis*=10] *)
Fixpoint scale (n : nat) (millis : Z) : Z := match n with O => millis | S n => scale n (millis * 10) end.
(** The text from position 19: the milliseconds when it is an optional fraction and Z. *)
Definition scan_fraction (p : list Z) : option Z :=
  let r := match p with
           | c :: p' => if c =? 46 then let '(millis, digits, rest) := fraction_loop p' 0 0 in
                          if (digits =? 0) || (9 <? digits) then None else Some (scale (Z.to_nat (3 - digits)) millis, rest)
                        else Some (0, p)
           | [] => Some (0, [])
           end in
  '(millis, rest) ← r; if list_eqb rest [90] then Some millis else None.

(** The day number of a date, with the year starting in March; all operands are positive,
    so truncating division is [/]. *)
Definition civil_days (y m d : Z) : Z :=
  let adjusted := y - b2z (m <=? 2) in
  let era := adjusted / 400 in
  let yoe := adjusted - era * 400 in
  let shifted := m + (if 2 <? m then -3 else 9) in
  let doy := (153 * shifted + 2) / 5 + d - 1 in
  era * 146097 + yoe * 365 + yoe / 4 - yoe / 100 + doy - 719468.

(** [timestamp]: milliseconds since 1970, 0 for any other text. *)
Definition timestamp (s : option (list Z)) : Z :=
  match s with
  | None => 0
  | Some s =>
    if (zlen s <? 20) || (30 <? zlen s) then 0
    else match scan_civil s with
    | None => 0
    | Some (Civil y m d h mi sec, n) =>
      if negb (n =? 19) || negb (znth s 4 =? 45) || negb (znth s 7 =? 45) || negb (znth s 10 =? 84) || negb (znth s 13 =? 58) ||
         negb (znth s 16 =? 58) || (y <? 1970) || (9999 <? y) || (m <? 1) || (12 <? m) || (d <? 1) || (h <? 0) || (23 <? h) ||
         (mi <? 0) || (59 <? mi) || (sec <? 0) || (59 <? sec)
      then 0
      else if negb (forallb (fun i => isdigit (znth s i)) digit_positions) then 0
      else if month_days y m <? d then 0
      else match scan_fraction (zdrop 19 s) with
      | None => 0
      | Some millis => ((civil_days y m d * 24 + h) * 60 + mi) * 60000 + sec * 1000 + millis
      end
    end
  end.

(** ** The calendar *)

(** Days of the first [n] years from 1970, and of the first [n] months of a year. *)
Fixpoint days_of_years (n : nat) : Z :=
  match n with O => 0 | S n => days_of_years n + 365 + b2z (leap (1970 + Z.of_nat n)) end.
Fixpoint days_of_months (y : Z) (n : nat) : Z :=
  match n with O => 0 | S n => days_of_months y n + month_days y (Z.of_nat n + 1) end.
Definition calendar_days (y m d : Z) : Z :=
  days_of_years (Z.to_nat (y - 1970)) + days_of_months y (Z.to_nat (m - 1)) + (d - 1).
Definition civil_ok (c : civil) : Prop :=
  1970 <= year c <= 9999 /\ 1 <= month c <= 12 /\ 1 <= day c <= month_days (year c) (month c) /\
  0 <= hour c <= 23 /\ 0 <= minute c <= 59 /\ 0 <= second c <= 59.

(** A number in two and in four decimal digits. *)
Definition two (n : Z) : list Z := [48 + n / 10; 48 + n mod 10].
Definition four (n : Z) : list Z := two (n / 100) ++ two (n mod 100).
(** The spelling of a time with the digits [frac] of its fraction, none for no fraction. *)
Definition spell_civil (c : civil) : list Z :=
  four (year c) ++ [45] ++ two (month c) ++ [45] ++ two (day c) ++ [84] ++ two (hour c) ++ [58] ++ two (minute c) ++ [58] ++ two (second c).
Definition spell (c : civil) (frac : list Z) : list Z :=
  spell_civil c ++ (match frac with [] => [] | _ => 46 :: frac end) ++ [90].
Definition frac_ok (frac : list Z) : Prop := Forall dec_digit frac /\ zlen frac <= 9.
(** Whole milliseconds of a fraction. *)
Definition frac_millis (frac : list Z) : Z := dec_value frac 0 * 1000 / 10 ^ zlen frac.
Definition instant (c : civil) (frac : list Z) : Z :=
  ((calendar_days (year c) (month c) (day c) * 24 + hour c) * 60 + minute c) * 60000 + second c * 1000 + frac_millis frac.

(** ** The day number *)

Definition era_days (a : Z) : Z := 365 * a + a / 4 - a / 100 + a / 400.
Lemma era_days_eq a : 0 <= a ->
  a / 400 * 146097 + (a - a / 400 * 400) * 365 + (a - a / 400 * 400) / 4 - (a - a / 400 * 400) / 100 = era_days a.
Proof. unfold era_days. intros. Z.div_mod_to_equations. lia. Qed.
Lemma era_days_step y : 1 <= y -> era_days y = era_days (y - 1) + 365 + b2z (leap y).
Proof.
  intros. unfold era_days, leap.
  assert (E : forall k, 0 < k -> y / k = (y - 1) / k + b2z (y mod k =? 0)).
  { intros k Hk. destruct (Z.eqb_spec (y mod k) 0); cbn [b2z]; Z.div_mod_to_equations; nia. }
  rewrite (E 4), (E 100), (E 400) by lia.
  destruct (Z.eqb_spec (y mod 4) 0), (Z.eqb_spec (y mod 100) 0), (Z.eqb_spec (y mod 400) 0); cbn [b2z andb orb negb];
    solve [lia | Z.div_mod_to_equations; lia].
Qed.
Lemma days_of_years_eq n : days_of_years n = era_days (1969 + Z.of_nat n) - era_days 1969.
Proof.
  induction n as [|n IH]; cbn [days_of_years]; [rewrite Z.add_0_r; lia|].
  rewrite IH. rewrite (era_days_step (1969 + Z.of_nat (S n))) by lia.
  replace (1969 + Z.of_nat (S n) - 1) with (1969 + Z.of_nat n) by lia.
  replace (1969 + Z.of_nat (S n)) with (1970 + Z.of_nat n) by lia. lia.
Qed.
Lemma days_of_months_eq y m : 1 <= m <= 12 ->
  days_of_months y (Z.to_nat (m - 1)) =
  (153 * (m + (if 2 <? m then -3 else 9)) + 2) / 5 - (if 2 <? m then -59 - b2z (leap y) else 306).
Proof.
  intros Hm.
  assert (Hc : m = 1 \/ m = 2 \/ m = 3 \/ m = 4 \/ m = 5 \/ m = 6 \/ m = 7 \/ m = 8 \/ m = 9 \/ m = 10 \/ m = 11 \/ m = 12) by lia.
  repeat destruct Hc as [Hc | Hc]; subst m;
    match goal with |- days_of_months y ?n = _ => let v := eval compute in n in change n with v end;
    cbn [days_of_months]; unfold month_days; generalize (leap y); intros []; reflexivity.
Qed.
(** The number the code computes is the one the calendar counts. *)
Lemma civil_days_calendar y m d : 1970 <= y -> 1 <= m <= 12 -> civil_days y m d = calendar_days y m d.
Proof.
  intros Hy Hm. unfold civil_days, calendar_days. cbv zeta.
  rewrite era_days_eq by (destruct (m <=? 2); cbn [b2z]; lia).
  rewrite days_of_months_eq, days_of_years_eq by done. replace (1969 + Z.of_nat (Z.to_nat (y - 1970))) with (y - 1) by lia.
  change (era_days 1969) with 719162.
  destruct (Z.leb_spec m 2), (Z.ltb_spec 2 m); cbn [b2z]; try lia.
  replace (y - 0) with y by lia. rewrite (era_days_step y) by lia. lia.
Qed.

(** ** The text *)

Lemma isdigit_spec c : isdigit c = true <-> dec_digit c.
Proof. unfold isdigit, dec_digit. rewrite andb_true_iff, !Z.leb_le. lia. Qed.
Lemma digit_plain c : dec_digit c -> isspace c = false /\ (c =? 45) = false /\ (c =? 43) = false /\ isdigit c = true.
Proof. intros H. rewrite (proj2 (isdigit_spec c) H). unfold isspace, dec_digit in *. repeat split; lia. Qed.
Lemma scan_field_digits c ds rest w : Forall dec_digit (c :: ds) -> w = zlen (c :: ds) ->
  scan_field w ((c :: ds) ++ rest) = Some (dec_value (c :: ds) 0, rest).
Proof.
  intros H ->. assert (Hc : dec_digit c) by by inversion H. destruct (digit_plain c Hc) as (E1 & E2 & E3 & E4).
  assert (D : forall l acc, Forall dec_digit l -> strtol_digits l acc = (dec_value l acc, [])).
  { induction l as [|x l IH]; intros acc Hl; [done|]. inversion Hl; subst. cbn [strtol_digits].
    rewrite (proj2 (isdigit_spec x)) by done. by rewrite IH. }
  unfold scan_field. cbn [app skip_isspace]. rewrite E1. change (c :: ds ++ rest) with ((c :: ds) ++ rest).
  cbv zeta. rewrite (ztake_app_exact (c :: ds)) by done. rewrite E2, E3, E4, (D (c :: ds)) by done. cbn [fst snd].
  rewrite (zdrop_app_exact (c :: ds)); [done|]. change (zlen (@nil Z)) with 0. lia.
Qed.

Lemma dec_value_app a b acc : dec_value (a ++ b) acc = dec_value b (dec_value a acc).
Proof. unfold dec_value. by rewrite fold_left_app. Qed.
Lemma dec_value_acc l acc : dec_value l acc = acc * 10 ^ zlen l + dec_value l 0.
Proof.
  induction l as [|c l IH] using rev_ind; [unfold dec_value, zlen; simpl; lia|].
  rewrite !dec_value_app, zlen_snoc, Z.pow_add_r by (pose proof (zlen_nonneg l); lia).
  cbn [dec_value fold_left] in *. unfold dec_value in *. cbn [fold_left]. rewrite IH. lia.
Qed.
Lemma dec_value_range l : Forall dec_digit l -> 0 <= dec_value l 0 < 10 ^ zlen l.
Proof.
  induction l as [|c l IH] using rev_ind; [unfold dec_value, zlen; simpl; lia|].
  intros [Hl Hc]%Forall_app. inversion Hc as [|? ? Hd]; subst. unfold dec_digit in Hd. specialize (IH Hl).
  rewrite dec_value_app, zlen_snoc, Z.pow_add_r by (pose proof (zlen_nonneg l); lia). unfold dec_value in *. cbn [fold_left]. lia.
Qed.

Lemma fraction_loop_digits ds rest millis n : Forall dec_digit ds -> 0 <= n ->
  (forall c l, rest = c :: l -> isdigit c = false) ->
  fraction_loop (ds ++ rest) millis n = (dec_value (ztake (3 - n) ds) millis, n + zlen ds, rest).
Proof.
  intros H Hn Hr. revert millis n Hn. induction H as [|c ds Hc H IH]; intros millis n Hn.
  - rewrite zlen_nil, Z.add_0_r. cbn [app]. unfold ztake. rewrite take_nil.
    destruct rest as [|c l]; [done|]. cbn [fraction_loop]. by rewrite (Hr c l).
  - cbn [app fraction_loop]. rewrite (proj2 (isdigit_spec c) Hc). rewrite IH by lia. rewrite zlen_cons.
    do 2 f_equal; [|lia]. destruct (Z.ltb_spec n 3).
    + unfold ztake. replace (Z.to_nat (3 - n)) with (S (Z.to_nat (3 - (n + 1)))) by lia. done.
    + by rewrite !ztake_0 by lia.
Qed.
Lemma fraction_loop_split l millis n r : fraction_loop l millis n = r -> exists ds,
  l = ds ++ r.2 /\ Forall dec_digit ds /\ (forall c k, r.2 = c :: k -> isdigit c = false).
Proof.
  revert millis n. induction l as [|c l IH]; cbn [fraction_loop]; intros millis n E.
  - subst r. by exists [].
  - destruct (isdigit c) eqn:Hc.
    + destruct (IH _ _ E) as (ds & -> & Hd & Hr). exists (c :: ds). split; [done|]. split; [|done].
      constructor; [by apply isdigit_spec|done].
    + subst r. exists []. cbn [snd]. repeat split; [done|]. by intros ? ? [= -> ->].
Qed.
Lemma scale_eq n x : scale n x = x * 10 ^ Z.of_nat n.
Proof. revert x. induction n as [|n IH]; intros x; cbn [scale]; [simpl; lia|]. rewrite IH, Nat2Z.inj_succ, Z.pow_succ_r by lia. lia. Qed.
Lemma frac_long t r : zlen t = 3 -> Forall dec_digit r -> dec_value (t ++ r) 0 * 1000 / 10 ^ zlen (t ++ r) = dec_value t 0.
Proof.
  intros L H. pose proof (dec_value_range r H). pose proof (zlen_nonneg r). rewrite dec_value_app, dec_value_acc, zlen_app, L.
  rewrite Z.pow_add_r by lia. change (10 ^ 3) with 1000. rewrite (Z.mul_comm 1000), Z.div_mul_cancel_r by lia.
  rewrite Z.div_add_l, Z.div_small by lia. lia.
Qed.
Lemma frac_millis_eq ds : Forall dec_digit ds -> scale (Z.to_nat (3 - zlen ds)) (dec_value (ztake 3 ds) 0) = frac_millis ds.
Proof.
  intros H. unfold frac_millis. rewrite scale_eq. pose proof (zlen_nonneg ds) as Hn.
  destruct (Z.le_gt_cases (zlen ds) 3) as [L | L].
  - rewrite ztake_ge by lia. rewrite Z2Nat.id by lia. change 1000 with (10 ^ 3).
    replace 3 with ((3 - zlen ds) + zlen ds) at 2 by lia. rewrite Z.pow_add_r by lia.
    rewrite Z.mul_assoc, Z.div_mul by lia. done.
  - replace (Z.to_nat (3 - zlen ds)) with 0%nat by lia. cbn [Z.of_nat]. rewrite Z.pow_0_r, Z.mul_1_r.
    symmetry. rewrite <- (frac_long (ztake 3 ds) (zdrop 3 ds)); [by rewrite ztake_zdrop|rewrite zlen_take; lia|by apply Forall_drop].
Qed.
(** What the last part of [timestamp] accepts. *)
Definition frac_text (frac : list Z) : list Z := match frac with [] => [] | _ => 46 :: frac end ++ [90].
Lemma scan_fraction_text frac : frac_ok frac -> scan_fraction (frac_text frac) = Some (frac_millis frac).
Proof.
  intros [H L]. destruct frac as [|c ds]; [done|]. unfold scan_fraction, frac_text. cbn [app]. cbv zeta.
  change (46 =? 46) with true. cbv iota. change (c :: ds ++ [90]) with ((c :: ds) ++ [90]).
  rewrite (fraction_loop_digits (c :: ds)) by (done || lia || by intros ? ? [= <- <-]).
  rewrite Z.add_0_l, Z.sub_0_r. rewrite zlen_cons in *. pose proof (zlen_nonneg ds).
  destruct (Z.eqb_spec (1 + zlen ds) 0); [lia|]. destruct (Z.ltb_spec 9 (1 + zlen ds)); [lia|]. cbn [orb].
  rewrite <- (zlen_cons c ds), frac_millis_eq by done. done.
Qed.
Lemma scan_fraction_inv p millis : scan_fraction p = Some millis ->
  exists frac, frac_ok frac /\ p = frac_text frac /\ millis = frac_millis frac.
Proof.
  unfold scan_fraction. intros E. destruct p as [|c p]; [done|].
  destruct (Z.eqb_spec c 46) as [->|N].
  - destruct (fraction_loop p 0 0) as [[ms n] rest] eqn:F.
    destruct (fraction_loop_split _ _ _ _ F) as (ds & -> & Hd & Hr). cbn [snd] in *.
    rewrite fraction_loop_digits in F by (done || lia). injection F as <- <-.
    rewrite Z.add_0_l, Z.sub_0_r in E. destruct (_ || _) eqn:B; [done|]. cbn in E. destruct (list_eqb rest [90]) eqn:R; [|done]. bools. subst rest.
    injection E as <-. exists ds. split; [by split|]. split; [|by rewrite frac_millis_eq].
    destruct ds; [by rewrite zlen_nil in *|done].
  - unfold mbind, option_bind in E. destruct (list_eqb (c :: p) [90]) eqn:R; [|done]. apply list_eqb_eq in R. injection E as <-. exists []. repeat split; [by constructor|done..].
Qed.

Lemma two_spec n : 0 <= n <= 99 -> Forall dec_digit (two n) /\ dec_value (two n) 0 = n.
Proof.
  intros. unfold two, dec_value, dec_digit. cbn [fold_left]. split; [repeat constructor; Z.div_mod_to_equations; lia|Z.div_mod_to_equations; lia].
Qed.
Lemma two_digits a b : dec_digit a -> dec_digit b -> two ((a - 48) * 10 + (b - 48)) = [a; b] /\ 0 <= (a - 48) * 10 + (b - 48) <= 99.
Proof. unfold dec_digit, two. intros. split; [|lia]. repeat f_equal; Z.div_mod_to_equations; lia. Qed.
Lemma four_spec n : 0 <= n <= 9999 -> Forall dec_digit (four n) /\ dec_value (four n) 0 = n.
Proof.
  intros. unfold four. assert (0 <= n / 100 <= 99) by (Z.div_mod_to_equations; lia). pose proof (Z.mod_pos_bound n 100 ltac:(lia)).
  destruct (two_spec (n / 100)), (two_spec (n mod 100)); [lia..|]. split; [by apply Forall_app|].
  rewrite dec_value_app, dec_value_acc. change (zlen (two (n mod 100))) with 2. Z.div_mod_to_equations. lia.
Qed.
Lemma scan_two n rest : 0 <= n <= 99 -> scan_field 2 (two n ++ rest) = Some (n, rest).
Proof. intros H. destruct (two_spec n H) as [D V]. rewrite <- V at 2. unfold two in *. by apply scan_field_digits. Qed.
Lemma scan_four n rest : 0 <= n <= 9999 -> scan_field 4 (four n ++ rest) = Some (n, rest).
Proof. intros H. destruct (four_spec n H) as [D V]. rewrite <- V at 2. unfold four, two in *. cbn [app] in *. by apply (scan_field_digits _ [_; _; _]). Qed.

Definition fields_fit (c : civil) : Prop :=
  0 <= year c <= 9999 /\ 0 <= month c <= 99 /\ 0 <= day c <= 99 /\ 0 <= hour c <= 99 /\ 0 <= minute c <= 99 /\ 0 <= second c <= 99.
Lemma spell_civil_len c : zlen (spell_civil c) = 19.
Proof. done. Qed.
Lemma scan_spell c rest : fields_fit c -> scan_civil (spell_civil c ++ rest) = Some (c, 19).
Proof.
  destruct c as [y m d h mi sec]. unfold fields_fit. cbn [year month day hour minute second]. intros (Hy & Hm & Hd & Hh & Hmi & Hs).
  unfold scan_civil. rewrite zlen_app, spell_civil_len. unfold spell_civil. cbn [year month day hour minute second].
  rewrite <- !app_assoc. rewrite scan_four by done. cbn [mbind option_bind app]. change (scan_char 45 (45 :: ?l)) with (Some l).
  cbn [mbind option_bind scan_char Z.eqb Pos.eqb].
  repeat (rewrite scan_two by done; cbn [mbind option_bind app scan_char Z.eqb Pos.eqb]).
  do 2 f_equal. lia.
Qed.
Lemma digits_spell s : 20 <= zlen s -> znth s 4 = 45 -> znth s 7 = 45 -> znth s 10 = 84 -> znth s 13 = 58 -> znth s 16 = 58 ->
  forallb (fun i => isdigit (znth s i)) digit_positions = true -> exists c rest, s = spell_civil c ++ rest /\ fields_fit c.
Proof.
  intros L. do 19 (destruct s as [|? s]; [by rewrite ?zlen_cons, zlen_nil in L|]). clear L. unfold digit_positions. cbn [forallb].
  repeat match goal with |- context [znth ?l ?i] => let v := eval compute in (znth l i) in change (znth l i) with v end.
  intros -> -> -> -> -> D. repeat (apply andb_true_iff in D as [?%isdigit_spec D]). clear D.
  match goal with |- exists _ _, ?a :: ?b :: ?cc :: ?d :: _ :: ?e :: ?f :: _ :: ?g :: ?h :: _ :: ?i :: ?j :: _ :: ?k :: ?l :: _ :: ?m :: ?n :: s = _ /\ _ =>
    destruct (two_digits a b), (two_digits cc d), (two_digits e f), (two_digits g h), (two_digits i j), (two_digits k l), (two_digits m n); try done;
    set (v1 := (a - 48) * 10 + (b - 48)) in *; set (v2 := (cc - 48) * 10 + (d - 48)) in *; set (v3 := (e - 48) * 10 + (f - 48)) in *;
    set (v4 := (g - 48) * 10 + (h - 48)) in *; set (v5 := (i - 48) * 10 + (j - 48)) in *; set (v6 := (k - 48) * 10 + (l - 48)) in *;
    set (v7 := (m - 48) * 10 + (n - 48)) in *; clearbody v1 v2 v3 v4 v5 v6 v7
  end.
  exists (Civil (v1 * 100 + v2) v3 v4 v5 v6 v7), s. split; [|unfold fields_fit; cbn; lia].
  unfold spell_civil, four. cbn [year month day hour minute second].
  replace ((v1 * 100 + v2) / 100) with v1 by (Z.div_mod_to_equations; lia).
  replace ((v1 * 100 + v2) mod 100) with v2 by (Z.div_mod_to_equations; lia).
  repeat match goal with E : two ?v = _ |- context [two ?v] => rewrite E end. done.
Qed.

Lemma month_days_le y m : month_days y m <= 32.
Proof.
  unfold month_days. assert (znth month_lengths (m - 1) <= 31); [|destruct (_ && _); cbn [b2z]; lia].
  unfold znth, zget. destruct (_ <=? _); [|done]. destruct (month_lengths !! _) eqn:E; [|done].
  apply (Forall_lookup_1 (fun x => x <= 31) month_lengths _ _ ltac:(repeat constructor; lia) E).
Qed.
Lemma civil_ok_fit c : civil_ok c -> fields_fit c.
Proof.
  unfold civil_ok, fields_fit. intros (? & Hm & Hd & ?). pose proof (month_days_le (year c) (month c)). repeat split; lia.
Qed.
Lemma spell_split c frac : spell c frac = spell_civil c ++ frac_text frac.
Proof. done. Qed.
Lemma frac_text_len frac : frac_ok frac -> 1 <= zlen (frac_text frac) <= 11.
Proof.
  intros [_ L]. unfold frac_text. rewrite zlen_app. destruct frac as [|c l]; [done|]. rewrite !zlen_cons, zlen_nil in *.
  pose proof (zlen_nonneg l). lia.
Qed.
Lemma seps_of c rest : let s := spell_civil c ++ rest in
  znth s 4 = 45 /\ znth s 7 = 45 /\ znth s 10 = 84 /\ znth s 13 = 58 /\ znth s 16 = 58.
Proof. done. Qed.
Lemma digits_of c rest : fields_fit c -> forallb (fun i => isdigit (znth (spell_civil c ++ rest) i)) digit_positions = true.
Proof.
  intros (Hy & Hm & Hd & Hh & Hmi & Hs).
  destruct (four_spec _ Hy) as [D1 _], (two_spec _ Hm) as [D2 _], (two_spec _ Hd) as [D3 _], (two_spec _ Hh) as [D4 _],
    (two_spec _ Hmi) as [D5 _], (two_spec _ Hs) as [D6 _].
  unfold spell_civil, four, two in *. cbn [app] in *.
  repeat match goal with H : Forall dec_digit (_ :: _) |- _ => inversion_clear H as [|? ? ?%isdigit_spec ?] end.
  unfold digit_positions. cbn [forallb].
  repeat match goal with |- context [znth (?l1 :: ?l) ?i] =>
    let v := eval lazy [znth zget default lookup list_lookup Z.to_nat Pos.to_nat Pos.iter_op Nat.add Z.leb Z.compare Pos.compare from_option id] in
      (znth (l1 :: l) i) in change (znth (l1 :: l) i) with v end.
  repeat match goal with H : isdigit _ = true |- _ => rewrite H; clear H end. done.
Qed.

(** Every complete spelling is read as the instant it denotes. *)
Lemma timestamp_spell c frac : civil_ok c -> frac_ok frac -> timestamp (Some (spell c frac)) = instant c frac.
Proof.
  intros Hc Hf. pose proof (civil_ok_fit c Hc) as Fit. pose proof (frac_text_len frac Hf).
  unfold timestamp. rewrite spell_split, zlen_app, spell_civil_len.
  destruct (seps_of c (frac_text frac)) as (E1 & E2 & E3 & E4 & E5). rewrite E1, E2, E3, E4, E5.
  rewrite scan_spell, digits_of by done. rewrite (zdrop_app_exact (spell_civil c)), scan_fraction_text by done.
  destruct c as [y m d h mi sec]. unfold civil_ok in Hc. cbn [year month day hour minute second] in Hc.
  repeat match goal with |- context [?a <? ?b] => destruct (Z.ltb_spec a b); [lia|] end. rewrite !Z.eqb_refl. cbn [orb negb].
  unfold instant. cbn [year month day hour minute second]. by rewrite civil_days_calendar by lia.
Qed.

(** C26: [timestamp] accepts exactly the complete spellings of UTC times from 1970 to 9999
    (digits, separators, real dates, an optional fraction of one to nine digits, Z) and
    returns the milliseconds a calendar counts that adds up the days of all years and
    months before; every other text gives 0. *)
Theorem timestamp_exact s t : t <> 0 ->
  timestamp (Some s) = t <-> exists c frac, civil_ok c /\ frac_ok frac /\ s = spell c frac /\ t = instant c frac.
Proof.
  intros Ht. split.
  - intros <-. unfold timestamp in *. destruct (_ || _) eqn:L; [done|]. bools.
    destruct (scan_civil s) as [[c n]|] eqn:Sc; [|done]. destruct c as [y m d h mi sec].
    destruct (_ || _) eqn:B; [done|]. bools. destruct (negb _) eqn:D; [done|]. bools. destruct (_ <? _) eqn:M; [done|]. bools.
    destruct (scan_fraction _) as [ms|] eqn:F; [|done].
    destruct (digits_spell s) as (c' & rest & -> & Fit); [lia|done..|].
    rewrite scan_spell in Sc by done. injection Sc as -> <-. rewrite zdrop_app_exact in F by done.
    destruct (scan_fraction_inv _ _ F) as (frac & Hf & -> & ->). exists (Civil y m d h mi sec), frac.
    split; [repeat split; cbn; lia|]. split; [done|]. split; [done|]. unfold instant. cbn [year month day hour minute second].
    rewrite civil_days_calendar by lia. lia.
  - intros (c & frac & Hc & Hf & -> & ->). by apply timestamp_spell.
Qed.
Lemma timestamp_exact_witness :
  timestamp (Some (lit "2024-02-29T23:59:58.0625Z")) = 1709251198062 /\
  exists c frac, civil_ok c /\ frac_ok frac /\ lit "2024-02-29T23:59:58.0625Z" = spell c frac /\ 1709251198062 = instant c frac.
Proof. split; [vm_compute; reflexivity|]. apply (timestamp_exact (lit "2024-02-29T23:59:58.0625Z") 1709251198062); [lia|vm_compute; reflexivity]. Defined.

(** ** Times as the service writes them

    time.Time under encoding/json: RFC 3339 with the fraction's trailing zeros removed. *)

Fixpoint find_year (fuel : nat) (y d : Z) : Z * Z :=
  match fuel with
  | O => (y, d)
  | S fuel => let n := 365 + b2z (leap y) in if d <? n then (y, d) else find_year fuel (y + 1) (d - n)
  end.
Fixpoint find_month (fuel : nat) (y m d : Z) : Z * Z :=
  match fuel with
  | O => (m, d)
  | S fuel => let n := month_days y m in if d <? n then (m, d) else find_month fuel y (m + 1) (d - n)
  end.
Definition civil_of (ms : Z) : civil :=
  let s := ms / 1000 in
  let '(y, d) := find_year (Z.to_nat 8030) 1970 (s / 86400) in
  let '(m, d) := find_month 11 y 1 d in
  Civil y m (d + 1) (s / 3600 mod 24) (s / 60 mod 60) (s mod 60).
Definition millis_digits (n : Z) : list Z :=
  if n =? 0 then [] else if n mod 100 =? 0 then [48 + n / 100] else if n mod 10 =? 0 then two (n / 10) else (48 + n / 100) :: two (n mod 100).
Definition go_time (ms : Z) : list Z := spell (civil_of ms) (millis_digits (ms mod 1000)).

Lemma days_of_years_mono n m : (n <= m)%nat -> days_of_years n + 365 * (Z.of_nat m - Z.of_nat n) <= days_of_years m.
Proof. induction 1 as [|m _ IH]; [lia|]. cbn [days_of_years]. destruct (leap _); cbn [b2z]; lia. Qed.
Lemma find_year_spec fuel k d : 0 <= d -> days_of_years k + d < days_of_years (k + fuel) ->
  exists n, find_year fuel (1970 + Z.of_nat k) d = (1970 + Z.of_nat n, days_of_years k + d - days_of_years n) /\
    (k <= n < k + fuel)%nat /\ 0 <= days_of_years k + d - days_of_years n < 365 + b2z (leap (1970 + Z.of_nat n)).
Proof.
  revert k d. induction fuel as [|fuel IH]; intros k d Hd Hlt; [rewrite Nat.add_0_r in Hlt; lia|]. cbn [find_year]. cbv zeta.
  destruct (Z.ltb_spec d (365 + b2z (leap (1970 + Z.of_nat k)))) as [L | L].
  - exists k. split; [f_equal; lia|]. split; lia.
  - destruct (IH (S k) (d - (365 + b2z (leap (1970 + Z.of_nat k))))) as (n & E & Hn & Hr); [lia|cbn [days_of_years]; rewrite Nat.add_succ_comm; lia|].
    exists n. replace (1970 + Z.of_nat k + 1) with (1970 + Z.of_nat (S k)) by lia. rewrite E. cbn [days_of_years] in Hr |- *.
    split; [f_equal; lia|]. split; lia.
Qed.
Lemma month_days_pos y m : 1 <= m <= 12 -> 28 <= month_days y m.
Proof.
  intros. unfold month_days. assert (28 <= znth month_lengths (m - 1)); [|destruct (_ && _); cbn [b2z]; lia].
  assert (Hc : m = 1 \/ m = 2 \/ m = 3 \/ m = 4 \/ m = 5 \/ m = 6 \/ m = 7 \/ m = 8 \/ m = 9 \/ m = 10 \/ m = 11 \/ m = 12) by lia.
  repeat destruct Hc as [Hc | Hc]; subst m; vm_compute; congruence.
Qed.
Lemma find_month_spec y fuel k d : 0 <= d -> (k + fuel = 11)%nat -> days_of_months y k + d < days_of_months y 12 ->
  exists n, find_month fuel y (1 + Z.of_nat k) d = (1 + Z.of_nat n, days_of_months y k + d - days_of_months y n) /\
    (k <= n <= 11)%nat /\ 0 <= days_of_months y k + d - days_of_months y n < month_days y (1 + Z.of_nat n).
Proof.
  revert k d. induction fuel as [|fuel IH]; intros k d Hd Hf Hlt.
  - exists k. replace k with 11%nat in * by lia. cbn [find_month]. split; [f_equal; lia|]. split; [lia|].
    change (days_of_months y 12) with (days_of_months y 11 + month_days y (Z.of_nat 11 + 1)) in Hlt. rewrite (Z.add_comm (Z.of_nat 11)) in Hlt. lia.
  - cbn [find_month]. cbv zeta. destruct (Z.ltb_spec d (month_days y (1 + Z.of_nat k))) as [L | L].
    + exists k. split; [f_equal; lia|]. split; lia.
    + destruct (IH (S k) (d - month_days y (1 + Z.of_nat k))) as (n & E & Hn & Hr);
        [lia|lia|cbn [days_of_months] in *; rewrite (Z.add_comm (Z.of_nat k)); lia|].
      exists n. replace (1 + Z.of_nat k + 1) with (1 + Z.of_nat (S k)) by lia. rewrite E.
      cbn [days_of_months] in Hr |- *. rewrite (Z.add_comm (Z.of_nat k)) in *. split; [f_equal; lia|]. split; lia.
Qed.
Lemma year_months y : days_of_months y 12 = 365 + b2z (leap y).
Proof. cbn [days_of_months]. unfold month_days. generalize (leap y). intros []; reflexivity. Qed.


Lemma civil_of_spec ms : 0 <= ms < 253402300800000 ->
  civil_ok (civil_of ms) /\
  ((calendar_days (year (civil_of ms)) (month (civil_of ms)) (day (civil_of ms)) * 24 + hour (civil_of ms)) * 60 + minute (civil_of ms)) * 60000 +
    second (civil_of ms) * 1000 = ms / 1000 * 1000.
Proof.
  intros H. unfold civil_of. cbv zeta.
  set (s := ms / 1000). set (d := s / 86400).
  assert (Hs : 0 <= s < 253402300800) by (unfold s; Z.div_mod_to_equations; lia).
  assert (Hd : 0 <= d < 2932897) by (unfold d; Z.div_mod_to_equations; lia).
  destruct (find_year_spec (Z.to_nat 8030) 0 d) as (n & E & Hn & Hr); [lia| |].
  { rewrite (days_of_years_eq (0 + _)). change (Z.of_nat (0 + Z.to_nat 8030)) with 8030. change (era_days (1969 + 8030) - era_days 1969) with 2932897. cbn [days_of_years]. lia. }
  change (1970 + Z.of_nat 0) with 1970 in E. rewrite E. cbn [days_of_years] in Hr |- *. rewrite Z.add_0_l in *.
  set (y := 1970 + Z.of_nat n) in *. set (d' := d - days_of_years n) in *.
  destruct (find_month_spec y 11 0 d') as (k & E' & Hk & Hr'); [lia|done|rewrite year_months; cbn [days_of_months]; lia|].
  change (1 + Z.of_nat 0) with 1 in E'. rewrite E'. cbn [days_of_months] in Hr' |- *. rewrite Z.add_0_l in *.
  cbn [year month day hour minute second].
  pose proof (Z.mod_pos_bound (s / 3600) 24 ltac:(lia)). pose proof (Z.mod_pos_bound (s / 60) 60 ltac:(lia)). pose proof (Z.mod_pos_bound s 60 ltac:(lia)).
  split; [repeat split; cbn [year month day hour minute second]; lia|].
  unfold calendar_days. replace (Z.to_nat (y - 1970)) with n by (unfold y; lia). replace (Z.to_nat (1 + Z.of_nat k - 1)) with k by lia.
  replace (days_of_years n + days_of_months y k + (d' - days_of_months y k + 1 - 1)) with d by (unfold d'; lia).
  assert (s = ((d * 24 + s / 3600 mod 24) * 60 + s / 60 mod 60) * 60 + s mod 60); [|lia].
  unfold d. clear. Z.div_mod_to_equations. lia.
Qed.
Lemma millis_digits_spec n : 0 <= n < 1000 -> frac_ok (millis_digits n) /\ frac_millis (millis_digits n) = n.
Proof.
  intros H. unfold millis_digits. destruct (Z.eqb_spec n 0) as [->|N0]; [split; [split; [constructor|by vm_compute]|done]|].
  assert (D : forall k, 0 <= k <= 9 -> dec_digit (48 + k)) by (unfold dec_digit; lia).
  destruct (Z.eqb_spec (n mod 100) 0) as [E|N1]; [|destruct (Z.eqb_spec (n mod 10) 0) as [E|N2]]; unfold two;
    (split; [split; [repeat constructor; apply D; Z.div_mod_to_equations; lia|unfold zlen; cbn [length]; lia]|]);
    unfold frac_millis, zlen, dec_value; cbn [fold_left length]; rewrite ?Z.mul_0_l, ?Z.add_0_l.
  - change (10 ^ Z.of_nat 1) with 10. Z.div_mod_to_equations. lia.
  - change (10 ^ Z.of_nat 2) with 100. Z.div_mod_to_equations. lia.
  - change (10 ^ Z.of_nat 3) with 1000. Z.div_mod_to_equations. lia.
Qed.

(** A time the service writes, in milliseconds, is read back as the same number. *)
Lemma time_roundtrip ms : 0 <= ms < 253402300800000 -> timestamp (Some (go_time ms)) = ms.
Proof.
  intros H. destruct (civil_of_spec ms H) as [Hc E]. pose proof (Z.mod_pos_bound ms 1000 ltac:(lia)) as Hm.
  destruct (millis_digits_spec (ms mod 1000) Hm) as [Hf Ef]. unfold go_time. rewrite timestamp_spell by done.
  unfold instant. rewrite E, Ef. pose proof (Z.div_mod ms 1000 ltac:(lia)). lia.
Qed.
