(* ===== verification/Auth.v ===== *)
(** * Account credentials and their refresh

    src/sdk/c/remote/ob_auth.c: the credentials of a login session, the validity of
    credentials and of pending attempts, the service's replies, and the manager that
    rotates the credentials: [rotate] with the callbacks of the storage (begin, prepare,
    commit, end), the schedule, the bearer handed to requests and the background worker.
    The storage and the service live in a world [W] the operations thread through; the
    clocks, the random generator, cJSON and cancellation are arguments.

    A [char] array of the structures is its text, the bytes before the first NUL; an array
    without one has a text of its whole length, which no check accepts. *)

From stdpp Require Import relations.
From S2P Require Import Prelude.
From S2P Require Import Json Peer PeerCrypto Api Coordinator Ws Control AuthTime.
#[local] Open Scope Z_scope.
#[local] Arguments lit : simpl never.

Definition AUTH_MAX_GENERATION : Z := 9007199254740990.
Definition OB_API_STORAGE : Z := -8.
Definition OB_API_AUTH : Z := -9.
Definition OB_API_CANCELLED : Z := -10.

Record ob_auth_credentials := AuthCredentials {
  auth_session_id : list Z; token : list Z; refresh_token : list Z; generation : Z; token_expires_at_ms : Z; refresh_expires_at_ms : Z }.
#[export] Instance eta_credentials : Eta ob_auth_credentials :=
  fun c => AuthCredentials (auth_session_id c) (token c) (refresh_token c) (generation c) (token_expires_at_ms c) (refresh_expires_at_ms c).
Record ob_auth_pending := AuthPending {
  pending_session_id : list Z; request_id : list Z; expected_generation : Z; next_token : list Z; next_refresh_token : list Z }.
(** The structures after [memset] or [erase]. *)
Definition ob_auth_credentials_clear : ob_auth_credentials := AuthCredentials [] [] [] 0 0 0.
Definition ob_auth_pending_clear : ob_auth_pending := AuthPending [] [] 0 [] [].

(** [error]: the structure is written when the caller passed one; the code is returned. *)
Definition auth_error (code status : Z) (text : string) : ob_api_error := api_fail code status (lit text).

(** ** Validity *)

Definition hex (s : list Z) (n : Z) : bool := (zlen s =? n) && forallb hex_lower s.
(** A version 4 UUID in lower case. *)
Definition uuid (s : list Z) : bool :=
  (zlen s =? 36) && (znth s 14 =? 52) && existsb (Z.eqb (znth s 19)) (lit "89ab") && id_chars 0 s.
#[global] Opaque hex uuid.
Definition credentials_valid (c : ob_auth_credentials) : bool :=
  uuid (auth_session_id c) && hex (token c) 64 && hex (refresh_token c) 64 && negb (list_eqb (token c) (refresh_token c)) &&
  (0 <? generation c) && (generation c <=? AUTH_MAX_GENERATION) && (0 <? token_expires_at_ms c) && (0 <? refresh_expires_at_ms c).
Definition pending_valid (p : ob_auth_pending) (c : ob_auth_credentials) : bool :=
  uuid (pending_session_id p) && uuid (request_id p) && list_eqb (pending_session_id p) (auth_session_id c) &&
  (expected_generation p =? generation c) && hex (next_token p) 64 && hex (next_refresh_token p) 64 &&
  negb (list_eqb (next_token p) (next_refresh_token p)) && negb (list_eqb (next_token p) (token c)) &&
  negb (list_eqb (next_token p) (refresh_token c)) && negb (list_eqb (next_refresh_token p) (token c)) &&
  negb (list_eqb (next_refresh_token p) (refresh_token c)).

(** [random]: eighty bytes, [None] when RAND_bytes fails. *)
Definition new_pending (random : option (list Z)) (c : ob_auth_credentials) : option ob_auth_pending :=
  match random with
  | None => None
  | Some bytes =>
    let id := set_at bytes 6 (Z.lor (Z.land (znth bytes 6) 15) 64) in
    let id := set_at id 8 (Z.lor (Z.land (znth id 8) 63) 128) in
    let raw := ob_hex (ztake 16 id) in
    let rid := zsub 0 8 raw ++ [45] ++ zsub 8 4 raw ++ [45] ++ zsub 12 4 raw ++ [45] ++ zsub 16 4 raw ++ [45] ++ zsub 20 12 raw in
    let p := AuthPending (auth_session_id c) rid (generation c) (ob_hex (zsub 16 32 bytes)) (ob_hex (zsub 48 32 bytes)) in
    if pending_valid p c then Some p else None
  end.

(** ** Replies of the service *)

Section replies.
Context (parse : list Z -> option cj).

(** The loops over the members of an object: at most 32, no key twice. *)
Fixpoint fields_distinct (l : list (list Z * cj)) : bool :=
  match l with [] => true | (k, _) :: l => negb (existsb (fun kv => list_eqb k kv.1) l) && fields_distinct l end.
Definition auth_json (text : option (list Z)) : option (list (list Z * cj)) :=
  match text with
  | None => None
  | Some t =>
    if OB_API_MAX_RESPONSE_BYTES <? zlen t then None
    else if nul_scan (length t) false t then None
    else match parse t with
    | Some (CObj l) => if (zlen l <=? 32) && fields_distinct l then Some l else None
    | _ => None
    end
  end.
Definition text_of (j : option (list (list Z * cj))) (key : string) : option (list Z) :=
  l ← j; str (CObj l) (lit key).
Definition len_is (s : option (list Z)) (n : Z) : bool := match s with Some s => zlen s =? n | None => false end.

(** [ob_auth_credentials_parse]: a login reply. *)
Definition ob_auth_credentials_parse (body : option (list Z)) : ob_api_error + ob_auth_credentials :=
  let j := auth_json body in
  let sid := text_of j "auth_session_id" in
  let tok := text_of j "token" in
  let refresh := text_of j "refresh_token" in
  let bad := inl (auth_error OB_API_JSON 0 "Invalid account credential response") in
  if len_is sid 36 && len_is tok 64 && len_is refresh 64 then
    match ob_json_uint_field body (Some (lit "generation")) 1 AUTH_MAX_GENERATION with
    | None => bad
    | Some g =>
      let out := AuthCredentials (default [] sid) (default [] tok) (default [] refresh) g
                   (timestamp (text_of j "token_expires_at")) (timestamp (text_of j "refresh_expires_at")) in
      if credentials_valid out then inr out else bad
    end
  else bad.

Definition receipt_names : list (list Z) :=
  [lit "auth_session_id"; lit "generation"; lit "token_expires_at"; lit "refresh_expires_at"].
(** [receipt]: the credentials after the rotation, when the reply confirms it. *)
Definition receipt (body : option (list Z)) (before : ob_auth_credentials) (p : ob_auth_pending) : option ob_auth_credentials :=
  match auth_json body with
  | None => None
  | Some l =>
    let a := timestamp (text_of (Some l) "token_expires_at") in
    let r := timestamp (text_of (Some l) "refresh_expires_at") in
    if forallb (fun kv => existsb (list_eqb kv.1) receipt_names) l && fields_distinct l && (zlen l =? 4) &&
       bool_decide (text_of (Some l) "auth_session_id" = Some (auth_session_id before))
    then match ob_json_uint_field body (Some (lit "generation")) (generation before + 1) (generation before + 1) with
    | None => None
    | Some g =>
      if (0 <? a) && (0 <? r)
      then Some (AuthCredentials (auth_session_id before) (next_token p) (next_refresh_token p) g a r) else None
    end
    else None
  end.
End replies.

(** ** The manager *)

(** [am_session] and [am_before] are what the manager keeps of its options. *)
Record ob_auth_manager := AuthManager {
  am_credentials : ob_auth_credentials; am_pending : ob_auth_pending; am_has_pending : bool;
  am_next_due : Z; am_retry_after : Z; am_last_error : option ob_api_error; am_terminal : bool; am_failures : Z; am_stop : bool;
  am_session : list Z; am_before : Z }.
#[export] Instance eta_manager : Eta ob_auth_manager :=
  fun m => AuthManager (am_credentials m) (am_pending m) (am_has_pending m) (am_next_due m) (am_retry_after m) (am_last_error m)
             (am_terminal m) (am_failures m) (am_stop m) (am_session m) (am_before m).

(** The clocks and the random byte [schedule_locked] reads. *)
Record sched_env := SchedEnv { s_epoch : Z; s_mono : Z; s_random : option Z }.
Definition schedule_locked (v : sched_env) (m : ob_auth_manager) : ob_auth_manager :=
  let remaining := token_expires_at_ms (am_credentials m) - s_epoch v in
  let lead := if truth (am_before m) then am_before m else 600000 in
  let lead := if (0 <? remaining) && (remaining / 5 <? lead) then remaining / 5 else lead in
  let lead := if lead <? 1 then 1 else lead in
  let jitter := lead / 20 in
  let jitter := if 30000 <? jitter then 30000 else jitter in
  let jitter := if truth jitter then match s_random v with Some r => jitter * r / 255 | None => 0 end else 0 in
  m <| am_next_due := s_mono v + (if lead + jitter <? remaining then remaining - lead - jitter else 0) |> <| am_retry_after := 0 |>.

Definition same_credentials (a b : ob_auth_credentials) : bool :=
  (generation a =? generation b) && list_eqb (token a) (token b) && list_eqb (refresh_token a) (refresh_token b) &&
  (token_expires_at_ms a =? token_expires_at_ms b) && (refresh_expires_at_ms a =? refresh_expires_at_ms b).

(** The callbacks of the storage: each returns its result and the world it leaves. *)
Record storage (W : Type) := Storage {
  begin : ob_auth_credentials -> ob_auth_pending -> bool -> W -> Z * (ob_auth_credentials * ob_auth_pending * bool) * W;
  prepare : ob_auth_credentials -> ob_auth_pending -> W -> Z * W;
  commit : ob_auth_credentials -> ob_auth_pending -> W -> Z * W;
  end_ : W -> W }.
Arguments begin {W}. Arguments prepare {W}. Arguments commit {W}. Arguments end_ {W}. Arguments Storage {W}.

(** What one call of [rotate] reads: the rounds of its wait for the operation lock
    (cancelled?, result of trylock), cancellation at each later point, clocks, randomness. *)
Record rotate_env := RotateEnv {
  v_lock : list (bool * Z); v_cancel : bool; v_mono : Z; v_adopt : sched_env; v_adopt_mono : Z; v_epoch1 : Z; v_epoch2 : Z;
  v_random : option (list Z); v_cancel_send : bool; v_calloc : bool; v_cancel_sent : bool; v_commit : sched_env; v_done : Z }.

Definition EBUSY : Z := 16.
Definition cancelled_error : ob_api_error := auth_error OB_API_CANCELLED 0 "Account refresh cancelled".
(** The loop that takes the operation lock; [None] while it is still waiting. *)
Fixpoint take_lock (rounds : list (bool * Z)) : option (option ob_api_error) :=
  match rounds with
  | [] => None
  | (stopped, acquired) :: rounds =>
    if stopped then Some (Some cancelled_error)
    else if acquired =? 0 then Some None
    else if acquired =? EBUSY then take_lock rounds
    else Some (Some (auth_error OB_API_INVALID 0 "Account refresh coordination failed"))
  end.

Section manager.
Context {W : Type} (store : option (storage W)) (perform : request -> W -> transfer * W).
Context (parse : list Z -> option cj) (api_parse : list Z -> option cjson) (printer : jobject -> option (list Z)).

(** Adopt what the storage holds: an older or different copy of the same generation is
    refused, a newer one replaces the manager's.  The error, or whether it was adopted and
    whether a refresh is due. *)
Definition rotate_adopt (v : rotate_env) (working : ob_auth_credentials) (m : ob_auth_manager)
    : ob_api_error * ob_auth_manager + bool * bool * ob_auth_manager :=
  if negb (credentials_valid working) || negb (list_eqb (auth_session_id working) (am_session m))
  then inl (auth_error OB_API_AUTH 0 "Account authority changed; explicit login required", m)
  else if (generation working <? generation (am_credentials m)) ||
          ((generation working =? generation (am_credentials m)) && negb (same_credentials working (am_credentials m)))
  then inl (auth_error OB_API_STORAGE 0 "Credential storage is stale or inconsistent", m)
  else
    if generation (am_credentials m) <? generation working then
      let m := schedule_locked (v_adopt v)
                 (m <| am_credentials := working |> <| am_pending := ob_auth_pending_clear |> <| am_has_pending := false |>) in
      inr (true, am_next_due m <=? v_adopt_mono v, m)
    else inr (false, am_next_due m <=? v_mono v, m).

(** The attempt to send: the pending one when it fits the credentials, otherwise a new one
    the storage has prepared; [inl None] when nothing is due. *)
Definition rotate_choose (v : rotate_env) (force : bool) (requested : Z) (adopted due : bool)
    (working : ob_auth_credentials) (pending : ob_auth_pending) (has_pending : bool) (w : W)
    : option ob_api_error * W + ob_auth_pending * W :=
  let has_pending := has_pending && negb (expected_generation pending <? generation working) in
  if has_pending && negb (pending_valid pending working)
  then inl (Some (auth_error OB_API_STORAGE 0 "Invalid pending credential refresh"), w)
  else if has_pending then inr (pending, w)
  else if refresh_expires_at_ms working <=? v_epoch1 v
  then inl (Some (auth_error OB_API_AUTH 401 "Refresh authority expired; explicit login required"), w)
  else if (negb force || adopted || negb (generation working =? requested)) && negb due && (v_epoch2 v <? token_expires_at_ms working)
  then inl (None, w)
  else match new_pending (v_random v) working with
  | None => inl (Some (auth_error OB_API_CRYPTO 0 "Secure refresh credential generation failed"), w)
  | Some p =>
    match store with
    | None => inr (p, w)
    | Some st =>
      let r := prepare st working p w in
      if truth r.1 then inl (Some (auth_error OB_API_STORAGE 0 "Credential refresh preparation failed"), r.2) else inr (p, r.2)
    end
  end.

(** The body of the refresh request. *)
Definition refresh_body (working : ob_auth_credentials) (p : ob_auth_pending) : jobject :=
  [(lit "auth_session_id", JStr (auth_session_id working)); (lit "expected_generation", JNum (expected_generation p));
   (lit "request_id", JStr (request_id p)); (lit "next_token", JStr (next_token p)); (lit "next_refresh_token", JStr (next_refresh_token p))].
Definition refresh_request (working : ob_auth_credentials) (body : list Z) : request :=
  Request POST (lit "/v1/auth/refresh") (Some (refresh_token working)) (Some body).
(** The request on the manager's own client, which has no account: at most one transfer. *)
Definition send_refresh (v : rotate_env) (r : request) (w : W) : option ob_api_error * option (list Z) * W :=
  let a := ob_api_request_cancelled api_parse None None true (fun _ r => (perform r w).1) (v_calloc v) r in
  (a.1, match a.2 with sent :: _ => (perform sent w).2 | [] => w end).

(** Send the attempt, check the receipt, commit. *)
Definition rotate_send (v : rotate_env) (working : ob_auth_credentials) (p : ob_auth_pending) (m : ob_auth_manager) (w : W)
    : option ob_api_error * ob_auth_manager * W :=
  let m := m <| am_pending := p |> <| am_has_pending := true |> in
  if v_cancel_send v then (Some cancelled_error, m, w)
  else match printer (refresh_body working p) with
  | None => (Some (auth_error OB_API_NOMEM 0 "Allocation failed"), m, w)
  | Some body =>
    match send_refresh v (refresh_request working body) w with
    | (Some e, _, w) => (Some (if v_cancel_sent v then cancelled_error else e), m, w)
    | (None, response, w) =>
      match receipt parse response working p with
      | None => (Some (auth_error OB_API_JSON 0 "Invalid credential refresh receipt"), m, w)
      | Some after =>
        let r := match store with Some st => commit st after p w | None => (0, w) end in
        if truth r.1 then (Some (auth_error OB_API_STORAGE 0 "Credential refresh commit failed"), m, r.2)
        else (None, schedule_locked (v_commit v)
                      (m <| am_credentials := after |> <| am_pending := ob_auth_pending_clear |> <| am_has_pending := false |>), r.2)
      end
    end
  end.

(** From the lock to [done]: the error, the manager, the world and whether [begin] ran. *)
Definition rotate_body (v : rotate_env) (force : bool) (requested : Z) (m : ob_auth_manager) (w : W)
    : option ob_api_error * ob_auth_manager * W * bool :=
  if v_cancel v then (Some cancelled_error, m, w, false)
  else
    let r := match store with
             | Some st => begin st (am_credentials m) (am_pending m) (am_has_pending m) w
             | None => (0, (am_credentials m, am_pending m, am_has_pending m), w)
             end in
    let begun := bool_decide (is_Some store) in
    let '(rc, (working, pending, has_pending), w) := r in
    if truth rc then (Some (auth_error OB_API_STORAGE 0 "Credential storage coordination failed"), m, w, begun)
    else match rotate_adopt v working m with
    | inl (e, m) => (Some e, m, w, begun)
    | inr (adopted, due, m) =>
      match rotate_choose v force requested adopted due working pending has_pending w with
      | inl (e, w) => (e, m, w, begun)
      | inr (p, w) => (rotate_send v working p m w, begun)
      end
    end.

(** The common end: the error is remembered, failures are counted and delay the next try. *)
Definition rotate_done (now : Z) (want_error : bool) (result : option ob_api_error) (m : ob_auth_manager) : ob_auth_manager :=
  match result with
  | Some e =>
    let failures := if am_failures m <? 5 then am_failures m + 1 else am_failures m in
    m <| am_last_error := if want_error then Some e else am_last_error m |>
      <| am_terminal := (ae_code e =? OB_API_AUTH) || (want_error && ((http_status e =? 401) || (http_status e =? 403))) |>
      <| am_failures := failures |>
      <| am_retry_after := now + Z.shiftl 1 (failures - 1) * 1000 |>
  | None => m <| am_last_error := None |> <| am_terminal := false |> <| am_failures := 0 |> <| am_retry_after := 0 |>
  end.

Definition rotate (v : rotate_env) (force : bool) (requested : Z) (want_error : bool) (m : ob_auth_manager) (w : W)
    : option (option ob_api_error * ob_auth_manager * W) :=
  match take_lock (v_lock v) with
  | None => None
  | Some (Some e) => Some (Some e, m, w)
  | Some None =>
    let '(result, m, w, begun) := rotate_body v force requested m w in
    let w := match store with Some st => if begun then end_ st w else w | None => w end in
    Some (result, rotate_done (v_done v) want_error result m, w)
  end.

(** The clock readings of [refresh] after its first rotation, and both rotations. *)
Record refresh_env := RefreshEnv { f_first : rotate_env; f_epoch1 : Z; f_epoch2 : Z; f_second : rotate_env }.
Definition refresh (v : refresh_env) (force want_error : bool) (m : ob_auth_manager) (w : W)
    : option (option ob_api_error * ob_auth_manager * W) :=
  match rotate (f_first v) force (generation (am_credentials m)) want_error m w with
  | Some (None, m, w) =>
    let expired := token_expires_at_ms (am_credentials m) <=? f_epoch1 v in
    let live := f_epoch2 v <? refresh_expires_at_ms (am_credentials m) in
    if expired && live then rotate (f_second v) true (generation (am_credentials m)) want_error m w else Some (None, m, w)
  | r => r
  end.
Definition ob_auth_manager_refresh (v : refresh_env) (force want_error : bool) (m : option ob_auth_manager) (w : W)
    : option (option ob_api_error * option ob_auth_manager * W) :=
  match m with
  | None => Some (Some (auth_error OB_API_INVALID 0 "No account refresh manager"), None, w)
  | Some m => '(r, m, w) ← refresh v force want_error m w; Some (r, Some m, w)
  end.
Definition ob_auth_manager_snapshot (m : option ob_auth_manager) : ob_api_error + ob_auth_credentials :=
  match m with
  | None => inl (auth_error OB_API_INVALID 0 "Invalid account snapshot arguments")
  | Some m => inr (am_credentials m)
  end.

(** The token for a request of the account. *)
Record bearer_env := BearerEnv { b_cancel1 : bool; b_mono : Z; b_epoch1 : Z; b_refresh : refresh_env; b_epoch2 : Z; b_cancel2 : bool }.
Definition bearer_cancelled : ob_api_error := auth_error OB_API_CANCELLED 0 "Account request cancelled".
Definition bearer_token (v : bearer_env) (m : ob_auth_manager) : ob_api_error + list Z :=
  let expired := token_expires_at_ms (am_credentials m) <=? b_epoch2 v in
  if am_terminal m || expired then
    inl (match am_last_error m with Some e => e | None => auth_error OB_API_AUTH 401 "Account credentials expired; refresh required" end)
  else if b_cancel2 v then inl bearer_cancelled
  else inr (token (am_credentials m)).
Definition ob_auth_account_bearer (v : bearer_env) (want_error : bool) (m : ob_auth_manager) (w : W)
    : option ((ob_api_error + list Z) * ob_auth_manager * W) :=
  if b_cancel1 v then Some (inl bearer_cancelled, m, w)
  else
    let expired := token_expires_at_ms (am_credentials m) <=? b_epoch1 v in
    let attempt := ((am_next_due m <=? b_mono v) || bool_decide (is_Some store)) && (am_retry_after m <=? b_mono v) && negb (am_terminal m) in
    if attempt then
      match refresh (b_refresh v) false want_error m w with
      | None => None
      | Some (Some e, m, w) => if expired then Some (inl e, m, w) else Some (bearer_token v m, m, w)
      | Some (None, m, w) => Some (bearer_token v m, m, w)
      end
    else Some (bearer_token v m, m, w).

(** One round of the background thread: a rotation when one is due, else a short wait. *)
Definition worker_due (now : Z) (m : ob_auth_manager) : bool :=
  negb (am_terminal m) && (am_has_pending m || (am_next_due m <=? now)) && (am_retry_after m <=? now).
Definition worker_round (now : Z) (v : rotate_env) (m : ob_auth_manager) (w : W) : option (ob_auth_manager * W) :=
  if am_stop m then Some (m, w)
  else if worker_due now m then '(_, m, w) ← rotate v false 0 true m w; Some (m, w)
  else Some (m, w).
Definition ob_auth_manager_cancel (m : ob_auth_manager) : ob_auth_manager := m <| am_stop := true |>.
End manager.

(** ** Creation *)

Record auth_options := AuthOptions {
  o_struct_size : Z; o_version : Z; o_credentials : ob_auth_credentials; o_refresh_before_ms : Z; o_refresh_timeout_ms : Z;
  o_begin : bool; o_prepare : bool; o_commit : bool; o_end : bool }.
Definition AUTH_OPTIONS_SIZE : Z := 256.
Section create.
Context (pton4 : list Z -> option Z) (pton6 : list Z -> option (list Z)) (curl_url : list Z -> option url) (curl_ready : bool).

Definition auth_options_invalid (base_token : option (list Z)) (o : auth_options) : bool :=
  negb (o_struct_size o =? AUTH_OPTIONS_SIZE) || negb (o_version o =? 1) || negb (credentials_valid (o_credentials o)) ||
  (o_refresh_before_ms o <? 0) || (o_refresh_timeout_ms o <? 0) || (30000 <? o_refresh_timeout_ms o) ||
  match base_token with Some (c :: t) => negb (list_eqb (c :: t) (token (o_credentials o))) | _ => false end ||
  ((o_begin o || o_prepare o || o_commit o || o_end o) && negb (o_begin o && o_prepare o && o_commit o && o_end o)).
Definition new_manager (v : sched_env) (o : auth_options) : ob_auth_manager :=
  schedule_locked v (AuthManager (o_credentials o) ob_auth_pending_clear false 0 0 None false 0 false
                       (auth_session_id (o_credentials o)) (o_refresh_before_ms o)).
(** [base] and [o] may be NULL; [alloc1], [alloc2]: the allocations of the two clients,
    [alloc] the manager's, [ready] its locks and its thread. *)
Definition ob_api_client_create_with_auth (alloc1 alloc2 alloc ready : bool) (v : sched_env) (base : option ob_api_options) (o : option auth_options)
    : ob_api_error + (ob_api_client * ob_api_client * ob_auth_manager) :=
  let invalid := inl (auth_error OB_API_INVALID 0 "Invalid account refresh options") in
  match o with
  | None => invalid
  | Some o =>
    if auth_options_invalid (b ← base; tenant_token b) o then invalid
    else match base with
    | None => inl (auth_error OB_API_INVALID 0 "Invalid client options")
    | Some b =>
      match ob_api_client_create pton4 pton6 curl_url curl_ready alloc1 b with
      | inl e => inl e
      | inr c =>
        let nomem := inl (auth_error OB_API_NOMEM 0 "Account refresh initialization failed") in
        if negb alloc then inl (auth_error OB_API_NOMEM 0 "Allocation failed")
        else if negb ready then nomem
        else
          let transport := ApiOptions (base_url b) None (ca_file b)
                             (if truth (o_refresh_timeout_ms o) then o_refresh_timeout_ms o else 10000) in
          match ob_api_client_create pton4 pton6 curl_url curl_ready alloc2 transport with
          | inl _ => nomem
          | inr t => inr (ApiClient (cl_base c) None (cl_ca c) (cl_timeout c) (cl_resolve c), t, new_manager v o)
          end
      end
    end
  end.
End create.

(** ** What every rotation keeps

    The type of a manager: credentials of the session it was created for, a pending attempt
    that fits them, a bounded number of failures.  [receipt] accepts one generation more than
    [credentials_valid] does, hence the two bounds. *)

Definition credentials_ok (c : ob_auth_credentials) : Prop :=
  uuid (auth_session_id c) = true /\ hex (token c) 64 = true /\ hex (refresh_token c) 64 = true /\ token c <> refresh_token c /\
  0 < generation c <= AUTH_MAX_GENERATION + 1 /\ 0 < token_expires_at_ms c /\ 0 < refresh_expires_at_ms c.
Record manager_ok (m : ob_auth_manager) : Prop := {
  mo_credentials : credentials_ok (am_credentials m);
  mo_session : auth_session_id (am_credentials m) = am_session m;
  mo_pending : am_has_pending m = true -> pending_valid (am_pending m) (am_credentials m) = true;
  mo_failures : 0 <= am_failures m <= 5;
  mo_error : forall e, am_last_error m = Some e -> ae_code e <> 0 }.

Lemma credentials_valid_spec c : credentials_valid c = true <-> credentials_ok c /\ generation c <= AUTH_MAX_GENERATION.
Proof.
  unfold credentials_valid, credentials_ok. rewrite !andb_true_iff, negb_true_iff, list_eqb_neq, !Z.ltb_lt, !Z.leb_le.
  split.
  - intros (((((((H1 & H2) & H3) & H4) & H5) & H6) & H7) & H8). refine (conj (conj H1 (conj H2 (conj H3 (conj H4 (conj (conj H5 _) (conj H7 H8)))))) H6). clear -H6. lia.
  - intros ((H1 & H2 & H3 & H4 & (H5 & _) & H7 & H8) & H6). exact (conj (conj (conj (conj (conj (conj (conj H1 H2) H3) H4) H5) H6) H7) H8).
Qed.
Lemma pending_valid_spec p c : pending_valid p c = true <->
  uuid (pending_session_id p) = true /\ uuid (request_id p) = true /\ pending_session_id p = auth_session_id c /\
  expected_generation p = generation c /\ hex (next_token p) 64 = true /\ hex (next_refresh_token p) 64 = true /\
  next_token p <> next_refresh_token p /\ next_token p <> token c /\ next_token p <> refresh_token c /\
  next_refresh_token p <> token c /\ next_refresh_token p <> refresh_token c.
Proof. unfold pending_valid. rewrite !andb_true_iff, !negb_true_iff, !list_eqb_neq, list_eqb_eq, Z.eqb_eq. tauto. Qed.
Lemma new_pending_valid random c p : new_pending random c = Some p -> pending_valid p c = true.
Proof. unfold new_pending. destruct random; [|done]. cbv zeta. destruct (pending_valid _ c) eqn:E; [|done]. by intros [= <-]. Qed.
Lemma same_credentials_eq a b : same_credentials a b = true -> auth_session_id a = auth_session_id b -> a = b.
Proof. unfold same_credentials. intros H E. bools. destruct a, b. cbn in *. by subst. Qed.
(** What a receipt confirms: the next generation of the same session, with the tokens of
    the attempt. *)
Lemma receipt_spec parse body c p a : receipt parse body c p = Some a ->
  auth_session_id a = auth_session_id c /\ token a = next_token p /\ refresh_token a = next_refresh_token p /\
  generation a = generation c + 1 /\ 0 < token_expires_at_ms a /\ 0 < refresh_expires_at_ms a.
Proof.
  unfold receipt. destruct (auth_json _ _); [|done]. cbv zeta. destruct (_ && _); [|done].
  destruct (ob_json_uint_field _ _ _ _) as [g|] eqn:G; [|done]. apply uint_field_range in G.
  destruct (_ && _) eqn:B; [|done]. apply andb_prop in B as [B1%Z.ltb_lt B2%Z.ltb_lt]. intros [= <-].
  refine (conj eq_refl (conj eq_refl (conj eq_refl (conj _ (conj B1 B2))))). cbn [generation]. lia.
Qed.
Lemma receipt_ok parse body c p a : credentials_valid c = true -> pending_valid p c = true -> receipt parse body c p = Some a -> credentials_ok a.
Proof.
  intros [Hc Hg]%credentials_valid_spec Hp%pending_valid_spec (E1 & E2 & E3 & E4 & E5 & E6)%receipt_spec.
  unfold credentials_ok in *. rewrite E1, E2, E3, E4.
  destruct Hc as (H1 & _ & _ & _ & H2 & _), Hp as (_ & _ & _ & _ & H3 & H4 & H5 & _). refine (conj H1 (conj H3 (conj H4 (conj H5 (conj _ (conj E5 E6)))))). lia.
Qed.
Lemma schedule_keeps v m : let m' := schedule_locked v m in
  am_credentials m' = am_credentials m /\ am_pending m' = am_pending m /\ am_has_pending m' = am_has_pending m /\ am_session m' = am_session m /\
  am_failures m' = am_failures m /\ am_last_error m' = am_last_error m /\ am_terminal m' = am_terminal m /\ am_stop m' = am_stop m.
Proof. done. Qed.

Lemma request_raw_code parse tenant perform calloc r e : (request_raw parse tenant perform calloc r).1.1 = Some e -> ae_code e <> 0.
Proof.
  unfold request_raw. destruct (request_checks _ _ _) as [e'|tok] eqn:C.
  - intros [= <-]. revert C. unfold request_checks. cbv zeta. repeat (case_match; try done); by intros [= <-].
  - destruct (perform _) as [|cr|x]; [by intros [= <-]..|]. cbn [fst]. unfold response_checks. cbv zeta.
    repeat (case_match; try done); by intros [= <-].
Qed.

Section keeps.
Context {W : Type} (store : option (storage W)) (perform : request -> W -> transfer * W).
Context (parse : list Z -> option cj) (api_parse : list Z -> option cjson) (printer : jobject -> option (list Z)).

Lemma rotate_adopt_error v c m e m' : rotate_adopt v c m = inl (e, m') -> m' = m /\ ae_code e <> 0.
Proof. unfold rotate_adopt. repeat (case_match; try done); intros [= <- <-]; done. Qed.
Lemma rotate_adopt_spec v c m ad due m' : manager_ok m -> rotate_adopt v c m = inr (ad, due, m') ->
  manager_ok m' /\ am_credentials m' = c /\ credentials_valid c = true /\ generation (am_credentials m) <= generation c /\
  am_session m' = am_session m.
Proof.
  intros [M1 M2 M3 M4 M5]. unfold rotate_adopt. destruct (_ || _) eqn:V; [done|]. apply orb_false_iff in V as [V S].
  apply negb_false_iff in V, S. apply list_eqb_eq in S.
  destruct (_ || _) eqn:G; [done|]. apply orb_false_iff in G as [G1%Z.ltb_ge G2].
  destruct (Z.ltb_spec (generation (am_credentials m)) (generation c)) as [L|L].
  - intros [= _ _ <-]. split; [|split; [done|]; split; [done|]; split; [lia|done]].
    pose proof (proj1 (proj1 (credentials_valid_spec c) V)). by constructor.
  - rewrite (proj2 (Z.eqb_eq _ _)) in G2 by lia. apply negb_false_iff in G2.
    apply same_credentials_eq in G2; [|congruence]. subst c. intros [= _ _ <-]. split; [by constructor|]. split_and!; done || lia.
Qed.
Lemma rotate_choose_error v f g ad due c p hp w e w' : rotate_choose store v f g ad due c p hp w = inl (Some e, w') -> ae_code e <> 0.
Proof. unfold rotate_choose. cbv zeta. repeat (case_match; try done); intros [= <- <-]; done. Qed.
Lemma rotate_choose_valid v f g ad due c p hp w p' w' :
  rotate_choose store v f g ad due c p hp w = inr (p', w') -> pending_valid p' c = true.
Proof.
  unfold rotate_choose. cbv zeta. destruct (hp && _) eqn:H; cbn [andb].
  - destruct (pending_valid p c) eqn:V; cbn [negb]; [|done]. by intros [= <- <-].
  - repeat (case_match; try done); intros [= <- <-]; by eapply new_pending_valid.
Qed.
(** What sending the attempt [p] for the credentials [c] leaves. *)
Record sent (c : ob_auth_credentials) (p : ob_auth_pending) (m : ob_auth_manager) (r : option ob_api_error) (m' : ob_auth_manager) : Prop := {
  se_ok : manager_ok m';
  se_session : am_session m' = am_session m;
  se_code : forall e, r = Some e -> ae_code e <> 0;
  se_done : r = None -> generation (am_credentials m') = generation c + 1 /\ token (am_credentials m') = next_token p /\
              refresh_token (am_credentials m') = next_refresh_token p /\ am_has_pending m' = false;
  se_failed : is_Some r -> am_credentials m' = c /\ am_has_pending m' = true /\ am_pending m' = p }.
Lemma rotate_send_keeps v c p m w r m' w' : manager_ok m -> am_credentials m = c -> credentials_valid c = true -> pending_valid p c = true ->
  rotate_send store perform parse api_parse printer v c p m w = (r, m', w') -> sent c p m r m'.
Proof.
  intros [M1 M2 M3 M4 M5] Hc Hv Hp. unfold rotate_send. cbv zeta.
  set (m1 := m <| am_pending := p |> <| am_has_pending := true |>).
  assert (Hm : manager_ok m1) by (constructor; cbn; try done; congruence).
  assert (Hfail : forall e, ae_code e <> 0 -> sent c p m (Some e) m1).
  { intros e He. constructor; [done|done|by intros ? [= <-]|done|done]. }
  destruct (v_cancel_send v); [intros E; injection E as <- <- <-; by apply Hfail|].
  destruct (printer _); [|intros E; injection E as <- <- <-; by apply Hfail].
  destruct (send_refresh _ _ _ _ _) as [[[e|] resp] w1] eqn:Sd.
  - intros E; injection E as <- <- <-. apply Hfail. destruct (v_cancel_sent v); [done|].
    revert Sd. unfold send_refresh, ob_api_request_cancelled, refresh_request. cbn [rq_bearer]. intros [= Sd _].
    eapply request_raw_code. by rewrite Sd.
  - destruct (receipt _ _ _ _) as [a|] eqn:R; [|intros E; injection E as <- <- <-; by apply Hfail].
    destruct (truth _); [intros E; injection E as <- <- <-; by apply Hfail|].
    pose proof (receipt_ok _ _ _ _ _ Hv Hp R) as Ha. apply receipt_spec in R as (R1 & R2 & R3 & R4 & R5 & R6).
    intros E; injection E as <- <- <-. constructor; [|done|done|done|by intros [? ?]].
    constructor; cbn; try done. congruence.
Qed.
#[local] Abbreviation rotate := (rotate store perform parse api_parse printer).
#[local] Abbreviation refresh := (refresh store perform parse api_parse printer).

Lemma rotate_done_keeps now want r m : manager_ok m -> (forall e, r = Some e -> ae_code e <> 0) -> manager_ok (rotate_done now want r m).
Proof.
  intros [M1 M2 M3 M4 M5] Hr. destruct r as [e|]; constructor; cbn; try done.
  - destruct (Z.ltb_spec (am_failures m) 5); lia.
  - destruct want; [|done]. intros ? [= <-]. by apply Hr.
Qed.
Lemma rotate_done_credentials now want r m :
  am_credentials (rotate_done now want r m) = am_credentials m /\ am_session (rotate_done now want r m) = am_session m.
Proof. by destruct r. Qed.
Lemma rotate_body_keeps v f g m w r m' w' b : manager_ok m ->
  rotate_body store perform parse api_parse printer v f g m w = (r, m', w', b) ->
  manager_ok m' /\ am_session m' = am_session m /\ generation (am_credentials m) <= generation (am_credentials m') /\
  (forall e, r = Some e -> ae_code e <> 0).
Proof.
  intros Hm. unfold rotate_body. destruct (v_cancel v).
  { intros E. injection E as <- <- <- <-. split_and!; try done. by intros ? [= <-]. }
  cbv zeta. destruct (match store with Some _ => _ | None => _ end) as [[rc [[c p] hp]] w1]. cbn [fst snd].
  destruct (truth rc). { intros E. injection E as <- <- <- <-. split_and!; try done. by intros ? [= <-]. }
  destruct (rotate_adopt v c m) as [[e m1]|[[ad due] m1]] eqn:A.
  { apply rotate_adopt_error in A as [-> He]. intros E. injection E as <- <- <- <-. split_and!; try done. by intros ? [= <-]. }
  apply rotate_adopt_spec in A as (Hm1 & Hc & Hv & Hg & Hs); [|done].
  destruct (rotate_choose _ _ _ _ _ _ _ _ _ _) as [[e w2]|[q w2]] eqn:C.
  { intros E. injection E as <- <- <- <-. rewrite Hc. split_and!; try done. intros e' ->. by eapply rotate_choose_error. }
  apply rotate_choose_valid in C. destruct (rotate_send _ _ _ _ _ _ _ _ _ _) as [[r1 m2] w3] eqn:S.
  intros E. injection E as <- <- <- <-. destruct (rotate_send_keeps _ _ _ _ _ _ _ _ Hm1 Hc Hv C S) as [S1 S2 S3 S4 S5].
  split; [done|]. split; [congruence|]. split; [|done].
  destruct r1 as [e|]; [destruct S5 as (-> & _); [done|lia]|destruct S4 as (-> & _); [done|lia]].
Qed.
Lemma rotate_keeps v f g want m w r m' w' : manager_ok m -> rotate v f g want m w = Some (r, m', w') ->
  manager_ok m' /\ am_session m' = am_session m /\ generation (am_credentials m) <= generation (am_credentials m').
Proof.
  intros Hm. unfold Auth.rotate. destruct (take_lock _) as [[e|]|]; [|destruct (rotate_body _ _ _ _ _ _ _ _ _ _) as [[[r1 m1] w1] b] eqn:B|done].
  - intros [= <- <- <-]. done.
  - destruct (rotate_body_keeps _ _ _ _ _ _ _ _ _ Hm B) as (K1 & K2 & K3 & K4).
    intros E. injection E as <- <- <-. destruct (rotate_done_credentials (v_done v) want r1 m1) as [-> ->].
    split; [by apply rotate_done_keeps|done].
Qed.

(** The life of a manager: rotations, which the operation lock serialises, cancellation,
    and whatever else happens in the world. *)
Inductive manager_step : ob_auth_manager * W -> ob_auth_manager * W -> Prop :=
  | step_rotate v f g want m w r m' w' : rotate v f g want m w = Some (r, m', w') -> manager_step (m, w) (m', w')
  | step_cancel m w : manager_step (m, w) (ob_auth_manager_cancel m, w)
  | step_world m w w' : manager_step (m, w) (m, w').
Lemma steps_keep s s' : rtc manager_step s s' -> manager_ok s.1 ->
  manager_ok s'.1 /\ am_session s'.1 = am_session s.1 /\ generation (am_credentials s.1) <= generation (am_credentials s'.1).
Proof.
  induction 1 as [s|s t s' Hs _ IH]; intros Hm; [done|].
  assert (K : manager_ok t.1 /\ am_session t.1 = am_session s.1 /\ generation (am_credentials s.1) <= generation (am_credentials t.1)).
  { destruct Hs as [v f g want m w r m' w' E|m w|m w w']; [by eapply rotate_keeps| |done].
    destruct Hm. by split; [constructor|]. }
  destruct K as (K1 & K2 & K3), (IH K1) as (I1 & I2 & I3). split; [done|]. split; [congruence|lia].
Qed.
(** The other operations are made of such steps. *)
Lemma refresh_steps v f want m w r m' w' : refresh v f want m w = Some (r, m', w') -> rtc manager_step (m, w) (m', w').
Proof.
  unfold Auth.refresh. destruct (rotate _ _ _ _ _ _) as [[[[e|] m1] w1]|] eqn:R; [|cbv zeta|done].
  - intros [= <- <- <-]. by eapply rtc_once, step_rotate.
  - destruct (_ && _); [|intros [= <- <- <-]; by eapply rtc_once, step_rotate].
    intros R2. eapply rtc_l; [by eapply step_rotate|]. by eapply rtc_once, step_rotate.
Qed.
Lemma bearer_steps v want m w r m' w' : ob_auth_account_bearer store perform parse api_parse printer v want m w = Some (r, m', w') ->
  rtc manager_step (m, w) (m', w').
Proof.
  unfold ob_auth_account_bearer. destruct (b_cancel1 v); [by intros [= <- <- <-]|]. cbv zeta.
  destruct (_ && _ && _); [|by intros [= <- <- <-]]. destruct (refresh _ _ _ _ _) as [[[[e|] m1] w1]|] eqn:R; [destruct (_ <=? _)| |done];
    intros [= <- <- <-]; by eapply refresh_steps.
Qed.
Lemma worker_steps now v m w m' w' : worker_round store perform parse api_parse printer now v m w = Some (m', w') -> rtc manager_step (m, w) (m', w').
Proof.
  unfold worker_round. destruct (am_stop m); [by intros [= <- <-]|]. destruct (worker_due now m); [|by intros [= <- <-]].
  destruct (rotate _ _ _ _ _ _) as [[[r m1] w1]|] eqn:R; [|done]. intros [= <- <-]. by eapply rtc_once, step_rotate.
Qed.
End keeps.
Arguments manager_step {W}.

Lemma new_manager_ok base v o : auth_options_invalid base o = false -> manager_ok (new_manager v o).
Proof.
  intros Ho. unfold auth_options_invalid in Ho. bools. constructor; cbn; try done. by apply credentials_valid_spec.
Qed.

(** A login to evaluate the definitions on. *)
Definition sample_session : list Z := lit "11111111-2222-4333-8444-555555555555".
Definition sample_credentials : ob_auth_credentials :=
  AuthCredentials sample_session (replicate 64 97) (replicate 64 98) 7 1700000600000 1700086400000.
Definition sample_options : auth_options := AuthOptions 256 1 sample_credentials 0 0 false false false false.
Definition sample_sched : sched_env := SchedEnv 1700000000000 5000 (Some 255).
Definition sample_manager : ob_auth_manager := new_manager sample_sched sample_options.
Definition sample_rotate : rotate_env :=
  RotateEnv [(false, EBUSY); (false, 0)] false 6000 sample_sched 0 1700000001000 1700000001000 (Some (map Z.of_nat (seq 1 80))) false true false sample_sched 7000.
Definition lost_transfer (r : request) (w : unit) : transfer * unit := (Performed (Exchange [] 7 0), w).
Definition sample_printer (j : jobject) : option (list Z) := Some (lit "{}").
Definition sample_api_parse (t : list Z) : option cjson := Some Null.
Definition no_json (t : list Z) : option cj := None.
Definition after_rotate : ob_auth_manager :=
  match rotate None lost_transfer no_json sample_api_parse sample_printer sample_rotate true 7 true sample_manager tt with
  | Some (_, m, _) => m | None => sample_manager end.
Example lost_response_keeps_attempt :
  am_has_pending after_rotate = true /\ am_failures after_rotate = 1 /\ am_retry_after after_rotate = 8000 /\
  ae_code <$> am_last_error after_rotate = Some OB_API_TRANSPORT.
Proof. vm_compute. done. Qed.

(** The storage's [begin] is called with the manager's pending attempt and flag, not with a
    cleared flag: here it records the flag it was given. *)
Definition spy_storage : storage bool := Storage (fun c p h _ => (1, (c, p, h), h)) (fun _ _ w => (1, w)) (fun _ _ w => (1, w)) (fun w => w).
Example begin_sees_pending :
  option_map snd (rotate (Some spy_storage) (fun _ w => (SetupNomem, w)) no_json sample_api_parse sample_printer sample_rotate false 0 true after_rotate false)
    = Some true.
Proof. vm_compute. reflexivity. Qed.

(** C27: A manager created with valid options keeps its type whatever the storage, the
    service and the scheduler do: credentials of the session it was created for with
    well-formed distinct tokens, a pending attempt that fits those credentials, a bounded
    failure count; and the generation of the credentials never goes back. *)
Theorem manager_typed {W : Type} (store : option (storage W)) perform parse api_parse printer base v o w m w' :
  auth_options_invalid base o = false ->
  rtc (manager_step store perform parse api_parse printer) (new_manager v o, w) (m, w') ->
  manager_ok m /\ am_session m = auth_session_id (o_credentials o) /\ generation (o_credentials o) <= generation (am_credentials m).
Proof.
  intros Ho Hs. apply (steps_keep _ _ _ _ _ _ _ Hs). by eapply new_manager_ok.
Qed.
Lemma manager_typed_witness :
  manager_ok after_rotate /\ am_session after_rotate = sample_session /\ 7 <= generation (am_credentials after_rotate).
Proof.
  apply (manager_typed None lost_transfer no_json sample_api_parse sample_printer None sample_sched sample_options tt after_rotate tt).
  - vm_compute. reflexivity.
  - apply rtc_once. eapply (step_rotate _ _ _ _ _ sample_rotate true 7 true). vm_compute. reflexivity.
Defined.

(** What uses the account without the application asking for a refresh: requests that need a
    token, rounds of the background thread, and the cancellation of the manager. *)
Inductive account_use := UseBearer (v : bearer_env) (want_error : bool) | UseWorker (now : Z) (v : rotate_env) | UseCancel.
Section uses.
Context {W : Type} (store : option (storage W)) (perform : request -> W -> transfer * W).
Context (parse : list Z -> option cj) (api_parse : list Z -> option cjson) (printer : jobject -> option (list Z)).
(** The tokens handed out, the manager and the world; [None] when a lock is never obtained. *)
Fixpoint account_uses (us : list account_use) (m : ob_auth_manager) (w : W) : option (list (list Z) * ob_auth_manager * W) :=
  match us with
  | [] => Some ([], m, w)
  | UseBearer v want :: us =>
    '(r, m, w) ← ob_auth_account_bearer store perform parse api_parse printer v want m w;
    '(ts, m, w) ← account_uses us m w;
    Some (match r with inr t => t :: ts | inl _ => ts end, m, w)
  | UseWorker now v :: us => '(m, w) ← worker_round store perform parse api_parse printer now v m w; account_uses us m w
  | UseCancel :: us => account_uses us (ob_auth_manager_cancel m) w
  end.

Lemma bearer_refused v want m w : am_terminal m = true ->
  exists e, ob_auth_account_bearer store perform parse api_parse printer v want m w = Some (inl e, m, w).
Proof.
  intros T. unfold ob_auth_account_bearer, bearer_token. rewrite T, andb_false_r. cbn [orb]. destruct (b_cancel1 v); by eexists.
Qed.
Lemma worker_refused now v m w : am_terminal m = true -> worker_round store perform parse api_parse printer now v m w = Some (m, w).
Proof. intros T. unfold worker_round, worker_due. rewrite T. cbn [negb andb]. by destruct (am_stop m). Qed.
Lemma refused_uses us m w : am_terminal m = true -> exists b, account_uses us m w = Some ([], m <| am_stop := b |>, w).
Proof.
  revert m. induction us as [|[v want|now v|] us IH]; intros m T; cbn [account_uses].
  - exists (am_stop m). by destruct m.
  - destruct (bearer_refused v want m w T) as [e ->]. destruct (IH m T) as [b E]. exists b. cbn. by rewrite E.
  - rewrite worker_refused by done. by apply IH.
  - destruct (IH (ob_auth_manager_cancel m) T) as [b ->]. exists b. by destruct m.
Qed.
End uses.

Definition sample_bearer : bearer_env := BearerEnv false 6000 1700000001000 (RefreshEnv sample_rotate 0 0 sample_rotate) 1700000002000 false.
(** The service refuses the refresh: no token, now and later. *)
Definition refusing_transfer (r : request) (w : nat) : transfer * nat := (Performed (Exchange [] 0 401), S w).
Definition due_bearer : bearer_env := BearerEnv false 2000000 1700000001000 (RefreshEnv sample_rotate 0 0 sample_rotate) 1700000002000 false.
Definition refused_manager : ob_auth_manager :=
  match ob_auth_account_bearer None refusing_transfer no_json sample_api_parse sample_printer due_bearer true (sample_manager <| am_next_due := 0 |> <| am_has_pending := true |> <| am_pending := am_pending after_rotate |>) 0%nat with
  | Some (_, m, _) => m | None => sample_manager end.
Example refusal_is_marked : am_terminal refused_manager = true.
Proof. vm_compute. reflexivity. Qed.

(** The refresh is scheduled while the access token is still valid: it is due at least one
    millisecond before the token expires, not before three quarters of the remaining time
    unless the caller asked for less, and at once when the token has expired. *)
Theorem schedule_bounds v m : 0 <= am_before m -> (forall r, s_random v = Some r -> byte r) ->
  let remaining := token_expires_at_ms (am_credentials m) - s_epoch v in
  let delay := am_next_due (schedule_locked v m) - s_mono v in
  (remaining <= 0 -> delay = 0) /\ (5 <= remaining -> 3 * remaining / 4 - 1 <= delay < remaining) /\ 0 <= delay /\
  am_retry_after (schedule_locked v m) = 0.
Proof.
  intros Hb Hr. unfold schedule_locked. cbv zeta. cbn [am_next_due am_retry_after upd].
  set (rem := token_expires_at_ms (am_credentials m) - s_epoch v). clearbody rem.
  set (l0 := if truth (am_before m) then am_before m else 600000).
  assert (H0 : 1 <= l0) by (unfold l0, truth; destruct (Z.eqb_spec (am_before m) 0); cbn; lia). clearbody l0.
  set (l1 := if (0 <? rem) && (rem / 5 <? l0) then rem / 5 else l0).
  assert (H1 : 0 <= l1 /\ (0 < rem -> l1 <= rem / 5) /\ (rem <= 0 -> 1 <= l1)).
  { unfold l1. destruct (Z.ltb_spec 0 rem), (Z.ltb_spec (rem / 5) l0); cbn [andb]; try lia. Z.div_mod_to_equations. lia. }
  clearbody l1. set (l := if l1 <? 1 then 1 else l1).
  assert (H2 : 1 <= l /\ (5 <= rem -> l <= rem / 5)).
  { unfold l. destruct (Z.ltb_spec l1 1); split; try lia. intros. Z.div_mod_to_equations. lia. }
  clearbody l. set (j0 := if 30000 <? l / 20 then 30000 else l / 20).
  assert (H3 : 0 <= j0 <= l / 20) by (unfold j0; destruct (Z.ltb_spec 30000 (l / 20)); Z.div_mod_to_equations; lia). clearbody j0.
  set (j := if truth j0 then match s_random v with Some r => j0 * r / 255 | None => 0 end else 0).
  assert (H4 : 0 <= j <= j0).
  { unfold j. destruct (truth j0); [|lia]. destruct (s_random v) as [r|]; [|lia]. specialize (Hr r eq_refl). unfold byte in Hr.
    split; [apply Z.div_pos; nia|]. apply Z.div_le_upper_bound; nia. }
  clearbody j. destruct (Z.ltb_spec (l + j) rem); split_and!; try (intros; Z.div_mod_to_equations; lia); done.
Qed.
Lemma schedule_bounds_witness :
  let delay := am_next_due sample_manager - 5000 in 3 * 600000 / 4 - 1 <= delay < 600000.
Proof.
  apply (schedule_bounds sample_sched sample_manager); [by vm_compute|intros r [= <-]; unfold byte; lia|vm_compute; congruence].
Defined.
