(* ===== verification/AuthService.v ===== *)
(** * The other two parties of a credential refresh

    The account service's handler [refreshAuth] (src/internal/control/auth_refresh.go) with the
    rows it reads and writes, and the command line's credential storage [profileAuthStorage]
    (src/internal/cli/auth_store.go), which implements the callbacks of the C manager of
    Auth.v with a profile file and a journal.  The three together are a distributed
    transaction; a script says which operation fails, before or after its effect, and where
    the process dies.  SHA-256, JSON encoding and the clocks are arguments. *)

From stdpp Require Import relations.
From S2P Require Import Prelude.
From S2P Require Import Json Peer Api Ws Control AuthTime Auth.
#[local] Open Scope Z_scope.
#[local] Arguments lit : simpl never.

(** ** The service *)

Module Service.
Record authSession := AuthSession {
  ID : list Z; Tenant : list Z; Version : Z; Generation : Z; RefreshHash : list Z; TokenHash : list Z; TokenExpiry : Z; RefreshExpiry : Z;
  AbsoluteExpiry : Z; Revoked : list Z; PreviousRefresh : list Z; LastRequest : list Z; ExpectedGeneration : Z; NextToken : list Z;
  NextRefresh : list Z; ReceiptTokenExpiry : Z; ReceiptRefreshExpiry : Z }.
Record token_row := TokenRow { tk_hash : list Z; tk_account : bool; tk_tenant : list Z; tk_version : Z; tk_expires : Z; tk_session : list Z }.
Record tenant_row := TenantRow { tn_id : list Z; tn_version : Z; tn_status : list Z }.
Record database := Database { auth_sessions : list authSession; tokens : list token_row; tenants : list tenant_row }.
Record config := Config { AuthRefreshTTL : Z; AccountTokenTTL : Z; AuthAccessOverlap : Z }.
(** The decoded body; a missing [expected_generation] is a nil pointer. *)
Record refresh_body := RefreshBody {
  rb_session : list Z; rb_expected : option Z; rb_request : list Z; rb_next_token : list Z; rb_next_refresh : list Z }.
Record authReceipt := AuthReceipt { rc_session : list Z; rc_generation : Z; rc_token_expires : Z; rc_refresh_expires : Z }.
(** The clock at the checks of the expiry and at the rotation; [ck_sql] when a statement
    of the transaction fails, which then is rolled back. *)
Record clock := Clock { ck_now1 : Z; ck_now2 : Z; ck_at : Z; ck_sql : bool }.

Definition validConnectionID (id : list Z) : bool := ob_valid_id (Some id).
Definition validAuthID (id : list Z) : bool :=
  validConnectionID id && (znth id 14 =? 52) && existsb (Z.eqb (znth id 19)) (lit "89ab").
Definition validConnectionToken (t : list Z) : bool := (zlen t =? 64) && forallb hex_lower t.
#[global] Opaque validAuthID validConnectionToken.

Definition readAuthSession (db : database) (id : list Z) : option authSession :=
  List.find (fun a => list_eqb (ID a) id) (auth_sessions db).
Definition failure : Type := Z * list Z.
Definition authFailure (code : Z) (reason : string) : failure := (code, lit reason).
Definition checkAuthSession (t : clock) (db : database) (a : authSession) (pending : bool) : option failure :=
  if negb (list_eqb (Revoked a) []) then Some (authFailure 401 "refresh_revoked")
  else if (RefreshExpiry a <=? ck_now1 t) || (negb (AbsoluteExpiry a =? 0) && (AbsoluteExpiry a <=? ck_now2 t))
  then Some (authFailure 401 "refresh_expired")
  else match List.find (fun n => list_eqb (tn_id n) (Tenant a)) (tenants db) with
  | None => Some (authFailure 401 "refresh_revoked")
  | Some n =>
    if negb (tn_version n =? Version a) ||
       (negb (list_eqb (tn_status n) (lit "active")) && negb (pending && list_eqb (tn_status n) (lit "pending")))
    then Some (authFailure 401 "refresh_revoked") else None
  end.

Section refresh.
Context (tokenHash : list Z -> list Z) (cfg : config).

(** Candidates some row already uses. *)
Definition used (db : database) (next nextRefresh : list Z) : bool :=
  let hit h := list_eqb h next || list_eqb h nextRefresh in
  existsb (fun r => hit (tk_hash r)) (tokens db) ||
  existsb (fun a => hit (RefreshHash a) || hit (PreviousRefresh a) || hit (TokenHash a)) (auth_sessions db).
(** The session's row after a rotation. *)
Definition rotated (a : authSession) (b : refresh_body) (hash : list Z) (tokenExpiry refreshExpiry : Z) : authSession :=
  let next := tokenHash (rb_next_token b) in
  let nextRefresh := tokenHash (rb_next_refresh b) in
  AuthSession (ID a) (Tenant a) (Version a) (Generation a + 1) nextRefresh next tokenExpiry refreshExpiry (AbsoluteExpiry a)
    (Revoked a) hash (rb_request b) (Generation a) next nextRefresh tokenExpiry refreshExpiry.
(** The statements of the transaction. *)
Definition rotate_rows (t : clock) (a : authSession) (b : refresh_body) (hash : list Z) (tokenExpiry refreshExpiry : Z) (db : database) : database :=
  let next := tokenHash (rb_next_token b) in
  let overlap := Z.min (TokenExpiry a) (ck_at t + AuthAccessOverlap cfg) in
  let rows := List.filter (fun r => negb (tk_account r && list_eqb (tk_session r) (ID a) && negb (list_eqb (tk_hash r) (TokenHash a)))) (tokens db) in
  let rows := map (fun r => if list_eqb (tk_hash r) (TokenHash a) && tk_account r
                            then TokenRow (tk_hash r) (tk_account r) (tk_tenant r) (tk_version r) overlap (tk_session r) else r) rows in
  let rows := rows ++ [TokenRow next true (Tenant a) (Version a) tokenExpiry (ID a)] in
  let row := rotated a b hash tokenExpiry refreshExpiry in
  Database (map (fun s => if list_eqb (ID s) (ID a) then row else s) (auth_sessions db)) rows (tenants db).
(** [refreshAuth]: the receipt or the failure, and the rows after it.  [body] is [None] when
    the decoder refuses it, [proof] the bearer. *)
Definition refreshAuth (t : clock) (body : option refresh_body) (proof : list Z) (db : database) : (failure + authReceipt) * database :=
  match body with
  | None => (inl (400, lit "invalid JSON body"), db)
  | Some b =>
    if negb (validAuthID (rb_session b)) || negb (validAuthID (rb_request b)) ||
       match rb_expected b with None => true | Some g => g =? 0 end ||
       negb (validConnectionToken (rb_next_token b)) || negb (validConnectionToken (rb_next_refresh b)) ||
       list_eqb (rb_next_token b) (rb_next_refresh b) || list_eqb (rb_next_token b) proof || list_eqb (rb_next_refresh b) proof
    then (inl (400, lit "invalid refresh request"), db)
    else if negb (validConnectionToken proof) then (inl (authFailure 401 "refresh_invalid"), db)
    else if ck_sql t then (inl (500, lit "internal server error"), db)
    else match readAuthSession db (rb_session b) with
    | None => (inl (authFailure 401 "refresh_invalid"), db)
    | Some a =>
      let expected := default 0 (rb_expected b) in
      let hash := tokenHash proof in
      let next := tokenHash (rb_next_token b) in
      let nextRefresh := tokenHash (rb_next_refresh b) in
      if negb (list_eqb hash (RefreshHash a)) && negb (list_eqb hash (PreviousRefresh a))
      then (inl (authFailure 401 "refresh_invalid"), db)
      else match checkAuthSession t db a true with
      | Some f => (inl f, db)
      | None =>
        if list_eqb hash (PreviousRefresh a) then
          if negb (list_eqb (rb_request b) (LastRequest a)) || negb (expected =? ExpectedGeneration a) || negb (list_eqb next (NextToken a)) ||
             negb (list_eqb nextRefresh (NextRefresh a)) || negb (Generation a =? ExpectedGeneration a + 1)
          then (inl (authFailure 409 "auth_conflict"), db)
          else (inr (AuthReceipt (ID a) (Generation a) (ReceiptTokenExpiry a) (ReceiptRefreshExpiry a)), db)
        else if negb (expected =? Generation a) || list_eqb (rb_request b) (LastRequest a) then (inl (authFailure 409 "auth_conflict"), db)
        else if 2147483647 <=? Generation a then (inl (authFailure 409 "auth_conflict"), db)
        else if used db next nextRefresh then (inl (400, lit "refresh candidates must be fresh"), db)
        else
          let refreshExpiry := ck_at t + AuthRefreshTTL cfg in
          let refreshExpiry := if negb (AbsoluteExpiry a =? 0) then Z.min refreshExpiry (AbsoluteExpiry a) else refreshExpiry in
          let tokenExpiry := Z.min (ck_at t + AccountTokenTTL cfg) refreshExpiry in
          (inr (AuthReceipt (ID a) (Generation a + 1) tokenExpiry refreshExpiry), rotate_rows t a b hash tokenExpiry refreshExpiry db)
      end
    end
  end.
End refresh.

(** The receipt as encoding/json writes it. *)
Definition quoted (s : list Z) : list Z := [34] ++ s ++ [34].
Definition receipt_text (r : authReceipt) : list Z :=
  [123] ++ quoted (lit "auth_session_id") ++ [58] ++ quoted (rc_session r) ++ [44] ++ quoted (lit "generation") ++ [58] ++ decimal (rc_generation r) ++
  [44] ++ quoted (lit "token_expires_at") ++ [58] ++ quoted (go_time (rc_token_expires r)) ++ [44] ++ quoted (lit "refresh_expires_at") ++ [58] ++
  quoted (go_time (rc_refresh_expires r)) ++ [125; 10].
End Service.

(** ** The storage of the command line *)

Module Profile.
(** The profile file: the service's address, the account, the login unless logged out. *)
Record profile := MkProfile { pf_api : list Z; pf_account : list Z; pf_auth : option ob_auth_credentials }.
(** [refreshPendingRecord], the journal file. *)
Record journal := Journal { jr_version : Z; jr_api : list Z; jr_account : list Z; jr_pending : ob_auth_pending }.
#[export] Instance pending_eq : EqDecision ob_auth_pending.
Proof. solve_decision. Defined.

(** The zero time of Go, in milliseconds. *)
Definition ZERO_TIME : Z := -62135596800000.
Definition validAuthUUID (id : list Z) : bool := ob_valid_id (Some id).
Definition validAuthSecret (s : list Z) : bool := (zlen s =? 64) && forallb hex_lower s.
#[global] Opaque validAuthUUID validAuthSecret.
(** What [validateAuthProfile] asks of the login; the account's name is no part of the model. *)
Definition validateAuthProfile (c : ob_auth_credentials) : bool :=
  validAuthUUID (auth_session_id c) && negb (generation c =? 0) && validAuthSecret (token c) && validAuthSecret (refresh_token c) &&
  negb (list_eqb (token c) (refresh_token c)) && negb (token_expires_at_ms c =? ZERO_TIME) && negb (refresh_expires_at_ms c =? ZERO_TIME).

(** How an operation on a file or the network ends: done, failed with no effect, or
    reported as failed although it took effect. *)
Inductive io := Done | FailBefore | FailAfter.
(** The fate of one callback or request: the process may die before or after it. *)
Record fate := Fate { x_crash : bool; x_io : nat -> io; x_crash_after : bool; x_clock : Service.clock }.
Definition no_clock : Service.clock := Service.Clock 0 0 0 false.
Definition calm : fate := Fate false (fun _ => Done) false no_clock.

(** Both files, the service's rows, and the process: what its [profileAuthStorage] holds
    ([current], [attempt]), whether it is dead, and what is to happen to it. *)
Record world := World {
  w_profile : profile; w_journal : option journal; w_db : Service.database;
  w_current : ob_auth_credentials; w_attempt : option ob_auth_pending; w_dead : bool; w_script : list fate }.
#[export] Instance eta_world : Eta world :=
  fun w => World (w_profile w) (w_journal w) (w_db w) (w_current w) (w_attempt w) (w_dead w) (w_script w).
Definition die (b : bool) (w : world) : world := if b then w <| w_dead := true |> else w.
(** Run [op] with the next fate of the script; a dead process does nothing. *)
Definition act {A} (refused : A) (op : fate -> world -> A * world) (w : world) : A * world :=
  if w_dead w then (refused, w)
  else match w_script w with
  | [] => op calm w
  | x :: xs =>
    if x_crash x then (refused, w <| w_dead := true |> <| w_script := xs |>)
    else let r := op x (w <| w_script := xs |>) in (r.1, die (x_crash_after x) r.2)
  end.

(** Write or remove a file: whether it is reported as done, and the file afterwards. *)
Definition effect {A} (o : io) (before after : A) : bool * A :=
  match o with Done => (true, after) | FailBefore => (false, before) | FailAfter => (false, after) end.

Section storage.
(** What the storage was created for. *)
Context (api account sessionID : list Z).

Definition journal_valid (j : journal) : bool :=
  let p := jr_pending j in
  (jr_version j =? 1) && list_eqb (jr_api j) api && list_eqb (jr_account j) account && list_eqb (pending_session_id p) sessionID &&
  validAuthUUID (request_id p) && negb (expected_generation p =? 0) && validAuthSecret (next_token p) && validAuthSecret (next_refresh_token p) &&
  negb (list_eqb (next_token p) (next_refresh_token p)).
(** [Begin] behind the Go bridge: the C structures are written only on success, the pending
    one only when there is an attempt. *)
Definition Begin (c : ob_auth_credentials) (p : ob_auth_pending) (h : bool) : world -> Z * (ob_auth_credentials * ob_auth_pending * bool) * world :=
  act (1, (c, p, h)) (fun x w =>
    let failed := (1, (c, p, h)) in
    match x_io x 0%nat with
    | Done =>
      match pf_auth (w_profile w) with
      | None => (failed, w)
      | Some auth =>
        if negb (list_eqb (pf_api (w_profile w)) api) || negb (list_eqb (pf_account (w_profile w)) account) ||
           negb (list_eqb (auth_session_id auth) sessionID) || negb (validateAuthProfile auth)
        then (failed, w)
        else
          let w := w <| w_current := auth |> <| w_attempt := None |> in
          match w_journal w with
          | None => ((0, (auth, p, false)), w)
          | Some j =>
            if negb match x_io x 1%nat with Done => true | _ => false end then (failed, w)
            else if negb (journal_valid j) then (failed, w)
            else
              let q := jr_pending j in
              if expected_generation q <? generation auth then
                let r := effect (x_io x 2%nat) (Some j) None in
                (if r.1 then (0, (auth, p, false)) else failed, w <| w_journal := r.2 |>)
              else if negb (expected_generation q =? generation auth) then (failed, w)
              else ((0, (auth, q, true)), w <| w_attempt := Some q |>)
          end
      end
    | _ => (failed, w)
    end).
Definition Prepare (c : ob_auth_credentials) (p : ob_auth_pending) : world -> Z * world :=
  act 1 (fun x w =>
    let cur := w_current w in
    if negb (list_eqb (auth_session_id c) sessionID) || negb (list_eqb (pending_session_id p) sessionID) ||
       negb (generation c =? generation cur) || negb (expected_generation p =? generation c) ||
       negb (list_eqb (token c) (token cur)) || negb (list_eqb (refresh_token c) (refresh_token cur)) ||
       negb (validAuthUUID (request_id p)) || negb (validAuthSecret (next_token p)) || negb (validAuthSecret (next_refresh_token p)) ||
       list_eqb (next_token p) (next_refresh_token p) || list_eqb (next_token p) (token c) || list_eqb (next_refresh_token p) (refresh_token c)
    then (1, w)
    else if match w_attempt w with Some q => negb (bool_decide (q = p)) | None => false end then (1, w)
    else
      let r := effect (x_io x 0%nat) (w_journal w) (Some (Journal 1 api account p)) in
      let w := w <| w_journal := r.2 |> in
      if r.1 then (0, w <| w_attempt := Some p |>) else (1, w)).
Definition Commit (c : ob_auth_credentials) (p : ob_auth_pending) : world -> Z * world :=
  act 1 (fun x w =>
    if negb (bool_decide (w_attempt w = Some p)) || negb (list_eqb (auth_session_id c) sessionID) ||
       negb (generation c =? expected_generation p + 1) || negb (list_eqb (token c) (next_token p)) ||
       negb (list_eqb (refresh_token c) (next_refresh_token p))
    then (1, w)
    else match x_io x 0%nat with
    | Done =>
      let latest := w_profile w in
      match pf_auth latest with
      | None => (1, w)
      | Some auth =>
        if negb (list_eqb (pf_api latest) api) || negb (list_eqb (pf_account latest) account) ||
           negb (list_eqb (auth_session_id auth) sessionID) || negb (generation auth =? expected_generation p)
        then (1, w)
        else if negb (validateAuthProfile c) then (1, w)
        else
          let r := effect (x_io x 1%nat) latest (MkProfile (pf_api latest) (pf_account latest) (Some c)) in
          let w := w <| w_profile := r.2 |> in
          if negb r.1 then (1, w)
          else
            let w := w <| w_current := c |> in
            let r := effect (x_io x 2%nat) (w_journal w) None in
            let w := w <| w_journal := r.2 |> in
            if r.1 then (0, w <| w_attempt := None |>) else (1, w)
      end
    | _ => (1, w)
    end).
(** [End] releases the profile's lock. *)
Definition End (w : world) : world := w.
Definition profileAuthStorage : storage world := Storage Begin Prepare Commit End.
End storage.
End Profile.

(** ** The three parties together *)

Import Profile.

Section system.
Context (tokenHash : list Z -> list Z) (cfg : Service.config).
(** Go's decoder on the body of the request; the text of an error reply. *)
Context (decode : list Z -> option Service.refresh_body) (error_text : Service.failure -> list Z).
Context (parse : list Z -> option cj) (api_parse : list Z -> option cjson) (printer : jobject -> option (list Z)).
Context (api account sessionID : list Z).

(** A request on the network: it may be lost, or its reply.  Only the route of the refresh
    is served here. *)
Definition lost : transfer := Performed (Exchange [] 28 0).
Definition served (t : Service.clock) (r : request) (db : Service.database) : transfer * Service.database :=
  if list_eqb (rq_method r) POST && list_eqb (rq_path r) (lit "/v1/auth/refresh") then
    match Service.refreshAuth tokenHash cfg t (b ← rq_body r; decode b) (default [] (rq_bearer r)) db with
    | (inl f, db) => (Performed (Exchange [BodyChunk true (error_text f)] 0 f.1), db)
    | (inr c, db) => (Performed (Exchange [BodyChunk true (Service.receipt_text c)] 0 200), db)
    end
  else (Performed (Exchange [] 0 404), db).
Definition network (r : request) : world -> transfer * world :=
  act lost (fun x w =>
    match x_io x 0%nat with
    | FailBefore => (lost, w)
    | o => let a := served (x_clock x) r (w_db w) in
           (match o with FailAfter => lost | _ => a.1 end, w <| w_db := a.2 |>)
    end).

Abbreviation disk := (profileAuthStorage api account sessionID).
Definition system_rotate := rotate (Some disk) network parse api_parse printer.

(** The part of the service's row a refresh depends on. *)
Definition authority (db : Service.database) : option (Z * list Z * list Z * (list Z * list Z * Z * list Z * list Z)) :=
  a ← Service.readAuthSession db sessionID;
  Some (Service.Generation a, Service.RefreshHash a, Service.TokenHash a,
        (Service.PreviousRefresh a, Service.LastRequest a, Service.ExpectedGeneration a, Service.NextToken a, Service.NextRefresh a)).
(** A process takes the profile's lock with a storage and a script of its own. *)
Definition enter (current : ob_auth_credentials) (attempt : option ob_auth_pending) (script : list fate) (w : world) : world :=
  w <| w_current := current |> <| w_attempt := attempt |> <| w_dead := false |> <| w_script := script |>.
(** The system moves when some process, with any manager in its memory, rotates under the
    lock, and when the service changes anything but the authority of this session
    (expiry, revocation, other sessions, other rows). *)
Inductive system_step : world -> world -> Prop :=
  | sys_rotate current attempt script m v force requested want r m' w w' :
      system_rotate v force requested want m (enter current attempt script w) = Some (r, m', w') -> system_step w w'
  | sys_service db w : authority db = authority (w_db w) -> system_step w (w <| w_db := db |>).

(** The profile and the service agree, or the service is one rotation ahead and the journal
    holds exactly that rotation. *)
Record agree (c : ob_auth_credentials) (a : Service.authSession) : Prop := {
  ag_generation : Service.Generation a = generation c;
  ag_refresh : Service.RefreshHash a = tokenHash (refresh_token c);
  ag_token : Service.TokenHash a = tokenHash (token c) }.
Record ahead (c : ob_auth_credentials) (p : ob_auth_pending) (a : Service.authSession) : Prop := {
  ah_generation : Service.Generation a = generation c + 1;
  ah_refresh : Service.RefreshHash a = tokenHash (next_refresh_token p);
  ah_token : Service.TokenHash a = tokenHash (next_token p);
  ah_previous : Service.PreviousRefresh a = tokenHash (refresh_token c);
  ah_request : Service.LastRequest a = request_id p;
  ah_expected : Service.ExpectedGeneration a = generation c;
  ah_next : Service.NextToken a = tokenHash (next_token p);
  ah_next_refresh : Service.NextRefresh a = tokenHash (next_refresh_token p) }.
Record authority_held (w : world) (c : ob_auth_credentials) (a : Service.authSession) : Prop := {
  au_api : pf_api (w_profile w) = api;
  au_account : pf_account (w_profile w) = account;
  au_profile : pf_auth (w_profile w) = Some c;
  au_session : auth_session_id c = sessionID;
  au_row : Service.readAuthSession (w_db w) sessionID = Some a;
  au_case : agree c a \/ exists p, w_journal w = Some (Journal 1 api account p) /\ pending_valid p c = true /\ ahead c p a }.
Definition held (w : world) : Prop := exists c a, authority_held w c a.

(** What survives the process. *)
Definition durable (w : world) : profile * option journal * Service.database := (w_profile w, w_journal w, w_db w).
Lemma held_durable w w' c a : durable w' = durable w -> authority_held w c a -> authority_held w' c a.
Proof. unfold durable. intros [= E1 E2 E3] [H1 H2 H3 H4 H5 H6]. constructor; rewrite ?E1, ?E2, ?E3; done. Qed.
Lemma act_inv {A} (refused : A) op w r w' : act refused op w = (r, w') ->
  (r = refused /\ durable w' = durable w /\ w_attempt w' = w_attempt w) \/
  exists x xs b w1, op x (w <| w_script := xs |>) = (r, w1) /\ w' = die b w1.
Proof.
  unfold act. destruct (w_dead w); [intros [= <- <-]; by left|].
  destruct (w_script w) as [|x xs] eqn:S; [|destruct (x_crash x)].
  - intros E. right. exists calm, [], false, w'. split; [|done]. rewrite <- E. f_equal. destruct w. cbn in *. by rewrite S.
  - intros [= <- <-]. by left.
  - cbv zeta. intros E. right. exists x, xs, (x_crash_after x), (op x (w <| w_script := xs |>)).2.
    injection E as <- <-. split; [apply surjective_pairing|done].
Qed.
Lemma die_durable b w : durable (die b w) = durable w.
Proof. by destruct b. Qed.
Lemma die_attempt b w : w_attempt (die b w) = w_attempt w.
Proof. by destruct b. Qed.
Lemma journal_valid_eq j : journal_valid api account sessionID j = true -> j = Journal 1 api account (jr_pending j).
Proof. destruct j. unfold journal_valid. cbn. intros H. bools. by subst. Qed.

(** What [Begin] found: the journal's attempt, or none. *)
Definition found (w : world) (c : ob_auth_credentials) (p : ob_auth_pending) (h : bool) : Prop :=
  if h then w_journal w = Some (Journal 1 api account p) /\ w_attempt w = Some p /\ expected_generation p = generation c
  else w_journal w = None /\ w_attempt w = None.
(** [Begin] keeps the authority; when it succeeds it hands out the profile, and either the
    journal's attempt or the news that there is none. *)
Lemma begin_held c0 p0 h0 w rc c p h w' cw aw : authority_held w cw aw -> Begin api account sessionID c0 p0 h0 w = (rc, (c, p, h), w') ->
  authority_held w' cw aw /\
  (rc = 0 -> c = cw /\ found w' c p h).
Proof.
  intros Hh [([= -> -> -> ->] & D & _)|(x & xs & b & w1 & E & ->)]%act_inv; [by split; [eapply held_durable|]|].
  assert (Hd : forall w2, durable w2 = durable w -> authority_held (die b w2) cw aw).
  { intros w2 D. eapply held_durable; [|done]. by rewrite die_durable. }
  revert E. cbv zeta beta. destruct (x_io x 0%nat); [|intros [= <- <- <- <- <-]; by split; [apply Hd|]..].
  cbn [w_profile upd]. rewrite (au_profile _ _ _ Hh). destruct (_ || _); [intros [= <- <- <- <- <-]; by split; [apply Hd|]|].
  cbn [w_journal upd]. destruct (w_journal w) as [j|] eqn:J; assert (Hd' : forall w2, durable w2 = (w_profile w, w_journal w, w_db w) -> authority_held (die b w2) cw aw) by done; rewrite J in Hd'.
  2: { intros [= <- <- <- <- <-]. split; [by apply Hd'|]. intros _. split; [done|]. unfold die. by destruct b. }
  destruct (negb _); [intros [= <- <- <- <- <-]; by split; [apply Hd'|]|].
  destruct (journal_valid _ _ _ j) eqn:V; cbn [negb]; [|intros [= <- <- <- <- <-]; by split; [apply Hd'|]].
  apply journal_valid_eq in V. destruct (Z.ltb_spec (expected_generation (jr_pending j)) (generation cw)) as [L|L].
  - assert (Hj : forall o, authority_held (die b (w <| w_script := xs |> <| w_current := cw |> <| w_attempt := None |> <| w_journal := o |>)) cw aw).
    { intros o. destruct Hh as [H1 H2 H3 H4 H5 H6]. destruct H6 as [H6|(q & Hq & Hv & _)].
      - destruct b; constructor; by try left.
      - exfalso. rewrite J in Hq. injection Hq as ->. apply pending_valid_spec in Hv as (_ & _ & _ & Hv & _). cbn in L. lia. }
    destruct (x_io x 2%nat); cbn [effect fst snd]; intros [= <- <- <- <- <-]; (split; [apply Hj|done]) || idtac.
    split; [apply Hj|]. intros _. split; [done|]. by destruct b.
  - destruct (negb _) eqn:G; [intros [= <- <- <- <- <-]; by split; [apply Hd'|]|]. bools.
    intros [= <- <- <- <- <-]. split; [by apply Hd'|]. intros _. split; [done|]. unfold found. rewrite die_attempt. split; [|done].
    transitivity (Some j); [by destruct b|by rewrite V at 1].
Qed.

(** The files while an attempt [p] for the credentials [c] is under way. *)
Record engaged (w : world) (c : ob_auth_credentials) (p : ob_auth_pending) (a : Service.authSession) : Prop := {
  en_held : authority_held w c a;
  en_journal : w_journal w = Some (Journal 1 api account p);
  en_attempt : w_attempt w = Some p;
  en_valid : pending_valid p c = true }.
(** The attempt is in the journal before it can be sent. *)
Lemma prepare_held w c p a rc w' : authority_held w c a -> w_journal w = None -> w_attempt w = None -> pending_valid p c = true ->
  Prepare api account sessionID c p w = (rc, w') -> authority_held w' c a /\ (rc = 0 -> engaged w' c p a).
Proof.
  intros Hh J T Hv [(-> & D & _)|(x & xs & b & w1 & E & ->)]%act_inv; [by split; [eapply held_durable|]|].
  assert (Hw : forall j t, authority_held (die b (w <| w_script := xs |> <| w_journal := j |> <| w_attempt := t |>)) c a).
  { intros j t. destruct Hh as [H1 H2 H3 H4 H5 [H6|(q & Hq & _)]]; [|by rewrite J in Hq]. destruct b; constructor; by try left. }
  revert E. cbv zeta beta. destruct (_ || _).
  { intros [= <- <-]. split; [|done]. eapply held_durable; [|done]. by rewrite die_durable. }
  cbn [w_attempt upd]. rewrite T. destruct (x_io x 0%nat); cbn [effect fst snd]; intros [= <- <-].
  - split; [apply (Hw _ (Some p))|]. intros _. constructor; [apply (Hw _ (Some p))|by destruct b..|done].
  - split; [exact (Hw _ None)|done].
  - split; [exact (Hw _ None)|done].
Qed.
Lemma choose_held v f g ad due c p h w a r : authority_held w c a -> found w c p h ->
  rotate_choose (Some disk) v f g ad due c p h w = r ->
  match r with inl e => authority_held e.2 c a | inr q => engaged q.2 c q.1 a end.
Proof.
  intros Hh Hf Hr. pose proof (fun q w' E => rotate_choose_valid (Some disk) v f g ad due c p h w q w' E) as Hv.
  rewrite Hr in Hv. revert Hr. unfold rotate_choose. cbv zeta. destruct h.
  - destruct Hf as (J & T & G). rewrite G, Z.ltb_irrefl. cbn [andb negb].
    destruct (negb (pending_valid p c)); intros <-; [done|]. constructor; try done. by eapply Hv.
  - cbn [andb]. destruct (_ <=? _); [by intros <-|]. case_match; [by intros <-|]. destruct (new_pending _ _) as [q|] eqn:N; [|by intros <-].
    destruct Hf as [J T]. apply new_pending_valid in N.
    destruct (prepare _ _ _ _) as [rc w1] eqn:P. destruct (prepare_held _ _ _ _ _ _ Hh J T N P) as [P1 P2]. cbn [fst snd].
    unfold truth. destruct (Z.eqb_spec rc 0); cbn [negb]; intros <-; [by apply P2|done].
Qed.

(** ** The service and the attempt in the journal *)

Definition body_of (c : ob_auth_credentials) (p : ob_auth_pending) : Service.refresh_body :=
  Service.RefreshBody (auth_session_id c) (Some (expected_generation p)) (request_id p) (next_token p) (next_refresh_token p).
Lemma read_ID db id a : Service.readAuthSession db id = Some a -> Service.ID a = id.
Proof. unfold Service.readAuthSession. intros H%find_some. destruct H as [_ H]. by apply list_eqb_eq. Qed.
Lemma find_updated (l : list Service.authSession) a row id : Service.ID row = Service.ID a ->
  List.find (fun s => list_eqb (Service.ID s) id) l = Some a ->
  List.find (fun s => list_eqb (Service.ID s) id) (map (fun s => if list_eqb (Service.ID s) (Service.ID a) then row else s) l) = Some row.
Proof.
  intros E H. assert (Ha : Service.ID a = id) by (apply find_some in H as [_ H]; by apply list_eqb_eq).
  induction l as [|s l IH]; [done|]. cbn [List.find map] in *. rewrite Ha in *.
  destruct (list_eqb (Service.ID s) id) eqn:D; [by rewrite E, list_eqb_refl|]. rewrite D. by apply IH.
Qed.
Lemma refresh_spec t db c p a res db' :
  Service.readAuthSession db sessionID = Some a -> auth_session_id c = sessionID -> pending_valid p c = true -> agree c a \/ ahead c p a ->
  Service.refreshAuth tokenHash cfg t (Some (body_of c p)) (refresh_token c) db = (res, db') ->
  exists a', Service.readAuthSession db' sessionID = Some a' /\ (agree c a' \/ ahead c p a') /\
    match res with inl f => 400 <= f.1 | inr _ => ahead c p a' end.
Proof.
  intros R S V C. apply pending_valid_spec in V as (_ & _ & _ & G & _).
  assert (Same : forall f : Service.failure, 400 <= f.1 -> exists a', Service.readAuthSession db sessionID = Some a' /\ (agree c a' \/ ahead c p a') /\ 400 <= f.1)
    by (intros f Hf; by exists a).
  unfold Service.refreshAuth, body_of. cbn [Service.rb_session Service.rb_expected Service.rb_request Service.rb_next_token Service.rb_next_refresh default from_option id].
  destruct (_ || _); [intros [= <- <-]; by apply Same|]. destruct (negb _); [intros [= <- <-]; by apply Same|].
  destruct (Service.ck_sql t); [intros [= <- <-]; by apply Same|]. rewrite S, R. cbv zeta.
  destruct (_ && _); [intros [= <- <-]; by apply Same|].
  destruct (Service.checkAuthSession _ _ _ _) as [f|] eqn:K.
  { intros [= <- <-]. apply Same. revert K. unfold Service.checkAuthSession. repeat (case_match; try done); by intros [= <-]. }
  destruct (list_eqb _ (Service.PreviousRefresh a)) eqn:Prev.
  - destruct (_ || _) eqn:B; [intros [= <- <-]; by apply Same|]. intros [= <- <-]. bools.
    exists a. split; [done|]. split; [done|]. destruct C as [C|C]; [|done]. pose proof (ag_generation _ _ C). lia.
  - destruct (_ || _) eqn:B; [intros [= <- <-]; by apply Same|]. apply orb_false_iff in B as [B _]. apply negb_false_iff, Z.eqb_eq in B.
    destruct (_ <=? _); [intros [= <- <-]; by apply Same|]. destruct (Service.used _ _ _); [intros [= <- <-]; by apply Same|].
    intros [= <- <-]. destruct C as [C|C]; [|pose proof (ah_previous _ _ _ C) as E; by rewrite E, list_eqb_refl in Prev].
    assert (A : forall te re, ahead c p (Service.rotated tokenHash a (body_of c p) (tokenHash (refresh_token c)) te re)).
    { intros. pose proof (ag_generation _ _ C). constructor; cbn; try done; lia. }
    eexists. split; [|split; [right|]; apply A].
    unfold Service.readAuthSession, Service.rotate_rows. cbn [Service.auth_sessions]. by apply find_updated.
Qed.

(** cJSON prints what Go's decoder reads. *)
Context (wire : forall c p b, credentials_valid c = true -> pending_valid p c = true ->
  printer (refresh_body c p) = Some b -> decode b = Some (body_of c p)).

Lemma engaged_die b w c p a : engaged w c p a -> engaged (die b w) c p a.
Proof. intros [H1 H2 H3 H4]. constructor; [|by destruct b..|done]. eapply held_durable; [|done]. apply die_durable. Qed.
Lemma served_engaged t b c p w a tr db : engaged w c p a -> decode b = Some (body_of c p) -> served t (refresh_request c b) (w_db w) = (tr, db) ->
  exists a', engaged (w <| w_db := db |>) c p a' /\ (forall x, tr = Performed x -> curl_code x = 0 -> 200 <= status x < 300 -> ahead c p a').
Proof.
  intros [[H1 H2 H3 H4 H5 H6] J T V] D. unfold served, refresh_request. cbn [rq_method rq_path rq_body rq_bearer].
  rewrite !list_eqb_refl. cbn [andb mbind option_bind default from_option id]. rewrite D.
  assert (C : agree c a \/ ahead c p a).
  { destruct H6 as [?|(q & Hq & _ & Hq2)]; [by left|right]. rewrite J in Hq. by injection Hq as ->. }
  destruct (Service.refreshAuth _ _ _ _ _ _) as [res db1] eqn:R. destruct (refresh_spec _ _ _ _ _ _ _ H5 H4 V C R) as (a' & R1 & R2 & R3).
  assert (K : engaged (w <| w_db := db1 |>) c p a').
  { constructor; [|done..]. constructor; try done. destruct R2 as [?|?]; [by left|right; by exists p]. }
  destruct res as [f|r]; intros [= <- <-]; exists a'; (split; [done|]).
  - intros x [= <-] _ Hs. cbn [status] in Hs. lia.
  - by intros x [= <-].
Qed.
Lemma network_engaged b c p w a tr w' : engaged w c p a -> decode b = Some (body_of c p) -> network (refresh_request c b) w = (tr, w') ->
  exists a', engaged w' c p a' /\ (forall x, tr = Performed x -> curl_code x = 0 -> 200 <= status x < 300 -> ahead c p a').
Proof.
  intros He D [(-> & Du & T)|(x & xs & d & w1 & E & ->)]%act_inv.
  { exists a. split; [|by intros x [= <-]]. destruct He as [H1 H2 H3 H4].
    constructor; [by eapply held_durable| |congruence|done]. injection Du as _ -> _. done. }
  assert (He' : engaged (w <| w_script := xs |>) c p a).
  { destruct He as [H1 H2 H3 H4]. constructor; try done. by apply (held_durable w). }
  revert E. destruct (x_io x 0%nat).
  - cbv zeta. intros [= <- <-]. destruct (served _ _ _) as [tr db] eqn:Sv.
    destruct (served_engaged _ _ _ _ _ _ _ _ He' D Sv) as (a' & K1 & K2). exists a'. split; [by apply engaged_die|done].
  - intros [= <- <-]. exists a. split; [by apply engaged_die|by intros y [= <-]].
  - cbv zeta. intros [= <- <-]. destruct (served _ _ _) as [tr db] eqn:Sv.
    destruct (served_engaged _ _ _ _ _ _ _ _ He' D Sv) as (a' & K1 & _). exists a'. split; [by apply engaged_die|by intros y [= <-]].
Qed.
Lemma checks_token ap r tok : request_checks ap None r = inr tok -> rq_bearer r <> None -> tok = rq_bearer r.
Proof. unfold request_checks. cbv zeta. intros E N. destruct (rq_bearer r); [|done]. revert E. repeat (case_match; try done); by intros [= <-]. Qed.
Lemma response_ok ap x calloc resp : response_checks ap x calloc = (None, resp) -> curl_code x = 0 /\ 200 <= status x < 300.
Proof.
  unfold response_checks. cbv zeta. destruct (_ || _); [done|]. destruct (nomem _); [done|]. destruct (negb _) eqn:C; [done|].
  apply negb_false_iff, Z.eqb_eq in C. intros E. split; [done|]. revert E.
  destruct (_ || _) eqn:B; [repeat (case_match; try done)|]. intros _. apply orb_false_iff in B as [B1%Z.ltb_ge B2%Z.leb_gt]. lia.
Qed.
(** A success reported by the client means the service has rotated. *)
Lemma send_engaged v b c p w a e resp w' : engaged w c p a -> decode b = Some (body_of c p) ->
  send_refresh network api_parse v (refresh_request c b) w = (e, resp, w') ->
  exists a', engaged w' c p a' /\ (e = None -> ahead c p a').
Proof.
  intros He D. unfold send_refresh, ob_api_request_cancelled. cbn [rq_bearer refresh_request]. unfold request_raw.
  destruct (request_checks _ _ _) as [e1|tok] eqn:K; [intros [= <- <- <-]; by exists a|].
  apply checks_token in K; [|done]. subst tok. cbn [rq_method rq_path rq_bearer rq_body refresh_request].
  change (Request POST _ _ _) with (refresh_request c b).
  destruct (network (refresh_request c b) w) as [tr w1] eqn:N. cbn [fst].
  destruct (network_engaged _ _ _ _ _ _ _ He D N) as (a' & K1 & K2).
  destruct tr as [|cr|x]; [intros [= <- <- <-]; by exists a..|]. cbn [fst snd]. rewrite N. cbn [snd].
  destruct (response_checks api_parse x (v_calloc v)) as [r1 r2] eqn:Rc. intros [= <- <- <-].
  exists a'. split; [done|]. intros ->. destruct (response_ok _ _ _ _ Rc). by eapply K2.
Qed.
Lemma commit_held c p w a after rc w' : engaged w c p a -> ahead c p a ->
  auth_session_id after = sessionID -> token after = next_token p -> refresh_token after = next_refresh_token p ->
  generation after = generation c + 1 ->
  Commit api account sessionID after p w = (rc, w') ->
  exists c' a', authority_held w' c' a' /\ (rc = 0 -> c' = after /\ w_journal w' = None /\ agree after a').
Proof.
  intros He A E1 E2 E3 E4 H. pose proof He as [Hh J T V].
  assert (Ag : agree after a). { destruct A. constructor; congruence. }
  apply act_inv in H as [(-> & Du & _)|(x & xs & b & w1 & E & ->)]; [exists c, a; split; [by eapply held_durable|done]|].
  assert (Old : forall w2, durable w2 = durable w -> authority_held (die b w2) c a).
  { intros w2 D. apply (held_durable w); [by rewrite die_durable|done]. }
  assert (New : forall w2, w_profile w2 = MkProfile api account (Some after) -> w_db w2 = w_db w -> authority_held (die b w2) after a).
  { intros w2 P D. destruct Hh as [H1 H2 H3 H4 H5 H6]. destruct b; constructor; cbn; rewrite ?P, ?D; try done; by left. }
  pose proof (au_api _ _ _ Hh) as Pa. pose proof (au_account _ _ _ Hh) as Pb.
  revert E. cbv zeta beta. cbn [w_attempt w_profile upd]. destruct (_ || _); [intros [= <- <-]; exists c, a; split; [by apply Old|done]|].
  destruct (x_io x 0%nat); [|intros [= <- <-]; exists c, a; (split; [by apply Old|done])..].
  rewrite (au_profile _ _ _ Hh). destruct (_ || _); [intros [= <- <-]; exists c, a; split; [by apply Old|done]|].
  destruct (negb (validateAuthProfile after)); [intros [= <- <-]; exists c, a; split; [by apply Old|done]|]. rewrite Pa, Pb.
  destruct (x_io x 1%nat); cbn [effect fst snd negb]; [|intros [= <- <-]; exists c, a; split; [by apply Old|done]
    |intros [= <- <-]; exists after, a; split; [by apply New|done]].
  destruct (x_io x 2%nat); cbn [effect fst snd]; intros [= <- <-]; exists after, a; (split; [by apply New|]); try done.
  intros _. split; [done|]. split; [by destruct b|done].
Qed.
Lemma rotate_adopt_valid v c m ad due m' : rotate_adopt v c m = inr (ad, due, m') -> credentials_valid c = true.
Proof. unfold rotate_adopt. destruct (credentials_valid c); [done|]. done. Qed.
Lemma rotate_held v f g want m w r m' w' c a : authority_held w c a -> system_rotate v f g want m w = Some (r, m', w') ->
  exists c' a', authority_held w' c' a'.
Proof.
  intros Hh. unfold system_rotate, rotate. destruct (take_lock _) as [[e|]|]; [intros [= _ _ <-]; by exists c, a| |done].
  unfold rotate_body. destruct (v_cancel v); [intros [= _ _ <-]; by exists c, a|]. cbv zeta.
  destruct (begin disk _ _ _ _) as [[rc [[c1 p1] h1]] w1] eqn:B. cbn [fst snd bool_decide].
  destruct (begin_held _ _ _ _ _ _ _ _ _ _ _ Hh B) as [H1 H2]. unfold truth.
  destruct (Z.eqb_spec rc 0) as [Z0|]; cbn [negb]; [|intros [= _ _ <-]; by exists c, a].
  destruct (H2 Z0) as [-> Hf]. clear H2. destruct (rotate_adopt v c m) as [[e m1]|[[ad due] m1]] eqn:A; [intros [= _ _ <-]; by exists c, a|].
  apply rotate_adopt_valid in A.
  destruct (rotate_choose _ _ _ _ _ _ _ _ _ _) as [[e w2]|[q w2]] eqn:C;
    pose proof (choose_held _ _ _ _ _ _ _ _ _ _ _ H1 Hf C) as H3; cbn [fst snd] in H3; [intros [= _ _ <-]; by exists c, a|].
  unfold rotate_send. cbv zeta. destruct (v_cancel_send v); [intros [= _ _ <-]; exists c, a; apply H3|].
  destruct (printer _) as [b|] eqn:P; [|intros [= _ _ <-]; exists c, a; apply H3].
  apply wire in P; [|done|apply H3].
  destruct (send_refresh _ _ _ _ _) as [[e resp] w3] eqn:S. destruct (send_engaged _ _ _ _ _ _ _ _ _ H3 P S) as (a' & K1 & K2).
  destruct e as [e|]; [intros [= _ _ <-]; exists c, a'; apply K1|]. specialize (K2 eq_refl).
  destruct (receipt _ _ _ _) as [after|] eqn:R; [|intros [= _ _ <-]; exists c, a'; apply K1].
  apply receipt_spec in R as (R1 & R2 & R3 & R4 & _). rewrite (au_session _ _ _ (en_held _ _ _ _ K1)) in R1.
  destruct (commit disk after q w3) as [rc4 w4] eqn:M. cbn [fst snd].
  destruct (commit_held _ _ _ _ _ _ _ K1 K2 R1 R2 R3 R4 M) as (c' & a'' & K3 & _).
  destruct (truth rc4); intros [= _ _ <-]; by exists c', a''.
Qed.
Lemma step_held w w' : system_step w w' -> held w -> held w'.
Proof.
  intros [cur att script m v f g want r m' w1 w2 E|db w1 E] (c & a & H).
  - eapply rotate_held; [|exact E]. by apply (held_durable w1).
  - unfold authority in E. destruct H as [H1 H2 H3 H4 H5 H6]. rewrite H5 in E. cbn in E.
    destruct (Service.readAuthSession db sessionID) as [a'|] eqn:R; [|done]. cbn in E. injection E as E1 E2 E3 E4 E5 E6 E7 E8.
    exists c, a'. constructor; try done. destruct H6 as [[]|(p & J & V & [])]; [left|right; exists p; split; [done|split; [done|]]]; constructor; congruence.
Qed.
End system.
