(* ===== verification/AuthSystem.v ===== *)
(** * A refresh that was cut short is completed

    The account manager of Auth.v, the storage and the service of AuthService.v together:
    the authority of a login is never lost, and a process that finds an attempt in the
    journal completes it.  The reply the service prints is read back by the C client, byte
    for byte. *)

From stdpp Require Import relations.
From Stdlib Require QArith.
From S2P Require Import Prelude.
From S2P Require Import Json Target Peer Api Ws Control AuthTime Auth AuthService.
#[local] Open Scope Z_scope.
#[local] Arguments lit : simpl never.
Import Profile.

(** ** The text of a receipt *)

(** Characters that need no escape in a JSON string. *)
Definition plain (c : Z) : Prop := 32 < c < 127 /\ c <> quote /\ c <> backslash.
Lemma plain_body l : Forall plain l -> string_body l.
Proof. induction 1 as [|c l (_ & H1 & H2) _ IH]; [constructor|by constructor]. Qed.
Lemma hex_lower_plain c : hex_lower c = true -> plain c.
Proof. unfold hex_lower, plain, quote, backslash. lia. Qed.
Lemma digit_printable c : dec_digit c -> plain c.
Proof. unfold dec_digit, plain, quote, backslash. lia. Qed.
Lemma digits_plain l : Forall dec_digit l -> Forall plain l.
Proof. induction 1; constructor; [by apply digit_printable|done]. Qed.
Lemma id_chars_plain i l : id_chars i l = true -> Forall plain l.
Proof.
  revert i. induction l as [|c l IH]; intros i H; [constructor|]. cbn in H. bools. constructor; [|by eapply IH].
  revert H. unfold id_char. case_bool_decide; [|apply hex_lower_plain]. intros ?%Z.eqb_eq. subst. unfold plain, quote, backslash. lia.
Qed.
Transparent uuid.
Lemma uuid_plain s : uuid s = true -> Forall plain s /\ zlen s = 36.
Proof. unfold uuid. intros H. bools. split; [by eapply id_chars_plain|done]. Qed.
Opaque uuid.

Lemma two_plain n : 0 <= n <= 99 -> Forall plain (two n).
Proof. intros H. apply digits_plain, (two_spec n H). Qed.
Lemma go_time_plain t : 0 <= t < 253402300800000 -> Forall plain (go_time t) /\ zlen (go_time t) <= 30.
Proof.
  intros H. destruct (civil_of_spec t H) as [Hc _]. pose proof (Z.mod_pos_bound t 1000 ltac:(lia)) as Hm.
  destruct (millis_digits_spec _ Hm) as [Hf _]. pose proof (civil_ok_fit _ Hc) as (F1 & F2 & F3 & F4 & F5 & F6).
  unfold go_time. rewrite spell_split. pose proof (frac_text_len _ Hf). split; [|rewrite zlen_app, spell_civil_len; lia].
  assert (P : forall x, x = 45 \/ x = 84 \/ x = 58 \/ x = 46 \/ x = 90 -> Forall plain [x]).
  { intros x Hx. constructor; [|constructor]. unfold plain, quote, backslash. lia. }
  pose proof (four_spec _ F1) as [F1' _]. unfold spell_civil. rewrite !Forall_app. split_and!; try (apply two_plain; lia); try (apply P; lia).
  - by apply digits_plain.
  - destruct Hf as [Hd _]. apply digits_plain in Hd. unfold frac_text. apply Forall_app. split; [|apply P; lia].
    destruct (millis_digits _); [constructor|]. apply (Forall_app_2 _ [46]); [apply P; lia|done].
Qed.

(** ** The decimal of a generation *)

Lemma digits_canonical fuel n : 0 <= n < 10 ^ Z.of_nat fuel -> (0 < fuel)%nat -> canonical (digits fuel n) n.
Proof.
  revert n. induction fuel as [|fuel IH]; intros n Hn Hf; [lia|]. cbn [digits]. pose proof (Z.mod_pos_bound n 10 ltac:(lia)).
  destruct (Z.ltb_spec n 10) as [L|L].
  - cbn [app]. rewrite Z.mod_small by lia. split; [done|]. split; [repeat constructor; unfold dec_digit; lia|]. split; [unfold zlen; cbn; lia|].
    unfold dec_value. cbn. lia.
  - assert (Hf' : (0 < fuel)%nat) by (destruct fuel; [change (10 ^ Z.of_nat 1) with 10 in Hn; lia|lia]).
    rewrite Nat2Z.inj_succ, Z.pow_succ_r in Hn by lia.
    destruct (IH (n / 10)) as (I1 & I2 & I3 & I4); [Z.div_mod_to_equations; lia|done|].
    split; [by destruct (digits fuel (n / 10))|]. split; [apply Forall_app; split; [done|repeat constructor; unfold dec_digit; lia]|].
    split; [|rewrite dec_value_app, I4; unfold dec_value; cbn; Z.div_mod_to_equations; lia].
    intros _. destruct (digits fuel (n / 10)) as [|c l] eqn:D; [done|]. change (znth ((c :: l) ++ ?r) 0) with c. change (znth (c :: l) 0) with c in I3.
    destruct l as [|c' l]; [|apply I3; rewrite !zlen_cons; pose proof (zlen_nonneg l); lia].
    unfold dec_value in I4. cbn in I4. Z.div_mod_to_equations. lia.
Qed.
Lemma decimal_canonical n : 0 <= n <= UINT64_MAX -> canonical (decimal n) n /\ zlen (decimal n) <= 20.
Proof.
  intros H. split; [apply digits_canonical; [unfold UINT64_MAX in H; change (10 ^ Z.of_nat 20) with 100000000000000000000; lia|lia]|].
  destruct (digits_spec 20 n ltac:(lia)) as (_ & L & _). unfold decimal, zlen. lia.
Qed.

(** ** Reading a receipt *)

Definition string_member (k : string) (v : list Z) : Json.member := Member [] (lit k) [] [] (quote :: v ++ [quote]).
Definition receipt_members (r : Service.authReceipt) : list Json.member :=
  [string_member "auth_session_id" (Service.rc_session r); Member [] (lit "generation") [] [] (decimal (Service.rc_generation r));
   string_member "token_expires_at" (go_time (Service.rc_token_expires r)); string_member "refresh_expires_at" (go_time (Service.rc_refresh_expires r))].
Lemma receipt_text_members r : Service.receipt_text r = 123 :: members_text (receipt_members r) [125; 10].
Proof. reflexivity || (unfold Service.receipt_text, receipt_members, members_text, member_text, string_member, Service.quoted, quote; cbn [m_lead m_key m_before m_after m_value app]; by rewrite <- ?app_assoc). Qed.
(** A receipt the client can read. *)
Record readable (r : Service.authReceipt) : Prop := {
  rd_session : uuid (Service.rc_session r) = true;
  rd_generation : 0 < Service.rc_generation r <= MAX_SAFE;
  rd_token : 0 < Service.rc_token_expires r < 253402300800000;
  rd_refresh : 0 < Service.rc_refresh_expires r < 253402300800000 }.
Lemma string_member_ok k v : Forall plain (lit k) -> Forall plain v -> zlen v <= 100 -> member_ok (string_member k v).
Proof.
  intros Hk Hv L. split; cbn [string_member m_lead m_key m_before m_after m_value].
  - constructor.
  - by apply plain_body.
  - constructor.
  - constructor.
  - apply value_string; [by apply plain_body|constructor].
  - exists quote, (v ++ [quote]). split; [done|]. by vm_compute.
  - rewrite zlen_cons, zlen_app, zlen_cons, zlen_nil. lia.
Qed.
Lemma digits_value l : Forall dec_digit l -> value_text 0 l.
Proof. induction 1 as [|c l H _ IH]; [constructor|]. unfold dec_digit in H. apply value_plain; unfold quote; try lia. done. Qed.
Lemma lit_plain (s : string) : forallb (fun c => (32 <? c) && (c <? 127) && negb (c =? quote) && negb (c =? backslash)) (lit s) = true -> Forall plain (lit s).
Proof.
  induction (lit s) as [|c l IH]; cbn [forallb]; intros H; constructor; bools; [unfold plain; lia|by apply IH].
Qed.
Lemma receipt_members_ok r : readable r -> Forall member_ok (receipt_members r).
Proof.
  intros [H1 H2 H3 H4]. destruct (uuid_plain _ H1) as [P1 L1], (go_time_plain (Service.rc_token_expires r)) as [P3 L3], (go_time_plain (Service.rc_refresh_expires r)) as [P4 L4]; [lia..|].
  destruct (decimal_canonical (Service.rc_generation r)) as ((N & D & _) & L2); [unfold UINT64_MAX, MAX_SAFE in *; lia|].
  constructor; [|constructor; [|constructor; [|constructor; [|constructor]]]]; try (apply string_member_ok; [by apply lit_plain; vm_compute|done|lia]).
  split; cbn [m_lead m_key m_before m_after m_value].
  - constructor.
  - by apply plain_body, lit_plain; vm_compute.
  - constructor.
  - constructor.
  - by apply digits_value.
  - destruct (decimal _) as [|c l] eqn:E; [done|]. exists c, l. split; [done|]. inversion D; subst. by apply digit_not_space.
  - lia.
Qed.
Lemma receipt_generation r g : readable r -> Service.rc_generation r = g ->
  ob_json_uint_field (Some (Service.receipt_text r)) (Some (lit "generation")) g g = Some g.
Proof.
  intros Hr <-. pose proof (receipt_members_ok r Hr) as Hm. destruct Hr as [_ H2 _ _]. unfold ob_json_uint_field.
  replace (zlen (lit "generation") =? 0) with false by (vm_compute; reflexivity). rewrite Z.ltb_irrefl. cbn [orb]. cbv zeta.
  rewrite receipt_text_members. change (skip_space (123 :: ?l)) with (123 :: l). cbv iota. change (negb (123 =? 123)) with false. cbv iota.
  rewrite field_loop_members by (done || apply members_text_length).
  assert (K1 : key_is (lit "generation") (string_member "auth_session_id" (Service.rc_session r)) = false) by (unfold key_is; cbn [string_member m_key]; by vm_compute).
  assert (K2 : key_is (lit "generation") (Member [] (lit "generation") [] [] (decimal (Service.rc_generation r))) = true) by (unfold key_is; cbn [m_key]; by vm_compute).
  unfold receipt_members. cbn [list_find]. destruct (decide (key_is _ (string_member _ _) = true)) as [K|_]; [by rewrite K1 in K|].
  destruct (decide (key_is _ (Member _ _ _ _ _) = true)) as [_|K]; [|by rewrite K2 in K].
  cbn [fmap option_fmap option_map mbind option_bind prod_map snd m_value]. apply uint_literal_exact. exists (decimal (Service.rc_generation r)), [].
  destruct (decimal_canonical (Service.rc_generation r)) as [C _]; [unfold UINT64_MAX, MAX_SAFE in *; lia|].
  rewrite app_nil_r. split; [done|]. split; [constructor|]. split; [done|]. unfold UINT64_MAX, MAX_SAFE in *. lia.
Qed.
Lemma receipt_text_plain r : readable r ->
  Forall (fun c => c <> 0 /\ c <> backslash) (Service.receipt_text r) /\ 0 < zlen (Service.receipt_text r) <= 1000.
Proof.
  intros [H1 H2 H3 H4]. destruct (uuid_plain _ H1) as [P1 L1], (go_time_plain (Service.rc_token_expires r)) as [P3 L3], (go_time_plain (Service.rc_refresh_expires r)) as [P4 L4]; [lia..|].
  destruct (decimal_canonical (Service.rc_generation r)) as ((_ & D & _) & L2); [unfold UINT64_MAX, MAX_SAFE in *; lia|]. apply digits_plain in D.
  assert (W : forall l, Forall plain l -> Forall (fun c => c <> 0 /\ c <> backslash) l).
  { induction 1 as [|c l Hc _ IH]; constructor; [|done]. unfold plain in Hc. lia. }
  assert (S : forall c, c <> 0 -> c <> backslash -> Forall (fun c => c <> 0 /\ c <> backslash) [c]) by (intros; by repeat constructor).
  unfold Service.receipt_text, Service.quoted. split.
  - rewrite !Forall_app. split_and!; first [apply S; unfold backslash; lia | by apply W | by apply W, lit_plain; vm_compute | repeat constructor; unfold backslash; lia].
  - rewrite !zlen_app. pose proof (zlen_nonneg (decimal (Service.rc_generation r))). pose proof (zlen_nonneg (go_time (Service.rc_token_expires r))).
    pose proof (zlen_nonneg (go_time (Service.rc_refresh_expires r))).
    repeat match goal with |- context [zlen (lit ?s)] => let v := eval vm_compute in (zlen (lit s)) in change (zlen (lit s)) with v end.
    change (zlen [123]) with 1. change (zlen [34]) with 1. change (zlen [58]) with 1. change (zlen [44]) with 1. change (zlen [125; 10]) with 2. lia.
Qed.
Lemma nul_scan_plain fuel q l : Forall (fun c => c <> 0 /\ c <> backslash) l -> nul_scan fuel q l = false.
Proof.
  revert fuel q. induction l as [|c l IH]; intros [|fuel] q H; try done. inversion H as [|? ? [_ Hc] Hl]; subst. cbn [nul_scan].
  unfold backslash in Hc. destruct (Z.eqb_spec c 92); [done|]. destruct q; cbn [negb]; [destruct (c =? 34)|]; by apply IH.
Qed.

(** What cJSON makes of a receipt. *)
Definition receipt_object (r : Service.authReceipt) : list (list Z * cj) :=
  [(lit "auth_session_id", CStr (Service.rc_session r)); (lit "generation", CNum (QArith_base.inject_Z (Service.rc_generation r)));
   (lit "token_expires_at", CStr (go_time (Service.rc_token_expires r))); (lit "refresh_expires_at", CStr (go_time (Service.rc_refresh_expires r)))].
Ltac eval_keys :=
  repeat match goal with |- context [list_eqb (lit ?a) (lit ?b)] =>
    let v := eval vm_compute in (list_eqb (lit a) (lit b)) in change (list_eqb (lit a) (lit b)) with v end.
Lemma receipt_fields r :
  text_of (Some (receipt_object r)) "auth_session_id" = Some (Service.rc_session r) /\
  text_of (Some (receipt_object r)) "token_expires_at" = Some (go_time (Service.rc_token_expires r)) /\
  text_of (Some (receipt_object r)) "refresh_expires_at" = Some (go_time (Service.rc_refresh_expires r)).
Proof. unfold text_of, str, get_item, receipt_object. cbn [mbind option_bind member_of]. eval_keys. done. Qed.
Lemma receipt_shape r : fields_distinct (receipt_object r) = true /\
  forallb (fun kv => existsb (list_eqb kv.1) receipt_names) (receipt_object r) = true /\ zlen (receipt_object r) = 4.
Proof. unfold receipt_object, receipt_names. cbn [fields_distinct forallb existsb fst]. eval_keys. done. Qed.
Definition credentials_after (c : ob_auth_credentials) (p : ob_auth_pending) (r : Service.authReceipt) : ob_auth_credentials :=
  AuthCredentials (auth_session_id c) (next_token p) (next_refresh_token p) (generation c + 1) (Service.rc_token_expires r) (Service.rc_refresh_expires r).
Lemma receipt_read parse r c p : readable r -> Service.rc_session r = auth_session_id c -> Service.rc_generation r = generation c + 1 ->
  parse (Service.receipt_text r) = Some (CObj (receipt_object r)) ->
  receipt parse (Some (Service.receipt_text r)) c p = Some (credentials_after c p r).
Proof.
  intros Hr Hs Hg Hp. destruct (receipt_text_plain r Hr) as [Hc Hl], (receipt_shape r) as (D1 & D2 & D3), (receipt_fields r) as (F1 & F2 & F3).
  unfold receipt, auth_json. destruct (Z.ltb_spec OB_API_MAX_RESPONSE_BYTES (zlen (Service.receipt_text r))) as [L|_]; [unfold OB_API_MAX_RESPONSE_BYTES in L; lia|].
  rewrite nul_scan_plain, Hp, D1, D3 by done. cbn [Z.leb Z.compare Pos.compare Pos.compare_cont andb].
  rewrite F1, F2, F3, D1, D2, D3, Hs, bool_decide_true by done. cbn [andb Z.eqb Pos.eqb].
  rewrite (receipt_generation r) by done. rewrite !time_roundtrip by (destruct Hr; lia).
  destruct Hr as [_ _ H3 H4]. by rewrite !(proj2 (Z.ltb_lt _ _)) by lia.
Qed.
Lemma no_nul l : Forall (fun c => c <> 0 /\ c <> backslash) l -> existsb (Z.eqb 0) l = false.
Proof. induction 1 as [|c l [N _] _ IH]; [done|]. cbn [existsb]. rewrite IH. destruct (Z.eqb_spec 0 c); [lia|done]. Qed.
(** The HTTP client delivers the receipt. *)
Lemma receive_text t : zlen t <= 1000 -> receive [BodyChunk true t] empty_buffer = snd (body_write true t 1 (zlen t) empty_buffer) /\
  data (receive [BodyChunk true t] empty_buffer) = t /\ limit (receive [BodyChunk true t] empty_buffer) = false /\
  nomem (receive [BodyChunk true t] empty_buffer) = false.
Proof.
  intros L. cbn [receive]. cbv zeta. pose proof (zlen_nonneg t). unfold body_write.
  destruct (truth (zlen t) && _) eqn:T.
  { exfalso. apply andb_prop in T as [T1 T2%Z.ltb_lt]. unfold truth in T1. destruct (Z.eqb_spec (zlen t) 0); [done|].
    assert (1 <= SIZE_LIMIT / zlen t); [|lia]. apply Z.div_le_lower_bound; unfold SIZE_LIMIT; lia. }
  rewrite Z.mul_1_l. change (used empty_buffer) with 0. destruct (Z.ltb_spec (OB_API_MAX_RESPONSE_BYTES - 0) (zlen t)) as [B|_]; [unfold OB_API_MAX_RESPONSE_BYTES in B; lia|].
  cbv zeta. rewrite andb_false_r. cbn [fst snd]. rewrite Z.eqb_refl. split; [done|].
  destruct (capacity empty_buffer <? _); cbn [data limit nomem upd empty_buffer app]; by rewrite ztake_ge by lia.
Qed.
Lemma response_delivers ap r j calloc : readable r -> ap (Service.receipt_text r) = Some j -> contains_hash j = false ->
  response_checks ap (Exchange [BodyChunk true (Service.receipt_text r)] 0 200) calloc = (None, Some (Service.receipt_text r)).
Proof.
  intros Hr Ha Hj. destruct (receipt_text_plain r Hr) as [Hc Hl], (receive_text (Service.receipt_text r)) as (_ & D & Li & Nm); [lia|].
  unfold response_checks. cbn [deliveries curl_code status]. cbv zeta. rewrite Li, Nm. cbn [orb]. unfold used. rewrite D.
  change (0 =? CURLE_FILESIZE_EXCEEDED) with false. change (negb (0 =? CURLE_OK)) with false. cbv iota.
  unfold truth. destruct (Z.eqb_spec (zlen (Service.receipt_text r)) 0); [lia|]. cbn [negb].
  replace (existsb (Z.eqb 0) (Service.receipt_text r)) with false; [by rewrite Ha, Hj|].
  symmetry. by apply no_nul.
Qed.

(** ** The replayed attempt *)

Transparent uuid hex Service.validAuthID Service.validConnectionToken validAuthUUID validAuthSecret.
Lemma uuid_valid s : uuid s = true -> Service.validAuthID s = true /\ validAuthUUID s = true.
Proof.
  unfold uuid, Service.validAuthID, Service.validConnectionID, validAuthUUID, ob_valid_id. intros H. bools.
  match goal with H : zlen s = 36 |- _ => rewrite H end. rewrite !Z.eqb_refl. cbn [andb].
  split; [|done]. repeat (apply andb_true_iff; split); done || by apply Z.eqb_eq.
Qed.
Lemma hex_valid s : hex s 64 = true -> Service.validConnectionToken s = true /\ validAuthSecret s = true /\ token_valid (Some s) = true.
Proof.
  unfold hex, Service.validConnectionToken, validAuthSecret. intros H. split; [done|]. split; [done|]. apply andb_prop in H as [L%Z.eqb_eq H].
  unfold token_valid. rewrite L. apply andb_true_iff. split; [by vm_compute|]. revert H. clear L. induction s as [|c s IH]; [done|]. cbn [forallb]. intros [Hc Hs]%andb_prop.
  rewrite IH by done. rewrite andb_true_r. unfold hex_lower in Hc. unfold token_char, alnum. lia.
Qed.
Opaque uuid hex Service.validAuthID Service.validConnectionToken validAuthUUID validAuthSecret.

Lemma credentials_profile c : credentials_ok c -> validateAuthProfile c = true.
Proof.
  intros (H1 & H2 & H3 & H4 & H5 & H6 & H7). unfold validateAuthProfile.
  rewrite (proj2 (uuid_valid _ H1)), (proj1 (proj2 (hex_valid _ H2))), (proj1 (proj2 (hex_valid _ H3))), (proj2 (list_eqb_neq _ _) H4).
  unfold ZERO_TIME. rewrite !(proj2 (Z.eqb_neq _ _)) by lia. done.
Qed.
Lemma pending_journal api account sid c p : auth_session_id c = sid -> 0 < generation c -> pending_valid p c = true ->
  journal_valid api account sid (Journal 1 api account p) = true.
Proof.
  intros E G (H1 & H2 & H3 & H4 & H5 & H6 & H7 & _)%pending_valid_spec. unfold journal_valid. cbn [jr_pending jr_version jr_api jr_account].
  rewrite (proj2 (uuid_valid _ H2)), (proj1 (proj2 (hex_valid _ H5))), (proj1 (proj2 (hex_valid _ H6))), H3, E, H4, !list_eqb_refl, (proj2 (list_eqb_neq _ _) H7).
  rewrite (proj2 (Z.eqb_neq (generation c) 0)) by lia. done.
Qed.

(** A fate in which nothing goes wrong. *)
Definition smooth (t : Service.clock) : fate := Fate false (fun _ => Done) false t.

Section recover.
Context (tokenHash : list Z -> list Z) (cfg : Service.config).
Context (decode : list Z -> option Service.refresh_body) (error_text : Service.failure -> list Z).
Context (parse : list Z -> option cj) (api_parse : list Z -> option cjson) (printer : jobject -> option (list Z)).
Context (api account : list Z) (c : ob_auth_credentials) (p : ob_auth_pending) (a : Service.authSession) (t : Service.clock) (db : Service.database).
#[local] Abbreviation sid := (auth_session_id c).

(** The service has rotated to the attempt [p] and still honours the session. *)
Context (valid_c : credentials_valid c = true) (valid_p : pending_valid p c = true) (row : Service.readAuthSession db sid = Some a).
Context (is_ahead : ahead tokenHash c p a) (alive_now : Service.checkAuthSession t db a true = None) (sql_ok : Service.ck_sql t = false).
Definition reply : Service.authReceipt :=
  Service.AuthReceipt (Service.ID a) (Service.Generation a) (Service.ReceiptTokenExpiry a) (Service.ReceiptRefreshExpiry a).
#[local] Abbreviation after := (credentials_after c p reply).

Lemma refresh_replay : Service.refreshAuth tokenHash cfg t (Some (body_of c p)) (refresh_token c) db = (inr reply, db).
Proof.
  apply credentials_valid_spec in valid_c as [(C1 & C2 & C3 & C4 & C5 & C6 & C7) _].
  apply pending_valid_spec in valid_p as (P1 & P2 & P3 & P4 & P5 & P6 & P7 & P8 & P9 & P10 & P11).
  destruct is_ahead as [A1 A2 A3 A4 A5 A6 A7 A8].
  unfold Service.refreshAuth, body_of. cbn [Service.rb_session Service.rb_expected Service.rb_request Service.rb_next_token Service.rb_next_refresh default from_option id].
  rewrite (proj1 (uuid_valid _ C1)), (proj1 (uuid_valid _ P2)), (proj1 (hex_valid _ P5)), (proj1 (hex_valid _ P6)), (proj1 (hex_valid _ C3)), sql_ok, row.
  rewrite (proj2 (list_eqb_neq _ _) P7), (proj2 (list_eqb_neq _ _) P9), (proj2 (list_eqb_neq _ _) P11), (proj2 (Z.eqb_neq (expected_generation p) 0)) by lia. cbn [negb orb].
  cbv zeta. rewrite alive_now, A4, A5, A6, A7, A8, P4, A1, !list_eqb_refl, !Z.eqb_refl. cbn [negb orb]. rewrite andb_false_r. unfold reply. by rewrite A1.
Qed.
Lemma reply_session : Service.rc_session reply = sid.
Proof. unfold reply. cbn. by eapply read_ID. Qed.
Lemma reply_generation : Service.rc_generation reply = generation c + 1.
Proof. apply (ah_generation _ _ _ _ is_ahead). Qed.

(** What the JSON libraries make of the request and the reply. *)
Context (b : list Z) (j : cjson) (reply_ok : readable reply).
Context (printed : printer (refresh_body c p) = Some b) (b_size : zlen b <= OB_API_MAX_REQUEST_BYTES) (b_json : api_parse b <> None).
Context (decoded : decode b = Some (body_of c p)).
Context (parsed : parse (Service.receipt_text reply) = Some (CObj (receipt_object reply))).
Context (api_parsed : api_parse (Service.receipt_text reply) = Some j) (no_hash : contains_hash j = false).

#[local] Abbreviation network := (network tokenHash cfg decode error_text).
#[local] Abbreviation disk := (profileAuthStorage api account sid).
#[local] Abbreviation files J cur att xs := (World (MkProfile api account (Some c)) J db cur att false xs).
Definition waiting : option journal := Some (Journal 1 api account p).

Lemma begin_smooth c0 p0 h0 cur att xs :
  begin disk c0 p0 h0 (files waiting cur att (smooth t :: xs)) = (0, (c, p, true), files waiting c (Some p) xs).
Proof.
  pose proof (proj1 (credentials_valid_spec c) valid_c) as [Hc _]. pose proof Hc as (_ & _ & _ & _ & G & _).
  pose proof (pending_journal api account sid c p eq_refl (proj1 G) valid_p) as Hj.
  apply pending_valid_spec in valid_p as (_ & _ & _ & P4 & _).
  cbn -[validateAuthProfile journal_valid list_eqb]. rewrite !list_eqb_refl, credentials_profile, Hj, P4, Z.ltb_irrefl, Z.eqb_refl by done. done.
Qed.
Lemma send_smooth v xs : send_refresh network api_parse v (refresh_request c b) (files waiting c (Some p) (smooth t :: xs)) =
  (None, Some (Service.receipt_text reply), files waiting c (Some p) xs).
Proof.
  pose proof (proj1 (credentials_valid_spec c) valid_c) as [(_ & _ & H3 & _) _].
  assert (N : network (refresh_request c b) (files waiting c (Some p) (smooth t :: xs)) =
    (Performed (Exchange [BodyChunk true (Service.receipt_text reply)] 0 200), files waiting c (Some p) xs)).
  { unfold AuthService.network, act. cbn [w_dead w_script smooth x_crash x_io x_clock x_crash_after w_db upd]. unfold served, refresh_request.
    cbn [rq_method rq_path rq_body rq_bearer mbind option_bind default from_option id]. rewrite !list_eqb_refl, decoded. cbn [andb].
    rewrite refresh_replay. done. }
  unfold send_refresh, ob_api_request_cancelled. cbn [rq_bearer refresh_request]. unfold request_raw.
  assert (K : request_checks api_parse None (refresh_request c b) = inr (Some (refresh_token c))).
  { unfold request_checks, refresh_request. cbn [rq_method rq_path rq_body rq_bearer]. cbv zeta. rewrite (proj2 (proj2 (hex_valid _ H3))).
    replace (existsb (list_eqb POST) _) with true by by vm_compute. replace (path_valid (Some (lit "/v1/auth/refresh"))) with true by by vm_compute.
    replace (list_eqb POST (lit "GET")) with false by by vm_compute. rewrite andb_false_r. cbn [negb orb].
    rewrite (proj2 (Z.ltb_ge _ _)) by done. by rewrite bool_decide_false. }
  rewrite K. cbn [rq_method rq_path rq_body rq_bearer refresh_request]. change (Request POST _ _ _) with (refresh_request c b). rewrite N. cbn [fst snd].
  rewrite N. cbn [snd]. by rewrite (response_delivers _ _ _ _ reply_ok api_parsed no_hash).
Qed.
Lemma commit_smooth xs : commit disk after p (files waiting c (Some p) (smooth t :: xs)) =
  (0, World (MkProfile api account (Some after)) None db after None false xs).
Proof.
  pose proof (pending_valid_spec p c) as [Hp _]. specialize (Hp valid_p). destruct Hp as (_ & _ & _ & P4 & _).
  assert (Ho : credentials_ok after).
  { eapply receipt_ok; [exact valid_c|exact valid_p|]. by apply (receipt_read parse reply c p reply_ok reply_session reply_generation parsed). }
  cbn -[validateAuthProfile list_eqb credentials_after]. unfold credentials_after at 1 2 3 4. cbn [auth_session_id generation token refresh_token].
  rewrite bool_decide_true by done. rewrite !list_eqb_refl, P4, !Z.eqb_refl. cbn [negb orb]. rewrite credentials_profile by done. done.
Qed.
Lemma adopt_smooth v m : am_session m = sid -> generation (am_credentials m) < generation c \/ am_credentials m = c ->
  exists ad due m1, rotate_adopt v c m = inr (ad, due, m1).
Proof.
  intros Hs Hm. unfold rotate_adopt. rewrite valid_c, Hs, list_eqb_refl. cbn [negb orb]. destruct Hm as [Hm| ->].
  - rewrite (proj2 (Z.ltb_ge _ _)), (proj2 (Z.eqb_neq _ _)), (proj2 (Z.ltb_lt _ _)) by lia. cbn [orb andb]. cbv zeta. by eexists _, _, _.
  - rewrite Z.ltb_irrefl, Z.eqb_refl. unfold same_credentials. rewrite !Z.eqb_refl, !list_eqb_refl. cbn [orb andb negb]. by eexists _, _, _.
Qed.

(** C15: When the service has rotated to the attempt in the journal but nobody learned of it
    (the reply was lost, the process died, the commit failed), the next refresh that runs
    undisturbed completes that very rotation, in whichever process it runs: it succeeds, the
    profile and the manager hold the credentials the service has, and the journal is empty. *)
Theorem authority_recovers v f g want m cur att w :
  w_profile w = MkProfile api account (Some c) -> w_journal w = waiting -> w_db w = db ->
  am_session m = sid -> generation (am_credentials m) < generation c \/ am_credentials m = c ->
  take_lock (v_lock v) = Some None -> v_cancel v = false -> v_cancel_send v = false ->
  exists m' w', system_rotate tokenHash cfg decode error_text parse api_parse printer api account sid v f g want m
      (enter cur att (replicate 3 (smooth t)) w) = Some (None, m', w') /\
    am_credentials m' = after /\ am_has_pending m' = false /\
    w_profile w' = MkProfile api account (Some after) /\ w_journal w' = None /\ w_db w' = db /\ agree tokenHash after a.
Proof.
  intros W1 W2 W3 M1 M2 V1 V2 V3. destruct w as [P J D cw aw dw sw]. cbn in W1, W2, W3. subst P J D.
  destruct (adopt_smooth v m M1 M2) as (ad & due & m1 & A).
  unfold system_rotate, rotate. rewrite V1. unfold rotate_body. rewrite V2. cbv zeta.
  change (enter _ _ _ _) with (files waiting cur att [smooth t; smooth t; smooth t]). cbv iota. rewrite begin_smooth.
  change (truth 0) with false. cbv beta iota.
  rewrite A. unfold rotate_choose. cbv zeta. rewrite valid_p. destruct (proj1 (pending_valid_spec p c) valid_p) as (_ & _ & _ & P4 & _).
  rewrite P4, Z.ltb_irrefl. cbn [andb negb]. unfold rotate_send. cbv zeta. rewrite V3, printed.
  rewrite send_smooth, (receipt_read parse reply c p reply_ok reply_session reply_generation parsed), commit_smooth. cbn [fst snd truth Z.eqb negb].
  eexists _, _. split; [reflexivity|]. split_and!; try reflexivity.
  destruct is_ahead as [A1 A2 A3 _ _ _ _ _]. by constructor.
Qed.
End recover.

(** ** Nothing is lost *)

(** A login: profile and service agree, no journal. *)
Record logged_in (tokenHash : list Z -> list Z) (api account sessionID : list Z) (w : world) (c : ob_auth_credentials) (a : Service.authSession) : Prop := {
  li_profile : w_profile w = MkProfile api account (Some c);
  li_session : auth_session_id c = sessionID;
  li_journal : w_journal w = None;
  li_row : Service.readAuthSession (w_db w) sessionID = Some a;
  li_agree : agree tokenHash c a }.

(** C3: From a login on, whatever requests and replies are lost, whichever file operations
    fail before or after their effect, wherever a process dies, and however many processes
    share the profile, the profile and the journal together hold the service's current
    refresh authority: either the profile's tokens are the service's, or the service is
    exactly one rotation ahead and the journal holds that rotation. *)
Theorem authority_kept tokenHash cfg decode error_text parse api_parse printer api account sessionID c a w0 w :
  (forall c p b, credentials_valid c = true -> pending_valid p c = true -> printer (refresh_body c p) = Some b -> decode b = Some (body_of c p)) ->
  logged_in tokenHash api account sessionID w0 c a ->
  rtc (system_step tokenHash cfg decode error_text parse api_parse printer api account sessionID) w0 w ->
  held tokenHash api account sessionID w.
Proof.
  intros Hw [H1 H2 H3 H4 H5] Hr.
  assert (Hh : held tokenHash api account sessionID w0) by (exists c, a; constructor; rewrite ?H1; try done; by left).
  clear -Hw Hr Hh. induction Hr as [w|w w1 w2 Hs _ IH]; [done|]. apply IH. by eapply step_held.
Qed.

(** *** A lost reply *)

Definition toy_printer (o : jobject) : option (list Z) :=
  match o with
  | [(_, JStr s); (_, JNum g); (_, JStr r); (_, JStr t); (_, JStr n)] => Some (s ++ r ++ t ++ n ++ be_put 8 g)
  | _ => None
  end.
Definition toy_decode (b : list Z) : option Service.refresh_body :=
  Some (Service.RefreshBody (zsub 0 36 b) (Some (be_get (zdrop 200 b))) (zsub 36 36 b) (zsub 72 64 b) (zsub 136 64 b)).
Lemma zsub_at (x y z : list Z) o n : o = zlen x -> n = zlen y -> zsub o n (x ++ y ++ z) = y.
Proof. intros -> ->. unfold zsub. rewrite zdrop_app_exact by done. by apply ztake_app_exact. Qed.
Lemma toy_fields (s r t n k : list Z) : zlen s = 36 -> zlen r = 36 -> zlen t = 64 -> zlen n = 64 ->
  let b := s ++ r ++ t ++ n ++ k in
  zsub 0 36 b = s /\ zsub 36 36 b = r /\ zsub 72 64 b = t /\ zsub 136 64 b = n /\ zdrop 200 b = k.
Proof.
  intros Ls Lr Lt Ln b. split_and!.
  - by apply (zsub_at [] s).
  - by apply (zsub_at s r).
  - unfold b. rewrite (app_assoc s). apply (zsub_at _ t); rewrite ?zlen_app; lia.
  - unfold b. rewrite (app_assoc r), (app_assoc s). apply (zsub_at _ n); rewrite ?zlen_app; lia.
  - unfold b. rewrite (app_assoc t), (app_assoc r), (app_assoc s). apply zdrop_app_exact. rewrite !zlen_app. lia.
Qed.
Transparent uuid hex.
Lemma toy_wire c p b : credentials_valid c = true -> pending_valid p c = true -> toy_printer (refresh_body c p) = Some b -> toy_decode b = Some (body_of c p).
Proof.
  intros [(C1 & _ & _ & _ & C5 & _) C6]%credentials_valid_spec (_ & P2 & _ & P4 & P5 & P6 & _)%pending_valid_spec.
  unfold uuid, hex in *. repeat match goal with H : _ && _ = true |- _ => apply andb_prop in H as [H _] end. bools.
  unfold toy_printer, refresh_body, toy_decode, body_of. intros E. apply (f_equal (default [])) in E. cbn [default from_option id] in E. subst b.
  destruct (toy_fields (auth_session_id c) (request_id p) (next_token p) (next_refresh_token p) (be_put 8 (expected_generation p)))
    as (-> & -> & -> & -> & ->); [done..|]. rewrite be_get_put_small; [done|].
  change (256 ^ Z.of_nat 8) with 18446744073709551616. unfold AUTH_MAX_GENERATION in *. lia.
Qed.
Opaque uuid hex.
Definition same_text (t : list Z) : list Z := t.
Definition toy_error (f : Service.failure) : list Z := lit "{}".
Definition toy_api : list Z := lit "https://example.net".
Definition toy_account : list Z := lit "account".
Definition toy_cfg : Service.config := Service.Config 2592000000 3600000 60000.
Definition toy_row : Service.authSession :=
  Service.AuthSession sample_session toy_account 1 7 (replicate 64 98) (replicate 64 97) 1700000600000 1700086400000 0 [] [] [] 0 [] [] 0 0.
Definition toy_db : Service.database :=
  Service.Database [toy_row] [Service.TokenRow (replicate 64 97) true toy_account 1 1700000600000 sample_session] [Service.TenantRow toy_account 1 (lit "active")].
Definition toy_world : world := World (MkProfile toy_api toy_account (Some sample_credentials)) None toy_db ob_auth_credentials_clear None false [].
Definition toy_clock : Service.clock := Service.Clock 1700000001000 1700000001000 1700000001000 false.
(** The storage works, the request arrives, the reply is lost and the process dies. *)
Definition toy_script : list fate := [smooth toy_clock; smooth toy_clock; Fate false (fun _ => FailAfter) true toy_clock].
Definition toy_rotate := system_rotate same_text toy_cfg toy_decode toy_error no_json sample_api_parse toy_printer toy_api toy_account sample_session.
Definition cut_short : world :=
  match toy_rotate sample_rotate true 7 true sample_manager (enter ob_auth_credentials_clear None toy_script toy_world) with
  | Some (_, _, w) => w | None => toy_world end.
Definition attempt_of (w : world) : ob_auth_pending := match w_journal w with Some j => jr_pending j | None => ob_auth_pending_clear end.
Definition row_of (w : world) : Service.authSession := default toy_row (Service.readAuthSession (w_db w) sample_session).
Example service_ahead : Service.Generation (row_of cut_short) = 8 /\ option_map generation (pf_auth (w_profile cut_short)) = Some 7.
Proof. vm_compute. done. Qed.
Lemma authority_kept_witness : held same_text toy_api toy_account sample_session cut_short.
Proof.
  apply (authority_kept same_text toy_cfg toy_decode toy_error no_json sample_api_parse toy_printer toy_api toy_account sample_session
           sample_credentials toy_row toy_world cut_short toy_wire); [by constructor|].
  apply rtc_once. eapply (sys_rotate _ _ _ _ _ _ _ _ _ _ ob_auth_credentials_clear None toy_script sample_manager sample_rotate true 7 true). vm_compute. reflexivity.
Defined.
Definition late_reply : Service.authReceipt := reply (row_of cut_short).
Definition toy_reply_parse (t : list Z) : option cj :=
  if list_eqb t (Service.receipt_text late_reply) then Some (CObj (receipt_object late_reply)) else None.
Lemma authority_recovers_witness : exists m' w',
  system_rotate same_text toy_cfg toy_decode toy_error toy_reply_parse sample_api_parse toy_printer toy_api toy_account sample_session
    sample_rotate false 0 true sample_manager (enter ob_auth_credentials_clear None (replicate 3 (smooth toy_clock)) cut_short) = Some (None, m', w') /\
  am_credentials m' = credentials_after sample_credentials (attempt_of cut_short) late_reply /\ w_journal w' = None.
Proof.
  destruct (authority_recovers same_text toy_cfg toy_decode toy_error toy_reply_parse sample_api_parse toy_printer toy_api toy_account
    sample_credentials (attempt_of cut_short) (row_of cut_short) toy_clock (w_db cut_short)) with
    (b := default [] (toy_printer (refresh_body sample_credentials (attempt_of cut_short)))) (j := Null)
    (v := sample_rotate) (f := false) (g := 0) (want := true) (m := sample_manager) (cur := ob_auth_credentials_clear)
    (att := @None ob_auth_pending) (w := cut_short) as (m' & w' & E & A & _ & _ & J & _).
  all: try (vm_compute; reflexivity).
  - constructor; vm_compute; reflexivity.
  - constructor; vm_compute; done.
  - by vm_compute.
  - by vm_compute.
  - right. vm_compute. reflexivity.
  - exists m', w'. split; [exact E|]. split; [exact A|exact J].
Defined.
