(* ===== verification/Server.v ===== *)
(** * The broker's control loop

    src/sdk/c/remote/peer/ws_server.inc and the server half of src/sdk/c/remote/ob_remote.c:
    a served broker registers, keeps one websocket with heartbeats and a lease, and starts a
    peer for every session the service pushes.  The websocket is the one of Ws.v, the peers
    are the handles of Peer.v, which other threads move between the rounds. *)

From Stdlib Require Import QArith Qround.
From stdpp Require Import relations.
From S2P Require Import Prelude.
From S2P Require Import Json Peer PeerCrypto Api Coordinator Target Ws Control ControlLoop.
#[local] Open Scope Z_scope.
#[local] Arguments lit : simpl never.

(** ** The handle *)

Record serve_options := ServeOptions {
  allow_rules : list allow_rule; max_peers : Z; max_maps_per_peer : Z; max_flows_per_peer : Z; setup_timeout_ms : Z;
  serve_udp_idle_ms : Z; serve_stun : option (list Z); serve_stun_port : Z }.
(** [sv_seen] lists the identifiers of the remembered sessions, newest first. *)
Record ob_remote_server := Server {
  sv_broker_id : list Z; sv_device_token : list Z; sv_options : serve_options;
  sv_initialized : bool; sv_manual_attempt : bool; sv_stop : bool; sv_caller_close : bool;
  sv_recovery : ob_recovery; sv_result : Z; sv_error : ob_remote_error;
  sv_peers : list ob_remote_peer; sv_seen : list (list Z); sv_control_cleanup : bool; sv_start_deadline_us : Z }.
#[export] Instance eta_server : Eta ob_remote_server := fun s =>
  Server (sv_broker_id s) (sv_device_token s) (sv_options s) (sv_initialized s) (sv_manual_attempt s) (sv_stop s) (sv_caller_close s)
    (sv_recovery s) (sv_result s) (sv_error s) (sv_peers s) (sv_seen s) (sv_control_cleanup s) (sv_start_deadline_us s).

(** [server_fail]; [e] may be NULL. *)
Definition server_fail (code : Z) (e : option ob_remote_error) (s : ob_remote_server) : ob_remote_server :=
  if sv_caller_close s then s
  else
    let s := if truth (sv_result s) then s
             else s <| sv_result := code |> <| sv_error := match e with
                    | Some e => RemoteError code (e_http e) (e_message e) | None => ob_error code 0 None end |> in
    s <| sv_recovery ::= fun r => ob_recovery_set_locked r FAILED (Some (sv_error s)) |> <| sv_stop := true |>.
Definition server_cancel (now : Z) (s : ob_remote_server) : bool :=
  negb (sv_control_cleanup s) && (sv_stop s || (negb (sv_initialized s) && (sv_start_deadline_us s <=? now))).

(** ** The pushed sessions *)

(** What one session of the list meets: the allocations (of the record, of the copied
    identifier, of the handle), the start of the handle's threads, and the clocks. *)
Record item_env := ItemEnv { i_seen : bool; i_dup : bool; i_peer : bool; i_start : bool; i_now : Z; i_policy_now : Z; i_t1 : Z; i_t2 : Z }.

(** The generation of a managed session: a whole number from 1 to 2^31 - 1. *)
Definition epoch_valid (v : option cj) : option Z :=
  match v with
  | Some (CNum q) => if Qle_bool 1 q && Qle_bool q (inject_Z 2147483647) && Qeq_bool q (inject_Z (Qfloor q)) then Some (Qfloor q) else None
  | _ => None
  end.
(** The last live handle of a connection. *)
Fixpoint find_logical (connection : list Z) (i : nat) (l : list ob_remote_peer) (found : option nat) : option nat :=
  match l with
  | [] => found
  | p :: l => find_logical connection (S i) l (if list_eqb (connection_id p) connection && negb (stop p) then Some i else found)
  end.
Definition relay_of (mode : option (list Z)) : Z :=
  if bool_decide (mode = Some (lit "force")) then OB_REMOTE_RELAY_FORCE
  else if bool_decide (mode = Some (lit "never")) then OB_REMOTE_RELAY_NEVER else OB_REMOTE_RELAY_AUTO.
(** The handle for a new session, before its threads start. *)
Definition session_peer (v : item_env) (s : ob_remote_server) (sid : list Z) (mode connection : option (list Z)) (generation : Z) : ob_remote_peer :=
  let o := sv_options s in
  let p := new_peer (i_now v) (sv_broker_id s) (Some (ConnectOptions (relay_of mode) (setup_timeout_ms o) (serve_stun o) (serve_stun_port o)
             (max_maps_per_peer o) (max_flows_per_peer o) (serve_udp_idle_ms o))) in
  let p := p <| is_server := true |> <| control_discovered := true |>
             <| recovery ::= fun r => ob_recovery_apply_policy_locked (i_policy_now v) r (r_policy (sv_recovery s)) |> in
  let p := match connection with
           | Some c => p <| connection_id := c |> <| control_managed := true |> <| control_generation := generation |>
           | None => p end in
  p <| session_id := Some sid |> <| bearer := Some (sv_device_token s) |>.
(** A newer session of a connection replaces the transport of its handle. *)
Definition replace_session (v : item_env) (sid : list Z) (generation : Z) (p : ob_remote_peer) : ob_remote_peer :=
  if (control_generation p <? generation) && (pending_control_generation p <? generation) then
    ob_peer_transport_fail_locked (i_t1 v) (i_t2 v) (p <| pending_session_id := Some sid |> <| pending_control_generation := generation |>)
      OB_REMOTE_ECLOSED (lit "A fresh control session replaced the transport")
  else p.

(** One session: [inl] when the whole snapshot is given up, else the server and the session
    a handle was started for. *)
Definition snapshot_item (v : item_env) (item : cj) (s : ob_remote_server) : ob_remote_server + (ob_remote_server * option (list Z)) :=
  let sid := str item (lit "session_id") in
  let mode := str item (lit "relay_mode") in
  let connection := str item (lit "connection_id") in
  let epoch := epoch_valid (get_item item (lit "generation")) in
  if negb (ob_valid_id sid) ||
     (bool_decide (is_Some connection) && (negb (ob_valid_id connection) || negb (bool_decide (is_Some epoch))))
  then inl (server_fail OB_REMOTE_EPROTOCOL None s)
  else
    let sid := default [] sid in
    let generation := match connection with Some _ => default 0 epoch | None => 0 end in
    let logical := c ← connection; find_logical c 0 (sv_peers s) None in
    if existsb (list_eqb sid) (sv_seen s) then inr (s, None)
    else if negb (i_seen v) || (4096 <=? zlen (sv_seen s)) then inl (server_fail OB_REMOTE_ELIMIT None s)
    else match logical with
    | Some i =>
      if negb (i_dup v) then inr (s, None)
      else inr (s <| sv_peers ::= fun l => alter (replace_session v sid generation) i l |> <| sv_seen ::= cons sid |>, None)
    | None =>
      if max_peers (sv_options s) <=? zlen (sv_peers s) then inr (s, None)
      else if negb (i_peer v) || negb (i_start v) then inr (s, None)
      else inr (s <| sv_peers ::= cons (session_peer v s sid mode connection generation) |> <| sv_seen ::= cons sid |>, Some sid)
    end.
Fixpoint snapshot_items (k : nat) (env : nat -> item_env) (items : list cj) (s : ob_remote_server) : bool * ob_remote_server * list (list Z) :=
  match items with
  | [] => (true, s, [])
  | item :: items =>
    match snapshot_item (env k) item s with
    | inl s => (false, s, [])
    | inr (s, started) =>
      let r := snapshot_items (S k) env items s in
      (r.1, match started with Some sid => sid :: r.2 | None => r.2 end)
    end
  end.
(** Sessions are forgotten when the service no longer lists them and no handle uses them. *)
Definition listed (items : list cj) (id : list Z) : bool := existsb (fun item => bool_decide (str item (lit "session_id") = Some id)) items.
Definition active (peers : list ob_remote_peer) (id : list Z) : bool := existsb (fun p => bool_decide (session_id p = Some id)) peers.
Definition prune (items : list cj) (s : ob_remote_server) : ob_remote_server :=
  s <| sv_seen ::= List.filter (fun id => listed items id || active (sv_peers s) id) |>.
(** [server_snapshot], and the sessions handles were started for. *)
Definition server_snapshot (env : nat -> item_env) (response : cj) (s : ob_remote_server) : ob_remote_server * list (list Z) :=
  match get_item response (lit "sessions") with
  | Some (CArr items) =>
    let '(complete, s, started) := snapshot_items 0 env items s in
    (if complete then prune items s else s, started)
  | _ => (server_fail OB_REMOTE_EPROTOCOL None s, [])
  end.

(** [server_suspend_peers]: managed peers lose their transport, the others end. *)
Definition suspend_peer (t1 t2 : Z) (reason : list Z) (p : ob_remote_peer) : ob_remote_peer :=
  if control_managed p then ob_peer_transport_fail_locked t1 t2 p OB_REMOTE_ECLOSED reason else ob_peer_fail_locked p OB_REMOTE_ECLOSED reason.
Definition server_suspend_peers (t1 t2 : Z) (reason : list Z) (s : ob_remote_server) : ob_remote_server :=
  s <| sv_peers ::= map (suspend_peer t1 t2 reason) |>.

(** ** Reconnecting *)

(** [server_retry_allowed]: whether to try, the deadline to wait for, the server. *)
Definition server_retry_allowed (connected : bool) (now : Z) (s : ob_remote_server) : bool * Z * ob_remote_server :=
  let s := if requested (sv_recovery s) then
             s <| sv_recovery ::= fun r => r <| requested := false |> <| info ::= fun i => i <| attempts := 0 |> |> <| outage_us := now |> <| retry_us := 0 |> |>
               <| sv_manual_attempt := true |>
           else s in
  let reconnect := retry_us (sv_recovery s) in
  let r := sv_recovery s in
  let s := if connected && truth (stable_us r) && (stable_reset_ms (r_policy r) * 1000 <=? u64 (now - stable_us r))
           then s <| sv_recovery ::= fun r => r <| info ::= fun i => i <| attempts := 0 |> |> <| outage_us := 0 |> |> else s in
  let r := sv_recovery s in
  let exhausted := negb connected && sv_initialized s && negb (sv_manual_attempt s) &&
    (truth (disabled (r_policy r)) || (max_attempts (r_policy r) <=? attempts (info r)) ||
     (truth (outage_us r) && (retry_budget_ms (r_policy r) * 1000 <=? u64 (now - outage_us r)))) in
  (negb exhausted, reconnect,
   if exhausted && negb (bool_decide (state (info r) = PAUSED)) then s <| sv_recovery ::= fun r => ob_recovery_set_locked r PAUSED None |> else s).

(** The doubling loop, which makes at most [n] rounds. *)
Fixpoint double_delay (n : nat) (delay max : Z) : Z :=
  match n with O => delay | S n => if delay <? max then double_delay n (delay * 2) max else delay end.
Record delay_env := DelayEnv { y_now1 : Z; y_now2 : Z; y_random : Z }.
Definition retry_delay (r : ob_recovery) (random : Z) : Z :=
  let p := r_policy r in
  let delay := if truth (attempts (info r)) then initial_delay_ms p else 0 in
  let delay := double_delay (Z.to_nat (attempts (info r) - 1)) delay (max_delay_ms p) in
  let delay := if max_delay_ms p <? delay then max_delay_ms p else delay in
  let delay := jitter random delay in
  if max_delay_ms p <? delay then max_delay_ms p else delay.
(** [server_retry_delay]: the new deadline and the server; [e] may be NULL. *)
Definition server_retry_delay (v : delay_env) (e : option ob_api_error) (reconnect : Z) (s : ob_remote_server) : Z * ob_remote_server :=
  if sv_stop s then (reconnect, s)
  else
    let r := sv_recovery s in
    let r := if truth (outage_us r) then r else r <| outage_us := y_now1 v |> in
    let at_us := u64 (y_now2 v + retry_delay r (y_random v) * 1000) in
    let error := ob_error OB_REMOTE_EHTTP (match e with Some e => http_status e | None => 0 end)
                   (Some (match e with Some e => ae_message e | None => lit "Broker control transport disconnected" end)) in
    (at_us, s <| sv_recovery := ob_recovery_set_locked (r <| retry_us := at_us |>) RETRY_WAIT (Some error) |>).

(** ** The worker *)

Record server_worker := ServerWorker {
  k_ws : ob_ws; k_heartbeat : Z; k_heartbeat_id : Z; k_heartbeat_sent : Z; k_lease_deadline : Z; k_reconnect : Z;
  k_lease_was_expired : bool; k_snapshot : option cj }.
#[export] Instance eta_worker : Eta server_worker := fun k =>
  ServerWorker (k_ws k) (k_heartbeat k) (k_heartbeat_id k) (k_heartbeat_sent k) (k_lease_deadline k) (k_reconnect k) (k_lease_was_expired k) (k_snapshot k).

(** What one round reads: the clock at its beginning, the answers of the websocket's
    operations, the clocks at each later point, and what each pushed session meets. *)
Record round_env := RoundEnv {
  n_now : Z; n_suspend : Z * Z; n_connect : connect_answer; n_pump : bool * recv * bool; n_delay1 : delay_env;
  n_suspend2 : Z * Z; n_delay2 : delay_env; n_realtime : Z; n_lease_now : Z; n_heartbeat_now : Z; n_stable_now : Z; n_refused_now : Z;
  n_waited : Z; n_due : Z; n_begin : option Z * list send_round; n_sent : Z; n_delay3 : delay_env;
  n_items : nat -> item_env; n_policy_now : Z; n_flows : nat -> Z; n_deliver : Z; n_stopped : bool }.

(** [while ((j = ob_ws_pop(ws, "sessions")))]: the last snapshot wins. *)
Fixpoint pop_sessions (n : nat) (w : ob_ws) (snapshot : option cj) : ob_ws * option cj :=
  match n with
  | O => (w, snapshot)
  | S n => match ob_ws_pop (lit "sessions") w with
           | (None, w) => (w, snapshot)
           | (Some j, w) => pop_sessions n w (get_item j (lit "body"))
           end
  end.

Section worker.
Context (parse : list Z -> option cj) (api_timeout_ms : Z).

(** Connect when allowed, then read: the error if any. *)
Definition round_connect (v : round_env) (s : ob_remote_server) (k : server_worker) : option ob_api_error * ob_remote_server * server_worker :=
  let '(allowed, reconnect, s) := server_retry_allowed (connected (k_ws k)) (n_now v) s in
  let k := k <| k_reconnect := reconnect |> in
  let '(rc, s, k) :=
    if negb (connected (k_ws k)) && allowed && (k_reconnect k <=? n_now v) then
      let s := s <| sv_recovery ::= fun r => ob_recovery_set_locked (r <| info ::= fun i => i <| attempts ::= fun a => u32 (a + 1) |> |>)
                                               (if sv_initialized s then RECONNECTING else CONNECTING) None |> <| sv_manual_attempt := false |> in
      let a := n_connect v in
      let (e, w) := ob_ws_connect 0 (ca_cancelled a) (ca_setup a) (ca_lines a) (ca_rc a) (ca_status a) (ca_socket a) (k_ws k) in
      let k := k <| k_ws := w |> <| k_heartbeat_id := 0 |> in
      match e with
      | Some e => (Some e, s, k)
      | None => (None, s <| sv_recovery ::= fun r => r <| info ::= fun i => i <| Peer.generation ::= fun g => u64 (g + 1) |> |> <| retry_us := 0 |> |>,
                 k <| k_heartbeat := 0 |> <| k_reconnect := 0 |>)
      end
    else (None, s, k) in
  match rc with
  | Some e => (Some e, s, k)
  | None => if connected (k_ws k) then
              let '(cancelled, r, alloc_ok) := n_pump v in
              let (e, w) := ob_ws_pump parse cancelled r alloc_ok (k_ws k) in (e, s, k <| k_ws := w |>)
            else (None, s, k)
  end.
(** The error of the connection: [inl] ends the worker. *)
Definition round_error (v : round_env) (e : option ob_api_error) (s : ob_remote_server) (k : server_worker)
    : ob_remote_server * server_worker + ob_remote_server * server_worker :=
  match e with
  | None => inr (s, k)
  | Some e =>
    if fatal_status (http_status e)
    then inl (server_fail OB_REMOTE_ECLOSED (Some (ob_error OB_REMOTE_ECLOSED (http_status e) (Some (ae_message e)))) s, k)
    else if (ae_code e =? OB_API_JSON) || (ae_code e =? OB_API_LIMIT) || (ae_code e =? OB_API_NOMEM)
    then inl (server_fail OB_REMOTE_EPROTOCOL None s, k)
    else let (reconnect, s) := server_retry_delay (n_delay1 v) (Some e) (k_reconnect k) s in
         inr (s, k <| k_heartbeat_id := 0 |> <| k_reconnect := reconnect |>)
  end.
(** A revocation: fatal, or the broker is offline and everything it carries stops. *)
Definition round_revoked (v : round_env) (s : ob_remote_server) (k : server_worker)
    : ob_remote_server * server_worker + ob_remote_server * server_worker :=
  match ob_ws_pop (lit "revoked") (k_ws k) with
  | (None, w) => inr (s, k <| k_ws := w |>)
  | (Some j, w) =>
    let k := k <| k_ws := w |> in
    let status := status_of j in
    if fatal_status status then inl (server_fail OB_REMOTE_ECLOSED None s, k)
    else
      let (s, k) := if status =? 409
                    then (server_suspend_peers (n_suspend2 v).1 (n_suspend2 v).2 (lit "Broker offline; new authorization required") s,
                          k <| k_lease_was_expired := true |>)
                    else (s, k) in
      let (reconnect, s) := server_retry_delay (n_delay2 v) None (k_reconnect k) s in
      inr (s, k <| k_ws ::= ob_ws_disconnect |> <| k_heartbeat_id := 0 |> <| k_reconnect := reconnect |>)
  end.
(** The lease granted by a heartbeat: the end in the service's time, at most two minutes. *)
Definition grant (v : round_env) (expires : Z) (s : ob_remote_server) (k : server_worker) : ob_remote_server * server_worker :=
  let remaining := Z.min (expires - n_realtime v) 120000000 in
  let k := k <| k_lease_deadline := u64 (n_lease_now v + remaining) |> <| k_heartbeat := u64 (n_heartbeat_now v + heartbeat_interval remaining) |>
             <| k_lease_was_expired := false |> in
  let s := if sv_initialized s then s else s <| sv_recovery ::= fun r => r <| info ::= fun i => i <| attempts := 0 |> |> <| outage_us := 0 |> |> in
  let s := s <| sv_initialized := true |> in
  let s := if bool_decide (state (info (sv_recovery s)) = CONNECTED) then s
           else s <| sv_recovery ::= fun r => ob_recovery_set_locked (r <| stable_us := n_stable_now v |>) CONNECTED None |> in
  (s <| sv_recovery ::= fun r => r <| retry_us := 0 |> <| requested := false |> |>, k).
Definition round_heartbeat (v : round_env) (s : ob_remote_server) (k : server_worker)
    : ob_remote_server * server_worker + ob_remote_server * server_worker :=
  if negb (truth (k_heartbeat_id k)) then inr (s, k)
  else match ob_ws_result (k_heartbeat_id k) (k_ws k) with
  | (Some j, w) =>
    let k := k <| k_ws := w |> <| k_heartbeat_id := 0 |> in
    let status := status_of j in
    if (200 <=? status) && (status <? 300) then
      let expires := expiry (b ← get_item j (lit "body"); br ← get_item b (lit "broker"); str br (lit "lease_expires_at")) in
      if expires <=? n_realtime v then inl (server_fail OB_REMOTE_EPROTOCOL None s, k) else inr (grant v expires s k)
    else if fatal_status status then inl (server_fail OB_REMOTE_ECLOSED None s, k)
    else inr (s, k <| k_heartbeat := u64 (n_refused_now v + 200000) |>)
  | (None, w) =>
    let k := k <| k_ws := w |> in
    if api_timeout_ms * 1000 <=? u64 (n_waited v - k_heartbeat_sent k)
    then inr (s, k <| k_ws ::= ob_ws_disconnect |> <| k_heartbeat_id := 0 |>) else inr (s, k)
  end.
(** The next heartbeat; [None] when its rounds are used up. *)
Definition round_begin (v : round_env) (s : ob_remote_server) (k : server_worker) : option (ob_remote_server * server_worker) :=
  if negb (truth (k_heartbeat_id k)) && connected (k_ws k) && (k_heartbeat k <=? n_due v) then
    match ob_ws_begin parse (lit "heartbeat") (n_begin v).1 (n_begin v).2 (k_ws k) with
    | None => None
    | Some (Some e, _, w) =>
      let (reconnect, s) := server_retry_delay (n_delay3 v) (Some e) (k_reconnect k) s in
      Some (s, k <| k_ws := w |> <| k_heartbeat_id := 0 |> <| k_reconnect := reconnect |>)
    | Some (None, id, w) => Some (s, k <| k_ws := w |> <| k_heartbeat_id := id |> <| k_heartbeat_sent := n_sent v |>)
    end
  else Some (s, k).
(** The snapshot is used only under a live authorisation. *)
Definition round_snapshot (v : round_env) (s : ob_remote_server) (k : server_worker) : ob_remote_server * server_worker * list (list Z) :=
  match k_snapshot k with
  | Some j =>
    if sv_initialized s && negb (k_lease_was_expired k) && negb (sv_stop s || n_stopped v)
    then let (s, started) := server_snapshot (n_items v) j s in (s, k <| k_snapshot := None |>, started)
    else (s, k, [])
  | None => (s, k, [])
  end.
(** Idle contexts expire and stopped handles are destroyed. *)
Definition expire_peer (now policy_now flows : Z) (policy : policy) (p : ob_remote_peer) : ob_remote_peer :=
  let p := p <| recovery ::= fun r => ob_recovery_apply_policy_locked policy_now r policy |> in
  let deadline := if truth (recovery_deadline_us p) then recovery_deadline_us p else u64 (deadline_us p + flow_grace_ms policy * 1000) in
  if control_managed p && negb (transport_available p) && (flows =? 0) && (deadline <=? now)
  then ob_peer_fail_locked p OB_REMOTE_ECLOSED (lit "Idle recovery context expired") else p.
Fixpoint reap (i : nat) (v : round_env) (policy : policy) (l : list ob_remote_peer) : list ob_remote_peer :=
  match l with
  | [] => []
  | p :: l => let p := expire_peer (n_now v) (n_policy_now v) (n_flows v i) policy p in
              if stop p then reap (S i) v policy l else p :: reap (S i) v policy l
  end.

Inductive outcome := Waits | Breaks (s : ob_remote_server) (k : server_worker) | Continues (s : ob_remote_server) (k : server_worker) (started : list (list Z)).
(** One round of the loop of [ob_server_worker]. *)
Definition server_round (v : round_env) (s : ob_remote_server) (k : server_worker) : outcome :=
  if negb (sv_initialized s) && (sv_start_deadline_us s <=? n_now v) then Breaks (server_fail OB_REMOTE_ETIMEOUT None s) k
  else
    let (s, k) := if truth (k_lease_deadline k) && (k_lease_deadline k <=? n_now v) && negb (k_lease_was_expired k)
                  then (server_suspend_peers (n_suspend v).1 (n_suspend v).2 (lit "Broker authorization lease expired") s,
                        k <| k_lease_was_expired := true |>)
                  else (s, k) in
    let '(e, s, k) := round_connect v s k in
    match round_error v e s k with
    | inl (s, k) => Breaks s k
    | inr (s, k) =>
      match round_revoked v s k with
      | inl (s, k) => Breaks s k
      | inr (s, k) =>
        let (w, snapshot) := pop_sessions (length (queue (k_ws k))) (k_ws k) (k_snapshot k) in
        let k := k <| k_ws := w |> <| k_snapshot := snapshot |> in
        match round_heartbeat v s k with
        | inl (s, k) => Breaks s k
        | inr (s, k) =>
          match round_begin v s k with
          | None => Waits
          | Some (s, k) =>
            let '(s, k, started) := round_snapshot v s k in
            let s := s <| sv_peers ::= reap 0 v (r_policy (sv_recovery s)) |> in
            Continues (s <| sv_recovery := (ob_recovery_deliver (n_deliver v) (sv_recovery s)).2 |>) k started
          end
        end
      end
    end.
(** After the loop: every handle ends; a broker closed by the caller is reported offline
    over the websocket or, when that fails, by one request. *)
Definition server_exit (rpc_closed : bool) (deliver : Z) (s : ob_remote_server) (k : server_worker) : ob_remote_server * option request :=
  let s := s <| sv_peers ::= map (fun p => ob_peer_fail_locked p OB_REMOTE_ECLOSED (lit "Broker stopped or revoked")) |> in
  let (s, r) := if sv_caller_close s
                then (s <| sv_control_cleanup := true |>,
                      if connected (k_ws k) && rpc_closed then None
                      else Some (Request POST (lit "/v1/brokers/" ++ sv_broker_id s ++ lit "/offline") (Some (sv_device_token s)) None))
                else (s, None) in
  (s <| sv_recovery := (ob_recovery_deliver deliver (sv_recovery s)).2 |>, r).
Definition new_worker (w : ob_ws) : server_worker := ServerWorker w 0 0 0 0 0 false None.
(** The start of the worker; without a websocket it ends at once. *)
Definition server_start (created : option ob_ws) (s : ob_remote_server) : ob_remote_server * option server_worker :=
  match created with Some w => (s, Some (new_worker w)) | None => (server_fail OB_REMOTE_ENOMEM None s, None) end.
End worker.

(** ** Serving, and the caller's operations *)

Definition rule_valid (r : allow_rule) : bool :=
  ob_valid_host (Some (rule_host r)) true && truth (port_first r) && (port_first r <=? port_last r) &&
  ((rule_protocol r =? OB_REMOTE_TCP) || (rule_protocol r =? OB_REMOTE_UDP)).
(** The argument checks; [has_rules]: the pointer to the rules is set. *)
Definition serve_invalid (api out has_rules : bool) (name password : option (list Z)) (o : option serve_options) : bool :=
  negb api || negb out || match name with Some n => (zlen n =? 0) || (128 <? zlen n) | None => true end ||
  match password with Some p => (zlen p =? 0) || (1024 <? zlen p) | None => true end ||
  match o with
  | None => false
  | Some o => (OB_MAX_ACL <? zlen (allow_rules o)) || (truth (zlen (allow_rules o)) && negb has_rules) || (128 <? max_peers o) ||
      (128 <? max_maps_per_peer o) || (512 <? max_flows_per_peer o) || (300000 <? setup_timeout_ms o) ||
      match serve_stun o with Some _ => negb (ob_valid_host (serve_stun o) false) | None => false end
  end.
Definition no_options : serve_options := ServeOptions [] 0 0 0 0 0 None 0.
Definition with_defaults (o : option serve_options) : serve_options :=
  let o := default no_options o in
  ServeOptions (allow_rules o) (def (max_peers o) 16) (max_maps_per_peer o) (max_flows_per_peer o) (def (setup_timeout_ms o) 30000)
    (serve_udp_idle_ms o) (serve_stun o) (serve_stun_port o).
(** The children cJSON_ArrayForEach visits. *)
Definition children (j : option cj) : list cj := match j with Some (CArr l) => l | Some (CObj l) => map snd l | _ => [] end.
(** The registered broker of this name: [inl] when it is online, else its identifier. *)
Fixpoint find_broker (name : list Z) (l : list cj) : unit + option (list Z) :=
  match l with
  | [] => inr None
  | item :: l =>
    if bool_decide (str item (lit "name") = Some name) && ob_valid_id (str item (lit "id")) then
      match get_item item (lit "online") with Some (CBool true) => inl tt | _ => inr (str item (lit "id")) end
    else find_broker name l
  end.
Section serve.
(** [request r]: what [ob_control_request] returns for the request. *)
Context (control : request -> ob_remote_error + cj) (printer : jobject -> option (list Z)).
Definition registration (name : list Z) (known : option (list Z)) : request :=
  match known with
  | Some id => Request POST (lit "/v1/brokers/" ++ id ++ lit "/token") None None
  | None => Request POST (lit "/v1/brokers") None (printer [(lit "name", JStr name)])
  end.
(** [ob_remote_serve] up to the start of the worker, which then waits for it; [alloc_ok] for
    its allocations, [dup_ok] for the copies of the reply, [thread_ok] for the worker. *)
Definition ob_remote_serve (alloc_ok dup_ok thread_ok api out has_rules : bool) (now : Z) (name password : option (list Z)) (o : option serve_options)
    : ob_remote_error + ob_remote_server :=
  if serve_invalid api out has_rules name password o then inl (ob_error OB_REMOTE_EINVAL 0 None)
  else if negb alloc_ok then inl (ob_error OB_REMOTE_ENOMEM 0 None)
  else if negb (forallb rule_valid (allow_rules (with_defaults o))) then inl (ob_error OB_REMOTE_EINVAL 0 (Some (lit "Invalid target allow rule")))
  else
    let name := default [] name in
    match control (Request GET (lit "/v1/brokers") None None) with
    | inl e => inl e
    | inr response =>
      match find_broker name (children (get_item response (lit "brokers"))) with
      | inl _ => inl (ob_error OB_REMOTE_EHTTP 409 (Some (lit "Broker name is already online")))
      | inr known =>
        match control (registration name known) with
        | inl e => inl e
        | inr response =>
          let id := match known with
                    | Some id => Some id
                    | None => let id := b ← get_item response (lit "broker"); str b (lit "id") in if ob_valid_id id then id else None
                    end in
          match id, str response (lit "device_token") with
          | Some id, Some token =>
            if negb dup_ok then inl (ob_error OB_REMOTE_EPROTOCOL 0 (Some (lit "Invalid broker registration response")))
            else if negb thread_ok then inl (ob_error OB_REMOTE_EIO 0 (Some (lit "Cannot start broker control worker")))
            else inr (Server id token (with_defaults o) false false false false ob_recovery_init 0 no_error [] [] false (u64 (now + 15000000)))
          | _, _ => inl (ob_error OB_REMOTE_EPROTOCOL 0 (Some (lit "Invalid broker registration response")))
          end
        end
      end
    end.
End serve.
(** The wait of [ob_remote_serve] runs into its deadline. *)
Definition serve_timeout (s : ob_remote_server) : ob_remote_server :=
  if negb (sv_initialized s) && negb (truth (sv_result s))
  then s <| sv_result := OB_REMOTE_ETIMEOUT |> <| sv_error := ob_error OB_REMOTE_ETIMEOUT 0 (Some (lit "Broker WebSocket startup timed out")) |> <| sv_stop := true |>
  else s.
Definition ob_remote_server_status (s : ob_remote_server) : Z * ob_remote_error := (sv_result s, sv_error s).
(** The first part of [ob_remote_server_close]; the worker then ends and the handles are destroyed. *)
Definition ob_remote_server_close (s : ob_remote_server) : ob_remote_server :=
  s <| sv_caller_close := true |> <| sv_stop := true |> <| sv_recovery ::= fun r => ob_recovery_set_locked r CLOSED None |>.
Definition ob_remote_server_set_reconnect_policy (now : Z) (i : option policy) (s : ob_remote_server) : Z * ob_remote_server :=
  match normalize i with
  | None => (OB_REMOTE_EINVAL, s)
  | Some n => (0, s <| sv_recovery ::= fun r => ob_recovery_apply_policy_locked now r n |>)
  end.
Definition ob_remote_server_get_state (now : Z) (s : ob_remote_server) : connection_info := Peer.snapshot now (sv_recovery s).
Definition ob_remote_server_set_state_callback (cb : option Z) (s : ob_remote_server) : ob_remote_server :=
  s <| sv_recovery ::= fun r => r <| callback := cb |> <| callback_pending := true |> |>.
Definition ob_remote_server_reconnect (s : ob_remote_server) : Z * ob_remote_server :=
  let rc := if sv_stop s then if truth (sv_result s) then sv_result s else OB_REMOTE_ECLOSED else 0 in
  (rc, if negb (truth rc) && negb (bool_decide (state (info (sv_recovery s)) = CONNECTED))
       then s <| sv_recovery ::= fun r => r <| requested := true |> |> else s).

(** ** One handle per session

    What the threads of a handle, and the server itself, may do to it: its connection stays,
    a stopped handle stays stopped, and only a managed handle changes its session. *)

Record peer_moves (p p' : ob_remote_peer) : Prop := {
  pm_connection : connection_id p' = connection_id p;
  pm_managed : control_managed p' = control_managed p;
  pm_stop : stop p = true -> stop p' = true;
  pm_session : control_managed p = false -> session_id p' = session_id p }.
#[export] Instance peer_moves_preorder : PreOrder peer_moves.
Proof.
  split; [by constructor|]. intros p q r [] []. constructor; try congruence; auto. intros. rewrite pm_session1, pm_session0; congruence.
Qed.
Lemma fail_moves p code m : peer_moves p (ob_peer_fail_locked p code m).
Proof. unfold ob_peer_fail_locked. case_bool_decide; [done|]. cbv zeta. destruct (truth (result p)); [done|]. destruct (_ || _); done. Qed.
Lemma transport_fail_moves t1 t2 p code m : peer_moves p (ob_peer_transport_fail_locked t1 t2 p code m).
Proof.
  unfold ob_peer_transport_fail_locked. destruct (stop p) eqn:S; [done|]. destruct (negb (managed p)); [apply fail_moves|]. cbv zeta.
  destruct (truth (attempt_result p)); cbn -[u64 ob_recovery_set_locked]; repeat (case_match; cbn -[u64 ob_recovery_set_locked]); constructor; cbn; congruence.
Qed.
Lemma suspend_moves t1 t2 r p : peer_moves p (suspend_peer t1 t2 r p).
Proof. unfold suspend_peer. destruct (control_managed p); [apply transport_fail_moves|apply fail_moves]. Qed.
Lemma replace_moves v sid g p : peer_moves p (replace_session v sid g p).
Proof. unfold replace_session. destruct (_ && _); [|done]. etransitivity; [|apply transport_fail_moves]. done. Qed.
Lemma expire_moves now pn f pol p : peer_moves p (expire_peer now pn f pol p).
Proof. unfold expire_peer. cbv zeta. case_match; [|done]. etransitivity; [|apply fail_moves]. done. Qed.

(** Handles move on their own, and some are destroyed. *)
Inductive kept : list ob_remote_peer -> list ob_remote_peer -> Prop :=
  | kept_nil : kept [] []
  | kept_move p p' l l' : peer_moves p p' -> kept l l' -> kept (p :: l) (p' :: l')
  | kept_drop p l l' : kept l l' -> kept (p :: l) l'.
Lemma kept_refl l : kept l l.
Proof. induction l; by constructor. Qed.
Lemma kept_map f l : (forall p, peer_moves p (f p)) -> kept l (map f l).
Proof. intros H. induction l; by constructor. Qed.
Lemma kept_alter f i l : (forall p, peer_moves p (f p)) -> kept l (alter f i l).
Proof. intros H. revert i. induction l as [|p l IH]; intros [|i]; cbn; constructor; (done || apply kept_refl || apply IH). Qed.
Lemma kept_reap i v pol l : kept l (reap i v pol l).
Proof. revert i. induction l as [|p l IH]; intros i; cbn [reap]; [constructor|]. cbv zeta. destruct (stop _); constructor; try done. apply expire_moves. Qed.
Lemma kept_length l l' : kept l l' -> zlen l' <= zlen l.
Proof. induction 1; rewrite ?zlen_cons; lia. Qed.
Lemma kept_in l l' p' : kept l l' -> p' ∈ l' -> exists p, p ∈ l /\ peer_moves p p'.
Proof.
  induction 1 as [|p q l l' Hm _ IH|p l l' _ IH]; intros Hi; [by inversion Hi| |].
  - apply elem_of_cons in Hi as [->|Hi]; [exists p; split; [left|done]|]. destruct (IH Hi) as (x & ? & ?). exists x. split; [by right|done].
  - destruct (IH Hi) as (x & ? & ?). exists x. split; [by right|done].
Qed.

(** The sessions of unmanaged handles, the connections of live managed ones. *)
Definition plain_sessions (l : list ob_remote_peer) : list (list Z) := omap (fun p => if control_managed p then None else session_id p) l.
Definition live_connections (l : list ob_remote_peer) : list (list Z) :=
  omap (fun p => if control_managed p && negb (stop p) then Some (connection_id p) else None) l.
Lemma kept_plain l l' : kept l l' -> sublist (plain_sessions l') (plain_sessions l).
Proof.
  induction 1 as [|p q l l' [M1 M2 M3 M4] _ IH|p l l' _ IH]; [done| |].
  - cbn. rewrite M2. destruct (control_managed p); [done|]. rewrite M4 by done. destruct (session_id p); [by apply sublist_skip|done].
  - cbn. case_match; [by apply sublist_cons|done].
Qed.
Lemma kept_live l l' : kept l l' -> sublist (live_connections l') (live_connections l).
Proof.
  induction 1 as [|p q l l' [M1 M2 M3 M4] _ IH|p l l' _ IH]; [done| |].
  - cbn. rewrite M1, M2. destruct (control_managed p); [|done]. cbn [andb]. destruct (stop p); cbn [negb].
    + by rewrite M3.
    + destruct (stop q); cbn [negb]; [by apply sublist_cons|by apply sublist_skip].
  - cbn. case_match; [by apply sublist_cons|done].
Qed.

Record server_ok (s : ob_remote_server) : Prop := {
  so_peers : zlen (sv_peers s) <= max_peers (sv_options s);
  so_seen : NoDup (sv_seen s);
  so_bound : zlen (sv_seen s) <= 4096;
  so_known : forall p, p ∈ sv_peers s -> control_managed p = false -> exists sid, session_id p = Some sid /\ sid ∈ sv_seen s;
  so_plain : NoDup (plain_sessions (sv_peers s));
  so_live : NoDup (live_connections (sv_peers s));
  so_failed : sv_result s <> 0 -> sv_stop s = true;
  so_limit : max_peers (sv_options s) <= 128 }.
(** Changes that leave the remembered sessions and the limits alone. *)
Record settled (s s' : ob_remote_server) : Prop := {
  st_peers : kept (sv_peers s) (sv_peers s');
  st_seen : sv_seen s' = sv_seen s;
  st_options : sv_options s' = sv_options s;
  st_failed : (sv_result s <> 0 -> sv_stop s = true) -> sv_result s' <> 0 -> sv_stop s' = true }.
Lemma settled_ok s s' : settled s s' -> server_ok s -> server_ok s'.
Proof.
  intros [K E O F] [H1 H2 H3 H4 H5 H6 H7 H8]. constructor; rewrite ?E, ?O; try done.
  - pose proof (kept_length _ _ K). lia.
  - intros q Hq Hm. destruct (kept_in _ _ _ K Hq) as (p & Hp & M). destruct (H4 p Hp) as (sid & S1 & S2); [by rewrite <- (pm_managed _ _ M)|].
    exists sid. split; [|done]. rewrite (pm_session _ _ M); [done|]. by rewrite <- (pm_managed _ _ M).
  - eapply sublist_NoDup; [exact H5|by apply kept_plain].
  - eapply sublist_NoDup; [exact H6|by apply kept_live].
  - by apply F.
Qed.
Lemma kept_trans l1 l2 l3 : kept l1 l2 -> kept l2 l3 -> kept l1 l3.
Proof.
  intros H. revert l3. induction H as [|p q l l' M _ IH|p l l' _ IH]; intros l3 H3; [done| |constructor; by apply IH].
  inversion H3; subst; constructor; try by apply IH. by transitivity q.
Qed.
#[export] Instance settled_preorder : PreOrder settled.
Proof. split; [intros s; constructor; [apply kept_refl|done..]|]. intros x y z [] []. constructor; [by eapply kept_trans|congruence..|auto]. Qed.
(** Assignments to fields outside the table of sessions. *)
Lemma settled_same s s' : sv_peers s' = sv_peers s -> sv_seen s' = sv_seen s -> sv_options s' = sv_options s ->
  ((sv_result s <> 0 -> sv_stop s = true) -> sv_result s' <> 0 -> sv_stop s' = true) -> settled s s'.
Proof. intros E ? ? ?. constructor; [rewrite E; apply kept_refl|done..]. Qed.
Lemma server_fail_settled code e s : settled s (server_fail code e s).
Proof. unfold server_fail. cbv zeta. repeat case_match; by apply settled_same. Qed.
Lemma retry_allowed_settled c now s : settled s (server_retry_allowed c now s).2.
Proof. unfold server_retry_allowed. cbv zeta. cbn [snd]. repeat (case_match; cbn [snd]); by apply settled_same. Qed.
Lemma retry_delay_settled v e r s : settled s (server_retry_delay v e r s).2.
Proof. unfold server_retry_delay. cbv zeta. repeat (case_match; cbn [snd]); by apply settled_same. Qed.
Lemma suspend_settled t1 t2 r s : settled s (server_suspend_peers t1 t2 r s).
Proof. constructor; [apply kept_map; intros p; apply suspend_moves|done..]. Qed.

Lemma find_logical_none c i l f : find_logical c i l f = None -> f = None /\ ~ c ∈ live_connections l.
Proof.
  revert i f. induction l as [|p l IH]; cbn; intros i f H; [split; [done|by intros ?%elem_of_nil]|].
  destruct (IH _ _ H) as [E N]. destruct (list_eqb (connection_id p) c) eqn:C; cbn [andb] in E.
  - destruct (stop p); cbn [negb] in E; [|done]. split; [done|]. by rewrite andb_false_r.
  - split; [done|]. apply list_eqb_neq in C. destruct (control_managed p && negb (stop p)); [|exact N]. intros [->|?]%elem_of_cons; [done|by apply N].
Qed.
Lemma plain_seen s x : server_ok s -> x ∈ plain_sessions (sv_peers s) -> x ∈ sv_seen s.
Proof.
  intros [_ _ _ H _ _ _ _] (p & Hp & E)%list_elem_of_omap. destruct (control_managed p) eqn:M; [done|].
  destruct (H p Hp M) as (sid & S1 & S2). congruence.
Qed.
Lemma existsb_seen sid l : existsb (list_eqb sid) l = false -> ~ sid ∈ l.
Proof.
  intros H Hi%list_elem_of_In. assert (existsb (list_eqb sid) l = true); [|congruence]. apply existsb_exists. exists sid. split; [done|by apply list_eqb_refl].
Qed.
Lemma seen_cons s sid peers : server_ok s -> ~ sid ∈ sv_seen s -> zlen (sv_seen s) < 4096 -> kept (sv_peers s) peers ->
  server_ok (s <| sv_peers := peers |> <| sv_seen := sid :: sv_seen s |>).
Proof.
  intros H N L K. assert (H' : server_ok (s <| sv_peers := peers |>)) by (apply (settled_ok s); [by constructor|done]).
  destruct H' as [H1 H2 H3 H4 H5 H6 H7 H8]. constructor; cbn; try done; [by constructor|rewrite zlen_cons; cbn in H3; lia|].
  intros p Hp Hm. destruct (H4 p Hp Hm) as (x & X1 & X2). exists x. split; [done|by right].
Qed.
Lemma session_peer_fields v s sid mode c g : let p := session_peer v s sid mode c g in
  session_id p = Some sid /\ stop p = false /\ control_managed p = bool_decide (is_Some c) /\ (forall x, c = Some x -> connection_id p = x) /\
  is_server p = true /\ Peer.relay p = relay_of mode /\ bearer p = Some (sv_device_token s).
Proof. destruct c; cbn; split_and!; try done. by intros ? [= <-]. Qed.
(** A session is started only when it is new: the table stays well formed. *)
Lemma snapshot_item_ok v item s : server_ok s ->
  match snapshot_item v item s with inl s' => server_ok s' | inr r => server_ok r.1 end.
Proof.
  intros H. unfold snapshot_item. cbv zeta. destruct (_ || _); [apply (settled_ok s); [apply server_fail_settled|done]|].
  destruct (existsb _ _) eqn:X; [done|]. apply existsb_seen in X.
  destruct (_ || _) eqn:B; [apply (settled_ok s); [apply server_fail_settled|done]|]. apply orb_false_iff in B as [_ B%Z.leb_gt].
  destruct (c ← _; _) as [i|] eqn:L.
  - destruct (negb _); [done|]. cbn [fst].
    match goal with |- context [alter ?f i _] => apply (seen_cons s _ (alter f i (sv_peers s)) H X B) end. apply kept_alter. intros p. apply replace_moves.
  - destruct (Z.leb_spec (max_peers (sv_options s)) (zlen (sv_peers s))); [done|]. destruct (_ || _); [done|]. cbn [fst].
    set (con := str item (lit "connection_id")) in *. set (p := session_peer _ _ _ _ _ _).
    destruct (session_peer_fields v s (default [] (str item (lit "session_id"))) (str item (lit "relay_mode")) con
      (match con with Some _ => default 0 (epoch_valid (get_item item (lit "generation"))) | None => 0 end)) as (F1 & F2 & F3 & F4 & _).
    fold p in F1, F2, F3, F4. clearbody p. pose proof H as [H1 H2 H3 H4 H5 H6 H7 H8]. constructor; cbn; try done.
    + rewrite zlen_cons. lia.
    + by constructor.
    + rewrite zlen_cons. lia.
    + intros q [->|Hq]%elem_of_cons Hm; [eexists; split; [exact F1|by left]|].
      destruct (H4 q Hq Hm) as (x & X1 & X2). exists x. split; [done|by right].
    + rewrite F3. case_bool_decide; [done|]. rewrite F1. constructor; [|done]. intros ?%plain_seen; [|done]. done.
    + rewrite F2, andb_true_r, F3. case_bool_decide as C; [|done]. destruct C as [x Hx]. rewrite (F4 x Hx). constructor; [|done].
      rewrite Hx in L. cbn in L. by apply find_logical_none in L as [_ L].
Qed.
Lemma snapshot_items_ok k env items s : server_ok s -> server_ok (snapshot_items k env items s).1.2.
Proof.
  revert k s. induction items as [|item items IH]; intros k s H; [done|]. cbn [snapshot_items].
  pose proof (snapshot_item_ok (env k) item s H) as Hi. destruct (snapshot_item _ _ _) as [s'|[s' st]]; [done|]. cbn [fst snd] in *. cbv zeta. cbn [fst]. by apply IH.
Qed.
Lemma filtered_sublist {A} (f : A -> bool) l : sublist (List.filter f l) l.
Proof. induction l as [|x l IH]; [done|]. cbn. destruct (f x); [by apply sublist_skip|by apply sublist_cons]. Qed.
Lemma prune_ok items s : server_ok s -> server_ok (prune items s).
Proof.
  intros [H1 H2 H3 H4 H5 H6 H7 H8]. unfold prune. constructor; cbn; try done.
  - eapply sublist_NoDup; [exact H2|apply filtered_sublist].
  - pose proof (sublist_length _ _ (filtered_sublist (fun id => listed items id || active (sv_peers s) id) (sv_seen s))). unfold zlen in *. lia.
  - intros p Hp Hm. destruct (H4 p Hp Hm) as (sid & S1 & S2). exists sid. split; [done|]. apply list_elem_of_In, filter_In. split; [by apply list_elem_of_In|].
    apply orb_true_iff. right. unfold active. apply existsb_exists. exists p. split; [by apply list_elem_of_In|by apply bool_decide_eq_true].
Qed.
Lemma server_snapshot_ok env j s : server_ok s -> server_ok (server_snapshot env j s).1.
Proof.
  intros H. unfold server_snapshot. destruct (get_item j _) as [[]|]; try (apply (settled_ok s); [apply server_fail_settled|done]).
  pose proof (snapshot_items_ok 0 env l s H) as Hi. destruct (snapshot_items 0 env l s) as [[c s'] st]. cbn in Hi. cbn [fst]. destruct c; [by apply prune_ok|done].
Qed.

(** *** A round keeps the table *)

Section round.
Context (parse : list Z -> option cj) (api_timeout_ms : Z).
Lemma round_connect_settled v s k : settled s (round_connect parse v s k).1.2.
Proof.
  unfold round_connect. pose proof (retry_allowed_settled (connected (k_ws k)) (n_now v) s) as R.
  destruct (server_retry_allowed _ _ _) as [[al re] s1]. cbn [snd] in R. cbv zeta. etransitivity; [exact R|]. clear R.
  destruct (negb _ && _ && _).
  - destruct (ob_ws_connect _ _ _ _ _ _ _ _) as [[e|] w]; [by apply settled_same|].
    cbn [k_ws upd]. destruct (connected w); [|by apply settled_same]. destruct (n_pump v) as [[a b] c]. destruct (ob_ws_pump _ _ _ _ _). by apply settled_same.
  - destruct (connected _); [|by apply settled_same]. destruct (n_pump v) as [[a b] c]. destruct (ob_ws_pump _ _ _ _ _). by apply settled_same.
Qed.
Definition side {A B C} (r : A * B + A * C) : A := match r with inl x => x.1 | inr x => x.1 end.
Lemma round_error_settled v e s k : settled s (side (round_error v e s k)).
Proof.
  unfold round_error. destruct e as [e|]; [|done]. destruct (fatal_status _); [apply server_fail_settled|]. destruct (_ || _); [apply server_fail_settled|].
  pose proof (retry_delay_settled (n_delay1 v) (Some e) (k_reconnect k) s) as R. destruct (server_retry_delay _ _ _ _). exact R.
Qed.
Lemma round_revoked_settled v s k : settled s (side (round_revoked v s k)).
Proof.
  unfold round_revoked. destruct (ob_ws_pop _ _) as [[j|] w]; [|done]. cbv zeta. destruct (fatal_status _); [apply server_fail_settled|].
  destruct (_ =? 409).
  - etransitivity; [apply (suspend_settled (n_suspend2 v).1 (n_suspend2 v).2 (lit "Broker offline; new authorization required"))|].
    match goal with |- context [server_retry_delay ?a ?b ?c ?d] => pose proof (retry_delay_settled a b c d) as R; destruct (server_retry_delay a b c d) end. exact R.
  - match goal with |- context [server_retry_delay ?a ?b ?c ?d] => pose proof (retry_delay_settled a b c d) as R; destruct (server_retry_delay a b c d) end. exact R.
Qed.
Lemma grant_settled v e s k : settled s (grant v e s k).1.
Proof. unfold grant. cbv zeta. cbn [fst]. repeat case_match; by apply settled_same. Qed.
Lemma round_heartbeat_settled v s k : settled s (side (round_heartbeat api_timeout_ms v s k)).
Proof.
  unfold round_heartbeat. destruct (negb _); [done|]. destruct (ob_ws_result _ _) as [[j|] w]; cbv zeta.
  - destruct (_ && _); [destruct (_ <=? _); [apply server_fail_settled|apply grant_settled]|]. destruct (fatal_status _); [apply server_fail_settled|done].
  - destruct (_ <=? _); done.
Qed.
Lemma round_begin_settled v s k s' k' : round_begin parse v s k = Some (s', k') -> settled s s'.
Proof.
  unfold round_begin. destruct (negb _ && _ && _); [|by intros [= <- <-]]. destruct (ob_ws_begin _ _ _ _ _) as [[[[e|] id] w]|]; [| |done].
  - match goal with |- context [server_retry_delay ?a ?b ?c ?d] => pose proof (retry_delay_settled a b c d) as R; destruct (server_retry_delay a b c d) end.
    by intros [= <- <-].
  - by intros [= <- <-].
Qed.
Definition round_keeps (P : ob_remote_server -> Prop) (o : outcome) : Prop :=
  match o with Waits => True | Breaks s _ => P s | Continues s _ _ => P s end.
(** Up to the snapshot, and after it, a round settles. *)
Lemma round_stages v s k : match server_round parse api_timeout_ms v s k with
  | Waits => True
  | Breaks s' _ => settled s s'
  | Continues s' _ started => exists s1 k1, settled s s1 /\ started = (round_snapshot v s1 k1).2 /\ settled (round_snapshot v s1 k1).1.1 s'
  end.
Proof.
  unfold server_round. destruct (negb _ && _); [apply server_fail_settled|].
  set (sk := if truth (k_lease_deadline k) && _ && _ then _ else _).
  assert (H0 : settled s sk.1). { unfold sk. case_match; [apply suspend_settled|done]. }
  clearbody sk. destruct sk as [s0 k0]. cbn [fst] in H0.
  pose proof (round_connect_settled v s0 k0) as R1. destruct (round_connect _ _ _ _) as [[e s1] k1]. cbn [fst snd] in R1. rewrite R1 in H0. clear R1.
  pose proof (round_error_settled v e s1 k1) as R2. destruct (round_error _ _ _ _) as [[s2 k2]|[s2 k2]]; cbn [side fst] in R2;
    rewrite R2 in H0; clear R2; [done|].
  pose proof (round_revoked_settled v s2 k2) as R3. destruct (round_revoked _ _ _) as [[s3 k3]|[s3 k3]]; cbn [side fst] in R3;
    rewrite R3 in H0; clear R3; [done|].
  destruct (pop_sessions _ _ _) as [w snap]. cbv zeta. set (k4 := k3 <| k_ws := w |> <| k_snapshot := snap |>). clearbody k4.
  pose proof (round_heartbeat_settled v s3 k4) as R4. destruct (round_heartbeat _ _ _ _) as [[s5 k5]|[s5 k5]]; cbn [side fst] in R4;
    rewrite R4 in H0; clear R4; [done|].
  destruct (round_begin _ _ _ _) as [[s6 k6]|] eqn:B; [|done]. apply round_begin_settled in B. rewrite B in H0.
  destruct (round_snapshot v s6 k6) as [[s7 k7] started] eqn:E. exists s6, k6. rewrite E. split; [exact H0|]. split; [done|]. constructor; [apply kept_reap|done..].
Qed.
Lemma round_snapshot_ok v s k : server_ok s -> server_ok (round_snapshot v s k).1.1.
Proof.
  intros H. unfold round_snapshot. destruct (k_snapshot k) as [j|]; [|done]. destruct (_ && _ && _); [|done].
  pose proof (server_snapshot_ok (n_items v) j s H) as R. destruct (server_snapshot _ _ _). exact R.
Qed.
Lemma server_round_ok v s k : server_ok s -> round_keeps server_ok (server_round parse api_timeout_ms v s k).
Proof.
  intros H. pose proof (round_stages v s k) as R. destruct (server_round _ _ _ _ _) as [|s' k'|s' k' st]; cbn [round_keeps]; [done|by apply (settled_ok s)|].
  destruct R as (s1 & k1 & R1 & _ & R2). eapply settled_ok; [exact R2|]. apply round_snapshot_ok. by apply (settled_ok s).
Qed.
End round.

(** ** The life of a served broker *)

Section life.
Context (parse : list Z -> option cj) (api_timeout_ms : Z).
(** The clock at a granted lease is far from its end. *)
Definition clock_ok (v : round_env) : Prop := 0 <= n_lease_now v <= UINT64_MAX - 120000000.
(** Rounds of the worker until it breaks or is told to stop, moves of the handles, and the
    caller's operations; [None] when the worker has ended. *)
Inductive broker_step : ob_remote_server * option server_worker -> ob_remote_server * option server_worker -> Prop :=
  | bs_round v s k s' k' started : sv_stop s = false -> clock_ok v -> server_round parse api_timeout_ms v s k = Continues s' k' started ->
      broker_step (s, Some k) (s', Some k')
  | bs_break v s k s' k' c d : sv_stop s = false -> server_round parse api_timeout_ms v s k = Breaks s' k' ->
      broker_step (s, Some k) ((server_exit c d s' k').1, None)
  | bs_stop s k c d : sv_stop s = true -> broker_step (s, Some k) ((server_exit c d s k).1, None)
  | bs_peers s k l : Forall2 peer_moves (sv_peers s) l -> broker_step (s, k) (s <| sv_peers := l |>, k)
  | bs_timeout s k : broker_step (s, k) (serve_timeout s, k)
  | bs_close s k : broker_step (s, k) (ob_remote_server_close s, k)
  | bs_policy now i s k : broker_step (s, k) ((ob_remote_server_set_reconnect_policy now i s).2, k)
  | bs_callback cb s k : broker_step (s, k) (ob_remote_server_set_state_callback cb s, k)
  | bs_reconnect s k : broker_step (s, k) ((ob_remote_server_reconnect s).2, k).

Lemma Forall2_kept l l' : Forall2 peer_moves l l' -> kept l l'.
Proof. induction 1; by constructor. Qed.
Lemma exit_settled c d s k : settled s (server_exit c d s k).1.
Proof.
  unfold server_exit. cbv zeta. cbn [sv_caller_close upd]. destruct (sv_caller_close s);
    (constructor; [apply kept_map; intros p; apply fail_moves|done..]).
Qed.
(** The caller's operations touch neither handles nor sessions. *)
Lemma timeout_settled s : settled s (serve_timeout s).
Proof. unfold serve_timeout. destruct (_ && _); by apply settled_same. Qed.
Lemma policy_settled now i s : settled s (ob_remote_server_set_reconnect_policy now i s).2.
Proof. unfold ob_remote_server_set_reconnect_policy. destruct (normalize i); by apply settled_same. Qed.
Lemma reconnect_settled s : settled s (ob_remote_server_reconnect s).2.
Proof. unfold ob_remote_server_reconnect. cbv zeta. cbn [snd]. destruct (_ && _); by apply settled_same. Qed.
Lemma broker_step_ok x y : broker_step x y -> server_ok x.1 -> server_ok y.1.
Proof.
  intros [v s k s' k' st _ _ R|v s k s' k' c d _ R|s k c d _|s k l F|s k|s k|now i s k|cb s k|s k] H; cbn [fst] in *.
  - pose proof (server_round_ok parse api_timeout_ms v s k H) as K. by rewrite R in K.
  - pose proof (server_round_ok parse api_timeout_ms v s k H) as K. rewrite R in K. apply (settled_ok s'); [apply exit_settled|done].
  - apply (settled_ok s); [apply exit_settled|done].
  - apply (settled_ok s); [|done]. constructor; [by apply Forall2_kept|done..].
  - apply (settled_ok s); [apply timeout_settled|done].
  - apply (settled_ok s); [by apply settled_same|done].
  - apply (settled_ok s); [apply policy_settled|done].
  - apply (settled_ok s); [by apply settled_same|done].
  - apply (settled_ok s); [apply reconnect_settled|done].
Qed.
Lemma broker_steps_ok x y : rtc broker_step x y -> server_ok x.1 -> server_ok y.1.
Proof. induction 1 as [x|x y z Hs _ IH]; [done|]. intros H. by eapply IH, broker_step_ok. Qed.

(** *** Leases *)

(** An initialised broker has been granted a lease. *)
Definition leased (x : ob_remote_server * option server_worker) : Prop :=
  sv_initialized x.1 = true -> forall k, x.2 = Some k -> k_lease_deadline k <> 0.
(** The lease in force at a round: not yet over when the round began, or granted in it. *)
Definition in_force (v : round_env) (k : server_worker) : Prop :=
  n_now v < k_lease_deadline k \/
  exists expires, n_realtime v < expires /\ k_lease_deadline k = n_lease_now v + Z.min (expires - n_realtime v) 120000000.

(** Stages that do not touch the lease, except that it may be over. *)
Record lease_same (s : ob_remote_server) (k : server_worker) (s' : ob_remote_server) (k' : server_worker) : Prop := {
  ls_initialized : sv_initialized s' = sv_initialized s;
  ls_deadline : k_lease_deadline k' = k_lease_deadline k;
  ls_expired : k_lease_was_expired k' = false -> k_lease_was_expired k = false }.
Record lease_inv (v : round_env) (s : ob_remote_server) (k : server_worker) : Prop := {
  li_leased : sv_initialized s = true -> k_lease_deadline k <> 0;
  li_force : k_lease_was_expired k = false -> k_lease_deadline k = 0 \/ in_force v k }.
Lemma lease_keeps v s k s' k' : lease_same s k s' k' -> lease_inv v s k -> lease_inv v s' k'.
Proof. intros [E1 E2 E3] [H1 H2]. constructor; unfold in_force in *; rewrite ?E1, ?E2; auto. Qed.
Lemma fail_initialized code e s : sv_initialized (server_fail code e s) = sv_initialized s.
Proof. unfold server_fail. cbv zeta. by repeat case_match. Qed.
Lemma allowed_initialized c now s : sv_initialized (server_retry_allowed c now s).2 = sv_initialized s.
Proof. unfold server_retry_allowed. cbv zeta. cbn [snd]. by repeat (case_match; cbn [snd]). Qed.
Lemma delay_initialized v e r s : sv_initialized (server_retry_delay v e r s).2 = sv_initialized s.
Proof. unfold server_retry_delay. cbv zeta. by repeat (case_match; cbn [snd]). Qed.
Lemma round_connect_lease v s k e s' k' : round_connect parse v s k = (e, s', k') -> lease_same s k s' k'.
Proof.
  unfold round_connect. pose proof (allowed_initialized (connected (k_ws k)) (n_now v) s) as R.
  destruct (server_retry_allowed _ _ _) as [[al re] s1]. cbn [snd] in R. cbv zeta. destruct (negb _ && _ && _).
  - destruct (ob_ws_connect _ _ _ _ _ _ _ _) as [[e1|] w]; [intros [= <- <- <-]; by constructor|].
    cbn [k_ws upd]. destruct (connected w); [|intros [= <- <- <-]; by constructor]. destruct (n_pump v) as [[a b] c].
    destruct (ob_ws_pump _ _ _ _ _). intros [= <- <- <-]. by constructor.
  - destruct (connected _); [|intros [= <- <- <-]; by constructor]. destruct (n_pump v) as [[a b] c].
    destruct (ob_ws_pump _ _ _ _ _). intros [= <- <- <-]. by constructor.
Qed.
Lemma round_error_lease v e s k s' k' : round_error v e s k = inr (s', k') -> lease_same s k s' k'.
Proof.
  unfold round_error. destruct e as [e|]; [|intros [= <- <-]; by constructor]. destruct (fatal_status _); [done|]. destruct (_ || _); [done|].
  pose proof (delay_initialized (n_delay1 v) (Some e) (k_reconnect k) s) as R. destruct (server_retry_delay _ _ _ _). intros [= <- <-]. by constructor.
Qed.
Lemma round_revoked_lease v s k s' k' : round_revoked v s k = inr (s', k') -> lease_same s k s' k'.
Proof.
  unfold round_revoked. destruct (ob_ws_pop _ _) as [[j|] w]; [|intros [= <- <-]; by constructor]. cbv zeta. destruct (fatal_status _); [done|].
  destruct (_ =? 409); match goal with |- context [server_retry_delay ?a ?b ?c ?d] =>
    pose proof (delay_initialized a b c d) as R; destruct (server_retry_delay a b c d) end; intros [= <- <-]; by constructor.
Qed.
Lemma round_heartbeat_lease v s k s' k' : clock_ok v -> round_heartbeat api_timeout_ms v s k = inr (s', k') -> lease_inv v s k -> lease_inv v s' k'.
Proof.
  intros Hc. unfold round_heartbeat. destruct (negb _); [by intros [= <- <-]|]. destruct (ob_ws_result _ _) as [[j|] w]; cbv zeta.
  - destruct (_ && _).
    + set (x := expiry _). destruct (Z.leb_spec x (n_realtime v)) as [|L]; [done|]. intros E _.
      assert (D : k_lease_deadline k' = n_lease_now v + Z.min (x - n_realtime v) 120000000).
      { injection E as <- <-. cbn. unfold clock_ok in Hc. apply u64_small. lia. }
      unfold clock_ok in Hc. constructor; [intros _; lia|]. intros _. right. right. by exists x.
    + destruct (fatal_status _); [done|]. intros [= <- <-]. by apply lease_keeps.
  - destruct (_ <=? _); intros [= <- <-]; by apply lease_keeps.
Qed.
Lemma round_begin_lease v s k s' k' : round_begin parse v s k = Some (s', k') -> lease_same s k s' k'.
Proof.
  unfold round_begin. destruct (negb _ && _ && _); [|intros [= <- <-]; by constructor]. destruct (ob_ws_begin _ _ _ _ _) as [[[[e|] id] w]|]; [| |done].
  - match goal with |- context [server_retry_delay ?a ?b ?c ?d] => pose proof (delay_initialized a b c d) as R; destruct (server_retry_delay a b c d) end.
    intros [= <- <-]. by constructor.
  - intros [= <- <-]. by constructor.
Qed.
Lemma items_initialized i env items s : sv_initialized (snapshot_items i env items s).1.2 = sv_initialized s.
Proof.
  revert i s. induction items as [|item items IH]; intros i s; [done|]. cbn [snapshot_items].
  assert (Hi : match snapshot_item (env i) item s with inl s' => sv_initialized s' = sv_initialized s | inr r => sv_initialized r.1 = sv_initialized s end).
  { unfold snapshot_item. cbv zeta. destruct (_ || _); [apply fail_initialized|]. destruct (existsb _ _); [done|].
    destruct (_ || _); [apply fail_initialized|]. destruct (c ← _; _); [by destruct (negb _)|]. destruct (_ <=? _); [done|]. by destruct (_ || _). }
  destruct (snapshot_item _ _ _) as [s'|[s' st]]; [done|]. cbn [fst] in *. cbv zeta. cbn [fst]. by rewrite IH.
Qed.
Lemma snapshot_initialized env j s : sv_initialized (server_snapshot env j s).1 = sv_initialized s.
Proof.
  unfold server_snapshot. destruct (get_item j _) as [[]|]; try apply fail_initialized.
  pose proof (items_initialized 0 env l s) as R. destruct (snapshot_items 0 env l s) as [[c s'] st]. cbn in R. by destruct c.
Qed.
(** A round that starts sessions has a lease in force, and keeps the broker leased. *)
Lemma server_round_lease v s k s' k' started : clock_ok v -> leased (s, Some k) ->
  server_round parse api_timeout_ms v s k = Continues s' k' started ->
  leased (s', Some k') /\ (started <> [] -> sv_initialized s' = true /\ k_lease_was_expired k' = false /\ in_force v k').
Proof.
  intros Hc Hl. unfold server_round. destruct (negb _ && _); [done|].
  set (sk := if truth (k_lease_deadline k) && _ && _ then _ else _).
  assert (H0 : lease_inv v sk.1 sk.2).
  { unfold sk. destruct (truth _ && _ && _) eqn:B; [constructor; [|done]; intros I; exact (Hl I k eq_refl)|].
    constructor; [intros I; exact (Hl I k eq_refl)|]. cbn [snd]. intros X. rewrite X in B. cbn [negb] in B. rewrite andb_true_r in B.
    unfold truth in B. destruct (Z.eqb_spec (k_lease_deadline k) 0) as [|N]; [by left|]. right. left. bools. cbn in B. by apply Z.leb_gt. }
  clearbody sk. destruct sk as [s0 k0]. cbn [fst snd] in H0.
  destruct (round_connect _ _ _ _) as [[e s1] k1] eqn:R1. pose proof (lease_keeps v _ _ _ _ (round_connect_lease _ _ _ _ _ _ R1) H0) as H1.
  destruct (round_error _ _ _ _) as [[s2 k2]|[s2 k2]] eqn:R2; [done|]. pose proof (lease_keeps v _ _ _ _ (round_error_lease _ _ _ _ _ _ R2) H1) as H2.
  destruct (round_revoked _ _ _) as [[s3 k3]|[s3 k3]] eqn:R3; [done|]. pose proof (lease_keeps v _ _ _ _ (round_revoked_lease _ _ _ _ _ R3) H2) as H3.
  destruct (pop_sessions _ _ _) as [w snap]. cbv zeta.
  assert (H4 : lease_inv v s3 (k3 <| k_ws := w |> <| k_snapshot := snap |>)) by by (destruct H3; constructor).
  destruct (round_heartbeat _ _ _ _) as [[s5 k5]|[s5 k5]] eqn:R4; [done|]. pose proof (round_heartbeat_lease _ _ _ _ _ Hc R4 H4) as H5.
  destruct (round_begin _ _ _ _) as [[s6 k6]|] eqn:R5; [|done]. pose proof (lease_keeps v _ _ _ _ (round_begin_lease _ _ _ _ _ R5) H5) as [L1 L2].
  unfold round_snapshot. destruct (k_snapshot k6) as [j|]; [|intros [= <- <- <-]; split; [intros I ? [= <-]; by apply L1|done]].
  destruct (_ && _ && _) eqn:G; [|intros [= <- <- <-]; split; [intros I ? [= <-]; by apply L1|done]]. bools.
  pose proof (snapshot_initialized (n_items v) j s6) as SI. destruct (server_snapshot _ _ _) as [s7 st]. cbn [fst] in SI.
  intros [= <- <- <-]. split; [intros I ? [= <-]; cbn in I |- *; apply L1; by rewrite <- SI|]. intros _. split; [cbn; by rewrite SI|]. split; [done|].
  destruct L2 as [L2|L2]; [done| |exact L2]. exfalso. by apply L1.
Qed.
Lemma broker_step_leased x y : broker_step x y -> leased x -> leased y.
Proof.
  intros [v s k s' k' st _ C R|v s k s' k' c d _ R|s k c d _|s k l F|s k|s k|now i s k|cb s k|s k] H; try done.
  - by destruct (server_round_lease _ _ _ _ _ _ C H R).
  - unfold leased, serve_timeout in *. destruct (_ && _); done.
  - unfold leased, ob_remote_server_set_reconnect_policy in *. destruct (normalize i); done.
  - unfold leased, ob_remote_server_reconnect in *. cbv zeta. cbn [fst snd]. destruct (_ && _); done.
Qed.

(** *** Sessions a round starts *)

(** The handles a snapshot starts are for different sessions, none of them remembered. *)
Lemma items_started i env items s : let r := snapshot_items i env items s in
  NoDup r.2 /\ (forall sid, sid ∈ r.2 -> ~ sid ∈ sv_seen s) /\ (forall sid, sid ∈ sv_seen s -> sid ∈ sv_seen r.1.2).
Proof.
  cbv zeta. revert i s. induction items as [|item items IH]; intros i s; [cbn; split_and!; [constructor|by intros ? ?%elem_of_nil|done]|].
  cbn [snapshot_items]. unfold snapshot_item. cbv zeta.
  assert (F : forall c e x, x ∈ sv_seen s -> x ∈ sv_seen (server_fail c e s)).
  { intros c e x. pose proof (st_seen _ _ (server_fail_settled c e s)) as ->. done. }
  assert (N : NoDup (@nil (list Z))) by constructor.
  destruct (_ || _); [split_and!; [done|by intros ? ?%elem_of_nil|apply F]|].
  destruct (existsb _ _) eqn:X; [apply IH|]. apply existsb_seen in X.
  destruct (_ || _); [split_and!; [done|by intros ? ?%elem_of_nil|apply F]|].
  set (sid := default [] _) in *.
  destruct (c ← _; _) as [n|].
  - destruct (negb _); [apply IH|]. cbn [fst snd]. destruct (IH (S i) (s <| sv_peers ::= fun l => alter (replace_session (env i) sid
      (match str item (lit "connection_id") with Some _ => default 0 (epoch_valid (get_item item (lit "generation"))) | None => 0 end)) n l |>
      <| sv_seen ::= cons sid |>)) as (D & A & B).
    split_and!; [exact D| |]; [intros x Hx Hs; apply (A x Hx); by right|intros x Hx; apply B; by right].
  - destruct (_ <=? _); [apply IH|]. destruct (_ || _); [apply IH|]. cbn [fst snd].
    match goal with |- context [snapshot_items (S i) env items ?s1] => destruct (IH (S i) s1) as (D & A & B) end. cbn in A, B.
    split_and!; [constructor; [intros Hi; apply (A _ Hi); by left|exact D]| |intros x Hx; apply B; by right].
    intros x [->|Hx]%elem_of_cons; [done|]. intros Hs. apply (A x Hx). by right.
Qed.
Lemma snapshot_started env j s : NoDup (server_snapshot env j s).2 /\ forall sid, sid ∈ (server_snapshot env j s).2 -> ~ sid ∈ sv_seen s.
Proof.
  assert (N : NoDup (@nil (list Z)) /\ forall sid, sid ∈ (@nil (list Z)) -> ~ sid ∈ sv_seen s) by (split; [constructor|by intros ? ?%elem_of_nil]).
  unfold server_snapshot. destruct (get_item j _) as [[]|]; try exact N.
  destruct (items_started 0 env l s) as (D & A & _). destruct (snapshot_items 0 env l s) as [[c s'] st]. cbn [fst snd] in *. done.
Qed.
Lemma round_started v s k s' k' started : server_round parse api_timeout_ms v s k = Continues s' k' started ->
  NoDup started /\ forall sid, sid ∈ started -> ~ sid ∈ sv_seen s.
Proof.
  intros R. pose proof (round_stages parse api_timeout_ms v s k) as H. rewrite R in H. destruct H as (s1 & k1 & S1 & -> & _). rewrite <- (st_seen _ _ S1). unfold round_snapshot.
  assert (N : NoDup (@nil (list Z)) /\ forall sid, sid ∈ (@nil (list Z)) -> ~ sid ∈ sv_seen s1) by (split; [constructor|by intros ? ?%elem_of_nil]).
  destruct (k_snapshot k1) as [j|]; [|exact N]. destruct (_ && _ && _); [|exact N].
  pose proof (snapshot_started (n_items v) j s1) as R'. destruct (server_snapshot _ _ _). exact R'.
Qed.

(** *** Failures *)

(** A stopped server: what it failed with stays, and no handle is added. *)
Record ended (s s' : ob_remote_server) : Prop := {
  ed_stop : sv_stop s' = true;
  ed_status : ob_remote_server_status s' = ob_remote_server_status s;
  ed_peers : kept (sv_peers s) (sv_peers s') }.
Lemma broker_step_ended x y : broker_step x y -> sv_stop x.1 = true -> sv_result x.1 <> 0 -> ended x.1 y.1.
Proof.
  intros [v s k s' k' st E _ _|v s k s' k' c d E _|s k c d _|s k l F|s k|s k|now i s k|cb s k|s k] S R; cbn [fst] in *; [congruence..|  | | | | | |].
  - pose proof (exit_settled c d s k) as [K _ _ _]. constructor; [..|exact K]; unfold server_exit; cbv zeta; by destruct (sv_caller_close _).
  - constructor; [done|done|by apply Forall2_kept].
  - unfold serve_timeout. replace (truth (sv_result s)) with true by (symmetry; unfold truth; by destruct (Z.eqb_spec (sv_result s) 0)).
    rewrite andb_false_r. constructor; [done|done|apply kept_refl].
  - constructor; [done|done|apply kept_refl].
  - unfold ob_remote_server_set_reconnect_policy. destruct (normalize i); (constructor; [done|done|apply kept_refl]).
  - constructor; [done|done|apply kept_refl].
  - unfold ob_remote_server_reconnect. cbv zeta. cbn [snd]. destruct (_ && _); (constructor; [done|done|apply kept_refl]).
Qed.
Lemma broker_steps_ended x y : rtc broker_step x y -> sv_stop x.1 = true -> sv_result x.1 <> 0 -> ended x.1 y.1.
Proof.
  induction 1 as [x|x y z Hs _ IH]; intros S R; [constructor; [done|done|apply kept_refl]|].
  destruct (broker_step_ended _ _ Hs S R) as [S1 R1 K1]. destruct (IH S1) as [S2 R2 K2]; [unfold ob_remote_server_status in R1; congruence|].
  constructor; [done|congruence|by eapply kept_trans].
Qed.
End life.

Section reach.
Context (parse : list Z -> option cj) (api_timeout_ms : Z).
(** Every state of a broker that [ob_remote_serve] has started, whatever the caller passed. *)
Definition reachable (x : ob_remote_server * option server_worker) : Prop :=
  exists control printer alloc_ok dup_ok thread_ok api out has_rules now name password o s0 ws_ok,
    match o with Some o => 0 <= max_peers o | None => True end /\
    ob_remote_serve control printer alloc_ok dup_ok thread_ok api out has_rules now name password o = inr s0 /\
    rtc (broker_step parse api_timeout_ms) (server_start (ob_ws_create true (Some (sv_broker_id s0)) (Some (sv_device_token s0)) ws_ok) s0) x.
Lemma serve_started control printer a d t api out rules now name password o s0 :
  match o with Some o => 0 <= max_peers o | None => True end ->
  ob_remote_serve control printer a d t api out rules now name password o = inr s0 ->
  server_ok s0 /\ sv_initialized s0 = false.
Proof.
  intros Ho. unfold ob_remote_serve. destruct (serve_invalid _ _ _ _ _ _) eqn:V; [done|]. destruct (negb a); [done|]. destruct (negb _); [done|]. cbv zeta.
  assert (B : 0 <= max_peers (with_defaults o) <= 128).
  { unfold serve_invalid in V. unfold with_defaults, def. destruct o as [o|]; cbn in V |- *; [|lia]. bools. unfold truth; destruct (Z.eqb_spec (max_peers o) 0); cbn [negb]; lia. }
  destruct (control _) as [|r]; [done|]. destruct (find_broker _ _) as [|known]; [done|]. destruct (control _) as [|r2]; [done|].
  destruct (match known with Some id => Some id | None => _ end) as [id|]; [|done]. destruct (str r2 _) as [tok|]; [|done].
  destruct (negb d); [done|]. destruct (negb t); [done|]. intros [= <-]. split; [|done].
  constructor; cbn; try done; [exact (proj1 B)|constructor|by intros ? ?%elem_of_nil|constructor|constructor|exact (proj2 B)].
Qed.
Lemma start_ok created s : server_ok s -> sv_initialized s = false -> server_ok (server_start created s).1 /\ leased (server_start created s).
Proof.
  intros H I. unfold server_start, leased. destruct created as [w|]; cbn [fst snd]; (split; [|congruence]); [done|].
  apply (settled_ok s); [apply server_fail_settled|done].
Qed.
Lemma reachable_ok x : reachable x -> server_ok x.1 /\ leased x.
Proof.
  intros (control & printer & a & d & t & api & out & rules & now & name & password & o & s0 & ok & Ho & E & R).
  destruct (serve_started _ _ _ _ _ _ _ _ _ _ _ _ _ Ho E) as [H0 I0].
  destruct (start_ok (ob_ws_create true (Some (sv_broker_id s0)) (Some (sv_device_token s0)) ok) s0 H0 I0) as [S L].
  split; [by apply (broker_steps_ok _ _ _ _ R)|]. clear E Ho S H0 I0. revert L.
  induction R as [|x y z Hs _ IH]; [done|]. intros H. by eapply IH, broker_step_leased.
Qed.

(** C22: at any time of a served broker there are at most 128 handles, no two handles carry the
    same unmanaged session, no two live handles belong to the same managed connection, and the
    list of remembered sessions has no duplicates and at most 4096 entries: whatever the
    service pushes, and however the handles, the caller and the connection behave. *)
Theorem one_peer_per_session x : reachable x ->
  zlen (sv_peers x.1) <= 128 /\ NoDup (plain_sessions (sv_peers x.1)) /\ NoDup (live_connections (sv_peers x.1)) /\
  NoDup (sv_seen x.1) /\ zlen (sv_seen x.1) <= 4096.
Proof. intros [[] _]%reachable_ok. split_and!; [lia|done..]. Qed.

(** C12: a round of a served broker starts handles only under authority.  Whenever it starts one,
    the broker is initialised and the lease has neither been marked over nor withdrawn, and it
    is in force: not over when the round began, or granted in this very round for at most two
    minutes; and the sessions started are all different and none was known before. *)
Theorem sessions_authorized v s k s' k' started : reachable (s, Some k) -> clock_ok v ->
  server_round parse api_timeout_ms v s k = Continues s' k' started -> started <> [] ->
  sv_initialized s' = true /\ k_lease_was_expired k' = false /\ in_force v k' /\ NoDup started /\ forall sid, sid ∈ started -> ~ sid ∈ sv_seen s.
Proof.
  intros [_ L]%reachable_ok C R N. destruct (server_round_lease _ _ _ _ _ _ _ _ C L R) as [_ H]. destruct (H N) as (? & ? & ?).
  split_and!; try done; by eapply round_started.
Qed.

(** The first failure of a served broker is the one it keeps.  Once its status is a failure
    it has been told to stop, the status never changes, and no handle is added. *)
Theorem server_failure_final x y : reachable x -> sv_result x.1 <> 0 -> rtc (broker_step parse api_timeout_ms) x y ->
  sv_stop x.1 = true /\ ob_remote_server_status y.1 = ob_remote_server_status x.1 /\ kept (sv_peers x.1) (sv_peers y.1).
Proof. intros [[] _]%reachable_ok R S. specialize (so_failed0 R). by destruct (broker_steps_ended _ _ _ _ S so_failed0 R). Qed.
End reach.

(** *** A run: registered, connected, leased, and one session served *)

Definition demo_parse (t : list Z) : option cj :=
  if list_eqb t result_text then
    Some (CObj [(lit "v", CNum 1); (lit "type", CStr (lit "result")); (lit "id", CNum 1); (lit "status", CNum 200);
      (lit "body", CObj [(lit "broker", CObj [(lit "lease_expires_at", CStr (lit "2030-01-01T00:00:00Z"))])])])
  else Some (CObj [(lit "v", CNum 1); (lit "type", CStr (lit "sessions"));
    (lit "body", CObj [(lit "sessions", CArr [CObj [(lit "session_id", CStr sample_id); (lit "relay_mode", CStr (lit "auto"))]])])]).
Definition sessions_text : list Z := [123] ++ in_quotes "v" ++ lit ":1}".
Definition demo_control (r : request) : ob_remote_error + cj :=
  if list_eqb (rq_method r) GET then inr (CObj [(lit "brokers", CArr [])])
  else inr (CObj [(lit "broker", CObj [(lit "id", CStr sample_id)]); (lit "device_token", CStr (lit "token"))]).
Definition demo_server : ob_remote_error + ob_remote_server :=
  ob_remote_serve demo_control (fun _ => None) true true true true true false 1000 (Some (lit "home")) (Some (lit "secret")) None.
Definition demo_s0 : ob_remote_server :=
  match demo_server with inr s => s | inl _ => Server [] [] no_options false false true false ob_recovery_init 0 no_error [] [] false 0 end.
Definition demo_ws : ob_ws := Ws true false 0 (replicate 8 0) [] 0 0 false false false [].
Definition demo_env (now : Z) (pump : recv) : round_env :=
  let y := DelayEnv now now 0 in
  RoundEnv now (now, now) (ConnectAnswer false true [lit "Sec-WebSocket-Protocol: ob-signaling-v1"] 0 101 true) (false, pump, true) y
    (now, now) y 1 now now now now now now (Some 60, [SendRound false 60 0 false RecvFailed true false]) now y
    (fun _ => ItemEnv true true true true now now now now) now (fun _ => 0) now false.
Definition text (t : list Z) : recv := Piece (Some (Meta false false true false 0 0 false)) t.
Definition demo_next (v : round_env) (x : ob_remote_server * option server_worker) : ob_remote_server * option server_worker :=
  match x with (s, Some k) => match server_round demo_parse 30000 v s k with Continues s k _ => (s, Some k) | _ => (s, None) end | _ => x end.
Definition demo1 := demo_next (demo_env 2000 (Again false)) (demo_s0, Some (new_worker demo_ws)).
Definition demo2 := demo_next (demo_env 3000 (text result_text)) demo1.
Definition demo3 := demo_next (demo_env 4000 (text sessions_text)) demo2.
Lemma demo_step v x : clock_ok v -> sv_stop x.1 = false -> bool_decide (is_Some (demo_next v x).2) = true ->
  broker_step demo_parse 30000 x (demo_next v x).
Proof.
  destruct x as [s [k|]]; [|done]. intros C S. unfold demo_next. destruct (server_round _ _ _ _ _) as [|s' k'|s' k' st] eqn:E; [done..|].
  intros _. by eapply bs_round.
Qed.
Lemma demo2_reachable : reachable demo_parse 30000 demo2.
Proof.
  exists demo_control, (fun _ => None), true, true, true, true, true, false, 1000, (Some (lit "home")), (Some (lit "secret")), None, demo_s0, true.
  split; [done|]. split; [vm_compute; reflexivity|].
  replace (server_start _ demo_s0) with (demo_s0, Some (new_worker demo_ws)) by (vm_compute; reflexivity).
  apply rtc_l with demo1; [|apply rtc_once].
  - apply demo_step; [unfold clock_ok; vm_compute; by split|vm_compute; reflexivity..].
  - apply demo_step; [unfold clock_ok; vm_compute; by split|vm_compute; reflexivity..].
Qed.
Lemma reachable_step parse api x y : reachable parse api x -> broker_step parse api x y -> reachable parse api y.
Proof.
  intros (control & printer & a & d & t & ap & out & rules & now & name & password & o & s0 & ok & Ho & E & R) S.
  exists control, printer, a, d, t, ap, out, rules, now, name, password, o, s0, ok. split_and!; [done..|]. by eapply rtc_r.
Qed.
Lemma demo3_reachable : reachable demo_parse 30000 demo3.
Proof. eapply reachable_step; [exact demo2_reachable|]. apply demo_step; [unfold clock_ok; vm_compute; by split|vm_compute; reflexivity..]. Qed.
Lemma one_peer_per_session_witness : plain_sessions (sv_peers demo3.1) = [sample_id] /\ zlen (sv_peers demo3.1) <= 128.
Proof. split; [vm_compute; reflexivity|]. exact (proj1 (one_peer_per_session _ _ demo3 demo3_reachable)). Defined.

Definition demo_worker (x : ob_remote_server * option server_worker) : server_worker := default (new_worker demo_ws) x.2.
Definition demo_started (o : outcome) : list (list Z) := match o with Continues _ _ l => l | _ => [] end.
Definition demo_v3 : round_env := demo_env 4000 (text sessions_text).
Lemma sessions_authorized_witness :
  demo_started (server_round demo_parse 30000 demo_v3 demo2.1 (demo_worker demo2)) = [sample_id] /\
  in_force demo_v3 (demo_worker demo3).
Proof.
  split; [vm_compute; reflexivity|].
  assert (E : server_round demo_parse 30000 demo_v3 demo2.1 (demo_worker demo2) = Continues demo3.1 (demo_worker demo3) [sample_id])
    by (vm_compute; reflexivity).
  assert (D : demo2 = (demo2.1, Some (demo_worker demo2))) by (vm_compute; reflexivity).
  pose proof demo2_reachable as R. rewrite D in R.
  refine (proj1 (proj2 (proj2 (sessions_authorized _ _ _ _ _ _ _ _ R _ E _)))); [unfold clock_ok; vm_compute; by split|done].
Defined.

(** The connection then carries a malformed frame, and the caller closes the broker. *)
Definition demo_failed : ob_remote_server * option server_worker :=
  match server_round demo_parse 30000 (demo_env 5000 (Piece None [])) demo3.1 (demo_worker demo3) with
  | Breaks s k => ((server_exit false 5000 s k).1, None)
  | _ => demo3
  end.
Definition demo_closed : ob_remote_server * option server_worker := (ob_remote_server_close demo_failed.1, demo_failed.2).
Lemma demo_failed_reachable : reachable demo_parse 30000 demo_failed.
Proof.
  eapply reachable_step; [exact demo3_reachable|]. assert (D : demo3 = (demo3.1, Some (demo_worker demo3))) by (vm_compute; reflexivity).
  rewrite D at 1. unfold demo_failed. destruct (server_round _ _ _ demo3.1 _) as [|s k|s k st] eqn:E; [vm_compute in E; discriminate| |vm_compute in E; discriminate].
  eapply bs_break; [vm_compute; reflexivity|exact E].
Qed.
Lemma server_failure_final_witness :
  sv_result demo_failed.1 = OB_REMOTE_EPROTOCOL /\ ob_remote_server_status demo_closed.1 = ob_remote_server_status demo_failed.1.
Proof.
  assert (E : sv_result demo_failed.1 = OB_REMOTE_EPROTOCOL) by (vm_compute; reflexivity). split; [exact E|].
  refine (proj1 (proj2 (server_failure_final _ _ demo_failed demo_closed demo_failed_reachable _ _))); [by rewrite E|].
  apply rtc_once. unfold demo_closed. rewrite (surjective_pairing demo_failed) at 1. apply bs_close.
Defined.
