(* ===== verification/Lineage.v ===== *)
(** * Managed connections at the service

    src/internal/control/connections.go with the authentication it relies on
    (src/internal/control/control.go, auth_refresh.go): the rows of a managed connection, the
    transaction that grants its sessions, the handlers that revoke it and the maintenance that
    retires it.  A request is answered from the rows alone; the clock readings, the random
    session identifier, the failing statements and SHA-256 are arguments. *)

From Stdlib Require Import QArith.
From stdpp Require Import relations.
From S2P Require Import Prelude.
From S2P Require Import Peer Api Coordinator Ws AuthTime Auth AuthService.
#[local] Open Scope Z_scope.
#[local] Arguments lit : simpl never.

Module Connections.

(** ** Rows *)

(** A row of [connections]; a NULL identifier is the empty string, as COALESCE reads it. *)
Record connectionRecord := ConnectionRecord {
  ID : list Z; Tenant : list Z; Broker : list Z; Relay : list Z; AccountHash : list Z; DeviceHash : list Z;
  Session : list Z; Request : list Z; TokenHash : list Z; Revoked : list Z; AuthSession : list Z;
  Version : Z; Generation : Z; PriorGeneration : Z }.
#[export] Instance record_eta : Eta connectionRecord := fun x => ConnectionRecord (ID x) (Tenant x) (Broker x) (Relay x) (AccountHash x)
  (DeviceHash x) (Session x) (Request x) (TokenHash x) (Revoked x) (AuthSession x) (Version x) (Generation x) (PriorGeneration x).
(** The zero record a row that does not exist leaves behind. *)
Definition no_record : connectionRecord := ConnectionRecord [] [] [] [] [] [] [] [] [] [] [] 0 0 0.
(** The decoded body; a missing [expected_generation] is a nil pointer. *)
Record connectionRequest := ConnectionRequest {
  rq_broker : list Z; rq_relay : list Z; rq_expected : option Z; rq_request : list Z; rq_token : list Z }.
Record token_row := TokenRow {
  tk_hash : list Z; tk_kind : list Z; tk_tenant : list Z; tk_broker : list Z; tk_session : list Z; tk_version : Z; tk_expires : Z; tk_auth : list Z }.
Record tenant_row := TenantRow { tn_row : Service.tenant_row; relay_enabled : Z }.
Record broker_row := BrokerRow { b_id : list Z; b_tenant : list Z; lease_expires_at : Z }.
Record session_row := SessionRow {
  ss_id : list Z; ss_tenant : list Z; ss_broker : list Z; ss_relay : list Z; ss_peer : bool; ss_approved : bool; ss_expires : Z; ss_auth : list Z }.
(** A row of [connection_sessions], the history of a connection. *)
Record history_row := HistoryRow {
  h_session : list Z; h_connection : list Z; h_generation : Z; h_request : list Z; h_prior : Z; h_token : list Z }.
Record store := Store {
  auth_sessions : list Service.authSession; tenants : list tenant_row; tokens : list token_row; brokers : list broker_row;
  sessions : list session_row; connections : list connectionRecord; connection_sessions : list history_row }.
#[export] Instance store_eta : Eta store := fun x => Store (auth_sessions x) (tenants x) (tokens x) (brokers x) (sessions x)
  (connections x) (connection_sessions x).
Record config := Config { SessionTTL : Z; MaxSessionsPerTenant : Z; turn : bool }.
#[export] Instance history_row_eq : EqDecision history_row.
Proof. solve_decision. Defined.

(** ** Failures *)

Record apiError := ApiFailure { code : Z; message : list Z; reason : list Z; generation : Z }.
(** What a handler may return: an error for the caller, one that also is evidence that a live
    session's credential was removed, or a failed statement. *)
Inductive failure := Refused (e : apiError) | Observed (e : apiError) (c : connectionRecord) | Internal.
Definition fail (code : Z) (message : string) : apiError := ApiFailure code (lit message) [] 0.
Definition connectionFailure (status : Z) (code message : string) (generation : Z) : apiError :=
  ApiFailure status (lit message) (lit code) generation.
Definition authFailure (code : Z) (reason : string) : apiError :=
  ApiFailure code (map (fun c => if c =? 95 then 32 else c) (lit reason)) (lit reason) 0.
(** The body of an error; a zero generation and an empty code are left out. *)
Definition apiErrorBody (a : apiError) : reply :=
  (lit "error", Jstring (message a)) ::
  (if list_eqb (reason a) [] then [] else [(lit "error_code", Jstring (reason a))]) ++
  (if generation a =? 0 then [] else [(lit "generation", Jnumber (inject_Z (generation a)))]).

(** A step of a handler that may fail. *)
Definition result (A : Type) : Type := (failure + A)%type.
#[export] Instance result_bind : MBind result := fun A B f r => match r with inl e => inl e | inr a => f a end.
Definition ensure (b : bool) (e : apiError) : result unit := if b then inr tt else inl (Refused e).
Definition must {A} (o : option A) (e : apiError) : result A := match o with Some a => inr a | None => inl (Refused e) end.
Definition passed {A} (r : apiError + A) : result A := match r with inl e => inl (Refused e) | inr a => inr a end.

(** ** Reading rows *)

Definition readConnection (db : store) (id : list Z) : option connectionRecord :=
  List.find (fun c => list_eqb (ID c) id) (connections db).
Definition find_token (db : store) (hash : list Z) : option token_row := List.find (fun t => list_eqb (tk_hash t) hash) (tokens db).
Definition find_tenant (db : store) (id : list Z) : option tenant_row :=
  List.find (fun t => list_eqb (Service.tn_id (tn_row t)) id) (tenants db).
Definition find_session (db : store) (id : list Z) : option session_row := List.find (fun s => list_eqb (ss_id s) id) (sessions db).
(** The rows the account service's checks read. *)
Definition account_rows (db : store) : Service.database := Service.Database (auth_sessions db) [] (map tn_row (tenants db)).
Definition active (t : tenant_row) : bool := list_eqb (Service.tn_status (tn_row t)) (lit "active").

(** [authAuthority]; the clock is read twice, at [k] and [k + 1]. *)
Definition authAuthority (now : nat -> Z) (k : nat) (db : store) (id tenant : list Z) (version : Z) (pending : bool)
    : apiError + Service.authSession :=
  match Service.readAuthSession (account_rows db) id with
  | None => inl (authFailure 401 "refresh_revoked")
  | Some a =>
    if negb (list_eqb (Service.Tenant a) tenant) || negb (Service.Version a =? version) then inl (authFailure 401 "refresh_revoked")
    else match Service.checkAuthSession (Service.Clock (now k) (now (S k)) 0 false) (account_rows db) a pending with
    | Some (c, r) => inl (ApiFailure c (map (fun c => if c =? 95 then 32 else c) r) r 0)
    | None => inr a
    end
  end.
Definition allows {A} (r : apiError + A) : bool := match r with inl _ => false | inr _ => true end.

(** ** Who asks *)

Record principal := Principal {
  p_kind : list Z; p_tenant : list Z; p_broker : list Z; p_session : list Z; p_version : Z; p_auth : list Z }.
#[export] Instance principal_eq : EqDecision principal.
Proof. solve_decision. Defined.
Definition principal_of (t : token_row) : principal :=
  Principal (tk_kind t) (tk_tenant t) (tk_broker t) (tk_session t) (tk_version t) (tk_auth t).

Section service.
Context (tokenHash : list Z -> list Z) (cfg : config).

(** [auth] of a request over HTTP: [bearer] is empty when the header is missing. *)
Definition auth (now : nat -> Z) (db : store) (bearer : list Z) (kinds : list (list Z)) : apiError + principal :=
  if list_eqb bearer [] then inl (fail 401 "bearer required")
  else match find_token db (tokenHash bearer) with
  | None => inl (fail 401 "invalid bearer")
  | Some t =>
    let p := principal_of t in
    if tk_expires t <=? now 0%nat then
      inl (if negb (list_eqb (p_auth p) []) && list_eqb (p_kind p) (lit "account") then authFailure 401 "account_token_expired"
           else fail 401 "expired bearer")
    else match (if list_eqb (p_auth p) [] then None
                else match authAuthority now 1 db (p_auth p) (p_tenant p) (p_version p) true with inl e => Some e | inr _ => None end) with
    | Some e => inl e
    | None =>
      if negb (existsb (list_eqb (p_kind p)) kinds) then inl (fail 403 "bearer scope denied")
      else match find_tenant db (p_tenant p) with
      | None => inl (fail 404 "tenant not found")
      | Some n =>
        if negb (Service.tn_version (tn_row n) =? p_version p) then inl (fail 401 "revoked bearer")
        else if negb (active n) then inl (fail 403 "tenant is not active") else inr p
      end
    end
  end.
Definition txActive (db : store) (p : principal) : result unit :=
  match find_tenant db (p_tenant p) with
  | None => inl Internal
  | Some n =>
    if negb (Service.tn_version (tn_row n) =? p_version p) then inl (Refused (fail 401 "revoked bearer"))
    else if negb (active n) then inl (Refused (fail 403 "tenant is not active")) else inr tt
  end.
Definition txAuthPrincipal (now : nat -> Z) (k : nat) (db : store) (p : principal) : result unit :=
  match authAuthority now k db (p_auth p) (p_tenant p) (p_version p) false with inl e => inl (Refused e) | inr _ => inr tt end.
(** [txPrincipal]: the identity admitted before the transaction still holds inside it. *)
Definition txPrincipal (now : nat -> Z) (db : store) (bearer : list Z) (p : principal) : result unit :=
  if negb (list_eqb (p_auth p) []) && list_eqb (p_kind p) (lit "account") then txAuthPrincipal now 3 db p
  else match find_token db (tokenHash bearer) with
  | None => inl (Refused (fail 401 "revoked bearer"))
  | Some t =>
    if negb (bool_decide (principal_of t = p)) || (tk_expires t <=? now 3%nat) then inl (Refused (fail 401 "expired or changed bearer"))
    else _ ← (if list_eqb (p_auth p) [] then inr tt else txAuthPrincipal now 4 db p); txActive db p
  end.

(** ** Whether a lineage is still authorised *)

Definition connectionCredential (now : nat -> Z) (k : nat) (db : store) (hash kind tenant broker : list Z) (version : Z) : bool :=
  match List.find (fun t => list_eqb (tk_hash t) hash && list_eqb (tk_kind t) kind && list_eqb (tk_tenant t) tenant &&
                            (tk_version t =? version) && (now k <? tk_expires t) && list_eqb (tk_broker t) broker) (tokens db) with
  | None => false
  | Some t => if list_eqb (tk_auth t) [] then true else allows (authAuthority now (S k) db (tk_auth t) tenant version false)
  end.
(** The account's half of the check. *)
Definition account_live (now : nat -> Z) (k : nat) (db : store) (c : connectionRecord) : bool :=
  if negb (list_eqb (AuthSession c) []) then allows (authAuthority now k db (AuthSession c) (Tenant c) (Version c) false)
  else connectionCredential now k db (AccountHash c) (lit "account") (Tenant c) [] (Version c).
(** The session still runs but its token is gone. *)
Definition transport_revoked (at_ : Z) (db : store) (c : connectionRecord) : bool :=
  existsb (fun s => list_eqb (ss_id s) (Session c) && (at_ <? ss_expires s) &&
    negb (existsb (fun t => list_eqb (tk_hash t) (TokenHash c) && list_eqb (tk_kind t) (lit "session") &&
                            list_eqb (tk_session t) (ss_id s) && (tk_version t =? Version c) && (at_ <? tk_expires t)) (tokens db)))
    (sessions db).
Definition tenant_serves (db : store) (c : connectionRecord) : bool :=
  match find_tenant db (Tenant c) with
  | None => false
  | Some n => (Service.tn_version (tn_row n) =? Version c) && active n
  end.
(** [checkConnection]; the clock from [k] on. *)
Definition checkConnection (now : nat -> Z) (k : nat) (db : store) (c : connectionRecord) : result unit :=
  if negb (list_eqb (Revoked c) []) then inl (Refused (connectionFailure 403 "connection_revoked" "connection was explicitly revoked" (Generation c)))
  else if negb (tenant_serves db c) then
    inl (Refused (connectionFailure 403 "credential_revoked" "connection identity is no longer authorized" (Generation c)))
  else if negb (account_live now k db c && connectionCredential now (k + 3) db (DeviceHash c) (lit "device") (Tenant c) (Broker c) (Version c)) then
    inl (Refused (connectionFailure 403 "credential_revoked" "connection credential was expired or revoked" (Generation c)))
  else if transport_revoked (now (k + 6)%nat) db c then
    inl (Observed (connectionFailure 403 "credential_revoked" "session credential was revoked" (Generation c)) c)
  else inr tt.
(** [persistObservedRevocation]: only the exact transport that gave the evidence is marked. *)
Definition same_transport (c r : connectionRecord) : bool :=
  list_eqb (ID r) (ID c) && (Generation r =? Generation c) && list_eqb (Session r) (Session c) && list_eqb (TokenHash r) (TokenHash c) &&
  list_eqb (Revoked r) [].
Definition persistObservedRevocation (e : failure) (db : store) : store :=
  match e with
  | Observed _ c =>
    db <| connections ::= map (fun r => if same_transport c r then r <| Revoked := lit "session_credential_revoked" |> else r) |>
  | _ => db
  end.

(** ** The transaction that grants a session *)

(** What the surroundings give one request: the clock at each reading, whether the service is
    shutting down, whether a statement fails (the transaction then is rolled back) or the
    statement that records a revocation, and the random bytes of the new identifier. *)
Record conn_env := ConnEnv { ce_now : nat -> Z; ce_stopped : bool; ce_sql : bool; ce_persist : bool; ce_random : list Z }.

Definition request_ok (id : list Z) (b : connectionRequest) : bool :=
  Service.validConnectionID id && Service.validConnectionID (rq_broker b) && Service.validConnectionID (rq_request b) &&
  Service.validConnectionToken (rq_token b) && bool_decide (is_Some (rq_expected b)) &&
  existsb (list_eqb (rq_relay b)) [lit "auto"; lit "never"; lit "force"].
(** The row belongs to this caller and is authorised; or there is no row and none is expected. *)
Definition lineage_scope (v : conn_env) (bearer : list Z) (p : principal) (b : connectionRequest) (row : option connectionRecord) (db : store) : result unit :=
  match row with
  | None => ensure (default 0 (rq_expected b) =? 0) (connectionFailure 404 "connection_unknown" "connection lineage is unavailable" 0)
  | Some c =>
    if negb (list_eqb (Tenant c) (p_tenant p)) || negb (list_eqb (Broker c) (rq_broker b)) || negb (list_eqb (Relay c) (rq_relay b)) ||
       (if list_eqb (AuthSession c) [] then negb (list_eqb (AccountHash c) (tokenHash bearer)) else negb (list_eqb (AuthSession c) (p_auth p)))
    then inl (Refused (connectionFailure 403 "connection_revoked" "connection scope or credential changed" (Generation c)))
    else checkConnection (ce_now v) 6 db c
  end.
(** The broker is registered and online; a forced relay is to be had. *)
Definition broker_ready (v : conn_env) (p : principal) (b : connectionRequest) (g : Z) (db : store) : result unit :=
  match List.find (fun r => list_eqb (b_id r) (rq_broker b) && list_eqb (b_tenant r) (p_tenant p)) (brokers db) with
  | None => inl (Refused (connectionFailure 404 "broker_missing" "broker not found" 0))
  | Some r =>
    if lease_expires_at r <=? ce_now v 13%nat then inl (Refused (connectionFailure 409 "broker_offline" "broker heartbeat is required" g))
    else if list_eqb (rq_relay b) (lit "force") then
      match find_tenant db (p_tenant p) with
      | None => inl Internal
      | Some n => ensure (negb (relay_enabled n =? 0) && turn cfg) (connectionFailure 403 "connection_revoked" "forced relay is unavailable" g)
      end
    else inr tt
  end.
Definition grant_body (sid id : list Z) (g expiry : Z) : reply :=
  [(lit "connection_id", Jstring id); (lit "expires_at", Jstring (go_time expiry)); (lit "generation", Jnumber (inject_Z g));
   (lit "session_id", Jstring sid)].
(** The request is the one the row already answers: the same session, or it ran out. *)
Definition replay (v : conn_env) (id : list Z) (b : connectionRequest) (c : connectionRecord) (db : store) : result (Z * reply) :=
  if negb (default 0 (rq_expected b) =? PriorGeneration c) || negb (list_eqb (tokenHash (rq_token b)) (TokenHash c))
  then inl (Refused (connectionFailure 409 "connection_conflict" "request replay differs" (Generation c)))
  else
    let expired := inl (Refused (connectionFailure 410 "session_expired" "the attempted session expired" (Generation c))) in
    match find_session db (Session c) with
    | None => expired
    | Some s => if ss_expires s <=? ce_now v 14%nat then expired else inr (200, grant_body (Session c) id (Generation c) (ss_expires s))
    end.
(** The limits on a new connection, and its row's first half. *)
Definition live_devices (v : conn_env) (p : principal) (b : connectionRequest) (db : store) : list token_row :=
  List.filter (fun t => list_eqb (tk_kind t) (lit "device") && list_eqb (tk_tenant t) (p_tenant p) && list_eqb (tk_broker t) (rq_broker b) &&
                        (tk_version t =? p_version p) && (ce_now v 15%nat <? tk_expires t)) (tokens db).
(** [ORDER BY expires_at DESC LIMIT 1]: one that expires last. *)
Fixpoint latest (l : list token_row) : option token_row :=
  match l with
  | [] => None
  | t :: l => match latest l with Some u => if tk_expires t <? tk_expires u then Some u else Some t | None => Some t end
  end.
Definition enroll (v : conn_env) (bearer : list Z) (p : principal) (b : connectionRequest) (db : store) : result connectionRecord :=
  _ ← ensure (zlen (List.filter (fun c => list_eqb (Tenant c) (p_tenant p) && list_eqb (Revoked c) []) (connections db)) <? MaxSessionsPerTenant cfg)
        (fail 429 "tenant connection limit reached");
  _ ← ensure (zlen (connections db) <? 10000) (fail 429 "global connection storage limit reached");
  d ← must (latest (live_devices v p b db)) (connectionFailure 403 "credential_revoked" "broker credential is unavailable" 0);
  inr (no_record <| DeviceHash := tk_hash d |> <| AccountHash := tokenHash bearer |> <| AuthSession := p_auth p |> <| Version := p_version p |>).
(** The limits on sessions, and that neither token nor request was ever used. *)
Definition unused (v : conn_env) (p : principal) (id : list Z) (b : connectionRequest) (c : connectionRecord) (db : store) : result unit :=
  let hash := tokenHash (rq_token b) in
  let others at_ s := (at_ <? ss_expires s) && negb (list_eqb (ss_id s) (Session c)) in
  let conflict (m : string) := connectionFailure 409 "connection_conflict" m (Generation c) in
  _ ← ensure (zlen (List.filter (fun s => list_eqb (ss_tenant s) (p_tenant p) && others (ce_now v 16%nat) s) (sessions db)) <? MaxSessionsPerTenant cfg)
        (fail 429 "tenant session limit reached");
  _ ← ensure (zlen (List.filter (others (ce_now v 17%nat)) (sessions db)) <? 10000) (fail 429 "global session limit reached");
  _ ← ensure (negb (existsb (fun h => list_eqb (h_token h) hash) (connection_sessions db))) (conflict "session credential was already used"%string);
  _ ← ensure (negb (existsb (fun h => list_eqb (h_connection h) id && list_eqb (h_request h) (rq_request b)) (connection_sessions db)))
        (conflict "request identifier was already used"%string);
  ensure (negb (existsb (fun t => list_eqb (tk_hash t) hash) (tokens db))) (conflict "session credential was already used"%string).
(** The statements that write; a violated key of a table fails the transaction. *)
Definition drop_session (sid : list Z) (db : store) : store :=
  if list_eqb sid [] then db
  else db <| tokens ::= List.filter (fun t => negb (list_eqb (tk_kind t) (lit "session") && list_eqb (tk_session t) sid)) |>
          <| sessions ::= List.filter (fun s => negb (list_eqb (ss_id s) sid)) |>.
Definition session_identifier (v : conn_env) : list Z := default [] (Coordinator.uuid (Some (ce_random v))).
Definition granted_row (p : principal) (id : list Z) (b : connectionRequest) (sid : list Z) (fresh : bool) (c : connectionRecord) : connectionRecord :=
  let c := if fresh then c <| ID := id |> <| Tenant := p_tenant p |> <| Broker := rq_broker b |> <| Relay := rq_relay b |> <| Revoked := [] |> else c in
  c <| Generation := Generation c + 1 |> <| Session := sid |> <| Request := rq_request b |>
    <| PriorGeneration := default 0 (rq_expected b) |> <| TokenHash := tokenHash (rq_token b) |>.
Definition mint (v : conn_env) (p : principal) (id : list Z) (b : connectionRequest) (fresh : bool) (c : connectionRecord) (db : store)
    : result (store * (Z * reply)) :=
  let sid := session_identifier v in
  let g := Generation c + 1 in
  let hash := tokenHash (rq_token b) in
  let expiry := ce_now v 18%nat + SessionTTL cfg in
  let db := drop_session (Session c) db in
  if existsb (fun s => list_eqb (ss_id s) sid) (sessions db) ||
     existsb (fun h => list_eqb (h_session h) sid || (list_eqb (h_connection h) id && (h_generation h =? g))) (connection_sessions db)
  then inl Internal
  else
    let row := granted_row p id b sid fresh c in
    inr (db <| sessions ::= (fun l => l ++ [SessionRow sid (p_tenant p) (rq_broker b) (rq_relay b) false false expiry (p_auth p)]) |>
            <| tokens ::= (fun l => l ++ [TokenRow hash (lit "session") (p_tenant p) (rq_broker b) sid (p_version p) expiry (p_auth p)]) |>
            <| connections ::= (fun l => if fresh then l ++ [row] else map (fun r => if list_eqb (ID r) id then row else r) l) |>
            <| connection_sessions ::= (fun l =>
                 List.filter (fun h => negb (list_eqb (h_connection h) id && (h_generation h <? g - 256)))
                   (l ++ [HistoryRow sid id g (rq_request b) (default 0 (rq_expected b)) hash])) |>,
         (201, grant_body sid id g expiry)).

(** [connectionSession]: [earlier] is the store when the caller was authenticated, [db] the one
    of the transaction.  The store is that after the commit; a failure leaves it. *)
Definition connectionSession (v : conn_env) (bearer id : list Z) (body : option connectionRequest) (earlier db : store)
    : result (store * (Z * reply)) :=
  p ← passed (auth (ce_now v) earlier bearer [lit "account"]);
  b ← must body (fail 400 "invalid JSON body");
  _ ← ensure (request_ok id b) (fail 400 "invalid connection request");
  if ce_sql v then inl Internal
  else
    _ ← txPrincipal (ce_now v) db bearer p;
    let row := readConnection db id in
    let fresh := bool_decide (row = None) in
    let c := default no_record row in
    let expected := default 0 (rq_expected b) in
    _ ← lineage_scope v bearer p b row db;
    _ ← broker_ready v p b (Generation c) db;
    if negb fresh && list_eqb (rq_request b) (Request c) then r ← replay v id b c db; inr (db, r)
    else
      _ ← ensure (fresh || (expected =? Generation c)) (connectionFailure 409 "connection_conflict" "connection generation changed" (Generation c));
      _ ← ensure (Generation c <? 2147483647) (connectionFailure 409 "connection_conflict" "connection generation limit reached" (Generation c));
      c ← (if fresh then enroll v bearer p b db else inr c);
      _ ← unused v p id b c db;
      mint v p id b fresh c db.
(** [endpoint]: the status and body that are written, and the store. *)
Definition internal_error : Z * reply := (500, [(lit "error", Jstring (lit "internal server error"))]).
Definition endpoint (v : conn_env) (handler : store -> result (store * (Z * reply))) (db : store) : (Z * reply) * store :=
  if ce_stopped v then ((503, [(lit "error", Jstring (lit "server closed"))]), db)
  else match handler db with
  | inr (db, r) => (r, db)
  | inl Internal => (internal_error, db)
  | inl (Refused a) => ((code a, apiErrorBody a), db)
  | inl (Observed a c as e) => if ce_persist v then (internal_error, db) else ((code a, apiErrorBody a), persistObservedRevocation e db)
  end.

(** ** Revocation *)

Definition revokeConnections (where_ : connectionRecord -> bool) (why : string) (db : store) : store :=
  db <| connections ::= map (fun c => if list_eqb (Revoked c) [] && where_ c then c <| Revoked := lit why |> else c) |>.
(** The sessions of the connections' history. *)
Definition history_of (which : list Z -> bool) (db : store) (sid : list Z) : bool :=
  existsb (fun h => which (h_connection h) && list_eqb (h_session h) sid) (connection_sessions db).
Definition drop_history_sessions (which : list Z -> bool) (db : store) : store :=
  db <| tokens ::= List.filter (fun t => negb (list_eqb (tk_kind t) (lit "session") && history_of which db (tk_session t))) |>
     <| sessions ::= List.filter (fun s => negb (history_of which db (ss_id s))) |>.
Definition revoke_lineage (id : list Z) (why : string) (db : store) : store :=
  drop_history_sessions (list_eqb id) (revokeConnections (fun c => list_eqb (ID c) id) why db).

Definition deleteConnection (v : conn_env) (bearer id : list Z) (earlier db : store) : result (store * (Z * reply)) :=
  p ← passed (auth (ce_now v) earlier bearer [lit "account"; lit "device"]);
  if ce_sql v then inl Internal
  else
    _ ← txPrincipal (ce_now v) db bearer p;
    c ← must (readConnection db id) (connectionFailure 404 "connection_unknown" "connection not found" 0);
    _ ← ensure (list_eqb (Tenant c) (p_tenant p) && negb (list_eqb (p_kind p) (lit "device") && negb (list_eqb (Broker c) (p_broker p))))
          (fail 404 "connection not found");
    inr (revoke_lineage (ID c) "closed" db, (200, [(lit "deleted", Jother)])).
(** [deleteSessionLineage]; [None]: the session belongs to no connection. *)
Definition deleteSessionLineage (v : conn_env) (bearer sid : list Z) (earlier db : store) : option (result store) :=
  match List.find (fun h => list_eqb (h_session h) sid) (connection_sessions earlier) with
  | None => None
  | Some h => Some (
    p ← passed (auth (ce_now v) earlier bearer [lit "account"; lit "device"; lit "session"]);
    if ce_sql v then inl Internal
    else
      _ ← txPrincipal (ce_now v) db bearer p;
      c ← must (readConnection db (h_connection h)) (connectionFailure 404 "connection_unknown" "connection not found" 0);
      _ ← ensure (list_eqb (Tenant c) (p_tenant p) &&
                  negb (list_eqb (p_kind p) (lit "device") && negb (list_eqb (p_broker p) (Broker c))) &&
                  negb (list_eqb (p_kind p) (lit "session") && (negb (list_eqb (p_broker p) (Broker c)) || negb (list_eqb (p_session p) sid))))
            (fail 403 "session scope denied");
      inr (revoke_lineage (ID c) "session_deleted" db))
  end.

(** [deleteBroker] with [ownedBroker]; deleting a broker deletes its sessions, its connections and
    their history (ON DELETE CASCADE).  The clock read for [Online] has no effect here. *)
Definition drop_broker (b : list Z) (db : store) : store :=
  let gone := List.filter (fun c => list_eqb (Broker c) b) (connections db) in
  db <| brokers ::= List.filter (fun r => negb (list_eqb (b_id r) b)) |>
     <| sessions ::= List.filter (fun s => negb (list_eqb (ss_broker s) b)) |>
     <| connections ::= List.filter (fun c => negb (list_eqb (Broker c) b)) |>
     <| connection_sessions ::= List.filter (fun h => negb (existsb (fun c => list_eqb (ID c) (h_connection h)) gone)) |>.
Definition deleteBroker (v : conn_env) (bearer id : list Z) (earlier db : store) : result (store * (Z * reply)) :=
  p ← passed (auth (ce_now v) earlier bearer [lit "account"]);
  b ← must (List.find (fun r => list_eqb (b_id r) id) (brokers earlier)) (fail 404 "broker not found");
  _ ← ensure (list_eqb (b_tenant b) (p_tenant p)) (fail 404 "broker not found");
  if ce_sql v then inl Internal
  else
    _ ← txPrincipal (ce_now v) db bearer p;
    let db := revokeConnections (fun c => list_eqb (Broker c) (b_id b)) "broker_deleted" db in
    let db := db <| tokens ::= List.filter (fun t => negb (list_eqb (tk_broker t) (b_id b))) |> in
    inr (drop_broker (b_id b) db, (200, [(lit "deleted", Jother)])).

(** ** Maintenance *)

(** The conditions of [pruneConnections], as the queries write them; the clock at each. *)
Definition live_auth (at_ : Z) (db : store) (which : Service.authSession -> bool) : bool :=
  existsb (fun a => which a && list_eqb (Service.Revoked a) [] && (at_ <? Service.RefreshExpiry a)) (auth_sessions db).
Definition device_dead (now1 now2 : Z) (db : store) (c : connectionRecord) : bool :=
  negb (existsb (fun d => list_eqb (tk_hash d) (DeviceHash c) && list_eqb (tk_kind d) (lit "device") && (now1 <? tk_expires d) &&
    (list_eqb (tk_auth d) [] || live_auth now2 db (fun a => list_eqb (Service.ID a) (tk_auth d) && (Service.Version a =? Version c))))
    (tokens db)).
Definition lineage_dead (now1 now2 : Z) (db : store) (c : connectionRecord) : bool :=
  (list_eqb (AuthSession c) [] &&
   negb (existsb (fun t => list_eqb (tk_hash t) (AccountHash c) && list_eqb (tk_kind t) (lit "account") && (now1 <? tk_expires t)) (tokens db))) ||
  (negb (list_eqb (AuthSession c) []) &&
   negb (live_auth now2 db (fun a => list_eqb (Service.ID a) (AuthSession c) && list_eqb (Service.Tenant a) (Tenant c) && (Service.Version a =? Version c)))) ||
  negb (existsb (fun n => list_eqb (Service.tn_id (tn_row n)) (Tenant c) && (Service.tn_version (tn_row n) =? Version c) && active n) (tenants db)).
(** [pruneConnections]; deleting a connection deletes its history. *)
Definition pruneConnections (now : nat -> Z) (sql : bool) (db : store) : store :=
  if sql then db
  else
    let db := db <| connections ::= map (fun c => if list_eqb (Revoked c) [] && device_dead (now 1%nat) (now 2%nat) db c
                                                   then c <| Revoked := lit "credential_revoked" |> else c) |> in
    let gone k id := existsb (fun c => list_eqb (ID c) id && (negb (list_eqb (Revoked c) []) || lineage_dead (now k) (now (S k)) db c)) (connections db) in
    let rows := db in
    let db := db <| tokens ::= List.filter (fun t => negb (list_eqb (tk_kind t) (lit "session") && history_of (gone 3%nat) rows (tk_session t))) |> in
    let gone' := fun id => existsb (fun c => list_eqb (ID c) id && (negb (list_eqb (Revoked c) []) || lineage_dead (now 5%nat) (now 6%nat) db c)) (connections db) in
    let db := db <| sessions ::= List.filter (fun s => negb (history_of gone' rows (ss_id s))) |> in
    let dead := List.filter (lineage_dead (now 7%nat) (now 8%nat) db) (connections db) in
    db <| connections ::= List.filter (fun c => negb (lineage_dead (now 7%nat) (now 8%nat) db c)) |>
       <| connection_sessions ::= List.filter (fun h => negb (existsb (fun c => list_eqb (ID c) (h_connection h)) dead)) |>.
(** The other deletions of [maintenance] that touch these rows. *)
Definition expire_rows (now1 now2 : Z) (db : store) : store :=
  let db := db <| sessions ::= List.filter (fun s => negb (ss_expires s <=? now1)) |> in
  db <| tokens ::= List.filter (fun t => negb ((tk_expires t <=? now2) ||
    (list_eqb (tk_kind t) (lit "session") && negb (existsb (fun s => list_eqb (ss_id s) (tk_session t)) (sessions db))) ||
    (list_eqb (tk_kind t) (lit "device") && negb (existsb (fun b => list_eqb (b_id b) (tk_broker t)) (brokers db))))) |>.

(** ** What a session's holder is told *)

(** [managedSession] for a session with a connection, and its outcome in the store. *)
Definition session_scope (now : nat -> Z) (db : store) (id sid : list Z) (g : Z) : result unit :=
  match readConnection db id with
  | None => inl (Refused (connectionFailure 403 "connection_unknown" "connection lineage is unavailable" g))
  | Some c =>
    _ ← checkConnection now 0 db c;
    ensure (list_eqb (Session c) sid && (Generation c =? g)) (connectionFailure 409 "session_replaced" "session was replaced" (Generation c))
  end.
Definition managedSession (now : nat -> Z) (db : store) (id sid : list Z) (g : Z) : result unit * store :=
  if list_eqb id [] then (inr tt, db)
  else match session_scope now db id sid g with inl e => (inl e, persistObservedRevocation e db) | r => (r, db) end.
Definition txManagedSession (now : nat -> Z) (db : store) (id sid : list Z) (g : Z) : result unit :=
  if list_eqb id [] then inr tt else session_scope now db id sid g.
Definition connectionSessionState (now : nat -> Z) (db : store) (id sid : list Z) (who : principal) : result unit * store :=
  match readConnection db id with
  | None => (inl (Refused (connectionFailure 403 "credential_revoked" "connection authorization is no longer available" 0)), db)
  | Some c =>
    if negb (list_eqb (Tenant c) (p_tenant who)) || negb (list_eqb (Broker c) (p_broker who)) || negb (Version c =? p_version who)
    then (inl (Refused (connectionFailure 403 "credential_revoked" "connection identity changed" (Generation c))), db)
    else match checkConnection now 0 db c with
    | inl e => (inl e, persistObservedRevocation e db)
    | inr _ =>
      (_ ← ensure (list_eqb (Session c) sid) (connectionFailure 409 "session_replaced" "session was replaced" (Generation c));
       ensure (match find_session db sid with Some s => negb (ss_expires s <=? now 7%nat) | None => false end)
         (connectionFailure 410 "session_expired" "session lease expired" (Generation c)), db)
    end
  end.

(** [connectionDiscovery], what a client learns before its first proposal. *)
Definition connectionDiscovery : Z * reply :=
  (200, [(lit "account_refresh_protocol", Jstring (lit "refresh-v1")); (lit "connection_recovery_protocol", Jstring (lit "connections-v1"));
         (lit "connection_recovery_version", Jnumber 1); (lit "signaling", Jstring (lit "ob-signaling-v1"))]).

(** ** What the broker is told *)

(** A row of the broker's snapshot: the session with the connection and generation its history
    gives, which encoding/json leaves out when empty. *)
Definition session_json (db : store) (s : session_row) : cj :=
  let h := List.find (fun h => list_eqb (h_session h) (ss_id s)) (connection_sessions db) in
  CObj ([(lit "session_id", CStr (ss_id s)); (lit "tenant_id", CStr (ss_tenant s)); (lit "broker_id", CStr (ss_broker s));
         (lit "relay_mode", CStr (ss_relay s)); (lit "peer_authenticated", CBool (ss_peer s)); (lit "relay_approved", CBool (ss_approved s));
         (lit "expires_at", CStr (go_time (ss_expires s)))] ++
        match h with
        | Some h => (if list_eqb (h_connection h) [] then [] else [(lit "connection_id", CStr (h_connection h))]) ++
                    (if h_generation h =? 0 then [] else [(lit "generation", CNum (inject_Z (h_generation h)))])
        | None => []
        end).
(** [ORDER BY expires_at, id]. *)
Fixpoint before (a b : list Z) : bool :=
  match a, b with [], _ => true | _, [] => false | x :: a, y :: b => (x <? y) || ((x =? y) && before a b) end.
Definition sooner (s t : session_row) : bool :=
  (ss_expires s <? ss_expires t) || ((ss_expires s =? ss_expires t) && before (ss_id s) (ss_id t)).
Fixpoint insert_sorted (s : session_row) (l : list session_row) : list session_row :=
  match l with [] => [s] | t :: l => if sooner s t then s :: t :: l else t :: insert_sorted s l end.
Definition broker_snapshot (at_ : Z) (broker : list Z) (db : store) : apiError + cj :=
  let rows := ztake 129 (foldr insert_sorted [] (List.filter (fun s => list_eqb (ss_broker s) broker && (at_ <? ss_expires s)) (sessions db))) in
  if 128 <? zlen rows then inl (fail 429 "broker snapshot exceeds 128 sessions")
  else inr (CObj [(lit "sessions", CArr (map (session_json db) rows))]).
End service.

(** ** Reasoning about handlers *)

Lemma bind_ok {A B} (f : A -> result B) (r : result A) b : (r ≫= f) = inr b -> exists a, r = inr a /\ f a = inr b.
Proof. destruct r as [e|a]; [done|]. by exists a. Qed.
Lemma bind_refused {A B} (f : A -> result B) (r : result A) e : (r ≫= f) = inl e -> r = inl e \/ exists a, r = inr a /\ f a = inl e.
Proof. destruct r as [e'|a]; [intros [= ->]; by left|]. right. by exists a. Qed.
Lemma ensure_ok b e u : ensure b e = inr u -> b = true.
Proof. by destruct b. Qed.
Lemma ensure_refused b e f : ensure b e = inl f -> b = false /\ f = Refused e.
Proof. destruct b; [done|]. by intros [= <-]. Qed.
Lemma must_ok {A} (o : option A) e a : must o e = inr a -> o = Some a.
Proof. destruct o; [|done]. by intros [= <-]. Qed.
Lemma must_refused {A} (o : option A) e f : must o e = inl f -> o = None /\ f = Refused e.
Proof. destruct o; [done|]. by intros [= <-]. Qed.
(** Take a computation that succeeded, or one that failed, apart. *)
Ltac succeeded H :=
  repeat match type of H with
  | (_ ≫= _) = inr _ => let a := fresh "a" in let Ha := fresh "Ha" in apply bind_ok in H as (a & Ha & H)
  end.
Ltac ensured :=
  repeat match goal with
  | H : ensure _ _ = inr _ |- _ => apply ensure_ok in H
  | H : must _ _ = inr _ |- _ => apply must_ok in H
  end.

(** ** The rows of one connection *)

Lemma find_map_same {A} (key : A -> list Z) (f : A -> A) id l :
  (forall x, key (f x) = key x) ->
  List.find (fun x => list_eqb (key x) id) (map f l) = f <$> List.find (fun x => list_eqb (key x) id) l.
Proof. intros H. induction l as [|x l IH]; [done|]. cbn. rewrite H. by destruct (list_eqb (key x) id). Qed.
Lemma find_snoc {A} (q : A -> bool) l x : List.find q (l ++ [x]) = match List.find q l with Some y => Some y | None => if q x then Some x else None end.
Proof. induction l as [|y l IH]; [done|]. cbn. by destruct (q y). Qed.
Lemma find_filter_none {A} (q keep : A -> bool) l : List.find q l = None -> List.find q (List.filter keep l) = None.
Proof. induction l as [|x l IH]; [done|]. cbn. destruct (q x) eqn:Q; [done|]. intros H. destruct (keep x); [cbn; rewrite Q|]; by apply IH. Qed.
Lemma find_filter {A} (key : A -> list Z) (keep : A -> bool) id l x :
  List.find (fun x => list_eqb (key x) id) l = Some x -> keep x = true ->
  List.find (fun x => list_eqb (key x) id) (List.filter keep l) = Some x.
Proof.
  intros H K. induction l as [|y l IH]; [done|]. cbn in H |- *. destruct (list_eqb (key y) id) eqn:E.
  - injection H as ->. rewrite K. cbn. by rewrite E.
  - destruct (keep y); [cbn; rewrite E|]; by apply IH.
Qed.
Lemma readConnection_id db id c : readConnection db id = Some c -> ID c = id.
Proof. unfold readConnection. intros [_ H]%find_some. by apply list_eqb_eq. Qed.
Lemma existsb_list_eqb {A} (key : A -> list Z) k l : existsb (fun x => list_eqb (key x) k) l = false -> forall x, x ∈ l -> key x <> k.
Proof.
  intros H x Hx <-. assert (existsb (fun y => list_eqb (key y) (key x)) l = true); [|congruence].
  apply existsb_exists. exists x. split; [by apply list_elem_of_In|apply list_eqb_refl].
Qed.
Lemma in_filter {A} (f : A -> bool) (l : list A) x : x ∈ List.filter f l <-> x ∈ l /\ f x = true.
Proof. by rewrite !list_elem_of_In, filter_In. Qed.

(** ** What a request for a session leads to *)

Section outcomes.
Context (tokenHash : list Z -> list Z) (cfg : config).

(** A session granted anew: the lineage advanced from the expected generation by one, with a
    credential, a request and a session that were never used. *)
Record minted (id : list Z) (b : connectionRequest) (e : Z) (db db' : store) (row : connectionRecord) : Prop := {
  mi_before : match readConnection db id with
              | None => e = 0
              | Some c => e = Generation c /\ Revoked c = [] /\ Request c <> rq_request b end;
  mi_limit : 0 <= e -> e + 1 <= 2147483647;
  mi_token : forall h, h ∈ connection_sessions db -> h_token h <> tokenHash (rq_token b);
  mi_hash : forall t, t ∈ tokens db -> tk_hash t <> tokenHash (rq_token b);
  mi_request : forall h, h ∈ connection_sessions db -> h_connection h = id -> h_request h <> rq_request b;
  mi_session : forall h, h ∈ connection_sessions db -> h_session h <> Session row;
  mi_after : readConnection db' id = Some row;
  mi_row : Generation row = e + 1 /\ PriorGeneration row = e /\ Request row = rq_request b /\ TokenHash row = tokenHash (rq_token b) /\ Revoked row = [];
  mi_others : forall id', id' <> id -> readConnection db' id' = readConnection db id';
  mi_history : forall h, h ∈ connection_sessions db' ->
    h ∈ connection_sessions db \/ h = HistoryRow (Session row) id (e + 1) (rq_request b) e (tokenHash (rq_token b));
  mi_recorded : HistoryRow (Session row) id (e + 1) (rq_request b) e (tokenHash (rq_token b)) ∈ connection_sessions db';
  mi_tokens : forall t, t ∈ tokens db' -> t ∈ tokens db \/ tk_hash t = tokenHash (rq_token b) }.
(** The session the row already holds, answered once more. *)
Record replayed (id : list Z) (b : connectionRequest) (e : Z) (db : store) (c : connectionRecord) : Prop := {
  re_row : readConnection db id = Some c;
  re_live : Revoked c = [];
  re_request : Request c = rq_request b;
  re_prior : PriorGeneration c = e;
  re_token : TokenHash c = tokenHash (rq_token b) }.

Lemma checkConnection_live now k db c : checkConnection now k db c = inr tt -> Revoked c = [].
Proof. unfold checkConnection. destruct (list_eqb (Revoked c) []) eqn:E; [|done]. intros _. by apply list_eqb_eq. Qed.
Lemma drop_session_rows sid db :
  connections (drop_session sid db) = connections db /\ connection_sessions (drop_session sid db) = connection_sessions db /\
  (forall t, t ∈ tokens (drop_session sid db) -> t ∈ tokens db).
Proof. unfold drop_session. destruct (list_eqb sid []); [done|]. cbn. split_and!; try done. by intros t [? _]%in_filter. Qed.
Lemma mint_rows v p id b (fresh : bool) c db db' r :
  mint tokenHash cfg v p id b fresh c db = inr (db', r) ->
  let row := granted_row tokenHash p id b (session_identifier v) fresh c in
  let h := HistoryRow (session_identifier v) id (Generation c + 1) (rq_request b) (default 0 (rq_expected b)) (tokenHash (rq_token b)) in
  connections db' = (if fresh then connections db ++ [row] else map (fun r => if list_eqb (ID r) id then row else r) (connections db)) /\
  connection_sessions db' = List.filter (fun x => negb (list_eqb (h_connection x) id && (h_generation x <? Generation c + 1 - 256))) (connection_sessions db ++ [h]) /\
  (forall x, x ∈ connection_sessions db -> h_session x <> session_identifier v) /\
  (forall t, t ∈ tokens db' -> t ∈ tokens db \/ tk_hash t = tokenHash (rq_token b)) /\
  r = (201, grant_body (session_identifier v) id (Generation c + 1) (ce_now v 18%nat + SessionTTL cfg)).
Proof.
  unfold mint. cbv zeta. destruct (drop_session_rows (Session c) db) as (D1 & D2 & D3). destruct (_ || _) eqn:U; [done|].
  intros [= <- <-]. cbn. rewrite D1, D2 in *. apply orb_false_iff in U as [_ U]. split_and!; try done.
  - intros x Hx E. assert (existsb (fun h => list_eqb (h_session h) (session_identifier v) || (list_eqb (h_connection h) id && (h_generation h =? Generation c + 1)))
      (connection_sessions db) = true); [|congruence]. apply existsb_exists. exists x. split; [by apply list_elem_of_In|]. by rewrite E, list_eqb_refl.
  - intros t [?|Ht]%elem_of_app; [left; by apply D3|right]. apply list_elem_of_singleton in Ht as ->. done.
Qed.
Lemma enroll_fresh v bearer p b db c : enroll tokenHash cfg v bearer p b db = inr c -> Generation c = 0 /\ Session c = [].
Proof. unfold enroll. intros H. succeeded H. by injection H as <-. Qed.
Lemma existsb_pair id (b : connectionRequest) l :
  existsb (fun h => list_eqb (h_connection h) id && list_eqb (h_request h) (rq_request b)) l = false ->
  forall h, h ∈ l -> h_connection h = id -> h_request h <> rq_request b.
Proof.
  intros H h Hh <- E. assert (existsb (fun x => list_eqb (h_connection x) (h_connection h) && list_eqb (h_request x) (rq_request b)) l = true); [|congruence].
  apply existsb_exists. exists h. split; [by apply list_elem_of_In|]. by rewrite E, !list_eqb_refl.
Qed.
Lemma unused_ok v p id b c db : unused tokenHash cfg v p id b c db = inr tt ->
  (forall h, h ∈ connection_sessions db -> h_token h <> tokenHash (rq_token b)) /\
  (forall t, t ∈ tokens db -> tk_hash t <> tokenHash (rq_token b)) /\
  (forall h, h ∈ connection_sessions db -> h_connection h = id -> h_request h <> rq_request b).
Proof.
  unfold unused. cbv zeta. intros H. succeeded H. ensured. apply negb_true_iff in H, Ha1, Ha2.
  split_and!; [by apply (existsb_list_eqb h_token)|by apply (existsb_list_eqb tk_hash)|by apply existsb_pair].
Qed.
(** The row a grant writes is the one read afterwards, and no other row moves. *)
Lemma granted_read p id b sid (fresh : bool) (c : connectionRecord) db db' :
  let row := granted_row tokenHash p id b sid fresh c in
  connections db' = (if fresh then connections db ++ [row] else map (fun r => if list_eqb (ID r) id then row else r) (connections db)) ->
  readConnection db id = (if fresh then None else Some c) ->
  readConnection db' id = Some row /\ forall id', id' <> id -> readConnection db' id' = readConnection db id'.
Proof.
  intros row E R. assert (ID row = id) as Hid.
  { subst row. unfold granted_row. destruct fresh; [done|]. exact (readConnection_id _ _ _ R). }
  unfold readConnection in *. rewrite E. destruct fresh.
  - split; [by rewrite find_snoc, R, Hid, list_eqb_refl|]. intros id' N. rewrite find_snoc. rewrite Hid.
    rewrite (proj2 (list_eqb_neq id id')) by done. by case_match.
  - rewrite (find_map_same ID) by (intros x; destruct (list_eqb (ID x) id) eqn:D; [apply list_eqb_eq in D; congruence|done]).
    split; [rewrite R; cbn; f_equal; apply find_some in R as [_ R]; by rewrite R|]. intros id' N.
    rewrite (find_map_same ID) by (intros x; destruct (list_eqb (ID x) id) eqn:D; [apply list_eqb_eq in D; congruence|done]).
    destruct (List.find (fun c => list_eqb (ID c) id') (connections db)) as [x|] eqn:F; [|done]. cbn. f_equal. apply find_some in F as [_ F]. apply list_eqb_eq in F. rewrite F.
    by rewrite (proj2 (list_eqb_neq id' id)).
Qed.
Lemma mint_minted v p id b e (fresh : bool) c c0 db db' r :
  rq_expected b = Some e -> readConnection db id = (if fresh then None else Some c0) -> (fresh = false -> c = c0) -> (fresh = true -> Generation c = 0) ->
  match readConnection db id with None => e = 0 | Some c => e = Generation c /\ Revoked c = [] /\ Request c <> rq_request b end ->
  (0 <= e -> e + 1 <= 2147483647) -> unused tokenHash cfg v p id b c db = inr tt -> mint tokenHash cfg v p id b fresh c db = inr (db', r) ->
  exists row, minted id b e db db' row /\ Session row = session_identifier v /\
    r = (201, grant_body (session_identifier v) id (e + 1) (ce_now v 18%nat + SessionTTL cfg)).
Proof.
  intros He R C0 C1 Hb Hl Hu Hm. destruct (unused_ok _ _ _ _ _ _ Hu) as (U1 & U2 & U3). pose proof (mint_rows _ _ _ _ _ _ _ _ _ Hm) as M. cbv zeta in M.
  destruct M as (M1 & M2 & M3 & M4 & M5). rewrite He in *. cbn [default from_option Datatypes.id] in *.
  assert (readConnection db id = if fresh then None else Some c) as Rc by (destruct fresh; [done|rewrite R; by rewrite C0]).
  destruct (granted_read _ _ _ _ _ _ _ _ M1 Rc) as [G1 G2].
  assert (Generation c = e) as Hg by (destruct fresh; rewrite R in Hb; [rewrite C1, Hb by done; done|rewrite C0 by done; by destruct Hb as [-> _]]).
  rewrite Hg in M2, M5. exists (granted_row tokenHash p id b (session_identifier v) fresh c). split; [|split; [by destruct fresh|done]].
  constructor; try done.
  - destruct fresh; cbn; rewrite He; cbn; split_and!; try done; try lia.
    rewrite R in Hb. destruct Hb as (_ & Hb & _). by rewrite C0.
  - intros h Hh. rewrite M2 in Hh. apply in_filter in Hh as [Hh _]. apply elem_of_app in Hh as [Hh|Hh]; [by left|right].
    apply list_elem_of_singleton in Hh as ->. by destruct fresh.
  - rewrite M2. apply in_filter. split; [apply elem_of_app; right; apply list_elem_of_singleton; by destruct fresh|].
    cbn. rewrite list_eqb_refl. cbn [andb]. apply negb_true_iff, Z.ltb_ge. lia.
Qed.
Lemma lineage_scope_ok v bearer p b row db : lineage_scope tokenHash v bearer p b row db = inr tt ->
  match row with None => default 0 (rq_expected b) = 0 | Some c => Revoked c = [] end.
Proof.
  unfold lineage_scope. destruct row as [c|]; [|intros H%ensure_ok; by apply Z.eqb_eq].
  destruct (_ || _); [done|]. apply checkConnection_live.
Qed.
(** Every success of the handler is a grant or a repetition of the last one. *)
Lemma connectionSession_ok v bearer id body earlier db db' r :
  connectionSession tokenHash cfg v bearer id body earlier db = inr (db', r) ->
  exists b e, body = Some b /\ rq_expected b = Some e /\ request_ok id b = true /\
    ((exists c s, replayed id b e db c /\ find_session db (Session c) = Some s /\ db' = db /\ r = (200, grant_body (Session c) id (Generation c) (ss_expires s))) \/
     (exists row expiry, minted id b e db db' row /\ Session row = session_identifier v /\ r = (201, grant_body (Session row) id (e + 1) expiry))).
Proof.
  unfold connectionSession. intros H. apply bind_ok in H as (p & _ & H). apply bind_ok in H as (b & Hb & H). apply must_ok in Hb as ->.
  apply bind_ok in H as ([] & Hok & H). apply ensure_ok in Hok. destruct (ce_sql v); [done|]. apply bind_ok in H as ([] & _ & H).
  cbv zeta in H. apply bind_ok in H as ([] & Hs & H). apply bind_ok in H as ([] & _ & H). apply lineage_scope_ok in Hs.
  assert (exists e, rq_expected b = Some e) as [e He].
  { unfold request_ok in Hok. destruct (rq_expected b); [by eexists|]. exfalso. by rewrite andb_false_r in Hok. }
  exists b, e. split_and!; try done. rewrite He in *. cbn [default from_option Datatypes.id] in *.
  destruct (readConnection db id) as [c|] eqn:R; cbn [default from_option Datatypes.id] in *.
  - rewrite bool_decide_false in H by done. cbn [negb andb orb] in H. destruct (list_eqb (rq_request b) (Request c)) eqn:Q.
    + left. apply bind_ok in H as (r' & H & [= <- <-]). unfold replay in H. rewrite He in H. cbn in H. destruct (_ || _) eqn:D; [done|].
      apply orb_false_iff in D as [D1 D2]. apply negb_false_iff in D1, D2. apply Z.eqb_eq in D1. apply list_eqb_eq in D2, Q.
      destruct (find_session db (Session c)) as [s|] eqn:F; [|done]. destruct (_ <=? _); [done|]. injection H as <-. exists c, s. by split_and!.
    + right. succeeded H. injection Ha1 as <-. ensured. apply list_eqb_neq in Q. apply Z.eqb_eq in Ha. apply Z.ltb_lt in Ha0. destruct a2.
      destruct (mint_minted v p id b e false c c db db' r He R) as (row & M & S1 & ->); try done; [by rewrite R|lia|].
      exists row, (ce_now v 18%nat + SessionTTL cfg). by rewrite S1.
  - rewrite bool_decide_true in H by done. cbn [negb andb orb] in H. succeeded H. ensured. right. destruct a2.
    destruct (enroll_fresh _ _ _ _ _ _ Ha1) as [E1 E2].
    destruct (mint_minted v p id b e true a1 no_record db db' r He R) as (row & M & S1 & ->); try done; [by rewrite R|lia|].
    exists row, (ce_now v 18%nat + SessionTTL cfg). by rewrite S1.
Qed.

(** The two refusals that end a proposal. *)
Definition contested (a : apiError) : bool := existsb (list_eqb (reason a)) [lit "session_expired"; lit "connection_conflict"].
Definition uncontested (f : failure) : Prop := match f with Refused a | Observed a _ => contested a = false | Internal => True end.
(** Why a proposal was ended. *)
Inductive conflict (id : list Z) (b : connectionRequest) (e : Z) (db : store) : Prop :=
  | replay_expired c : replayed id b e db c -> conflict id b e db
  | replay_differs c : readConnection db id = Some c -> Request c = rq_request b -> PriorGeneration c <> e \/ TokenHash c <> tokenHash (rq_token b) -> conflict id b e db
  | generation_changed c : readConnection db id = Some c -> Generation c <> e -> conflict id b e db
  | generation_limit c : readConnection db id = Some c -> Generation c = e -> 2147483647 <= Generation c -> conflict id b e db
  | credential_used h : h ∈ connection_sessions db -> h_token h = tokenHash (rq_token b) -> conflict id b e db
  | request_used h : h ∈ connection_sessions db -> h_connection h = id -> h_request h = rq_request b -> conflict id b e db
  | token_used t : t ∈ tokens db -> tk_hash t = tokenHash (rq_token b) -> conflict id b e db.

Lemma authority_calm now k db id tenant version pending e : authAuthority now k db id tenant version pending = inl e -> contested e = false.
Proof.
  unfold authAuthority. destruct (Service.readAuthSession _ _) as [a|]; [|by intros [= <-]]. destruct (_ || _); [by intros [= <-]|].
  intros H. unfold Service.checkAuthSession, Service.authFailure in H. repeat case_match; simplify_eq; done.
Qed.
Lemma auth_calm now db bearer kinds e : auth tokenHash now db bearer kinds = inl e -> contested e = false.
Proof.
  unfold auth. destruct (list_eqb bearer []); [by intros [= <-]|]. destruct (find_token _ _) as [t|]; [|by intros [= <-]]. cbv zeta.
  destruct (_ <=? _); [intros [= <-]; by destruct (_ && _)|].
  destruct (if list_eqb (p_auth (principal_of t)) [] then _ else _) as [e'|] eqn:A.
  { intros [= <-]. destruct (list_eqb _ _); [done|]. destruct (authAuthority _ _ _ _ _ _ _) eqn:B; [|done]. injection A as <-. by apply authority_calm in B. }
  destruct (negb _); [by intros [= <-]|]. destruct (find_tenant _ _); [|by intros [= <-]]. by repeat (destruct (negb _); [by intros [= <-]|]).
Qed.
Lemma txAuth_calm now k db p f : txAuthPrincipal now k db p = inl f -> uncontested f.
Proof. unfold txAuthPrincipal. destruct (authAuthority _ _ _ _ _ _ _) eqn:B; [|done]. intros [= <-]. by apply authority_calm in B. Qed.
Lemma txPrincipal_calm now db bearer p f : txPrincipal tokenHash now db bearer p = inl f -> uncontested f.
Proof.
  unfold txPrincipal. destruct (_ && _); [apply txAuth_calm|]. destruct (find_token _ _) as [t|]; [|by intros [= <-]].
  destruct (_ || _); [by intros [= <-]|]. intros [H|(u & _ & H)]%bind_refused; [destruct (list_eqb _ _); [done|by apply txAuth_calm in H]|].
  unfold txActive in H. by repeat case_match; simplify_eq.
Qed.
Lemma checkConnection_calm now k db c f : checkConnection now k db c = inl f -> uncontested f.
Proof. unfold checkConnection. by repeat case_match; intros [= <-]. Qed.
Lemma lineage_scope_calm v bearer p b row db f : lineage_scope tokenHash v bearer p b row db = inl f -> uncontested f.
Proof.
  unfold lineage_scope. destruct row as [c|]; [|by intros [_ ->]%ensure_refused]. destruct (_ || _); [by intros [= <-]|]. apply checkConnection_calm.
Qed.
Lemma broker_ready_calm v p b g db f : broker_ready cfg v p b g db = inl f -> uncontested f.
Proof.
  unfold broker_ready. repeat case_match; try (by intros [= <-]); try done. by intros [_ ->]%ensure_refused.
Qed.
Lemma enroll_calm v bearer p b db f : enroll tokenHash cfg v bearer p b db = inl f -> uncontested f.
Proof.
  unfold enroll. intros [[_ ->]%ensure_refused|(? & _ & H)]%bind_refused; [done|].
  apply bind_refused in H as [[_ ->]%ensure_refused|(? & _ & H)]; [done|]. by apply bind_refused in H as [[_ ->]%must_refused|(? & _ & H)].
Qed.
Lemma existsb_found {A} (f : A -> bool) l : negb (existsb f l) = false -> exists x, x ∈ l /\ f x = true.
Proof. intros (x & Hx & H)%negb_false_iff%existsb_exists. exists x. split; [by apply list_elem_of_In|done]. Qed.
Lemma unused_refused v p id b e c db a : unused tokenHash cfg v p id b c db = inl (Refused a) -> contested a = true ->
  conflict id b e db /\ code a = 409 /\ generation a = Generation c.
Proof.
  unfold unused. cbv zeta. intros H Ha. repeat (apply bind_refused in H as [[E [= ->]]%ensure_refused|([] & _ & H)]; [|]); try done.
  - apply existsb_found in E as (h & H1 & H2%list_eqb_eq). split; [by eapply credential_used|done].
  - apply existsb_found in E as (h & H1 & [H2 H3]%andb_true_iff). apply list_eqb_eq in H2, H3. split; [by eapply request_used|done].
  - apply ensure_refused in H as [E [= ->]]. apply existsb_found in E as (h & H1 & H2%list_eqb_eq). split; [by eapply token_used|done].
Qed.
Lemma replay_refused v id b e c db a : rq_expected b = Some e -> readConnection db id = Some c -> Revoked c = [] -> Request c = rq_request b ->
  replay tokenHash v id b c db = inl (Refused a) -> conflict id b e db /\ (code a = 409 \/ code a = 410) /\ generation a = Generation c.
Proof.
  intros He R L Q. unfold replay. rewrite He. cbn [default from_option Datatypes.id]. destruct (_ || _) eqn:D.
  - intros [= <-]. split; [|split; [by left|done]]. apply (replay_differs _ _ _ _ c); try done.
    apply orb_true_iff in D as [D|D]; apply negb_true_iff in D; [left; apply Z.eqb_neq in D; congruence|right; apply list_eqb_neq in D; congruence].
  - apply orb_false_iff in D as [D1 D2]. apply negb_false_iff in D1, D2. apply Z.eqb_eq in D1. apply list_eqb_eq in D2.
    assert (conflict id b e db) as C by (by eapply replay_expired; constructor).
    repeat case_match; intros [= <-]; (split; [exact C|split; [by right|done]]).
Qed.
(** A contested refusal names the generation of the row and has one of these causes. *)
Lemma connectionSession_contested v bearer id body earlier db a :
  connectionSession tokenHash cfg v bearer id body earlier db = inl (Refused a) -> contested a = true ->
  exists b e, body = Some b /\ rq_expected b = Some e /\ request_ok id b = true /\ conflict id b e db /\ (code a = 409 \/ code a = 410) /\
    generation a = Generation (default no_record (readConnection db id)).
Proof.
  intros H Ha. assert (~ uncontested (Refused a)) as N by (unfold uncontested; congruence).
  unfold connectionSession in H. apply bind_refused in H as [H|(p & _ & H)].
  { destruct (auth _ _ _ _ _) eqn:E; [|done]. injection H as <-. apply auth_calm in E. congruence. }
  apply bind_refused in H as [[_ [= ->]]%must_refused|(b & ->%must_ok & H)]; [done|].
  apply bind_refused in H as [[_ [= ->]]%ensure_refused|([] & Hok%ensure_ok & H)]; [done|].
  destruct (ce_sql v); [done|]. apply bind_refused in H as [H|([] & _ & H)]; [by apply txPrincipal_calm, N in H|].
  cbv zeta in H. apply bind_refused in H as [H|([] & Hs & H)]; [by apply lineage_scope_calm, N in H|]. apply lineage_scope_ok in Hs.
  apply bind_refused in H as [H|([] & _ & H)]; [by apply broker_ready_calm, N in H|].
  assert (exists e, rq_expected b = Some e) as [e He].
  { unfold request_ok in Hok. destruct (rq_expected b); [by eexists|]. exfalso. by rewrite andb_false_r in Hok. }
  exists b, e. do 3 (split; [done|]). rewrite He in *. cbn [default from_option Datatypes.id] in *.
  destruct (readConnection db id) as [c|] eqn:R; cbn [default from_option Datatypes.id] in *.
  - rewrite bool_decide_false in H by done. cbn [negb andb orb] in H. destruct (list_eqb (rq_request b) (Request c)) eqn:Q.
    + apply list_eqb_eq in Q. apply bind_refused in H as [H|(? & _ & H)]; [|done]. by eapply replay_refused.
    + apply bind_refused in H as [[E [= ->]]%ensure_refused|([] & E%ensure_ok & H)].
      { apply Z.eqb_neq in E. split; [eapply generation_changed; [done|by apply not_eq_sym]|]. by split; [left|]. }
      apply Z.eqb_eq in E. apply bind_refused in H as [[E2 [= ->]]%ensure_refused|([] & _ & H)].
      { apply Z.ltb_ge in E2. split; [eapply generation_limit; [done|congruence|done]|]. by split; [left|]. }
      apply bind_refused in H as [?|(? & [= <-] & H)]; [done|]. apply bind_refused in H as [H|([] & _ & H)].
      { destruct (unused_refused v p id b e c db a H Ha) as (C & ? & ?). split; [done|]. split; [by left|done]. }
      unfold mint in H. cbv zeta in H. by destruct (_ || _).
  - rewrite bool_decide_true in H by done. cbn [negb andb orb ensure] in H.
    apply bind_refused in H as [?|([] & _ & H)]; [done|]. apply bind_refused in H as [?|([] & _ & H)]; [done|].
    apply bind_refused in H as [H|(c & E & H)]; [by apply enroll_calm, N in H|]. apply enroll_fresh in E as [E1 E2].
    apply bind_refused in H as [H|([] & _ & H)].
    { destruct (unused_refused v p id b e c db a H Ha) as (C & ? & ?). split; [done|]. split; [by left|]. cbn. congruence. }
    unfold mint in H. cbv zeta in H. by destruct (_ || _).
Qed.
(** Evidence of a revocation is no reason to end a proposal. *)
Lemma connectionSession_observed v bearer id body earlier db a c :
  connectionSession tokenHash cfg v bearer id body earlier db = inl (Observed a c) -> contested a = false.
Proof.
  unfold connectionSession. intros H. change (uncontested (Observed a c)).
  apply bind_refused in H as [H|(p & _ & H)]; [by destruct (auth _ _ _ _ _)|].
  apply bind_refused in H as [[_ [=]]%must_refused|(b & _ & H)]. apply bind_refused in H as [[_ [=]]%ensure_refused|([] & _ & H)].
  destruct (ce_sql v); [done|]. apply bind_refused in H as [H|([] & _ & H)]; [by eapply txPrincipal_calm|].
  cbv zeta in H. apply bind_refused in H as [H|([] & _ & H)]; [by eapply lineage_scope_calm|].
  apply bind_refused in H as [H|([] & _ & H)]; [by eapply broker_ready_calm|]. destruct (negb _ && _).
  { apply bind_refused in H as [H|(? & _ & H)]; [|done]. unfold replay in H. by repeat case_match; simplify_eq. }
  do 2 (apply bind_refused in H as [[_ [=]]%ensure_refused|([] & _ & H)]).
  apply bind_refused in H as [H|(c' & _ & H)]; [destruct (bool_decide _); [by eapply enroll_calm|done]|].
  apply bind_refused in H as [H|([] & _ & H)].
  - unfold unused in H. cbv zeta in H. repeat (apply bind_refused in H as [[_ [=]]%ensure_refused|([] & _ & H)]). by apply ensure_refused in H as [_ [=]].
  - unfold mint in H. cbv zeta in H. by destruct (_ || _).
Qed.
End outcomes.

(** ** What other requests do to a connection

    A request that is not for connection [id] may revoke its row but changes nothing else of
    it, adds nothing to its history, and does not use the credential with hash [secret]. *)

Record elsewhere (id secret : list Z) (db db' : store) : Prop := {
  el_row : match readConnection db id, readConnection db' id with
           | None, None => True
           | Some c, Some c' => c' = c \/ (Revoked c = [] /\ exists why, why <> [] /\ c' = c <| Revoked := why |>)
           | _, _ => False end;
  el_history : forall h, h ∈ connection_sessions db' -> h ∈ connection_sessions db \/ (h_connection h <> id /\ h_token h <> secret);
  el_tokens : forall t, t ∈ tokens db' -> tk_hash t = secret -> exists u, u ∈ tokens db /\ tk_hash u = secret }.
#[export] Instance elsewhere_preorder id secret : PreOrder (elsewhere id secret).
Proof.
  split.
  - intros db. constructor; [destruct (readConnection db id); [by left|done]|by left|by eauto].
  - intros x y z [A1 A2 A3] [B1 B2 B3]. constructor.
    + destruct (readConnection x id) as [c|], (readConnection y id) as [c1|], (readConnection z id) as [c2|]; try done.
      destruct A1 as [->|(L & w & W & ->)]; [done|]. right. split; [done|]. destruct B1 as [->|(L' & _)]; [by exists w|done].
    + intros h [H|H]%B2; [by apply A2|by right].
    + intros t Ht E. destruct (B3 t Ht E) as (u & Hu & E'). by apply (A3 u).
Qed.
(** Marking rows as revoked. *)
Lemma revoke_read (f : connectionRecord -> bool) (why : list Z) db db' id :
  connections db' = map (fun c => if list_eqb (Revoked c) [] && f c then c <| Revoked := why |> else c) (connections db) ->
  readConnection db' id = (fun c => if list_eqb (Revoked c) [] && f c then c <| Revoked := why |> else c) <$> readConnection db id.
Proof. intros E. unfold readConnection. rewrite E. apply (find_map_same ID). intros x. by destruct (_ && _). Qed.
Lemma revoke_elsewhere (f : connectionRecord -> bool) (why id secret : list Z) db db' : why <> [] ->
  connections db' = map (fun c => if list_eqb (Revoked c) [] && f c then c <| Revoked := why |> else c) (connections db) ->
  (forall h, h ∈ connection_sessions db' -> h ∈ connection_sessions db) -> (forall t, t ∈ tokens db' -> t ∈ tokens db) -> elsewhere id secret db db'.
Proof.
  intros W E H T. constructor; [|by left; apply H|intros t Ht ?; exists t; split; [by apply T|done]].
  rewrite (revoke_read f why db db' id E). destruct (readConnection db id) as [c|]; [|done]. cbn.
  destruct (list_eqb (Revoked c) []) eqn:L; [|by left]. apply list_eqb_eq in L. destruct (f c); [right|by left]. split; [done|by exists why].
Qed.
Lemma same_rows_elsewhere id secret db db' : connections db' = connections db -> (forall h, h ∈ connection_sessions db' -> h ∈ connection_sessions db) ->
  (forall t, t ∈ tokens db' -> t ∈ tokens db) -> elsewhere id secret db db'.
Proof.
  intros E H T. constructor; [|by left; apply H|intros t Ht ?; exists t; split; [by apply T|done]].
  unfold readConnection. rewrite E. destruct (List.find _ _); [by left|done].
Qed.
Lemma observed_elsewhere id secret e db : elsewhere id secret db (persistObservedRevocation e db).
Proof.
  destruct e as [a|a c|]; try done. cbn. apply (revoke_elsewhere (fun r => list_eqb (ID r) (ID c) && (Generation r =? Generation c) && list_eqb (Session r) (Session c) &&
    list_eqb (TokenHash r) (TokenHash c)) (lit "session_credential_revoked")); try done.
  cbn. apply map_ext. intros r. unfold same_transport. destruct (list_eqb (Revoked r) []); [by rewrite andb_true_r|by rewrite andb_false_r].
Qed.
Lemma revoke_lineage_elsewhere id id' secret why db : lit why <> [] -> elsewhere id secret db (revoke_lineage id' why db).
Proof.
  intros W. apply (revoke_elsewhere (fun c => list_eqb (ID c) id') (lit why)); try done. cbn. by intros t [? _]%in_filter.
Qed.
Lemma expire_elsewhere id secret n1 n2 db : elsewhere id secret db (expire_rows n1 n2 db).
Proof. apply same_rows_elsewhere; [done|done|]. cbn. by intros t [? _]%in_filter. Qed.
(** An endpoint is [elsewhere] when its handler's successes are. *)
Lemma endpoint_elsewhere id secret v handler db :
  (forall db' r, handler db = inr (db', r) -> elsewhere id secret db db') -> elsewhere id secret db (endpoint v handler db).2.
Proof.
  intros H. unfold endpoint. destruct (ce_stopped v); [done|]. destruct (handler db) as [[a|a c|]|[db' r]] eqn:E; try done; [|by eapply H].
  destruct (ce_persist v); [done|]. apply (observed_elsewhere id secret (Observed a c)).
Qed.

Section others.
Context (tokenHash : list Z -> list Z) (cfg : config).
Lemma session_elsewhere id secret v bearer id' body earlier db :
  id' <> id -> (forall b, body = Some b -> tokenHash (rq_token b) <> secret) ->
  elsewhere id secret db (endpoint v (connectionSession tokenHash cfg v bearer id' body earlier) db).2.
Proof.
  intros N S. apply endpoint_elsewhere. intros db' r H. apply connectionSession_ok in H as (b & e & Hb & _ & _ & [(c & s & _ & _ & -> & _)|(row & x & M & _)]); [done|].
  specialize (S b Hb). constructor.
  - rewrite (mi_others _ _ _ _ _ _ _ M) by done. destruct (readConnection db id); [by left|done].
  - intros h Hh. apply (mi_history _ _ _ _ _ _ _ M) in Hh as [Hh| ->]; [by left|by right].
  - intros t Ht E. apply (mi_tokens _ _ _ _ _ _ _ M) in Ht as [Ht|Ht]; [by exists t|congruence].
Qed.
Lemma delete_elsewhere id secret v bearer id' earlier db : elsewhere id secret db (endpoint v (deleteConnection tokenHash v bearer id' earlier) db).2.
Proof.
  apply endpoint_elsewhere. intros db' r H. unfold deleteConnection in H. succeeded H. destruct (ce_sql v); [done|]. succeeded H. injection H as <- <-.
  by apply revoke_lineage_elsewhere.
Qed.
Definition outcome_store (r : option (result store)) (db : store) : store :=
  match r with Some (inr db') => db' | Some (inl e) => persistObservedRevocation e db | None => db end.
Lemma delete_session_elsewhere id secret v bearer sid earlier db :
  elsewhere id secret db (outcome_store (deleteSessionLineage tokenHash v bearer sid earlier db) db).
Proof.
  unfold outcome_store. destruct (deleteSessionLineage _ _ _ _ _ _) as [[e|db']|] eqn:E; [apply observed_elsewhere| |done].
  unfold deleteSessionLineage in E. destruct (List.find _ _); [|done]. injection E as E. succeeded E. destruct (ce_sql v); [done|]. succeeded E.
  injection E as <-. by apply revoke_lineage_elsewhere.
Qed.
Lemma delete_broker_ok v bearer b earlier db db' r : deleteBroker tokenHash v bearer b earlier db = inr (db', r) ->
  db' = drop_broker b (revokeConnections (fun c => list_eqb (Broker c) b) "broker_deleted" db
                         <| tokens ::= List.filter (fun t => negb (list_eqb (tk_broker t) b)) |>).
Proof.
  unfold deleteBroker. intros H. succeeded H. ensured. destruct (ce_sql v); [done|]. succeeded H. injection H as <- <-.
  apply find_some in Ha0 as [_ ->%list_eqb_eq]. done.
Qed.
(** Deleting a broker leaves the connections of the others. *)
Lemma drop_broker_elsewhere id secret b db : (forall c, readConnection db id = Some c -> Broker c <> b) -> elsewhere id secret db (drop_broker b db).
Proof.
  intros N. constructor; [|intros h Hh; left; by apply in_filter in Hh as [? _]|by eauto].
  destruct (readConnection db id) as [c|] eqn:R.
  - replace (readConnection (drop_broker b db) id) with (Some c); [by left|]. symmetry. apply (find_filter ID); [exact R|].
    apply negb_true_iff, list_eqb_neq, N. done.
  - replace (readConnection (drop_broker b db) id) with (@None connectionRecord); [done|]. symmetry. by apply find_filter_none.
Qed.
Lemma delete_broker_elsewhere id secret v bearer b earlier db : (forall c, readConnection db id = Some c -> Broker c <> b) ->
  elsewhere id secret db (endpoint v (deleteBroker tokenHash v bearer b earlier) db).2.
Proof.
  intros N. apply endpoint_elsewhere. intros db' r ->%delete_broker_ok.
  match goal with |- elsewhere _ _ _ (drop_broker _ ?d) => set (db1 := d) end. transitivity db1.
  - apply (revoke_elsewhere (fun c => list_eqb (Broker c) b) (lit "broker_deleted")); try done. cbn. by intros t [? _]%in_filter.
  - apply drop_broker_elsewhere. intros c R. rewrite (revoke_read (fun c => list_eqb (Broker c) b) (lit "broker_deleted") db db1 id eq_refl) in R.
    destruct (readConnection db id) as [c0|]; [|done]. cbn in R. injection R as <-. specialize (N c0 eq_refl). by destruct (_ && _).
Qed.
End others.
Lemma managed_elsewhere id secret now db id' sid g : elsewhere id secret db (managedSession now db id' sid g).2.
Proof. unfold managedSession. destruct (list_eqb id' []); [done|]. destruct (session_scope _ _ _ _ _); [apply observed_elsewhere|done]. Qed.
Lemma state_elsewhere id secret now db id' sid who : elsewhere id secret db (connectionSessionState now db id' sid who).2.
Proof.
  unfold connectionSessionState. destruct (readConnection db id') as [c|]; [|done]. destruct (_ || _); [done|].
  destruct (checkConnection _ _ _ _); [apply observed_elsewhere|done].
Qed.

(** ** Maintenance keeps a lineage its caller could still use *)

Lemma existsb_filter {A} (f keep : A -> bool) l : (forall x, f x = true -> keep x = true) -> existsb f (List.filter keep l) = existsb f l.
Proof.
  intros H. induction l as [|x l IH]; [done|]. cbn. destruct (keep x) eqn:K; cbn; rewrite IH; [done|].
  destruct (f x) eqn:F; [|done]. rewrite (H x F) in K. done.
Qed.
(** The caller's authority over the row at some clock. *)
Definition caller_live (db : store) (c : connectionRecord) (at_ : Z) : Prop :=
  exists now k, now k = at_ /\ account_live now k db c = true /\ tenant_serves db c = true.
Lemma caller_live_alive db c at_ n1 n2 : caller_live db c at_ -> n1 <= at_ -> n2 <= at_ -> lineage_dead n1 n2 db c = false.
Proof.
  intros (now & k & <- & A & T) H1 H2. unfold lineage_dead. apply orb_false_iff. split; [apply orb_false_iff|]; unfold account_live in A.
  - destruct (list_eqb (AuthSession c) []) eqn:E; cbn [negb andb] in *; (split; [|try done]); [|done|].
    + apply negb_false_iff, existsb_exists. unfold connectionCredential in A. destruct (List.find _ _) as [t|] eqn:F; [|done].
      apply find_some in F as [F1 F2]. repeat (apply andb_true_iff in F2 as [F2 ?]). exists t. split; [done|]. apply andb_true_iff. split; [by apply andb_true_iff|lia].
    + apply negb_false_iff, existsb_exists. unfold authAuthority in A. destruct (Service.readAuthSession _ _) as [a|] eqn:R; [|done].
      destruct (_ || _) eqn:D; [done|]. apply orb_false_iff in D as [D1 D2]. apply negb_false_iff in D1, D2.
      unfold Service.checkAuthSession in A. destruct (list_eqb (Service.Revoked a) []) eqn:V; [|done]. cbn [negb] in A.
      destruct (_ || _) eqn:X; [done|]. apply orb_false_iff in X as [X _]. cbn in X. apply Z.leb_gt in X.
      unfold Service.readAuthSession in R. apply find_some in R as [R1 R2]. exists a. split; [exact R1|]. rewrite R2, D1, D2, V. cbn. lia.
  - apply negb_false_iff, existsb_exists. unfold tenant_serves, find_tenant in T. destruct (List.find _ _) as [n|] eqn:F; [|done].
    apply find_some in F as [F1 F2]. exists n. split; [done|]. apply andb_true_iff in T as [T1 T2]. by rewrite F2, T1, T2.
Qed.
Lemma lineage_dead_rows n1 n2 db db' c c' :
  auth_sessions db' = auth_sessions db -> tenants db' = tenants db ->
  existsb (fun t => list_eqb (tk_hash t) (AccountHash c) && list_eqb (tk_kind t) (lit "account") && (n1 <? tk_expires t)) (tokens db') =
  existsb (fun t => list_eqb (tk_hash t) (AccountHash c) && list_eqb (tk_kind t) (lit "account") && (n1 <? tk_expires t)) (tokens db) ->
  c' = c <| Revoked := Revoked c' |> -> lineage_dead n1 n2 db' c' = lineage_dead n1 n2 db c.
Proof. intros E1 E2 E3 ->. unfold lineage_dead, live_auth. cbn. by rewrite E1, E2, E3. Qed.
(** Rows that do not belong to a dead lineage survive [pruneConnections]. *)
Lemma prune_elsewhere id secret now sql db :
  (forall c, readConnection db id = Some c -> lineage_dead (now 7%nat) (now 8%nat) db c = false) -> elsewhere id secret db (pruneConnections now sql db).
Proof.
  intros L. unfold pruneConnections. destruct sql; [done|]. cbv zeta.
  set (db1 := db <| connections ::= _ |>). transitivity db1.
  { subst db1. by apply (revoke_elsewhere (device_dead (now 1%nat) (now 2%nat) db) (lit "credential_revoked")). }
  pose proof (revoke_read (device_dead (now 1%nat) (now 2%nat) db) (lit "credential_revoked") db db1 id eq_refl) as R1.
  match goal with |- elsewhere _ _ _ ?d => set (out := d) end.
  assert (forall h, h ∈ connection_sessions out -> h ∈ connection_sessions db1) as Hh by (subst out; cbn; by intros h [? _]%in_filter).
  assert (forall t, t ∈ tokens out -> t ∈ tokens db1) as Ht by (subst out; cbn; by intros t [? _]%in_filter).
  constructor; [|by left; apply Hh|intros t X ?; exists t; split; [by apply Ht|done]].
  destruct (readConnection db id) as [c|] eqn:R; cbn [fmap option_fmap option_map] in R1; rewrite R1.
  - set (c' := if _ && _ then _ else c) in *. assert (c' = c <| Revoked := Revoked c' |>) as Ec by (subst c'; destruct (_ && _); by destruct c).
    replace (readConnection out id) with (Some c'); [by left|]. symmetry. unfold readConnection, out. cbn. apply (find_filter ID); [exact R1|].
    apply negb_true_iff. transitivity (lineage_dead (now 7%nat) (now 8%nat) db c); [|exact (L c eq_refl)]. apply lineage_dead_rows; try done. cbn. apply existsb_filter.
    intros t Ht'. apply andb_true_iff in Ht' as [[_ K%list_eqb_eq]%andb_true_iff _]. by rewrite K.
  - replace (readConnection out id) with (@None connectionRecord); [done|]. symmetry. unfold readConnection, out. cbn. by apply find_filter_none.
Qed.

(** ** A closed lineage *)

Section closed.
Context (tokenHash : list Z -> list Z) (cfg : config).
(** Requests and maintenance, in any order; [sv_accounts] stands for the rest of the service,
    which deletes no connection. *)
Inductive service_step (id : list Z) : store -> store -> Prop :=
  | sv_session v bearer id' body earlier db : service_step id db (endpoint v (connectionSession tokenHash cfg v bearer id' body earlier) db).2
  | sv_delete v bearer id' earlier db : service_step id db (endpoint v (deleteConnection tokenHash v bearer id' earlier) db).2
  | sv_delete_session v bearer sid earlier db : service_step id db (outcome_store (deleteSessionLineage tokenHash v bearer sid earlier db) db)
  | sv_managed now id' sid g db : service_step id db (managedSession now db id' sid g).2
  | sv_state now id' sid who db : service_step id db (connectionSessionState now db id' sid who).2
  | sv_expire n1 n2 db : service_step id db (expire_rows n1 n2 db)
  | sv_prune now sql db : service_step id db (pruneConnections now sql db)
  | sv_delete_broker v bearer b earlier db : service_step id db (endpoint v (deleteBroker tokenHash v bearer b earlier) db).2
  | sv_accounts secret db db' : elsewhere id secret db db' -> service_step id db db'.

(** No request moves a revoked row. *)
Lemma revoked_session v bearer id body earlier db c : readConnection db id = Some c -> Revoked c <> [] ->
  exists e, connectionSession tokenHash cfg v bearer id body earlier db = inl e.
Proof.
  intros R N. destruct (connectionSession _ _ _ _ _ _ _ _) as [e|[db' r]] eqn:E; [by exists e|]. exfalso.
  apply connectionSession_ok in E as (b & e & _ & _ & _ & [(c' & s & M & _)|(row & x & M & _)]).
  - destruct M as [R' L _ _ _]. congruence.
  - pose proof (mi_before _ _ _ _ _ _ _ M) as B. rewrite R in B. by destruct B as (_ & B & _).
Qed.
Lemma endpoint_refused v handler db e : handler db = inl e -> forall id secret, elsewhere id secret db (endpoint v handler db).2.
Proof. intros E id secret. apply endpoint_elsewhere. intros db' r. congruence. Qed.
Lemma elsewhere_revoked id secret db db' c : elsewhere id secret db db' -> readConnection db id = Some c -> Revoked c <> [] -> readConnection db' id = Some c.
Proof.
  intros [E _ _] R N. rewrite R in E. destruct (readConnection db' id) as [c'|]; [|done]. destruct E as [->|(L & _)]; [done|congruence].
Qed.
(** The two ways the row of a connection goes: maintenance, at a time from which on its caller
    has no authority any more, and the removal of its broker. *)
Inductive removed (c : connectionRecord) : store -> store -> Prop :=
  | retired now sql db : (forall at_, now 7%nat <= at_ -> now 8%nat <= at_ -> ~ caller_live db c at_) -> removed c db (pruneConnections now sql db)
  | broker_removed v bearer earlier db : removed c db (endpoint v (deleteBroker tokenHash v bearer (Broker c) earlier) db).2.
Lemma step_revoked id db db' c : service_step id db db' -> readConnection db id = Some c -> Revoked c <> [] ->
  readConnection db' id = Some c \/ removed c db db'.
Proof.
  intros S R N. destruct S as [v bearer id' body earlier x|v bearer id' earlier x|v bearer sid earlier x|now id' sid g x|now id' sid who x|n1 n2 x|now sql x|v bearer b earlier x|secret x y E].
  all: try match goal with |- context [pruneConnections] => idtac | |- context [deleteBroker] => idtac | |- _ => left end.
  - destruct (decide (id' = id)) as [->|D].
    + destruct (revoked_session v bearer id body earlier x c R N) as [e E]. by eapply (elsewhere_revoked id []); [apply (endpoint_refused _ _ _ e)|..].
    + unfold endpoint. destruct (ce_stopped v); [done|]. destruct (connectionSession _ _ _ _ _ _ _ _) as [[a|a c0|]|[y r]] eqn:E; try done.
      { destruct (ce_persist v); [done|]. exact (elsewhere_revoked id [] _ _ _ (observed_elsewhere _ _ (Observed a c0) x) R N). }
      apply connectionSession_ok in E as (b & e & _ & _ & _ & [(? & ? & _ & _ & -> & _)|(row & z & M & _)]); [done|].
      cbn [snd]. by rewrite (mi_others _ _ _ _ _ _ _ M) by done.
  - exact (elsewhere_revoked _ _ _ _ _ (delete_elsewhere tokenHash id [] v bearer id' earlier x) R N).
  - exact (elsewhere_revoked _ _ _ _ _ (delete_session_elsewhere tokenHash id [] v bearer sid earlier x) R N).
  - exact (elsewhere_revoked _ _ _ _ _ (managed_elsewhere id [] now x id' sid g) R N).
  - exact (elsewhere_revoked _ _ _ _ _ (state_elsewhere id [] now x id' sid who) R N).
  - exact (elsewhere_revoked _ _ _ _ _ (expire_elsewhere id [] n1 n2 x) R N).
  - destruct (lineage_dead (now 7%nat) (now 8%nat) x c) eqn:L.
    + right. constructor. intros at_ H1 H2 A. by rewrite (caller_live_alive _ _ _ _ _ A H1 H2) in L.
    + left. refine (elsewhere_revoked _ _ _ _ _ (prune_elsewhere id [] now sql x _) R N). intros c' R'. congruence.
  - destruct (decide (b = Broker c)) as [->|D]; [right; constructor|left].
    refine (elsewhere_revoked _ _ _ _ _ (delete_broker_elsewhere tokenHash id [] v bearer b earlier x _) R N). intros c' R'. congruence.
  - exact (elsewhere_revoked _ _ _ _ _ E R N).
Qed.
(** A run of the service after which the row is still there, or on which it was removed. *)
Lemma steps_revoked id db db' c : rtc (service_step id) db db' -> readConnection db id = Some c -> Revoked c <> [] ->
  readConnection db' id = Some c \/
  exists x y, rtc (service_step id) db x /\ readConnection x id = Some c /\ removed c x y /\ rtc (service_step id) y db'.
Proof.
  induction 1 as [x|x y z S T IH]; intros R N; [by left|]. destruct (step_revoked id x y c S R N) as [R'|G].
  - destruct (IH R' N) as [?|(a & b & A & Ra & G & B)]; [by left|]. right. exists a, b. split_and!; try done. by eapply rtc_l.
  - right. exists x, y. by split_and!.
Qed.
Lemma deleted_row v bearer id earlier db db' r : deleteConnection tokenHash v bearer id earlier db = inr (db', r) ->
  exists c, readConnection db id = Some c /\ db' = revoke_lineage id "closed" db.
Proof.
  unfold deleteConnection. intros H. succeeded H. destruct (ce_sql v); [done|]. succeeded H. ensured. injection H as <- <-.
  exists a1. split; [done|]. by rewrite (readConnection_id _ _ _ Ha1).
Qed.
(** What a lineage's closure leaves. *)
Lemma revoke_lineage_row id why db c : lit why <> [] -> readConnection db id = Some c ->
  exists c', readConnection (revoke_lineage id why db) id = Some c' /\ Revoked c' <> [].
Proof.
  intros W R. pose proof (revoke_read (fun c => list_eqb (ID c) id) (lit why) db (revoke_lineage id why db) id eq_refl) as E.
  rewrite R in E. cbn [fmap option_fmap option_map] in E. rewrite (readConnection_id _ _ _ R), list_eqb_refl, andb_true_r in E.
  eexists. split; [exact E|]. destruct (list_eqb (Revoked c) []) eqn:L; [done|by apply list_eqb_neq].
Qed.
Lemma revoke_lineage_rows id why db :
  (forall s, s ∈ sessions (revoke_lineage id why db) -> history_of (list_eqb id) db (ss_id s) = false) /\
  (forall t, t ∈ tokens (revoke_lineage id why db) -> tk_kind t = lit "session" -> history_of (list_eqb id) db (tk_session t) = false).
Proof.
  split; [intros s [_ H]%in_filter; by apply negb_true_iff|]. intros t [_ H]%in_filter K. apply negb_true_iff in H. by rewrite K, list_eqb_refl in H.
Qed.
Lemma body_no_session a : item (apiErrorBody a) (lit "session_id") = None.
Proof. unfold apiErrorBody. destruct (list_eqb (reason a) []), (generation a =? 0); done. Qed.
Lemma refused_body v handler db e : handler db = inl e -> item (endpoint v handler db).1.2 (lit "session_id") = None.
Proof.
  intros E. unfold endpoint. destruct (ce_stopped v); [done|]. rewrite E. destruct e as [a|a c|]; [apply body_no_session| |done].
  destruct (ce_persist v); [done|apply body_no_session].
Qed.

(** The row is there, closed, and no request for a session of the connection is granted: whoever
    asks and with whatever proposal, the answer has no session and the history gets no row. *)
Definition stays_closed (id : list Z) (c : connectionRecord) (db : store) : Prop :=
  readConnection db id = Some c /\ Revoked c <> [] /\
  forall v bearer body earlier, let out := endpoint v (connectionSession tokenHash cfg v bearer id body earlier) db in
    item out.1.2 (lit "session_id") = None /\ readConnection out.2 id = Some c /\
    forall h, h ∈ connection_sessions out.2 -> h ∈ connection_sessions db.
Lemma revoked_closed id c db : readConnection db id = Some c -> Revoked c <> [] -> stays_closed id c db.
Proof.
  intros R N. split_and!; try done. intros v bearer body earlier. cbv zeta.
  destruct (revoked_session v bearer id body earlier db c R N) as [e E]. split; [by eapply refused_body|].
  pose proof (endpoint_refused v _ _ _ E id) as X. split; [exact (elsewhere_revoked id [] _ _ _ (X []) R N)|].
  intros h Hh. destruct (el_history _ _ _ _ (X (h_token h)) h Hh) as [?|[_ ?]]; done.
Qed.

End closed.

(** ** An example *)

Definition plain_hash (t : list Z) : list Z := t.
Definition demo_cfg : config := Config 600000 16 true.
Definition demo_id : list Z := lit "11111111-2222-4333-8444-555555555555".
Definition demo_broker : list Z := lit "aaaaaaaa-2222-4333-8444-555555555555".
Definition demo_request : connectionRequest :=
  ConnectionRequest demo_broker (lit "auto") (Some 0) (lit "bbbbbbbb-2222-4333-8444-555555555555") (replicate 64 97).
Definition demo_store : store :=
  Store [] [TenantRow (Service.TenantRow (lit "tenant") 1 (lit "active")) 1]
    [TokenRow (lit "account") (lit "account") (lit "tenant") [] [] 1 9000000 []; TokenRow (lit "device") (lit "device") (lit "tenant") demo_broker [] 1 9000000 []]
    [BrokerRow demo_broker (lit "tenant") 9000000] [] [] [].
Definition demo_env (byte : Z) : conn_env := ConnEnv (fun _ => 1000) false false false (replicate 16 byte).
Definition demo_out : (Z * reply) * store :=
  endpoint (demo_env 1) (connectionSession plain_hash demo_cfg (demo_env 1) (lit "account") demo_id (Some demo_request) demo_store) demo_store.
Definition demo_closed : store :=
  match deleteConnection plain_hash (demo_env 2) (lit "account") demo_id demo_out.2 demo_out.2 with inr (db, _) => db | inl _ => demo_store end.
Lemma demo_granted : demo_out.1.1 = 201 /\ length (connections demo_out.2) = 1%nat.
Proof. vm_compute. done. Qed.
(** The example's caller keeps its authority, so maintenance keeps the row. *)
Definition demo_kept : store := pruneConnections (fun _ => 2000) false (expire_rows 2000 2000 demo_closed).
(** Once its token expired the row goes. *)
Example demo_retired : readConnection (pruneConnections (fun _ => 9000001) false demo_closed) demo_id = None.
Proof. vm_compute. reflexivity. Qed.
End Connections.
