(* ===== verification/LineageSystem.v ===== *)
(** * Three parties agree on the session of a connection

    The client's coordinator (Coordinator.v), the service's rows (Lineage.v) and a served broker
    (Server.v) as one system: proposals that are lost, answered late, served twice or answered
    after the client gave up, a broker that learns of sessions from snapshots pushed at any time
    and read at any later time, and every other request and all maintenance in between.  The
    network and the schedule decide; requests are JSON objects, as the encoders write them. *)

From Stdlib Require Import QArith Qround.
From stdpp Require Import relations.
From S2P Require Import Prelude.
From S2P Require Import AuthService Control Peer PeerCrypto Api Coordinator Ws Server Lineage.
Import Connections.
#[local] Open Scope Z_scope.
#[local] Arguments lit : simpl never.

(** ** From the client's request to the handler's arguments *)

(** The route [POST /v1/connections/{id}/session]. *)
Definition routed (path : list Z) : option (list Z) :=
  let id := zsub 16 (zlen path - 24) path in
  if list_eqb path (lit "/v1/connections/" ++ id ++ lit "/session") && negb (list_eqb id []) && negb (existsb (Z.eqb 47) id) then Some id else None.
(** [decode] into a [connectionRequest], of the object that was encoded: an unknown field or a
    wrong type is an error.  Names are compared exactly, the decoder's tolerance of letter case
    never being used, and the text of such an object is one value far below the size limit. *)
Definition decode_field (b : connectionRequest) (f : list Z * jval) : option connectionRequest :=
  match f with
  | (k, JStr s) =>
    if list_eqb k (lit "broker_id") then Some (ConnectionRequest s (rq_relay b) (rq_expected b) (rq_request b) (rq_token b))
    else if list_eqb k (lit "relay_mode") then Some (ConnectionRequest (rq_broker b) s (rq_expected b) (rq_request b) (rq_token b))
    else if list_eqb k (lit "request_id") then Some (ConnectionRequest (rq_broker b) (rq_relay b) (rq_expected b) s (rq_token b))
    else if list_eqb k (lit "session_token") then Some (ConnectionRequest (rq_broker b) (rq_relay b) (rq_expected b) (rq_request b) s)
    else None
  | (k, JNum n) =>
    if list_eqb k (lit "expected_generation") && (0 <=? n) && (n <=? UINT64_MAX)
    then Some (ConnectionRequest (rq_broker b) (rq_relay b) (Some n) (rq_request b) (rq_token b)) else None
  | _ => None
  end.
Fixpoint decode_fields (j : jobject) (b : connectionRequest) : option connectionRequest :=
  match j with [] => Some b | f :: j => decode_field b f ≫= decode_fields j end.
Definition decode (j : jobject) : option connectionRequest := decode_fields j (ConnectionRequest [] [] None [] []).

(** What a post asks for, if the service understands it. *)
Definition asks (q : post) (cid : list Z) (e : Z) (r t : list Z) : Prop :=
  forall id b, routed q.1 = Some id -> decode q.2 = Some b ->
    id = cid /\ 0 <= e /\ rq_expected b = Some e /\ rq_request b = r /\ rq_token b = t.
Lemma routed_spec path id : routed path = Some id -> path = lit "/v1/connections/" ++ id ++ lit "/session".
Proof.
  unfold routed. cbv zeta. destruct (_ && _ && _) eqn:E; [|done]. intros [= <-]. apply andb_true_iff in E as [[E _]%andb_true_iff _]. by apply list_eqb_eq.
Qed.
Lemma session_post_asks p : control_managed p = true ->
  asks (session_post p) (connection_id p) (control_generation p) (request_id p) (requested_session_token p).
Proof.
  intros M id b R D. unfold session_post in *. rewrite M in *. cbn [fst snd] in *. split.
  - apply routed_spec in R. apply app_inv_head in R. by apply app_inv_tail in R.
  - unfold decode, one_string in D. cbn [app decode_fields] in D.
    cbn -[lit] in D. destruct (_ && _) eqn:E in D; [|done]. cbn -[lit] in D. injection D as <-. cbn.
    apply andb_true_iff in E as [E _]. split; [|done]. lia.
Qed.

(** The route [DELETE /v1/connections/{id}], by which a client ends its connection for good. *)
Definition routed_delete (r : request) : option (list Z) :=
  let id := zdrop 16 (rq_path r) in
  if list_eqb (rq_method r) DELETE && list_eqb (ztake 16 (rq_path r)) (lit "/v1/connections/") && negb (list_eqb id []) && negb (existsb (Z.eqb 47) id)
  then Some id else None.

(** ** One exchange *)

(** Status and body as the client's HTTP layer reports them. *)
Definition answer_of (r : Z * Coordinator.reply) : answer :=
  if (200 <=? r.1) && (r.1 <? 300) then (None, Some r.2)
  else (Some (api_fail OB_API_HTTP r.1 (lit "Control server returned an HTTP error")), Some r.2).
(** An answer that is not the service's: an error without an error code. *)
Definition noise (a : answer) : Prop := (exists e, a.1 = Some e) /\ Coordinator.text a.2 (lit "error_code") = None.
(** The request is lost, or served; then its answer arrives or another one stands for it. *)
Inductive fate := Lost (a : answer) | Served (v : conn_env) (bearer : list Z) (earlier : store) (instead : option answer).
Definition fair (f : fate) : Prop := match f with Lost a | Served _ _ _ (Some a) => noise a | Served _ _ _ None => True end.

Section system.
Context (tokenHash : list Z -> list Z) (cfg : config).

Definition unrouted : Z * Coordinator.reply := (404, []).
Definition serve (v : conn_env) (bearer : list Z) (earlier : store) (q : post) (db : store) : (Z * Coordinator.reply) * store :=
  match routed q.1 with
  | None => (unrouted, db)
  | Some id => endpoint v (connectionSession tokenHash cfg v bearer id (decode q.2) earlier) db
  end.
Definition exchange (f : fate) (q : post) (db : store) : answer * store :=
  match f with
  | Lost a => (a, db)
  | Served v bearer earlier instead => let r := serve v bearer earlier q db in (default (answer_of r.1) instead, r.2)
  end.

(** The history rows ever seen, the service's own record being bounded. *)
Definition remember (log : list history_row) (db : store) : list history_row :=
  log ++ List.filter (fun h => bool_decide (~ h ∈ log)) (connection_sessions db).
Definition records : Type := store * list history_row.
Definition recorded (x : records) (db : store) : records := (db, remember x.2 db).

(** What happens at the service besides the exchange at hand.  [sent] are the client's posts so
    far, each of which may be served once more at any time.  Nobody else knows the connection and
    the token.  Maintenance runs at any time and brokers are removed, as long as the connection's
    row is kept: it goes only when its caller's authority has ended or with its own broker, and
    then there is nothing left to agree on. *)
Inductive bystander (cid secret : list Z) (sent : list post) : records -> records -> Prop :=
  | by_late q v bearer earlier x : q ∈ sent -> bystander cid secret sent x (recorded x (serve v bearer earlier q x.1).2)
  | by_session v bearer id body earlier x : id <> cid -> (forall b, body = Some b -> tokenHash (rq_token b) <> secret) ->
      bystander cid secret sent x (recorded x (endpoint v (connectionSession tokenHash cfg v bearer id body earlier) x.1).2)
  | by_delete v bearer id earlier x : bystander cid secret sent x (recorded x (endpoint v (deleteConnection tokenHash v bearer id earlier) x.1).2)
  | by_delete_session v bearer sid earlier x : bystander cid secret sent x (recorded x (outcome_store (deleteSessionLineage tokenHash v bearer sid earlier x.1) x.1))
  | by_managed now id sid g x : bystander cid secret sent x (recorded x (managedSession now x.1 id sid g).2)
  | by_state now id sid who x : bystander cid secret sent x (recorded x (connectionSessionState now x.1 id sid who).2)
  | by_expire n1 n2 x : bystander cid secret sent x (recorded x (expire_rows n1 n2 x.1))
  | by_prune now sql x : (forall c, readConnection x.1 cid = Some c -> lineage_dead (now 7%nat) (now 8%nat) x.1 c = false) ->
      bystander cid secret sent x (recorded x (pruneConnections now sql x.1))
  | by_delete_broker v bearer b earlier x : (forall c, readConnection x.1 cid = Some c -> Broker c <> b) ->
      bystander cid secret sent x (recorded x (endpoint v (deleteBroker tokenHash v bearer b earlier) x.1).2)
  | by_accounts x db : elsewhere cid secret x.1 db -> bystander cid secret sent x (recorded x db).

(** The exchanges of one attempt for a connection and a token, after which [log] was sent. *)
Inductive carried (env : session_env) (cid token : list Z) (sent : list post) : list post -> records -> records -> Prop :=
  | carried_none x : carried env cid token sent [] x x
  | carried_once q f x : fair f -> Coordinator.send env 0%nat q = (exchange f q x.1).1 -> carried env cid token sent [q] x (recorded x (exchange f q x.1).2)
  | carried_twice q f f' x y : fair f -> fair f' -> Coordinator.send env 0%nat q = (exchange f q x.1).1 ->
      rtc (bystander cid (tokenHash token) (q :: sent)) (recorded x (exchange f q x.1).2) y -> Coordinator.send env 1%nat q = (exchange f' q y.1).1 ->
      carried env cid token sent [q; q] x (recorded y (exchange f' q y.1).2).

(** ** The invariant between client and service *)

(** What the client holds: the connection, the generation, and the proposal whose outcome it
    does not know. *)
Definition pending_of (p : ob_remote_peer) : option (list Z * list Z) :=
  if request_pending p then Some (request_id p, requested_session_token p) else None.
Definition generation_of (db : store) (cid : list Z) : Z := match readConnection db cid with None => 0 | Some c => Generation c end.
Definition current (cid : list Z) (c : connectionRecord) : history_row :=
  HistoryRow (Session c) cid (Generation c) (Request c) (PriorGeneration c) (TokenHash c).
Record untouched (cid r t : list Z) (x : records) : Prop := {
  un_token : forall h, h ∈ x.2 -> h_token h <> tokenHash t;
  un_request : forall h, h ∈ x.2 -> h_connection h = cid -> h_request h <> r;
  un_hash : forall k, k ∈ tokens x.1 -> tk_hash k <> tokenHash t }.
(** The service is where the client is, or one grant further: that of the client's proposal. *)
Definition row_agrees (cid : list Z) (g : Z) (prop : option (list Z * list Z)) (c : connectionRecord) : Prop :=
  1 <= Generation c <= 2147483647 /\ PriorGeneration c = Generation c - 1 /\
  (Generation c = g \/ (Generation c = g + 1 /\ exists r t, prop = Some (r, t) /\ Request c = r /\ TokenHash c = tokenHash t)).
Record agreed (cid : list Z) (g : Z) (prop : option (list Z * list Z)) (sent : list post) (x : records) : Prop := {
  ag_generation : 0 <= g;
  ag_row : match readConnection x.1 cid with
           | None => g = 0
           | Some c => row_agrees cid g prop c /\ current cid c ∈ x.2 end;
  ag_unused : forall r t, prop = Some (r, t) -> generation_of x.1 cid = g -> untouched cid r t x;
  ag_log : forall h, h ∈ x.2 -> h_connection h = cid -> 1 <= h_generation h <= generation_of x.1 cid;
  ag_unique : forall h h', h ∈ x.2 -> h' ∈ x.2 -> h_connection h = cid -> h_connection h' = cid -> h_generation h = h_generation h' -> h = h';
  ag_history : forall h, h ∈ connection_sessions x.1 -> h ∈ x.2;
  ag_sent : forall q, q ∈ sent -> exists e r t, asks q cid e r t /\ (e < g \/ 2147483647 <= e \/ (e = g /\ prop = Some (r, t))) }.

Lemma in_remember log db h : h ∈ remember log db <-> h ∈ log \/ h ∈ connection_sessions db.
Proof.
  unfold remember. rewrite elem_of_app, in_filter, bool_decide_eq_true. destruct (decide (h ∈ log)); tauto.
Qed.
Lemma elsewhere_generation cid secret db db' : elsewhere cid secret db db' -> generation_of db' cid = generation_of db cid.
Proof.
  intros [R _ _]. unfold generation_of. destruct (readConnection db cid) as [c|], (readConnection db' cid) as [c'|]; try done.
  by destruct R as [->|(_ & w & _ & ->)].
Qed.
(** New rows of the record belong to other connections. *)
Lemma recorded_elsewhere cid secret x db h : (forall h, h ∈ connection_sessions x.1 -> h ∈ x.2) -> elsewhere cid secret x.1 db ->
  h ∈ (recorded x db).2 -> h ∈ x.2 \/ (h_connection h <> cid /\ h_token h <> secret).
Proof.
  intros S [_ H _]. cbn. rewrite in_remember. intros [?|Hh]; [by left|]. destruct (H h Hh) as [?|?]; [left; by apply S|by right].
Qed.
Lemma untouched_elsewhere cid secret r t x db : (forall h, h ∈ connection_sessions x.1 -> h ∈ x.2) -> elsewhere cid secret x.1 db -> secret = tokenHash t ->
  untouched cid r t x -> untouched cid r t (recorded x db).
Proof.
  intros S E -> [U1 U2 U3]. constructor.
  - intros h Hh. apply (recorded_elsewhere _ _ _ _ _ S E) in Hh as [?|[_ ?]]; [by apply U1|done].
  - intros h Hh Hc. apply (recorded_elsewhere _ _ _ _ _ S E) in Hh as [?|[? _]]; [by apply U2|done].
  - intros k Hk Hs. destruct (el_tokens _ _ _ _ E k Hk Hs) as (u & Hu & Eu). by apply (U3 u).
Qed.
Lemma agreed_elsewhere cid secret g prop sent x db : agreed cid g prop sent x -> elsewhere cid secret x.1 db ->
  (forall r t, prop = Some (r, t) -> secret = tokenHash t) -> agreed cid g prop sent (recorded x db).
Proof.
  intros [A1 A2 A3 A4 A5 A6 A7] E S. pose proof (elsewhere_generation _ _ _ _ E) as G.
  assert (forall h, h ∈ (recorded x db).2 -> h_connection h = cid -> h ∈ x.2) as Hold.
  { intros h Hh Hc. by apply (recorded_elsewhere _ _ _ _ _ A6 E) in Hh as [?|[? _]]. }
  constructor; cbn [recorded fst]; try done.
  - pose proof (el_row _ _ _ _ E) as R. destruct (readConnection x.1 cid) as [c|], (readConnection db cid) as [c'|]; try done.
    destruct A2 as [A2 A2']. assert (current cid c ∈ (recorded x db).2) by (cbn; apply in_remember; by left).
    by destruct R as [->|(_ & w & _ & ->)].
  - intros r t Hp Hg. rewrite G in Hg. eapply untouched_elsewhere; [done|exact E|by eapply S|by apply A3].
  - intros h Hh Hc. rewrite G. by apply A4; [apply Hold|].
  - intros h h' Hh Hh' Hc Hc'. apply A5; try done; by apply Hold.
  - intros h Hh. cbn. apply in_remember. by right.
Qed.
(** A post of the client's is granted only when it is the proposal whose outcome it awaits. *)
Lemma minted_pending cid g prop sent x e r t b db row :
  agreed cid g prop sent x -> 0 <= e -> e < g \/ 2147483647 <= e \/ (e = g /\ prop = Some (r, t)) ->
  minted tokenHash cid b e x.1 db row -> e = g /\ prop = Some (r, t) /\ generation_of x.1 cid = g.
Proof.
  intros [A1 A2 _ _ _ _ _] He C M. pose proof (mi_limit _ _ _ _ _ _ _ M He). pose proof (mi_before _ _ _ _ _ _ _ M) as B. unfold generation_of.
  destruct (readConnection x.1 cid) as [c|].
  - destruct B as (-> & _ & _), A2 as [(_ & _ & A2) _]. destruct C as [?|[?|[-> ?]]]; [destruct A2 as [?|[? _]]; lia|lia|done].
  - destruct C as [?|[?|[-> ?]]]; [lia|lia|done].
Qed.
Lemma agreed_minted cid g r t sent x b db row :
  agreed cid g (Some (r, t)) sent x -> rq_request b = r -> rq_token b = t -> generation_of x.1 cid = g -> minted tokenHash cid b g x.1 db row ->
  agreed cid g (Some (r, t)) sent (recorded x db).
Proof.
  intros [A1 A2 A3 A4 A5 A6 A7] Hr Ht Hg [M1 M2 M3 M4 M5 M6 M7 (R1 & R2 & R3 & R4 & R5) M9 M10 M11 M12].
  assert (forall h, h ∈ (recorded x db).2 -> h ∈ x.2 \/ h = current cid row) as Hnew.
  { intros h. cbn. rewrite in_remember. intros [?|Hh]; [by left|]. apply M10 in Hh as [?| ->]; [left; by apply A6|right].
    unfold current. by rewrite R1, R2, R3, R4. }
  assert (generation_of db cid = g + 1) as G by (unfold generation_of; rewrite M7; lia).
  constructor; cbn [recorded fst]; try done.
  - rewrite M7. split; [split; [specialize (M2 A1); lia|split; [lia|right; split; [lia|]; exists r, t; by rewrite R3, R4, Hr, Ht]]|].
    cbn. apply in_remember. right. unfold current. by rewrite R1, R2, R3, R4.
  - intros ? ? _ X. lia.
  - intros h Hh Hc. rewrite G. apply Hnew in Hh as [Hh| ->]; [specialize (A4 h Hh Hc); lia|cbn; lia].
  - intros h h' Hh Hh' Hc Hc' E. apply Hnew in Hh as [Hh| ->], Hh' as [Hh'| ->]; [by apply A5| | |done]; cbn in E.
    + specialize (A4 h Hh Hc). lia.
    + specialize (A4 h' Hh' Hc'). lia.
  - intros h Hh. cbn. apply in_remember. by right.
Qed.
Lemma agreed_recorded cid g prop sent x : agreed cid g prop sent x -> agreed cid g prop sent (recorded x x.1).
Proof. intros A. destruct prop as [[r t]|]; [eapply (agreed_elsewhere _ (tokenHash t))|eapply (agreed_elsewhere _ [])]; try done. by intros ? ? [= -> ->]. Qed.
(** Serving any post of the client's, at any time, keeps the agreement. *)
Lemma agreed_serve cid g prop sent x q e r t v bearer earlier :
  agreed cid g prop sent x -> asks q cid e r t -> e < g \/ 2147483647 <= e \/ (e = g /\ prop = Some (r, t)) ->
  agreed cid g prop sent (recorded x (serve v bearer earlier q x.1).2).
Proof.
  intros A Q C. unfold serve. destruct (routed q.1) as [id|] eqn:R; [|by apply agreed_recorded].
  unfold endpoint. destruct (ce_stopped v); [by apply agreed_recorded|].
  destruct (connectionSession _ _ _ _ _ _ _ _) as [[a|a c|]|[db r']] eqn:E; cbn [snd]; try by apply agreed_recorded.
  - destruct (ce_persist v); [by apply agreed_recorded|]. destruct prop as [[r0 t0]|].
    + apply (agreed_elsewhere _ (tokenHash t0)); [done|apply (observed_elsewhere _ _ (Observed a c))|by intros ? ? [= -> ->]].
    + apply (agreed_elsewhere _ []); [done|apply (observed_elsewhere _ _ (Observed a c))|done].
  - apply connectionSession_ok in E as (b & e' & D & He' & _ & S). destruct (Q id b R D) as (-> & He & Hb & Hr & Ht).
    rewrite Hb in He'. injection He' as <-. destruct S as [(c & s & _ & _ & -> & _)|(row & y & M & _)]; [by apply agreed_recorded|].
    destruct (minted_pending _ _ _ _ _ _ r t _ _ _ A He C M) as (-> & -> & G). by eapply agreed_minted.
Qed.
Lemma agreed_bystander cid g prop sent x y secret : agreed cid g prop sent x -> (forall r t, prop = Some (r, t) -> secret = tokenHash t) ->
  bystander cid secret sent x y -> agreed cid g prop sent y.
Proof.
  intros A S B. revert A. destruct B as [q v bearer earlier z Hq|v bearer id body earlier z N B|v bearer id earlier z|v bearer sid earlier z|now id sid gg z|now id sid who z|n1 n2 z|now sql z L|v bearer b earlier z L|z db E]; intros A.
  - destruct (ag_sent _ _ _ _ _ A q Hq) as (e & r & t & Q & C). exact (agreed_serve _ _ _ _ _ _ _ _ _ _ _ _ A Q C).
  - eapply agreed_elsewhere; [done| |exact S]. by apply session_elsewhere.
  - eapply agreed_elsewhere; [done| |exact S]. apply delete_elsewhere.
  - eapply agreed_elsewhere; [done| |exact S]. apply delete_session_elsewhere.
  - eapply agreed_elsewhere; [done| |exact S]. apply managed_elsewhere.
  - eapply agreed_elsewhere; [done| |exact S]. apply state_elsewhere.
  - eapply agreed_elsewhere; [done| |exact S]. apply expire_elsewhere.
  - eapply agreed_elsewhere; [done| |exact S]. by apply prune_elsewhere.
  - eapply agreed_elsewhere; [done| |exact S]. by apply delete_broker_elsewhere.
  - by eapply agreed_elsewhere.
Qed.
Lemma agreed_bystanders cid g prop sent x y secret : (forall r t, prop = Some (r, t) -> secret = tokenHash t) ->
  rtc (bystander cid secret sent) x y -> agreed cid g prop sent x -> agreed cid g prop sent y.
Proof. intros S. induction 1 as [x|x y z B _ IH]; [done|]. intros A. apply IH. by eapply agreed_bystander. Qed.

(** ** What an answer tells the client *)

Lemma body_code a : Coordinator.text (Some (apiErrorBody a)) (lit "error_code") = if list_eqb (reason a) [] then None else Some (reason a).
Proof. unfold Coordinator.text, apiErrorBody. by destruct (list_eqb (reason a) []), (Connections.generation a =? 0). Qed.
Lemma integer_inject j key n : item j key = Some (Jnumber (inject_Z n)) -> 0 <= n <= MAX_SAFE -> integer (Some j) key = Some n.
Proof.
  intros E H. unfold integer. cbn [mbind option_bind]. rewrite E. change 0%Q with (inject_Z 0). rewrite !(proj2 (Qle_bool_iff _ _)) by (rewrite <- Zle_Qle; lia).
  cbn [negb orb]. rewrite Qfloor_Z. by rewrite (proj2 (Qeq_bool_iff _ _)).
Qed.
Lemma body_generation a : 0 <= Connections.generation a <= MAX_SAFE ->
  integer (Some (apiErrorBody a)) (lit "generation") = if Connections.generation a =? 0 then None else Some (Connections.generation a).
Proof.
  intros H. destruct (Connections.generation a =? 0) eqn:E; unfold apiErrorBody; rewrite E.
  - by destruct (list_eqb (reason a) []).
  - apply integer_inject; [by destruct (list_eqb (reason a) [])|done].
Qed.
(** The refusals that end a proposal, as the client reads them. *)
Definition ends (j : option Coordinator.reply) : bool :=
  existsb (fun r => bool_decide (Coordinator.text j (lit "error_code") = Some r)) [lit "session_expired"; lit "connection_conflict"].
Lemma ends_contested a : ends (Some (apiErrorBody a)) = contested a.
Proof.
  unfold ends, contested. rewrite body_code. cbn [existsb]. destruct (list_eqb (reason a) []) eqn:E.
  - apply list_eqb_eq in E. by rewrite E.
  - f_equal; [|f_equal]; (case_bool_decide as B; symmetry; [injection B as ->; apply list_eqb_refl|apply list_eqb_neq; congruence]).
Qed.
Lemma ends_quiet j : Coordinator.text j (lit "error_code") = None -> ends j = false.
Proof. intros E. unfold ends. cbn [existsb]. rewrite E. done. Qed.
(** A proposal that ended was granted, unless no generation is left. *)
Lemma conflict_cause cid g r t sent x b : agreed cid g (Some (r, t)) sent x -> rq_request b = r -> rq_token b = t -> conflict tokenHash cid b g x.1 ->
  generation_of x.1 cid = g + 1 \/ (generation_of x.1 cid = g /\ 2147483647 <= g).
Proof.
  intros [A1 A2 A3 _ _ A6 _] Hr Ht C. unfold generation_of in *. destruct (readConnection x.1 cid) as [c|] eqn:R.
  - destruct A2 as [(A2 & A2' & [E|[E _]]) Hc]; [|by left]. destruct (A3 r t eq_refl E) as [U1 U2 U3].
    destruct C as [c' M|c' R' Q D|c' R' Q|c' R' Q D|h Hh Q|h Hh Q Q'|k Hk Q].
    + destruct M as [R' _ _ Q _]. rewrite R in R'. injection R' as <-. lia.
    + rewrite R in R'. injection R' as <-. exfalso. apply (U2 _ Hc); [done|]. cbn. congruence.
    + rewrite R in R'. by injection R' as <-.
    + rewrite R in R'. injection R' as <-. right. lia.
    + exfalso. apply (U1 h); [by apply A6|congruence].
    + exfalso. apply (U2 h); [by apply A6|done|congruence].
    + exfalso. apply (U3 k); [done|congruence].
  - destruct (A3 r t eq_refl (eq_sym A2)) as [U1 U2 U3].
    destruct C as [c' M|c' R' Q D|c' R' Q|c' R' Q D|h Hh Q|h Hh Q Q'|k Hk Q]; exfalso; try congruence.
    + destruct M as [R' _ _ _ _]. congruence.
    + apply (U1 h); [by apply A6|congruence].
    + apply (U2 h); [by apply A6|done|congruence].
    + apply (U3 k); [done|congruence].
Qed.
(** The service's answer to the proposal the client awaits: its session, or that it ended, or
    nothing the client acts on. *)
Record grants (cid : list Z) (g : Z) (t : list Z) (s : Z) (j : Coordinator.reply) (db : store) : Prop := {
  gr_row : exists c expiry, readConnection db cid = Some c /\ Generation c = g + 1 /\ g + 1 <= 2147483647 /\ TokenHash c = tokenHash t /\
             j = grant_body (Session c) cid (g + 1) expiry;
  gr_status : s = 200 \/ s = 201 }.
Lemma serve_answer cid g r t sent x q v bearer earlier :
  agreed cid g (Some (r, t)) sent x -> asks q cid g r t ->
  let out := serve v bearer earlier q x.1 in
  grants cid g t out.1.1 out.1.2 out.2 \/
  (item out.1.2 (lit "session_id") = None /\
   (ends (Some out.1.2) = true ->
    (out.1.1 = 409 \/ out.1.1 = 410) /\ integer (Some out.1.2) (lit "generation") = Some (generation_of out.2 cid) /\
    (generation_of out.2 cid = g + 1 \/ (generation_of out.2 cid = g /\ 2147483647 <= g)))).
Proof.
  intros A Q. cbv zeta. unfold serve. destruct (routed q.1) as [id|] eqn:R; [|by right].
  unfold endpoint. destruct (ce_stopped v); [by right|].
  destruct (connectionSession _ _ _ _ _ _ _ _) as [[a|a c|]|[db r']] eqn:E; cbn [fst snd]; [right|right|by right|].
  - split; [apply body_no_session|]. rewrite ends_contested. intros C. apply connectionSession_contested in E as (b & e & D & He & _ & W & S & G); [|done].
    destruct (Q id b R D) as (-> & _ & Hb & Hr & Ht). rewrite Hb in He. injection He as <-.
    assert (Connections.generation a = generation_of x.1 cid) as Ga by (rewrite G; unfold generation_of; by destruct (readConnection x.1 cid)).
    pose proof (conflict_cause _ _ _ _ _ _ _ A Hr Ht W) as K. split; [done|]. split; [|done]. pose proof (ag_generation _ _ _ _ _ A).
    assert (0 < generation_of x.1 cid <= 2147483647).
    { pose proof (ag_row _ _ _ _ _ A) as Y. unfold generation_of in *. destruct (readConnection x.1 cid) as [c|]; [destruct Y as [[Y _] _]|]; lia. }
    rewrite body_generation by (unfold MAX_SAFE; lia). rewrite Ga. rewrite (proj2 (Z.eqb_neq _ _)) by lia. done.
  - destruct (ce_persist v); [done|]. cbn [fst snd]. split; [apply body_no_session|]. rewrite ends_contested. intros C.
    apply connectionSession_observed in E. congruence.
  - left. apply connectionSession_ok in E as (b & e & D & He & _ & S). destruct (Q id b R D) as (-> & Hg & Hb & Hr & Ht).
    rewrite Hb in He. injection He as <-. destruct S as [(c & s & M & _ & -> & ->)|(row & y & M & _ & ->)].
    + destruct M as [M1 M2 M3 M4 M5]. pose proof (ag_row _ _ _ _ _ A) as Y. rewrite M1 in Y. destruct Y as [(Y1 & Y2 & _) _].
      constructor; [|by left]. exists c, (ss_expires s). split_and!; try done; try lia; [congruence|]. cbn. by replace (Generation c) with (g + 1) by lia.
    + destruct M as [M1 M2 _ _ _ _ M7 (R1 & R2 & R3 & R4 & R5) _ _ _ _]. constructor; [|by right].
      exists row, y. specialize (M2 Hg). split_and!; try done; congruence.
Qed.

(** ** The client's attempt *)

(** What an answer lets the client conclude about the store it was made in. *)
Record heard (cid : list Z) (g : Z) (t : list Z) (a : answer) (db : store) : Prop := {
  he_grant : a.1 = None -> Coordinator.text a.2 (lit "session_id") = None \/ exists s j, a.2 = Some j /\ grants cid g t s j db;
  he_ended : ends a.2 = true -> a.1 <> None -> integer a.2 (lit "generation") = Some (generation_of db cid) /\
    (generation_of db cid = g + 1 \/ (generation_of db cid = g /\ 2147483647 <= g)) }.
Lemma noise_heard cid g t a db : noise a -> heard cid g t a db.
Proof. intros [[e E] N]. constructor; [congruence|]. by rewrite ends_quiet. Qed.
Lemma exchange_heard cid g r t sent x q f : agreed cid g (Some (r, t)) sent x -> asks q cid g r t -> fair f ->
  heard cid g t (exchange f q x.1).1 (exchange f q x.1).2.
Proof.
  intros A Q F. destruct f as [a|v bearer earlier [a|]]; cbn [exchange fst snd default]; [by apply noise_heard..|].
  pose proof (serve_answer _ _ _ _ _ _ _ v bearer earlier A Q) as S. cbv zeta in S. destruct (serve v bearer earlier q x.1) as [[s j] db]. cbn [fst snd] in *.
  unfold answer_of. cbn [fst snd]. destruct S as [G|[N E]].
  - replace ((200 <=? s) && (s <? 300)) with true by (destruct (gr_status _ _ _ _ _ _ G) as [-> | ->]; done). constructor; cbn [fst snd]; [|done].
    intros _. right. by exists s, j.
  - destruct ((200 <=? s) && (s <? 300)); (constructor; cbn [fst snd]; [intros _; left; unfold Coordinator.text; cbn [mbind option_bind]; by rewrite N|]).
    + done.
    + intros X _. destruct (E X) as (_ & ? & ?). done.
Qed.
Lemma agreed_exchange cid g prop sent x q f e r t : agreed cid g prop sent x -> asks q cid e r t -> e < g \/ 2147483647 <= e \/ (e = g /\ prop = Some (r, t)) ->
  agreed cid g prop sent (recorded x (exchange f q x.1).2).
Proof.
  intros A Q C. destruct f as [a|v bearer earlier i]; cbn [exchange fst snd]; [by apply agreed_recorded|by eapply agreed_serve].
Qed.
Lemma agreed_send cid g r t sent x q : agreed cid g (Some (r, t)) sent x -> asks q cid g r t -> agreed cid g (Some (r, t)) (q :: sent) x.
Proof. intros [] Q. constructor; try done. intros q' [->|?]%elem_of_cons; [|by eauto]. exists g, r, t. split; [done|]. right. by right. Qed.
(** The exchanges of one attempt keep the agreement; the last answer is the one acted on. *)
Lemma carried_agreed env sent q log x y cid g r t a :
  agreed cid g (Some (r, t)) sent x -> asks q cid g r t -> carried env cid t sent log x y ->
  (log = [q] /\ a = Coordinator.send env 0%nat q) \/ (log = [q; q] /\ a = Coordinator.send env 1%nat q) ->
  agreed cid g (Some (r, t)) (log ++ sent) y /\ heard cid g t a y.1.
Proof.
  intros A Q C L. pose proof (agreed_send _ _ _ _ _ _ _ A Q) as A1. revert A Q L A1.
  destruct C as [x|q0 f x F E|q0 f f' x y F F' E B E']; intros A Q L A1; [by destruct L as [[? _]|[? _]]|..];
    destruct L as [[L ->]|[L ->]]; try done.
  - injection L as ->. split; [|rewrite E; exact (exchange_heard _ _ _ _ _ _ _ _ A Q F)].
    apply (agreed_exchange _ _ _ _ _ _ _ g r t A1 Q). right. by right.
  - injection L as ->. pose proof (agreed_exchange _ _ _ _ x q f g r t A1 Q (or_intror (or_intror (conj eq_refl eq_refl)))) as A2.
    assert (agreed cid g (Some (r, t)) (q :: sent) y) as A3.
    { eapply agreed_bystanders; [|exact B|exact A2]. by intros ? ? [= <- <-]. }
    split; [|rewrite E'; exact (exchange_heard _ _ _ _ _ _ _ _ A3 Q F')].
    apply (agreed_exchange _ _ _ _ _ _ _ g r t); [by apply agreed_send|done|right; by right].
Qed.

(** *** Proposing *)

(** The identifiers and the token a client draws were never used, and the service at hand is
    the one this client was built for. *)
Record fresh (env : session_env) (p : ob_remote_peer) (x : records) : Prop := {
  fr_service : (status_answer env).1 = None -> integer (status_answer env).2 (lit "connection_recovery_version") = Some 1;
  fr_found : forall e, (status_answer env).1 = Some e -> http_status e <> 404;
  fr_connection : connection_id p = [] -> forall cid, Coordinator.uuid (random1 env) = Some cid ->
    readConnection x.1 cid = None /\ forall h, h ∈ x.2 -> h_connection h <> cid;
  fr_proposal : request_pending p = false -> forall cid r b, Coordinator.uuid (random2 env) = Some r -> random_token env = Some b ->
    untouched cid r (ob_hex b) x }.
(** The service announces exactly what [fr_service] asks for. *)
Lemma discovery_managed : integer (answer_of connectionDiscovery).2 (lit "connection_recovery_version") = Some 1 /\ (answer_of connectionDiscovery).1 = None.
Proof. done. Qed.
(** The client and the service: no connection yet, or agreement on it. *)
Record client_agreed (p : ob_remote_peer) (sent : list post) (x : records) : Prop := {
  ca_managed : control_discovered p = true -> control_managed p = true;
  ca_pending : pend_ok p;
  ca_history : forall h, h ∈ connection_sessions x.1 -> h ∈ x.2;
  ca_agreed : (connection_id p = [] /\ control_generation p = 0 /\ request_pending p = false /\ sent = []) \/
    (connection_id p <> [] /\ agreed (connection_id p) (control_generation p) (pending_of p) sent x) }.

(** A connection nobody knows yet. *)
Lemma agreed_fresh cid x : (forall h, h ∈ connection_sessions x.1 -> h ∈ x.2) -> readConnection x.1 cid = None -> (forall h, h ∈ x.2 -> h_connection h <> cid) ->
  agreed cid 0 None [] x.
Proof.
  intros S R N. constructor; try done.
  - by rewrite R.
  - intros h Hh Hc. by destruct (N h Hh).
  - intros h h' Hh _ Hc. by destruct (N h Hh).
  - by intros q ?%elem_of_nil.
Qed.
Lemma agreed_propose cid g r t sent x : agreed cid g None sent x -> untouched cid r t x -> agreed cid g (Some (r, t)) sent x.
Proof.
  intros [A1 A2 A3 A4 A5 A6 A7] U. constructor; try done.
  - destruct (readConnection x.1 cid) as [c|]; [|done]. destruct A2 as [(? & ? & [?|(_ & ? & ? & ? & _)]) ?]; [|done].
    split; [split; [done|split; [done|by left]]|done].
  - by intros ? ? [= <- <-].
  - intros q Hq. destruct (A7 q Hq) as (e & r' & t' & Q & [?|[?|[_ ?]]]); [..|done]; exists e, r', t'; (split; [done|]); [by left|right; by left].
Qed.
Lemma propose_agreed env p sent x e q : client_agreed p sent x -> fresh env p x -> control_discovered p = true -> propose env p = (e, q) ->
  client_agreed q sent x /\ control_generation q = control_generation p /\
  (e = None -> control_managed q = true /\ request_pending q = true /\ connection_id q <> []).
Proof.
  intros [C1 C2 C3 C4] [_ _ F1 F2] D P. pose proof (C1 D) as M. destruct (propose_spec env p e q D C2 P) as (P1 & P2 & P3 & _ & _ & _ & P4 & P5 & P6).
  split; [|split; [done|intros E; specialize (P5 E); rewrite P2, M in P5; split; [congruence|]; split; [done|]; by apply P1]].
  constructor; [by rewrite P2|done|done|]. destruct (request_pending p) eqn:Rp.
  { specialize (P4 eq_refl) as ->. destruct C4 as [(_ & _ & ? & _)|?]; [congruence|by right]. }
  clear P4. specialize (F2 eq_refl). unfold propose in P. rewrite M in P. cbn [negb] in P.
  destruct (if zlen (connection_id p) =? 0 then _ else _) as [cid|] eqn:Ec.
  2:{ injection P as <- <-. destruct C4 as [(? & ? & _ & ?)|?]; [left; by split_and!|by right]. }
  assert (cid <> []) as Nc.
  { destruct (Z.eqb_spec (zlen (connection_id p)) 0) as [Hz|Hz]; [by apply uuid_nonempty in Ec|]. injection Ec as <-. intros H. by rewrite H in Hz. }
  assert (agreed cid (control_generation p) None sent x) as A.
  { destruct C4 as [(E & -> & _ & ->)|[N A]].
    - rewrite E in Ec. cbn in Ec. destruct (F1 E cid Ec). by apply agreed_fresh.
    - destruct (Z.eqb_spec (zlen (connection_id p)) 0) as [Hz|Hz]; [by apply zlen_0 in Hz|]. injection Ec as <-. unfold pending_of in A. by rewrite Rp in A. }
  cbv zeta in P. change (request_pending (p <| connection_id := cid |>)) with (request_pending p) in P. rewrite Rp in P.
  right. destruct (Coordinator.uuid (random2 env)) as [rid|]; [destruct (random_token env) as [b|]|]; injection P as <- <-; (split; [exact Nc|]).
  - unfold pending_of. cbn. apply agreed_propose; [exact A|]. by apply F2.
  - unfold pending_of. cbn. by rewrite Rp.
  - unfold pending_of. cbn. by rewrite Rp.
Qed.

(** *** Acting on the answer *)

(** A proposal is over: the client takes the service's generation. *)
Lemma agreed_adopt cid g r t sent x : agreed cid g (Some (r, t)) sent x ->
  generation_of x.1 cid = g + 1 \/ (generation_of x.1 cid = g /\ 2147483647 <= g) -> agreed cid (generation_of x.1 cid) None sent x.
Proof.
  intros [A1 A2 A3 A4 A5 A6 A7] G. unfold generation_of in *. constructor; try done.
  - destruct (readConnection x.1 cid); lia.
  - destruct (readConnection x.1 cid) as [c|]; [|done]. destruct A2 as [(? & ? & _) ?]. split; [split; [done|split; [done|by left]]|done].
  - intros q Hq. destruct (A7 q Hq) as (e & r' & t' & Q & C). exists e, r', t'. split; [done|]. lia.
Qed.
Lemma rejected_agreed e a p sent x : client_agreed p sent x -> control_managed p = true -> request_pending p = true -> a.1 = Some e ->
  heard (connection_id p) (control_generation p) (requested_session_token p) a x.1 ->
  client_agreed (rejected e a.2 p) sent x /\ control_generation p <= control_generation (rejected e a.2 p).
Proof.
  intros C M Rp Ea H. destruct (rejected_spec e a.2 p) as (_ & Le & _). split; [|done]. clear Le. unfold rejected. rewrite M. cbn [andb].
  destruct ((_ || _) && _) eqn:B; [|done]. apply andb_true_iff in B as [_ B].
  destruct (he_ended _ _ _ _ _ H) as [I G]; [exact B|congruence|]. rewrite I. destruct (_ <=? _); [|done].
  destruct C as [C1 C2 C3 [(_ & _ & ? & _)|[N A]]]; [congruence|]. constructor; [done|done|done|]. right. split; [done|]. cbn.
  unfold pending_of in *. cbn. rewrite Rp in A. by eapply agreed_adopt.
Qed.
Lemma grant_fields s c g expiry : Coordinator.text (Some (grant_body s c g expiry)) (lit "session_id") = Some s /\
  Coordinator.text (Some (grant_body s c g expiry)) (lit "connection_id") = Some c /\
  (0 <= g <= MAX_SAFE -> integer (Some (grant_body s c g expiry)) (lit "generation") = Some g).
Proof. split; [done|]. split; [done|]. by apply integer_inject. Qed.
(** A session is entered exactly as the service granted it. *)
Definition entered (p : ob_remote_peer) (db : store) : Prop :=
  exists c t, readConnection db (connection_id p) = Some c /\ session_id p = Some (Session c) /\ control_generation p = Generation c /\
    bearer p = Some t /\ TokenHash c = tokenHash t.
(** The fields of a handle that was granted its proposal. *)
Lemma granted_fields ok r p q : control_managed p = true -> granted ok r p = (None, q) ->
  (connection_id q = connection_id p /\ requested_session_token q = requested_session_token p /\ control_discovered q = control_discovered p /\
   control_managed q = true /\ request_pending q = false) /\
  session_id q = Coordinator.text r (lit "session_id") /\ bearer q = Some (requested_session_token p) /\
  control_generation q = default 0 (integer r (lit "generation")) /\ Coordinator.text r (lit "session_id") <> None.
Proof.
  intros M. unfold granted. cbv zeta. rewrite M. destruct (Coordinator.text r (lit "session_id")) as [sid|]; [|done].
  destruct (_ || _); [done|]. destruct (negb ok); [done|]. intros [_ <-]%pair_inj.
  match goal with |- context [if control_managed ?z then _ else _] => change (control_managed z) with (control_managed p) end. rewrite M. by split_and!.
Qed.
Lemma granted_agreed ok a p sent x e q : client_agreed p sent x -> control_managed p = true -> request_pending p = true -> a.1 = None ->
  heard (connection_id p) (control_generation p) (requested_session_token p) a x.1 -> granted ok a.2 p = (e, q) ->
  client_agreed q sent x /\ (e <> None -> q = p) /\
  (e = None -> entered q x.1 /\ connection_id q = connection_id p /\ requested_session_token q = requested_session_token p /\
    control_generation q = control_generation p + 1).
Proof.
  intros C M Rp Ea H Gr. pose proof (granted_spec _ _ _ _ _ Gr) as S. destruct e as [e|]; [subst q; by split_and!|].
  destruct (granted_fields _ _ _ _ M Gr) as ((Q1 & Q2 & Q3 & Q4 & Q5) & Q6 & Q7 & Q8 & Q9). clear S Gr.
  destruct (he_grant _ _ _ _ _ H Ea) as [N|(s & j & Ej & [(c & expiry & R & Gc & L & T & ->) _])]; [done|].
  rewrite Ej in Q6, Q8. destruct C as [C1 C2 C3 [(_ & _ & ? & _)|[Ne A]]]; [congruence|].
  destruct (grant_fields (Session c) (connection_id p) (control_generation p + 1) expiry) as (T1 & T2 & T3). pose proof (ag_generation _ _ _ _ _ A) as G0.
  rewrite T1 in Q6. rewrite T3 in Q8 by (unfold MAX_SAFE; lia). cbn [default from_option Datatypes.id] in Q8.
  unfold pending_of in A. rewrite Rp in A. assert (generation_of x.1 (connection_id p) = control_generation p + 1) as Gn by (unfold generation_of; by rewrite R).
  split; [|split; [done|intros _]].
  - constructor; [done|unfold pend_ok; congruence|done|]. right. rewrite Q1, Q8. split; [done|]. unfold pending_of. rewrite Q5, <- Gn. eapply agreed_adopt; [exact A|]. by left.
  - split; [|by split_and!]. exists c, (requested_session_token p). rewrite Q1, Q6, Q7, Q8, Gc. by split_and!.
Qed.

(** *** The whole attempt *)

(** The fields the agreement is about. *)
Definition lineage_view (p : ob_remote_peer) :=
  (connection_id p, control_generation p, (request_pending p, request_id p, requested_session_token p), (control_managed p, control_discovered p)).
Lemma view_agreed p q sent x : lineage_view p = lineage_view q -> client_agreed p sent x -> client_agreed q sent x.
Proof.
  intros E [C1 C2 C3 C4]. unfold lineage_view in E. apply pair_inj in E as [E E5]. apply pair_inj in E as [E E4]. apply pair_inj in E as [E1 E2].
  apply pair_inj in E5 as [E5 E6]. apply pair_inj in E4 as [E4 E7]. apply pair_inj in E4 as [E4 E8].
  constructor; [by rewrite <- E5, <- E6|unfold pend_ok in *; by rewrite <- E1, <- E4, <- E5, <- E6|done|].
  unfold pending_of in *. by rewrite <- E1, <- E2, <- E4, <- E7, <- E8.
Qed.
Lemma identity_view p q : identity p = identity q -> lineage_view p = lineage_view q.
Proof. unfold identity, lineage_view. by intros [= _ _ _ -> -> -> -> -> -> ->]. Qed.
Lemma discover_agreed env p sent x : client_agreed p sent x -> fresh env p x ->
  match discover env p with
  | inl _ => True
  | inr q => client_agreed q sent x /\ fresh env q x /\ control_discovered q = true /\ control_generation q = control_generation p
  end.
Proof.
  intros C F. pose proof C as [C1 C2 C3 C4]. pose proof F as [F1 F2 F3 F4]. unfold discover. destruct (control_discovered p) eqn:D; [by split_and!|].
  destruct (status_answer env).1 as [e|] eqn:E.
  { destruct (Z.eqb_spec (http_status e) 404); [|done]. by destruct (F2 e). }
  rewrite bool_decide_true by (by apply F1). split; [|split; [by destruct F|done]].
  constructor; [done| |done|]; cbn; [|by destruct C4; [left|right]]. intros R. destruct (C2 R) as (_ & ? & _). congruence.
Qed.
Lemma transact_log env p a log : transact env p = (a, log) ->
  (log = [session_post p] /\ a = Coordinator.send env 0%nat (session_post p)) \/
  (log = [session_post p; session_post p] /\ a = Coordinator.send env 1%nat (session_post p)).
Proof. unfold transact. cbv zeta. repeat case_match; intros [= <- <-]; first [by left|by right]. Qed.
Lemma rejected_frame e r p : connection_id (rejected e r p) = connection_id p /\ requested_session_token (rejected e r p) = requested_session_token p.
Proof. unfold rejected. by repeat case_match. Qed.
Lemma sent_nothing env cid t sent x y : carried env cid t sent [] x y -> y = x.
Proof. by inversion 1. Qed.

(** An attempt to open a session keeps the agreement, whatever becomes of its requests. *)
Lemma open_agreed env p sent x e q log y :
  client_agreed p sent x -> fresh env p x -> open_session env p = (e, q, log) ->
  carried env (connection_id q) (requested_session_token q) sent log x y ->
  client_agreed q (log ++ sent) y /\ control_generation p <= control_generation q /\
  (e = None -> entered q y.1 /\ control_generation q = control_generation p + 1).
Proof.
  intros C F O K. unfold open_session in O. set (p0 := p <| control_retryable := false |>) in *.
  assert (client_agreed p0 sent x) as C0 by (by apply (view_agreed p)). assert (fresh env p0 x) as F0 by (by destruct F).
  change (control_generation p) with (control_generation p0). clearbody p0. clear C F p. pose proof (discover_agreed env p0 sent x C0 F0) as D.
  destruct (discover env p0) as [e0|p1].
  { injection O as <- <- <-. apply sent_nothing in K as ->. split_and!; [exact C0|lia|done]. }
  destruct D as (C1 & F1 & D1 & G1). rewrite <- G1. destruct (propose env p1) as [e1 p2] eqn:P.
  destruct (propose_agreed _ _ _ _ _ _ C1 F1 D1 P) as (C2 & G2 & N2). rewrite <- G2. destruct e1 as [e1|].
  { injection O as <- <- <-. apply sent_nothing in K as ->. split_and!; [exact C2|lia|done]. }
  destruct (N2 eq_refl) as (M & Rp & Ne). destruct (negb _).
  { injection O as <- <- <-. apply sent_nothing in K as ->. split_and!; [exact C2|lia|done]. }
  destruct (transact env p2) as [a lg] eqn:T. apply transact_log in T. pose proof (session_post_asks p2 M) as Q.
  pose proof C2 as [_ P2 _ [(_ & _ & ? & _)|[_ A2]]]; [congruence|]. unfold pending_of in A2. rewrite Rp in A2.
  assert (forall y, carried env (connection_id p2) (requested_session_token p2) sent lg x y ->
    client_agreed p2 (lg ++ sent) y /\ heard (connection_id p2) (control_generation p2) (requested_session_token p2) a y.1) as X.
  { intros y' K'. destruct (carried_agreed env sent (session_post p2) lg x y' _ _ _ _ a A2 Q K' T) as [A3 H3]. split; [|done].
    constructor; [by destruct C2|done|apply A3|]. right. split; [done|]. unfold pending_of. by rewrite Rp. }
  destruct a.1 as [e2|] eqn:Ea.
  - injection O as <- <- <-. destruct (rejected_frame e2 a.2 p2) as [E1 E2]. rewrite E1, E2 in K. destruct (X y K) as [C3 H3].
    destruct (rejected_agreed _ _ _ _ _ C3 M Rp Ea H3). by split_and!.
  - destruct (granted (copy_ok env) a.2 p2) as [e3 p3] eqn:Gr. injection O as <- <- <-.
    assert (connection_id p3 = connection_id p2 /\ requested_session_token p3 = requested_session_token p2) as [E1 E2].
    { unfold granted in Gr. cbv zeta in Gr. destruct (_ || _); [by injection Gr as <- <-|]. destruct (negb _); [by injection Gr as <- <-|].
      injection Gr as <- <-. by destruct (control_managed _). }
    rewrite E1, E2 in K. destruct (X y K) as [C3 H3]. destruct (granted_agreed _ _ _ _ _ _ _ C3 M Rp Ea H3 Gr) as (C4 & S1 & S2).
    split; [done|]. destruct e3 as [e3|]; [rewrite S1 by done; split; [lia|done]|]. destruct (S2 eq_refl) as (? & _ & _ & ->). split; [lia|done].
Qed.
Lemma open_connection env p : connection_id p <> [] -> connection_id (open_session env p).1.2 = connection_id p.
Proof.
  intros N. unfold open_session. set (p0 := p <| control_retryable := false |>). change (connection_id p) with (connection_id p0) in *. clearbody p0. clear p.
  pose proof (discover_spec env p0) as D. destruct (discover env p0) as [e0|p1]; [done|]. destruct D as (_ & D & _). rewrite <- D in *. clear D.
  assert (connection_id (propose env p1).2 = connection_id p1) as P.
  { unfold propose. destruct (negb _); [done|]. destruct (Z.eqb_spec (zlen (connection_id p1)) 0) as [Hz|_]; [by apply zlen_0 in Hz|].
    cbv zeta. destruct (request_pending _); [done|]. destruct (Coordinator.uuid _); [|done]. by destruct (random_token env). }
  destruct (propose env p1) as [e1 p2]. cbn [snd] in P. rewrite <- P. destruct e1; [done|]. destruct (negb _); [done|].
  destruct (transact env p2) as [a lg]. destruct a.1; cbn [fst snd]; [apply rejected_frame|].
  unfold granted. cbv zeta. destruct (_ || _); [done|]. destruct (negb _); [done|]. cbn [snd]. by destruct (control_managed _).
Qed.

(** ** The broker's side *)

(** Which session of which connection a broker's handle runs, and which comes next. *)
Definition link (p : ob_remote_peer) :=
  (connection_id p, (session_id p, control_generation p), (pending_session_id p, pending_control_generation p)).
Lemma fail_link code m : frames link (fun p => ob_peer_fail_locked p code m).
Proof. intros p. unfold ob_peer_fail_locked. case_bool_decide; [done|]. destruct (truth (Peer.result p)); [done|]. by destruct (_ || _). Qed.
Lemma transport_fail_link t1 t2 code m : frames link (fun p => ob_peer_transport_fail_locked t1 t2 p code m).
Proof.
  intros p. unfold ob_peer_transport_fail_locked. destruct (stop p); [done|]. destruct (managed p); [|apply fail_link]. cbv zeta. cbn [negb].
  destruct (truth (attempt_result p)); destruct (truth (outage_us _)); destruct (ever_ready _ && _); done.
Qed.
Definition known (log : list history_row) (cid sid : list Z) (g : Z) : Prop :=
  exists h, h ∈ log /\ h_connection h = cid /\ h_session h = sid /\ h_generation h = g.
Definition linked (log : list history_row) (p : ob_remote_peer) : Prop :=
  connection_id p <> [] ->
  (exists sid, session_id p = Some sid /\ known log (connection_id p) sid (control_generation p)) /\
  (forall sid, pending_session_id p = Some sid -> known log (connection_id p) sid (pending_control_generation p)).
Lemma link_linked log p q : link p = link q -> linked log p -> linked log q.
Proof.
  intros E. unfold link in E. apply pair_inj in E as [E E3]. apply pair_inj in E as [E1 E2]. apply pair_inj in E2 as [E2 E4]. apply pair_inj in E3 as [E3 E5].
  unfold linked. by rewrite E1, E2, E3, E4, E5.
Qed.
(** What a pushed session says is in the records. *)
Definition item_known (log : list history_row) (i : cj) : Prop :=
  forall sid cid g, str i (lit "session_id") = Some sid -> str i (lit "connection_id") = Some cid ->
    epoch_valid (get_item i (lit "generation")) = Some g -> known log cid sid g.
Definition snapshot_known (log : list history_row) (j : cj) : Prop :=
  forall items, get_item j (lit "sessions") = Some (CArr items) -> forall i, i ∈ items -> item_known log i.
Lemma session_json_known log db s : (forall h, h ∈ connection_sessions db -> h ∈ log) -> item_known log (session_json db s).
Proof.
  intros H sid cid g. unfold session_json. cbv zeta. destruct (List.find _ _) as [h|] eqn:F; [|done].
  apply find_some in F as [F1 F2]. apply list_elem_of_In in F1. apply list_eqb_eq in F2. intros [= <-].
  destruct (list_eqb (h_connection h) []); [by destruct (h_generation h =? 0)|]. intros [= <-].
  destruct (h_generation h =? 0); [done|]. change (epoch_valid (Some (CNum (inject_Z (h_generation h)))) = Some g -> known log (h_connection h) (ss_id s) g).
  unfold epoch_valid. rewrite Qfloor_Z. destruct (_ && _ && _); [|done]. intros [= <-]. exists h. by split_and!; [apply H|..].
Qed.
Lemma broker_snapshot_known log at_ broker db j : (forall h, h ∈ connection_sessions db -> h ∈ log) -> broker_snapshot at_ broker db = inr j -> snapshot_known log j.
Proof.
  intros H. unfold broker_snapshot. cbv zeta. destruct (_ <? _); [done|]. intros [= <-] items [= <-] i Hi.
  apply list_elem_of_In, in_map_iff in Hi as (s & <- & _). by apply session_json_known.
Qed.
Lemma known_mono log log' cid sid g : (forall h, h ∈ log -> h ∈ log') -> known log cid sid g -> known log' cid sid g.
Proof. intros H (h & Hh & E). exists h. split; [by apply H|done]. Qed.
Lemma linked_mono log log' p : (forall h, h ∈ log -> h ∈ log') -> linked log p -> linked log' p.
Proof.
  intros H L N. destruct (L N) as [(sid & E & K) L2]. split; [exists sid; split; [done|by eapply known_mono]|]. intros s' E'. eapply known_mono; [done|by apply L2].
Qed.
Lemma snapshot_known_mono log log' j : (forall h, h ∈ log -> h ∈ log') -> snapshot_known log j -> snapshot_known log' j.
Proof. intros H K items E i Hi sid cid g E1 E2 E3. eapply known_mono; [done|]. by eapply K. Qed.

Lemma find_logical_some c i l f k : find_logical c i l f = Some k -> f = Some k \/ exists p, l !! (k - i)%nat = Some p /\ connection_id p = c /\ (i <= k)%nat.
Proof.
  revert i f. induction l as [|p l IH]; cbn [find_logical]; intros i f H; [by left|].
  apply IH in H as [H|(q & H & E & L)].
  - destruct (list_eqb (connection_id p) c && _) eqn:B; [|by left]. injection H as <-. right. exists p. rewrite Nat.sub_diag. apply andb_true_iff in B as [B _].
    apply list_eqb_eq in B. by split_and!.
  - right. exists q. split_and!; try done; [|lia]. destruct (k - i)%nat as [|m] eqn:Ek; [lia|]. cbn. by replace m with (k - S i)%nat by lia.
Qed.
Lemma replace_linked log v sid g p : linked log p -> (connection_id p <> [] -> known log (connection_id p) sid g) -> linked log (replace_session v sid g p).
Proof.
  intros L K. unfold replace_session. destruct (_ && _); [|done]. eapply link_linked; [symmetry; apply transport_fail_link|].
  intros N. destruct (L N) as [L1 _]. split; [exact L1|]. cbn. intros ? [= <-]. by apply K.
Qed.
Lemma snapshot_item_linked log v i s : (forall p, p ∈ sv_peers s -> linked log p) -> item_known log i ->
  forall p, p ∈ sv_peers (match snapshot_item v i s with inl s' => s' | inr r => r.1 end) -> linked log p.
Proof.
  intros L K. unfold snapshot_item. cbv zeta.
  assert (forall p, p ∈ sv_peers (server_fail OB_REMOTE_EPROTOCOL None s) -> linked log p) as L1 by (unfold server_fail; cbv zeta; repeat case_match; exact L).
  assert (forall p, p ∈ sv_peers (server_fail OB_REMOTE_ELIMIT None s) -> linked log p) as L2 by (unfold server_fail; cbv zeta; repeat case_match; exact L).
  destruct (_ || _) eqn:V; [exact L1|]. destruct (existsb _ _); [exact L|]. destruct (negb (i_seen v) || (4096 <=? zlen (sv_seen s))); [exact L2|].
  apply orb_false_iff in V as [V1 V2]. apply negb_false_iff in V1. destruct (str i (lit "session_id")) as [sid|] eqn:Es; [|done]. cbn [default from_option Datatypes.id].
  specialize (K sid). destruct (str i (lit "connection_id")) as [cid|] eqn:Ec.
  - rewrite bool_decide_true in V2 by done. cbn [andb] in V2. apply orb_false_iff in V2 as [_ V2]. apply negb_false_iff, bool_decide_eq_true in V2 as [g Eg].
    specialize (K cid g Es eq_refl Eg). rewrite Eg. cbn [mbind option_bind default from_option Datatypes.id].
    destruct (find_logical cid 0 (sv_peers s) None) as [k|] eqn:Fl.
    + apply find_logical_some in Fl as [?|(p0 & P1 & P2 & _)]; [done|]. rewrite Nat.sub_0_r in P1. destruct (negb _); [exact L|]. cbn [fst sv_peers upd].
      intros p Hp. apply list_elem_of_lookup in Hp as [n Hp]. destruct (decide (n = k)) as [->|Nk].
      * rewrite list_lookup_alter_eq, P1 in Hp. injection Hp as <-. apply replace_linked; [apply L; by eapply list_elem_of_lookup_2|]. intros _. by rewrite P2.
      * rewrite list_lookup_alter_ne in Hp by done. apply L. by eapply list_elem_of_lookup_2.
    + destruct (_ <=? _); [exact L|]. destruct (_ || _); [exact L|]. cbn [fst sv_peers upd]. intros p [->|Hp]%elem_of_cons; [|by apply L].
      intros _. cbn. split; [by exists sid|done].
  - clear V2. cbn [mbind option_bind]. destruct (_ <=? _); [exact L|]. destruct (_ || _); [exact L|]. cbn [fst sv_peers upd]. intros p [->|Hp]%elem_of_cons; [|by apply L].
    intros N. by destruct N.
Qed.
Lemma snapshot_items_linked log k env items s : (forall p, p ∈ sv_peers s -> linked log p) -> (forall i, i ∈ items -> item_known log i) ->
  forall p, p ∈ sv_peers (snapshot_items k env items s).1.2 -> linked log p.
Proof.
  revert k s. induction items as [|i items IH]; intros k s L K; [exact L|]. cbn [snapshot_items].
  pose proof (snapshot_item_linked log (env k) i s L (K i ltac:(by left))) as Li. destruct (snapshot_item _ _ _) as [s'|[s' st]]; [exact Li|].
  cbn [fst snd] in *. cbv zeta. cbn [fst]. apply IH; [exact Li|]. intros j Hj. apply K. by right.
Qed.
Lemma server_snapshot_linked log env j s : (forall p, p ∈ sv_peers s -> linked log p) -> snapshot_known log j ->
  forall p, p ∈ sv_peers (server_snapshot env j s).1 -> linked log p.
Proof.
  intros L K. unfold server_snapshot.
  assert (forall p, p ∈ sv_peers (server_fail OB_REMOTE_EPROTOCOL None s) -> linked log p) as L1 by (unfold server_fail; cbv zeta; repeat case_match; exact L).
  destruct (get_item j _) as [[]|] eqn:E; try exact L1. pose proof (snapshot_items_linked log 0 env l s L (K l E)) as Li.
  destruct (snapshot_items 0 env l s) as [[c s'] st]. cbn [fst snd] in *. by destruct c.
Qed.
(** A handle that takes the next session over. *)
Lemma server_session_linked log now p p' q : linked log p -> server_session_round now p = (Some (0, p'), q) -> linked log p'.
Proof.
  intros L. unfold server_session_round. destruct (pending_session_id p) as [sid|] eqn:E.
  - destruct (stop p); [done|]. intros [= <- _] N. destruct (L N) as [_ L2]. split; [|done]. exists sid. split; [done|]. by apply L2.
  - by destruct (stop p).
Qed.

(** ** The system *)

Record system := System {
  y_client : ob_remote_peer; y_records : records; y_sent : list post; y_adopted : list (Z * list Z * list Z); y_pushed : list cj; y_broker : ob_remote_server }.
#[export] Instance system_eta : Eta system := fun s => System (y_client s) (y_records s) (y_sent s) (y_adopted s) (y_pushed s) (y_broker s).
(** The session an attempt ended with: generation, identifier and token. *)
Definition adoption (e : option ob_remote_error) (p : ob_remote_peer) : list (Z * list Z * list Z) :=
  match e with None => [(control_generation p, default [] (session_id p), default [] (bearer p))] | Some _ => [] end.
Inductive system_step : system -> system -> Prop :=
  | sy_open s env e q log y : fresh env (y_client s) (y_records s) -> open_session env (y_client s) = (e, q, log) ->
      carried env (connection_id q) (requested_session_token q) (y_sent s) log (y_records s) y ->
      system_step s (s <| y_client := q |> <| y_records := y |> <| y_sent := log ++ y_sent s |> <| y_adopted := adoption e q ++ y_adopted s |>)
  | sy_client s q : identity q = identity (y_client s) -> system_step s (s <| y_client := q |>)
  | sy_service s y : bystander (connection_id (y_client s)) (tokenHash (requested_session_token (y_client s))) (y_sent s) (y_records s) y ->
      system_step s (s <| y_records := y |>)
  | sy_push s at_ broker j : broker_snapshot at_ broker (y_records s).1 = inr j -> system_step s (s <| y_pushed ::= cons j |>)
  | sy_snapshot s env j : j ∈ y_pushed s -> system_step s (s <| y_broker ::= fun b => (server_snapshot env j b).1 |>)
  | sy_take s i now p p' q : sv_peers (y_broker s) !! i = Some p -> server_session_round now p = (Some (0, p'), q) ->
      system_step s (s <| y_broker ::= fun b => b <| sv_peers := <[i := p']> (sv_peers b) |> |>)
  | sy_broker s b : (forall p', p' ∈ sv_peers b -> exists p, p ∈ sv_peers (y_broker s) /\ link p' = link p) -> system_step s (s <| y_broker := b |>).
(** A client without a connection, any store, a broker without handles. *)
Record start (s : system) : Prop := {
  st_client : connection_id (y_client s) = [] /\ control_generation (y_client s) = 0 /\ request_pending (y_client s) = false /\
              control_discovered (y_client s) = false;
  st_records : (y_records s).2 = remember [] (y_records s).1;
  st_empty : y_sent s = [] /\ y_adopted s = [] /\ y_pushed s = [] /\ sv_peers (y_broker s) = [] }.
Definition reached (s : system) : Prop := exists s0, start s0 /\ rtc system_step s0 s.

(** The sessions the client entered, newest first: each is the one grant of its generation. *)
Record adopted_ok (cid : list Z) (g : Z) (l : list (Z * list Z * list Z)) (log : list history_row) : Prop := {
  ad_known : forall k sid t, (k, sid, t) ∈ l -> cid <> [] /\ 1 <= k <= g /\
    exists h, h ∈ log /\ h_connection h = cid /\ h_generation h = k /\ h_session h = sid /\ h_token h = tokenHash t;
  ad_once : NoDup (map (fun a => a.1.1) l) }.
Record system_ok (s : system) : Prop := {
  sk_client : client_agreed (y_client s) (y_sent s) (y_records s);
  sk_adopted : adopted_ok (connection_id (y_client s)) (control_generation (y_client s)) (y_adopted s) (y_records s).2;
  sk_pushed : forall j, j ∈ y_pushed s -> snapshot_known (y_records s).2 j;
  sk_broker : forall p, p ∈ sv_peers (y_broker s) -> linked (y_records s).2 p }.
Lemma bystander_log cid secret sent x y : bystander cid secret sent x y -> forall h, h ∈ x.2 -> h ∈ y.2.
Proof. intros [] h Hh; cbn; apply in_remember; by left. Qed.
Lemma bystanders_log cid secret sent x y : rtc (bystander cid secret sent) x y -> forall h, h ∈ x.2 -> h ∈ y.2.
Proof. induction 1 as [x|x y z B _ IH]; [done|]. intros h Hh. apply IH. by eapply bystander_log. Qed.
Lemma carried_log env cid t sent log x y : carried env cid t sent log x y -> forall h, h ∈ x.2 -> h ∈ y.2.
Proof.
  intros [x'|q f x' _ _|q f f' x' y' _ _ _ B _] h Hh; [done|cbn; apply in_remember; by left|]. cbn. apply in_remember. left.
  eapply bystanders_log; [exact B|]. cbn. apply in_remember. by left.
Qed.
Lemma client_generation p sent x : client_agreed p sent x -> 0 <= control_generation p.
Proof. intros [_ _ _ [(_ & -> & _)|[_ A]]]; [done|apply A]. Qed.
(** A session just entered is the service's current one. *)
Lemma entered_known p sent x : client_agreed p sent x -> entered p x.1 -> 1 <= control_generation p ->
  connection_id p <> [] /\ exists h, h ∈ x.2 /\ h_connection h = connection_id p /\ h_generation h = control_generation p /\
    h_session h = default [] (session_id p) /\ h_token h = tokenHash (default [] (bearer p)).
Proof.
  intros [_ _ _ [(_ & E & _)|[N A]]] (c & t & R & S & G & B & T) L; [lia|]. split; [done|]. pose proof (ag_row _ _ _ _ _ A) as Y. rewrite R in Y. destruct Y as [_ Y].
  exists (current (connection_id p) c). split; [done|]. rewrite S, B, G. by split_and!.
Qed.
Lemma adopted_mono cid cid' g g' l log log' : adopted_ok cid g l log -> (cid <> [] -> cid' = cid) -> g <= g' -> (forall h, h ∈ log -> h ∈ log') ->
  adopted_ok cid' g' l log'.
Proof.
  intros [A1 A2] E G H. constructor; [|done]. intros k sid t Hk. destruct (A1 k sid t Hk) as (N & K & h & Hh & X). rewrite (E N).
  split; [done|]. split; [lia|]. exists h. split; [by apply H|done].
Qed.
Lemma open_adopted env p sent x e q log y l : client_agreed p sent x -> adopted_ok (connection_id p) (control_generation p) l x.2 -> fresh env p x ->
  open_session env p = (e, q, log) -> carried env (connection_id q) (requested_session_token q) sent log x y ->
  adopted_ok (connection_id q) (control_generation q) (adoption e q ++ l) y.2.
Proof.
  intros C A F O K. destruct (open_agreed _ _ _ _ _ _ _ _ C F O K) as (C' & G & E). pose proof (client_generation _ _ _ C) as G0.
  assert (adopted_ok (connection_id q) (control_generation q) l y.2) as A'.
  { eapply adopted_mono; [exact A| |exact G|by eapply carried_log]. intros N. pose proof (open_connection env p N) as X. by rewrite O in X. }
  destruct e as [e|]; [done|]. destruct (E eq_refl) as [En Gn]. cbn [adoption app]. destruct A' as [A1 A2].
  destruct (entered_known _ _ _ C' En ltac:(lia)) as (N & h & Hh & X). constructor.
  - intros k sid t [[= -> -> ->]|Hk]%elem_of_cons; [|by apply A1]. split; [done|]. split; [lia|]. exists h. by destruct X as (? & ? & ? & ?).
  - cbn [map]. constructor; [|done]. cbn [fst]. intros Hin. apply list_elem_of_In, in_map_iff in Hin as ([[k sid] t] & Ek & Hin). apply list_elem_of_In in Hin.
    cbn in Ek. destruct (ad_known _ _ _ _ A k sid t Hin) as (_ & ? & _). lia.
Qed.
Lemma step_ok s s' : system_step s s' -> system_ok s -> system_ok s'.
Proof.
  intros [x env e q log y F O K|x q E|x y B|x at_ broker j J|x env j Hj|x i now p p' q Hi R|x b Hb] [K1 K2 K3 K4].
  - pose proof (carried_log _ _ _ _ _ _ _ K) as L. constructor; cbn.
    + by eapply open_agreed.
    + by eapply open_adopted.
    + intros j Hj. eapply snapshot_known_mono; [exact L|by apply K3].
    + intros p Hp. eapply linked_mono; [exact L|by apply K4].
  - apply identity_view in E. constructor; cbn; try done; [by eapply view_agreed|]. unfold lineage_view in E. injection E as -> -> _ _ _ _ _. done.
  - pose proof (bystander_log _ _ _ _ _ B) as L. constructor; cbn.
    + destruct K1 as [C1 C2 C3 C4]. assert (forall h, h ∈ connection_sessions y.1 -> h ∈ y.2) as Hy by (destruct B; cbn; intros h Hh; apply in_remember; by right).
      constructor; try done. destruct C4 as [?|[N A]]; [by left|right]. split; [done|]. eapply agreed_bystander; [exact A| |exact B].
      unfold pending_of. destruct (request_pending _); [|done]. by intros ? ? [= <- <-].
    + by eapply adopted_mono.
    + intros j Hj. eapply snapshot_known_mono; [exact L|by apply K3].
    + intros p Hp. eapply linked_mono; [exact L|by apply K4].
  - constructor; cbn; try done. intros j' [->|Hj]%elem_of_cons; [|by apply K3]. eapply broker_snapshot_known; [apply K1|exact J].
  - constructor; cbn; try done. apply server_snapshot_linked; [done|by apply K3].
  - constructor; cbn; try done. intros p0 Hp. apply list_elem_of_lookup in Hp as [n Hn]. destruct (decide (n = i)) as [->|Ne].
    + rewrite list_lookup_insert_eq in Hn by (by eapply lookup_lt_Some). injection Hn as <-. eapply server_session_linked; [|exact R]. apply K4. by eapply list_elem_of_lookup_2.
    + rewrite list_lookup_insert_ne in Hn by done. apply K4. by eapply list_elem_of_lookup_2.
  - constructor; cbn; try done. intros p' Hp. destruct (Hb p' Hp) as (p & Hin & E). eapply link_linked; [symmetry; exact E|by apply K4].
Qed.
Lemma start_system_ok s : start s -> system_ok s.
Proof.
  intros [(S1 & S2 & S3 & S4) S5 (S6 & S7 & S8 & S9)].
  assert (forall h, h ∈ connection_sessions (y_records s).1 -> h ∈ (y_records s).2) as H by (intros h Hh; rewrite S5; apply in_remember; by right).
  constructor; rewrite ?S6, ?S7, ?S8, ?S9; try (by intros ? ?%elem_of_nil).
  - constructor; [congruence|unfold pend_ok; congruence|done|left; by split_and!].
  - constructor; [by intros ? ? ? ?%elem_of_nil|constructor].
Qed.
Lemma reached_ok s : reached s -> system_ok s.
Proof. intros (s0 & S & R). apply start_system_ok in S. induction R as [|x y z X _ IH]; [done|]. apply IH. by eapply step_ok. Qed.

(** C4: in every reachable state of client, service and broker the service's record of the client's
    connection is at the client's generation, or one further, and then by the grant of exactly
    the proposal whose outcome the client still awaits; of all grants ever made for the
    connection no two share a generation; and the client entered only granted sessions, each at
    most once, with the generation of the grant and the token whose hash was granted. *)
Theorem lineage_agreement s : reached s ->
  let p := y_client s in
  match readConnection (y_records s).1 (connection_id p) with
  | None => control_generation p = 0
  | Some c => connection_id p <> [] -> Generation c = control_generation p \/
      (Generation c = control_generation p + 1 /\ request_pending p = true /\ Request c = request_id p /\ TokenHash c = tokenHash (requested_session_token p))
  end /\
  (forall h h', h ∈ (y_records s).2 -> h' ∈ (y_records s).2 -> connection_id p <> [] -> h_connection h = connection_id p -> h_connection h' = connection_id p ->
     h_generation h = h_generation h' -> h = h') /\
  adopted_ok (connection_id p) (control_generation p) (y_adopted s) (y_records s).2.
Proof.
  intros [K1 K2 _ _]%reached_ok. cbv zeta. split; [|split; [|exact K2]].
  - destruct (readConnection _ _) as [c|] eqn:R.
    2:{ destruct (ca_agreed _ _ _ K1) as [(_ & ? & _)|[_ A]]; [done|]. pose proof (ag_row _ _ _ _ _ A) as Y. by rewrite R in Y. }
    intros N. destruct (ca_agreed _ _ _ K1) as [(? & _)|[_ A]]; [done|].
    pose proof (ag_row _ _ _ _ _ A) as Y. rewrite R in Y. destruct Y as [(_ & _ & [?|(? & r & t & E & ? & ?)]) _]; [by left|right].
    unfold pending_of in E. destruct (request_pending (y_client s)); [|done]. by injection E as <- <-.
  - intros h h' Hh Hh' N. destruct (ca_agreed _ _ _ K1) as [(? & _)|[_ A]]; [done|]. by apply A.
Qed.

(** C8: whenever a handle of the broker runs a session of the client's connection with the
    generation of a session the client entered, it is the same session, and so is the session
    it was told to change to, however late the broker reads its snapshots. *)
Theorem parties_agree s g sid t bp : reached s -> (g, sid, t) ∈ y_adopted s -> bp ∈ sv_peers (y_broker s) -> connection_id bp = connection_id (y_client s) ->
  (control_generation bp = g -> session_id bp = Some sid) /\
  (pending_control_generation bp = g -> forall sid', pending_session_id bp = Some sid' -> sid' = sid).
Proof.
  intros [K1 K2 _ K4]%reached_ok Ha Hb E. destruct (ad_known _ _ _ _ K2 g sid t Ha) as (N & _ & h & Hh & H1 & H2 & H3 & _).
  destruct (ca_agreed _ _ _ K1) as [(? & _)|[_ A]]; [done|]. rewrite <- E in N. destruct (K4 bp Hb N) as [(s1 & E1 & (h1 & P1 & P2 & P3 & P4)) L2]. split.
  - intros Eg. rewrite E1. f_equal. rewrite <- H3, <- P3. f_equal. apply (ag_unique _ _ _ _ _ A); congruence.
  - intros Eg sid' E'. destruct (L2 sid' E') as (h2 & Q1 & Q2 & Q3 & Q4). rewrite <- H3, <- Q3. f_equal. apply (ag_unique _ _ _ _ _ A); congruence.
Qed.

(** ** A lost grant is recovered *)

Lemma id_chars_hex i l : id_chars i l = true -> existsb (Z.eqb 47) l = false.
Proof.
  revert i. induction l as [|c l IH]; intros i; [done|]. cbn [id_chars existsb]. intros [H1 H2]%andb_true_iff. rewrite (IH _ H2), orb_false_r.
  unfold id_char, hex_lower in H1. case_bool_decide; bools; apply Z.eqb_neq; lia.
Qed.
Lemma routed_id id : ob_valid_id (Some id) = true -> routed (lit "/v1/connections/" ++ id ++ lit "/session") = Some id.
Proof.
  intros [H1 H2]%andb_true_iff. apply Z.eqb_eq in H1. unfold routed. cbv zeta. rewrite !zlen_app.
  change (zlen (lit "/v1/connections/")) with 16. change (zlen (lit "/session")) with 8.
  replace (zsub 16 (16 + (zlen id + 8) - 24) (lit "/v1/connections/" ++ id ++ lit "/session")) with id.
  2:{ unfold zsub. rewrite zdrop_app_exact by done. rewrite ztake_app_exact by lia. done. }
  rewrite list_eqb_refl, (id_chars_hex _ _ H2). destruct id; [done|]. done.
Qed.
(** The closing request of a handle reaches [deleteConnection] for its own connection. *)
Lemma close_routed p r : ob_control_close_connection p = Some r -> routed_delete r = Some (connection_id p).
Proof.
  unfold ob_control_close_connection. destruct (_ || _) eqn:E; [done|]. intros H%(inj Some). subst r. apply orb_false_iff in E as [_ E]. apply negb_false_iff in E.
  pose proof E as [E1 E2]%andb_true_iff. apply Z.eqb_eq in E1. unfold routed_delete. cbn [rq_method rq_path]. cbv zeta.
  rewrite zdrop_app_exact, ztake_app_exact by done. rewrite !list_eqb_refl, (id_chars_hex _ _ E2). destruct (connection_id p); done.
Qed.
Definition proposal (p : ob_remote_peer) : connectionRequest :=
  ConnectionRequest (broker_id p) (relay_text (relay p)) (Some (control_generation p)) (request_id p) (requested_session_token p).
Lemma decode_post p : control_managed p = true -> 0 <= control_generation p <= UINT64_MAX -> decode (session_post p).2 = Some (proposal p).
Proof.
  intros M G. unfold session_post. rewrite M. cbn [snd]. unfold decode, one_string, proposal. cbn -[lit UINT64_MAX].
  change (list_eqb (lit "expected_generation") (lit "expected_generation")) with true. rewrite !(proj2 (Z.leb_le _ _)) by lia. done.
Qed.
(** The service admits the caller, its lineage and its broker. *)
Record welcome (v : conn_env) (bearer : list Z) (earlier db : store) (p : ob_remote_peer) (c : connectionRecord) : Prop := {
  we_up : ce_stopped v = false /\ ce_sql v = false;
  we_request : request_ok (connection_id p) (proposal p) = true;
  we_caller : exists who, auth tokenHash (ce_now v) earlier bearer [lit "account"] = inr who /\ txPrincipal tokenHash (ce_now v) db bearer who = inr tt /\
    lineage_scope tokenHash v bearer who (proposal p) (Some c) db = inr tt /\ broker_ready cfg v who (proposal p) (Generation c) db = inr tt }.
Lemma welcome_replay v bearer earlier db p c : welcome v bearer earlier db p c -> readConnection db (connection_id p) = Some c -> Request c = request_id p ->
  connectionSession tokenHash cfg v bearer (connection_id p) (Some (proposal p)) earlier db =
  (r ← replay tokenHash v (connection_id p) (proposal p) c db; inr (db, r)).
Proof.
  intros [[_ W1] W2 (who & A & T & L & B)] R Q. unfold connectionSession. rewrite A. cbn [passed mbind result_bind must]. rewrite W2. cbn [ensure mbind result_bind].
  rewrite W1, T. cbn [mbind result_bind]. cbv zeta. rewrite R. cbn [default from_option Datatypes.id]. rewrite L. cbn [mbind result_bind]. rewrite B. cbn [mbind result_bind].
  rewrite bool_decide_false by done. cbn [negb andb]. change (rq_request (proposal p)) with (request_id p). by rewrite Q, list_eqb_refl.
Qed.
Definition running (v : conn_env) (db : store) (c : connectionRecord) : option Z :=
  match find_session db (Session c) with Some s => if ss_expires s <=? ce_now v 14%nat then None else Some (ss_expires s) | None => None end.
Lemma replay_known v db p c : PriorGeneration c = control_generation p -> TokenHash c = tokenHash (requested_session_token p) ->
  replay tokenHash v (connection_id p) (proposal p) c db =
  match running v db c with
  | Some expiry => inr (200, grant_body (Session c) (connection_id p) (Generation c) expiry)
  | None => inl (Refused (connectionFailure 410 "session_expired" "the attempted session expired" (Generation c)))
  end.
Proof.
  intros E1 E2. unfold replay, running. cbn [proposal rq_expected rq_token default from_option Datatypes.id]. rewrite E1, E2, Z.eqb_refl, list_eqb_refl. cbn [negb orb].
  destruct (find_session db (Session c)) as [s|]; [|done]. by destruct (_ <=? _).
Qed.
(** A pending client sends its proposal again; the answer decides. *)
Lemma open_pending env p : pend_ok p -> request_pending p = true -> body_ok env = true -> print_ok env = true ->
  (forall e, (Coordinator.send env 0%nat (session_post p)).1 = Some e -> http_status e <> 401) ->
  let p0 := p <| control_retryable := false |> in
  let a := Coordinator.send env 0%nat (session_post p) in
  open_session env p = match a.1 with Some e => (Some (api_failure e), rejected e a.2 p0, [session_post p]) | None => (granted (copy_ok env) a.2 p0, [session_post p]) end.
Proof.
  intros P Rp B1 B2 N. cbv zeta. destruct (P Rp) as (M & D & Ne). unfold open_session. set (p0 := p <| control_retryable := false |>).
  assert (discover env p0 = inr p0) as -> by (unfold discover; change (control_discovered p0) with (control_discovered p); by rewrite D).
  destruct (propose env p0) as [e q] eqn:Pr. destruct (propose_spec env p0 e q D P Pr) as (_ & _ & _ & _ & _ & _ & Q & _ & Q2).
  rewrite (Q Rp) in *. clear Pr Q q. destruct e as [e|]; [specialize (Q2 ltac:(done)); change (request_pending p0) with (request_pending p) in Q2; congruence|].
  rewrite B1, B2. cbn [andb negb]. unfold transact. cbv zeta. change (session_post p0) with (session_post p).
  destruct (Coordinator.send env 0%nat (session_post p)).1 as [e|] eqn:E; [|by rewrite E].
  rewrite (proj2 (Z.eqb_neq _ _)) by (by apply N). rewrite andb_false_r. cbn [andb]. by rewrite E.
Qed.
Lemma valid_token_given t : Service.validConnectionToken t = true -> given (Some t) = true.
Proof. Transparent Service.validConnectionToken. destruct t; [done|]. done. Qed.

(** The outcome of the client's proposal is known to it: the session of the row, or that it ended. *)
Definition resolved (p : ob_remote_peer) (c : connectionRecord) (e : option ob_remote_error) (q : ob_remote_peer) : Prop :=
  request_pending q = false /\ control_generation q = Generation c /\
  match e with
  | None => session_id q = Some (Session c) /\ Peer.bearer q = Some (requested_session_token p)
  | Some _ => control_retryable q = true /\ session_id q = session_id p
  end.
Lemma rejected_settled e a p c db : control_managed p = true -> a.1 = Some e -> Generation c = control_generation p + 1 -> Generation c <= 2147483647 ->
  heard (connection_id p) (control_generation p) (requested_session_token p) a db ->
  resolved p c (Some (api_failure e)) (rejected e a.2 p) \/ rejected e a.2 p = p.
Proof.
  intros M Ea G L H. unfold rejected. rewrite M. cbn [andb]. destruct ((_ || _) && _) eqn:B; [|by right]. apply andb_true_iff in B as [_ B].
  destruct (he_ended _ _ _ _ _ H) as [I K]; [exact B|congruence|]. rewrite I. rewrite (proj2 (Z.leb_le _ _)) by lia.
  left. split; [done|]. split; [|done]. change (generation_of db (connection_id p) = Generation c). lia.
Qed.
Lemma granted_settled ok a p c e q sent x : control_managed p = true -> a.1 = None -> granted ok a.2 p = (e, q) ->
  agreed (connection_id p) (control_generation p) (pending_of p) sent x -> current (connection_id p) c ∈ x.2 -> Generation c = control_generation p + 1 ->
  heard (connection_id p) (control_generation p) (requested_session_token p) a x.1 ->
  resolved p c e q \/ (e <> None /\ q = p).
Proof.
  intros M Ea Gr A Hc G H. pose proof (granted_spec _ _ _ _ _ Gr) as S. destruct e as [e|]; [by right|]. clear S. left.
  destruct (granted_fields _ _ _ _ M Gr) as ((_ & _ & _ & _ & Q5) & Q6 & Q7 & Q8 & Q9).
  destruct (he_grant _ _ _ _ _ H Ea) as [N|(s & j & Ej & [(c' & expiry & R & Gc & L & T & ->) _])]; [done|].
  rewrite Ej in Q6, Q8. destruct (grant_fields (Session c') (connection_id p) (control_generation p + 1) expiry) as (T1 & T2 & T3).
  pose proof (ag_generation _ _ _ _ _ A). rewrite T1 in Q6. rewrite T3 in Q8 by (unfold MAX_SAFE; lia). cbn [default from_option Datatypes.id] in Q8.
  assert (current (connection_id p) c' = current (connection_id p) c) as E.
  { pose proof (ag_row _ _ _ _ _ A) as Y. rewrite R in Y. destruct Y as [_ Hc']. apply (ag_unique _ _ _ _ _ A); try done. cbn. lia. }
  injection E as E1 _ _ _ _. split; [exact Q5|]. split; [lia|]. by rewrite Q6, E1.
Qed.
(** Every attempt of a client whose proposal was granted settles it or leaves it as it was. *)
Lemma attempt_settles env p sent x c e q log y :
  client_agreed p sent x -> readConnection x.1 (connection_id p) = Some c -> Generation c = control_generation p + 1 -> connection_id p <> [] ->
  open_session env p = (e, q, log) -> carried env (connection_id p) (requested_session_token p) sent log x y ->
  resolved p c e q \/ (e <> None /\ q = p <| control_retryable := false |>).
Proof.
  intros [_ P _ [(? & _)|[_ A]]] R G Ne O K; [done|]. pose proof (ag_row _ _ _ _ _ A) as Y. rewrite R in Y.
  destruct Y as [(Y1 & Y2 & [?|(_ & r & t & E & Y3 & Y4)]) Hc]; [lia|]. unfold pending_of in E. destruct (request_pending p) eqn:Rp; [|done]. clear r t E Y3 Y4.
  destruct (P Rp) as (M & D & _). unfold pending_of in A. rewrite Rp in A. unfold open_session in O.
  change (resolved p c e q) with (resolved (p <| control_retryable := false |>) c e q).
  set (p0 := p <| control_retryable := false |>) in *.
  change (connection_id p) with (connection_id p0) in *. change (control_generation p) with (control_generation p0) in *.
  change (requested_session_token p) with (requested_session_token p0) in *. change (request_id p) with (request_id p0) in *.
  change (control_managed p) with (control_managed p0) in *. change (control_discovered p) with (control_discovered p0) in *.
  change (request_pending p) with (request_pending p0) in *.
  assert (P0 : pend_ok p0) by exact P. clearbody p0. clear P p.
  assert (discover env p0 = inr p0) as Dp by (unfold discover; by rewrite D). rewrite Dp in O. destruct (propose env p0) as [e1 p1] eqn:Pr.
  destruct (propose_spec env p0 e1 p1 D P0 Pr) as (_ & _ & _ & _ & _ & _ & Q & _ & Q2). rewrite (Q Rp) in *. clear Q Pr p1.
  destruct e1 as [e1|]; [specialize (Q2 ltac:(done)); congruence|].
  destruct (negb _); [injection O as <- <- <-; by right|]. destruct (transact env p0) as [a lg] eqn:T. apply transact_log in T.
  assert (lg = log) as ->.
  { destruct a.1; [by injection O|]. by destruct (granted _ _ _) as [? ?]; injection O. }
  destruct (carried_agreed env sent (session_post p0) log x y _ _ _ _ a A (session_post_asks p0 M) K T) as [A' H].
  destruct a.1 as [e2|] eqn:Ea.
  - injection O as <- <-. destruct (rejected_settled e2 a p0 c y.1 M Ea G ltac:(lia) H) as [?|E]; [by left|right]. by rewrite E.
  - destruct (granted _ _ _) as [e3 q3] eqn:Gr. injection O as <- <-.
    apply (granted_settled (copy_ok env) a p0 c e3 q3 (log ++ sent) y); try done; [unfold pending_of; by rewrite Rp|]. by eapply carried_log.
Qed.

(** The attempt that the service admits. *)
Lemma admitted_settles p sent x env v bearer earlier c : client_agreed p sent x ->
  let db := x.1 in let f := Served v bearer earlier None in
  readConnection db (connection_id p) = Some c -> Generation c = control_generation p + 1 -> connection_id p <> [] ->
  welcome v bearer earlier db p c -> ob_valid_id (Some (Session c)) = true ->
  body_ok env = true -> print_ok env = true -> copy_ok env = true ->
  Coordinator.send env 0%nat (session_post p) = (exchange f (session_post p) db).1 ->
  (exchange f (session_post p) db).2 = db /\
  exists e q, open_session env p = (e, q, [session_post p]) /\ resolved p c e q /\
    match running v db c with Some _ => e = None | None => e <> None end.
Proof.
  intros [_ P _ [(? & _)|[_ A]]] db f R G Ne W V B1 B2 B3 S; [done|].
  pose proof (ag_row _ _ _ _ _ A) as Y. fold db in Y. rewrite R in Y. destruct Y as [(Y1 & Y2 & [?|(_ & r & t & E & Y3 & Y4)]) _]; [lia|].
  unfold pending_of in E. destruct (request_pending p) eqn:Rp; [|done]. injection E as <- <-. destruct (P Rp) as (M & _ & _).
  pose proof W as [[W0 _] W2 _]. unfold request_ok in W2.
  apply andb_true_iff in W2 as [[[[[W2 _]%andb_true_iff _]%andb_true_iff Wt]%andb_true_iff _]%andb_true_iff _].
  pose proof (ag_generation _ _ _ _ _ A) as G0.
  assert (serve v bearer earlier (session_post p) db = match running v db c with
    | Some expiry => ((200, grant_body (Session c) (connection_id p) (Generation c) expiry), db)
    | None => ((410, apiErrorBody (connectionFailure 410 "session_expired" "the attempted session expired" (Generation c))), db) end) as X.
  { unfold serve. rewrite (decode_post p M) by (unfold UINT64_MAX; lia).
    replace (routed (session_post p).1) with (Some (connection_id p)) by (symmetry; unfold session_post; rewrite M; by apply routed_id).
    unfold endpoint. rewrite W0, (welcome_replay v bearer earlier db p c W R Y3), replay_known by (try congruence; lia). by destruct (running v db c). }
  cbn [exchange f fst snd] in *. rewrite X in *. destruct (running v db c) as [expiry|]; cbn [fst snd default from_option Datatypes.id] in *; (split; [done|]).
  - rewrite (open_pending env p P Rp B1 B2) by (rewrite S; done). rewrite S, B3. unfold answer_of. cbn [fst snd].
    destruct (grant_fields (Session c) (connection_id p) (Generation c) expiry) as (T1 & T2 & T3).
    change ((200 <=? 200) && (200 <? 300)) with true. cbn [fst snd]. unfold granted. cbv zeta. change (control_managed (p <| control_retryable := false |>)) with (control_managed p).
    rewrite M, T1, T2, T3 by (unfold MAX_SAFE; lia). change (requested_session_token (p <| control_retryable := false |>)) with (requested_session_token p).
    rewrite V, (valid_token_given (requested_session_token p)) by done.
    rewrite bool_decide_true by done. change (control_generation (p <| control_retryable := false |>)) with (control_generation p).
    rewrite (proj2 (Z.leb_gt (Generation c) (control_generation p))) by lia. cbn [negb orb andb]. eexists None, _. split; [reflexivity|]. cbn. rewrite M. by split_and!.
  - rewrite (open_pending env p P Rp B1 B2) by (rewrite S; intros ? [= <-]; done). rewrite S. unfold answer_of. cbn [fst snd].
    change ((200 <=? 410) && (410 <? 300)) with false. cbn [fst snd]. eexists _, _. split; [reflexivity|].
    unfold rejected. change (control_managed (p <| control_retryable := false |>)) with (control_managed p). rewrite M. cbn [andb].
    change ((http_status _ =? 409) || (http_status _ =? 410)) with true. cbn [andb]. fold (ends (Some (apiErrorBody (connectionFailure 410 "session_expired" "the attempted session expired" (Generation c))))).
    rewrite ends_contested. change (contested _) with true. cbv iota. rewrite body_generation by (cbn; unfold MAX_SAFE; lia). cbn [Connections.generation connectionFailure].
    rewrite (proj2 (Z.eqb_neq (Generation c) 0)) by lia. change (control_generation (p <| control_retryable := false |>)) with (control_generation p).
    rewrite (proj2 (Z.leb_le (control_generation p) (Generation c))) by lia. by split_and!.
Qed.

(** C16: when the service granted a proposal but the client did not learn of it, every further
    attempt of the client, whatever becomes of its requests and whatever else the service does
    meanwhile, either settles the proposal (the client enters exactly the granted session, or
    learns that it ended, takes over its generation and is ready to propose anew) or fails and
    leaves the very same proposal pending.  The first attempt that the service admits settles it
    without a second grant: admitting means that no statement fails, the caller and the
    connection are authorised and the broker is ready.  The client then enters the granted
    session if it still runs and otherwise learns that it ended. *)
Theorem grant_recovered s c : reached s ->
  let p := y_client s in let db := (y_records s).1 in
  readConnection db (connection_id p) = Some c -> Generation c = control_generation p + 1 -> connection_id p <> [] ->
  (forall env e q log y, open_session env p = (e, q, log) ->
     carried env (connection_id p) (requested_session_token p) (y_sent s) log (y_records s) y ->
     resolved p c e q \/ (e <> None /\ q = p <| control_retryable := false |>)) /\
  (forall env v bearer earlier, let f := Served v bearer earlier None in
     welcome v bearer earlier db p c -> ob_valid_id (Some (Session c)) = true ->
     body_ok env = true -> print_ok env = true -> copy_ok env = true ->
     Coordinator.send env 0%nat (session_post p) = (exchange f (session_post p) db).1 ->
     (exchange f (session_post p) db).2 = db /\
     exists e q, open_session env p = (e, q, [session_post p]) /\ resolved p c e q /\
       match running v db c with Some _ => e = None | None => e <> None end).
Proof.
  intros Re p db R G Ne. destruct (reached_ok s Re) as [C _ _ _]. split.
  - intros env e q log y O K. by eapply (attempt_settles env p (y_sent s) (y_records s)).
  - intros env v bearer earlier f W V B1 B2 B3 S. eapply admitted_settles; try done.
Qed.
End system.

(** ** An example: the reply of the first grant is lost *)

Definition lost_reply : answer := (Some (ApiError OB_API_TRANSPORT 0 28 []), None).
Definition heard_by (f : fate) (random token : list Z) (db : store) : session_env :=
  SessionEnv (answer_of connectionDiscovery) (Some random) (Some random) (Some token) true true true
    (fun _ q => (exchange plain_hash demo_cfg f q db).1) false false 0.
(** The step of an attempt that sends one request. *)
Definition advance (f : fate) (random token : list Z) (s : system) : system :=
  let x := y_records s in
  let '(e, q, log) := open_session (heard_by f random token x.1) (y_client s) in
  s <| y_client := q |> <| y_records := match log with [r] => recorded x (exchange plain_hash demo_cfg f r x.1).2 | _ => x end |>
    <| y_sent := log ++ y_sent s |> <| y_adopted := adoption e q ++ y_adopted s |>.
Lemma advance_step f random token s : fair f -> length (open_session (heard_by f random token (y_records s).1) (y_client s)).2 = 1%nat ->
  fresh plain_hash (heard_by f random token (y_records s).1) (y_client s) (y_records s) -> system_step plain_hash demo_cfg s (advance f random token s).
Proof.
  intros F L Fr. unfold advance. cbv zeta. pose proof (sy_open plain_hash demo_cfg s (heard_by f random token (y_records s).1)) as S.
  destruct (open_session _ _) as [[e q] log]. cbn [snd] in L. destruct log as [|r [|]]; try done. eapply S; [done|done|]. by apply carried_once.
Qed.
(** Freshness of drawn bytes against the records of the example. *)
Definition draws (x : records) (random token : list Z) : bool :=
  forallb (fun h => negb (list_eqb (h_token h) (ob_hex token)) && negb (bool_decide (Coordinator.uuid (Some random) = Some (h_request h))) &&
                    negb (bool_decide (Coordinator.uuid (Some random) = Some (h_connection h)))) x.2 &&
  forallb (fun k => negb (list_eqb (tk_hash k) (ob_hex token))) (tokens x.1) &&
  forallb (fun c => negb (bool_decide (Coordinator.uuid (Some random) = Some (ID c)))) (connections x.1).
Lemma draws_fresh f random token p x : draws x random token = true -> fresh plain_hash (heard_by f random token x.1) p x.
Proof.
  intros [[D1 D2]%andb_true_iff D3]%andb_true_iff. rewrite forallb_forall in D1, D2, D3. constructor; [done|done| |].
  - intros _ cid E. split.
    + destruct (readConnection x.1 cid) as [c|] eqn:R; [|done]. pose proof (readConnection_id _ _ _ R) as I. apply find_some in R as [R _].
      specialize (D3 c R). rewrite bool_decide_true in D3; [done|]. rewrite I. exact E.
    + intros h Hh Hc. apply list_elem_of_In in Hh. specialize (D1 h Hh). apply andb_true_iff in D1 as [_ D1]. rewrite bool_decide_true in D1; [done|]. rewrite Hc. exact E.
  - intros _ cid r b Er [= <-]. constructor.
    + intros h Hh%list_elem_of_In Ht. specialize (D1 h Hh). apply andb_true_iff in D1 as [[D1 _]%andb_true_iff _]. apply negb_true_iff, list_eqb_neq in D1. by apply D1.
    + intros h Hh%list_elem_of_In _ Hr. specialize (D1 h Hh). apply andb_true_iff in D1 as [[_ D1]%andb_true_iff _]. rewrite bool_decide_true in D1; [done|].
      rewrite Hr. exact Er.
    + intros k Hk%list_elem_of_In Ht. specialize (D2 k Hk). apply negb_true_iff, list_eqb_neq in D2. by apply D2.
Qed.
Definition demo_first : fate := Served (demo_env 1) (lit "account") demo_store (Some lost_reply).
Definition demo_again : fate := Served (demo_env 2) (lit "account") demo_store None.
Definition demo_y0 : system := System (new_peer 5 demo_broker None) (demo_store, remember [] demo_store) [] [] [] demo_s0.
Definition demo_y1 : system := advance demo_first (replicate 16 7) (replicate 32 7) demo_y0.
Definition demo_y2 : system := advance demo_again (replicate 16 9) (replicate 32 9) demo_y1.
Definition demo_pushed : cj := match broker_snapshot 2000 demo_broker (y_records demo_y2).1 with inr j => j | inl _ => CNull end.
Definition demo_y3 : system := demo_y2 <| y_pushed ::= cons demo_pushed |>.
Definition demo_item (_ : nat) : item_env := ItemEnv true true true true 3000 3000 3000 3000.
Definition demo_y4 : system := demo_y3 <| y_broker ::= fun b => (server_snapshot demo_item demo_pushed b).1 |>.
Lemma demo_start : start demo_y0.
Proof. by constructor; vm_compute. Qed.
Lemma demo_step1 : system_step plain_hash demo_cfg demo_y0 demo_y1.
Proof. apply advance_step; [|vm_compute; done|apply draws_fresh; vm_compute; done]. split; [by eexists|done]. Qed.
Lemma demo_step2 : system_step plain_hash demo_cfg demo_y1 demo_y2.
Proof. apply advance_step; [done|vm_compute; done|apply draws_fresh; vm_compute; done]. Qed.
Lemma demo_reached1 : reached plain_hash demo_cfg demo_y1.
Proof. exists demo_y0. split; [exact demo_start|]. eapply rtc_l; [exact demo_step1|apply rtc_refl]. Qed.
Lemma demo_snapshot : broker_snapshot 2000 demo_broker (y_records demo_y2).1 = inr demo_pushed.
Proof. vm_compute. reflexivity. Qed.
Lemma demo_reached4 : reached plain_hash demo_cfg demo_y4.
Proof.
  exists demo_y0. split; [exact demo_start|]. eapply rtc_l; [exact demo_step1|]. eapply rtc_l; [exact demo_step2|].
  eapply rtc_l; [exact (sy_push _ _ demo_y2 2000 demo_broker demo_pushed demo_snapshot)|].
  eapply rtc_l; [|apply rtc_refl]. apply (sy_snapshot _ _ demo_y3 demo_item demo_pushed). left.
Qed.
Lemma lineage_agreement_witness :
  exists c, readConnection (y_records demo_y1).1 (connection_id (y_client demo_y1)) = Some c /\
    Generation c = control_generation (y_client demo_y1) + 1 /\ TokenHash c = plain_hash (requested_session_token (y_client demo_y1)).
Proof.
  assert (match readConnection (y_records demo_y1).1 (connection_id (y_client demo_y1)) with
          | Some c => negb (Generation c =? control_generation (y_client demo_y1)) && negb (list_eqb (connection_id (y_client demo_y1)) []) | None => false end = true) as H
    by (vm_compute; reflexivity).
  pose proof (lineage_agreement plain_hash demo_cfg demo_y1 demo_reached1) as [L _]. cbv zeta in L.
  destruct (readConnection _ _) as [c|]; [|done]. exists c. split; [done|]. apply andb_true_iff in H as [H1 H2]. apply negb_true_iff in H1, H2.
  apply Z.eqb_neq in H1. apply list_eqb_neq in H2. destruct (L H2) as [?|(? & _ & _ & ?)]; [done|]. split; done.
Defined.
Definition first_of {A} (d : A) (l : list A) : A := match l with a :: _ => a | [] => d end.
Lemma first_in {A} (d : A) l : negb (bool_decide (length l = 0%nat)) = true -> first_of d l ∈ l.
Proof. destruct l; [done|]. by left. Qed.
Definition demo_entry : Z * list Z * list Z := first_of (0, [], []) (y_adopted demo_y4).
Definition demo_handle : ob_remote_peer := first_of sample_peer (sv_peers (y_broker demo_y4)).
Lemma demo_entered : (demo_entry.1.1, demo_entry.1.2, demo_entry.2) ∈ y_adopted demo_y4.
Proof.
  assert (demo_entry ∈ y_adopted demo_y4) as H by (apply first_in; vm_compute; reflexivity). by destruct demo_entry as [[g sid] t].
Qed.
Lemma demo_serving : demo_handle ∈ sv_peers (y_broker demo_y4).
Proof. apply first_in. vm_compute. reflexivity. Qed.
Lemma demo_same : connection_id demo_handle = connection_id (y_client demo_y4).
Proof. vm_compute. reflexivity. Qed.
Lemma demo_generation : control_generation demo_handle = demo_entry.1.1.
Proof. vm_compute. reflexivity. Qed.
Lemma parties_agree_witness : demo_entry.1.1 = 1 /\ session_id demo_handle = Some demo_entry.1.2.
Proof.
  split; [vm_compute; reflexivity|].
  exact (proj1 (parties_agree plain_hash demo_cfg demo_y4 demo_entry.1.1 demo_entry.1.2 demo_entry.2 demo_handle demo_reached4 demo_entered demo_serving demo_same)
    demo_generation).
Defined.
Definition demo_row : connectionRecord := default no_record (readConnection (y_records demo_y1).1 (connection_id (y_client demo_y1))).
Definition demo_account : principal := Principal (lit "account") (lit "tenant") [] [] 1 [].
Lemma demo_welcome : welcome plain_hash demo_cfg (demo_env 2) (lit "account") demo_store (y_records demo_y1).1 (y_client demo_y1) demo_row.
Proof. constructor; [done|vm_compute; reflexivity|]. exists demo_account. vm_compute. by split_and!. Qed.
Lemma heard_by_send f random token db q : Coordinator.send (heard_by f random token db) 0%nat q = (exchange plain_hash demo_cfg f q db).1.
Proof. done. Qed.
Lemma demo_read : readConnection (y_records demo_y1).1 (connection_id (y_client demo_y1)) = Some demo_row.
Proof. vm_compute. reflexivity. Qed.
Lemma demo_ahead : Generation demo_row = control_generation (y_client demo_y1) + 1.
Proof. vm_compute. reflexivity. Qed.
Lemma demo_named : connection_id (y_client demo_y1) <> [].
Proof. apply list_eqb_neq. vm_compute. reflexivity. Qed.
Lemma demo_valid : ob_valid_id (Some (Session demo_row)) = true.
Proof. vm_compute. reflexivity. Qed.
Definition demo_env_again : session_env := heard_by demo_again (replicate 16 9) (replicate 32 9) (y_records demo_y1).1.
(** The attempt that follows, with an answer of a service whose statements fail: the proposal stays. *)
Definition demo_failing : fate := Served (ConnEnv (fun _ => 1000) false true false (replicate 16 2)) (lit "account") demo_store None.
Lemma grant_recovered_witness :
  (exists e q, open_session demo_env_again (y_client demo_y1) = (e, q, [session_post (y_client demo_y1)]) /\ resolved (y_client demo_y1) demo_row e q) /\
  let '(e, q, log) := open_session (heard_by demo_failing [] [] (y_records demo_y1).1) (y_client demo_y1) in
  resolved (y_client demo_y1) demo_row e q \/ (e <> None /\ q = y_client demo_y1 <| control_retryable := false |>).
Proof.
  destruct (grant_recovered plain_hash demo_cfg demo_y1 demo_row demo_reached1 demo_read demo_ahead demo_named) as [H1 H2]. split.
  - destruct (H2 demo_env_again (demo_env 2) (lit "account") demo_store demo_welcome demo_valid eq_refl eq_refl eq_refl (heard_by_send _ _ _ _ _))
      as [_ (e & q & O & X & _)]. exists e, q. split; [exact O|exact X].
  - destruct (open_session (heard_by demo_failing [] [] (y_records demo_y1).1) (y_client demo_y1)) as [[e q] log] eqn:O.
    apply (H1 (heard_by demo_failing [] [] (y_records demo_y1).1) e q log (recorded (y_records demo_y1) (exchange plain_hash demo_cfg demo_failing (session_post (y_client demo_y1)) (y_records demo_y1).1).2) O).
    assert (log = [session_post (y_client demo_y1)]) as -> by (transitivity (open_session (heard_by demo_failing [] [] (y_records demo_y1).1) (y_client demo_y1)).2; [by rewrite O|vm_compute; reflexivity]).
    apply carried_once; [done|apply heard_by_send].
Defined.
