(* ===== verification/MapUdp.v ===== *)
(** * Forwarded UDP

    The UDP half of src/sdk/c/remote/peer/mapping.c: queueing packets read from a socket,
    cutting them into fragments for QUIC datagrams, and reassembling fragments that arrive
    in any order, late, repeated or not at all.  The clock, the allocator, QUIC and the
    socket are arguments. *)

From S2P Require Import Prelude.

Definition M_DHEADER : Z := 28.
Definition M_FRAGMENT : Z := 512.
Definition M_UDP_MAX : Z := 65507.
Definition M_UDP_QUEUE : Z := 4.
Definition M_REASSEMBLY : Z := 4.
Definition M_PACKET_US : Z := 2000000.
Definition M_PACKET_TTL_US : Z := 1000000.

Definition m_expired (now timestamp limit : Z) : bool := (timestamp <=? now) && (limit <? now - timestamp).
Definition m_u16 (v : list Z) (at_ : Z) : Z := be_get (zsub at_ 2 v).
Definition m_u64 (v : list Z) (at_ : Z) : Z := be_get (zsub at_ 8 v).
Definition m_put16 (n : Z) : list Z := be_put 2 n.
Definition m_put64 (n : Z) : list Z := be_put 8 n.

Record m_udp_packet := UdpPacket { q_id : Z; q_created : Z; q_offset : Z; q_data : list Z }.
(** [bits]: the low half is bits[0], the high half bits[1]. *)
Record m_assembly := Assembly { a_id : Z; a_updated : Z; a_bits : Z; a_data : list Z; a_total : Z; a_received : Z }.
(** The fields of a flow that UDP uses; [None] is an empty assembly slot. *)
Record udp_flow := UdpFlow {
  u_id : Z; u_open : bool; u_local : bool; next_packet : Z; receive_high : Z; delivered : Z; u_last_io : Z; u_close_requested : bool;
  udp_queue : list m_udp_packet; assembly : list (option m_assembly) }.
#[export] Instance eta_packet : Eta m_udp_packet := fun q => UdpPacket (q_id q) (q_created q) (q_offset q) (q_data q).
#[export] Instance eta_assembly : Eta m_assembly := fun a =>
  Assembly (a_id a) (a_updated a) (a_bits a) (a_data a) (a_total a) (a_received a).
#[export] Instance eta_udp : Eta udp_flow := fun f => UdpFlow (u_id f) (u_open f) (u_local f) (next_packet f) (receive_high f)
  (delivered f) (u_last_io f) (u_close_requested f) (udp_queue f) (assembly f).

(** ** Sending *)

(** [now] is read when the packet is stored; [alloc_ok] is the allocator's answer. *)
Definition m_udp_enqueue (alloc_ok : bool) (now : Z) (data : list Z) (f : udp_flow) : udp_flow :=
  if (M_UDP_MAX <? zlen data) || (M_UDP_QUEUE <=? zlen (udp_queue f)) || (next_packet f =? UINT64_MAX) then f
  else if negb alloc_ok then f
  else
    let id := next_packet f + 1 in
    f <| next_packet := id |> <| udp_queue ::= fun q => q ++ [UdpPacket id now 0 data] |> <| u_last_io := now |>.
Definition m_udp_pop (f : udp_flow) : udp_flow := f <| udp_queue ::= tail |>.

(** The datagram for [len] bytes of packet [id] from [offset]. *)
#[local] Arguments lit : simpl never.
Definition fragment_wire (flow id offset len : Z) (data : list Z) : list Z :=
  lit "OBD1" ++ m_put64 flow ++ m_put64 id ++ m_put16 (zlen data) ++ m_put16 offset ++ m_put16 len ++ m_put16 0 ++
  zsub offset len data.
(** One round of the loop: the clock, the datagram size QUIC allows, the result of the send
    (1: try again later), and whether the flow was closed by a callback meanwhile. *)
Record flush_round := FlushRound { fr_now : Z; fr_mss : Z; fr_rc : Z; fr_closed : bool }.
(** The datagrams handed to QUIC with success, the remaining budget and the flow. *)
Fixpoint flush_loop (rounds : list flush_round) (budget per_flow : Z) (f : udp_flow) : list (list Z) * Z * udp_flow :=
  match rounds, udp_queue f with
  | r :: rounds, q :: _ =>
    if (budget =? 0) || (per_flow =? 0) then ([], budget, f)
    else if m_expired (fr_now r) (q_created q) M_PACKET_TTL_US then flush_loop rounds budget per_flow (m_udp_pop f)
    else if fr_mss r <? M_DHEADER + M_FRAGMENT then flush_loop rounds budget per_flow (m_udp_pop f)
    else
      let len := Z.min (zlen (q_data q) - q_offset q) M_FRAGMENT in
      let wire := fragment_wire (u_id f) (q_id q) (q_offset q) len (q_data q) in
      if fr_closed r then (if (fr_rc r =? 1) || (fr_rc r <? 0) then [] else [wire], budget, f <| u_close_requested := true |>)
      else if fr_rc r =? 1 then ([], budget, f)
      else if fr_rc r <? 0 then flush_loop rounds (budget - 1) (per_flow - 1) (m_udp_pop f)
      else
        let q := q <| q_offset ::= Z.add len |> in
        let f := if q_offset q =? zlen (q_data q) then m_udp_pop f else f <| udp_queue ::= fun l => q :: tail l |> in
        let '(out, b, f) := flush_loop rounds (budget - 1) (per_flow - 1) f in (wire :: out, b, f)
  | _, _ => ([], budget, f)
  end.
(** [ready]: the peer is ready and the flow has its stream. *)
Definition m_udp_flush (ready : bool) (rounds : list flush_round) (budget : Z) (f : udp_flow) : list (list Z) * Z * udp_flow :=
  if negb (u_open f) || u_close_requested f || negb ready then ([], budget, f) else flush_loop rounds budget 8 f.

(** What one [recv] of the target's socket returns. *)
Inductive recv_result := RecvData (v : list Z) | RecvAgain | RecvError.
(** [m_udp_target_read]: up to four packets; [None] is [m_abort]. *)
Fixpoint m_udp_target_read (reads : list (recv_result * bool * Z)) (n : nat) (f : udp_flow) : option udp_flow :=
  match n, reads with
  | S n, (RecvData v, alloc_ok, now) :: reads =>
    m_udp_target_read reads n (if zlen v <=? M_UDP_MAX then m_udp_enqueue alloc_ok now v f else f)
  | S _, (RecvAgain, _, _) :: _ => Some f
  | S _, (RecvError, _, _) :: _ => None
  | _, _ => Some f
  end.

(** ** Receiving *)

Record fragment := Fragment { g_flow : Z; g_packet : Z; g_total : Z; g_offset : Z; g_data : list Z }.
Definition g_size (g : fragment) : Z := zlen (g_data g).
(** The checks on a datagram before a flow is looked up. *)
Definition parse_fragment (v : list Z) : option fragment :=
  if (zlen v <? M_DHEADER) || negb (list_eqb (ztake 4 v) (lit "OBD1")) || negb (m_u16 v 26 =? 0) then None
  else
    let id := m_u64 v 4 in let packet := m_u64 v 12 in
    let total := m_u16 v 20 in let offset := m_u16 v 22 in let size := m_u16 v 24 in
    if (id =? 0) || (packet =? 0) || (M_UDP_MAX <? total) || (total <? offset) || (M_FRAGMENT <? size) ||
       negb (size =? zlen v - M_DHEADER) || negb (offset mod M_FRAGMENT =? 0) ||
       negb (size =? (if M_FRAGMENT <? total - offset then M_FRAGMENT else total - offset)) ||
       (negb (total =? 0) && (offset =? total)) then None
    else Some (Fragment id packet total offset (zdrop M_DHEADER v)).

(** The slots after dropping the expired ones. *)
Definition slot_expired (now high : Z) (a : m_assembly) : bool :=
  m_expired now (a_updated a) M_PACKET_US || ((a_id a <=? high) && (64 <=? high - a_id a)).
Definition expire_slots (now high : Z) (l : list (option m_assembly)) : list (option m_assembly) :=
  map (fun s => match s with Some a => if slot_expired now high a then None else s | None => None end) l.
Fixpoint find_slot (packet : Z) (l : list (option m_assembly)) (i : nat) : option (nat * m_assembly) :=
  match l with
  | [] => None
  | Some a :: l => match find_slot packet l (S i) with
                   | Some r => Some r
                   | None => if a_id a =? packet then Some (i, a) else None
                   end
  | None :: l => find_slot packet l (S i)
  end.
Fixpoint empty_slot (l : list (option m_assembly)) (i : nat) : option nat :=
  match l with [] => None | None :: _ => Some i | Some _ :: l => empty_slot l (S i) end.
(** memcpy into the assembly buffer. *)
Definition overlay (base : list Z) (offset : Z) (piece : list Z) : list Z :=
  ztake offset base ++ piece ++ zdrop (offset + zlen piece) base.

(** The window moves up to a new highest packet. *)
Definition advance (packet : Z) (f : udp_flow) : udp_flow :=
  if receive_high f <? packet then
    let shift := packet - receive_high f in
    f <| delivered := if 64 <=? shift then 0 else u64 (Z.shiftl (delivered f) shift) |> <| receive_high := packet |>
  else f.
(** The slot a fragment goes to. *)
Definition choose_slot (alloc_ok : bool) (g : fragment) (slots : list (option m_assembly)) : option (nat * m_assembly) :=
  match find_slot (g_packet g) slots 0 with
  | Some r => Some r
  | None => match empty_slot slots 0 with
            | None => None
            | Some i => if alloc_ok then Some (i, Assembly (g_packet g) 0 0 (replicate (Z.to_nat (g_total g)) 0) (g_total g) 0) else None
            end
  end.
(** A fragment for this flow arrives.  The packet to write to the socket, if it is
    complete, and the flow.  [sent] is the result of that write: 0 written, 1 would block,
    2 failed. *)
Definition receive_fragment (alloc_ok : bool) (now sent : Z) (g : fragment) (f : udp_flow) : option (list Z) * udp_flow :=
  let packet := g_packet g in
  let f := advance packet f in
  let behind := receive_high f - packet in
  if (64 <=? behind) || Z.testbit (delivered f) behind then (None, f)
  else
    let mark (f : udp_flow) := f <| delivered ::= fun d => Z.lor d (Z.shiftl 1 behind) |> in
    let slots := expire_slots now (receive_high f) (assembly f) in
    let f := f <| assembly := slots |> in
    match choose_slot alloc_ok g slots with
    | None => (None, f)
    | Some (i, a) =>
      let store (s : option m_assembly) (f : udp_flow) := f <| assembly ::= fun l => <[i := s]> l |> in
      if negb (a_total a =? g_total g) then (None, mark (store None f))
      else
        let index := g_offset g / M_FRAGMENT in
        if Z.testbit (a_bits a) index then
          if list_eqb (zsub (g_offset g) (g_size g) (a_data a)) (g_data g) then (None, store (Some a) f) else (None, mark (store None f))
        else
          let a := a <| a_data ::= fun d => overlay d (g_offset g) (g_data g) |> <| a_bits ::= fun b => Z.lor b (Z.shiftl 1 index) |>
                     <| a_received ::= Z.add (g_size g) |> <| a_updated := now |> in
          if negb (a_received a =? g_total g) then (None, store (Some a) f)
          else
            let f := if sent =? 0 then f <| u_last_io := now |>
                     else if (sent =? 2) && negb (u_local f) then f <| u_close_requested := true |> else f in
            (Some (a_data a), mark (store None f))
    end.
(** [m_udp_read] on the flow the datagram names; [ready] is the state of the peer. *)
Definition m_udp_read (ready alloc_ok : bool) (now sent : Z) (v : list Z) (f : udp_flow) : option (list Z) * udp_flow :=
  match (if ready then parse_fragment v else None) with
  | None => (None, f)
  | Some g =>
    if negb (g_flow g =? u_id f) || negb (u_open f) || u_close_requested f then (None, f)
    else receive_fragment alloc_ok now sent g f
  end.

(** ** A pair of flows and the network between them

    The sender's flow, every datagram QUIC accepted, and the receiver's flow.  QUIC never
    retransmits a datagram; it may lose, repeat, delay and reorder them: an arrival picks any
    datagram sent so far.  [accepted] lists the packets the sender numbered, in order, and
    [output] the packets written to the receiver's socket. *)
Record pair := Pair { sender : udp_flow; network : list (list Z); receiver : udp_flow; accepted : list (list Z); output : list (list Z) }.
#[export] Instance eta_pair : Eta pair := fun p => Pair (sender p) (network p) (receiver p) (accepted p) (output p).

Inductive pair_event :=
| PEnqueue (alloc_ok : bool) (now : Z) (data : list Z)
| PFlush (ready : bool) (rounds : list flush_round) (budget : Z)
| PArrive (datagram : nat) (ready alloc_ok : bool) (now sent : Z).

Definition pair_step (p : pair) (e : pair_event) : pair :=
  match e with
  | PEnqueue alloc_ok now data =>
    let f := m_udp_enqueue alloc_ok now data (sender p) in
    p <| sender := f |> <| accepted ::= fun l => if next_packet (sender p) <? next_packet f then l ++ [data] else l |>
  | PFlush ready rounds budget =>
    let r := m_udp_flush ready rounds budget (sender p) in
    p <| sender := r.2 |> <| network ::= fun l => l ++ r.1.1 |>
  | PArrive k ready alloc_ok now sent =>
    match network p !! k with
    | None => p
    | Some v =>
      let r := m_udp_read ready alloc_ok now sent v (receiver p) in
      p <| receiver := r.2 |> <| output ::= fun l => l ++ option_list r.1 |>
    end
  end.
Definition pair_run (p : pair) (es : list pair_event) : pair := fold_left pair_step es p.
(** Both flows as [m_flow_new] and the OPEN exchange leave them. *)
Definition new_udp_flow (id : Z) (local : bool) : udp_flow :=
  UdpFlow id true local 0 0 0 0 false [] (replicate (Z.to_nat M_REASSEMBLY) None).
Definition new_pair (id : Z) (local : bool) : pair := Pair (new_udp_flow id local) [] (new_udp_flow id (negb local)) [] [].

(** ** Fragments on the wire *)

Lemma zdrop_skip (pre w : list Z) at_ : zlen pre <= at_ -> zdrop at_ (pre ++ w) = zdrop (at_ - zlen pre) w.
Proof. unfold zdrop, zlen. intros. rewrite drop_app_ge by lia. f_equal. lia. Qed.
Lemma field16 (v : Z) (w : list Z) : 0 <= v < 65536 -> be_get (ztake 2 (zdrop 0 (m_put16 v ++ w))) = v.
Proof. intros. rewrite zdrop_0, ztake_app_exact by done. by apply be_get_put_small. Qed.
Lemma field64 (v : Z) (w : list Z) : 0 <= v <= UINT64_MAX -> be_get (ztake 8 (zdrop 0 (m_put64 v ++ w))) = v.
Proof.
  intros Hv. rewrite zdrop_0, ztake_app_exact by done. apply be_get_put_small.
  unfold UINT64_MAX in Hv. change (256 ^ Z.of_nat 8) with (2 ^ 64). lia.
Qed.

Lemma zlen_put16 v : zlen (m_put16 v) = 2.
Proof. apply be_put_zlen. Qed.
Lemma zlen_put64 v : zlen (m_put64 v) = 8.
Proof. apply be_put_zlen. Qed.

Section wire.
Context (flow id offset len : Z) (data : list Z).
Context (Hflow : 0 < flow <= UINT64_MAX) (Hid : 0 < id <= UINT64_MAX) (Hdata : zlen data <= M_UDP_MAX).
Context (Hoff : 0 <= offset <= zlen data) (Hlen : len = Z.min (zlen data - offset) M_FRAGMENT).

(** The field at an offset: skip the ones before it, read it back. *)
Ltac field lem :=
  unfold fragment_wire, m_u16, m_u64, zsub;
  repeat (rewrite zdrop_skip by (rewrite ?zlen_put64, ?zlen_put16; done); rewrite ?zlen_put64, ?zlen_put16);
  apply lem; change (zlen (lit "OBD1")) with 4; lia.

Lemma fragment_parses :
  offset mod M_FRAGMENT = 0 -> (zlen data = 0 \/ offset < zlen data) ->
  parse_fragment (fragment_wire flow id offset len data) = Some (Fragment flow id (zlen data) offset (zsub offset len data)).
Proof.
  intros Hmod Hne. unfold M_UDP_MAX, M_FRAGMENT in *. pose proof (zlen_nonneg data).
  assert (Hd : zlen (zsub offset len data) = len) by (apply zlen_sub; lia).
  assert (E1 : ztake 4 (fragment_wire flow id offset len data) = lit "OBD1") by (by apply ztake_app_exact).
  assert (E2 : m_u64 (fragment_wire flow id offset len data) 4 = flow) by field field64.
  assert (E3 : m_u64 (fragment_wire flow id offset len data) 12 = id) by field field64.
  assert (E4 : m_u16 (fragment_wire flow id offset len data) 20 = zlen data) by field field16.
  assert (E5 : m_u16 (fragment_wire flow id offset len data) 22 = offset) by field field16.
  assert (E6 : m_u16 (fragment_wire flow id offset len data) 24 = len) by field field16.
  assert (E7 : m_u16 (fragment_wire flow id offset len data) 26 = 0) by field field16.
  assert (E8 : zdrop 28 (fragment_wire flow id offset len data) = zsub offset len data) by field (@zdrop_0 Z).
  assert (E9 : zlen (fragment_wire flow id offset len data) = 28 + len).
  { unfold fragment_wire. rewrite !zlen_app, !zlen_put64, !zlen_put16, Hd. change (zlen (lit "OBD1")) with 4. lia. }
  unfold parse_fragment, M_DHEADER, M_UDP_MAX, M_FRAGMENT.
  rewrite E1, E2, E3, E4, E5, E6, E7, E8, E9, list_eqb_refl, Hmod.
  replace (28 + len <? 28) with false by lia. cbn [negb orb]. change (0 =? 0) with true. cbn [negb].
  match goal with |- (if ?b then _ else _) = _ => replace b with false; [done|symmetry] end.
  destruct (512 <? zlen data - offset) eqn:?; bools;
    rewrite !orb_false_iff, andb_false_iff, !negb_false_iff; split_and!; try lia.
Qed.
End wire.

(** ** Reassembly *)

(** The size of fragment [i] of a packet of [total] bytes. *)
Definition fsize (total i : Z) : Z := Z.max 0 (Z.min M_FRAGMENT (total - i * M_FRAGMENT)).
(** The bytes of the first [n] fragments whose bits are set. *)
Fixpoint marked (bits total : Z) (n : nat) : Z :=
  match n with O => 0 | S n => marked bits total n + (if Z.testbit bits (Z.of_nat n) then fsize total (Z.of_nat n) else 0) end.
Definition M_FRAGMENTS : nat := 128.

Lemma marked_le bits total n : 0 <= total -> marked bits total n <= Z.min total (Z.of_nat n * M_FRAGMENT).
Proof.
  intros Ht. induction n as [|n IH]; cbn [marked]; [lia|].
  unfold fsize, M_FRAGMENT in *. destruct Z.testbit; lia.
Qed.
Lemma marked_full bits total n i :
  0 <= total <= Z.of_nat n * M_FRAGMENT -> marked bits total n = total -> 0 <= i -> i * M_FRAGMENT < total -> Z.testbit bits i = true.
Proof.
  revert total; induction n as [|n IH]; intros total Ht E Hi Hlt; [unfold M_FRAGMENT in *; lia|].
  cbn [marked] in E. pose proof (marked_le bits total n ltac:(lia)).
  destruct (decide (i = Z.of_nat n)) as [->|Hn].
  - destruct (Z.testbit bits (Z.of_nat n)); [done|]. unfold M_FRAGMENT in *; lia.
  - assert (i < Z.of_nat n) by (unfold M_FRAGMENT in *; lia).
    assert (Hm : forall k, marked bits total k = Z.min total (Z.of_nat k * M_FRAGMENT) ->
                 i < Z.of_nat k -> Z.testbit bits i = true).
    { induction k as [|k IHk]; [lia|]. cbn [marked]. intros Ek Hk.
      pose proof (marked_le bits total k ltac:(lia)) as Hle.
      destruct (decide (i = Z.of_nat k)) as [->|].
      - destruct (Z.testbit bits (Z.of_nat k)); [done|]. unfold fsize, M_FRAGMENT in *; lia.
      - apply IHk; [|lia]. destruct (Z.testbit bits (Z.of_nat k)); unfold fsize, M_FRAGMENT in *; lia. }
    apply (Hm n); [|lia]. destruct (Z.testbit bits (Z.of_nat n)); unfold fsize, M_FRAGMENT in *; lia.
Qed.
Lemma marked_set bits total n i :
  0 <= i -> Z.testbit bits i = false ->
  marked (Z.lor bits (Z.shiftl 1 i)) total n = marked bits total n + (if i <? Z.of_nat n then fsize total i else 0).
Proof.
  intros Hi Hb. assert (E : forall k, 0 <= k -> Z.testbit (Z.lor bits (Z.shiftl 1 i)) k = Z.testbit bits k || (k =? i)).
  { intros k Hk. rewrite Z.lor_spec, Z.shiftl_1_l, Z.pow2_bits_eqb by lia. by rewrite Z.eqb_sym. }
  induction n as [|n IH]; cbn [marked].
  - destruct (Z.ltb_spec i (Z.of_nat 0)); lia.
  - rewrite IH, E by lia. destruct (Z.eqb_spec (Z.of_nat n) i) as [<-|].
    + rewrite Hb, orb_true_r. destruct (Z.ltb_spec (Z.of_nat n) (Z.of_nat n)), (Z.ltb_spec (Z.of_nat n) (Z.of_nat (S n))); lia.
    + rewrite orb_false_r. destruct (Z.ltb_spec i (Z.of_nat n)), (Z.ltb_spec i (Z.of_nat (S n))); lia.
Qed.

Lemma lookup_overlay (base : list Z) offset (piece : list Z) (p : nat) :
  0 <= offset -> offset + zlen piece <= zlen base ->
  overlay base offset piece !! p =
    if (offset <=? Z.of_nat p) && (Z.of_nat p <? offset + zlen piece) then piece !! (p - Z.to_nat offset)%nat else base !! p.
Proof.
  intros Ho Hl. unfold overlay, ztake, zdrop, zlen in *.
  destruct (Z.leb_spec offset (Z.of_nat p)), (Z.ltb_spec (Z.of_nat p) (offset + Z.of_nat (length piece))); cbn [andb].
  - rewrite lookup_app_r, length_take_le by (rewrite ?length_take; lia). by rewrite lookup_app_l by lia.
  - rewrite lookup_app_r, length_take_le by (rewrite ?length_take; lia). rewrite lookup_app_r, lookup_drop by lia. f_equal. lia.
  - rewrite lookup_app_l by (rewrite length_take; lia). by rewrite lookup_take_lt by lia.
  - lia.
Qed.
Lemma zlen_overlay (base : list Z) offset (piece : list Z) :
  0 <= offset -> offset + zlen piece <= zlen base -> zlen (overlay base offset piece) = zlen base.
Proof. intros. unfold overlay. pose proof (zlen_nonneg piece). rewrite !zlen_app, zlen_take, zlen_drop. lia. Qed.
Lemma lookup_zsub (l : list Z) offset len (p : nat) :
  0 <= offset -> offset <= Z.of_nat p < offset + len -> zsub offset len l !! (p - Z.to_nat offset)%nat = l !! p.
Proof. intros. unfold zsub, ztake, zdrop. rewrite lookup_take_lt, lookup_drop by lia. f_equal. lia. Qed.

(** Packet [id] of the sender is [data]. *)
Definition packet_is (acc : list (list Z)) (id : Z) (data : list Z) : Prop := 1 <= id /\ acc !! Z.to_nat (id - 1) = Some data.

(** A fragment cut from a packet of the sender. *)
Definition genuine (acc : list (list Z)) (g : fragment) : Prop :=
  exists data, packet_is acc (g_packet g) data /\ g_total g = zlen data /\ zlen data <= M_UDP_MAX /\
    g_offset g mod M_FRAGMENT = 0 /\ 0 <= g_offset g <= zlen data /\ (zlen data = 0 \/ g_offset g < zlen data) /\
    g_data g = zsub (g_offset g) (Z.min (zlen data - g_offset g) M_FRAGMENT) data.

(** A slot holds the bytes of its packet wherever its bits say so. *)
Definition slot_inv (acc : list (list Z)) (a : m_assembly) : Prop :=
  exists data, packet_is acc (a_id a) data /\ a_total a = zlen data /\ zlen data <= M_UDP_MAX /\ zlen (a_data a) = zlen data /\
    a_received a = marked (a_bits a) (zlen data) M_FRAGMENTS /\
    (forall p : nat, Z.of_nat p < zlen data -> Z.testbit (a_bits a) (Z.of_nat p / M_FRAGMENT) = true -> a_data a !! p = data !! p).

Lemma packet_is_inj acc id d d' : packet_is acc id d -> packet_is acc id d' -> d = d'.
Proof. intros [_ H] [_ H']. congruence. Qed.
Lemma packet_is_app acc l id d : packet_is acc id d -> packet_is (acc ++ l) id d.
Proof. intros [H1 H2]. split; [done|]. by apply lookup_app_l_Some. Qed.
Lemma genuine_app acc l g : genuine acc g -> genuine (acc ++ l) g.
Proof. intros (d & H & H'). exists d. split; [by apply packet_is_app|done]. Qed.
Lemma slot_inv_app acc l a : slot_inv acc a -> slot_inv (acc ++ l) a.
Proof. intros (d & H & H'). exists d. split; [by apply packet_is_app|done]. Qed.

Lemma genuine_size acc g data : genuine acc g -> packet_is acc (g_packet g) data ->
  g_total g = zlen data /\ g_size g = fsize (zlen data) (g_offset g / M_FRAGMENT) /\ 0 <= g_offset g / M_FRAGMENT < Z.of_nat M_FRAGMENTS /\
  g_offset g + g_size g <= zlen data.
Proof.
  intros (d & Hp & Ht & Hmax & Hmod & Ho & Hne & Hd) Hp'. rewrite (packet_is_inj _ _ _ _ Hp' Hp) in *. clear Hp'.
  unfold g_size. rewrite Hd, zlen_sub by (unfold M_FRAGMENT; lia). unfold fsize, M_FRAGMENTS, M_UDP_MAX, M_FRAGMENT in *.
  split; [done|]. Z.div_mod_to_equations. lia.
Qed.

#[local] Arguments marked : simpl never.
#[local] Arguments overlay : simpl never.

(** Storing a genuine fragment in its slot keeps the slot. *)
Lemma slot_store acc g a :
  genuine acc g -> slot_inv acc a -> a_id a = g_packet g -> Z.testbit (a_bits a) (g_offset g / M_FRAGMENT) = false ->
  forall now, slot_inv acc (a <| a_data ::= fun d => overlay d (g_offset g) (g_data g) |>
                   <| a_bits ::= fun b => Z.lor b (Z.shiftl 1 (g_offset g / M_FRAGMENT)) |>
                   <| a_received ::= Z.add (g_size g) |> <| a_updated := now |>).
Proof.
  intros Hg (data & Hp & Ht & Hmax & Hlen & Hr & Hbits) Hid Hbit now. rewrite Hid in Hp.
  destruct (genuine_size _ _ _ Hg Hp) as (Hgt & Hsz & Hi & Hfit).
  destruct Hg as (d & Hp' & _ & _ & Hmod & Ho & Hne & Hd). rewrite <- (packet_is_inj _ _ _ _ Hp Hp') in *. clear d Hp'.
  exists data. cbn. rewrite Hid. unfold g_size in *. split; [done|]. split; [done|]. split; [done|].
  split; [by rewrite zlen_overlay by lia|]. split.
  { rewrite marked_set by (lia || done). replace (_ <? Z.of_nat M_FRAGMENTS) with true by lia. lia. }
  intros p Hp0. rewrite Z.lor_spec, Z.shiftl_1_l, Z.pow2_bits_eqb by lia. intros Hb.
  rewrite lookup_overlay by lia.
  destruct ((_ <=? _) && _) eqn:E; bools.
  - rewrite Hd. apply lookup_zsub; [lia|]. rewrite Hd in *. rewrite zlen_sub in * by (unfold M_FRAGMENT; lia). lia.
  - apply Hbits; [done|]. apply orb_prop in Hb as [Hb|Hb]; [done|]. exfalso. bools.
    apply andb_false_iff in E. rewrite Hsz in E. unfold fsize, M_FRAGMENT in *.
    destruct E; bools; Z.div_mod_to_equations; lia.
Qed.
(** A complete slot holds its packet. *)
Lemma slot_complete acc a : slot_inv acc a -> a_received a = a_total a -> packet_is acc (a_id a) (a_data a).
Proof.
  intros (data & Hp & Ht & Hmax & Hlen & Hr & Hbits) E. replace (a_data a) with data; [done|].
  apply list_eq. intros p. destruct (decide (Z.of_nat p < zlen data)) as [Hlt|Hge].
  - symmetry. apply Hbits; [done|]. apply (marked_full _ (zlen data) M_FRAGMENTS).
    + unfold M_FRAGMENTS, M_FRAGMENT, M_UDP_MAX in *. pose proof (zlen_nonneg data). lia.
    + lia.
    + unfold M_FRAGMENT. Z.div_mod_to_equations. lia.
    + unfold M_FRAGMENT in *. Z.div_mod_to_equations. lia.
  - unfold zlen in *. rewrite !lookup_ge_None_2 by lia. done.
Qed.

(** [ids] were delivered: none of them can be delivered again. *)
Definition seen (f : udp_flow) (id : Z) : Prop :=
  1 <= id <= receive_high f /\ (64 <= receive_high f - id \/ Z.testbit (delivered f) (receive_high f - id) = true).
Definition slots_inv (acc : list (list Z)) (l : list (option m_assembly)) : Prop := forall a, Some a ∈ l -> slot_inv acc a.
Definition recv_inv (acc : list (list Z)) (ids : list Z) (f : udp_flow) : Prop :=
  slots_inv acc (assembly f) /\ Forall (seen f) ids.

Lemma seen_advance packet f id : seen f id -> seen (advance packet f) id.
Proof.
  unfold seen, advance. destruct (Z.ltb_spec (receive_high f) packet); [|done]. cbn.
  intros [Hr Hs]. split; [lia|]. destruct (decide (64 <= packet - id)); [by left|right].
  destruct (Z.leb_spec 64 (packet - receive_high f)); [lia|]. unfold u64. rewrite Z.mod_pow2_bits_low by lia.
  rewrite Z.shiftl_spec by lia. replace (packet - id - _) with (receive_high f - id) by lia. destruct Hs; [lia|done].
Qed.
Lemma seen_mark f d id :
  seen f id -> seen (f <| delivered ::= fun b => Z.lor b (Z.shiftl 1 d) |>) id.
Proof. unfold seen; cbn. intros [? [?|H]]; (split; [done|]); [by left|right]. by rewrite Z.lor_spec, H. Qed.

Lemma expire_slots_inv acc now high l : slots_inv acc l -> slots_inv acc (expire_slots now high l).
Proof.
  intros H a. unfold expire_slots. rewrite list_elem_of_In, in_map_iff. intros ([b|] & E & Hin%list_elem_of_In); [|done].
  destruct slot_expired; [done|]. by apply H; rewrite <- E.
Qed.
Lemma find_slot_spec packet l k i a : find_slot packet l k = Some (i, a) -> a_id a = packet /\ Some a ∈ l.
Proof.
  revert k; induction l as [|[b|] l IH]; intros k; cbn [find_slot]; [done| |].
  - destruct (find_slot packet l (S k)) as [[]|] eqn:E.
    + intros [= -> ->]. destruct (IH _ E). by rewrite elem_of_cons; auto.
    + destruct (Z.eqb_spec (a_id b) packet); [|done]. intros [= _ ->]. by rewrite elem_of_cons; auto.
  - intros E. destruct (IH _ E). by rewrite elem_of_cons; auto.
Qed.
Lemma slots_inv_insert acc l i s : slots_inv acc l -> (forall a, s = Some a -> slot_inv acc a) -> slots_inv acc (<[i := s]> l).
Proof.
  intros Hl Hs a Ha. apply list_elem_of_lookup in Ha as [j Hj].
  destruct (decide (i = j)) as [->|]; [|apply Hl; rewrite list_lookup_insert_ne in Hj by done; by apply list_elem_of_lookup_2 in Hj].
  destruct (decide (j < length l)%nat) as [Hlt|].
  - rewrite list_lookup_insert_eq in Hj by done. by apply Hs; congruence.
  - apply lookup_lt_Some in Hj. rewrite length_insert in Hj. lia.
Qed.

(** An empty assembly for a genuine fragment. *)
Lemma slot_fresh acc g : genuine acc g -> slot_inv acc (Assembly (g_packet g) 0 0 (replicate (Z.to_nat (g_total g)) 0) (g_total g) 0).
Proof.
  intros (data & Hp & Ht & Hmax & _). exists data. cbn [a_id a_total a_data a_received a_bits]. rewrite Ht.
  split; [done|]. split; [done|]. split; [done|].
  split; [unfold zlen; rewrite length_replicate; lia|]. split; [|by intros p _; rewrite Z.bits_0].
  symmetry. assert (H : forall n, marked 0 (zlen data) n = 0); [|done].
  induction n as [|n IH]; [done|]. change (marked 0 (zlen data) n + (if Z.testbit 0 (Z.of_nat n) then fsize (zlen data) (Z.of_nat n) else 0) = 0).
  by rewrite IH, Z.bits_0.
Qed.

(** The result of one fragment: the packet delivered, if any, is the sender's and was not
    delivered before. *)
Definition recv_post (acc : list (list Z)) (ids : list Z) (packet : Z) (r : option (list Z) * udp_flow) : Prop :=
  match r.1 with
  | None => recv_inv acc ids r.2
  | Some d => packet_is acc packet d /\ (packet ∉ ids) /\ recv_inv acc (packet :: ids) r.2
  end.

Lemma choose_slot_inv acc alloc_ok g slots i a :
  genuine acc g -> slots_inv acc slots -> choose_slot alloc_ok g slots = Some (i, a) -> slot_inv acc a /\ a_id a = g_packet g.
Proof.
  intros Hg Hs. unfold choose_slot. destruct find_slot as [[j b]|] eqn:E.
  - intros [= -> ->]. apply find_slot_spec in E as [? ?]. split; [by apply Hs|done].
  - destruct empty_slot, alloc_ok; [|done..]. intros [= _ <-]. split; [by apply slot_fresh|done].
Qed.

Lemma recv_inv_eq acc ids f f' :
  recv_inv acc ids f -> receive_high f' = receive_high f -> delivered f' = delivered f -> slots_inv acc (assembly f') -> recv_inv acc ids f'.
Proof. unfold recv_inv, seen. intros [_ H] -> -> ?. by split. Qed.
Lemma recv_inv_mark acc ids f d : recv_inv acc ids f -> recv_inv acc ids (f <| delivered ::= fun b => Z.lor b (Z.shiftl 1 d) |>).
Proof. intros [Hs H]. split; [done|]. eapply Forall_impl; [intros; by apply seen_mark|exact H]. Qed.

Lemma receive_fragment_inv acc ids alloc_ok now sent g f :
  genuine acc g -> 1 <= g_packet g -> recv_inv acc ids f -> recv_post acc ids (g_packet g) (receive_fragment alloc_ok now sent g f).
Proof.
  intros Hg H1 [Hs Hids]. unfold receive_fragment. cbv zeta.
  assert (Hs' : slots_inv acc (assembly (advance (g_packet g) f))) by (unfold advance; by destruct Z.ltb).
  assert (Hids' : Forall (seen (advance (g_packet g) f)) ids) by (eapply Forall_impl; [intros; by apply seen_advance|exact Hids]).
  assert (Hhigh : g_packet g <= receive_high (advance (g_packet g) f)) by (unfold advance; destruct Z.ltb eqn:?; bools; cbn; lia).
  generalize dependent (advance (g_packet g) f). clear f Hs Hids. intros f Hs Hids Hhigh.
  destruct (_ || Z.testbit _ _) eqn:Hold; [by split|]. apply orb_false_iff in Hold as [Hb Ht]. bools.
  apply (expire_slots_inv acc now (receive_high f)) in Hs as He.
  set (slots := expire_slots now (receive_high f) (assembly f)) in *.
  destruct (choose_slot alloc_ok g slots) as [[i a]|] eqn:Ha; [|by split].
  destruct (choose_slot_inv _ _ _ _ _ _ Hg He Ha) as [Hinv Hid].
  assert (Hdrop : forall h, receive_high h = receive_high f -> delivered h = delivered f -> assembly h = slots ->
            recv_inv acc ids (h <| assembly ::= fun l => <[i := None]> l |>)).
  { intros h E1 E2 E3. apply (recv_inv_eq _ _ f); [by split|done..|]. cbn. rewrite E3. by apply slots_inv_insert. }
  assert (Hkeep : forall b, slot_inv acc b -> recv_inv acc ids (f <| assembly := slots |> <| assembly ::= fun l => <[i := Some b]> l |>)).
  { intros b Hi. apply (recv_inv_eq _ _ f); [by split|done..|]. apply slots_inv_insert; [done|]. by intros ? [= <-]. }
  destruct (negb (a_total a =? g_total g)) eqn:Etot; [apply recv_inv_mark; by apply Hdrop|].
  destruct (Z.testbit (a_bits a) _) eqn:Ebit.
  { destruct list_eqb; [by apply Hkeep|apply recv_inv_mark; by apply Hdrop]. }
  pose proof (slot_store acc g a Hg Hinv Hid Ebit now) as Hst.
  set (a' := a <| a_data ::= _ |> <| a_bits ::= _ |> <| a_received ::= _ |> <| a_updated := now |>) in *.
  assert (Etot' : a_total a' = a_total a) by done. assert (Eid : a_id a' = g_packet g) by done. clearbody a'.
  destruct (negb (a_received a' =? g_total g)) eqn:Erec; [by apply Hkeep|]. bools.
  split; [rewrite <- Eid; apply slot_complete; [done|lia]|]. split.
  { intros Hin. rewrite Forall_forall in Hids. apply list_elem_of_In in Hin. destruct (Hids _ Hin) as [? [?|?]]; [lia|congruence]. }
  match goal with |- recv_inv _ _ (_, upd delivered _ (upd assembly _ ?h)).2 => set (f' := h) end.
  assert (Hf : receive_high f' = receive_high f /\ delivered f' = delivered f /\ assembly f' = slots)
    by (unfold f'; destruct (sent =? 0); [done|by destruct (_ && _)]).
  clearbody f'. destruct Hf as (E1 & E2 & E3).
  destruct (recv_inv_mark _ _ _ (receive_high f - g_packet g) (Hdrop f' E1 E2 E3)) as [Hd1 Hd2].
  split; [exact Hd1|]. constructor; [|exact Hd2]. unfold seen. cbn. rewrite E1. split; [lia|right].
  rewrite Z.lor_spec, Z.shiftl_1_l, Z.pow2_bits_true by lia. apply orb_true_r.
Qed.

(** ** The sender *)

Definition queued_ok (acc : list (list Z)) (q : m_udp_packet) : Prop :=
  packet_is acc (q_id q) (q_data q) /\ zlen (q_data q) <= M_UDP_MAX /\ q_offset q mod M_FRAGMENT = 0 /\
  0 <= q_offset q <= zlen (q_data q) /\ (zlen (q_data q) = 0 \/ q_offset q < zlen (q_data q)).
Definition send_inv (flow : Z) (acc : list (list Z)) (f : udp_flow) : Prop :=
  u_id f = flow /\ next_packet f = zlen acc /\ zlen acc <= UINT64_MAX /\ Forall (queued_ok acc) (udp_queue f).
(** A datagram that parses to a genuine fragment of the flow. *)
Definition wire_ok (flow : Z) (acc : list (list Z)) (v : list Z) : Prop :=
  exists g, parse_fragment v = Some g /\ g_flow g = flow /\ genuine acc g.

Lemma queued_ok_app acc l q : queued_ok acc q -> queued_ok (acc ++ l) q.
Proof. intros [H H']. split; [by apply packet_is_app|done]. Qed.
Lemma wire_ok_app flow acc l v : wire_ok flow acc v -> wire_ok flow (acc ++ l) v.
Proof. intros (g & H & H' & Hg). exists g. split; [done|split; [done|by apply genuine_app]]. Qed.
Lemma packet_is_range acc id d : packet_is acc id d -> 1 <= id <= zlen acc.
Proof. intros [H1 H2]. apply lookup_lt_Some in H2. unfold zlen. lia. Qed.

Lemma queued_wire flow acc q :
  0 < flow <= UINT64_MAX -> zlen acc <= UINT64_MAX -> queued_ok acc q ->
  wire_ok flow acc (fragment_wire flow (q_id q) (q_offset q) (Z.min (zlen (q_data q) - q_offset q) M_FRAGMENT) (q_data q)).
Proof.
  intros Hf Ha (Hp & Hm & Hmod & Ho & Hne). pose proof (packet_is_range _ _ _ Hp).
  eexists. rewrite fragment_parses by (done || lia). split; [done|]. split; [done|]. exists (q_data q). cbn. split_and!; try done; lia.
Qed.
Lemma queued_advance acc q :
  queued_ok acc q -> let len := Z.min (zlen (q_data q) - q_offset q) M_FRAGMENT in
  q_offset q + len <> zlen (q_data q) -> queued_ok acc (q <| q_offset ::= Z.add len |>).
Proof.
  intros (Hp & Hm & Hmod & Ho & Hne) len Hn. unfold queued_ok. cbn. unfold len, M_FRAGMENT in *.
  split; [done|]. split; [done|]. split; [|lia]. Z.div_mod_to_equations. lia.
Qed.
Lemma send_pop flow acc f : send_inv flow acc f -> send_inv flow acc (m_udp_pop f).
Proof. intros (? & ? & ? & Hq). split_and!; try done. unfold m_udp_pop; cbn. by destruct Hq; [|done]. Qed.

Lemma flush_loop_inv flow acc rounds budget per_flow f :
  0 < flow <= UINT64_MAX -> send_inv flow acc f ->
  let r := flush_loop rounds budget per_flow f in Forall (wire_ok flow acc) r.1.1 /\ send_inv flow acc r.2.
Proof.
  intros Hflow. revert budget per_flow f. induction rounds as [|r rounds IH]; intros budget per_flow f Hf; [by split; [constructor|]|].
  cbn [flush_loop]. destruct (udp_queue f) as [|q l] eqn:Eq; [by split; [constructor|]|].
  destruct (_ || _); [by split; [constructor|]|].
  destruct m_expired; [by apply IH, send_pop|]. destruct (_ <? _); [by apply IH, send_pop|]. cbv zeta.
  pose proof Hf as (Hid & Hn & Hmax & Hq). rewrite Eq in Hq. inversion Hq as [|? ? Hq1 Hq2]; subst.
  destruct (fr_closed r).
  { split; [|done]. destruct (_ || _); [constructor|]. constructor; [by apply queued_wire|constructor]. }
  destruct (fr_rc r =? 1); [by split; [constructor|]|]. destruct (fr_rc r <? 0); [by apply IH, send_pop|].
  set (len := Z.min (zlen (q_data q) - q_offset q) M_FRAGMENT).
  match goal with |- context [flush_loop rounds _ _ ?h] => assert (Hh : send_inv (u_id f) acc h) end.
  { destruct (_ =? _) eqn:E; bools; [by apply send_pop|].
    split_and!; try done. cbn. rewrite Eq. constructor; [|done]. apply queued_advance; [done|]. cbn in E. unfold len in *. lia. }
  match goal with |- context [flush_loop rounds ?b ?p ?h] => specialize (IH b p h Hh) as [IH1 IH2]; destruct (flush_loop rounds b p h) as [[out b'] f'] end.
  split; [|done]. constructor; [|done]. by apply queued_wire.
Qed.

Lemma enqueue_inv flow acc alloc_ok now data f :
  send_inv flow acc f -> let f' := m_udp_enqueue alloc_ok now data f in
  send_inv flow (if next_packet f <? next_packet f' then acc ++ [data] else acc) f'.
Proof.
  intros Hf. unfold m_udp_enqueue. destruct (_ || _) eqn:E; [by rewrite Z.ltb_irrefl|].
  destruct alloc_ok; [|by rewrite Z.ltb_irrefl]. cbv zeta. cbn. replace (_ <? _) with true by lia.
  destruct Hf as (Hid & Hn & Hmax & Hq). bools. pose proof (zlen_nonneg acc). unfold send_inv. cbn. rewrite zlen_snoc.
  split; [done|]. split; [lia|]. split; [lia|]. apply Forall_app. split; [by eapply Forall_impl; [intros; by apply queued_ok_app|]|].
  constructor; [|constructor]. unfold queued_ok, packet_is. cbn. pose proof (zlen_nonneg data).
  split; [|split; [done|split; [done|lia]]]. split; [lia|]. rewrite lookup_app_r by (unfold zlen in *; lia).
  replace (Z.to_nat _ - length acc)%nat with 0%nat by (unfold zlen in *; lia). done.
Qed.

(** ** The pair *)

Definition pair_inv (flow : Z) (ids : list Z) (p : pair) : Prop :=
  send_inv flow (accepted p) (sender p) /\ Forall (wire_ok flow (accepted p)) (network p) /\
  recv_inv (accepted p) ids (receiver p) /\ NoDup ids /\ Forall2 (packet_is (accepted p)) (rev ids) (output p).

Lemma recv_inv_app acc l ids f : recv_inv acc ids f -> recv_inv (acc ++ l) ids f.
Proof. intros [H H']. split; [|done]. intros a Ha. by apply slot_inv_app, H. Qed.
Lemma wire_arrives flow acc ids ready alloc_ok now sent v f :
  wire_ok flow acc v -> recv_inv acc ids f ->
  exists packet, recv_post acc ids packet (m_udp_read ready alloc_ok now sent v f).
Proof.
  intros (g & Hp & Hfl & Hg) Hr. exists (g_packet g). unfold m_udp_read. destruct ready; [|done]. rewrite Hp.
  destruct (_ || _); [done|]. apply receive_fragment_inv; [done| |done]. destruct Hg as (d & [H _] & _). done.
Qed.

Lemma pair_step_inv flow ids p e :
  0 < flow <= UINT64_MAX -> pair_inv flow ids p -> exists ids', pair_inv flow ids' (pair_step p e).
Proof.
  intros Hflow (Hsend & Hnet & Hrecv & Hnd & Hout). destruct e as [ok now data|ready rounds budget|k ready ok now sent]; cbn [pair_step].
  - pose proof (enqueue_inv flow (accepted p) ok now data (sender p) Hsend) as H. cbv zeta in *.
    exists ids. unfold pair_inv. cbn. destruct (_ <? _); [|by split_and!].
    split_and!; [done| | |done|].
    + eapply Forall_impl; [intros; by apply wire_ok_app|done].
    + by apply recv_inv_app.
    + eapply Forall2_impl; [|exact Hout]. intros; by apply packet_is_app.
  - exists ids. unfold m_udp_flush, pair_inv. destruct (_ || _).
    + cbn. rewrite app_nil_r. by split_and!.
    + destruct (flush_loop_inv flow (accepted p) rounds budget 8 (sender p) Hflow Hsend) as [H1 H2]. cbn. cbv zeta in *.
      split_and!; try done. by apply Forall_app.
  - destruct (network p !! k) as [v|] eqn:Ek; [|by exists ids].
    assert (Hv : wire_ok flow (accepted p) v) by (rewrite Forall_forall in Hnet; apply Hnet, list_elem_of_In; by eapply list_elem_of_lookup_2).
    destruct (wire_arrives flow (accepted p) ids ready ok now sent v (receiver p) Hv Hrecv) as [packet Hpost].
    unfold recv_post in Hpost. cbv zeta. destruct (m_udp_read ready ok now sent v (receiver p)) as [[d|] f']; cbn [fst snd option_list] in *.
    + destruct Hpost as (Hd & Hni & Hi). exists (packet :: ids). unfold pair_inv. cbn. split_and!; try done.
      * by constructor.
      * apply Forall2_app; [done|]. by constructor.
    + exists ids. unfold pair_inv. cbn. rewrite app_nil_r. by split_and!.
Qed.
Lemma pair_run_inv flow es p ids :
  0 < flow <= UINT64_MAX -> pair_inv flow ids p -> exists ids', pair_inv flow ids' (pair_run p es).
Proof.
  intros Hflow. revert p ids. induction es as [|e es IH]; intros p ids Hp; [by exists ids|].
  destruct (pair_step_inv flow ids p e Hflow Hp) as [ids' H]. by apply (IH _ ids').
Qed.
Lemma new_pair_inv flow local : pair_inv flow [] (new_pair flow local).
Proof.
  unfold pair_inv. cbn. split_and!; try constructor; try done.
  intros a Ha. by repeat (apply elem_of_cons in Ha as [|Ha]; [done|]); apply not_elem_of_nil in Ha.
Qed.

(** C9: Whatever the sender is given, however QUIC loses, repeats, delays and reorders the
    datagrams, and whatever the clocks, the allocator and the sockets answer: every packet
    written to the receiving socket is, byte for byte, one packet the sender accepted, and
    no accepted packet is written twice. *)
Theorem udp_intact_once flow local es :
  0 < flow <= UINT64_MAX ->
  let p := pair_run (new_pair flow local) es in
  exists packets : list nat, NoDup packets /\ Forall2 (fun k d => accepted p !! k = Some d) packets (output p).
Proof.
  intros Hflow p. destruct (pair_run_inv flow es _ [] Hflow (new_pair_inv flow local)) as (ids & _ & _ & _ & Hnd & Hout).
  fold p in Hout. exists (map (fun id => Z.to_nat (id - 1)) (rev ids)). split.
  - apply NoDup_fmap_2_strong; [|by apply NoDup_ListNoDup, NoDup_rev, NoDup_ListNoDup].
    intros x y Hx Hy E. assert (Hpos : forall z, z ∈ rev ids -> 1 <= z).
    { intros z Hz. apply list_elem_of_lookup in Hz as [i Hi]. destruct (Forall2_lookup_l _ _ _ _ _ Hout Hi) as (d & _ & [? _]). done. }
    apply Hpos in Hx, Hy. lia.
  - apply Forall2_fmap_l. eapply Forall2_impl; [|exact Hout]. by intros x y [_ ?].
Qed.

(** Two packets, one of two fragments, arriving out of order with a repetition. *)
Definition udp_demo_events : list pair_event :=
  [PEnqueue true 5 (replicate 600 7); PEnqueue true 6 [1; 2; 3];
   PFlush true (replicate 3 (FlushRound 10 1200 0 false)) 64;
   PArrive 1 true true 20 0; PArrive 2 true true 21 0; PArrive 2 true true 22 0; PArrive 0 true true 23 0; PArrive 1 true true 24 0].
Lemma udp_demo_output : output (pair_run (new_pair 3 true) udp_demo_events) = [[1; 2; 3]; replicate 600 7].
Proof. vm_compute. reflexivity. Qed.
Lemma udp_intact_once_witness :
  output (pair_run (new_pair 3 true) udp_demo_events) = [[1; 2; 3]; replicate 600 7] /\
  exists packets : list nat, NoDup packets /\
    Forall2 (fun k d => accepted (pair_run (new_pair 3 true) udp_demo_events) !! k = Some d) packets
      (output (pair_run (new_pair 3 true) udp_demo_events)).
Proof. split; [exact udp_demo_output|]. apply (udp_intact_once 3 true udp_demo_events). unfold UINT64_MAX. lia. Defined.
