(* ===== verification/MapFlow.v ===== *)
(** * Flows of the mapping layer

    The data of src/sdk/c/remote/peer/mapping.c, its control frames and the operations on a
    single flow that both wire versions share.  A flow is one forwarded connection (TCP), one
    UDP association, or the proof stream.  Every call a flow makes on the peer, QUIC or a
    socket is an [effect], in order; their results are arguments. *)

From S2P Require Import Prelude Peer MapUdp.

Definition M_HEADER : Z := 16.
Definition M_PROOF : Z := 1.
Definition M_OPEN : Z := 2.
Definition M_ACK : Z := 3.
Definition M_RESUME : Z := 4.
Definition M_RESUME_ACK : Z := 5.
Definition M_RESUME_SIZE : Z := 40.
Definition M_V2_HEADER : Z := 24.
Definition M_V2_DATA : Z := 1.
Definition M_V2_ACK : Z := 2.
Definition M_V2_FIN : Z := 3.
Definition M_MEMORY : Z := 16 * 1024 * 1024.
Definition M_MAPS : Z := 128.
Definition M_FLOWS : Z := 512.
Definition M_SETUP_US : Z := 10000000.
Definition M_IO_BUDGET : Z := 16384.
Definition OB_STREAM_BUFFER : Z := 65536.

Inductive m_phase := M_CONTROL | M_RESOLVING | M_CONNECTING | M_REPLY_PHASE | M_ACTIVE | M_DEAD.
#[export] Instance m_phase_eq : EqDecision m_phase.
Proof. solve_decision. Defined.

(** An address as [m_source_equal] compares it. *)
Inductive sockaddr := Inet (port addr : Z) | Inet6 (port scope : Z) (addr : list Z) | OtherFamily.
#[export] Instance sockaddr_eq : EqDecision sockaddr.
Proof. solve_decision. Defined.
Definition m_source_equal (a b : sockaddr) : bool :=
  match a, b with
  | Inet p x, Inet q y => (p =? q) && (x =? y)
  | Inet6 p s x, Inet6 q t y => (p =? q) && (s =? t) && list_eqb x y
  | _, _ => false
  end.

(** ** The flow

    [f_key] stands for the address of the structure.  A buffer of [len] bytes of which
    [pos] are done is a list and a position; [f_tx] and [f_rx] are [None] before
    [m_tcp_buffers].  [f_fd] tells whether the descriptor is open. *)
Record mflow := MFlow {
  f_key : nat; f_map : option nat; f_stream : bool; f_id : Z; f_created : Z; f_last_io : Z;
  f_fd : bool; f_local : bool; f_proof : bool; f_close_requested : bool; f_close_sent : bool;
  f_socket_eof : bool; f_stream_eof : bool; f_sent_fin : bool; f_socket_shutdown : bool;
  f_acked : bool; f_reject_after_reply : bool; f_proof_reply_ready : bool; f_protocol : Z; f_phase : m_phase; f_source : sockaddr;
  f_control : list Z; f_control_need : Z; f_reply : list Z; f_reply_pos : Z;
  f_tx : option (list Z); f_rx : option (list Z); f_tx_pos : Z; f_rx_pos : Z;
  f_generation : Z; f_grace : Z; f_tx_base : Z; f_tx_sent_high : Z; f_rx_commit : Z; f_rx_next : Z; f_tx_final : Z; f_rx_final : Z;
  f_wire_version : Z; f_transient : bool; f_suspended : bool; f_pending_open : bool; f_waiting_resume : bool; f_resuming : bool;
  f_rx_fin : bool; f_rx_fin_applied : bool; f_tx_fin_acked : bool; f_ack_dirty : bool;
  f_in_frame : list Z; f_out_frame : list Z; f_in_size : Z; f_in_pos : Z; f_out_pos : Z; f_in_offset : Z; f_out_offset : Z; f_out_end : Z;
  f_in_kind : Z; f_in_flags : Z; f_out_kind : Z; f_out_flags : Z;
  f_next_packet : Z; f_receive_high : Z; f_delivered : Z; f_udp_queue : list m_udp_packet; f_assembly : list (option m_assembly);
  f_resolve : bool
}.
#[export] Instance eta_flow : Eta mflow := fun f => MFlow (f_key f) (f_map f) (f_stream f) (f_id f) (f_created f) (f_last_io f)
  (f_fd f) (f_local f) (f_proof f) (f_close_requested f) (f_close_sent f) (f_socket_eof f) (f_stream_eof f) (f_sent_fin f)
  (f_socket_shutdown f) (f_acked f) (f_reject_after_reply f) (f_proof_reply_ready f) (f_protocol f) (f_phase f) (f_source f)
  (f_control f) (f_control_need f) (f_reply f) (f_reply_pos f) (f_tx f) (f_rx f) (f_tx_pos f) (f_rx_pos f)
  (f_generation f) (f_grace f) (f_tx_base f) (f_tx_sent_high f) (f_rx_commit f) (f_rx_next f) (f_tx_final f) (f_rx_final f)
  (f_wire_version f) (f_transient f) (f_suspended f) (f_pending_open f) (f_waiting_resume f) (f_resuming f)
  (f_rx_fin f) (f_rx_fin_applied f) (f_tx_fin_acked f) (f_ack_dirty f)
  (f_in_frame f) (f_out_frame f) (f_in_size f) (f_in_pos f) (f_out_pos f) (f_in_offset f) (f_out_offset f) (f_out_end f)
  (f_in_kind f) (f_in_flags f) (f_out_kind f) (f_out_flags f)
  (f_next_packet f) (f_receive_high f) (f_delivered f) (f_udp_queue f) (f_assembly f) (f_resolve f).

(** The structure [m_flow_new] returns: zeroed, with the fields it sets. *)
Definition zero_flow (key : nat) (now : Z) : mflow :=
  MFlow key None false 0 now now false false false false false false false false false false false false 0 M_CONTROL OtherFamily
    [] M_HEADER [] 0 None None 0 0 0 0 0 0 0 0 0 0 0 false false false false false false false false false [] [] 0 0 0 0 0 0 0 0 0 0
    0 0 0 [] (replicate (Z.to_nat M_REASSEMBLY) None) false.

(** The UDP half of a flow, as MapUdp's operations take it, and back. *)
Definition udp_view (f : mflow) : udp_flow :=
  UdpFlow (f_id f) (bool_decide (f_phase f = M_ACTIVE) && f_acked f && (f_protocol f =? OB_REMOTE_UDP) && (negb (f_local f) || bool_decide (is_Some (f_map f))))
    (f_local f) (f_next_packet f) (f_receive_high f) (f_delivered f) (f_last_io f) (f_close_requested f) (f_udp_queue f) (f_assembly f).
Definition udp_put (u : udp_flow) (f : mflow) : mflow :=
  f <| f_next_packet := next_packet u |> <| f_receive_high := receive_high u |> <| f_delivered := delivered u |>
    <| f_last_io := u_last_io u |> <| f_close_requested := u_close_requested u |> <| f_udp_queue := udp_queue u |> <| f_assembly := assembly u |>.

(** ** Effects *)

Inductive effect :=
| FxFail (code : Z) (message : list Z)       (** [m_fail] *)
| FxTransport (code : Z) (message : list Z)  (** [ob_peer_transport_fail_locked] *)
| FxReady                                    (** [ob_peer_mark_ready] *)
| FxStream (bytes : list Z) (fin : bool)     (** bytes QUIC accepted on the flow's stream *)
| FxSocket (bytes : list Z)                  (** bytes the socket accepted *)
| FxGot (bytes : list Z)                     (** bytes read from the socket *)
| FxShutdown                                 (** [shutdown(fd, SHUT_WR)] *)
| FxCloseStream                              (** [xqc_stream_close] *)
| FxCloseFd
| FxGone                                     (** a callback took the stream or stopped the attempt *)
| FxFree (n : Z).                            (** [m_free] of [n] bytes *)

(** The answer of [xqc_stream_send]: how many bytes were taken, EAGAIN or an error; the
    callbacks it ran may have taken the stream away, or stopped the attempt. *)
Inductive send_answer := Took (n : Z) (lost : bool) | SendAgain | SendError.
(** The answer of [xqc_stream_recv]: how many bytes are ready, with the FIN mark.  The bytes
    are the next ones of the stream [q], at most [want] of them. *)
Inductive recv_answer := Get (n : Z) (fin : bool) | GetAgain | GetError.
(** The number of bytes QUIC or a socket took of [n] offered. *)
Definition taken (k n : Z) : Z := Z.max 0 (Z.min k n).
Definition stream_recv (n want : Z) (q : list Z) : list Z * list Z :=
  let k := taken n want in (ztake k q, zdrop k q).

(** [m_fail] chooses by the code whether the attempt or the handle fails. *)
Definition m_fail (t1 t2 : Z) (p : ob_remote_peer) (code : Z) (message : list Z) : ob_remote_peer :=
  if (code =? OB_REMOTE_EQUIC) || (code =? OB_REMOTE_EICE) || (code =? OB_REMOTE_ETIMEOUT)
  then ob_peer_transport_fail_locked t1 t2 p code message else ob_peer_fail_locked p code message.

(** ** Releasing *)

Section release.
Context (sizeof_packet : Z).

Definition m_drop_udp (f : mflow) : mflow * list effect :=
  (f <| f_udp_queue := [] |> <| f_assembly := replicate (length (f_assembly f)) None |>,
   map (fun q => FxFree (sizeof_packet + zlen (q_data q))) (f_udp_queue f) ++
   flat_map (fun s => match s with Some a => [FxFree (if a_total a =? 0 then 1 else a_total a)] | None => [] end) (f_assembly f)).
Definition m_resolve_detach (f : mflow) : mflow := f <| f_resolve := false |>.
Definition m_release_io (f : mflow) : mflow * list effect :=
  let f0 := m_resolve_detach f in
  let '(f1, fx) := m_drop_udp (f0 <| f_fd := false |> <| f_tx := None |> <| f_rx := None |>) in
  (f1, (if f_fd f then [FxCloseFd] else []) ++ (if bool_decide (is_Some (f_tx f)) then [FxFree OB_STREAM_BUFFER] else []) ++
       (if bool_decide (is_Some (f_rx f)) then [FxFree OB_STREAM_BUFFER] else []) ++ fx).
Definition m_abort (f : mflow) : mflow * list effect :=
  let '(f, fx) := m_release_io (f <| f_phase := M_DEAD |>) in
  if f_stream f && negb (f_close_sent f) then (f <| f_close_sent := true |>, fx ++ [FxCloseStream]) else (f, fx).
End release.

(** [m_tcp_buffers]; the two allocations succeed or not. *)
Definition m_tcp_buffers (ok1 ok2 : bool) (sizeof_packet : Z) (f : mflow) : bool * mflow * list effect :=
  let f := f <| f_tx := if ok1 then Some [] else None |> <| f_rx := if ok2 then Some [] else None |> in
  if ok1 && ok2 then (true, f, []) else let '(f, fx) := m_release_io sizeof_packet f in (false, f, fx).

(** ** Control frames *)

Definition m_header (kind protocol size id : Z) : list Z :=
  lit "OBM1" ++ [u8 kind; u8 protocol] ++ m_put16 size ++ m_put64 id.
Definition open_frame (protocol id port : Z) (host : list Z) : list Z :=
  m_header M_OPEN protocol (zlen host + 2) id ++ m_put16 port ++ host.
Definition proof_frame (proof : list Z) : list Z := m_header M_PROOF 0 32 0 ++ proof.

Definition m_host_char (c : Z) : bool :=
  ((97 <=? c) && (c <=? 122)) || ((65 <=? c) && (c <=? 90)) || ((48 <=? c) && (c <=? 57)) ||
  (c =? 46) || (c =? 45) || (c =? 58) || (c =? 95) || (c =? 37).
Definition m_host_valid (host : list Z) : bool :=
  negb ((zlen host =? 0) || (OB_MAX_HOST <? zlen host)) && forallb m_host_char host.

Definition m_ack (code : Z) (f : mflow) : mflow :=
  let wire := u32 (if code <? 0 then - code else code) in
  f <| f_reply := m_header M_ACK (f_protocol f) 4 (f_id f) ++ be_put 4 wire |> <| f_reply_pos := 0 |>
    <| f_phase := M_REPLY_PHASE |> <| f_reject_after_reply := negb (code =? 0) |>.

(** [m_reply_flush]: [sent] answers the send of the rest of the reply, [fin] the send of the
    proof stream's FIN; [server] and [ready] are the peer's. *)
Definition reply_done (sizeof_packet : Z) (server ready : bool) (fin : send_answer) (f : mflow) : mflow * list effect :=
  if f_proof f then
    let finish (f : mflow) (fx : list effect) :=
      if f_proof_reply_ready f && server then (f <| f_phase := M_ACTIVE |>, fx ++ (if ready then [] else [FxReady])) else (f, fx) in
    if f_sent_fin f then finish f []
    else match fin with
         | SendAgain => (f, [])
         | SendError => let '(f, fx) := m_abort sizeof_packet f in (f, FxFail OB_REMOTE_EQUIC (lit "proof stream send failed") :: fx)
         | Took _ _ => finish (f <| f_sent_fin := true |>) [FxStream [] true]
         end
  else if bool_decide (f_phase f = M_REPLY_PHASE) then
    if f_reject_after_reply f then m_abort sizeof_packet f
    else (f <| f_acked := true |> <| f_phase := M_ACTIVE |>, [])
  else (f, []).
Definition m_reply_flush (sizeof_packet : Z) (server ready : bool) (sent fin : send_answer) (f : mflow) : mflow * list effect :=
  if negb (f_stream f) || f_close_requested f || bool_decide (f_phase f = M_DEAD) || (zlen (f_reply f) =? 0) then (f, [])
  else if f_reply_pos f <? zlen (f_reply f) then
    match sent with
    | SendAgain => (f, [])
    | SendError =>
      if (f_wire_version f =? 2) && (f_protocol f =? OB_REMOTE_TCP)
      then (f, [FxTransport OB_REMOTE_EQUIC (lit "TCP control send failed")]) else m_abort sizeof_packet f
    | Took n lost =>
      let n := taken n (zlen (f_reply f) - f_reply_pos f) in
      let out := FxStream (zsub (f_reply_pos f) n (f_reply f)) false in
      if lost then (f, [out; FxGone])
      else
        let f := f <| f_reply_pos ::= Z.add n |> in
        if f_reply_pos f <? zlen (f_reply f) then (f, [out])
        else let '(f, fx) := reply_done sizeof_packet server ready fin f in (f, out :: fx)
    end
  else reply_done sizeof_packet server ready fin f.

(** ** Memory *)

Definition m_limit (configured def hard : Z) : Z := if truth configured then (if configured <? hard then configured else hard) else def.
Section memory.
Context (sizeof_flow : Z).
Definition m_control_alloc (calloc_ok : bool) (n memory : Z) : option Z :=
  if (M_MEMORY <? n) || (M_MEMORY - n <? memory) then None else if calloc_ok then Some (memory + n) else None.
(** [calloc_ok] covers the allocation of [m_state_get] too: without the state nothing is given. *)
Definition m_alloc (calloc_ok : bool) (max_flows n memory : Z) : option Z :=
  let reserve := (m_limit max_flows 128 M_FLOWS + 2) * sizeof_flow in
  let limit := u64 (M_MEMORY - reserve) in
  if (limit <? n) || (limit - n <? memory) then None else m_control_alloc calloc_ok n memory.
Definition m_free (n memory : Z) : Z := u64 (memory - n).
End memory.
