(* ===== verification/MapV2.v ===== *)
(** * Forwarded TCP, wire version 2

    src/sdk/c/remote/peer/mapping_v2.inc and the per-flow parts of mapping_recovery.inc: TCP
    bytes are framed with absolute offsets, kept until the other side has written them to its
    socket, and replayed over a new transport after the old one is lost. *)

From S2P Require Import Prelude Peer MapUdp MapFlow.

Definition m_u32 (v : list Z) (at_ : Z) : Z := be_get (zsub at_ 4 v).
Definition m_put32 (n : Z) : list Z := be_put 4 n.

Definition tx (f : mflow) : list Z := default [] (f_tx f).
Definition rx (f : mflow) : list Z := default [] (f_rx f).
Definition m_tx_next (f : mflow) : Z := u64 (f_tx_base f + zlen (tx f)).

Definition m_v2_ack (offset flags : Z) (f : mflow) : option mflow :=
  if negb (Z.land flags (Z.lnot 1) =? 0) || (m_tx_next f <? offset) || (f_tx_sent_high f <? offset) then None
  else if truth flags && (negb (f_socket_eof f) || negb (offset =? f_tx_final f)) then None
  else
    let done (f : mflow) := Some (if truth flags then f <| f_tx_fin_acked := true |> else f) in
    if f_tx_base f <? offset then
      let consumed := offset - f_tx_base f in
      if f_tx_pos f <? consumed then None
      else done (f <| f_tx := Some (zdrop consumed (tx f)) |> <| f_tx_pos ::= fun n => n - consumed |> <| f_tx_base := offset |>)
    else done f.

(** ** Resumption *)

Definition m_resume_snapshot (result : Z) (f : mflow) : list Z :=
  m_put32 (if result <? 0 then - result else result) ++
  m_put32 (Z.lor (if f_socket_eof f then 1 else 0) (if f_rx_fin_applied f then 2 else 0)) ++
  m_put64 (f_rx_commit f) ++ m_put64 (f_tx_base f) ++ m_put64 (m_tx_next f) ++ m_put64 (f_tx_final f).

Definition resume_invalid (f : mflow) (status flags delivered base next final : Z) : bool :=
  negb (status =? 0) || negb (Z.land flags (Z.lnot 3) =? 0) || (next <? base) || (f_rx_commit f <? base) ||
  (next <? f_rx_commit f) || (delivered <? f_tx_base f) || (m_tx_next f <? delivered) ||
  (Z.testbit flags 0 && negb (final =? next)) || (negb (Z.testbit flags 0) && truth final) ||
  (Z.testbit flags 1 && (negb (f_socket_eof f) || negb (delivered =? f_tx_final f))) ||
  (f_rx_fin f && (negb (Z.testbit flags 0) || negb (final =? f_rx_final f))).
(** [true] on success; the position moves even when the acknowledgement is refused. *)
Definition m_resume_apply (body : list Z) (f : mflow) : bool * mflow :=
  let flags := m_u32 body 4 in
  let delivered := m_u64 body 8 in let base := m_u64 body 16 in
  let next := m_u64 body 24 in let final := m_u64 body 32 in
  if resume_invalid f (m_u32 body 0) flags delivered base next final then (false, f)
  else
    let f := f <| f_tx_pos := zlen (tx f) |> in
    match m_v2_ack delivered (if Z.testbit flags 1 then 1 else 0) f with
    | None => (false, f)
    | Some f =>
      let f := f <| f_tx_pos := 0 |> <| f_in_frame := [] |> <| f_in_size := 0 |> <| f_in_pos := 0 |> <| f_out_pos := 0 |>
                 <| f_out_kind := 0 |> <| f_rx_next := f_rx_commit f |> <| f_rx := Some [] |> <| f_rx_pos := 0 |> in
      let f := if Z.testbit flags 0 then f <| f_rx_fin := true |> <| f_rx_final := final |> else f in
      (true, f <| f_sent_fin := f_tx_fin_acked f |> <| f_ack_dirty := true |>)
    end.

(** The side that opened the flow receives RESUME_ACK. *)
Definition resume_ack_done (now : Z) (body : list Z) (f : mflow) : bool * mflow :=
  let '(ok, f) := m_resume_apply body f in
  (ok, if ok then f <| f_waiting_resume := false |> <| f_suspended := false |> <| f_grace := 0 |>
                    <| f_acked := true |> <| f_phase := M_ACTIVE |> <| f_last_io := now |>
       else f).
(** The other side receives RESUME on the placeholder [f]; [old] is the retained flow.
    The placeholder and the retained flow afterwards. *)
Definition resume_frame (f : mflow) (body : list Z) : list Z := m_header M_RESUME_ACK OB_REMOTE_TCP M_RESUME_SIZE (f_id f) ++ body.
Definition resumable (now : Z) (old : mflow) : bool :=
  negb (f_local old) && f_suspended old && (f_wire_version old =? 2) && (f_protocol old =? OB_REMOTE_TCP) && f_fd old && (now <? f_grace old).
Definition resume_refuse (result : Z) (f : mflow) : mflow :=
  f <| f_reply := resume_frame f (m_put32 (u32 (- result)) ++ replicate 36 0) |> <| f_reply_pos := 0 |>
    <| f_reject_after_reply := true |> <| f_phase := M_REPLY_PHASE |>.
Definition resume_rebind (now : Z) (f old : mflow) : mflow :=
  let old := old <| f_stream := f_stream f |> <| f_generation := f_generation f |> <| f_suspended := false |> <| f_waiting_resume := false |>
                 <| f_resuming := true |> <| f_close_requested := false |> <| f_close_sent := false |> <| f_acked := false |>
                 <| f_created := now |> <| f_control := [] |> <| f_control_need := M_HEADER |> in
  old <| f_reply := resume_frame old (m_resume_snapshot 0 old) |> <| f_reply_pos := 0 |> <| f_phase := M_REPLY_PHASE |>.
Definition resume_done (now : Z) (body : list Z) (f : mflow) (old : option mflow) : mflow * option mflow :=
  match old with
  | Some o =>
    if resumable now o then
      let '(ok, o) := m_resume_apply body o in
      if ok then (f <| f_stream := false |> <| f_phase := M_DEAD |> <| f_close_requested := true |>, Some (resume_rebind now f o))
      else (resume_refuse OB_REMOTE_EPROTOCOL f, Some o)
    else (resume_refuse OB_REMOTE_ECLOSED f, old)
  | None => (resume_refuse OB_REMOTE_ECLOSED f, old)
  end.
(** [m_resume_open] before it opens the stream. *)
Definition resume_open (now : Z) (f : mflow) : mflow :=
  let f := f <| f_waiting_resume := true |> <| f_phase := M_CONTROL |> <| f_created := now |> <| f_control := [] |>
             <| f_control_need := M_HEADER |> <| f_reply_pos := 0 |> <| f_acked := false |> <| f_close_sent := false |> in
  f <| f_reply := m_header M_RESUME OB_REMOTE_TCP M_RESUME_SIZE (f_id f) ++ m_resume_snapshot 0 f |>.

(** ** Writing *)

Definition v2_frame_header (kind flags length id offset : Z) : list Z :=
  lit "OBM2" ++ [u8 kind; u8 flags] ++ m_put16 length ++ m_put64 id ++ m_put64 offset.
Definition m_v2_frame (kind flags length offset : Z) (f : mflow) : mflow :=
  f <| f_out_frame := v2_frame_header kind flags length (f_id f) offset |> <| f_out_kind := kind |> <| f_out_flags := flags |>
    <| f_out_pos := 0 |> <| f_out_offset := offset |> <| f_out_end := u64 (offset + length) |>.
(** The next frame, if there is one to send. *)
Definition v2_next_frame (f : mflow) : option mflow :=
  if truth (f_out_kind f) then Some f
  else if f_ack_dirty f then Some (m_v2_frame M_V2_ACK (if f_rx_fin_applied f then 1 else 0) 0 (f_rx_commit f) f)
  else if f_tx_pos f <? zlen (tx f) then
    Some (m_v2_frame M_V2_DATA 0 (Z.min (zlen (tx f) - f_tx_pos f) M_IO_BUDGET) (u64 (f_tx_base f + f_tx_pos f)) f)
  else if f_socket_eof f && negb (f_sent_fin f) then Some (m_v2_frame M_V2_FIN 0 0 (f_tx_final f) f)
  else None.
(** The header, then the payload of the current frame.  [true]: the frame is complete. *)
Definition v2_send_header (answers : list send_answer) (f : mflow) : bool * list send_answer * mflow * list effect :=
  if f_out_pos f <? M_V2_HEADER then
    match answers with
    | [] | SendAgain :: _ => (false, [], f, [])
    | SendError :: _ => (false, [], f, [FxTransport OB_REMOTE_EQUIC (lit "TCP frame send failed")])
    | Took n lost :: answers =>
      let n := taken n (M_V2_HEADER - f_out_pos f) in
      let out := FxStream (zsub (f_out_pos f) n (f_out_frame f)) false in
      if lost then (false, [], f, [out; FxGone])
      else let f := f <| f_out_pos ::= Z.add n |> in (M_V2_HEADER <=? f_out_pos f, answers, f, [out])
    end
  else (true, answers, f, []).
Definition v2_send_payload (answers : list send_answer) (f : mflow) : bool * list send_answer * mflow * list effect :=
  if (f_out_kind f =? M_V2_DATA) && (f_out_offset f <? f_out_end f) then
    if (f_out_offset f <? f_tx_base f) || (m_tx_next f <? f_out_end f)
    then (false, [], f, [FxFail OB_REMOTE_EPROTOCOL (lit "TCP replay range is invalid")])
    else
      match answers with
      | [] | SendAgain :: _ => (false, [], f, [])
      | SendError :: _ => (false, [], f, [FxTransport OB_REMOTE_EQUIC (lit "TCP payload send failed")])
      | Took n lost :: answers =>
        let n := taken n (f_out_end f - f_out_offset f) in
        let out := FxStream (zsub (f_out_offset f - f_tx_base f) n (tx f)) false in
        if lost then (false, [], f, [out; FxGone])
        else
          let f := f <| f_out_offset ::= Z.add n |> in
          let f := f <| f_tx_pos := f_out_offset f - f_tx_base f |> <| f_tx_sent_high ::= Z.max (f_out_offset f) |> in
          (negb (f_out_offset f <? f_out_end f), answers, f, [out])
      end
  else (true, answers, f, []).
Definition v2_complete (f : mflow) : mflow :=
  let completed := f_out_kind f in
  let f := if completed =? M_V2_ACK then
             if (f_out_offset f =? f_rx_commit f) && (f_out_flags f =? b2z (f_rx_fin_applied f)) then f <| f_ack_dirty := false |> else f
           else if completed =? M_V2_FIN then f <| f_sent_fin := true |> else f in
  f <| f_out_kind := 0 |> <| f_out_pos := 0 |>.
(** The answers of the sends, in order.  The tail call is made once: the second round sends
    DATA, whose completion makes none. *)
Fixpoint v2_write_rounds (fuel : nat) (answers : list send_answer) (f : mflow) : mflow * list effect :=
  match fuel with
  | O => (f, [])
  | S fuel =>
    match v2_next_frame f with
    | None => (f, [])
    | Some f =>
      let '(ok, answers, f, fx1) := v2_send_header answers f in
      if negb ok then (f, fx1)
      else
        let '(ok, answers, f, fx2) := v2_send_payload answers f in
        if negb ok then (f, fx1 ++ fx2)
        else
          let completed := f_out_kind f in
          let f := v2_complete f in
          if (completed =? M_V2_ACK) && negb (f_ack_dirty f) && (f_tx_pos f <? zlen (tx f))
          then let '(f, fx3) := v2_write_rounds fuel answers f in (f, fx1 ++ fx2 ++ fx3)
          else (f, fx1 ++ fx2)
    end
  end.
Definition m_v2_write (attempt_stop : bool) (answers : list send_answer) (f : mflow) : mflow * list effect :=
  if negb (f_stream f) || negb (bool_decide (f_phase f = M_ACTIVE)) || negb (f_acked f) || f_suspended f || f_close_requested f || attempt_stop
  then (f, []) else v2_write_rounds 2 answers f.

(** ** Reading *)

(** The header in [in_frame] is complete; [None] is a protocol error. *)
Definition m_v2_header (f : mflow) : option mflow :=
  let h := f_in_frame f in
  let kind := znth h 4 in let flags := znth h 5 in let size := m_u16 h 6 in let offset := m_u64 h 16 in
  let data := kind =? M_V2_DATA in
  if negb (list_eqb (ztake 4 h) (lit "OBM2")) || negb (m_u64 h 8 =? f_id f) ||
     (negb data && negb (kind =? M_V2_ACK) && negb (kind =? M_V2_FIN)) ||
     (data && ((size =? 0) || (M_IO_BUDGET <? size) || truth flags || (UINT64_MAX - size <? offset))) ||
     (negb data && truth size) || ((kind =? M_V2_FIN) && truth flags) ||
     ((kind =? M_V2_ACK) && negb (Z.land flags (Z.lnot 1) =? 0)) then None
  else
    let f := f <| f_in_kind := kind |> <| f_in_flags := flags |> <| f_in_size := size |> <| f_in_offset := offset |> <| f_in_pos := 0 |> in
    match (if kind =? M_V2_ACK then m_v2_ack offset flags f else Some f) with
    | None => None
    | Some f =>
      let resumed (f : mflow) := Some (if f_resuming f then f <| f_resuming := false |> <| f_grace := 0 |> else f) in
      if kind =? M_V2_FIN then
        if negb (offset =? f_rx_next f) || (f_rx_fin f && negb (offset =? f_rx_final f)) then None
        else resumed (f <| f_rx_fin := true |> <| f_rx_final := offset |>)
      else if data && ((f_rx_next f <? offset) || (f_rx_fin f && (f_rx_final f <? offset + size))) then None
      else resumed f
    end.

(** How a step of the reader ends. *)
Inductive read_step := Continue | Stop | Abort | Violation (message : list Z).

(** The header part of a round; [Some Continue]: go on to the payload. *)
Definition v2_read_header (answers : list recv_answer) (q : list Z) (f : mflow)
    : option (read_step * bool) * list recv_answer * list Z * mflow :=
  if zlen (f_in_frame f) <? M_V2_HEADER then
    match answers with
    | [] | GetAgain :: _ => (Some (Stop, false), [], q, f)
    | GetError :: _ => (Some (Abort, false), [], q, f)
    | Get n fin :: answers =>
      let '(v, q) := stream_recv n (M_V2_HEADER - zlen (f_in_frame f)) q in
      if fin then (Some (Abort, false), [], q, f)
      else
        let f := f <| f_in_frame ::= fun h => h ++ v |> in
        if zlen (f_in_frame f) <? M_V2_HEADER then (Some (Stop, false), [], q, f)
        else match m_v2_header f with
             | None => (Some (Violation (lit "Invalid TCP delivery frame"), false), [], q, f)
             | Some f =>
               if negb (f_in_kind f =? M_V2_DATA) then (Some (Continue, false), answers, q, f <| f_in_frame := [] |>)
               else (None, answers, q, f)
             end
    end
  else (None, answers, q, f).

(** The receive buffer is moved down when it is full. *)
Definition v2_compact (f : mflow) : mflow :=
  if truth (f_rx_pos f) && (zlen (rx f) =? OB_STREAM_BUFFER) then f <| f_rx := Some (zdrop (f_rx_pos f) (rx f)) |> <| f_rx_pos := 0 |> else f.
Definition v2_advance (now n : Z) (f : mflow) : mflow :=
  let f := f <| f_in_pos ::= Z.add n |> <| f_last_io := now |> in
  if f_in_pos f =? f_in_size f then f <| f_in_frame := [] |> <| f_in_size := 0 |> <| f_in_pos := 0 |> else f.
(** The payload part of a round. *)
Definition v2_read_payload (now : Z) (answers : list recv_answer) (q : list Z) (f : mflow)
    : read_step * list recv_answer * list Z * mflow :=
  let at_ := f_in_offset f + f_in_pos f in
  let remaining := f_in_size f - f_in_pos f in
  if f_rx_next f <? at_ then (Violation (lit "TCP delivery offset gap"), [], q, f)
  else if at_ =? f_rx_next f then
    let f := v2_compact f in
    let room := OB_STREAM_BUFFER - zlen (rx f) in
    if room =? 0 then (Stop, [], q, f)
    else
      match answers with
      | [] | GetAgain :: _ => (Stop, [], q, f)
      | GetError :: _ => (Abort, [], q, f)
      | Get n fin :: answers =>
        let '(v, q) := stream_recv n (Z.min remaining room) q in
        if fin then (Abort, [], q, f)
        else if zlen v =? 0 then (Stop, [], q, f)
        else (Continue, answers, q, v2_advance now (zlen v) (f <| f_rx := Some (rx f ++ v) |> <| f_rx_next ::= Z.add (zlen v) |>))
      end
  else
    let boundary := if at_ <? f_rx_commit f then f_rx_commit f else f_rx_next f in
    match answers with
    | [] | GetAgain :: _ => (Stop, [], q, f)
    | GetError :: _ => (Abort, [], q, f)
    | Get n fin :: answers =>
      let '(v, q) := stream_recv n (Z.min (Z.min remaining 512) (boundary - at_)) q in
      if fin then (Abort, [], q, f)
      else if zlen v =? 0 then (Stop, [], q, f)
      else if (f_rx_commit f <=? at_) && negb (list_eqb v (zsub (f_rx_pos f + (at_ - f_rx_commit f)) (zlen v) (rx f)))
      then (Violation (lit "TCP replay bytes changed"), [], q, f)
      else (Continue, answers, q, v2_advance now (zlen v) (f <| f_ack_dirty := true |>))
    end.
Fixpoint v2_read_rounds (now : Z) (steps : nat) (answers : list recv_answer) (q : list Z) (f : mflow) : read_step * list Z * mflow :=
  match steps with
  | O => (Stop, q, f)
  | S steps =>
    let '(r, answers, q, f) := v2_read_header answers q f in
    match r with
    | Some (Continue, _) => v2_read_rounds now steps answers q f
    | Some (r, _) => (r, q, f)
    | None =>
      let '(r, answers, q, f) := v2_read_payload now answers q f in
      match r with Continue => v2_read_rounds now steps answers q f | _ => (r, q, f) end
    end
  end.
(** [q] is what QUIC has received on the flow's stream. *)
Definition m_v2_read (sizeof_packet now : Z) (attempt_stop : bool) (answers : list recv_answer) (q : list Z) (f : mflow)
    : list Z * mflow * list effect :=
  if negb (f_stream f) || f_suspended f || attempt_stop then (q, f, [])
  else
    let '(r, q, f) := v2_read_rounds now 32 answers q f in
    match r with
    | Abort => let '(f, fx) := m_abort sizeof_packet f in (q, f, fx)
    | Violation m => let '(f, fx) := m_abort sizeof_packet f in (q, f, FxFail OB_REMOTE_EPROTOCOL m :: fx)
    | _ => (q, f, [])
    end.

(** ** The socket side *)

(** The answers of one tick: [poll] (an error, POLLOUT, POLLIN or POLLHUP), [send],
    [shutdown] and [recv] on the socket, and the sends on the stream. *)
Inductive socket_answer := SockTook (n : Z) | SockAgain | SockError.
Inductive socket_data := SockGot (v : list Z) | SockNothing | SockBroken.
Record tick_answers := TickAnswers {
  t_poll_error : bool; t_pollout : bool; t_pollin : bool; t_send : socket_answer; t_shutdown_ok : bool; t_recv : socket_data; t_stream : list send_answer }.

Definition v2_drained (f : mflow) : mflow := if f_rx_pos f =? zlen (rx f) then f <| f_rx := Some [] |> <| f_rx_pos := 0 |> else f.
Definition v2_to_socket (now : Z) (a : tick_answers) (f : mflow) : option (mflow * list effect) :=
  if t_pollout a && (f_rx_pos f <? zlen (rx f)) then
    match t_send a with
    | SockError => None
    | SockAgain => Some (v2_drained f, [])
    | SockTook n =>
      let n := taken n (Z.min (zlen (rx f) - f_rx_pos f) M_IO_BUDGET) in
      if 0 <? n then
        Some (v2_drained (f <| f_rx_pos ::= Z.add n |> <| f_rx_commit ::= Z.add n |> <| f_last_io := now |> <| f_ack_dirty := true |>),
              [FxSocket (zsub (f_rx_pos f) n (rx f))])
      else Some (v2_drained f, [])
    end
  else Some (f, []).
Definition v2_apply_fin (a : tick_answers) (f : mflow) : option (mflow * list effect) :=
  if f_rx_fin f && (f_rx_commit f =? f_rx_final f) && negb (f_rx_fin_applied f) then
    if t_shutdown_ok a then Some (f <| f_rx_fin_applied := true |> <| f_socket_shutdown := true |> <| f_ack_dirty := true |>, [FxShutdown]) else None
  else Some (f, []).
(** [inl]: the byte counter would overflow; [inr None]: abort. *)
Definition v2_from_socket (now : Z) (a : tick_answers) (f : mflow) : mflow + option (mflow * list effect) :=
  if t_pollin a && negb (f_socket_eof f) then
    let room := Z.min (OB_STREAM_BUFFER - zlen (tx f)) M_IO_BUDGET in
    if room =? 0 then inr (Some (f, []))
    else match t_recv a with
         | SockBroken => inr None
         | SockNothing => inr (Some (f, []))
         | SockGot v =>
           let v := ztake room v in
           if zlen v =? 0 then inr (Some (f <| f_socket_eof := true |> <| f_tx_final := m_tx_next f |>, []))
           else if UINT64_MAX - zlen v <? m_tx_next f then inl f
           else inr (Some (f <| f_tx := Some (tx f ++ v) |> <| f_last_io := now |>, [FxGot v]))
         end
  else inr (Some (f, [])).
(** The peer must be ready. *)
Definition m_v2_tick (sizeof_packet now : Z) (ready attempt_stop : bool) (a : tick_answers) (f : mflow) : mflow * list effect :=
  let abort (f : mflow) (fx : list effect) := let '(f, fx') := m_abort sizeof_packet f in (f, fx ++ fx') in
  if negb (bool_decide (f_phase f = M_ACTIVE)) || negb (f_acked f) || negb (f_fd f) || f_suspended f || negb ready || attempt_stop then (f, [])
  else if t_poll_error a then abort f []
  else
    match v2_to_socket now a f with
    | None => abort f []
    | Some (f, fx1) =>
      match v2_apply_fin a f with
      | None => abort f fx1
      | Some (f, fx2) =>
        match v2_from_socket now a f with
        | inl f => abort f (fx1 ++ fx2 ++ [FxFail OB_REMOTE_ELIMIT (lit "TCP byte counter exhausted")])
        | inr None => abort f (fx1 ++ fx2)
        | inr (Some (f, fx3)) =>
          let '(f, fx4) := m_v2_write attempt_stop (t_stream a) f in
          let fx := fx1 ++ fx2 ++ fx3 ++ fx4 in
          if f_socket_eof f && f_rx_fin_applied f && f_tx_fin_acked f && (zlen (tx f) =? 0) && negb (f_ack_dirty f) && (f_out_kind f =? 0)
          then abort f fx else (f, fx)
        end
      end
    end.

(** ** Losing and regaining the transport *)

(** [ob_mapping_transport_suspend] on one flow. *)
Definition suspend_keep (preserve_tcp : bool) (f : mflow) : bool :=
  negb (f_proof f) && negb (f_transient f) && (f_protocol f =? OB_REMOTE_TCP) && f_fd f &&
  (negb (f_local f) || bool_decide (is_Some (f_map f))) && negb (f_reject_after_reply f) &&
  (f_pending_open f ||
   (preserve_tcp && (f_wire_version f =? 2) &&
    (f_local f || f_acked f || bool_decide (f_phase f = M_REPLY_PHASE) || f_suspended f || f_resuming f))).
Definition suspend_flow (sizeof_packet : Z) (preserve_tcp : bool) (deadline : Z) (f : mflow) : mflow * list effect :=
  let f := f <| f_stream := false |> in
  if negb (suspend_keep preserve_tcp f) then m_release_io sizeof_packet (f <| f_phase := M_DEAD |> <| f_close_requested := true |>)
  else
    m_drop_udp sizeof_packet
      (f <| f_suspended := true |> <| f_waiting_resume := false |> <| f_resuming := false |> <| f_close_requested := false |>
         <| f_close_sent := false |> <| f_phase := M_ACTIVE |>
         <| f_grace := if (f_grace f =? 0) || (deadline <? f_grace f) then deadline else f_grace f |>
         <| f_rx := match f_rx f with None => None | Some _ => Some [] end |> <| f_rx_pos := 0 |> <| f_rx_next := f_rx_commit f |>
         <| f_in_frame := [] |> <| f_in_size := 0 |> <| f_in_pos := 0 |> <| f_out_pos := 0 |> <| f_out_kind := 0 |>
         <| f_tx_pos := 0 |> <| f_sent_fin := f_tx_fin_acked f |>
         <| f_control := [] |> <| f_control_need := M_HEADER |> <| f_reply := [] |> <| f_reply_pos := 0 |>).
