(* ===== verification/MapTcp.v ===== *)
(** * Exactly-once TCP forwarding across transports

    Two ends of a forwarded TCP connection under wire version 2 (MapV2), the QUIC stream
    between them, and the loss and resumption of that stream. *)

From S2P Require Import Prelude Peer MapUdp MapFlow MapV2.

(** ** The two ends

    [up]: the current stream is attached and its attempt is not stopped.  [got] is
    everything read from the end's socket, [put] everything its socket accepted. *)
Record endpoint := Endpoint { ep : mflow; up : bool; got : list Z; put : list Z }.
#[export] Instance eta_endpoint : Eta endpoint := fun e => Endpoint (ep e) (up e) (got e) (put e).
(** [near] opened the flow, [far] holds the target's socket; the bytes QUIC carries each way
    on the current stream, in order; the RESUME_ACK on its way to [near]. *)
Record link := Link { near : endpoint; far : endpoint; to_far : list Z; to_near : list Z; answer : option (list Z) }.

Definition stream_bytes (fx : list effect) : list Z := flat_map (fun e => match e with FxStream v _ => v | _ => [] end) fx.
Definition socket_bytes (fx : list effect) : list Z := flat_map (fun e => match e with FxSocket v => v | _ => [] end) fx.
Definition got_bytes (fx : list effect) : list Z := flat_map (fun e => match e with FxGot v => v | _ => [] end) fx.
(** A failure, of the attempt or of the handle, stops the attempt. *)
Definition keeps_up (fx : list effect) : bool :=
  forallb (fun e => match e with FxGone | FxFail _ _ | FxTransport _ _ => false | _ => true end) fx.

Inductive tcp_event :=
| TTick (at_near : bool) (now : Z) (a : tick_answers)
| TRead (at_near : bool) (now : Z) (answers : list recv_answer)
| TSuspend (at_near : bool) (preserve_tcp : bool) (deadline : Z)
| TResume (now : Z)    (** the near end opened a stream with RESUME, the far end received it *)
| TReply               (** the far end's RESUME_ACK is sent *)
| TResumed (now : Z).  (** the near end received it *)

Section run.
Context (sizeof_packet : Z).

Definition end_tick (now : Z) (a : tick_answers) (e : endpoint) : endpoint * list Z :=
  let '(f, fx) := m_v2_tick sizeof_packet now true (negb (up e)) a (ep e) in
  (Endpoint f (up e && keeps_up fx) (got e ++ got_bytes fx) (put e ++ socket_bytes fx), stream_bytes fx).
(** [m_stream_read] reaches the version 2 reader in this state only. *)
Definition end_read (now : Z) (answers : list recv_answer) (q : list Z) (e : endpoint) : endpoint * list Z :=
  if bool_decide (f_phase (ep e) = M_ACTIVE) && negb (f_close_requested (ep e)) then
    let '(q, f, fx) := m_v2_read sizeof_packet now (negb (up e)) answers q (ep e) in
    (e <| ep := f |> <| up ::= andb (keeps_up fx) |>, q)
  else (e, q).
(** A dead flow has no descriptor and stays dead. *)
Definition end_suspend (preserve_tcp : bool) (deadline : Z) (e : endpoint) : endpoint :=
  Endpoint (if bool_decide (f_phase (ep e) = M_DEAD) then ep e else (suspend_flow sizeof_packet preserve_tcp deadline (ep e)).1) false (got e) (put e).

(** The stream of a RESUME carries it alone before the answer.  Each peer has one transport at
    a time: it retired the old one before it accepts streams of the next. *)
Definition link_resume (now : Z) (l : link) : link :=
  let n := ep (near l) in
  if f_suspended n && negb (f_waiting_resume n) && negb (bool_decide (f_phase n = M_DEAD)) && negb (up (near l)) && negb (up (far l)) then
    let n := resume_open now n <| f_stream := true |> in
    let old := if bool_decide (f_phase (ep (far l)) = M_DEAD) then None else Some (ep (far l)) in
    let '(ph, old) := resume_done now (zdrop M_HEADER (f_reply n)) (zero_flow 0 now <| f_id := f_id n |> <| f_stream := true |>) old in
    let f := default (ep (far l)) old in
    let rebound := bool_decide (f_phase ph = M_DEAD) in
    Link (Endpoint n true (got (near l)) (put (near l))) (Endpoint f rebound (got (far l)) (put (far l))) [] []
      (Some (zdrop M_HEADER (f_reply (if rebound then f else ph))))
  else l.
Definition link_resumed (now : Z) (l : link) : link :=
  match answer l with
  | None => l
  | Some body =>
    let '(ok, f) := resume_ack_done now body (ep (near l)) in
    Link (Endpoint (if ok then f else (m_abort sizeof_packet f).1) (up (near l)) (got (near l)) (put (near l))) (far l) (to_far l) (to_near l) None
  end.
Definition link_reply (l : link) : link :=
  let e := far l in
  if up e then
    Link (near l) (Endpoint (m_reply_flush sizeof_packet true true (Took (zlen (f_reply (ep e))) false) SendAgain (ep e)).1 true (got e) (put e))
      (to_far l) (to_near l) (answer l)
  else l.

Definition tcp_step (l : link) (e : tcp_event) : link :=
  match e with
  | TTick true now a => let '(e, out) := end_tick now a (near l) in Link e (far l) (to_far l ++ out) (to_near l) (answer l)
  | TTick false now a => let '(e, out) := end_tick now a (far l) in Link (near l) e (to_far l) (to_near l ++ out) (answer l)
  | TRead true now rs => let '(e, q) := end_read now rs (to_near l) (near l) in Link e (far l) (to_far l) q (answer l)
  | TRead false now rs => let '(e, q) := end_read now rs (to_far l) (far l) in Link (near l) e q (to_near l) (answer l)
  | TSuspend true k d => Link (end_suspend k d (near l)) (far l) (to_far l) (to_near l) None
  | TSuspend false k d => Link (near l) (end_suspend k d (far l)) (to_far l) (to_near l) (answer l)
  | TResume now => link_resume now l
  | TReply => link_reply l
  | TResumed now => link_resumed now l
  end.
Definition tcp_run (l : link) (es : list tcp_event) : link := fold_left tcp_step es l.
End run.

(** An established flow: OPEN was answered, the buffers are empty. *)
Definition new_flow (key : nat) (local : bool) (id : Z) (now : Z) : mflow :=
  zero_flow key now <| f_id := id |> <| f_local := local |> <| f_map := if local then Some 0%nat else None |> <| f_stream := true |>
    <| f_fd := true |> <| f_protocol := OB_REMOTE_TCP |> <| f_phase := M_ACTIVE |> <| f_acked := true |> <| f_wire_version := 2 |>
    <| f_tx := Some [] |> <| f_rx := Some [] |>.
Definition new_link (id now : Z) : link :=
  Link (Endpoint (new_flow 0 true id now) true [] []) (Endpoint (new_flow 1 false id now) true [] []) [] [] None.

(** ** Frames on the stream *)

Inductive frame := FData (offset : Z) (payload : list Z) | FAck (offset flags : Z) | FFin (offset : Z).
Section frames.
Context (id : Z).
Definition enc (fr : frame) : list Z :=
  match fr with
  | FData o p => v2_frame_header M_V2_DATA 0 (zlen p) id o ++ p
  | FAck o fl => v2_frame_header M_V2_ACK fl 0 id o
  | FFin o => v2_frame_header M_V2_FIN 0 0 id o
  end.
Definition wire (fs : list frame) : list Z := flat_map enc fs.

(** What a sender that has read [L] and written [W], with [eof] and [applied], may send
    from position [n] on; the position afterwards. *)
Record sender := Sender { sn_got : list Z; sn_put : Z; sn_applied : bool; sn_eof : bool }.
Definition frame_ok (s : sender) (n : Z) (fr : frame) (n' : Z) : Prop :=
  match fr with
  | FData o p => o = n /\ n' = n + zlen p /\ 0 < zlen p <= M_IO_BUDGET /\ n' <= zlen (sn_got s) /\ p = zsub o (zlen p) (sn_got s)
  | FAck o fl => n' = n /\ 0 <= o <= sn_put s /\ (fl = 0 \/ fl = 1 /\ sn_applied s = true)
  | FFin o => n' = n /\ o = n /\ sn_eof s = true /\ o = zlen (sn_got s)
  end.
Fixpoint chain (s : sender) (n : Z) (fs : list frame) (n' : Z) : Prop :=
  match fs with [] => n' = n | fr :: fs => exists m, frame_ok s n fr m /\ chain s m fs n' end.

Definition alive (f : mflow) : Prop := f_phase f <> M_DEAD.
(** The bytes of the current frame that are still to be sent, and the position after it. *)
Definition rest (f : mflow) (L : list Z) : list Z :=
  if f_out_kind f =? 0 then []
  else zdrop (f_out_pos f) (f_out_frame f) ++ (if f_out_kind f =? M_V2_DATA then zsub (f_out_offset f) (f_out_end f - f_out_offset f) L else []).
Definition tx_point (f : mflow) : Z := if f_out_kind f =? M_V2_DATA then f_out_end f else f_tx_base f + f_tx_pos f.
Definition out_ok (f : mflow) (L : list Z) : Prop :=
  f_out_kind f = 0 \/
  (0 <= f_out_pos f <= M_V2_HEADER /\ zlen (f_out_frame f) = M_V2_HEADER /\
   (f_out_kind f = M_V2_ACK \/ f_out_kind f = M_V2_FIN \/
    f_out_kind f = M_V2_DATA /\ f_out_offset f = f_tx_base f + f_tx_pos f /\ f_out_offset f <= f_out_end f <= zlen L)).
(** The sending half keeps everything from its base on. *)
Record tx_ok (f : mflow) (L : list Z) : Prop := {
  to_len : zlen L <= UINT64_MAX;
  to_base : 0 <= f_tx_base f <= zlen L;
  to_tx : tx f = zdrop (f_tx_base f) L;
  to_pos : 0 <= f_tx_pos f <= zlen (tx f);
  to_final : f_socket_eof f = true -> f_tx_final f = zlen L;
  to_out : out_ok f L }.
(** The receiving half holds what follows the bytes written. *)
Record rx_ok (f : mflow) (L W : list Z) : Prop := {
  ro_commit : f_rx_commit f = zlen W;
  ro_pos : 0 <= f_rx_pos f <= zlen (rx f);
  ro_next : f_rx_next f = f_rx_commit f + (zlen (rx f) - f_rx_pos f);
  ro_bound : f_rx_next f <= zlen L;
  ro_bytes : zdrop (f_rx_pos f) (rx f) = zsub (f_rx_commit f) (f_rx_next f - f_rx_commit f) L }.
(** A suspended flow is between frames, with nothing received beyond what it wrote. *)
Definition idle (f : mflow) : Prop := f_in_frame f = [] /\ f_rx_next f = f_rx_commit f /\ f_out_kind f = 0.

(** How far the reader is: [h] bytes of the frames [fs] are consumed, the first of which
    starts at position [n]. *)
Definition in_state (f : mflow) (n : Z) (fs : list frame) (h : Z) : Prop :=
  (0 <= h < M_V2_HEADER /\ h <= zlen (wire fs) /\ f_in_frame f = ztake h (wire fs) /\ f_rx_next f = n) \/
  (exists o p fs', fs = FData o p :: fs' /\ h = M_V2_HEADER + f_in_pos f /\ zlen (f_in_frame f) = M_V2_HEADER /\
    f_in_offset f = o /\ f_in_size f = zlen p /\ 0 <= f_in_pos f < zlen p /\ f_rx_next f = n + f_in_pos f).

Definition sender_of (x : endpoint) : sender :=
  Sender (got x) (zlen (put x)) (f_rx_fin_applied (ep x)) (f_socket_eof (ep x)).
(** What is on the stream from [x] to [y]. *)
Definition stream_ok (x y : endpoint) (q : list Z) : Prop :=
  exists n fs h R n', 0 <= n /\ chain (sender_of x) n fs n' /\ q ++ R = zdrop h (wire fs) /\ in_state (ep y) n fs h /\
    (alive (ep x) -> up x = true -> f_suspended (ep x) = false -> R = rest (ep x) (got x) /\ tx_point (ep x) = n').

(** One direction. *)
Record dir (x y : endpoint) (q : list Z) : Prop := {
  d_id : f_id (ep x) = id;
  d_len : zlen (got x) <= UINT64_MAX;
  d_prefix : put y = ztake (zlen (put y)) (got x);
  d_tx : alive (ep x) -> tx_ok (ep x) (got x) /\ f_tx_base (ep x) <= zlen (put y);
  d_rx : alive (ep y) -> rx_ok (ep y) (got x) (put y);
  d_idle : alive (ep x) -> f_suspended (ep x) = true -> idle (ep x);
  d_fin : alive (ep y) -> f_rx_fin (ep y) = true -> f_socket_eof (ep x) = true /\ f_rx_final (ep y) = zlen (got x);
  d_applied : f_rx_fin_applied (ep y) = true -> f_socket_eof (ep x) = true /\ put y = got x;
  d_acked : f_tx_fin_acked (ep x) = true -> f_rx_fin_applied (ep y) = true;
  d_stream : alive (ep y) -> up y = true -> stream_ok x y q }.
Definition both (x y : endpoint) (qxy qyx : list Z) : Prop := dir x y qxy /\ dir y x qyx.

(** ** Frame rules: what a step does not touch *)

(** A sender may only do more. *)
Record sender_le (s s' : sender) : Prop := {
  sl_got : exists l, sn_got s' = sn_got s ++ l /\ (sn_eof s = true -> l = []);
  sl_put : sn_put s <= sn_put s';
  sl_applied : sn_applied s = true -> sn_applied s' = true;
  sl_eof : sn_eof s = true -> sn_eof s' = true }.
Lemma frame_ok_le s s' n fr n' : sender_le s s' -> 0 <= n -> frame_ok s n fr n' -> frame_ok s' n fr n'.
Proof.
  intros [(l & Hl & Heof) Hp Ha He] Hn. destruct fr as [o p|o fl|o]; cbn [frame_ok].
  - intros (-> & -> & Hb & Hlen & Hs). rewrite Hl, zlen_app. pose proof (zlen_nonneg l).
    rewrite zsub_app_l by lia. split; [done|]. split; [done|]. split; [lia|]. split; [lia|done].
  - intros (-> & Ho & Hf). split; [done|]. split; [lia|]. destruct Hf as [|[? ?]]; [by left|right]. auto.
  - intros (-> & -> & He' & Hlen). rewrite Hl, (Heof He'), app_nil_r. auto.
Qed.
Lemma frame_ok_mono s n fr n' : frame_ok s n fr n' -> n <= n'.
Proof. destruct fr; cbn [frame_ok]; lia. Qed.
Lemma chain_le s s' n fs n' : sender_le s s' -> 0 <= n -> chain s n fs n' -> chain s' n fs n'.
Proof.
  intros Hle. revert n. induction fs as [|fr fs IH]; intros n Hn; [done|]. intros (m & H1 & H2).
  exists m. split; [by eapply frame_ok_le|]. apply IH; [|done]. apply frame_ok_mono in H1. lia.
Qed.
Lemma chain_app s n fs fs' n' : chain s n (fs ++ fs') n' <-> exists m, chain s n fs m /\ chain s m fs' n'.
Proof.
  revert n. induction fs as [|fr fs IH]; intros n; cbn [chain app].
  - split; [by exists n|]. by intros (m & -> & ?).
  - setoid_rewrite IH. split.
    + intros (a & Ha & m & H1 & H2). exists m. eauto.
    + intros (m & (a & Ha & H1) & H2). exists a. eauto.
Qed.
Lemma chain_mono s n fs n' : chain s n fs n' -> n <= n'.
Proof.
  revert n. induction fs as [|fr fs IH]; intros n; cbn [chain]; [lia|].
  intros (m & H1%frame_ok_mono & H2%IH). lia.
Qed.

(** The sending and the receiving half of a flow. *)
Definition txs (f : mflow) :=
  (tx f, f_tx_base f, f_tx_pos f, f_socket_eof f, f_tx_final f, f_tx_fin_acked f,
   (f_out_kind f, f_out_pos f, f_out_frame f, f_out_offset f, f_out_end f), (f_id f, f_phase f, f_suspended f)).
Definition rxs (f : mflow) :=
  (rx f, f_rx_pos f, f_rx_commit f, f_rx_next f, (f_rx_fin f, f_rx_final f, f_rx_fin_applied f),
   (f_in_frame f, f_in_size f, f_in_pos f, f_in_offset f), f_phase f).

Lemma tx_ok_same f f' L : txs f' = txs f -> tx_ok f L -> tx_ok f' L.
Proof.
  intros E H. injection E as E1 E2 E3 E4 E5 E6 E7 E8 E9 E10 E11 E12 E13 E14.
  destruct H as [H1 H2 H3 H4 H5 H6]. constructor; unfold out_ok; old_fields f'; done.
Qed.
Lemma rest_same f f' L : txs f' = txs f -> rest f' L = rest f L.
Proof. intros E. injection E as E1 E2 E3 E4 E5 E6 E7 E8 E9 E10 E11 E12 E13 E14. unfold rest. old_fields f'. done. Qed.
Lemma tx_point_same f f' : txs f' = txs f -> tx_point f' = tx_point f.
Proof. intros E. injection E as E1 E2 E3 E4 E5 E6 E7 E8 E9 E10 E11 E12 E13 E14. unfold tx_point. old_fields f'. done. Qed.
Lemma rx_ok_same f f' L W : rxs f' = rxs f -> rx_ok f L W -> rx_ok f' L W.
Proof.
  intros E H. injection E as E1 E2 E3 E4 E5 E6 E7 E8 E9 E10 E11 E12.
  destruct H as [H1 H2 H3 H4 H5]. constructor; old_fields f'; done.
Qed.
Lemma in_state_same f f' n fs h : rxs f' = rxs f -> in_state f n fs h -> in_state f' n fs h.
Proof.
  intros E. injection E as E1 E2 E3 E4 E5 E6 E7 E8 E9 E10 E11 E12. unfold in_state.
  old_fields f'. done.
Qed.

(** The sending half of [x] is untouched; its receiving half may have done more. *)
Lemma dir_tx_frame x x' y q :
  txs (ep x') = txs (ep x) -> got x' = got x -> (up x' = true -> up x = true) -> zlen (put x) <= zlen (put x') ->
  (f_rx_fin_applied (ep x) = true -> f_rx_fin_applied (ep x') = true) ->
  (alive (ep x') -> f_suspended (ep x') = true -> idle (ep x')) ->
  dir x y q -> dir x' y q.
Proof.
  intros E Eg Eu Hput Happ Hidle [H1 Hlen H2 H3 H4 H5 H6 H7 H8 H9].
  pose proof E as E'. injection E' as E1 E2 E3 E4 E5 E6 E7 E8 E9 E10 E11 E12 E13 E14.
  assert (Hal : alive (ep x') <-> alive (ep x)) by (unfold alive; by rewrite E13).
  constructor; rewrite ?Eg, ?E4, ?E12; try done.
  - intros Ha. rewrite Hal in Ha. destruct (H3 Ha) as [Ht Hb]. split; [by apply (tx_ok_same (ep x))|by rewrite E2].
  - by rewrite E6.
  - intros Ha Hu. destruct (H9 Ha Hu) as (n & fs & h & R & n' & Hn & Hc & Hq & Hi & Hx).
    exists n, fs, h, R, n'. split; [done|]. split; [|split; [done|split; [done|]]].
    + eapply chain_le; [|done|exact Hc]. constructor; cbn; rewrite ?Eg, ?E4; try done. exists []. by rewrite app_nil_r.
    + intros Ha' Hu' Hs. rewrite E14 in Hs. rewrite Eg, (rest_same _ _ _ E), (tx_point_same _ _ E). apply Hx; [by apply Hal|auto|done].
Qed.
(** The receiving half of [y] is untouched. *)
Lemma dir_rx_frame x y y' q :
  rxs (ep y') = rxs (ep y) -> put y' = put y -> (up y' = true -> up y = true) -> dir x y q -> dir x y' q.
Proof.
  intros E Ep Eu [H1 Hlen H2 H3 H4 H5 H6 H7 H8 H9].
  pose proof E as E'. injection E' as E1 E2 E3 E4 E5 E6 E7 E8 E9 E10 E11 E12.
  assert (Hal : alive (ep y') <-> alive (ep y)) by (unfold alive; by rewrite E12).
  constructor; rewrite ?Ep, ?E5, ?E6, ?E7; try done.
  - intros Ha. apply (rx_ok_same (ep y)); [done|by apply H4, Hal].
  - intros Ha. by apply H6, Hal.
  - intros Ha Hu. destruct (H9 (proj1 Hal Ha) (Eu Hu)) as (n & fs & h & R & n' & Hn & Hc & Hq & Hi & Hx).
    exists n, fs, h, R, n'. split; [done|]. split; [done|split; [done|split; [|done]]]. by apply (in_state_same (ep y)).
Qed.

(** What outlives a flow: its identity and how its halves ended. *)
Definition ends (f : mflow) := (f_id f, f_socket_eof f, f_tx_fin_acked f, f_rx_fin_applied f).
Lemma dir_dead_tx x x' y q :
  f_phase (ep x') = M_DEAD -> ends (ep x') = ends (ep x) -> got x' = got x -> put x' = put x -> dir x y q -> dir x' y q.
Proof.
  intros Hd E Eg Ep [H1 Hlen H2 H3 H4 H5 H6 H7 H8 H9]. injection E as E1 E2 E3 E4.
  assert (Hdead : alive (ep x') -> False) by (unfold alive; congruence).
  constructor; rewrite ?Eg, ?E1, ?E2, ?E3; try done.
  intros Ha Hu. destruct (H9 Ha Hu) as (n & fs & h & R & n' & Hn & Hc & Hq & Hi & Hx).
  exists n, fs, h, R, n'. split; [done|]. split; [|split; [done|split; [done|by intros ?%Hdead]]].
  unfold sender_of in *. by rewrite Eg, Ep, E2, E4.
Qed.
Lemma dir_dead_rx x y y' q q' :
  f_phase (ep y') = M_DEAD -> ends (ep y') = ends (ep y) -> put y' = put y -> dir x y q -> dir x y' q'.
Proof.
  intros Hd E Ep [H1 Hlen H2 H3 H4 H5 H6 H7 H8 H9]. injection E as E1 E2 E3 E4.
  assert (Hdead : alive (ep y') -> False) by (unfold alive; congruence).
  constructor; rewrite ?Ep, ?E4; try done; by intros ?%Hdead.
Qed.
Lemma both_dead x x' y q1 q2 q2' :
  f_phase (ep x') = M_DEAD -> ends (ep x') = ends (ep x) -> got x' = got x -> put x' = put x -> both x y q1 q2 -> both x' y q1 q2'.
Proof. intros Hd E Eg Ep [H1 H2]. split; [by eapply dir_dead_tx|by eapply dir_dead_rx]. Qed.

(** ** Steps of one end *)

Definition after (x : endpoint) (f : mflow) (fx : list effect) : endpoint :=
  Endpoint f (up x && keeps_up fx) (got x ++ got_bytes fx) (put x ++ socket_bytes fx).
(** A step of an attached flow keeps both directions. *)
Definition ok_step (f f' : mflow) (fx : list effect) : Prop := forall x y q1 q2,
  ep x = f -> up x = true -> both x y q1 q2 -> both (after x f' fx) y (q1 ++ stream_bytes fx) q2.

Lemma after_app x f1 fx1 f2 fx2 : after (after x f1 fx1) f2 fx2 = after x f2 (fx1 ++ fx2).
Proof.
  unfold after, got_bytes, socket_bytes, keeps_up. cbn. by rewrite !flat_map_app, !app_assoc, forallb_app, andb_assoc.
Qed.
Lemma ok_step_trans f f1 f2 fx1 fx2 : keeps_up fx1 = true -> ok_step f f1 fx1 -> ok_step f1 f2 fx2 -> ok_step f f2 (fx1 ++ fx2).
Proof.
  intros Hk H1 H2 x y q1 q2 Ef Hu Hb. unfold stream_bytes. rewrite flat_map_app, app_assoc, <- (after_app x f1).
  apply H2; [done|cbn; by rewrite Hu, Hk|]. by apply H1.
Qed.
Lemma ok_step_nil f : ok_step f f [].
Proof.
  intros x y q1 q2 <- Hu Hb. unfold after. cbn. rewrite !app_nil_r, andb_true_r. by destruct x.
Qed.

(** Effects that carry no bytes. *)
Definition silent (fx : list effect) : Prop := stream_bytes fx = [] /\ socket_bytes fx = [] /\ got_bytes fx = [].
Lemma silent_app fx1 fx2 : silent fx1 -> silent fx2 -> silent (fx1 ++ fx2).
Proof. unfold silent, stream_bytes, socket_bytes, got_bytes. rewrite !flat_map_app. by intros (-> & -> & ->) (-> & -> & ->). Qed.
Lemma silent_free {A} (g : A -> list effect) l : (forall a, silent (g a)) -> silent (flat_map g l).
Proof. intros Hg. induction l as [|a l IH]; [done|]. cbn [flat_map]. by apply silent_app. Qed.
Lemma drop_udp_silent sp f : silent (m_drop_udp sp f).2.
Proof.
  apply silent_app; [|apply silent_free; by intros []]. induction (f_udp_queue f) as [|q l IH]; [done|]. exact IH.
Qed.
Lemma release_silent sp f : silent (m_release_io sp f).2.
Proof.
  unfold m_release_io. pose proof (drop_udp_silent sp (m_resolve_detach f <| f_fd := false |> <| f_tx := None |> <| f_rx := None |>)) as H.
  destruct (m_drop_udp _ _) as [f1 fx]. repeat apply silent_app; [by destruct (f_fd f)|by destruct (bool_decide _)..|done].
Qed.
Lemma release_ends sp f : ends (m_release_io sp f).1 = ends f /\ f_phase (m_release_io sp f).1 = f_phase f.
Proof. done. Qed.
Lemma abort_spec sp f : f_phase (m_abort sp f).1 = M_DEAD /\ ends (m_abort sp f).1 = ends f /\ silent (m_abort sp f).2.
Proof.
  unfold m_abort. pose proof (release_ends sp (f <| f_phase := M_DEAD |>)) as [He Hp].
  pose proof (release_silent sp (f <| f_phase := M_DEAD |>)) as Hs. destruct (m_release_io _ _) as [f1 fx]. cbn [fst snd] in *.
  destruct (f_stream f1 && _); cbn [fst snd]; [|by rewrite He, Hp].
  split; [exact Hp|]. split; [exact He|]. by apply silent_app.
Qed.
Lemma ok_step_dead f f' fx : f_phase f' = M_DEAD -> ends f' = ends f -> silent fx -> ok_step f f' fx.
Proof.
  intros Hd He (S1 & S2 & S3) x y q1 q2 <- Hu Hb. rewrite S1, app_nil_r.
  eapply both_dead; [exact Hd|exact He|..|exact Hb]; cbn; by rewrite ?S2, ?S3, app_nil_r.
Qed.

Definition attached (f : mflow) : Prop := alive f /\ f_suspended f = false.
Lemma attached_same f f' : txs f' = txs f -> attached f -> attached f'.
Proof. unfold attached, alive. intros [= _ _ _ _ _ _ _ _ _ _ _ _ -> ->]. done. Qed.
Lemma attached_idle f (P : Prop) : attached f -> alive f -> f_suspended f = true -> P.
Proof. intros [_ ?]. congruence. Qed.

(** [n] bytes of the receive buffer go to the socket. *)
Lemma ok_step_write f f' n :
  attached f -> txs f' = txs f -> 0 < n <= zlen (rx f) - f_rx_pos f ->
  f_rx_commit f' = f_rx_commit f + n -> f_rx_next f' = f_rx_next f -> 0 <= f_rx_pos f' <= zlen (rx f') ->
  zdrop (f_rx_pos f') (rx f') = zdrop (f_rx_pos f + n) (rx f) ->
  (f_rx_fin f', f_rx_final f', f_rx_fin_applied f', f_in_frame f', f_in_size f', f_in_pos f', f_in_offset f') =
  (f_rx_fin f, f_rx_final f, f_rx_fin_applied f, f_in_frame f, f_in_size f, f_in_pos f, f_in_offset f) ->
  ok_step f f' [FxSocket (zsub (f_rx_pos f) n (rx f))].
Proof.
  intros Ha Etx Hn Ec En Hpos Hd Eo x y q1 q2 <- Hu [Hxy Hyx]. unfold after. cbn. rewrite !app_nil_r, Hu. cbn.
  pose proof (attached_same _ _ Etx Ha) as [Ha' Hs']. destruct Ha as [Hal Hsus].
  pose proof (d_rx _ _ _ Hyx Hal) as [Rc Rp Rn Rb Ry]. injection Eo as O1 O2 O3 O4 O5 O6 O7.
  assert (Hv : zsub (f_rx_pos (ep x)) n (rx (ep x)) = zsub (f_rx_commit (ep x)) n (got y)).
  { unfold zsub at 1. rewrite Ry. unfold zsub. rewrite ztake_ztake. f_equal. lia. }
  pose proof (zlen_nonneg (put x)).
  assert (Hzv : zlen (zsub (f_rx_pos (ep x)) n (rx (ep x))) = n) by (rewrite zlen_sub; lia).
  split.
  - apply (dir_tx_frame x); [exact Etx|done|done|cbn; rewrite zlen_app; lia|cbn; by rewrite O3|by cbn; congruence|done].
  - pose proof Hyx as [H1 Hlen H2 H3 H4 H5 H6 H7 H8 H9]. constructor; cbn; rewrite ?O1, ?O2, ?O3; try done.
    + rewrite zlen_app, Hzv, Hv, ztake_add by lia. rewrite Rc. by rewrite <- H2.
    + intros Hy. destruct (H3 Hy) as [Ht Hb]. split; [done|]. rewrite zlen_app. lia.
    + intros _. assert (Hz : zlen (zdrop (f_rx_pos f') (rx f')) = zlen (zdrop (f_rx_pos (ep x) + n) (rx (ep x)))) by congruence.
      rewrite !zlen_drop in Hz. constructor; rewrite ?zlen_app, ?Hzv; try lia.
      rewrite Hd. replace (f_rx_pos (ep x) + n) with (n + f_rx_pos (ep x)) by lia.
      rewrite <- zdrop_zdrop, Ry by lia. unfold zsub. rewrite zdrop_ztake, zdrop_zdrop, En, Ec by lia. f_equal; [lia|f_equal; lia].
    + intros _. by apply H6.
    + intros Hap. destruct (H7 Hap) as [? Hpg]. rewrite <- Hpg in *. lia.
    + intros _ _. destruct (H9 Hal Hu) as (k & fs & h & R & n' & Hk & Hc & Hq & Hi & Hx). exists k, fs, h, R, n'.
      split; [done|]. split; [done|]. split; [done|]. split; [|done]. cbn. unfold in_state in *. by rewrite O4, O5, O6, O7, En.
Qed.

Lemma drained_spec f : txs (v2_drained f) = txs f /\ f_rx_commit (v2_drained f) = f_rx_commit f /\ f_rx_next (v2_drained f) = f_rx_next f /\
  (f_rx_fin (v2_drained f), f_rx_final (v2_drained f), f_rx_fin_applied (v2_drained f), f_in_frame (v2_drained f), f_in_size (v2_drained f),
   f_in_pos (v2_drained f), f_in_offset (v2_drained f)) =
  (f_rx_fin f, f_rx_final f, f_rx_fin_applied f, f_in_frame f, f_in_size f, f_in_pos f, f_in_offset f) /\
  (0 <= f_rx_pos f <= zlen (rx f) -> 0 <= f_rx_pos (v2_drained f) <= zlen (rx (v2_drained f))) /\
  zdrop (f_rx_pos (v2_drained f)) (rx (v2_drained f)) = zdrop (f_rx_pos f) (rx f).
Proof.
  unfold v2_drained. destruct (Z.eqb_spec (f_rx_pos f) (zlen (rx f))); [|done].
  do 4 (split; [reflexivity|]). split; [by intros _; cbn|]. cbn. symmetry. apply zdrop_ge. lia.
Qed.
Lemma to_socket_ok now a f f' fx :
  attached f -> 0 <= f_rx_pos f -> v2_to_socket now a f = Some (f', fx) -> ok_step f f' fx /\ keeps_up fx = true /\ txs f' = txs f.
Proof.
  intros Ha Hp. unfold v2_to_socket.
  assert (Hnil : ok_step f f [] /\ keeps_up [] = true /\ txs f = txs f) by (split; [apply ok_step_nil|done]).
  destruct (t_pollout a && _) eqn:E; [|by intros [<- <-]%some_pair_inj]. bools.
  assert (Hdr : v2_drained f = f) by (unfold v2_drained; replace (_ =? _) with false by lia; done).
  destruct (t_send a) as [n| |]; [|by rewrite Hdr; intros [<- <-]%some_pair_inj|done].
  destruct (0 <? taken n _) eqn:En; [|by rewrite Hdr; intros [<- <-]%some_pair_inj]. bools.
  set (k := taken n _) in *. assert (Hk : 0 < k <= zlen (rx f) - f_rx_pos f) by (unfold k, taken in *; lia). clearbody k.
  intros [<- <-]%some_pair_inj.
  set (g := f <| f_rx_pos ::= _ |> <| f_rx_commit ::= _ |> <| f_last_io := _ |> <| f_ack_dirty := _ |>).
  destruct (drained_spec g) as (D1 & D2 & D3 & D4 & D5 & D6).
  assert (G : txs g = txs f /\ rx g = rx f /\ f_rx_pos g = k + f_rx_pos f /\ f_rx_commit g = k + f_rx_commit f /\ f_rx_next g = f_rx_next f /\
    (f_rx_fin g, f_rx_final g, f_rx_fin_applied g, f_in_frame g, f_in_size g, f_in_pos g, f_in_offset g) =
    (f_rx_fin f, f_rx_final f, f_rx_fin_applied f, f_in_frame f, f_in_size f, f_in_pos f, f_in_offset f)) by done.
  clearbody g. destruct G as (G1 & G2 & G3 & G4 & G5 & G6). split; [|split; [done|congruence]].
  apply ok_step_write; try done; try congruence; try lia.
  - rewrite G2, G3 in D5. apply D5. lia.
  - rewrite D6, G2, G3. f_equal. lia.
Qed.

(** The far end has closed and everything is written. *)
Lemma apply_fin_ok a f f' fx :
  attached f -> v2_apply_fin a f = Some (f', fx) -> ok_step f f' fx /\ keeps_up fx = true /\ txs f' = txs f.
Proof.
  intros Ha. unfold v2_apply_fin. destruct (_ && _) eqn:E; [|by intros [<- <-]%some_pair_inj; split; [apply ok_step_nil|]]. bools.
  destruct (t_shutdown_ok a); [|done]. intros [<- <-]%some_pair_inj. split; [|done].
  intros x y q1 q2 <- Hu [Hxy Hyx]. unfold after. cbn. rewrite !app_nil_r, Hu. destruct Ha as [Hal Hsus]. split.
  - apply (dir_tx_frame x); cbn; try done. congruence.
  - destruct Hyx as [K1 Klen K2 K3 K4 K5 K6 K7 K8 K9]. constructor; cbn; try done.
    + intros _. destruct (K4 Hal) as [R1 R2 R3 R4 R5]. by constructor.
    + intros _. destruct (K6 Hal) as [He Hf]; [done|]. split; [done|]. pose proof (ro_commit _ _ _ (K4 Hal)).
      rewrite K2. apply ztake_ge. lia.
    + intros _ _. destruct (K9 Hal Hu) as (k & fs & h & R & n' & Hrest). by exists k, fs, h, R, n'.
Qed.

Lemma prefix_len {A} (l k : list A) : l = ztake (zlen l) k -> zlen l <= zlen k.
Proof. intros H. rewrite H, zlen_take. pose proof (zlen_nonneg l). pose proof (zlen_nonneg k). lia. Qed.
Lemma tx_next_spec f L : tx_ok f L -> m_tx_next f = zlen L.
Proof.
  intros [H1 H2 H3 H4 H5 H6]. unfold m_tx_next. rewrite H3, zlen_drop, u64_small; lia.
Qed.
Lemma rx_ok_app f L l W : rx_ok f L W -> rx_ok f (L ++ l) W.
Proof.
  intros [H1 H2 H3 H4 H5]. pose proof (zlen_nonneg l). pose proof (zlen_nonneg W).
  constructor; rewrite ?zlen_app; try done; [lia|]. by rewrite zsub_app_l by lia.
Qed.
Lemma rest_app f L l : tx_ok f L -> rest f (L ++ l) = rest f L.
Proof.
  intros [H1 H2 H3 H4 H5 H6]. unfold rest. destruct (_ =? 0) eqn:E0; [done|]. bools.
  destruct (_ =? M_V2_DATA) eqn:E1; [|done]. bools.
  destruct H6 as [?|(_ & _ & [?|[?|(_ & Ho & Hb)]])]; [done|unfold M_V2_DATA, M_V2_ACK, M_V2_FIN in *; lia..|].
  by rewrite zsub_app_l by lia.
Qed.

(** More bytes, or the end, from the socket. *)
Lemma ok_step_got f f' v :
  attached f -> f_socket_eof f = false -> (f_socket_eof f' = true -> v = []) ->
  (forall L, tx_ok f L -> (v <> [] -> zlen L + zlen v <= UINT64_MAX) -> tx_ok f' (L ++ v)) ->
  (v <> [] -> m_tx_next f <= UINT64_MAX - zlen v) ->
  (f_tx_base f', f_tx_pos f', f_tx_fin_acked f', (f_out_kind f', f_out_pos f', f_out_frame f', f_out_offset f', f_out_end f'), (f_id f', f_phase f', f_suspended f')) =
  (f_tx_base f, f_tx_pos f, f_tx_fin_acked f, (f_out_kind f, f_out_pos f, f_out_frame f, f_out_offset f, f_out_end f), (f_id f, f_phase f, f_suspended f)) ->
  rxs f' = rxs f -> forall x y q1 q2, ep x = f -> up x = true -> both x y q1 q2 ->
  both (Endpoint f' (up x) (got x ++ v) (put x)) y q1 q2.
Proof.
  intros [Hal Hs] He Hev Htx Hmax E Erx x y q1 q2 <- Hu [Hxy Hyx]. split; [|by apply (dir_rx_frame _ x)].
  injection E as E1 E2 E3 E4 E5 E6 E7 E8 E9 E10 E11. injection Erx as X1 X2 X3 X4 X5 X6 X7 X8 X9 X10 X11 X12.
  destruct Hxy as [H1 Hlen H2 H3 H4 H5 H6 H7 H8 H9]. destruct (H3 Hal) as [Ht Hb].
  assert (Hmore : v <> [] -> zlen (got x) + zlen v <= UINT64_MAX).
  { intros Hv. specialize (Hmax Hv). rewrite (tx_next_spec _ _ Ht) in Hmax. lia. }
  constructor; cbn; rewrite ?E9; try done.
  - rewrite zlen_app. destruct (decide (v = [])) as [->|Hv]; [rewrite zlen_nil; lia|by apply Hmore].
  - rewrite ztake_app_le; [done|]. by apply prefix_len.
  - intros _. split; [by apply Htx|]. rewrite E1. done.
  - intros Hy. by apply rx_ok_app, H4.
  - intros _. rewrite E11. congruence.
  - intros Hy Hf. destruct (H6 Hy Hf). congruence.
  - intros Hf. destruct (H7 Hf). congruence.
  - by rewrite E3.
  - intros Hy Huy. destruct (H9 Hy Huy) as (n & fs & h & R & n' & Hn & Hc & Hq & Hi & Hx). exists n, fs, h, R, n'.
    split; [done|]. split; [|split; [done|split; [done|]]].
    + eapply chain_le; [|done|exact Hc]. constructor; cbn; try done; [|by rewrite X7|congruence]. exists v. split; [done|congruence].
    + intros _ _ _. destruct (Hx Hal Hu Hs) as [-> <-]. cbn. rewrite <- (rest_app _ _ v Ht). unfold rest, tx_point. by rewrite E1, E2, E4, E5, E6, E7, E8.
Qed.
Lemma from_socket_ok now a f f' fx :
  attached f -> v2_from_socket now a f = inr (Some (f', fx)) -> ok_step f f' fx /\ keeps_up fx = true /\ f_id f' = f_id f /\ attached f'.
Proof.
  intros Ha. assert (Hnil : ok_step f f [] /\ keeps_up [] = true /\ f_id f = f_id f /\ attached f) by (split; [apply ok_step_nil|done]).
  unfold v2_from_socket. destruct (t_pollin a && _) eqn:E; [|by intros [<- <-]%(inj _)%some_pair_inj]. bools.
  destruct (_ =? 0); [by intros [<- <-]%(inj _)%some_pair_inj|].
  destruct (t_recv a) as [v0| |]; [|by intros [<- <-]%(inj _)%some_pair_inj|done]. set (v := ztake _ v0). clearbody v. clear v0.
  destruct (zlen v =? 0) eqn:Ev; [intros [<- <-]%(inj _)%some_pair_inj|destruct (_ <? m_tx_next f) eqn:Em; [done|intros [<- <-]%(inj _)%some_pair_inj]]; bools;
    (split; [|done]); intros x y q1 q2 Hx Hu Hb; unfold after; cbn; rewrite !app_nil_r, andb_true_r.
  - rewrite <- (app_nil_r (got x)). apply (ok_step_got f _ []); try done. intros L Ht _. rewrite app_nil_r. destruct Ht as [T1 T2 T3 T4 T5 T6] eqn:HT.
    constructor; try done. intros _. cbn. rewrite <- (tx_next_spec f L Ht). done.
  - apply (ok_step_got f _ v); try done; [cbn; congruence|]. intros L [T1 T2 T3 T4 T5 T6] Hl.
    assert (v <> []) as Hne by (by intros ->). pose proof (zlen_nonneg v). constructor; cbn.
    + rewrite zlen_app. by apply Hl.
    + rewrite zlen_app. lia.
    + change (tx f ++ v = zdrop (f_tx_base f) (L ++ v)). by rewrite zdrop_app_le, T3 by lia.
    + change (0 <= f_tx_pos f <= zlen (tx f ++ v)). rewrite zlen_app. pose proof (zlen_nonneg v). lia.
    + congruence.
    + destruct T6 as [T6|(T6 & T7 & T8)]; [by left|right]. split; [done|]. split; [done|]. cbn.
      destruct T8 as [?|[?|(? & ? & ?)]]; [by left|by right; left|right; right]. split; [done|]. split; [done|].
      rewrite zlen_app. pose proof (zlen_nonneg v). lia.
Qed.

(** ** Sending *)

Lemma header_len kind flags len i o : zlen (v2_frame_header kind flags len i o) = M_V2_HEADER.
Proof. unfold v2_frame_header. by rewrite !zlen_app, zlen_put16, !zlen_put64. Qed.
Lemma enc_len fr : M_V2_HEADER <= zlen (enc fr).
Proof. destruct fr as [o p| |]; cbn [enc]; rewrite ?zlen_app, header_len; pose proof (zlen_nonneg (A:=Z)); try specialize (H p); lia. Qed.
Lemma wire_app fs fs' : wire (fs ++ fs') = wire fs ++ wire fs'.
Proof. apply flat_map_app. Qed.
Lemma in_state_len f n fs h : in_state f n fs h -> 0 <= h <= zlen (wire fs).
Proof.
  intros [(? & ? & _)|(o & p & fs' & -> & -> & _ & _ & _ & ? & _)]; [lia|].
  cbn [wire flat_map enc]. rewrite !zlen_app, header_len. pose proof (zlen_nonneg (flat_map enc fs')). unfold M_V2_HEADER. lia.
Qed.
Lemma in_state_app f n fs h fs' : in_state f n fs h -> in_state f n (fs ++ fs') h.
Proof.
  intros [(? & ? & Hf & ?)|(o & p & l & -> & H)]; [left|right; by exists o, p, (l ++ fs')].
  rewrite wire_app, zlen_app, ztake_app_le by lia. pose proof (zlen_nonneg (wire fs')). split_and!; try done; lia.
Qed.

(** Only the output side of the sending half changes. *)
Definition outs_same (f f' : mflow) : Prop :=
  (tx f', f_tx_base f', f_socket_eof f', f_tx_final f', f_tx_fin_acked f', (f_id f', f_phase f', f_suspended f')) =
  (tx f, f_tx_base f, f_socket_eof f, f_tx_final f, f_tx_fin_acked f, (f_id f, f_phase f, f_suspended f)).
Lemma dir_sent x f' u y q q' :
  attached (ep x) -> outs_same (ep x) f' -> rxs f' = rxs (ep x) -> tx_ok f' (got x) ->
  (alive (ep y) -> up y = true -> stream_ok x y q -> stream_ok (Endpoint f' u (got x) (put x)) y q') ->
  dir x y q -> dir (Endpoint f' u (got x) (put x)) y q'.
Proof.
  intros [Hal Hs] E Erx Ht Hst [H1 Hlen H2 H3 H4 H5 H6 H7 H8 H9]. injection E as E1 E2 E3 E4 E5 E6 E7 E8.
  constructor; cbn; rewrite ?E3, ?E6; try done.
  - intros _. split; [done|]. rewrite E2. by apply H3.
  - intros _. congruence.
  - by rewrite E5.
  - intros Hy Hu. by apply Hst; [..|apply H9].
Qed.
(** The next bytes of the current frame are sent; when the stream is lost with them the
    flow's own positions no longer matter. *)
Lemma ok_step_sent f f' fx :
  attached f -> outs_same f f' -> rxs f' = rxs f -> socket_bytes fx = [] -> got_bytes fx = [] ->
  (forall L, tx_ok f L -> tx_ok f' L) ->
  (forall L, tx_ok f L -> exists R, rest f L = stream_bytes fx ++ R /\ (keeps_up fx = true -> R = rest f' L /\ tx_point f' = tx_point f)) ->
  ok_step f f' fx.
Proof.
  intros Ha E Erx S1 S2 Htx Hrest x y q1 q2 <- Hu [Hxy Hyx]. unfold after. rewrite S1, S2, !app_nil_r.
  destruct (d_tx _ _ _ Hxy (proj1 Ha)) as [Ht _]. destruct (Hrest _ Ht) as (R' & HR & Hk).
  split; [|apply (dir_rx_frame _ x); [done|done|cbn; rewrite Hu; done|done]].
  apply (dir_sent x _ _ _ q1); [done..|by apply Htx| |done].
  intros Hy Huy (n & fs & h & R & n' & Hn & Hc & Hq & Hi & Hx). destruct Ha as [Hal Hs]. destruct (Hx Hal Hu Hs) as [-> <-].
  exists n, fs, h, R', (tx_point (ep x)). split; [done|]. split.
  { unfold sender_of in *. cbn. injection E as _ _ -> _ _ _ _ _. injection Erx as _ _ _ _ _ _ -> _ _ _ _ _. done. }
  split; [by rewrite <- app_assoc, <- HR|]. split; [done|]. cbn. rewrite Hu. cbn. intros _ Hku _. by apply Hk.
Qed.
(** A new frame is put at the end of what is to be sent. *)
Lemma ok_step_frame f f' :
  attached f -> outs_same f f' -> rxs f' = rxs f -> f_out_kind f = 0 -> (forall L, tx_ok f L -> tx_ok f' L) ->
  (forall x, ep x = f -> tx_ok f (got x) -> f_rx_commit f = zlen (put x) ->
     exists fr, rest f' (got x) = enc fr /\ frame_ok (sender_of x) (f_tx_base f + f_tx_pos f) fr (tx_point f')) ->
  ok_step f f' [].
Proof.
  intros Ha E Erx Hk Htx Hfr x y q1 q2 <- Hu [Hxy Hyx]. unfold after. cbn. rewrite !app_nil_r, andb_true_r.
  destruct (d_tx _ _ _ Hxy (proj1 Ha)) as [Ht _]. pose proof (d_rx _ _ _ Hyx (proj1 Ha)) as Hr.
  destruct (Hfr x eq_refl Ht (ro_commit _ _ _ Hr)) as (fr & Hrest & Hok).
  split; [|apply (dir_rx_frame _ x); done]. apply (dir_sent x _ _ _ q1); [done..|by apply Htx| |done].
  intros Hy Huy (n & fs & h & R & n' & Hn & Hc & Hq & Hi & Hx). destruct Ha as [Hal Hs]. destruct (Hx Hal Hu Hs) as [-> <-].
  assert (Hp : tx_point (ep x) = f_tx_base (ep x) + f_tx_pos (ep x)) by (unfold tx_point; by rewrite Hk).
  exists n, (fs ++ [fr]), h, (enc fr), (tx_point f'). split; [done|]. split.
  { assert (Hse : sender_of (Endpoint f' (up x) (got x) (put x)) = sender_of x).
    { unfold sender_of. cbn. injection E as _ _ -> _ _ _ _ _. injection Erx as _ _ _ _ _ _ -> _ _ _ _ _. done. }
    rewrite Hse. apply chain_app. exists (tx_point (ep x)). split; [done|]. cbn [chain]. exists (tx_point f'). rewrite Hp. done. }
  pose proof (in_state_len _ _ _ _ Hi). split.
  { unfold rest in Hq. rewrite Hk in Hq. change (0 =? 0) with true in Hq. rewrite app_nil_r in Hq.
    rewrite wire_app, zdrop_app_le, <- Hq by lia. cbn [wire flat_map]. by rewrite app_nil_r. }
  split; [by apply in_state_app|]. cbn. done.
Qed.

(** A flow that may send: attached, with the identity of the connection. *)
Definition sends (f : mflow) : Prop := attached f /\ f_id f = id.
Lemma outs_sends f f' : outs_same f f' -> sends f -> sends f'.
Proof. unfold sends, attached, alive. intros [= _ _ _ _ _ -> -> ->]. done. Qed.
#[local] Arguments v2_frame_header : simpl never.
#[local] Arguments rest : simpl never.

Lemma next_frame_ok f f' :
  sends f -> v2_next_frame f = Some f' -> ok_step f f' [] /\ outs_same f f' /\ rxs f' = rxs f /\ f_out_kind f' <> 0.
Proof.
  intros [Ha Hid]. unfold v2_next_frame. destruct (truth _) eqn:E0.
  { intros [= <-]. split; [apply ok_step_nil|]. split; [done|]. split; [done|]. unfold truth in E0. bools. done. }
  unfold truth in E0. bools.
  destruct (f_ack_dirty f); [|destruct (_ <? _) eqn:E1; [|destruct (_ && _) eqn:E2; [|done]]]; intros [= <-]; (split; [|done]).
  - apply ok_step_frame; [done|done|done|done| |].
    + intros L [T1 T2 T3 T4 T5 T6]. constructor; try done. right. cbn. rewrite header_len. unfold M_V2_HEADER. split; [lia|auto].
    + intros x <- Ht Hc. exists (FAck (f_rx_commit (ep x)) (if f_rx_fin_applied (ep x) then 1 else 0)).
      unfold rest. cbn. rewrite Hid, app_nil_r. split; [reflexivity|]. split; [done|]. rewrite Hc. pose proof (zlen_nonneg (put x)).
      split; [lia|]. unfold sn_applied, sender_of. destruct (f_rx_fin_applied (ep x)); auto.
  - bools. set (len := Z.min _ _).
    assert (Hb : forall L, tx_ok f L -> 0 < len <= M_IO_BUDGET /\ f_tx_base f + f_tx_pos f + len <= zlen L /\
                 u64 (f_tx_base f + f_tx_pos f) = f_tx_base f + f_tx_pos f /\ u64 (f_tx_base f + f_tx_pos f + len) = f_tx_base f + f_tx_pos f + len).
    { intros L [T1 T2 T3 T4 T5 T6]. assert (zlen (tx f) = zlen L - f_tx_base f) by (rewrite T3, zlen_drop; lia). assert (0 < len <= M_IO_BUDGET) by (unfold len, M_IO_BUDGET in *; lia).
      assert (f_tx_base f + f_tx_pos f + len <= zlen L) by (unfold len in *; lia). split; [done|]. split; [done|]. split; apply u64_small; lia. }
    clearbody len. apply ok_step_frame; [done|done|done|done| |].
    + intros L Ht. destruct (Hb L Ht) as (B1 & B2 & B3 & B4). destruct Ht as [T1 T2 T3 T4 T5 T6].
      constructor; try done. right. cbn. rewrite header_len, B3, B4. unfold M_V2_HEADER. split; [lia|]. split; [done|]. right; right. split; [done|]. lia.
    + intros x <- Ht Hc. destruct (Hb _ Ht) as (B1 & B2 & B3 & B4). destruct Ht as [T1 T2 T3 T4 T5 T6].
      set (o := f_tx_base (ep x) + f_tx_pos (ep x)) in *.
      assert (Hl : zlen (zsub o len (got x)) = len) by (apply zlen_sub; lia).
      exists (FData o (zsub o len (got x))). unfold rest. cbn. rewrite Hid, B3, B4, Hl. split.
      { do 2 f_equal. lia. }
      split; [done|]. split; [unfold tx_point; cbn; lia|]. split; [lia|]. split; [unfold tx_point; cbn; lia|done].
  - bools. apply ok_step_frame; [done|done|done|done| |].
    + intros L [T1 T2 T3 T4 T5 T6]. constructor; try done. right. cbn. rewrite header_len. unfold M_V2_HEADER. split; [lia|auto].
    + intros x <- [T1 T2 T3 T4 T5 T6] Hc. exists (FFin (f_tx_final (ep x))). unfold rest. cbn. rewrite Hid, app_nil_r. split; [reflexivity|].
      assert (zlen (tx (ep x)) = zlen (got x) - f_tx_base (ep x)) by (rewrite T3, zlen_drop; lia).
      rewrite T5 by done. unfold tx_point. cbn. split; [done|]. split; [lia|done].
Qed.

Lemma zdrop_split {A} n k (l : list A) : 0 <= n -> 0 <= k -> zdrop n l = zsub n k l ++ zdrop (n + k) l.
Proof. intros. unfold zsub. rewrite <- (ztake_zdrop k (zdrop n l)) at 1. by rewrite zdrop_zdrop, Z.add_comm by lia. Qed.
Lemma silent_fail fx : Forall (fun e => match e with FxFail _ _ | FxTransport _ _ => True | _ => False end) fx -> silent fx.
Proof. induction 1 as [|[] fx H _ IH]; done. Qed.

(** A failure is reported and nothing changes. *)
Lemma ok_step_fail f fx :
  Forall (fun e => match e with FxFail _ _ | FxTransport _ _ => True | _ => False end) fx -> ok_step f f fx.
Proof.
  intros Hf. destruct (silent_fail _ Hf) as (S1 & S2 & S3). intros x y q1 q2 <- Hu [Hxy Hyx]. unfold after.
  rewrite S1, S2, S3, !app_nil_r, Hu. split; [apply (dir_tx_frame x); try done; apply (d_idle _ _ _ Hxy)|by apply (dir_rx_frame _ x)].
Qed.

Lemma stream_one v b fx : fx = [] \/ fx = [FxGone] -> stream_bytes (FxStream v b :: fx) = v.
Proof. intros [->| ->]; apply app_nil_r. Qed.
Lemma send_header_ok ans f ok ans' f' fx :
  sends f -> f_out_kind f <> 0 -> v2_send_header ans f = (ok, ans', f', fx) ->
  ok_step f f' fx /\ outs_same f f' /\ rxs f' = rxs f /\ f_out_kind f' = f_out_kind f /\ (ok = true -> keeps_up fx = true /\ M_V2_HEADER <= f_out_pos f').
Proof.
  intros [Ha Hid] Hk. unfold v2_send_header. destruct (_ <? _) eqn:E; bools.
  2:{ intros [= <- <- <- <-]. split; [apply ok_step_nil|done]. }
  destruct ans as [|[n lost| |] ans]; [by intros [= <- <- <- <-]; split; [apply ok_step_nil|]| | |].
  - set (k := taken n _). assert (0 <= k <= M_V2_HEADER - f_out_pos f) by (unfold k, taken; lia). clearbody k.
    assert (Hpos : forall L, tx_ok f L -> 0 <= f_out_pos f /\ zlen (f_out_frame f) = M_V2_HEADER /\
              rest f L = zsub (f_out_pos f) k (f_out_frame f) ++ rest (f <| f_out_pos ::= Z.add k |>) L).
    { intros L [T1 T2 T3 T4 T5 [T6|(T6 & T7 & T8)]]; [done|]. split; [lia|]. split; [done|].
      unfold rest. cbn. replace (_ =? 0) with false by lia. rewrite (zdrop_split _ k), <- app_assoc by lia. do 3 f_equal. lia. }
    destruct lost; intros [= <- <- <- <-].
    + split; [|done]. apply ok_step_sent; try done. intros L Ht. destruct (Hpos L Ht) as (_ & _ & ->).
      exists (rest (f <| f_out_pos ::= Z.add k |>) L). by rewrite stream_one by auto.
    + split; [|split; [done|]; split; [done|]; split; [done|]; intros ?; bools; done]. apply ok_step_sent; try done.
      * intros L Ht. destruct (Hpos L Ht) as (P1 & P2 & _). destruct Ht as [T1 T2 T3 T4 T5 [T6|(T6 & T7 & T8)]]; [done|].
        constructor; try done. right. cbn. split; [lia|]. done.
      * intros L Ht. destruct (Hpos L Ht) as (_ & _ & ->).
      exists (rest (f <| f_out_pos ::= Z.add k |>) L). by rewrite stream_one by auto.
  - intros [= <- <- <- <-]. split; [apply ok_step_nil|done].
  - intros [= <- <- <- <-]. split; [apply ok_step_fail; by repeat constructor|done].
Qed.
Lemma send_payload_ok ans f ok ans' f' fx :
  sends f -> f_out_kind f <> 0 -> M_V2_HEADER <= f_out_pos f -> v2_send_payload ans f = (ok, ans', f', fx) ->
  ok_step f f' fx /\ outs_same f f' /\ rxs f' = rxs f /\ f_out_kind f' = f_out_kind f /\ M_V2_HEADER <= f_out_pos f' /\
  (ok = true -> keeps_up fx = true /\ (f_out_kind f' = M_V2_DATA -> f_out_end f' <= f_out_offset f')).
Proof.
  intros [Ha Hid] Hk Hhdr. unfold v2_send_payload. destruct (_ && _) eqn:E.
  2:{ intros [= <- <- <- <-]. split; [apply ok_step_nil|]. do 4 (split; [done|]). intros _. split; [done|]. intros Hd.
      rewrite Hd in E. cbn in E. bools. done. }
  bools. destruct (_ || _) eqn:Er; [intros [= <- <- <- <-]; split; [apply ok_step_fail; by repeat constructor|done]|]. bools.
  destruct ans as [|[n lost| |] ans]; [by intros [= <- <- <- <-]; split; [apply ok_step_nil|]| | |].
  - set (k := taken n _). assert (0 <= k <= f_out_end f - f_out_offset f) by (unfold k, taken; lia). clearbody k.
    set (f1 := f <| f_out_offset ::= Z.add k |>).
    set (f2 := f1 <| f_tx_pos := f_out_offset f1 - f_tx_base f1 |> <| f_tx_sent_high ::= Z.max (f_out_offset f1) |>).
    assert (Hpos : forall L, tx_ok f L -> tx_ok f2 L /\
              rest f L = zsub (f_out_offset f - f_tx_base f) k (tx f) ++ rest f2 L /\ tx_point f2 = tx_point f).
    { intros L [T1 T2 T3 T4 T5 [T6|(T6 & T7 & [T8|[T8|(T8 & T9 & T10)]])]]; [done|unfold M_V2_DATA, M_V2_ACK, M_V2_FIN in *; lia..|].
      assert (zlen (tx f) = zlen L - f_tx_base f) by (rewrite T3, zlen_drop; lia).
      split; [|split; [|unfold tx_point; change (f_out_kind f2) with (f_out_kind f); by rewrite T8]].
      - constructor; try done; [|right].
        + change (0 <= k + f_out_offset f - f_tx_base f <= zlen (tx f)). lia.
        + cbn. split; [lia|]. split; [done|]. right; right. split; [done|]. lia.
      - unfold rest. cbn. rewrite T8. cbn. assert (zdrop (f_out_pos f) (f_out_frame f) = []) as -> by (apply zdrop_ge; lia). cbn.
        rewrite T3. unfold zsub at 2. rewrite zdrop_zdrop by lia. replace (f_out_offset f - f_tx_base f + f_tx_base f) with (f_out_offset f) by lia.
        fold (zsub (f_out_offset f) k L). replace (f_out_end f - f_out_offset f) with (k + (f_out_end f - (k + f_out_offset f))) by lia.
        rewrite zsub_split by lia. do 2 f_equal. lia. }
    destruct lost; intros [= <- <- <- <-].
    + split; [|done]. apply ok_step_sent; try done. intros L Ht. destruct (Hpos L Ht) as (_ & -> & _).
      exists (rest f2 L). by rewrite stream_one by auto.
    + fold f1. fold f2. split; [|split; [done|]; split; [done|]; split; [done|]; split; [done|]; intros ?; split; [done|]; intros _; bools; done].
      apply ok_step_sent; try done.
      * intros L Ht. by apply Hpos.
      * intros L Ht. destruct (Hpos L Ht) as (_ & -> & Hpt).
        exists (rest f2 L). by rewrite stream_one by auto.
  - intros [= <- <- <- <-]. split; [apply ok_step_nil|done].
  - intros [= <- <- <- <-]. split; [apply ok_step_fail; by repeat constructor|done].
Qed.

Lemma complete_ok f :
  sends f -> f_out_kind f <> 0 -> M_V2_HEADER <= f_out_pos f -> (f_out_kind f = M_V2_DATA -> f_out_end f <= f_out_offset f) ->
  ok_step f (v2_complete f) [] /\ outs_same f (v2_complete f) /\ rxs (v2_complete f) = rxs f.
Proof.
  intros [Ha Hid] Hk Hp Hd.
  assert (Hs : outs_same f (v2_complete f) /\ rxs (v2_complete f) = rxs f /\ f_out_kind (v2_complete f) = 0 /\ f_tx_pos (v2_complete f) = f_tx_pos f).
  { unfold v2_complete. destruct (_ =? M_V2_ACK); [destruct (_ && _)|destruct (_ =? M_V2_FIN)]; done. }
  generalize dependent (v2_complete f). intros f' (Ho & Hr & Hk' & Hpos). split; [|done]. pose proof Ho as Ho'. injection Ho' as O1 O2 O3 O4 O5 O6 O7 O8.
  apply ok_step_sent; try done.
  - intros L [T1 T2 T3 T4 T5 T6]. constructor; rewrite ?O1, ?O2, ?O3, ?O4, ?Hpos; try done. by left.
  - intros L [T1 T2 T3 T4 T5 [T6|(T6 & T7 & T8)]]; [done|]. exists []. cbn. unfold rest, tx_point. rewrite Hk', O2, Hpos. cbn.
    replace (_ =? 0) with false by lia. rewrite (zdrop_ge (f_out_pos f)) by lia. cbn.
    destruct (_ =? M_V2_DATA) eqn:Ed; [|done]. bools. destruct T8 as [?|[?|(T8 & T9 & T10)]]; [unfold M_V2_DATA, M_V2_ACK, M_V2_FIN in *; lia..|].
    specialize (Hd Ed). split; [|split; [done|lia]]. unfold zsub. rewrite ztake_0 by lia. done.
Qed.

Lemma write_rounds_ok fuel ans f f' fx :
  sends f -> v2_write_rounds fuel ans f = (f', fx) -> ok_step f f' fx /\ outs_same f f' /\ rxs f' = rxs f.
Proof.
  revert ans f f' fx. induction fuel as [|fuel IH]; intros ans f f' fx Hs; cbn [v2_write_rounds].
  { intros [<- <-]%pair_inj. split; [apply ok_step_nil|done]. }
  destruct (v2_next_frame f) as [f1|] eqn:E1; [|intros [<- <-]%pair_inj; split; [apply ok_step_nil|done]].
  destruct (next_frame_ok _ _ Hs E1) as (S1 & O1 & R1 & K1).
  destruct (v2_send_header ans f1) as [[[ok2 ans2] f2] fx1] eqn:E2.
  destruct (send_header_ok _ _ _ _ _ _ (outs_sends _ _ O1 Hs) K1 E2) as (S2 & O2 & R2 & K2 & H2).
  assert (Hst2 : ok_step f f2 fx1) by (apply (ok_step_trans f f1 f2 [] fx1); done).
  assert (Os2 : outs_same f f2) by (unfold outs_same in *; congruence).
  destruct ok2; [|intros [<- <-]%pair_inj; split; [done|split; [done|congruence]]]. destruct H2 as [U2 P2]; [done|].
  destruct (v2_send_payload ans2 f2) as [[[ok3 ans3] f3] fx2] eqn:E3.
  destruct (send_payload_ok ans2 f2 ok3 ans3 f3 fx2) as (S3 & O3 & R3 & K3 & P3 & H3); [by apply (outs_sends f)|congruence|done|done|].
  assert (Hst3 : ok_step f f3 (fx1 ++ fx2)) by (by apply (ok_step_trans f f2)).
  assert (Os3 : outs_same f f3) by (unfold outs_same in *; congruence). cbn [negb].
  destruct ok3; [|intros [<- <-]%pair_inj; split; [done|split; [done|congruence]]]. destruct H3 as [U3 D3]; [done|]. cbn [negb].
  destruct (complete_ok f3) as (S4 & O4 & R4); [by apply (outs_sends f)|congruence|done|done|].
  assert (Hst4 : ok_step f (v2_complete f3) (fx1 ++ fx2)).
  { rewrite <- (app_nil_r (fx1 ++ fx2)). apply (ok_step_trans f f3); [unfold keeps_up in *; by rewrite forallb_app, U2, U3|done|done]. }
  assert (Os4 : outs_same f (v2_complete f3)) by (unfold outs_same in *; congruence).
  destruct (_ && _); [|intros [<- <-]%pair_inj; split; [done|split; [done|congruence]]].
  destruct (v2_write_rounds fuel ans3 (v2_complete f3)) as [f5 fx3] eqn:E5.
  destruct (IH _ _ _ _ (outs_sends _ _ Os4 Hs) E5) as (S5 & O5 & R5). intros [<- <-]%pair_inj. rewrite app_assoc.
  split; [|split; [unfold outs_same in *; congruence|congruence]].
  apply (ok_step_trans f (v2_complete f3)); [unfold keeps_up in *; by rewrite forallb_app, U2, U3|done|done].
Qed.

Lemma write_ok stop ans f f' fx :
  sends f -> m_v2_write stop ans f = (f', fx) -> ok_step f f' fx /\ outs_same f f'.
Proof.
  intros Hs. unfold m_v2_write. destruct (_ || _); [intros [<- <-]%pair_inj; split; [apply ok_step_nil|done]|].
  intros (? & ? & _)%write_rounds_ok; done.
Qed.

(** ** The tick *)

(** When the write lost the stream the flow is dead or will be suspended. *)
Lemma ok_step_dead_after f g g' fx fx' :
  ok_step f g fx -> f_phase g' = M_DEAD -> ends g' = ends g -> silent fx' -> ok_step f g' (fx ++ fx').
Proof.
  intros Hs Hd He (S1 & S2 & S3) x y q1 q2 Ef Hu Hb. specialize (Hs x y q1 q2 Ef Hu Hb).
  unfold stream_bytes in *. rewrite flat_map_app, S1, app_nil_r. rewrite <- (after_app x g).
  apply (both_dead (after x g fx) _ _ _ q2); [done|done|..|done]; cbn; by rewrite ?S2, ?S3, app_nil_r.
Qed.
Lemma ok_step_abort sp f g fx : ok_step f g fx -> ok_step f (m_abort sp g).1 (fx ++ (m_abort sp g).2).
Proof. intros Hs. destruct (abort_spec sp g) as (A1 & A2 & A3). by apply (ok_step_dead_after f g). Qed.

Lemma tick_ok sp now stop a f f' fx :
  f_id f = id -> (attached f -> 0 <= f_rx_pos f) -> m_v2_tick sp now true stop a f = (f', fx) -> ok_step f f' fx.
Proof.
  intros Hid Hpos. unfold m_v2_tick. cbv zeta. destruct (_ || _) eqn:E; [intros [<- <-]%pair_inj; apply ok_step_nil|].
  assert (Ha : attached f).
  { bools. repeat match goal with H : _ || _ = false |- _ => apply orb_false_iff in H as [? ?] end. bools.
    split; [|done]. unfold alive. rewrite bool_decide_eq_true in *. congruence. }
  clear E. assert (Hab : forall g fx0, ok_step f g fx0 -> (let '(f1, fx1) := m_abort sp g in (f1, fx0 ++ fx1)) = (f', fx) -> ok_step f f' fx).
  { intros g fx0 Hg. pose proof (ok_step_abort sp f g fx0 Hg) as Hgo. destruct (m_abort sp g). by intros [<- <-]%pair_inj. }
  destruct (t_poll_error a); [by apply Hab, ok_step_nil|].
  destruct (v2_to_socket now a f) as [[f1 fx1]|] eqn:E1; [|by apply Hab, ok_step_nil].
  destruct (to_socket_ok _ _ _ _ _ Ha (Hpos Ha) E1) as (S1 & U1 & T1).
  destruct (v2_apply_fin a f1) as [[f2 fx2]|] eqn:E2; [|by apply Hab].
  destruct (apply_fin_ok a f1 f2 fx2) as (S2 & U2 & T2); [by apply (attached_same f)|done|].
  assert (S12 : ok_step f f2 (fx1 ++ fx2)) by (by apply (ok_step_trans f f1)).
  assert (U12 : keeps_up (fx1 ++ fx2) = true) by (unfold keeps_up in *; by rewrite forallb_app, U1, U2).
  assert (A2 : attached f2) by (apply (attached_same f); [congruence|done]).
  destruct (v2_from_socket now a f2) as [f3|[[f3 fx3]|]] eqn:E3.
  - apply Hab. rewrite app_assoc. apply (ok_step_trans f f2); [done|done|]. unfold v2_from_socket in E3.
    destruct (_ && _) in E3; [|done]. destruct (_ =? 0) in E3; [done|]. destruct (t_recv a) in E3; [|done..].
    destruct (_ =? 0) in E3; [done|]. destruct (_ <? _) in E3; [|done]. injection E3 as <-. apply ok_step_fail. by repeat constructor.
  - destruct (from_socket_ok _ _ _ _ _ A2 E3) as (S3 & U3 & R3 & A3).
    assert (S13 : ok_step f f3 ((fx1 ++ fx2) ++ fx3)) by (by apply (ok_step_trans f f2)).
    destruct (m_v2_write stop (t_stream a) f3) as [f4 fx4] eqn:E4.
    assert (Hid3 : f_id f3 = id) by (unfold txs in *; congruence).
    destruct (write_ok stop (t_stream a) f3 f4 fx4) as (S4 & O4); [done|done|].
    assert (S14 : ok_step f f4 (fx1 ++ fx2 ++ fx3 ++ fx4)).
    { rewrite !app_assoc. apply (ok_step_trans f f3); [unfold keeps_up in *; by rewrite forallb_app, U12, U3|done|done]. }
    destruct (_ && _); [by apply Hab|by intros [<- <-]%pair_inj].
  - by apply Hab.
Qed.

(** ** Receiving *)

(** The receiving half of [x] changes with what it consumed. *)
Lemma dir_recv y x f' u q q' :
  rx_ok f' (got y) (put x) -> f_rx_fin_applied f' = f_rx_fin_applied (ep x) ->
  (f_rx_fin f' = true -> f_socket_eof (ep y) = true /\ f_rx_final f' = zlen (got y)) ->
  (u = true -> stream_ok y (Endpoint f' u (got x) (put x)) q') ->
  dir y x q -> dir y (Endpoint f' u (got x) (put x)) q'.
Proof.
  intros Hr Hap Hf Hs [H1 Hlen H2 H3 H4 H5 H6 H7 H8 H9]. constructor; cbn; rewrite ?Hap; try done.
Qed.

(** An acknowledgement moves the base to at most the offset and nothing else. *)
Lemma ack_spec o fl f f' L :
  m_v2_ack o fl f = Some f' -> tx_ok f L -> 0 <= o ->
  tx_ok f' L /\ f_tx_base f' = Z.max (f_tx_base f) o /\ rest f' L = rest f L /\ tx_point f' = tx_point f /\
  (f_tx_fin_acked f' = true -> f_tx_fin_acked f = true \/ fl <> 0) /\ rxs f' = rxs f /\
  (f_socket_eof f', f_id f', f_phase f', f_suspended f', f_in_kind f') = (f_socket_eof f, f_id f, f_phase f, f_suspended f, f_in_kind f).
Proof.
  intros H Ht Ho. unfold m_v2_ack in H. cbv zeta in H.
  destruct (negb (Z.land fl _ =? 0) || _ || _) eqn:E1 in H; [done|]. destruct (truth fl && _) eqn:E2 in H; [done|]. bools.
  assert (Hx : exists g, Some f' = Some (if truth fl then g <| f_tx_fin_acked := true |> else g) /\ tx_ok g L /\
    f_tx_base g = Z.max (f_tx_base f) o /\ rest g L = rest f L /\ tx_point g = tx_point f /\ f_tx_fin_acked g = f_tx_fin_acked f /\ rxs g = rxs f /\
    (f_socket_eof g, f_id g, f_phase g, f_suspended g, f_in_kind g) = (f_socket_eof f, f_id f, f_phase f, f_suspended f, f_in_kind f)).
  { destruct (_ <? o) eqn:E3 in H; [|bools; exists f; split; [done|]; split; [done|]; split; [lia|done]].
    destruct (_ <? _) eqn:E4 in H; [done|]. bools. eexists. split; [by symmetry|]. pose proof (tx_next_spec _ _ Ht) as Hn.
    destruct Ht as [T1 T2 T3 T4 T5 T6]. split; [|split; [cbn; lia|]; split; [done|]; split; [|done]].
    - constructor; try done.
      + cbn. lia.
      + change (zdrop (o - f_tx_base f) (tx f) = zdrop o L). rewrite T3, zdrop_zdrop by lia. f_equal. lia.
      + change (0 <= f_tx_pos f - (o - f_tx_base f) <= zlen (zdrop (o - f_tx_base f) (tx f))). rewrite zlen_drop. lia.
      + unfold out_ok in *. cbn. replace (o + (f_tx_pos f - (o - f_tx_base f))) with (f_tx_base f + f_tx_pos f) by lia. done.
    - unfold tx_point. cbn. replace (o + (f_tx_pos f - (o - f_tx_base f))) with (f_tx_base f + f_tx_pos f) by lia. done. }
  destruct Hx as (g & [= ->] & G1 & G2 & G3 & G4 & G5 & G6 & G7). destruct (truth fl) eqn:Ef.
  - unfold truth in Ef. bools. destruct G1 as [T1 T2 T3 T4 T5 T6]. split; [by constructor|]. do 3 (split; [done|]). split; [by right|done].
  - split; [done|]. do 3 (split; [done|]). split; [rewrite G5; by left|done].
Qed.
Lemma dir_acked x y q f' o fl u :
  attached (ep x) -> up x = true -> m_v2_ack o fl (ep x) = Some f' -> 0 <= o <= zlen (put y) -> (fl = 0 \/ fl = 1 /\ f_rx_fin_applied (ep y) = true) ->
  dir x y q -> dir (Endpoint f' u (got x) (put x)) y q.
Proof.
  intros [Hal Hs] Hu Hack Ho Hfl [H1 Hlen H2 H3 H4 H5 H6 H7 H8 H9]. destruct (H3 Hal) as [Ht Hb].
  destruct (ack_spec _ _ _ _ _ Hack Ht) as (A1 & A2 & A3 & A4 & A5 & A6 & A7); [lia|]. injection A7 as B1 B2 B3 B4 B5.
  constructor; cbn; rewrite ?B1, ?B2; try done.
  - intros _. split; [done|]. lia.
  - intros _. congruence.
  - intros Hac. destruct (A5 Hac) as [|Hne]; [auto|]. destruct Hfl as [|[_ ?]]; done.
  - intros Hy Huy. destruct (H9 Hy Huy) as (n & fs & h & R & n' & Hn & Hc & Hq & Hi & Hx). exists n, fs, h, R, n'. split; [done|]. split.
    { unfold sender_of in *. cbn. injection A6 as _ _ _ _ _ _ -> _ _ _ _ _. by rewrite B1. }
    split; [done|]. split; [done|]. cbn. intros _ _ _. rewrite A3, A4. by apply Hx.
Qed.

Lemma header_fields kind flags len i o :
  0 <= kind < 256 -> 0 <= flags < 256 -> 0 <= len < 65536 -> 0 <= o <= UINT64_MAX ->
  znth (v2_frame_header kind flags len i o) 4 = kind /\ znth (v2_frame_header kind flags len i o) 5 = flags /\
  m_u16 (v2_frame_header kind flags len i o) 6 = len /\ m_u64 (v2_frame_header kind flags len i o) 16 = o.
Proof.
  intros Hk Hf Hl Ho. split; [by transitivity (u8 kind); [|apply u8_small]|]. split; [by transitivity (u8 flags); [|apply u8_small]|].
  unfold v2_frame_header, m_u16, m_u64, zsub. split.
  - do 2 rewrite zdrop_skip by done. by apply (field16 len).
  - do 4 rewrite zdrop_skip by (rewrite ?zlen_put16, ?zlen_put64; done). rewrite zlen_put16, zlen_put64.
    rewrite <- (app_nil_r (m_put64 o)). by apply (field64 o).
Qed.

(** What a complete header does. *)
Definition same (f f' : mflow) : Prop := txs f' = txs f /\ rxs f' = rxs f /\ f_in_kind f' = f_in_kind f.
Definition parsed (f : mflow) (kind flags size o : Z) : mflow :=
  f <| f_in_kind := kind |> <| f_in_flags := flags |> <| f_in_size := size |> <| f_in_offset := o |> <| f_in_pos := 0 |>.
(** The receive buffer and positions. *)
Definition rxcore (f : mflow) := (rx f, f_rx_pos f, f_rx_commit f, f_rx_next f).
Definition fins (f : mflow) := (f_rx_fin f, f_rx_final f, f_rx_fin_applied f).
Record parsed_of (f : mflow) (kind size o : Z) (hdr : list Z) (g : mflow) : Prop := {
  pa_tx : txs g = txs f; pa_rx : rxcore g = rxcore f; pa_fin : fins g = fins f;
  pa_kind : f_in_kind g = kind; pa_size : f_in_size g = size; pa_off : f_in_offset g = o; pa_pos : f_in_pos g = 0; pa_frame : f_in_frame g = hdr }.
Lemma parsed_spec f v kind flags size o :
  parsed_of f kind size o (f_in_frame f ++ v) (parsed (f <| f_in_frame ::= fun l => l ++ v |>) kind flags size o).
Proof. constructor; reflexivity. Qed.
Lemma finned_spec f o : txs (f <| f_rx_fin := true |> <| f_rx_final := o |>) = txs f /\ rxcore (f <| f_rx_fin := true |> <| f_rx_final := o |>) = rxcore f /\
  fins (f <| f_rx_fin := true |> <| f_rx_final := o |>) = (true, o, f_rx_fin_applied f) /\ f_in_kind (f <| f_rx_fin := true |> <| f_rx_final := o |>) = f_in_kind f.
Proof. split_and!; reflexivity. Qed.
Lemma emptied_spec f : txs (f <| f_in_frame := [] |>) = txs f /\ rxcore (f <| f_in_frame := [] |>) = rxcore f /\
  fins (f <| f_in_frame := [] |>) = fins f /\ f_in_frame (f <| f_in_frame := [] |>) = [].
Proof. split_and!; reflexivity. Qed.
Lemma rxs_core f f' : rxs f' = rxs f -> rxcore f' = rxcore f /\ fins f' = fins f /\
  (f_in_frame f', f_in_size f', f_in_pos f', f_in_offset f') = (f_in_frame f, f_in_size f, f_in_pos f, f_in_offset f).
Proof. intros [= E1 E2 E3 E4 E5 E6 E7 E8 E9 E10 E11 E12]. unfold rxcore, fins. old_fields f'. done. Qed.
Lemma v2_header_spec f f' kind flags len i o :
  f_in_frame f = v2_frame_header kind flags len i o -> 0 <= kind < 256 -> 0 <= flags < 256 -> 0 <= len < 65536 -> 0 <= o <= UINT64_MAX ->
  m_v2_header f = Some f' ->
  (kind = M_V2_DATA /\ same (parsed f kind flags len o) f') \/
  (kind = M_V2_ACK /\ exists f2, m_v2_ack o flags (parsed f kind flags len o) = Some f2 /\ same f2 f') \/
  (kind = M_V2_FIN /\ same (parsed f kind flags len o <| f_rx_fin := true |> <| f_rx_final := o |>) f').
Proof.
  intros Ef Hk Hfl Hlen Ho. unfold m_v2_header. rewrite Ef. destruct (header_fields kind flags len i o) as (-> & -> & -> & ->); [done..|].
  cbv zeta. destruct (_ || ((kind =? M_V2_ACK) && negb _)) eqn:Eg; [done|].
  repeat (apply orb_false_iff in Eg as [Eg ?]). fold (parsed f kind flags len o). set (f1 := parsed f kind flags len o).
  assert (Hres : forall g, same g (if f_resuming g then g <| f_resuming := false |> <| f_grace := 0 |> else g)) by (intros g; by destruct (f_resuming g)).
  destruct (Z.eqb_spec kind M_V2_ACK) as [->|Hna].
  - destruct (m_v2_ack o flags f1) as [f2|] eqn:Ea; [|done]. cbn. intros <-%(inj Some). right; left. split; [done|]. exists f2. split; [done|apply Hres].
  - destruct (Z.eqb_spec kind M_V2_FIN) as [->|Hnf].
    + (match goal with |- (if ?b then _ else _) = _ -> _ => destruct b end); [discriminate|]. intros <-%(inj Some). right; right. split; [done|apply Hres].
    + destruct (Z.eqb_spec kind M_V2_DATA) as [->|Hnd]; [|done]. cbn [andb]. (match goal with |- (if ?b then _ else _) = _ -> _ => destruct b end); [discriminate|]. intros <-%(inj Some). left. split; [done|apply Hres].
Qed.

Lemma rx_ok_core f f' L W : rxcore f' = rxcore f -> rx_ok f L W -> rx_ok f' L W.
Proof. intros [= E1 E2 E3 E4] [H1 H2 H3 H4 H5]. constructor; old_fields f'; done. Qed.
Lemma ztake_extend {A} h (v l k : list A) : 0 <= h <= zlen l -> zdrop h l = v ++ k -> ztake h l ++ v = ztake (h + zlen v) l /\ zdrop (h + zlen v) l = k.
Proof.
  intros Hh E. pose proof (zlen_nonneg v). split.
  - rewrite ztake_add by lia. f_equal. unfold zsub. rewrite E. symmetry. by apply ztake_app_exact.
  - rewrite Z.add_comm, <- zdrop_zdrop, E by lia. by apply zdrop_app_exact.
Qed.

(** Fields the payload reader sets. *)
Definition ins (f : mflow) := (f_in_frame f, f_in_size f, f_in_pos f, f_in_offset f).
Lemma compact_spec f : txs (v2_compact f) = txs f /\ fins (v2_compact f) = fins f /\ ins (v2_compact f) = ins f /\
  f_rx_commit (v2_compact f) = f_rx_commit f /\ f_rx_next (v2_compact f) = f_rx_next f /\
  (0 <= f_rx_pos f <= zlen (rx f) -> 0 <= f_rx_pos (v2_compact f) <= zlen (rx (v2_compact f)) /\
     zlen (rx (v2_compact f)) - f_rx_pos (v2_compact f) = zlen (rx f) - f_rx_pos f) /\
  zdrop (f_rx_pos (v2_compact f)) (rx (v2_compact f)) = zdrop (f_rx_pos f) (rx f).
Proof.
  unfold v2_compact. destruct (_ && _); [|done]. do 5 (split; [reflexivity|]). split.
  - intros Hp. change (0 <= 0 <= zlen (zdrop (f_rx_pos f) (rx f)) /\ zlen (zdrop (f_rx_pos f) (rx f)) - 0 = zlen (rx f) - f_rx_pos f).
    rewrite zlen_drop. lia.
  - change (zdrop 0 (zdrop (f_rx_pos f) (rx f)) = zdrop (f_rx_pos f) (rx f)). by rewrite zdrop_0 by lia.
Qed.
Definition pushed (f : mflow) (v : list Z) : mflow := f <| f_rx := Some (rx f ++ v) |> <| f_rx_next ::= Z.add (zlen v) |>.
Lemma pushed_spec f v : txs (pushed f v) = txs f /\ fins (pushed f v) = fins f /\ ins (pushed f v) = ins f /\
  rxcore (pushed f v) = (rx f ++ v, f_rx_pos f, f_rx_commit f, zlen v + f_rx_next f).
Proof. split_and!; reflexivity. Qed.
Lemma advance_spec now k f : txs (v2_advance now k f) = txs f /\ rxcore (v2_advance now k f) = rxcore f /\ fins (v2_advance now k f) = fins f /\
  (k + f_in_pos f = f_in_size f /\ f_in_frame (v2_advance now k f) = [] \/
   k + f_in_pos f <> f_in_size f /\ ins (v2_advance now k f) = (f_in_frame f, f_in_size f, k + f_in_pos f, f_in_offset f)).
Proof.
  unfold v2_advance. change (f_in_pos (f <| f_in_pos ::= Z.add k |> <| f_last_io := now |>)) with (k + f_in_pos f).
  change (f_in_size (f <| f_in_pos ::= Z.add k |> <| f_last_io := now |>)) with (f_in_size f).
  destruct (Z.eqb_spec (k + f_in_pos f) (f_in_size f)); (do 3 (split; [reflexivity|])); [by left|by right].
Qed.

Section reading.
Context (gx wx : list Z) (y : endpoint) (q1 : list Z).
(** [f] is reading [q], both directions intact. *)
Definition reading (f : mflow) (q : list Z) : Prop := both (Endpoint f true gx wx) y q1 q /\ attached f.

Lemma reading_same f f' q q' :
  txs f' = txs f -> rxcore f' = rxcore f -> f_rx_fin_applied f' = f_rx_fin_applied f ->
  (f_rx_fin f' = true -> f_socket_eof (ep y) = true /\ f_rx_final f' = zlen (got y)) ->
  stream_ok y (Endpoint f' true gx wx) q' -> reading f q -> reading f' q'.
Proof.
  intros Ht Hr Hap Hf Hs [[Hxy Hyx] Ha]. pose proof (attached_same _ _ Ht Ha) as Ha'. split; [|done]. split.
  - apply (dir_tx_frame (Endpoint f true gx wx)); cbn; try done; [by rewrite Hap|]. exact (attached_idle f' _ Ha').
  - apply (dir_recv _ (Endpoint f true gx wx) _ _ q); try done. apply (rx_ok_core f); [done|]. by apply (d_rx _ _ _ Hyx), Ha.
Qed.
Lemma reading_fin f q : reading f q -> f_rx_fin f = true -> f_socket_eof (ep y) = true /\ f_rx_final f = zlen (got y).
Proof. intros [[_ Hyx] [Ha _]]. by apply (d_fin _ _ _ Hyx). Qed.
Lemma reading_stream f q : reading f q -> stream_ok y (Endpoint f true gx wx) q.
Proof. intros [[_ Hyx] [Ha _]]. by apply (d_stream _ _ _ Hyx). Qed.

(** What the peer's half of the stream says about its own end. *)
Definition sender_end (R : list Z) (n' : Z) : Prop :=
  alive (ep y) -> up y = true -> f_suspended (ep y) = false -> R = rest (ep y) (got y) /\ tx_point (ep y) = n'.

(** Between two frames. *)
Lemma reading_next f f' q q' n fs R n' :
  txs f' = txs f -> rxcore f' = rxcore f -> f_rx_fin_applied f' = f_rx_fin_applied f ->
  (f_rx_fin f' = true -> f_socket_eof (ep y) = true /\ f_rx_final f' = zlen (got y)) ->
  f_in_frame f' = [] -> 0 <= n -> f_rx_next f = n -> chain (sender_of y) n fs n' -> q' ++ R = wire fs -> sender_end R n' ->
  reading f q -> reading f' q'.
Proof.
  intros Ht Hr Hap Hf Hfr Hn Hnx Hc Hq Hx. apply reading_same; [done..|]. exists n, fs, 0, R, n'. split; [done|]. split; [done|].
  split; [by rewrite zdrop_0 by lia|]. split; [|done]. left. cbn [ep]. rewrite Hfr, ztake_0 by lia. injection Hr as _ _ _ ->.
  pose proof (zlen_nonneg (wire fs)). unfold M_V2_HEADER. split; [lia|]. split; [lia|done].
Qed.
(** DATA begins. *)
Lemma read_data f g f2 q v q' n p fs R n' :
  reading f q -> parsed_of f M_V2_DATA (zlen p) n (f_in_frame f ++ v) g -> same g f2 -> zlen (f_in_frame f ++ v) = M_V2_HEADER ->
  0 <= n -> f_rx_next f = n -> frame_ok (sender_of y) n (FData n p) (n + zlen p) -> chain (sender_of y) (n + zlen p) fs n' ->
  q' ++ R = p ++ wire fs -> sender_end R n' -> reading f2 q' /\ zlen (f_in_frame f2) = M_V2_HEADER.
Proof.
  intros Hrd [P1 P2 P3 P4 P5 P6 P7 P8] (S1 & S2 & S3) Hz Hn Hnx Hfr Hc Hq Hx. destruct (rxs_core _ _ S2) as (C1 & C2 & C3).
  rewrite P2 in C1. rewrite P3 in C2. injection C3 as I1 I2 I3 I4. rewrite P8 in I1. rewrite P5 in I2. rewrite P7 in I3. rewrite P6 in I4.
  pose proof (reading_fin _ _ Hrd) as Hfin. injection C2 as F1 F2 F3. split; [|congruence].
  apply (reading_same f _ q); [congruence|done|done|by rewrite F1, F2| |done].
  exists n, (FData n p :: fs), M_V2_HEADER, R, n'. split; [done|]. split; [by exists (n + zlen p)|]. split.
  { cbn [wire flat_map enc]. rewrite <- app_assoc, zdrop_app_exact by (symmetry; apply header_len). done. }
  split; [|done]. right. exists n, p, fs. cbn [ep]. rewrite I1, I2, I3, I4. injection C1 as _ _ _ C1. rewrite C1.
  destruct Hfr as (_ & _ & Hp & _). split; [done|]. split; [done|]. split; [done|]. split; [done|]. split; [done|]. lia.
Qed.
(** FIN is complete. *)
Lemma read_fin f g f2 q v q' n fs R n' :
  reading f q -> parsed_of f M_V2_FIN 0 n (f_in_frame f ++ v) g -> same (g <| f_rx_fin := true |> <| f_rx_final := n |>) f2 ->
  0 <= n -> f_rx_next f = n -> f_socket_eof (ep y) = true -> n = zlen (got y) -> chain (sender_of y) n fs n' ->
  q' ++ R = wire fs -> sender_end R n' -> reading (f2 <| f_in_frame := [] |>) q' /\ f_in_kind f2 = M_V2_FIN.
Proof.
  intros Hrd [P1 P2 P3 P4 P5 P6 P7 P8] (S1 & S2 & S3) Hn Hnx He Hg Hc Hq Hx. destruct (rxs_core _ _ S2) as (C1 & C2 & _).
  destruct (finned_spec g n) as (F1 & F2 & F3 & F4). destruct (emptied_spec f2) as (E1 & E2 & E3 & E4).
  generalize dependent (g <| f_rx_fin := true |> <| f_rx_final := n |>). intros h S1 S2 S3 C1 C2 F1 F2 F3 F4.
  generalize dependent (f2 <| f_in_frame := [] |>). intros f3 E1 E2 E3 E4. split; [|congruence].
  rewrite C2, F3 in E3. injection E3 as G1 G2 G3. injection P3 as _ _ P3.
  apply (reading_next f f3 q q' n fs R n'); [congruence|congruence|congruence|by rewrite G2|done..].
Qed.
(** ACK is complete. *)
Lemma read_ack f g g' f2 q v q' n o fl fs R n' :
  reading f q -> parsed_of f M_V2_ACK 0 o (f_in_frame f ++ v) g -> m_v2_ack o fl g = Some g' -> same g' f2 ->
  0 <= o <= zlen (put y) -> (fl = 0 \/ fl = 1 /\ f_rx_fin_applied (ep y) = true) ->
  0 <= n -> f_rx_next f = n -> chain (sender_of y) n fs n' -> q' ++ R = wire fs -> sender_end R n' ->
  reading (f2 <| f_in_frame := [] |>) q' /\ f_in_kind f2 = M_V2_ACK.
Proof.
  intros Hrd [P1 P2 P3 P4 P5 P6 P7 P8] Hack (S1 & S2 & S3) Ho Hfl Hn Hnx Hc Hq Hx. pose proof Hrd as [[Hxy Hyx] Ha].
  pose proof (attached_same _ _ P1 Ha) as Hag. injection P3 as P3a P3b P3c.
  assert (Hp : dir (Endpoint g true gx wx) y q1).
  { apply (dir_tx_frame (Endpoint f true gx wx)); cbn [ep up got put]; try done; [by rewrite P3c|exact (attached_idle g _ Hag)]. }
  destruct (d_tx _ _ _ Hp (proj1 Hag)) as [Htp _].
  destruct (ack_spec _ _ _ _ _ Hack Htp) as (_ & _ & _ & _ & _ & A6 & A7); [lia|]. injection A7 as A7 A8 A9 A10 A11.
  pose proof (dir_acked (Endpoint g true gx wx) y q1 g' o fl true Hag eq_refl Hack Ho Hfl Hp) as Hg.
  destruct (emptied_spec f2) as (E1 & E2 & E3 & E4). generalize dependent (f2 <| f_in_frame := [] |>). intros f3 E1 E2 E3 E4.
  destruct (rxs_core _ _ S2) as (C1 & C2 & _). destruct (rxs_core _ _ A6) as (D1 & D2 & _).
  assert (Hcore : rxcore f3 = rxcore f) by congruence.
  assert (Hfin : fins f3 = fins f) by (unfold fins in *; congruence). injection Hfin as F1 F2 F3.
  assert (Ha3 : attached f3).
  { apply (attached_same g'); [congruence|]. destruct Hag as [Hal Hsus]. unfold attached, alive. by rewrite A9, A10. }
  split; [|congruence]. split; [|done]. split.
  - apply (dir_tx_frame (Endpoint g' true gx wx)); cbn [ep up got put]; try done; [congruence|unfold fins in *; congruence|exact (attached_idle f3 _ Ha3)].
  - apply (dir_recv _ (Endpoint f true gx wx) _ _ q); [|done|by rewrite F1, F2; apply (reading_fin f q)| |done].
    + apply (rx_ok_core f); [done|]. apply (d_rx _ _ _ Hyx), Ha.
    + intros _. exists n, fs, 0, R, n'. split; [done|]. split; [done|]. split; [by rewrite zdrop_0 by lia|]. split; [|done].
      left. cbn [ep]. rewrite E4, ztake_0 by lia. injection Hcore as _ _ _ ->. pose proof (zlen_nonneg (wire fs)). unfold M_V2_HEADER. split; [lia|]. split; [lia|done].
Qed.

(** The header of the next frame is complete. *)
Lemma read_frame_ok f q v q' f2 n fs h R n' :
  reading f q -> q = v ++ q' -> 0 <= n -> chain (sender_of y) n fs n' -> q ++ R = zdrop h (wire fs) ->
  0 <= h <= zlen (wire fs) -> f_in_frame f = ztake h (wire fs) -> f_rx_next f = n -> sender_end R n' ->
  h + zlen v = M_V2_HEADER -> m_v2_header (f <| f_in_frame ::= fun l => l ++ v |>) = Some f2 ->
  if f_in_kind f2 =? M_V2_DATA then reading f2 q' /\ zlen (f_in_frame f2) = M_V2_HEADER else reading (f2 <| f_in_frame := [] |>) q'.
Proof.
  intros Hrd -> Hn Hc Hq Hh Hin Hnx Hx Hv Hm. pose proof Hq as Hq0. rewrite <- app_assoc in Hq. symmetry in Hq.
  destruct (ztake_extend h v _ _ Hh Hq) as [Hhdr Hrest]. rewrite Hv in Hhdr, Hrest.
  assert (E1 : f_in_frame (f <| f_in_frame ::= fun l => l ++ v |>) = ztake M_V2_HEADER (wire fs)) by (cbn; by rewrite Hin).
  pose proof (zlen_nonneg v). pose proof Hrd as [[Hxy Hyx] _].
  pose proof (d_len _ _ _ Hyx) as Hlen. assert (Hput : zlen (put y) <= UINT64_MAX).
  { pose proof (prefix_len _ _ (d_prefix _ _ _ Hxy)). pose proof (d_len _ _ _ Hxy). cbn in *. lia. }
  destruct fs as [|fr fs].
  { exfalso. change (wire []) with (@nil Z) in *. rewrite zdrop_ge in Hq by (rewrite zlen_nil in *; lia).
    destruct v; [|done]. rewrite zlen_nil in *. unfold M_V2_HEADER in *. lia. }
  destruct Hc as (m & Hfr & Hc).
  assert (Hz : zlen (f_in_frame f ++ v) = M_V2_HEADER) by (rewrite zlen_app, Hin, zlen_take; lia).
  destruct fr as [o p|o fl|o]; cbn [wire flat_map enc] in E1, Hrest; rewrite <- ?app_assoc in E1, Hrest;
    rewrite ztake_app_exact in E1 by (symmetry; apply header_len); rewrite zdrop_app_exact in Hrest by (symmetry; apply header_len).
  - pose proof Hfr as (-> & -> & Hp & Hb & Hs). unfold M_IO_BUDGET in Hp. cbn [sn_got sender_of] in Hb.
    destruct (v2_header_spec _ f2 _ _ _ _ _ E1) as [[_ S]|[[? _]|[? _]]]; [done|done|lia|lia|done| |done|done].
    pose proof (parsed_spec f v M_V2_DATA 0 (zlen p) n) as Hpa.
    generalize dependent (parsed (f <| f_in_frame ::= fun l => l ++ v |>) M_V2_DATA 0 (zlen p) n). intros g S Hpa.
    assert (Hk : f_in_kind f2 = M_V2_DATA) by (destruct S as (_ & _ & ->); apply Hpa). rewrite Hk.
    change (M_V2_DATA =? M_V2_DATA) with true. cbv iota. by apply (read_data f g f2 (v ++ q') v q' n p fs R n').
  - destruct Hfr as (-> & Ho & Hfl). cbn [sn_put sn_applied sender_of] in Ho, Hfl.
    destruct (v2_header_spec _ f2 _ _ _ _ _ E1) as [[? _]|[[_ (g' & Hack & S)]|[? _]]]; [done|lia|done|lia|done|done| |done].
    pose proof (parsed_spec f v M_V2_ACK fl 0 o) as Hpa.
    generalize dependent (parsed (f <| f_in_frame ::= fun l => l ++ v |>) M_V2_ACK fl 0 o). intros g Hack Hpa.
    destruct (read_ack f g g' f2 (v ++ q') v q' n o fl fs R n') as [Hrd2 ->]; done.
  - destruct Hfr as (-> & -> & He & Hl). cbn [sn_got sn_eof sender_of] in He, Hl.
    destruct (v2_header_spec _ f2 _ _ _ _ _ E1) as [[? _]|[[? _]|[_ S]]]; [done|done|done|lia|done|done|done|].
    pose proof (parsed_spec f v M_V2_FIN 0 0 n) as Hpa.
    generalize dependent (parsed (f <| f_in_frame ::= fun l => l ++ v |>) M_V2_FIN 0 0 n). intros g S Hpa.
    destruct (read_fin f g f2 (v ++ q') v q' n fs R n') as [Hrd2 ->]; done.
Qed.

Lemma recv_split n want q v q' : stream_recv n want q = (v, q') -> q = v ++ q' /\ zlen v <= Z.max 0 want.
Proof.
  unfold stream_recv. intros [= <- <-]. split; [by rewrite ztake_zdrop|]. rewrite zlen_take. unfold taken. pose proof (zlen_nonneg q). lia.
Qed.
Lemma read_header_ok ans q f r ans' q' f' :
  reading f q -> v2_read_header ans q f = (r, ans', q', f') ->
  match r with
  | Some (Abort, _) | Some (Violation _, _) => ends f' = ends f
  | Some _ => reading f' q'
  | None => reading f' q' /\ M_V2_HEADER <= zlen (f_in_frame f')
  end.
Proof.
  intros Hrd. unfold v2_read_header. destruct (_ <? _) eqn:E; bools; [|intros [= <- <- <- <-]; done].
  destruct ans as [|[n fin| |] ans]; [by intros [= <- <- <- <-]| |by intros [= <- <- <- <-]..].
  destruct (stream_recv n _ q) as [v q2] eqn:Er. destruct (recv_split _ _ _ _ _ Er) as [Hq Hv]. destruct fin; [by intros [= <- <- <- <-]|].
  destruct (reading_stream _ _ Hrd) as (m & fs & h & R & n' & Hn & Hc & Hqr & Hi & Hx). cbn [ep] in Hi.
  destruct Hi as [(Hh & Hhw & Hin & Hnx)|(o & p & fs' & _ & _ & Hz & _)]; [|lia].
  assert (Hz : zlen (f_in_frame f) = h) by (rewrite Hin, zlen_take; lia).
  destruct (_ <? M_V2_HEADER) eqn:E2.
  - intros H. assert (r = Some (Stop, false) /\ q' = q2 /\ f' = f <| f_in_frame ::= fun l => l ++ v |>) as (-> & -> & ->) by (by injection H as <- <- <- <-).
    clear H. change (f_in_frame (f <| f_in_frame ::= fun l => l ++ v |>)) with (f_in_frame f ++ v) in E2. bools. rewrite zlen_app in E2.
    rewrite Hq, <- app_assoc in Hqr. symmetry in Hqr. pose proof (zlen_nonneg v).
    assert (zlen v <= zlen (wire fs) - h) by (apply (f_equal zlen) in Hqr; rewrite zlen_drop, !zlen_app in Hqr; pose proof (zlen_nonneg q2); pose proof (zlen_nonneg R); lia).
    destruct (ztake_extend h v _ _ (conj (proj1 Hh) Hhw) Hqr) as [Ht Hd].
    apply (reading_same f _ q); [reflexivity|reflexivity|reflexivity|exact (reading_fin _ _ Hrd)| |done].
    exists m, fs, (h + zlen v), R, n'. split; [done|]. split; [done|]. split; [done|]. split; [|done].
    left. split; [lia|]. split; [lia|]. split; [|done]. change (f_in_frame f ++ v = ztake (h + zlen v) (wire fs)). by rewrite Hin.
  - change (f_in_frame (f <| f_in_frame ::= fun l => l ++ v |>)) with (f_in_frame f ++ v) in E2. bools. rewrite zlen_app in E2.
    destruct (m_v2_header _) as [f2|] eqn:Em.
    + assert (Hok := read_frame_ok f q v q2 f2 m fs h R n' Hrd Hq Hn Hc Hqr ltac:(lia) Hin Hnx Hx ltac:(lia) Em).
      destruct (f_in_kind f2 =? M_V2_DATA); cbn [negb]; intros [= <- <- <- <-]; [|done]. destruct Hok. split; [done|lia].
    + intros H. assert (exists m, r = Some (Violation m, false)) as [? ->] by (injection H as <- <- <- <-; eauto).
      assert (f' = f <| f_in_frame ::= fun l => l ++ v |>) as -> by (by injection H as _ _ _ <-). reflexivity.
Qed.

(** Payload bytes go to the receive buffer. *)
Lemma rx_ok_push f f' L W v :
  rx_ok f L W -> rxcore f' = (rx f ++ v, f_rx_pos f, f_rx_commit f, zlen v + f_rx_next f) -> f_rx_next f + zlen v <= zlen L ->
  v = zsub (f_rx_next f) (zlen v) L -> rx_ok f' L W.
Proof.
  intros [H1 H2 H3 H4 H5] [= E1 E2 E3 E4] Hb Hv. pose proof (zlen_nonneg v). pose proof (zlen_nonneg W).
  constructor; rewrite ?E1, ?E2, ?E3, ?E4, ?zlen_app; try lia.
  rewrite zdrop_app_le, H5 by lia. rewrite Hv at 1. replace (zlen v + f_rx_next f - f_rx_commit f) with ((f_rx_next f - f_rx_commit f) + zlen v) by lia.
  rewrite zsub_split by lia. do 2 f_equal. lia.
Qed.
Lemma reading_compact f q : reading f q -> reading (v2_compact f) q.
Proof.
  intros Hrd. destruct (compact_spec f) as (C1 & C2 & C3 & C4 & C5 & C6 & C7). pose proof Hrd as [[Hxy Hyx] Ha].
  generalize dependent (v2_compact f). intros f' C1 C2 C3 C4 C5 C6 C7. pose proof (attached_same _ _ C1 Ha) as Ha'.
  injection C2 as F1 F2 F3. injection C3 as I1 I2 I3 I4. split; [|done]. split.
  - apply (dir_tx_frame (Endpoint f true gx wx)); cbn [ep up got put]; try done; [by rewrite F3|exact (attached_idle f' _ Ha')].
  - apply (dir_recv _ (Endpoint f true gx wx) _ _ q); [|done|by rewrite F1, F2; apply (reading_fin f q)| |done].
    + destruct (d_rx _ _ _ Hyx (proj1 Ha)) as [R1 R2 R3 R4 R5]. cbn [ep] in *. destruct (C6 R2) as [P1 P2].
      constructor; rewrite ?C4, ?C5, ?C7; try done. lia.
    + intros _. destruct (reading_stream _ _ Hrd) as (m & fs & h & R & n' & Hn & Hc & Hqr & Hi & Hx). exists m, fs, h, R, n'.
      split; [done|]. split; [done|]. split; [done|]. split; [|done]. unfold in_state in *. cbn [ep] in *. by rewrite I1, I2, I3, I4, C5.
Qed.
Lemma reading_push now f q v q2 m fs h R n' o p fs' :
  reading f q -> q = v ++ q2 -> 0 <= m -> chain (sender_of y) m fs n' -> q ++ R = zdrop h (wire fs) -> sender_end R n' ->
  fs = FData o p :: fs' -> h = M_V2_HEADER + f_in_pos f -> zlen (f_in_frame f) = M_V2_HEADER -> f_in_offset f = o -> f_in_size f = zlen p ->
  0 <= f_in_pos f < zlen p -> f_rx_next f = m + f_in_pos f -> 0 < zlen v <= zlen p - f_in_pos f ->
  reading (v2_advance now (zlen v) (pushed f v)) q2.
Proof.
  intros Hrd Hq Hm Hc Hqr Hx -> -> Hfr Ho Hsz Hip Hnx Hv. destruct Hc as (k & (-> & -> & Hp & Hb & Hs) & Hc). cbn [sn_got sender_of] in Hb, Hs.
  assert (Hrest : zdrop (M_V2_HEADER + f_in_pos f) (wire (FData m p :: fs')) = zdrop (f_in_pos f) p ++ wire fs').
  { cbn [wire flat_map enc]. rewrite <- app_assoc, zdrop_skip by (rewrite header_len; lia). rewrite header_len.
    replace (M_V2_HEADER + f_in_pos f - M_V2_HEADER) with (f_in_pos f) by lia. apply zdrop_app_le. lia. }
  rewrite Hrest, Hq, <- app_assoc in Hqr.
  assert (Hvp : v = zsub (f_in_pos f) (zlen v) p /\ q2 ++ R = zdrop (zlen v + f_in_pos f) p ++ wire fs').
  { rewrite <- zdrop_zdrop by lia. assert (Ht : ztake (zlen v) (zdrop (f_in_pos f) p ++ wire fs') = v) by (rewrite <- Hqr; by apply ztake_app_exact).
    rewrite ztake_app_le in Ht by (rewrite zlen_drop; lia). split; [by unfold zsub|].
    assert (Hd : zdrop (zlen v) (v ++ q2 ++ R) = q2 ++ R) by (by apply zdrop_app_exact).
    rewrite <- Hd, Hqr. apply zdrop_app_le. rewrite zlen_drop. lia. }
  destruct Hvp as [Hvp Hqr2].
  assert (Hvg : v = zsub (f_rx_next f) (zlen v) (got y)).
  { rewrite Hnx, Hvp at 1. rewrite Hs at 1. apply zsub_zsub; lia. }
  destruct (pushed_spec f v) as (U1 & U2 & U3 & U4). destruct (advance_spec now (zlen v) (pushed f v)) as (A1 & A2 & A3 & A4).
  assert (I1 : f_in_frame (pushed f v) = f_in_frame f) by reflexivity. assert (I2 : f_in_size (pushed f v) = f_in_size f) by reflexivity.
  assert (I3 : f_in_pos (pushed f v) = f_in_pos f) by reflexivity. assert (I4 : f_in_offset (pushed f v) = f_in_offset f) by reflexivity.
  clear U3. rewrite U1 in A1. rewrite U4 in A2. rewrite U2 in A3. rewrite I1, I2, I3, I4 in A4.
  generalize dependent (v2_advance now (zlen v) (pushed f v)). intros f' A1 A2 A3 A4. clear U1 U2 U4 I1 I2 I3 I4.
  pose proof Hrd as [[Hxy Hyx] Ha]. pose proof (attached_same _ _ A1 Ha) as Ha'. injection A3 as F1 F2 F3. split; [|done]. split.
  - apply (dir_tx_frame (Endpoint f true gx wx)); cbn [ep up got put]; try done; [by rewrite F3|exact (attached_idle f' _ Ha')].
  - apply (dir_recv _ (Endpoint f true gx wx) _ _ q); [|done|by rewrite F1, F2; apply (reading_fin f q)| |done].
    + apply (rx_ok_push f _ _ _ v); [apply (d_rx _ _ _ Hyx), Ha|done|lia|done].
    + intros _. injection A2 as _ _ _ Hnx'. destruct A4 as [[Hdone Hfr']|[Hmore Hins]].
      * exists (m + zlen p), fs', 0, R, n'. split; [lia|]. split; [done|].
        split; [rewrite zdrop_0, Hqr2, zdrop_ge by lia; done|]. split; [|done]. left. cbn [ep]. rewrite Hfr', ztake_0, Hnx' by lia.
        pose proof (zlen_nonneg (wire fs')). unfold M_V2_HEADER. split; [lia|]. split; [lia|]. split; [done|lia].
      * injection Hins as J1 J2 J3 J4. exists m, (FData m p :: fs'), (M_V2_HEADER + (zlen v + f_in_pos f)), R, n'. split; [done|].
        split; [exists (m + zlen p); split; [exact (conj eq_refl (conj eq_refl (conj Hp (conj Hb Hs))))|done]|]. split.
        { rewrite Hqr2. cbn [wire flat_map enc]. rewrite <- app_assoc, zdrop_skip by (rewrite header_len; lia). rewrite header_len.
          replace (M_V2_HEADER + (zlen v + f_in_pos f) - M_V2_HEADER) with (zlen v + f_in_pos f) by lia. symmetry. apply zdrop_app_le. lia. }
        split; [|done]. right. exists m, p, fs'. cbn [ep]. rewrite J1, J2, J3, J4, Hnx'.
        split; [done|]. split; [done|]. split; [done|]. split; [done|]. split; [done|]. lia.
Qed.

Lemma read_payload_ok now ans q f r ans' q' f' :
  reading f q -> M_V2_HEADER <= zlen (f_in_frame f) -> v2_read_payload now ans q f = (r, ans', q', f') ->
  match r with Abort | Violation _ => ends f' = ends f | _ => reading f' q' end.
Proof.
  intros Hrd Hfr. destruct (reading_stream _ _ Hrd) as (m & fs & h & R & n' & Hn & Hc & Hqr & Hi & Hx). cbn [ep] in Hi.
  destruct Hi as [(Hh & Hhw & Hin & _)|(o & p & fs' & Hfs & Hh & Hz & Ho & Hsz & Hip & Hnx)].
  { exfalso. rewrite Hin, zlen_take in Hfr. lia. }
  assert (Hom : o = m) by (rewrite Hfs in Hc; destruct Hc as (? & (-> & _) & _); done).
  unfold v2_read_payload. cbv zeta. replace (f_rx_next f <? f_in_offset f + f_in_pos f) with false by lia.
  replace (f_in_offset f + f_in_pos f =? f_rx_next f) with true by lia.
  pose proof (reading_compact _ _ Hrd) as Hrc. destruct (compact_spec f) as (C1 & C2 & C3 & C4 & C5 & _ & _).
  assert (Hends : ends (v2_compact f) = ends f) by (unfold txs, fins, ends in *; congruence).
  injection C3 as I1 I2 I3 I4. generalize dependent (v2_compact f). intros g C1 C2 C4 C5 Hrc Hends I1 I2 I3 I4.
  destruct (OB_STREAM_BUFFER - zlen (rx g) =? 0); [by intros [= <- <- <- <-]|].
  destruct ans as [|[k fin| |] ans]; [by intros [= <- <- <- <-]| |by intros [= <- <- <- <-]..].
  destruct (stream_recv k _ q) as [v q2] eqn:Er. destruct (recv_split _ _ _ _ _ Er) as [Hq Hv]. destruct fin; [by intros [= <- <- <- <-]|].
  destruct (zlen v =? 0) eqn:Ez.
  - bools. apply zlen_0 in Ez as ->. cbn [app] in Hq. rewrite <- Hq. by intros [= <- <- <- <-].
  - bools. fold (pushed g v). intros H. assert (r = Continue /\ q' = q2 /\ f' = v2_advance now (zlen v) (pushed g v)) as (-> & -> & ->) by (by injection H as <- <- <- <-).
    pose proof (zlen_nonneg v). eapply (reading_push now g q v q2 m fs h R n' o p fs'); try done; try congruence; lia.
Qed.
Lemma read_rounds_ok now steps ans q f r q' f' :
  reading f q -> v2_read_rounds now steps ans q f = (r, q', f') ->
  match r with
  | Abort | Violation _ => exists g q0, reading g q0 /\ ends f' = ends g
  | _ => reading f' q'
  end.
Proof.
  revert ans q f. induction steps as [|steps IH]; intros ans q f Hrd; cbn [v2_read_rounds]; [by intros [= <- <- <-]|].
  destruct (v2_read_header ans q f) as [[[r1 ans1] q1'] f1] eqn:E1. pose proof (read_header_ok _ _ _ _ _ _ _ Hrd E1) as H1.
  destruct r1 as [[[| | |m] b]|]; [by apply IH|by intros [= <- <- <-]|intros [= <- <- <-]; by exists f, q|intros [= <- <- <-]; by exists f, q|].
  destruct H1 as [H1 Hz]. destruct (v2_read_payload now ans1 q1' f1) as [[[r2 ans2] q2] f2] eqn:E2.
  pose proof (read_payload_ok _ _ _ _ _ _ _ _ H1 Hz E2) as H2.
  destruct r2 as [| | |m]; [by apply IH|by intros [= <- <- <-]|intros [= <- <- <-]; by exists f1, q1'|intros [= <- <- <-]; by exists f1, q1'].
Qed.
End reading.

(** One call of the reader. *)
Lemma end_read_ok sp now ans q2 x y q1 x' q2' :
  both x y q1 q2 -> end_read sp now ans q2 x = (x', q2') -> both x' y q1 q2'.
Proof.
  intros Hb. unfold end_read. destruct (_ && _) eqn:E; [|by intros [= <- <-]]. bools. unfold m_v2_read.
  destruct (negb (f_stream (ep x)) || _ || _) eqn:E2; [intros [<- <-]%pair_inj; by destruct x|]. bools. apply bool_decide_eq_true in H.
  assert (Hup : up x = true) by done.
  assert (Hrd : reading (got x) (put x) y q1 (ep x) q2).
  { split; [destruct x; cbn in *; by subst|]. split; [unfold alive; congruence|done]. }
  destruct (v2_read_rounds now 32 ans q2 (ep x)) as [[r q'] f'] eqn:Er. pose proof (read_rounds_ok _ _ _ _ _ _ _ _ _ _ _ _ Hrd Er) as Hok.
  assert (Hdead : forall g q0 u, reading (got x) (put x) y q1 g q0 -> ends f' = ends g -> both (Endpoint (m_abort sp f').1 u (got x) (put x)) y q1 q').
  { intros g q0 u [Hg _] He. destruct (abort_spec sp f') as (A1 & A2 & _). apply (both_dead (Endpoint g true (got x) (put x)) _ _ _ q0); [exact A1|cbn [ep]; congruence|done..]. }
  assert (Hgo : reading (got x) (put x) y q1 f' q' -> both (Endpoint f' (keeps_up [] && up x) (got x) (put x)) y q1 q').
  { intros [Hg _]. by rewrite Hup. }
  destruct r as [| | |msg].
  - intros [<- <-]%pair_inj. exact (Hgo Hok).
  - intros [<- <-]%pair_inj. exact (Hgo Hok).
  - destruct Hok as (g & q0 & Hg & He). destruct (m_abort sp f') as [f2 fx] eqn:Ea. intros [<- <-]%pair_inj.
    by apply (Hdead g q0 (keeps_up fx && up x)).
  - destruct Hok as (g & q0 & Hg & He). destruct (m_abort sp f') as [f2 fx] eqn:Ea. intros [<- <-]%pair_inj.
    by apply (Hdead g q0 (keeps_up (FxFail OB_REMOTE_EPROTOCOL msg :: fx) && up x)).
Qed.
Lemma end_tick_ok sp now a x y q1 q2 x' out :
  both x y q1 q2 -> end_tick sp now a x = (x', out) -> both x' y (q1 ++ out) q2.
Proof.
  intros Hb. unfold end_tick. destruct (up x) eqn:Eu; cbn [negb].
  - destruct (m_v2_tick _ _ _ _ _ _) as [f fx] eqn:E. intros [<- <-]%pair_inj.
    replace (Endpoint f (true && keeps_up fx) _ _) with (after x f fx) by (unfold after; by rewrite Eu).
    eapply tick_ok; [exact (d_id _ _ _ (proj1 Hb))| |exact E|done|done|done]. intros [Ha _]. apply (d_rx _ _ _ (proj2 Hb) Ha).
  - unfold m_v2_tick. rewrite !orb_true_r. intros [<- <-]%pair_inj. cbn. rewrite !app_nil_r. destruct x; cbn in *. by subst.
Qed.
End frames.
