(* ===== verification/MapLink.v ===== *)
(** * Exactly-once TCP forwarding: resumption and the whole link

    The steps of MapTcp that lose and regain the stream, and the theorem that every byte one
    side reads from its socket is written to the other side's socket once, in order, or still
    kept by the sender. *)

From S2P Require Import Prelude Peer MapUdp MapFlow MapV2 MapTcp.

Section link.
Context (id : Z).

(** ** A change of phase that is not death *)

Lemma dir_phase_tx x y q p :
  alive (ep x) -> p <> M_DEAD -> dir id x y q -> dir id (Endpoint (ep x <| f_phase := p |>) (up x) (got x) (put x)) y q.
Proof.
  intros Ha Hp [H1 Hlen H2 H3 H4 H5 H6 H7 H8 H9]. constructor; try done.
  - intros _. destruct (H3 Ha) as [[T1 T2 T3 T4 T5 T6] Hb]. split; [by constructor|done].
  - intros _. by apply H5.
  - intros Hy Hu. destruct (H9 Hy Hu) as (n & fs & h & R & n' & Hn & Hc & Hq & Hi & Hx). exists n, fs, h, R, n'.
    split; [done|]. split; [done|]. split; [done|]. split; [done|]. intros _. by apply Hx.
Qed.
Lemma dir_phase_rx x y q p :
  alive (ep y) -> p <> M_DEAD -> dir id x y q -> dir id x (Endpoint (ep y <| f_phase := p |>) (up y) (got y) (put y)) q.
Proof.
  intros Ha Hp [H1 Hlen H2 H3 H4 H5 H6 H7 H8 H9]. constructor; try done.
  - intros _. destruct (H4 Ha) as [R1 R2 R3 R4 R5]. by constructor.
  - intros _. by apply H6.
  - intros _ Hu. exact (H9 Ha Hu).
Qed.
Lemma both_phase x y q1 q2 p :
  alive (ep x) -> p <> M_DEAD -> both id x y q1 q2 -> both id (Endpoint (ep x <| f_phase := p |>) (up x) (got x) (put x)) y q1 q2.
Proof. intros Ha Hp [H1 H2]. split; [by apply dir_phase_tx|by apply dir_phase_rx]. Qed.
Lemma both_comm x y q1 q2 : both id x y q1 q2 <-> both id y x q2 q1.
Proof. unfold both. tauto. Qed.

(** ** Suspension *)

(** What a suspended flow keeps. *)
Definition kept (f : mflow) := (tx f, f_tx_base f, (f_socket_eof f, f_tx_final f, f_tx_fin_acked f), f_rx_commit f, (f_rx_fin f, f_rx_final f, f_rx_fin_applied f), f_id f).
Lemma both_idle x f' u y q1 q2 q1' q2' :
  alive (ep x) -> kept f' = kept (ep x) -> idle f' -> rx f' = [] -> f_rx_pos f' = 0 -> 0 <= f_tx_pos f' <= zlen (tx f') ->
  (alive (ep y) -> up y = true -> stream_ok id (Endpoint f' u (got x) (put x)) y q1') ->
  (u = true -> stream_ok id y (Endpoint f' u (got x) (put x)) q2') ->
  both id x y q1 q2 -> both id (Endpoint f' u (got x) (put x)) y q1' q2'.
Proof.
  intros Ha E [I1 [I2 I3]] Hrx Hpos Htp S1 S2 [Hxy Hyx]. injection E as E1 E2 E3 E4 E5 E6 E7 E8 E9 E10. split.
  - destruct Hxy as [H1 Hlen H2 H3 H4 H5 H6 H7 H8 H9]. destruct (H3 Ha) as [[T1 T2 T3 T4 T5 T6] Hb].
    constructor; cbn [ep got put up]; rewrite ?E10, ?E3, ?E5; try done. intros _. rewrite E2. split; [|done].
    constructor; rewrite ?E1, ?E2, ?E3, ?E4; try done; [by rewrite <- E1|by left].
  - destruct Hyx as [H1 Hlen H2 H3 H4 H5 H6 H7 H8 H9]. destruct (H4 Ha) as [R1 R2 R3 R4 R5].
    constructor; cbn [ep got put up]; rewrite ?E7, ?E8, ?E9; try done.
    + intros _. pose proof (prefix_len _ _ H2). constructor; rewrite ?Hrx, ?Hpos, ?I2, ?E6, ?(@zlen_nil Z); try lia.
      unfold zsub. rewrite Z.sub_diag, (ztake_0 0) by lia. done.
    + intros _. by apply H6.
Qed.
(** A receiver between frames, with nothing on the way to it. *)
Lemma stream_idle x y :
  f_in_frame (ep y) = [] -> 0 <= f_rx_next (ep y) ->
  (alive (ep x) -> up x = true -> f_suspended (ep x) = false -> f_out_kind (ep x) = 0 /\ f_tx_base (ep x) + f_tx_pos (ep x) = f_rx_next (ep y)) ->
  stream_ok id x y [].
Proof.
  intros I1 Hn Hx. exists (f_rx_next (ep y)), [], 0, [], (f_rx_next (ep y)). split; [done|]. split; [done|]. split; [done|]. split.
  - left. unfold M_V2_HEADER. by rewrite I1.
  - intros H1 H2 H3. destruct (Hx H1 H2 H3) as [Hk Hp]. unfold rest, tx_point. rewrite Hk. done.
Qed.

Lemma suspend_spec sp keep d f : let f' := (suspend_flow sp keep d f).1 in
  (f_phase f' = M_DEAD /\ ends f' = ends f) \/
  (alive f' /\ kept f' = kept f /\ idle f' /\ rx f' = [] /\ f_rx_pos f' = 0 /\ f_tx_pos f' = 0 /\ f_suspended f' = true).
Proof.
  cbv zeta. unfold suspend_flow. destruct (negb _).
  - left. split; reflexivity.
  - right. split; [intros H; discriminate H|]. split; [reflexivity|]. split; [split; [reflexivity|split; reflexivity]|].
    split; [cbn; by destruct (f_rx f)|]. split; [reflexivity|]. split; reflexivity.
Qed.
Lemma end_suspend_ok sp keep d x y q1 q2 :
  both id x y q1 q2 -> both id (end_suspend sp keep d x) y q1 q2.
Proof.
  intros Hb. unfold end_suspend. destruct (bool_decide _) eqn:E.
  - destruct Hb as [Hxy Hyx]. split; [apply (dir_tx_frame _ x); try done; apply (d_idle _ _ _ _ Hxy)|by apply (dir_rx_frame _ _ x)].
  - apply bool_decide_eq_false in E. destruct (suspend_spec sp keep d (ep x)) as [[Hd He]|(Ha & K & I & R & P & T & S)];
      generalize dependent (suspend_flow sp keep d (ep x)).1; intros f'.
    + intros Hd He. by apply (both_dead _ x _ _ _ q2).
    + intros Ha K I R P T S. apply (both_idle x _ _ _ q1 q2); try done.
      * rewrite T. split; [lia|apply zlen_nonneg].
      * intros Hy Hu. destruct (d_stream _ _ _ _ (proj1 Hb) Hy Hu) as (n & fs & h & W & n' & Hn & Hc & Hq & Hi & Hx). exists n, fs, h, W, n'.
        split; [done|]. split; [|done]. unfold sender_of in *. cbn [ep got put]. injection K as _ _ -> _ _ _ _ _ -> _. done.
Qed.

(** ** Resumption *)

(** What a RESUME or RESUME_ACK says about the flow that sent it. *)
Record says (body : list Z) (f : mflow) (L W : list Z) : Prop := {
  sy_put : m_u64 body 8 = zlen W;
  sy_fin : Z.testbit (m_u32 body 4) 0 = true -> f_socket_eof f = true /\ m_u64 body 32 = zlen L;
  sy_applied : Z.testbit (m_u32 body 4) 1 = true -> f_rx_fin_applied f = true }.
Lemma field32 (v : Z) (w : list Z) : 0 <= v <= UINT32_MAX -> be_get (ztake 4 (zdrop 0 (m_put32 v ++ w))) = v.
Proof.
  intros Hv. rewrite zdrop_0, ztake_app_exact by done. apply be_get_put_small.
  unfold UINT32_MAX in Hv. change (256 ^ Z.of_nat 4) with (2 ^ 32). lia.
Qed.
Lemma zlen_put32 v : zlen (m_put32 v) = 4.
Proof. apply be_put_zlen. Qed.
Lemma snapshot_says f L W :
  tx_ok f L -> f_rx_commit f = zlen W -> zlen W <= UINT64_MAX -> says (m_resume_snapshot 0 f) f L W.
Proof.
  intros [T1 T2 T3 T4 T5 T6] Hc Hw. pose proof (zlen_nonneg W).
  assert (Hfl : m_u32 (m_resume_snapshot 0 f) 4 = Z.lor (if f_socket_eof f then 1 else 0) (if f_rx_fin_applied f then 2 else 0)).
  { unfold m_resume_snapshot, m_u32, zsub. rewrite zdrop_skip by (rewrite zlen_put32; done). rewrite zlen_put32.
    apply field32. destruct (f_socket_eof f), (f_rx_fin_applied f); done. }
  constructor.
  - unfold m_resume_snapshot, m_u64, zsub. do 2 rewrite zdrop_skip by (rewrite ?zlen_put32; done). rewrite !zlen_put32. rewrite Hc. apply field64. lia.
  - rewrite Hfl. destruct (f_socket_eof f) eqn:E; [|by destruct (f_rx_fin_applied f)]. intros _. split; [done|].
    unfold m_resume_snapshot, m_u64, zsub. do 5 rewrite zdrop_skip by (rewrite ?zlen_put32, ?zlen_put64; done). rewrite !zlen_put32, !zlen_put64.
    rewrite T5, <- (app_nil_r (m_put64 _)) by done. apply field64. pose proof (zlen_nonneg L). lia.
  - rewrite Hfl. by destruct (f_socket_eof f), (f_rx_fin_applied f).
Qed.

(** A flow [f'] that applied [body] and has nothing pending. *)
Record resumed_of (f : mflow) (body : list Z) (f' : mflow) : Prop := {
  re_tx : forall L, tx_ok f L -> tx_ok f' L;
  re_base : f_tx_base f' = m_u64 body 8;
  re_pos : f_tx_pos f' = 0;
  re_idle : idle f';
  re_rx : rx f' = [] /\ f_rx_pos f' = 0 /\ f_rx_commit f' = f_rx_commit f;
  re_same : (f_id f', f_socket_eof f', f_rx_fin_applied f') = (f_id f, f_socket_eof f, f_rx_fin_applied f);
  re_acked : f_tx_fin_acked f' = true -> f_tx_fin_acked f = true \/ Z.testbit (m_u32 body 4) 1 = true;
  re_fin : f_rx_fin f' = true -> (f_rx_fin f = true /\ f_rx_final f' = f_rx_final f) \/
             (Z.testbit (m_u32 body 4) 0 = true /\ f_rx_final f' = m_u64 body 32) }.

Definition reset (f : mflow) : mflow :=
  f <| f_tx_pos := 0 |> <| f_in_frame := [] |> <| f_in_size := 0 |> <| f_in_pos := 0 |> <| f_out_pos := 0 |>
    <| f_out_kind := 0 |> <| f_rx_next := f_rx_commit f |> <| f_rx := Some [] |> <| f_rx_pos := 0 |>.
Lemma reset_spec f : f_tx_pos (reset f) = 0 /\ idle (reset f) /\ rx (reset f) = [] /\ f_rx_pos (reset f) = 0 /\ kept (reset f) = kept f.
Proof. unfold idle. split_and!; reflexivity. Qed.
Definition finish (final : bool) (n : Z) (f : mflow) : mflow :=
  let f := if final then f <| f_rx_fin := true |> <| f_rx_final := n |> else f in f <| f_sent_fin := f_tx_fin_acked f |> <| f_ack_dirty := true |>.
Lemma finish_spec b n f : let f' := finish b n f in
  (tx f', f_tx_base f', f_tx_pos f', (f_socket_eof f', f_tx_final f', f_tx_fin_acked f'), f_rx_commit f', f_rx_fin_applied f', f_id f', (rx f', f_rx_pos f')) =
  (tx f, f_tx_base f, f_tx_pos f, (f_socket_eof f, f_tx_final f, f_tx_fin_acked f), f_rx_commit f, f_rx_fin_applied f, f_id f, (rx f, f_rx_pos f)) /\
  (f_in_frame f', f_rx_next f', f_out_kind f') = (f_in_frame f, f_rx_next f, f_out_kind f) /\
  (f_rx_fin f', f_rx_final f') = (if b then (true, n) else (f_rx_fin f, f_rx_final f)).
Proof. destruct b; split_and!; reflexivity. Qed.

Lemma apply_spec body f ok f' L :
  m_resume_apply body f = (ok, f') -> tx_ok f L -> f_out_kind f = 0 -> 0 <= m_u64 body 8 ->
  if ok then resumed_of f body f' /\ m_u32 body 0 = 0 else f' = f \/ f' = f <| f_tx_pos := zlen (tx f) |>.
Proof.
  intros H Ht Hk Hd. unfold m_resume_apply in H. cbv zeta in H.
  destruct (resume_invalid _ _ _ _ _ _ _) eqn:Ei; [apply pair_inj in H as [<- <-]; by left|].
  set (f1 := f <| f_tx_pos := zlen (tx f) |>) in *.
  destruct (m_v2_ack _ _ f1) as [f2|] eqn:Ea; [|apply pair_inj in H as [<- <-]; by right].
  fold (reset f2) in H. fold (finish (Z.testbit (m_u32 body 4) 0) (m_u64 body 32) (reset f2)) in H.
  apply pair_inj in H as [<- <-]. unfold resume_invalid in Ei. repeat (apply orb_false_iff in Ei as [Ei ?]). bools. split; [|done].
  assert (Hf1 : forall M, tx_ok f M -> tx_ok f1 M).
  { intros M [T1 T2 T3 T4 T5 T6]. constructor; try done; [|by left]. change (0 <= zlen (tx f) <= zlen (tx f)). pose proof (zlen_nonneg (tx f)). lia. }
  assert (R1 : rxs f1 = rxs f /\ f_tx_base f1 = f_tx_base f /\ f_tx_fin_acked f1 = f_tx_fin_acked f /\ f_socket_eof f1 = f_socket_eof f /\ f_id f1 = f_id f) by done.
  clearbody f1. destruct R1 as (R1 & B1 & K1 & E1 & I1).
  destruct (ack_spec _ _ _ _ _ Ea (Hf1 L Ht) Hd) as (_ & A2 & _ & _ & A5 & A6 & A7). injection A7 as A7 A8 A9 A10 _.
  assert (Hf2 : forall M, tx_ok f M -> tx_ok f2 M) by (intros M HM; exact (proj1 (ack_spec _ _ _ _ _ Ea (Hf1 M HM) Hd))).
  destruct (reset_spec f2) as (S1 & S2 & S3 & S4 & S5). destruct (finish_spec (Z.testbit (m_u32 body 4) 0) (m_u64 body 32) (reset f2)) as (F1 & F2 & F3).
  generalize dependent (reset f2). intros f3 S1 S2 S3 S4 S5 F1 F2 F3. generalize dependent (finish (Z.testbit (m_u32 body 4) 0) (m_u64 body 32) f3). intros f4 F1 F2 F3.
  rewrite R1 in A6. injection A6 as X1 X2 X3 X4 X5 X6 X7 X8 X9 X10 X11 X12. injection S5 as Y1 Y2 Y3 Y4 Y5 Y6 Y7 Y8 Y9 Y10.
  injection F1 as G1 G2 G3 G4 G5 G6 G7 G8 G9 G10 G11. injection F2 as J1 J2 J3. destruct S2 as (D1 & D2 & D3). constructor.
  - intros M HM. destruct (Hf2 M HM) as [T1 T2 T3 T4 T5 T6]. constructor; rewrite ?G1, ?G2, ?G3, ?G4, ?G5, ?Y1, ?Y2, ?Y3, ?Y4, ?S1; try done.
    + split; [lia|apply zlen_nonneg].
    + left. congruence.
  - lia.
  - congruence.
  - split; [congruence|]. split; congruence.
  - split; [congruence|]. split; congruence.
  - congruence.
  - rewrite G6, Y5. intros Hac. destruct (A5 Hac) as [|Hne]; [left; congruence|right]. by destruct (Z.testbit (m_u32 body 4) 1).
  - destruct (Z.testbit (m_u32 body 4) 0); injection F3 as F3 F4; [by right|left]. split; congruence.
Qed.

(** A flow that only differs in what neither half looks at. *)
Definition halves (f : mflow) := (tx f, f_tx_base f, f_tx_pos f, (f_socket_eof f, f_tx_final f, f_tx_fin_acked f), f_out_kind f, f_id f,
  rxcore f, fins f, f_in_frame f).
Lemma resumed_halves f body f' f'' : resumed_of f body f' -> halves f'' = halves f' -> resumed_of f body f''.
Proof.
  intros [H1 H2 H3 H4 H5 H6 H7 H8] E. injection E as E1 E2 E3 E4 E5 E6 E7 E8 E9 E10 E11 E12 E13 E14 E15 E16.
  destruct H4 as (D1 & D2 & D3). destruct H5 as (D4 & D5 & D6). constructor; unfold idle; old_fields f''; try done.
  intros L HL. destruct (H1 L HL) as [T1 T2 T3 T4 T5 T6]. constructor; old_fields f''; try done. left. congruence.
Qed.

Lemma both_resumed x body f' u y q1 q2 q1' q2' :
  alive (ep x) -> says body (ep y) (got y) (put y) -> resumed_of (ep x) body f' ->
  (alive (ep y) -> up y = true -> stream_ok id (Endpoint f' u (got x) (put x)) y q1') ->
  (u = true -> stream_ok id y (Endpoint f' u (got x) (put x)) q2') ->
  both id x y q1 q2 -> both id (Endpoint f' u (got x) (put x)) y q1' q2'.
Proof.
  intros Ha [Y1 Y2 Y3] [E1 E2 E3 E4 (E5 & E6 & E7) E8 E9 E10] S1 S2 [Hxy Hyx]. injection E8 as I1 I2 I3. split.
  - destruct Hxy as [H1 Hlen H2 H3 H4 H5 H6 H7 H8 H9]. destruct (H3 Ha) as [Ht Hb].
    constructor; cbn [ep got put up]; rewrite ?I1, ?I2; try done.
    + intros _. split; [by apply E1|lia].
    + intros Hac. destruct (E9 Hac); auto.
  - destruct Hyx as [H1 Hlen H2 H3 H4 H5 H6 H7 H8 H9]. destruct (H4 Ha) as [R1 R2 R3 R4 R5]. destruct E4 as (D1 & D2 & D3).
    constructor; cbn [ep got put up]; rewrite ?I3; try done.
    + intros _. pose proof (prefix_len _ _ H2). constructor; rewrite ?E5, ?E6, ?D2, ?E7, ?(@zlen_nil Z); try lia.
      unfold zsub. rewrite Z.sub_diag, (ztake_0 0) by lia. done.
    + intros _ Hf. destruct (E10 Hf) as [[Hf' ->]|[Hb ->]]; [by apply H6|by apply Y2].
Qed.
(** New streams for an unchanged flow. *)
Lemma both_requeue x y u q1 q2 q1' q2' :
  (alive (ep y) -> up y = true -> stream_ok id (Endpoint (ep x) u (got x) (put x)) y q1') ->
  (alive (ep x) -> u = true -> stream_ok id y (Endpoint (ep x) u (got x) (put x)) q2') ->
  both id x y q1 q2 -> both id (Endpoint (ep x) u (got x) (put x)) y q1' q2'.
Proof.
  intros S1 S2 [[H1 Hlen H2 H3 H4 H5 H6 H7 H8 H9] [K1 Klen K2 K3 K4 K5 K6 K7 K8 K9]]. split; by constructor.
Qed.

(** While RESUME_ACK is on its way the far end has received nothing on the new stream. *)
Record waiting (l : link) (body : list Z) : Prop := {
  wa_near : alive (ep (near l)) /\ f_suspended (ep (near l)) = true;
  wa_body : m_u32 body 0 <> 0 \/
    (says body (ep (far l)) (got (far l)) (put (far l)) /\ to_far l = [] /\
     (alive (ep (far l)) -> f_in_frame (ep (far l)) = [] /\ f_rx_next (ep (far l)) = f_rx_commit (ep (far l)))) }.
Record link_inv (l : link) : Prop := {
  li_both : both id (near l) (far l) (to_far l) (to_near l);
  li_answer : forall body, answer l = Some body -> waiting l body }.

Lemma both_put_len x y q1 q2 : both id x y q1 q2 -> 0 <= zlen (put x) <= UINT64_MAX.
Proof. intros [_ [_ Hl Hp _ _ _ _ _ _ _]]. apply prefix_len in Hp. pose proof (zlen_nonneg (put x)). lia. Qed.
Lemma resume_open_spec now f : let n := resume_open now f <| f_stream := true |> in
  txs n = txs (f <| f_phase := M_CONTROL |>) /\ rxs n = rxs (f <| f_phase := M_CONTROL |>) /\
  zdrop M_HEADER (f_reply n) = m_resume_snapshot 0 f /\ f_id n = f_id f.
Proof. split_and!; reflexivity. Qed.
Lemma rebind_spec now ph f : halves (resume_rebind now ph f) = halves f /\ f_phase (resume_rebind now ph f) = M_REPLY_PHASE /\
  f_suspended (resume_rebind now ph f) = false /\ zdrop M_HEADER (f_reply (resume_rebind now ph f)) = m_resume_snapshot 0 (resume_rebind now ph f).
Proof. split_and!; reflexivity. Qed.

Lemma both_frame x f' y q1 q2 :
  txs f' = txs (ep x) -> rxs f' = rxs (ep x) -> both id x y q1 q2 -> both id (Endpoint f' (up x) (got x) (put x)) y q1 q2.
Proof.
  intros Ht Hr [Hxy Hyx]. destruct (rxs_core _ _ Hr) as (C1 & C2 & C3). injection C2 as F1 F2 F3. injection C1 as _ _ C4 C5. injection C3 as C6 _ _ _.
  split; [|by apply (dir_rx_frame _ _ x)]. apply (dir_tx_frame _ x); cbn [ep up got put]; try done; [congruence|].
  pose proof Ht as Ht'. injection Ht' as _ _ _ _ _ _ K1 _ _ _ _ _ K2 K3. unfold alive. rewrite K2, K3. intros Ha Hs.
  destruct (d_idle _ _ _ _ Hxy Ha Hs) as (D1 & D2 & D3). split; [congruence|]. split; congruence.
Qed.
Lemma refuse_spec now body ph old : 
  (resume_done now body ph old).1 = ph <| f_stream := false |> <| f_phase := M_DEAD |> <| f_close_requested := true |> /\
    (exists o f', old = Some o /\ resumable now o = true /\ m_resume_apply body o = (true, f') /\ (resume_done now body ph old).2 = Some (resume_rebind now ph f')) \/
  f_phase (resume_done now body ph old).1 = M_REPLY_PHASE /\ m_u32 (zdrop M_HEADER (f_reply (resume_done now body ph old).1)) 0 <> 0 /\
    ((resume_done now body ph old).2 = old \/ exists o f', old = Some o /\ resumable now o = true /\ m_resume_apply body o = (false, f') /\ (resume_done now body ph old).2 = Some f').
Proof.
  unfold resume_done. destruct old as [o|]; [|right; split; [reflexivity|split; [by intros ?|by left]]].
  destruct (resumable now o) eqn:Er; [|right; split; [reflexivity|split; [by intros ?|by left]]].
  destruct (m_resume_apply body o) as [[] f'] eqn:Ea.
  - left. split; [reflexivity|]. by exists o, f'.
  - right. split; [reflexivity|]. split; [by intros ?|]. right. by exists o, f'.
Qed.

(** A refused resumption may have moved the send position. *)
Lemma both_pos x p y q1 q2 :
  alive (ep x) -> f_out_kind (ep x) = 0 -> up x = false -> 0 <= p <= zlen (tx (ep x)) -> both id x y q1 q2 ->
  both id (Endpoint (ep x <| f_tx_pos := p |>) false (got x) (put x)) y q1 q2.
Proof.
  intros Ha Hk Hu Hp [Hxy Hyx]. split; [|apply (dir_rx_frame _ _ x); done].
  destruct Hxy as [H1 Hlen H2 H3 H4 H5 H6 H7 H8 H9]. constructor; try done.
  - intros _. destruct (H3 Ha) as [[T1 T2 T3 T4 T5 T6] Hb]. split; [|done]. constructor; try done. by left.
  - intros Hy Huy. destruct (H9 Hy Huy) as (n & fs & h & R & n' & Hn & Hc & Hq & Hi & _). by exists n, fs, h, R, n'.
Qed.
Lemma link_resume_ok now l : link_inv l -> link_inv (link_resume now l).
Proof.
  intros [Hb Hans]. unfold link_resume. destruct (_ && _) eqn:E; [|by constructor].
  apply andb_true_iff in E as [E Huf%negb_true_iff]. apply andb_true_iff in E as [E Hun%negb_true_iff].
  apply andb_true_iff in E as [E Ha%negb_true_iff%bool_decide_eq_false]. apply andb_true_iff in E as [Hsus _].
  destruct (resume_open_spec now (ep (near l))) as (N1 & N2 & N3 & N4).
  set (n := resume_open now (ep (near l)) <| f_stream := true |>) in *. rewrite N3.
  set (ph := zero_flow 0 now <| f_id := f_id n |> <| f_stream := true |>). cbv zeta.
  assert (Hn : both id (Endpoint n false (got (near l)) (put (near l))) (far l) (to_far l) (to_near l)).
  { apply (both_phase _ _ _ _ M_CONTROL Ha) in Hb; [|done]. rewrite Hun in Hb. by apply (both_frame _ n) in Hb. }
  assert (Han : alive n) by done. assert (Hsn : f_suspended n = true) by done.
  assert (Hin : idle n) by (by apply (d_idle _ _ _ _ (proj1 Hn))).
  destruct (d_rx _ _ _ _ (proj2 Hn) Han) as [Rc _ _ _ _]. cbn [ep put] in Rc.
  destruct (d_tx _ _ _ _ (proj1 Hb) Ha) as [Htn _].
  assert (Hsy : says (m_resume_snapshot 0 (ep (near l))) (ep (near l)) (got (near l)) (put (near l))).
  { apply snapshot_says; [done|apply (d_rx _ _ _ _ (proj2 Hb) Ha)|apply (both_put_len _ _ _ _ Hb)]. }
  assert (Hsn' : says (m_resume_snapshot 0 (ep (near l))) n (got (near l)) (put (near l))) by (destruct Hsy; by constructor).
  assert (Hnon : 0 <= f_rx_next n) by (destruct Hin as (_ & -> & _); rewrite Rc; apply zlen_nonneg).
  clearbody n. clear N1 N2 N3 N4 Hsy. set (body := m_resume_snapshot 0 (ep (near l))) in *. clearbody body.
  set (old := if bool_decide _ then None else _).
  assert (Hold : forall o, old = Some o -> o = ep (far l) /\ alive (ep (far l))).
  { unfold old. destruct (bool_decide _) eqn:Ed; [done|]. intros o [= <-]. split; [done|]. by apply bool_decide_eq_false in Ed. }
  clearbody old. pose proof (refuse_spec now body ph old) as Hrs. destruct (resume_done now body ph old) as [ph' old']. cbn [fst snd] in Hrs.
  destruct Hrs as [[Hph (o & f' & Ho & Hres & Hap & Ho')]|(Hph & Hcode & Ho')].
  - destruct (Hold o Ho) as [-> Haf]. subst old'.
    assert (Hphd : bool_decide (f_phase ph' = M_DEAD) = true) by (by apply bool_decide_eq_true; rewrite Hph). rewrite Hphd. clear Hphd Hph.
    destruct (d_tx _ _ _ _ (proj2 Hb) Haf) as [Htf _].
    assert (Hsf : f_suspended (ep (far l)) = true).
    { unfold resumable in Hres. bools. done. }
    destruct (d_idle _ _ _ _ (proj2 Hb) Haf Hsf) as (_ & _ & Hkf).
    pose proof (apply_spec _ _ _ _ _ Hap Htf Hkf) as Hspec. rewrite (sy_put _ _ _ _ Hsn') in Hspec. destruct Hspec as [Hre _]; [apply zlen_nonneg|].
    destruct (rebind_spec now ph f') as (B1 & B2 & B3 & B4). apply (fun H => resumed_halves _ _ _ _ H B1) in Hre.
    set (g := resume_rebind now ph f') in *. clearbody g. change (default (ep (far l)) (Some g)) with g. rewrite B4. clear B1 B4 Hap.
    pose proof Hre as [E1 E2 E3 E4 (E5 & E6 & E7) E8 E9 E10].
    destruct (d_rx _ _ _ _ (proj1 Hb) Haf) as [Rf _ _ _ _]. pose proof (zlen_nonneg (put (far l))).
    assert (Hgn : 0 <= f_rx_next g) by (destruct E4 as (_ & -> & _); lia).
    assert (Hfar : both id (Endpoint g true (got (far l)) (put (far l))) (Endpoint n false (got (near l)) (put (near l))) [] []).
    { apply (both_resumed (far l) body g true _ (to_near l) (to_far l)); [done|done|done|done| |by apply both_comm].
      intros _. apply stream_idle; [by apply E4 || by apply Hin|done|]. done. }
    constructor; cbn [near far to_far to_near answer].
    + apply (both_requeue (Endpoint n false (got (near l)) (put (near l))) _ true [] []); [| |by apply both_comm].
      * intros _ _. apply stream_idle; [by apply E4 || by apply Hin|done|]. cbn [ep]. congruence.
      * intros _ _. apply stream_idle; [by apply E4 || by apply Hin|done|]. intros _ _ _. cbn [ep]. destruct E4 as (_ & _ & ->). split; [done|].
        rewrite E2, E3, (sy_put _ _ _ _ Hsn'). destruct Hin as (_ & -> & _). lia.
    + intros b [= <-]. constructor; [done|]. right. cbn [far near ep got put to_far]. split; [|split; [done|intros _; destruct E4 as (? & ? & _); done]].
      apply snapshot_says; [by apply E1|congruence|]. apply both_comm in Hb. apply (both_put_len _ _ _ _ Hb).
  - assert (bool_decide (f_phase ph' = M_DEAD) = false) as -> by (apply bool_decide_eq_false; by rewrite Hph).
    assert (Hg : both id (Endpoint (default (ep (far l)) old') false (got (far l)) (put (far l))) (Endpoint n false (got (near l)) (put (near l))) (to_near l) (to_far l)).
    { apply both_comm in Hn. assert (Hsame : both id (Endpoint (ep (far l)) false (got (far l)) (put (far l))) (Endpoint n false (got (near l)) (put (near l))) (to_near l) (to_far l)).
      { destruct (far l); cbn in *; by subst. }
      destruct Ho' as [->|(o & f' & Ho & Hres & Hap & ->)]; [destruct old as [o|]; [destruct (Hold o eq_refl) as [-> _]|]; exact Hsame|].
      destruct (Hold o Ho) as [-> Haf]. destruct (d_tx _ _ _ _ (proj2 Hb) Haf) as [Htf _].
      assert (Hsf : f_suspended (ep (far l)) = true) by (unfold resumable in Hres; bools; done).
      destruct (d_idle _ _ _ _ (proj2 Hb) Haf Hsf) as (_ & _ & Hkf).
      pose proof (apply_spec _ _ _ _ _ Hap Htf Hkf) as Hspec. rewrite (sy_put _ _ _ _ Hsn') in Hspec.
      destruct Hspec as [->| ->]; [apply zlen_nonneg|exact Hsame|]. apply both_pos; [done|done|done| |done]. pose proof (zlen_nonneg (tx (ep (far l)))). lia. }
    generalize dependent (default (ep (far l)) old'). intros g Hg. constructor; cbn [near far to_far to_near answer].
    + apply (both_requeue (Endpoint n false (got (near l)) (put (near l))) _ true (to_far l) (to_near l)); [done| |by apply both_comm].
      intros _ _. apply stream_idle; [apply Hin|done|done].
    + intros b [= <-]. constructor; [done|]. by left.
Qed.

(** ** Steps while RESUME_ACK is on its way *)

Lemma suspended_tick sp now a x : f_suspended (ep x) = true -> end_tick sp now a x = (x, []).
Proof.
  intros H. unfold end_tick, m_v2_tick. rewrite H, !orb_true_r. cbn. rewrite !app_nil_r, andb_true_r. by destruct x.
Qed.
Lemma suspended_read sp now rs q x : f_suspended (ep x) = true -> end_read sp now rs q x = (x, q).
Proof.
  intros H. unfold end_read, m_v2_read. rewrite H, orb_true_r. destruct (_ && _); [|done]. destruct x. reflexivity.
Qed.

(** Effects of the stream only. *)
Definition unsocketed (fx : list effect) : Prop := socket_bytes fx = [] /\ got_bytes fx = [].
Lemma unsocketed_app fx1 fx2 : unsocketed fx1 -> unsocketed fx2 -> unsocketed (fx1 ++ fx2).
Proof. unfold unsocketed, socket_bytes, got_bytes. rewrite !flat_map_app. by intros [-> ->] [-> ->]. Qed.
Lemma send_header_unsocketed ans f : unsocketed (v2_send_header ans f).2.
Proof.
  unfold v2_send_header. destruct (_ <? _); [|done]. destruct ans as [|[n [] | |] ans]; done.
Qed.
Lemma send_payload_unsocketed ans f : unsocketed (v2_send_payload ans f).2.
Proof.
  unfold v2_send_payload. destruct (_ && _); [|done]. destruct (_ || _); [done|]. destruct ans as [|[n [] | |] ans]; done.
Qed.
Lemma write_unsocketed stop ans f : unsocketed (m_v2_write stop ans f).2.
Proof.
  unfold m_v2_write. destruct (_ || _); [done|]. generalize 2%nat. intros n. revert ans f. induction n as [|n IH]; intros ans f; [done|]. cbn [v2_write_rounds].
  destruct (v2_next_frame f) as [f1|]; [|done]. pose proof (send_header_unsocketed ans f1) as H1.
  destruct (v2_send_header ans f1) as [[[[] ans1] f2] fx1]; [|done]. cbn [negb snd] in *. pose proof (send_payload_unsocketed ans1 f2) as H2.
  destruct (v2_send_payload ans1 f2) as [[[[] ans2] f3] fx2]; cbn [negb snd] in *; [|by apply unsocketed_app].
  destruct (_ && _); [|by apply unsocketed_app]. specialize (IH ans2 (v2_complete f3)). destruct (v2_write_rounds n ans2 (v2_complete f3)) as [f4 fx3].
  by repeat apply unsocketed_app.
Qed.

(** What a tick of a flow with an empty receive buffer leaves alone. *)
Definition quiet (f f' : mflow) (fx : list effect) : Prop :=
  socket_bytes fx = [] /\ (f_socket_eof f = true -> f_socket_eof f' = true /\ got_bytes fx = []) /\
  (f_rx_fin_applied f = true -> f_rx_fin_applied f' = true) /\ (alive f' -> rxcore f' = rxcore f /\ f_in_frame f' = f_in_frame f).
Lemma quiet_refl f : quiet f f [].
Proof. split; [done|]. split; [done|]. split; done. Qed.
Lemma quiet_trans f g h fx1 fx2 : (alive h -> alive g) -> quiet f g fx1 -> quiet g h fx2 -> quiet f h (fx1 ++ fx2).
Proof.
  intros Ha (A1 & A2 & A3 & A4) (B1 & B2 & B3 & B4). unfold quiet, socket_bytes, got_bytes in *. rewrite !flat_map_app, A1, B1.
  split; [done|]. split; [intros He; destruct (A2 He) as [He' ->]; by apply B2|]. split; [auto|].
  intros Hh. destruct (A4 (Ha Hh)) as [<- <-]. by apply B4.
Qed.
Lemma quiet_abort sp f : quiet f (m_abort sp f).1 (m_abort sp f).2.
Proof.
  destruct (abort_spec sp f) as (A1 & A2 & _ & S2 & S3). destruct (m_abort sp f) as [g fx]. cbn [fst snd] in *.
  injection A2 as _ E1 _ E2. split; [done|]. split; [by rewrite E1|]. split; [by rewrite E2|]. unfold alive. congruence.
Qed.
Lemma tick_quiet sp now stop a f f' fx :
  f_id f = id -> f_rx_pos f = zlen (rx f) -> m_v2_tick sp now true stop a f = (f', fx) -> quiet f f' fx.
Proof.
  intros Hid Hq. unfold m_v2_tick. cbv zeta. destruct (_ || _) eqn:E; [intros [<- <-]%pair_inj; apply quiet_refl|].
  assert (Ha : attached f).
  { bools. repeat match goal with H : _ || _ = false |- _ => apply orb_false_iff in H as [? ?] end. bools.
    split; [|done]. unfold alive. rewrite bool_decide_eq_true in *. congruence. }
  clear E. assert (Hab : forall g fx0, quiet f g fx0 -> (let '(f1, fx1) := m_abort sp g in (f1, fx0 ++ fx1)) = (f', fx) -> quiet f f' fx).
  { intros g fx0 Hg. pose proof (quiet_abort sp g) as Hgo. destruct (abort_spec sp g) as (A1 & _ & _).
    destruct (m_abort sp g) as [f1 fx1]. intros [<- <-]%pair_inj. apply (quiet_trans f g); [|done|done]. intros Hd. destruct (Hd A1). }
  destruct (t_poll_error a); [by apply Hab, quiet_refl|].
  assert (v2_to_socket now a f = Some (f, [])) as ->.
  { unfold v2_to_socket. rewrite Hq, Z.ltb_irrefl, andb_false_r. done. }
  assert (Hap : forall g fx0, v2_apply_fin a f = Some (g, fx0) -> quiet f g fx0 /\ txs g = txs f).
  { intros g fx0. unfold v2_apply_fin. destruct (_ && _); [|intros [<- <-]%some_pair_inj; split; [apply quiet_refl|done]].
    destruct (t_shutdown_ok a); [|done]. intros [<- <-]%some_pair_inj. split; [split_and!; done|done]. }
  destruct (v2_apply_fin a f) as [[f2 fx2]|] eqn:E2; [|by apply Hab, quiet_refl]. destruct (Hap _ _ eq_refl) as [Q2 T2]. clear Hap.
  assert (A2 : attached f2) by (by apply (attached_same f)).
  destruct (v2_from_socket now a f2) as [f3|[[f3 fx3]|]] eqn:E3; [|destruct (from_socket_ok id _ _ _ _ _ A2 E3) as (_ & _ & Hid3 & A3)|by apply (Hab f2 fx2)].
  - apply (Hab f3 (fx2 ++ _)). unfold v2_from_socket in E3.
    destruct (_ && _) in E3; [|done]. destruct (_ =? 0) in E3; [done|]. destruct (t_recv a) in E3; [|done..].
    destruct (_ =? 0) in E3; [done|]. destruct (_ <? _) in E3; [|done]. injection E3 as <-. apply (quiet_trans f f2); [done|done|]. split_and!; done.
  - assert (Q3 : quiet f2 f3 fx3).
    { unfold v2_from_socket in E3. destruct (t_pollin a && _) eqn:Ep in E3; [|apply (inj inr), some_pair_inj in E3 as [<- <-]; apply quiet_refl].
      destruct (_ =? 0) in E3; [apply (inj inr), some_pair_inj in E3 as [<- <-]; apply quiet_refl|]. bools.
      destruct (t_recv a) in E3; [|apply (inj inr), some_pair_inj in E3 as [<- <-]; apply quiet_refl|done].
      destruct (_ =? 0) in E3; [apply (inj inr), some_pair_inj in E3 as [<- <-]; split_and!; done|]. destruct (_ <? _) in E3; [done|].
      apply (inj inr), some_pair_inj in E3 as [<- <-]. split; [done|]. split; [cbn; congruence|]. split; done. }
    pose proof (write_unsocketed stop (t_stream a) f3) as U4. destruct (m_v2_write stop (t_stream a) f3) as [f4 fx4] eqn:E4.
    assert (Q4 : quiet f3 f4 fx4).
    { unfold m_v2_write in E4. destruct (_ || _); [apply pair_inj in E4 as [<- <-]; apply quiet_refl|].
      assert (Hs3 : sends id f3) by (split; [done|]; unfold txs in *; congruence).
      destruct (write_rounds_ok id _ _ _ _ _ Hs3 E4) as (_ & O4 & R4). destruct U4 as [U4 U5]. cbn [snd] in *. injection O4 as _ _ O4 _ _ _ _ _.
      destruct (rxs_core _ _ R4) as (C1 & C2 & C3). injection C2 as _ _ C2. injection C3 as C3 _ _ _.
      split; [done|]. split; [by rewrite O4|]. split; [by rewrite C2|done]. }
    assert (Q : quiet f f4 ([] ++ fx2 ++ fx3 ++ fx4)).
    { cbn [app]. apply (quiet_trans f f2); [intros _; apply A2|done|]. apply (quiet_trans f2 f3); [intros _; apply A3|done|done]. }
    destruct (_ && _) in |- *; [by apply Hab|by intros [<- <-]%pair_inj].
Qed.

(** A step of the far end that keeps what it said. *)
Record hushed (x x' : endpoint) : Prop := {
  hu_put : put x' = put x;
  hu_eof : f_socket_eof (ep x) = true -> f_socket_eof (ep x') = true /\ got x' = got x;
  hu_applied : f_rx_fin_applied (ep x) = true -> f_rx_fin_applied (ep x') = true;
  hu_idle : alive (ep x') -> alive (ep x) /\ (f_in_frame (ep x) = [] -> f_rx_next (ep x) = f_rx_commit (ep x) ->
    f_in_frame (ep x') = [] /\ f_rx_next (ep x') = f_rx_commit (ep x')) }.
Lemma waiting_far l body x' q : waiting l body -> hushed (far l) x' -> waiting (Link (near l) x' (to_far l) q (answer l)) body.
Proof.
  intros [Wn Wb] [H1 H2 H3 H4]. constructor; [done|]. destruct Wb as [|([Y1 Y2 Y3] & Hq & Hi)]; [by left|right]. cbn [far to_far]. split; [|split; [done|]].
  - constructor; rewrite ?H1; [done| |auto]. intros Hb. destruct (Y2 Hb) as [He Hl]. destruct (H2 He) as [? ->]. done.
  - intros Ha. destruct (H4 Ha) as [Hx Hk]. destruct (Hi Hx). auto.
Qed.
(** Until RESUME_ACK is received the far end has nothing to write to its socket. *)
Lemma far_tick_hushed sp now a x y q1 q2 x' out :
  both id x y q1 q2 -> (alive (ep x) -> f_rx_next (ep x) = f_rx_commit (ep x)) -> end_tick sp now a x = (x', out) -> hushed x x'.
Proof.
  intros Hb Hi. unfold end_tick. destruct (decide (f_phase (ep x) = M_DEAD)) as [Hd|Ha].
  - assert (m_v2_tick sp now true (negb (up x)) a (ep x) = (ep x, [])) as ->.
    { unfold m_v2_tick. by rewrite Hd. }
    intros [<- _]%pair_inj. constructor; cbn; rewrite ?app_nil_r; done.
  - destruct (d_rx _ _ _ _ (proj2 Hb) Ha) as [R1 R2 R3 R4 R5]. pose proof (Hi Ha).
    destruct (m_v2_tick sp now true (negb (up x)) a (ep x)) as [f fx] eqn:E. intros [<- _]%pair_inj.
    apply tick_quiet in E as (Q1 & Q2 & Q3 & Q4); [|apply (d_id _ _ _ _ (proj1 Hb))|lia].
    constructor; cbn [ep got put]; rewrite ?Q1, ?app_nil_r; try done.
    + intros He. destruct (Q2 He) as [? ->]. by rewrite app_nil_r.
    + intros Hf. destruct (Q4 Hf) as [C1 C2]. injection C1 as _ _ C3 C4. split; [done|]. by rewrite C2, C3, C4.
Qed.
Lemma read_nothing now n ans f r q f' :
  f_in_frame f = [] -> v2_read_rounds now n ans [] f = (r, q, f') -> (r = Stop \/ r = Abort) /\ q = [] /\ f' = f.
Proof.
  intros Hf. assert (Hs : f <| f_in_frame := [] |> = f) by (destruct f; cbn in Hf; by subst).
  destruct n as [|n]; cbn [v2_read_rounds]; [intros [[<- <-]%pair_inj <-]%pair_inj; by auto|].
  unfold v2_read_header. rewrite Hf. destruct ans as [|[k [] | |] ans]; try (intros [[<- <-]%pair_inj <-]%pair_inj; by auto).
  - unfold stream_recv, ztake, zdrop. rewrite drop_nil. intros [[<- <-]%pair_inj <-]%pair_inj. auto.
  - unfold stream_recv, ztake, zdrop. rewrite take_nil, drop_nil. cbn [fst snd]. 
    assert (f <| f_in_frame ::= fun h => h ++ [] |> = f) as -> by (destruct f; cbn in Hf; by subst).
    rewrite Hf. intros [[<- <-]%pair_inj <-]%pair_inj. auto.
Qed.
Lemma hushed_refl x : hushed x x.
Proof. constructor; done. Qed.
Lemma hushed_dead x f' u : f_phase f' = M_DEAD -> ends f' = ends (ep x) -> hushed x (Endpoint f' u (got x) (put x)).
Proof. intros Hd E. injection E as _ E1 _ E2. constructor; cbn [ep got put]; [done|by rewrite E1|by rewrite E2|]. unfold alive. congruence. Qed.
Lemma far_read_hushed sp now ans x x' q :
  (alive (ep x) -> f_in_frame (ep x) = []) -> end_read sp now ans [] x = (x', q) -> hushed x x' /\ q = [].
Proof.
  intros Hi. unfold end_read. destruct (_ && _) eqn:E; [|intros [<- <-]%pair_inj; split; [apply hushed_refl|done]].
  apply andb_true_iff in E as [E _]. apply bool_decide_eq_true in E. unfold m_v2_read.
  destruct (_ || _); [intros [<- <-]%pair_inj; split; [constructor; done|done]|].
  destruct (v2_read_rounds now 32 ans [] (ep x)) as [[r q'] f'] eqn:Er.
  apply read_nothing in Er as (Hr & -> & ->); [|apply Hi; unfold alive; by rewrite E].
  destruct Hr as [-> | ->]; [intros [<- <-]%pair_inj; split; [constructor; done|done]|].
  destruct (abort_spec sp (ep x)) as (A1 & A2 & _). destruct (m_abort sp (ep x)) as [f fx]. cbn [fst] in *.
  intros [<- <-]%pair_inj. split; [|done]. exact (hushed_dead x f (keeps_up fx && up x) A1 A2).
Qed.
Lemma suspend_hushed sp k d x y q1 q2 : both id x y q1 q2 -> hushed x (end_suspend sp k d x).
Proof.
  intros Hb. unfold end_suspend. destruct (bool_decide _) eqn:E; [constructor; done|]. apply bool_decide_eq_false in E.
  destruct (suspend_spec sp k d (ep x)) as [[Hd He]|(Ha & K & I & R & P & T & S)]; generalize dependent (suspend_flow sp k d (ep x)).1; intros f'.
  - intros Hd He. by apply hushed_dead.
  - intros Ha K I R P T S. injection K as _ _ K1 _ _ _ _ _ K2 _. destruct I as (I1 & I2 & _).
    constructor; cbn [ep got put]; [done|by rewrite K1|by rewrite K2|]. intros _. split; [done|]. intros _ _. split; done.
Qed.
Lemma phase_halves p g f : txs g = txs f -> rxs g = rxs f -> txs (g <| f_phase := p |>) = txs (f <| f_phase := p |>) /\ rxs (g <| f_phase := p |>) = rxs (f <| f_phase := p |>).
Proof.
  assert (Ht : forall h, txs (h <| f_phase := p |>) = let '(r, (i, _, s)) := txs h in (r, (i, p, s))) by reflexivity.
  assert (Hr : forall h, rxs (h <| f_phase := p |>) = let '(r, _) := rxs h in (r, p)) by reflexivity.
  intros E1 E2. by rewrite !Ht, !Hr, E1, E2.
Qed.
(** Sending the rest of RESUME_ACK. *)
Lemma reply_spec sp ans f : let f' := (m_reply_flush sp true true ans SendAgain f).1 in
  (f_phase f' = M_DEAD /\ ends f' = ends f) \/ (alive f -> exists p, p <> M_DEAD /\ txs f' = txs (f <| f_phase := p |>) /\ rxs f' = rxs (f <| f_phase := p |>)).
Proof.
  cbv zeta. assert (Hsame : forall g, alive f -> txs g = txs f -> rxs g = rxs f -> exists p, p <> M_DEAD /\ txs g = txs (f <| f_phase := p |>) /\ rxs g = rxs (f <| f_phase := p |>)).
  { intros g Ha H1 H2. exists (f_phase f). split; [done|]. by destruct f. }
  assert (Hdone : forall g, txs g = txs f -> rxs g = rxs f -> ends g = ends f -> let g' := (reply_done sp true true SendAgain g).1 in
    (f_phase g' = M_DEAD /\ ends g' = ends f) \/ (alive f -> exists p, p <> M_DEAD /\ txs g' = txs (f <| f_phase := p |>) /\ rxs g' = rxs (f <| f_phase := p |>))).
  { intros g Ht Hr He. cbv zeta. unfold reply_done. destruct (f_proof g).
    - right. intros Ha. destruct (f_sent_fin g); [|by apply Hsame]. destruct (_ && _); [|by apply Hsame].
      exists M_ACTIVE. split; [done|]. exact (phase_halves M_ACTIVE g f Ht Hr).
    - destruct (bool_decide _); [|right; intros; by apply Hsame]. destruct (f_reject_after_reply g).
      + left. destruct (abort_spec sp g) as (A1 & A2 & _). split; [done|congruence].
      + right. intros Ha. exists M_ACTIVE. split; [done|]. exact (phase_halves M_ACTIVE g f Ht Hr). }
  unfold m_reply_flush. destruct (_ || _); [right; intros; by apply Hsame|]. destruct (_ <? _); [|by apply Hdone].
  destruct ans as [n lost| |]; [|right; intros; by apply Hsame|].
  - destruct lost; [right; intros; by apply Hsame|]. cbv zeta. set (f1 := f <| f_reply_pos ::= _ |>).
    specialize (Hdone f1 eq_refl eq_refl eq_refl). destruct (_ <? _); [right; intros; by apply Hsame|].
    destruct (reply_done sp true true SendAgain f1) as [g fx]. exact Hdone.
  - destruct (_ && _); [right; intros; by apply Hsame|]. left. destruct (abort_spec sp f) as (A1 & A2 & _). by split.
Qed.
Lemma link_reply_ok sp l : link_inv l -> link_inv (link_reply sp l).
Proof.
  intros [Hb Hans]. unfold link_reply. destruct (up (far l)) eqn:Eu; [|by constructor]. destruct (decide (f_phase (ep (far l)) = M_DEAD)) as [Hd|Ha].
  - assert (m_reply_flush sp true true (Took (zlen (f_reply (ep (far l)))) false) SendAgain (ep (far l)) = (ep (far l), [])) as ->.
    { unfold m_reply_flush. by rewrite Hd, !orb_true_r. }
    rewrite <- Eu. cbn [fst]. destruct l as [n [f u g p] q1 q2 a]. by constructor.
  - pose proof (reply_spec sp (Took (zlen (f_reply (ep (far l)))) false) (ep (far l))) as Hs. cbv zeta in Hs.
    generalize dependent (m_reply_flush sp true true (Took (zlen (f_reply (ep (far l)))) false) SendAgain (ep (far l))).1. intros f' Hs.
    apply both_comm in Hb. destruct Hs as [[Hd He]|Hp].
    + constructor; cbn [near far to_far to_near answer].
      * apply both_comm. by apply (both_dead _ (far l) _ _ _ (to_far l)).
      * intros body Hbo. apply waiting_far; [by apply Hans|]. by apply hushed_dead.
    + destruct (Hp Ha) as (p & Hp' & Ht & Hr). constructor; cbn [near far to_far to_near answer].
      * apply both_comm. apply (both_phase _ _ _ _ p Ha Hp') in Hb. rewrite Eu in Hb. by apply (both_frame _ f') in Hb.
      * intros body Hbo. apply waiting_far; [by apply Hans|]. destruct (rxs_core _ _ Hr) as (C1 & C2 & C3).
        injection C1 as _ _ C4 C5. injection C2 as _ _ C2. injection C3 as C3 _ _ _. injection Ht as _ _ _ E1 _ _ _ _ _ _ _ _ _ _.
        constructor; cbn [ep got put]; [done|by rewrite E1|by rewrite C2|]. intros _. rewrite C3, C4, C5. by split.
Qed.
Lemma resumed_stream x y q u f' :
  idle (ep y) -> idle f' -> f_rx_commit f' = f_rx_commit (ep y) -> stream_ok id x y q -> stream_ok id x (Endpoint f' u (got y) (put y)) q.
Proof.
  intros (I1 & I2 & _) (J1 & J2 & _) Hc (n & fs & h & R & n' & Hn & Hch & Hq & Hi & Hx). exists n, fs, h, R, n'. do 3 (split; [done|]). split; [|done].
  destruct Hi as [(? & ? & Hf & Hr)|(o & p & fs' & _ & _ & Hf & _)]; [left|by rewrite I1 in Hf]. cbn [ep]. rewrite J1, J2, Hc, <- I2. rewrite I1 in Hf. done.
Qed.
Lemma link_resumed_ok sp now l : link_inv l -> link_inv (link_resumed sp now l).
Proof.
  intros [Hb Hans]. unfold link_resumed. destruct (answer l) as [body|] eqn:Ea; [|constructor; [done|]; by rewrite Ea].
  destruct (Hans body eq_refl) as [[Ha Hs] Hw]. destruct (d_tx _ _ _ _ (proj1 Hb) Ha) as [Ht Hle].
  pose proof (d_idle _ _ _ _ (proj1 Hb) Ha Hs) as Hi. destruct (both_put_len _ _ _ _ (proj1 (both_comm _ _ _ _) Hb)) as [Hpl _].
  unfold resume_ack_done. destruct (m_resume_apply body (ep (near l))) as [ok f'] eqn:Eap.
  assert (Hsp : if ok then resumed_of (ep (near l)) body f' /\ m_u32 body 0 = 0 else f' = ep (near l) \/ f' = ep (near l) <| f_tx_pos := zlen (tx (ep (near l))) |>).
  { destruct Hw as [Hc|(Hsy & _)].
    - unfold m_resume_apply, resume_invalid in Eap. apply Z.eqb_neq in Hc. rewrite Hc in Eap. apply pair_inj in Eap as [<- <-]. by left.
    - apply (apply_spec _ _ _ _ _ Eap Ht (proj2 (proj2 Hi))). rewrite (sy_put _ _ _ _ Hsy). apply zlen_nonneg. }
  clear Eap. constructor; [|done]. cbn [near far to_far to_near answer]. destruct ok.
  - destruct Hsp as [Hre Hcode]. destruct Hw as [Hne|(Hsy & Hq & Hfar)]; [done|].
    set (f2 := f' <| f_waiting_resume := false |> <| f_suspended := false |> <| f_grace := 0 |> <| f_acked := true |> <| f_phase := M_ACTIVE |> <| f_last_io := now |>).
    assert (Hh : halves f2 = halves f') by reflexivity. clearbody f2. apply (fun H => resumed_halves _ _ _ _ H Hh) in Hre. clear Hh.
    apply (both_resumed (near l) body f2 (up (near l)) (far l) (to_far l) (to_near l)); try done.
    + intros Hy Huy. destruct (Hfar Hy) as [Hin Hnx]. rewrite Hq. destruct (d_rx _ _ _ _ (proj1 Hb) Hy) as [Rc _ _ _ _].
      apply stream_idle; [done|lia|]. intros _ _ _. cbn [ep]. destruct Hre as [E1 E2 E3 (_ & _ & E4) _ _ _ _]. split; [done|].
      rewrite E2, E3, (sy_put _ _ _ _ Hsy). lia.
    + intros Hun. apply resumed_stream; [done|apply Hre|apply Hre|]. by apply (d_stream _ _ _ _ (proj2 Hb)).
  - destruct (abort_spec sp f') as (A1 & A2 & _). generalize dependent (m_abort sp f').1. intros g A1 A2.
    apply (both_dead _ (near l) _ _ _ (to_near l)); [done| |done..]. cbn [ep]. rewrite A2. destruct Hsp as [-> | ->]; reflexivity.
Qed.
(** ** Every step *)

Lemma tick_step_ok sp b now a l : link_inv l -> link_inv (tcp_step sp l (TTick b now a)).
Proof.
  intros [Hb Hans]. destruct b; cbn [tcp_step].
  - destruct (answer l) as [body|] eqn:Ea.
    + destruct (Hans body eq_refl) as [[Ha Hs] Hw]. rewrite suspended_tick, app_nil_r by done. constructor; [done|].
      cbn [answer]. intros b [= <-]. by constructor.
    + destruct (end_tick sp now a (near l)) as [x out] eqn:E. constructor; [by eapply end_tick_ok|done].
  - destruct (end_tick sp now a (far l)) as [x out] eqn:E. apply both_comm in Hb. constructor; cbn [near far to_far to_near answer].
    + apply both_comm. by eapply end_tick_ok.
    + intros body Hbo. destruct (Hans body Hbo) as [Wn [Wc|(Wy & Wq & Wi)]].
      * constructor; [done|]. by left.
      * apply (waiting_far l); [constructor; [done|]; by right|]. eapply far_tick_hushed; [exact Hb| |exact E]. intros Ha. by apply Wi.
Qed.
Lemma read_step_ok sp b now rs l : link_inv l -> link_inv (tcp_step sp l (TRead b now rs)).
Proof.
  intros [Hb Hans]. destruct b; cbn [tcp_step].
  - destruct (answer l) as [body|] eqn:Ea.
    + destruct (Hans body eq_refl) as [[Ha Hs] Hw]. rewrite suspended_read by done. constructor; [done|].
      cbn [answer]. intros b [= <-]. by constructor.
    + destruct (end_read sp now rs (to_near l) (near l)) as [x q] eqn:E. constructor; [by eapply end_read_ok|done].
  - destruct (end_read sp now rs (to_far l) (far l)) as [x q] eqn:E. apply both_comm in Hb. constructor; cbn [near far to_far to_near answer].
    + apply both_comm. by eapply end_read_ok.
    + intros body Hbo. destruct (Hans body Hbo) as [Wn [Wc|(Wy & Wq & Wi)]].
      * constructor; [done|]. by left.
      * rewrite Wq in E. apply far_read_hushed in E as [Hh ->]; [|intros Ha; by apply Wi]. rewrite <- Wq.
        apply (waiting_far l); [constructor; [done|]; by right|done].
Qed.
Lemma suspend_step_ok sp b k d l : link_inv l -> link_inv (tcp_step sp l (TSuspend b k d)).
Proof.
  intros [Hb Hans]. destruct b; cbn [tcp_step].
  - constructor; [by apply end_suspend_ok|done].
  - apply both_comm in Hb. constructor; cbn [near far to_far to_near answer]; [by apply both_comm, end_suspend_ok|].
    intros body Hbo. apply waiting_far; [by apply Hans|]. by eapply suspend_hushed.
Qed.
Lemma tcp_step_ok sp l e : link_inv l -> link_inv (tcp_step sp l e).
Proof.
  destruct e as [b now a|b now rs|b k d|now| |now]; [apply tick_step_ok|apply read_step_ok|apply suspend_step_ok|apply link_resume_ok|apply link_reply_ok|apply link_resumed_ok].
Qed.
Lemma tcp_run_ok sp es l : link_inv l -> link_inv (tcp_run sp l es).
Proof. revert l. induction es as [|e es IH]; intros l Hl; [done|]. apply IH. by apply tcp_step_ok. Qed.

Lemma new_dir k1 k2 b1 b2 now : dir id (Endpoint (new_flow k1 b1 id now) true [] []) (Endpoint (new_flow k2 b2 id now) true [] []) [].
Proof.
  constructor; try done.
  - intros _. split; [|done]. constructor; try done. by left.
  - intros _ _. apply stream_idle; done.
Qed.
Lemma new_link_inv now : link_inv (new_link id now).
Proof. constructor; [|done]. split; apply new_dir. Qed.
End link.

(** ** The contract of a forwarded connection *)

(** From the socket of [x] to the socket of [y]: what was written is a prefix of what was read;
    a live [x] keeps every byte after the acknowledged ones; the end of the stream is passed on
    after the last byte and is acknowledged after it was passed on. *)
Record forwarded (x y : endpoint) : Prop := {
  fw_prefix : put y `prefix_of` got x;
  fw_kept : f_phase (ep x) <> M_DEAD -> tx (ep x) = zdrop (f_tx_base (ep x)) (got x) /\ 0 <= f_tx_base (ep x) <= zlen (put y);
  fw_end : f_rx_fin_applied (ep y) = true -> f_socket_eof (ep x) = true /\ put y = got x;
  fw_acked : f_tx_fin_acked (ep x) = true -> f_rx_fin_applied (ep y) = true }.
Lemma dir_forwarded id x y q : dir id x y q -> forwarded x y.
Proof.
  intros [H1 Hlen H2 H3 H4 H5 H6 H7 H8 H9]. constructor; try done.
  - rewrite H2. unfold ztake. apply prefix_take.
  - intros Ha. destruct (H3 Ha) as [[T1 T2 T3 T4 T5 T6] Hb]. split; [done|lia].
Qed.

(** C1: TCP bytes are forwarded exactly once and in order, in both directions, whatever the
    sockets, QUIC and the clock answer, however often either side loses its transport and the
    near side resumes: what a side writes to its socket is a prefix of what the other read, the
    bytes not yet acknowledged are still kept by the sender, and the close is passed on only
    after all bytes. *)
Theorem tcp_exactly_once (sizeof_packet id now : Z) (es : list tcp_event) :
  let l := tcp_run sizeof_packet (new_link id now) es in
  forwarded (near l) (far l) /\ forwarded (far l) (near l).
Proof.
  destruct (tcp_run_ok id sizeof_packet es _ (new_link_inv id now)) as [[H1 H2] _].
  split; by eapply dir_forwarded.
Qed.

(** A run with a loss in the middle: five bytes near to far, of which the far end received
    the frame of the first two before both sides lost the transport, two bytes far to near, and
    both closes.  All bytes arrive once, both flows end. *)
Definition demo_quiet : tick_answers :=
  TickAnswers false true true (SockTook 100) true SockNothing [Took 100 false; Took 2 false; Took 100 false; Took 100 false].
Definition demo_input (v : list Z) : tick_answers :=
  TickAnswers false true true (SockTook 100) true (SockGot v) [Took 100 false; Took 2 false; Took 100 false].
Definition demo_reads : list recv_answer := replicate 6 (Get 100 false).
Definition demo_events : list tcp_event :=
  [TTick true 1 (demo_input [1; 2; 3; 4; 5]); TRead false 2 demo_reads; TTick false 3 demo_quiet; TRead true 3 demo_reads;
   TSuspend true true 1000; TSuspend false true 1000; TResume 10; TReply; TResumed 12;
   TTick true 13 (demo_input []); TTick true 14 demo_quiet; TTick true 14 demo_quiet; TRead false 15 demo_reads;
   TTick false 16 demo_quiet; TRead true 17 demo_reads; TTick true 18 demo_quiet; TTick true 18 demo_quiet; TTick true 18 demo_quiet;
   TRead false 19 demo_reads; TTick false 20 (demo_input [7; 8]); TTick false 20 (demo_input []); TTick false 20 demo_quiet;
   TTick false 20 demo_quiet; TRead true 21 demo_reads; TTick true 22 demo_quiet; TTick true 22 demo_quiet; TRead false 23 demo_reads;
   TTick false 24 demo_quiet; TRead true 25 demo_reads; TTick true 26 demo_quiet].
Example demo_delivers :
  let l := tcp_run 32 (new_link 3 0) demo_events in
  put (far l) = [1; 2; 3; 4; 5] /\ put (near l) = [7; 8] /\ f_phase (ep (near l)) = M_DEAD /\ f_phase (ep (far l)) = M_DEAD /\
  f_tx_fin_acked (ep (near l)) = true /\ f_tx_fin_acked (ep (far l)) = true.
Proof. vm_compute. done. Qed.
