(* ===== verification/MapTable.v ===== *)
(** * The mapping table of a peer

    src/sdk/c/remote/peer/mapping.c and mapping_recovery.inc on the level of the peer: the
    list of flows with their identifiers, the control frames of the proof, OPEN and RESUME
    exchanges, version 1 TCP, the listening maps, the resolver's jobs, the QUIC callbacks and
    the regular tick.  The functions run on the engine's thread under the peer's mutex.
    Allocations, sockets, QUIC, the clock and the resolver answer through arguments. *)

From S2P Require Import Prelude Peer MapUdp MapFlow MapV2.

(** ** State *)

(** [rm_key] stands for the address of the structure; [rm_fd] tells whether the descriptor
    is open. *)
Record rmap := RMap {
  rm_key : nat; rm_fd : bool; rm_closed : bool; rm_draining : bool; rm_local_port : Z; rm_target_port : Z; rm_protocol : Z; rm_host : list Z }.
#[export] Instance eta_rmap : Eta rmap := fun m => RMap (rm_key m) (rm_fd m) (rm_closed m) (rm_draining m) (rm_local_port m)
  (rm_target_port m) (rm_protocol m) (rm_host m).
(** [j_owner]: the flow that waits for the job; [None] when it is detached.  [j_state]: 0
    queued, 1 running, 2 done. *)
Record m_resolve := Job {
  j_owner : option nat; j_state : Z; j_result : Z; j_port : Z; j_protocol : Z; j_host : list Z; j_address : sockaddr }.
#[export] Instance eta_job : Eta m_resolve := fun j => Job (j_owner j) (j_state j) (j_result j) (j_port j) (j_protocol j) (j_host j) (j_address j).

(** The peer with its mapping state.  [flow_count], [map_count] and [job_count] are the lengths
    of the lists, which every operation updates together; [mp_conn] is the QUIC connection,
    [mp_next_key] the next structure address, [mp_private] whether [mapping_private] is set.
    [mp_received] is the history of the proofs received on the proof streams of the current
    transport; no operation reads it. *)
Record mpeer := MPeer {
  mp_peer : ob_remote_peer; mp_conn : bool; mp_flows : list mflow; mp_maps : list rmap; mp_next_id : Z; mp_next_key : nat;
  mp_private : bool; mp_proof_started : bool; mp_resolvers : Z; mp_jobs : list m_resolve; mp_map_rotation : Z; mp_udp_rotation : Z; mp_received : list (list Z) }.
#[export] Instance eta_mpeer : Eta mpeer := fun s => MPeer (mp_peer s) (mp_conn s) (mp_flows s) (mp_maps s) (mp_next_id s)
  (mp_next_key s) (mp_private s) (mp_proof_started s) (mp_resolvers s) (mp_jobs s) (mp_map_rotation s) (mp_udp_rotation s) (mp_received s).
(** The peer's mapping state before its first use. *)
Definition new_mpeer (p : ob_remote_peer) : mpeer := MPeer p false [] [] 1 0 false false 0 [] 0 0 [].

Definition flow_is (k : nat) (f : mflow) : bool := Nat.eqb (f_key f) k.
Definition get_flow (k : nat) (s : mpeer) : option mflow := List.find (flow_is k) (mp_flows s).
Definition put_flow (f : mflow) (s : mpeer) : mpeer := s <| mp_flows ::= map (fun g => if flow_is (f_key f) g then f else g) |>.
Definition del_flow (k : nat) (s : mpeer) : mpeer := s <| mp_flows ::= List.filter (fun g => negb (flow_is k g)) |>.
Definition get_map (k : nat) (s : mpeer) : option rmap := List.find (fun m => Nat.eqb (rm_key m) k) (mp_maps s).
Definition put_map (m : rmap) (s : mpeer) : mpeer := s <| mp_maps ::= map (fun g => if Nat.eqb (rm_key g) (rm_key m) then m else g) |>.
Definition detach_job (k : nat) (s : mpeer) : mpeer :=
  s <| mp_jobs ::= map (fun j => if bool_decide (j_owner j = Some k) then j <| j_owner := None |> else j) |>.
Definition limit_of (s : mpeer) : Z := m_limit (max_flows (mp_peer s)) 128 M_FLOWS.
(** The handle and its attempt run. *)
Definition stopped (s : mpeer) : bool := stop (mp_peer s) || attempt_stop (mp_peer s).

Definition data_flow (f : mflow) : bool := negb (f_proof f) && negb (f_transient f) && negb (bool_decide (f_phase f = M_DEAD)).
Definition m_data_flow_count (s : mpeer) : Z := zlen (List.filter data_flow (mp_flows s)).
Definition m_find (id : Z) (s : mpeer) : option mflow := List.find (fun f => data_flow f && (f_id f =? id)) (mp_flows s).

(** ** Version 1 TCP *)

Section v1.
Context (sizeof_packet : Z).

Definition v1_read (now : Z) (answer : recv_answer) (q : list Z) (f : mflow) : mflow * list effect :=
  let f := if f_rx_pos f =? zlen (rx f) then v2_drained f else v2_compact f in
  let room := OB_STREAM_BUFFER - zlen (rx f) in
  if room =? 0 then (f, [])
  else match answer with
       | GetAgain => (f, [])
       | GetError => m_abort sizeof_packet f
       | Get n fin =>
         let '(v, _) := stream_recv n (Z.min room M_IO_BUDGET) q in
         let f := f <| f_rx := Some (rx f ++ v) |> in
         let f := if zlen v =? 0 then f else f <| f_last_io := now |> in
         ((if fin then f <| f_stream_eof := true |> else f), [])
       end.

(** The data part of [m_tcp_write]; [true]: go on. *)
Definition v1_send (answers : list send_answer) (f : mflow) : bool * list send_answer * mflow * list effect :=
  if f_tx_pos f <? zlen (tx f) then
    match answers with
    | [] | SendAgain :: _ => (false, [], f, [])
    | SendError :: _ => let '(f, fx) := m_abort sizeof_packet f in (false, [], f, fx)
    | Took n lost :: answers =>
      let n := taken n (Z.min (zlen (tx f) - f_tx_pos f) M_IO_BUDGET) in
      let out := FxStream (zsub (f_tx_pos f) n (tx f)) false in
      if lost then (false, [], f, [out; FxGone]) else (true, answers, f <| f_tx_pos ::= Z.add n |>, [out])
    end
  else (true, answers, f, []).
Definition v1_write (answers : list send_answer) (f : mflow) : mflow * list effect :=
  if negb (f_stream f) || f_close_requested f || negb (bool_decide (f_phase f = M_ACTIVE)) || negb (f_acked f) then (f, [])
  else
    let '(go, answers, f, fx) := v1_send answers f in
    if go && (f_tx_pos f =? zlen (tx f)) then
      let f := f <| f_tx := Some [] |> <| f_tx_pos := 0 |> in
      if f_socket_eof f && negb (f_sent_fin f) && f_stream f then
        match answers with
        | [] | SendAgain :: _ => (f, fx)
        | SendError :: _ => let '(f, fx') := m_abort sizeof_packet f in (f, fx ++ fx')
        | Took _ _ :: _ => (f <| f_sent_fin := true |>, fx ++ [FxStream [] true])
        end
      else (f, fx)
    else (f, fx).

Definition v1_to_socket (now : Z) (a : tick_answers) (f : mflow) : option (mflow * list effect) :=
  if t_pollout a && (f_rx_pos f <? zlen (rx f)) then
    match t_send a with
    | SockError => None
    | SockAgain => Some (v2_drained f, [])
    | SockTook n =>
      let n := taken n (Z.min (zlen (rx f) - f_rx_pos f) M_IO_BUDGET) in
      if 0 <? n then Some (v2_drained (f <| f_rx_pos ::= Z.add n |> <| f_last_io := now |>), [FxSocket (zsub (f_rx_pos f) n (rx f))])
      else Some (v2_drained f, [])
    end
  else Some (f, []).
Definition v1_shut (f : mflow) : mflow * list effect :=
  if f_stream_eof f && (f_rx_pos f =? zlen (rx f)) && negb (f_socket_shutdown f) then (f <| f_socket_shutdown := true |>, [FxShutdown]) else (f, []).
Definition v1_from_socket (now : Z) (a : tick_answers) (f : mflow) : option (mflow * list effect) :=
  if t_pollin a && negb (f_socket_eof f) then
    let f := if f_tx_pos f =? zlen (tx f) then f <| f_tx := Some [] |> <| f_tx_pos := 0 |>
             else if truth (f_tx_pos f) && (zlen (tx f) =? OB_STREAM_BUFFER)
             then f <| f_tx := Some (zdrop (f_tx_pos f) (tx f)) |> <| f_tx_pos := 0 |> else f in
    let room := Z.min (OB_STREAM_BUFFER - zlen (tx f)) M_IO_BUDGET in
    if room =? 0 then Some (f, [])
    else match t_recv a with
         | SockBroken => None
         | SockNothing => Some (f, [])
         | SockGot v =>
           let v := ztake room v in
           if zlen v =? 0 then Some (f <| f_socket_eof := true |>, [])
           else Some (f <| f_tx := Some (tx f ++ v) |> <| f_last_io := now |>, [FxGot v])
         end
  else Some (f, []).
Definition v1_tick (now : Z) (a : tick_answers) (f : mflow) : mflow * list effect :=
  let abort (f : mflow) (fx : list effect) := let '(f, fx') := m_abort sizeof_packet f in (f, fx ++ fx') in
  if negb (bool_decide (f_phase f = M_ACTIVE)) || negb (f_acked f) || negb (f_fd f) then (f, [])
  else if t_poll_error a then abort f []
  else match v1_to_socket now a f with
       | None => abort f []
       | Some (f, fx1) =>
         let '(f, fx2) := v1_shut f in
         match v1_from_socket now a f with
         | None => abort f (fx1 ++ fx2)
         | Some (f, fx3) =>
           let '(f, fx4) := v1_write (t_stream a) f in
           let fx := fx1 ++ fx2 ++ fx3 ++ fx4 in
           if f_stream_eof f && f_socket_eof f && f_sent_fin f && (f_rx_pos f =? zlen (rx f)) && f_fd f
           then (f <| f_fd := false |>, fx ++ [FxCloseFd]) else (f, fx)
         end
       end.
Definition m_tcp_tick (now : Z) (rdy stp : bool) (a : tick_answers) (f : mflow) : mflow * list effect :=
  if f_wire_version f =? 2 then m_v2_tick sizeof_packet now rdy stp a f else v1_tick now a f.
End v1.

Section table.
Context (sizeof_packet : Z).

(** ** Carrying out what a flow did *)

Definition peer_fx (t1 t2 : Z) (p : ob_remote_peer) (e : effect) : ob_remote_peer :=
  match e with
  | FxFail c m => m_fail t1 t2 p c m
  | FxTransport c m => ob_peer_transport_fail_locked t1 t2 p c m
  | _ => p
  end.
(** The flow [f] became [f'] with the effects [fx]; a flow that lets go of its job detaches it.
    [t1], [t2]: the clock when a failure is recorded. *)
Definition commit (t1 t2 : Z) (f : mflow) (r : mflow * list effect) (s : mpeer) : mpeer :=
  let '(f', fx) := r in
  let s := put_flow f' (if f_resolve f && negb (f_resolve f') then detach_job (f_key f) s else s) in
  s <| mp_peer ::= fun p => fold_left (peer_fx t1 t2) fx p |>.
Definition abort_flow (f : mflow) (s : mpeer) : mpeer := commit 0 0 f (m_abort sizeof_packet f) s.
Definition fail_transport (t1 t2 : Z) (code : Z) (message : string) (s : mpeer) : mpeer :=
  s <| mp_peer ::= fun p => ob_peer_transport_fail_locked t1 t2 p code (lit message) |>.
Definition fail_peer (t1 t2 : Z) (code : Z) (message : string) (s : mpeer) : mpeer :=
  s <| mp_peer ::= fun p => m_fail t1 t2 p code (lit message) |>.

Definition m_state_get (ok : bool) (s : mpeer) : option mpeer :=
  if mp_private s then Some s else if ok then Some (s <| mp_private := true |>) else None.
(** [ok]: the allocations succeed. *)
Definition m_flow_new (ok : bool) (now : Z) (s : mpeer) : option (mflow * mpeer) :=
  if 2 * limit_of s + 2 <=? zlen (mp_flows s) then None
  else match m_state_get ok s with
       | None => None
       | Some s =>
         if ok then
           let f := zero_flow (mp_next_key s) now in
           Some (f, s <| mp_flows ::= cons f |> <| mp_next_key ::= S |>)
         else None
       end.
Definition m_flow_free (f : mflow) (s : mpeer) : mpeer := del_flow (f_key f) (commit 0 0 f (m_release_io sizeof_packet f) s).
(** [created]: what [xqc_stream_create_with_direction] returned; it runs [m_create] on [f]. *)
Definition m_stream_open (created : bool) (f : mflow) (s : mpeer) : bool * mflow :=
  if negb (mp_conn s) || stopped s then (false, f)
  else (created, f <| f_generation := transport_generation (mp_peer s) |> <| f_stream := created |>).

(** ** QUIC callbacks *)

Inductive callback :=
| CbCreate (ok bidi : bool) (sid now t1 t2 : Z)   (** a stream of the other side *)
| CbClose (k : nat) (t1 t2 : Z) | CbReset (k : nat) (t1 t2 : Z)
| CbDatagram (v : list Z) (alloc_ok : bool) (now sent : Z)
| CbConnClose (t1 t2 : Z) | CbConnClosing (t1 t2 : Z).

Definition m_create (ok bidi : bool) (sid now t1 t2 : Z) (s : mpeer) : mpeer :=
  let p := mp_peer s in
  if stopped s || transport_detaching p then s
  else
    let proof := negb (ready p) in
    if negb bidi || (proof && (negb (is_server p) || negb (tls_ready p) || negb (sid =? 0))) then
      if proof then fail_peer t1 t2 OB_REMOTE_EPROTOCOL "first stream must carry client channel proof" s else s
    else match m_state_get ok s with
         | None => s
         | Some s =>
           if proof && mp_proof_started s then s
           else match m_flow_new ok now s with
                | None => s
                | Some (f, s) =>
                  let f := f <| f_proof := proof |> <| f_stream := true |> <| f_transient := negb proof |> <| f_generation := transport_generation p |> in
                  let s := put_flow f s in if proof then s <| mp_proof_started := true |> else s
                end
         end.
(** The stream of [k] was closed: the callback's stream is the flow's current one. *)
Definition m_close (k : nat) (t1 t2 : Z) (s : mpeer) : mpeer :=
  match get_flow k s with
  | None => s
  | Some f =>
    let p := mp_peer s in
    if negb (f_stream f) || negb (f_generation f =? transport_generation p) then s
    else
      let f := f <| f_stream := false |> in
      let s := put_flow f s in
      if transport_detaching p || attempt_stop p then s
      else
        let s := if f_proof f && negb (ready p) && negb (f_proof_reply_ready f) && negb (stop p)
                 then fail_peer t1 t2 OB_REMOTE_EAUTH "connection proof stream closed prematurely" s else s in
        if negb (f_proof f) && (f_protocol f =? OB_REMOTE_TCP) && bool_decide (f_phase f = M_ACTIVE) && f_stream_eof f &&
           f_sent_fin f && negb (f_close_requested f) && negb (stop (mp_peer s)) then s
        else put_flow (f <| f_close_requested := true |>) s
  end.
Definition m_reset (k : nat) (t1 t2 : Z) (s : mpeer) : mpeer :=
  match get_flow k s with
  | None => s
  | Some f =>
    let p := mp_peer s in
    if negb (f_stream f) || negb (f_generation f =? transport_generation p) || transport_detaching p || attempt_stop p then s
    else
      let s := if f_proof f && negb (ready p) then fail_peer t1 t2 OB_REMOTE_EAUTH "connection proof stream reset" s else s in
      put_flow (f <| f_close_requested := true |>) s
  end.
(** [m_udp_read]: the flow is looked up by the identifier in the datagram. *)
Definition udp_datagram (v : list Z) (alloc_ok : bool) (now sent : Z) (s : mpeer) : mpeer :=
  let p := mp_peer s in
  let rdy := mp_conn s && ready p && proof_ready p && negb (attempt_stop p) && negb (transport_detaching p) in
  match (if rdy then parse_fragment v else None) with
  | None => s
  | Some g =>
    match m_find (g_flow g) s with
    | None => s
    | Some f => put_flow (udp_put (m_udp_read rdy alloc_ok now sent v (udp_view f)).2 f) s
    end
  end.
Definition on_callback (s : mpeer) (cb : callback) : mpeer :=
  match cb with
  | CbCreate ok bidi sid now t1 t2 => m_create ok bidi sid now t1 t2 s
  | CbClose k t1 t2 => m_close k t1 t2 s
  | CbReset k t1 t2 => m_reset k t1 t2 s
  | CbDatagram v ok now sent => udp_datagram v ok now sent s
  | CbConnClose t1 t2 =>
    if negb (mp_conn s) then s
    else let s := s <| mp_conn := false |> in
         if transport_detaching (mp_peer s) || stop (mp_peer s) then s else fail_transport t1 t2 OB_REMOTE_EQUIC "QUIC connection closed" s
  | CbConnClosing t1 t2 =>
    if mp_conn s && negb (transport_detaching (mp_peer s)) && negb (stop (mp_peer s))
    then fail_transport t1 t2 OB_REMOTE_EQUIC "QUIC connection closing" s else s
  end.
Definition callbacks (cbs : list callback) (s : mpeer) : mpeer := fold_left on_callback cbs s.

(** ** Opening streams for retained flows *)

(** The answers while a flow opens its stream and sends its first frame: [xqc_stream_create],
    the sends, the clock, and the callbacks those calls run. *)
Record open_answers := OpenAnswers { oa_created : bool; oa_sent : send_answer; oa_fin : send_answer; oa_now : Z; oa_t1 : Z; oa_t2 : Z; oa_cbs : list callback }.

(** [m_reply_flush] of a flow that is not the proof. *)
Definition flush_open (a : open_answers) (f : mflow) (s : mpeer) : mpeer :=
  let p := mp_peer s in
  callbacks (oa_cbs a) (commit (oa_t1 a) (oa_t2 a) f (m_reply_flush sizeof_packet (is_server p) (ready p) (oa_sent a) (oa_fin a) f) s).
Definition m_pending_open (a : open_answers) (f : mflow) (s : mpeer) : bool * mpeer :=
  match f_map f ≫= fun k => get_map k s with
  | Some m =>
    if rm_closed m then (false, s)
    else
      let f := f <| f_wire_version := wire_version (mp_peer s) |> <| f_pending_open := false |> <| f_suspended := false |> <| f_grace := 0 |>
                 <| f_phase := M_CONTROL |> <| f_created := oa_now a |> <| f_control := [] |> <| f_control_need := M_HEADER |> <| f_reply_pos := 0 |>
                 <| f_reply := open_frame (f_protocol f) (f_id f) (rm_target_port m) (rm_host m) |> in
      let '(ok, f) := m_stream_open (oa_created a) f s in
      let s := put_flow f s in
      if ok then (true, flush_open a f s) else (false, s)
  | None => (false, s)
  end.
Definition m_resume_open (a : open_answers) (f : mflow) (s : mpeer) : bool * mpeer :=
  let '(ok, f) := m_stream_open (oa_created a) (resume_open (oa_now a) f) s in
  let s := put_flow f s in
  if ok then (true, flush_open a f s) else (false, s).
(** One flow of [ob_mapping_transport_ready]; [true]: the loop goes on to its test. *)
Definition ready_flow (now : Z) (a : open_answers) (wire : Z) (resume : bool) (f : mflow) (s : mpeer) : bool * mpeer :=
  if f_proof f || negb (f_suspended f) || bool_decide (f_phase f = M_DEAD) then (false, s)
  else if (f_grace f <=? now) || (f_local f && negb (bool_decide (is_Some (f_map f)))) then (false, abort_flow f s)
  else
    let report (r : bool * mpeer) (message : string) :=
      (true, if r.1 then r.2 else fail_transport (oa_t1 a) (oa_t2 a) OB_REMOTE_EQUIC message r.2) in
    if f_pending_open f then report (m_pending_open a f s) "Pending TCP open failed"%string
    else if negb (wire =? 2) || negb resume then (true, abort_flow f s)
    else if f_local f then report (m_resume_open a f s) "TCP resume stream failed"%string
    else (true, s).
Fixpoint ready_flows (now : Z) (ans : nat -> open_answers) (wire : Z) (resume : bool) (ks : list nat) (s : mpeer) : mpeer :=
  match ks with
  | [] => s
  | k :: ks =>
    match get_flow k s with
    | None => ready_flows now ans wire resume ks s
    | Some f =>
      let '(test, s) := ready_flow now (ans k) wire resume f s in
      if test && stopped s then s else ready_flows now ans wire resume ks s
    end
  end.
Definition ob_mapping_transport_ready (now : Z) (ans : nat -> open_answers) (wire : Z) (resume : bool) (s : mpeer) : mpeer :=
  ready_flows now ans wire resume (map f_key (mp_flows s)) s.
(** [ob_peer_mark_ready] with that hook. *)
Definition mark_ready (now : Z) (ans : nat -> open_answers) (s : mpeer) : mpeer :=
  let p := mp_peer s in
  if ready p || stop p || attempt_stop p then s
  else
    let q := p <| proof_ready := true |> <| ready := true |> in
    let hooked := ob_mapping_transport_ready now ans (wire_version q) (resume_context_available q) (s <| mp_peer := q |>) in
    hooked <| mp_peer := ob_peer_mark_ready (fun _ => mp_peer hooked) now p |>.

(** ** Control frames *)

(** [ob_connection_proof] fails before the handshake is complete; then its value depends on the
    connection, which is the one of the current transport, on the session's identifier, its shared
    secret and the certificate, and on the role.  [None]: it fails. *)
Definition session : Type := Z * option (list Z) * list Z * list Z.
Definition session_of (p : ob_remote_peer) : session := (transport_generation p, session_id p, shared p, fingerprint p).
Context (connection_proof : session -> bool -> option (list Z)).
Definition channel_proof (p : ob_remote_peer) (server : bool) : option (list Z) :=
  if tls_ready p then connection_proof (session_of p) server else None.

(** [m_header_check]: [None] is -1. *)
Definition m_header_check (f : mflow) (s : mpeer) : option mflow :=
  let p := mp_peer s in
  let v := f_control f in
  let size := m_u16 v 6 in let kind := znth v 4 in let protocol := znth v 5 in let id := m_u64 v 8 in
  if negb (list_eqb (ztake 4 v) (lit "OBM1")) || (OB_MAX_HOST + 2 <? size) then None
  else
    let done (f : mflow) := Some (f <| f_control_need := M_HEADER + size |>) in
    if f_proof f then
      if negb (kind =? M_PROOF) || truth protocol || negb (size =? 32) || truth id then None else done f
    else if f_local f then
      if negb (kind =? (if f_waiting_resume f then M_RESUME_ACK else M_ACK)) || negb (protocol =? f_protocol f) ||
         negb (size =? (if f_waiting_resume f then M_RESUME_SIZE else 4)) || negb (id =? f_id f) then None
      else done f
    else if negb (ready p) || negb (proof_ready p) || (negb (kind =? M_OPEN) && negb (kind =? M_RESUME)) ||
            (negb (protocol =? OB_REMOTE_TCP) && negb (protocol =? OB_REMOTE_UDP)) || (size <? 3) then None
    else if (id =? 0) || negb (Z.land id 1 =? b2z (is_server p)) then None
    else
      let named (f : mflow) := done (f <| f_id := id |> <| f_protocol := protocol |> <| f_wire_version := wire_version p |>) in
      if kind =? M_RESUME then
        if negb (wire_version p =? 2) || negb (protocol =? OB_REMOTE_TCP) || negb (size =? M_RESUME_SIZE) then None else named f
      else if bool_decide (is_Some (m_find id s)) || (limit_of s <=? m_data_flow_count s) then None
      else named (f <| f_transient := false |>).

(** The answers of [m_resolve_start] and of a resolved flow's socket: the threads started, the
    allocations, [socket] and [connect] (0 done, 1 in progress, 2 failed). *)
Record target_answers := TargetAnswers { ta_threads : Z; ta_alloc : bool; ta_tx : bool; ta_rx : bool; ta_socket : bool; ta_connect : Z }.
Definition m_resolve_start (a : target_answers) (host : list Z) (port : Z) (f : mflow) (s : mpeer) : Z * mflow * mpeer :=
  match m_state_get (ta_alloc a) s with
  | None => (OB_REMOTE_ENOMEM, f, s)
  | Some s =>
    let s := if mp_resolvers s =? 0 then s <| mp_resolvers := Z.min 2 (Z.max 0 (ta_threads a)) |> else s in
    if mp_resolvers s =? 0 then (OB_REMOTE_EIO, f, s)
    else if 32 <=? zlen (mp_jobs s) then (OB_REMOTE_ELIMIT, f, s)
    else if negb (ta_alloc a) then (OB_REMOTE_ENOMEM, f, s)
    else (0, f <| f_resolve := true |> <| f_phase := M_RESOLVING |>,
          s <| mp_jobs ::= cons (Job (Some (f_key f)) 0 0 port (f_protocol f) host OtherFamily) |>)
  end.

Record control_answers := ControlAnswers { ca_now : Z; ca_t1 : Z; ca_t2 : Z; ca_target : target_answers; ca_ready : nat -> open_answers }.
(** The proof stream: both sides compare the other's proof with their own computation. *)
Definition proof_done (a : control_answers) (f : mflow) (s : mpeer) : bool * mpeer :=
  let p := mp_peer s in
  let s := s <| mp_received ::= cons (zsub M_HEADER 32 (f_control f)) |> in
  let fail (message : string) := (false, fail_peer (ca_t1 a) (ca_t2 a) OB_REMOTE_EAUTH message s) in
  match channel_proof p (negb (is_server p)) with
  | None => fail "connection channel proof mismatch"%string
  | Some expected =>
    if negb (list_eqb expected (zsub M_HEADER 32 (f_control f))) then fail "connection channel proof mismatch"%string
    else if is_server p then
      match channel_proof p true with
      | None => fail "connection channel proof unavailable"%string
      | Some own => (true, put_flow (f <| f_reply := proof_frame own |> <| f_reply_pos := 0 |> <| f_proof_reply_ready := true |> <| f_phase := M_REPLY_PHASE |>) s)
      end
    else (true, mark_ready (ca_now a) (ca_ready a) (put_flow (f <| f_proof_reply_ready := true |> <| f_phase := M_ACTIVE |>) s))
  end.
Definition m_v2_control_done (now : Z) (f : mflow) (s : mpeer) : bool * mpeer :=
  let body := zdrop M_HEADER (f_control f) in
  if f_local f then let '(ok, f) := resume_ack_done now body f in (ok, put_flow f s)
  else
    let '(f, old) := resume_done now body f (m_find (f_id f) s) in
    (true, match old with Some o => put_flow o (put_flow f s) | None => put_flow f s end).
(** [m_control_done]; [false] is -1. *)
Definition m_control_done (a : control_answers) (f : mflow) (s : mpeer) : bool * mpeer :=
  if f_proof f then proof_done a f s
  else
    let kind := znth (f_control f) 4 in
    if (kind =? M_RESUME) || (kind =? M_RESUME_ACK) then m_v2_control_done (ca_now a) f s
    else if f_local f then
      if list_eqb (zsub M_HEADER 4 (f_control f)) [0; 0; 0; 0]
      then (true, put_flow (f <| f_acked := true |> <| f_phase := M_ACTIVE |> <| f_last_io := ca_now a |>) s) else (false, s)
    else
      let host := zsub (M_HEADER + 2) (f_control_need f - M_HEADER - 2) (f_control f) in
      let port := m_u16 (f_control f) M_HEADER in
      if (port =? 0) || negb (m_host_valid host) then (false, s)
      else
        let '(rc, f, s) := m_resolve_start (ca_target a) host port f s in
        (true, put_flow (if rc =? 0 then f else m_ack rc f) s).

(** ** Reading *)

Record flow_answers := FlowAnswers {
  fa_control : control_answers; fa_reads : list recv_answer; fa_input : list Z; fa_sent : send_answer; fa_fin : send_answer; fa_cbs : list callback }.
(** [m_reply_flush]. *)
Definition reply_flush (a : control_answers) (sent fin : send_answer) (cbs : list callback) (f : mflow) (s : mpeer) : mpeer :=
  let p := mp_peer s in
  let r := m_reply_flush sizeof_packet (is_server p) (ready p) sent fin f in
  let s := commit (ca_t1 a) (ca_t2 a) f r s in
  callbacks cbs (if existsb (fun e => match e with FxReady => true | _ => false end) r.2 then mark_ready (ca_now a) (ca_ready a) s else s).

(** The control phase of [m_stream_read]; [true]: the function goes on, [q] is what remains. *)
Fixpoint control_rounds (n : nat) (a : flow_answers) (answers : list recv_answer) (q : list Z) (k : nat) (s : mpeer)
    : bool * list recv_answer * list Z * mpeer :=
  match n, get_flow k s with
  | S n, Some f =>
    match answers with
    | [] | GetAgain :: _ => (false, [], q, s)
    | GetError :: _ => (false, [], q, abort_flow f s)
    | Get m fin :: answers =>
      let '(v, q) := stream_recv m (f_control_need f - zlen (f_control f)) q in
      let f := f <| f_control ::= fun c => c ++ v |> in
      match (if (zlen (f_control f) =? M_HEADER) && (f_control_need f =? M_HEADER) then m_header_check f s else Some f) with
      | None =>
        let s := if f_proof f then fail_peer (ca_t1 (fa_control a)) (ca_t2 (fa_control a)) OB_REMOTE_EPROTOCOL "invalid connection proof frame" s else s in
        (false, [], q, abort_flow f s)
      | Some f =>
        let s := put_flow f s in
        if fin && negb (zlen (f_control f) =? f_control_need f) then (false, [], q, abort_flow f s)
        else if zlen (f_control f) =? f_control_need f then
          let '(ok, s) := m_control_done (fa_control a) f s in
          match get_flow k s with
          | None => (false, [], q, s)
          | Some f =>
            if negb ok then (false, [], q, abort_flow f s)
            else
              let f := if fin then f <| f_stream_eof := true |> else f in
              let s := put_flow f s in
              if fin && negb (f_proof f) && negb (f_local f && (f_protocol f =? OB_REMOTE_TCP) && f_acked f)
              then (false, [], q, abort_flow f s)
              else (true, answers, q, reply_flush (fa_control a) (fa_sent a) (fa_fin a) (fa_cbs a) f s)
          end
        else if fin || (zlen v =? 0) then (false, [], q, s)
        else control_rounds n a answers q k s
      end
    end
  | _, _ => (true, answers, q, s)
  end.
(** The part after it.  The reads of the proof, of UDP and of version 1 do not test the stream
    again: a callback of the reply may have taken it. *)
Definition data_read (a : flow_answers) (answers : list recv_answer) (q : list Z) (f : mflow) (s : mpeer) : mpeer :=
  let c := fa_control a in
  let done (r : mflow * list effect) := commit (ca_t1 c) (ca_t2 c) f r s in
  if negb (bool_decide (f_phase f = M_ACTIVE)) then s
  else if negb (f_proof f) && (f_protocol f =? OB_REMOTE_TCP) && (f_wire_version f =? 2) then
    let '(_, f', fx) := m_v2_read sizeof_packet (ca_now c) (attempt_stop (mp_peer s)) answers q f in done (f', fx)
  else if f_stream_eof f then s
  else match answers with
       | [] => s
       | answer :: _ =>
         if f_proof f || (f_protocol f =? OB_REMOTE_UDP) then
           let reject (f : mflow) :=
             let '(f, fx) := m_abort sizeof_packet f in
             done (f, (if f_proof f then [FxFail OB_REMOTE_EPROTOCOL (lit "unexpected proof stream payload")] else []) ++ fx) in
           match answer with
           | GetAgain => s
           | GetError => reject f
           | Get n fin =>
             if 0 <? zlen (stream_recv n 1 q).1 then reject f
             else if fin then
               let f := f <| f_stream_eof := true |> in if f_proof f then done (f, []) else done (m_abort sizeof_packet f)
             else s
           end
         else done (v1_read sizeof_packet (ca_now c) answer q f)
       end.
Definition m_stream_read (a : flow_answers) (k : nat) (s : mpeer) : mpeer :=
  match get_flow k s with
  | None => s
  | Some f =>
    if negb (f_stream f) || bool_decide (f_phase f = M_DEAD) || f_close_requested f then s
    else
      let '(go, answers, q, s) :=
        if bool_decide (f_phase f = M_CONTROL) then control_rounds 2 a (fa_reads a) (fa_input a) k s else (true, fa_reads a, fa_input a, s) in
      if go then match get_flow k s with Some f => data_read a answers q f s | None => s end else s
  end.

(** ** The regular tick *)

Definition m_resolve_tick (a : target_answers) (f : mflow) (s : mpeer) : mpeer :=
  match List.find (fun j => bool_decide (j_owner j = Some (f_key f))) (mp_jobs s) with
  | None => abort_flow f s
  | Some j =>
    if negb (f_resolve f) then abort_flow f s
    else if negb (j_state j =? 2) then s
    else
      let s := detach_job (f_key f) s in
      let f := f <| f_resolve := false |> in
      let answer (code : Z) (f : mflow) := put_flow (m_ack code f) s in
      if truth (j_result j) then answer (j_result j) f
      else match j_address j with
           | OtherFamily => answer OB_REMOTE_EIO f
           | _ =>
             let '(ok, f, _) := if f_protocol f =? OB_REMOTE_TCP then m_tcp_buffers (ta_tx a) (ta_rx a) sizeof_packet f else (true, f, []) in
             if negb ok then answer OB_REMOTE_ENOMEM f
             else if negb (ta_socket a) then answer OB_REMOTE_EIO f
             else
               let f := f <| f_fd := true |> in
               if ta_connect a =? 0 then answer 0 f
               else if (ta_connect a =? 1) && (f_protocol f =? OB_REMOTE_TCP) then put_flow (f <| f_phase := M_CONNECTING |>) s
               else answer OB_REMOTE_EIO f
           end
  end.
(** The answers of a flow's turn: [ta_poll] is the socket's SO_ERROR once a connecting socket is
    ready; the reply's sends; the read; the socket; UDP's reads. *)
Record turn_answers := TurnAnswers {
  ta_control : control_answers; ta_poll : option bool; ta_sent : send_answer; ta_fin : send_answer; ta_reply_cbs : list callback;
  ta_read : flow_answers; ta_tick : tick_answers; ta_tick_cbs : list callback; ta_udp : list (recv_result * bool * Z) }.
Definition udp_turn (now : Z) (a : turn_answers) (f : mflow) (s : mpeer) : mpeer :=
  let idle := (if truth (udp_idle_ms (mp_peer s)) then udp_idle_ms (mp_peer s) else 60000) * 1000 in
  if m_expired now (f_last_io f) idle then abort_flow f s
  else
    let f := f <| f_assembly ::= map (fun x => match x with Some b => if m_expired now (a_updated b) M_PACKET_US then None else x | None => None end) |> in
    if f_local f || negb (f_fd f) || negb (bool_decide (f_phase f = M_ACTIVE)) || negb (mp_private s) then put_flow f s
    else match m_udp_target_read (ta_udp a) 4 (udp_view f) with
         | Some u => put_flow (udp_put u f) s
         | None => abort_flow f s
         end.
(** A flow's turn after the checks, each step on the flow as the previous ones left it. *)
Definition on_flow (k : nat) (g : mflow -> mpeer -> mpeer) (s : mpeer) : mpeer := match get_flow k s with Some f => g f s | None => s end.
Definition flow_turn (now : Z) (a : turn_answers) (k : nat) (s : mpeer) : mpeer :=
  let c := ta_control a in
  let s := on_flow k (fun f s => if bool_decide (f_phase f = M_RESOLVING) then m_resolve_tick (ca_target c) f s else s) s in
  let s := on_flow k (fun f s =>
    if bool_decide (f_phase f = M_CONNECTING) then
      match ta_poll a with Some true => put_flow (m_ack 0 f) s | Some false => put_flow (m_ack OB_REMOTE_EIO f) s | None => s end
    else s) s in
  let s := on_flow k (reply_flush c (ta_sent a) (ta_fin a) (ta_reply_cbs a)) s in
  let s := m_stream_read (ta_read a) k s in
  on_flow k (fun f s =>
    if f_proof f || bool_decide (f_phase f = M_DEAD) then s
    else if f_protocol f =? OB_REMOTE_TCP then
      let p := mp_peer s in
      let r := m_tcp_tick sizeof_packet (ca_now c) (ready p && proof_ready p) (attempt_stop p) (ta_tick a) f in
      let s := callbacks (ta_tick_cbs a) (commit (ca_t1 c) (ca_t2 c) f r s) in
      on_flow k (fun f s => if negb (f_stream f) && negb (f_fd f) then m_flow_free f s else s) s
    else if f_protocol f =? OB_REMOTE_UDP then udp_turn now a f s
    else s) s.
(** The loop over the flows; [false]: the tick returns. *)
Fixpoint flow_loop (now : Z) (ans : nat -> turn_answers) (ks : list nat) (s : mpeer) : bool * mpeer :=
  match ks with
  | [] => (true, s)
  | k :: ks =>
    match get_flow k s with
    | None => flow_loop now ans ks s
    | Some f =>
      let reap (s : mpeer) := on_flow k (fun f s => if f_stream f then s else m_flow_free f s) s in
      if attempt_stop (mp_peer s) then (false, s)
      else if f_close_requested f || stop (mp_peer s) then flow_loop now ans ks (reap (abort_flow f s))
      else if bool_decide (f_phase f = M_DEAD) then flow_loop now ans ks (reap s)
      else if f_suspended f && negb (f_waiting_resume f) then flow_loop now ans ks s
      else if negb (f_proof f) && negb (bool_decide (f_phase f = M_ACTIVE)) && m_expired now (f_created f) M_SETUP_US then
        if f_waiting_resume f then
          (false, fail_transport (ca_t1 (ta_control (ans k))) (ca_t2 (ta_control (ans k))) OB_REMOTE_ETIMEOUT "TCP resume handshake timed out" s)
        else flow_loop now ans ks (abort_flow f s)
      else flow_loop now ans ks (flow_turn now (ans k) k s)
    end
  end.

(** ** Listening maps *)

(** The answers for a connection or packet of a new source. *)
Record local_answers := LocalAnswers { la_ok : bool; la_tx : bool; la_rx : bool; la_open : open_answers }.
(** [m_local_flow]: the key of the flow. *)
Definition m_local_flow (a : local_answers) (m : rmap) (fd : bool) (source : option sockaddr) (s : mpeer) : option nat * mpeer :=
  let p := mp_peer s in
  let o := la_open a in
  if limit_of s <=? m_data_flow_count s then (None, s)
  else match m_flow_new (la_ok a) (oa_now o) s with
       | None => (None, s)
       | Some (f, s) =>
         let f := f <| f_local := true |> <| f_protocol := rm_protocol m |> <| f_map := Some (rm_key m) |> <| f_wire_version := wire_version p |> in
         if UINT64_MAX / 2 <=? mp_next_id s then (None, m_flow_free f s)
         else
           let s := s <| mp_next_id ::= Z.add 1 |> in
           let f := f <| f_id := Z.lor (u64 (Z.shiftl (mp_next_id s) 1)) (b2z (negb (is_server p))) |> in
           let f := match source with Some x => f <| f_source := x |> | None => f end in
           let tcp := f_protocol f =? OB_REMOTE_TCP in
           let '(ok, f, _) := if tcp then m_tcp_buffers (la_tx a) (la_rx a) sizeof_packet f else (true, f, []) in
           if negb ok then (None, m_flow_free f s)
           else if tcp && (negb (ready p) || negb (proof_ready p) || attempt_stop p || negb (mp_conn s)) then
             (Some (f_key f), put_flow (f <| f_pending_open := true |> <| f_suspended := true |> <| f_phase := M_ACTIVE |>
                                          <| f_grace := u64 (oa_now o + timeout_ms p * 1000) |> <| f_fd := fd |>) s)
           else
             let f := f <| f_reply := open_frame (f_protocol f) (f_id f) (rm_target_port m) (rm_host m) |> in
             let '(ok, f) := m_stream_open (oa_created o) f s in
             if negb ok then (None, m_flow_free f s)
             else let f := f <| f_fd := fd |> in (Some (f_key f), flush_open o f (put_flow f s))
       end.
(** What a listening socket yields: a connection ([nonblock] worked or not), or a packet. *)
Inductive map_input := MapConn (nonblock : bool) (a : local_answers) | MapPacket (v : list Z) (source : sockaddr) (alloc_ok : bool) (a : local_answers).
Definition map_packet (k : nat) (v : list Z) (source : sockaddr) (alloc_ok : bool) (a : local_answers) (s : mpeer) : mpeer :=
  match get_map k s with
  | None => s
  | Some m =>
    if rm_draining m || (M_UDP_MAX <? zlen v) || bool_decide (source = OtherFamily) then s
    else
      let known := List.find (fun f => bool_decide (f_map f = Some k) && (f_protocol f =? OB_REMOTE_UDP) && negb (bool_decide (f_phase f = M_DEAD)) &&
                                       m_source_equal (f_source f) source) (mp_flows s) in
      let '(key, s) := match known with Some f => (Some (f_key f), s) | None => m_local_flow a m false (Some source) s end in
      match key with
      | Some key => on_flow key (fun f s => if bool_decide (f_phase f = M_DEAD) then s
                                            else put_flow (udp_put (m_udp_enqueue alloc_ok (oa_now (la_open a)) v (udp_view f)) f) s) s
      | None => s
      end
  end.
(** At most sixteen inputs of a map per turn, within the budget of the tick; [again]: the socket
    has no more data now. *)
Fixpoint map_inputs (n : nat) (budget : Z) (again : bool) (ins : list map_input) (k : nat) (s : mpeer) {struct n} : Z * mpeer :=
  match n, ins with
  | S n, i :: ins =>
    if budget =? 0 then (budget, s)
    else match i, get_map k s with
         | MapConn nonblock a, Some m => map_inputs n (budget - 1) again ins k (if nonblock then (m_local_flow a m true None s).2 else s)
         | MapPacket v source ok a, _ => map_inputs n (budget - 1) again ins k (map_packet k v source ok a s)
         | _, None => (budget, s)
         end
  | S _, [] =>
    if budget =? 0 then (budget, s)
    else (budget, match get_map k s with
                  | Some m => if negb (rm_protocol m =? OB_REMOTE_TCP) && again then put_map (m <| rm_draining := false |>) s else s
                  | None => s
                  end)
  | O, _ => (budget, s)
  end.
Record map_answers := MapAnswers { ma_inputs : list map_input; ma_again : bool }.
Definition is_conn (i : map_input) : bool := match i with MapConn _ _ => true | MapPacket _ _ _ _ => false end.
Definition m_map_tick (a : map_answers) (budget : Z) (k : nat) (s : mpeer) : Z * mpeer :=
  match get_map k s with
  | None => (budget, s)
  | Some m =>
    if rm_closed m || negb (rm_fd m) then (budget, s)
    else map_inputs 16 budget (ma_again a) (List.filter (fun i => Bool.eqb (is_conn i) (rm_protocol m =? OB_REMOTE_TCP)) (ma_inputs a)) k s
  end.
Fixpoint map_loop (ans : nat -> map_answers) (budget : Z) (ks : list nat) (s : mpeer) {struct ks} : mpeer :=
  match ks with
  | [] => s
  | k :: ks => if budget =? 0 then s else let '(budget, s) := m_map_tick (ans k) budget k s in map_loop ans budget ks s
  end.

(** ** Ticks of the peer *)

Definition m_resolve_reap (s : mpeer) : mpeer := s <| mp_jobs ::= List.filter (fun j => bool_decide (is_Some (j_owner j)) || (j_state j =? 1)) |>.
(** [m_udp_discard]: [n] packets are thrown away, until the budget is spent or the socket has no
    more ([again]). *)
Definition m_udp_discard (n : Z) (again : bool) (budget : Z) (m : rmap) (s : mpeer) : Z * mpeer :=
  let n := Z.max 0 (Z.min n budget) in
  (budget - n, if negb (budget - n =? 0) && again then put_map (m <| rm_draining := false |>) s else s).
Fixpoint offline_maps (ans : nat -> map_answers) (budget : Z) (ks : list nat) (s : mpeer) {struct ks} : mpeer :=
  match ks with
  | [] => s
  | k :: ks =>
    if budget =? 0 then s
    else match get_map k s with
         | None => offline_maps ans budget ks s
         | Some m =>
           if rm_closed m || negb (rm_fd m) then offline_maps ans budget ks s
           else
             let '(budget, s) :=
               if rm_protocol m =? OB_REMOTE_TCP then m_map_tick (ans k) budget k s
               else let m := m <| rm_draining := true |> in m_udp_discard (zlen (ma_inputs (ans k))) (ma_again (ans k)) budget m (put_map m s) in
             offline_maps ans budget ks s
         end
  end.
Fixpoint recovery_flows (now : Z) (ks : list nat) (s : mpeer) : mpeer :=
  match ks with
  | [] => s
  | k :: ks =>
    let s := on_flow k (fun f s => if ((f_suspended f || f_resuming f) && (f_grace f <=? now)) || f_close_requested f then abort_flow f s else s) s in
    recovery_flows now ks (on_flow k (fun f s => if bool_decide (f_phase f = M_DEAD) && negb (f_stream f) then m_flow_free f s else s) s)
  end.
(** The answers of one tick: the allocation of the state, the maps, the flows' turns, the UDP
    sends. *)
Record mapping_answers := MappingAnswers {
  ga_now1 : Z; ga_now2 : Z; ga_ok : bool; ga_offline : nat -> map_answers; ga_maps : nat -> map_answers;
  ga_turns : nat -> turn_answers; ga_flush : nat -> list flush_round * list callback }.
Definition ob_mapping_recovery_tick (now : Z) (g : mapping_answers) (s : mpeer) : mpeer :=
  let s := recovery_flows now (map f_key (mp_flows s)) s in
  match m_state_get (ga_ok g) s with
  | None => s
  | Some s =>
    let p := mp_peer s in
    m_resolve_reap (if negb (ready p) || negb (proof_ready p) || attempt_stop p then offline_maps (ga_offline g) 128 (map rm_key (mp_maps s)) s else s)
  end.
Definition m_stop_io (s : mpeer) : mpeer :=
  let s := s <| mp_maps ::= map (fun m => m <| rm_fd := false |> <| rm_closed := true |>) |> in
  fold_left (fun s k => on_flow k (fun f s => commit 0 0 f (m_release_io sizeof_packet (f <| f_close_requested := true |> <| f_phase := M_DEAD |>)) s) s)
    (map f_key (mp_flows s)) s.
(** The list from position [start] on, then its beginning. *)
Definition rotate {A} (start : Z) (l : list A) : list A := zdrop start l ++ ztake start l.
Fixpoint udp_loop (ans : nat -> list flush_round * list callback) (budget : Z) (ks : list nat) (s : mpeer) {struct ks} : mpeer :=
  match ks with
  | [] => s
  | k :: ks =>
    if budget =? 0 then s
    else match get_flow k s with
         | None => udp_loop ans budget ks s
         | Some f =>
           if f_protocol f =? OB_REMOTE_UDP then
             let '(_, budget, u) := m_udp_flush (ready (mp_peer s) && f_stream f) (ans k).1 budget (udp_view f) in
             udp_loop ans budget ks (callbacks (ans k).2 (put_flow (udp_put u f) s))
           else udp_loop ans budget ks s
         end
  end.
Definition ob_mapping_tick (g : mapping_answers) (s : mpeer) : mpeer :=
  if stop (mp_peer s) then m_stop_io s
  else if attempt_stop (mp_peer s) then s
  else
    let s := ob_mapping_recovery_tick (ga_now1 g) g s in
    match m_state_get (ga_ok g) s with
    | None => s
    | Some s =>
      let now := ga_now2 g in
      let s := if ready (mp_peer s) && negb (stop (mp_peer s)) && negb (zlen (mp_maps s) =? 0) then
                 let start := mp_map_rotation s mod zlen (mp_maps s) in
                 map_loop (ga_maps g) 128 (map rm_key (rotate start (mp_maps s))) (s <| mp_map_rotation ::= fun r => u64 (r + 8) |>)
               else s in
      let '(go, s) := flow_loop now (ga_turns g) (map f_key (mp_flows s)) s in
      if negb go then s
      else
        let s := if ready (mp_peer s) && negb (stop (mp_peer s)) && negb (zlen (mp_flows s) =? 0) then
                   let start := mp_udp_rotation s mod zlen (mp_flows s) in
                   udp_loop (ga_flush g) 128 (map f_key (rotate start (mp_flows s))) (s <| mp_udp_rotation ::= fun r => u64 (r + 16) |>)
                 else s in
        m_resolve_reap s
    end.

(** ** The life of the transport *)

Definition ob_mapping_transport_suspend (now : Z) (preserve_tcp : bool) (deadline : Z) (s : mpeer) : mpeer :=
  let s := s <| mp_proof_started := false |> in
  let deadline := if deadline =? 0 then u64 (now + flow_grace_ms (r_policy (recovery (mp_peer s))) * 1000) else deadline in
  let preserve := preserve_tcp && negb (deadline <=? now) in
  let s := fold_left (fun s k => on_flow k (fun f s => commit 0 0 f (suspend_flow sizeof_packet preserve deadline f) s) s) (map f_key (mp_flows s)) s in
  s <| mp_maps ::= map (fun m => if rm_protocol m =? OB_REMOTE_UDP then m <| rm_draining := true |> else m) |>.
Definition ob_mapping_forget_flows (s : mpeer) : mpeer :=
  fold_left (fun s k => on_flow k (fun f s => if negb (f_proof f) && negb (f_transient f) && negb (f_pending_open f) then abort_flow f s else s) s)
    (map f_key (mp_flows s)) s.
(** [first]: the new stream is stream 0. *)
Definition ob_mapping_handshake (ok first : bool) (o : open_answers) (s : mpeer) : mpeer :=
  let p := mp_peer s in
  if negb (mp_conn s) || negb (tls_ready p) then s
  else
    let fail (code : Z) (message : string) (s : mpeer) := fail_peer (oa_t1 o) (oa_t2 o) code message s in
    match m_state_get ok s with
    | None => fail OB_REMOTE_ENOMEM "mapping state allocation failed"%string s
    | Some s =>
      if is_server p || mp_proof_started s then s
      else match m_flow_new ok (oa_now o) s with
           | None => fail OB_REMOTE_ENOMEM "proof stream allocation failed"%string s
           | Some (f, s) =>
             let f := f <| f_local := true |> <| f_proof := true |> in
             let s := put_flow f (s <| mp_proof_started := true |>) in
             match channel_proof p false with
             | None => m_flow_free f (fail OB_REMOTE_EAUTH "connection proof unavailable"%string s)
             | Some own =>
               let '(opened, f) := m_stream_open (oa_created o) f s in
               if negb opened then m_flow_free f (fail OB_REMOTE_EAUTH "connection proof unavailable"%string s)
               else if negb first then abort_flow f (fail OB_REMOTE_EPROTOCOL "proof must be the first QUIC stream"%string (put_flow f s))
               else let f := f <| f_reply := proof_frame own |> in flush_open o f (put_flow f s)
             end
           end
    end.
Definition ob_mapping_cleanup (s : mpeer) : mpeer :=
  s <| mp_flows := [] |> <| mp_maps := [] |> <| mp_jobs := [] |> <| mp_private := false |> <| mp_proof_started := false |> <| mp_resolvers := 0 |>.

(** ** Requests of the caller *)

(** [family]: what [inet_pton] makes of the local interface; the allocation, [socket], [bind],
    [listen], and the port [getsockname] reports. *)
Record portmap_answers := PortmapAnswers { pa_family : option bool; pa_alloc : bool; pa_socket : bool; pa_bind : bool; pa_listen : bool; pa_port : option Z }.
Definition m_portmap (a : portmap_answers) (host : option (list Z)) (target_port protocol : Z) (s : mpeer) : (ob_remote_error + Z) * mpeer :=
  let p := mp_peer s in
  let error (code : Z) (message : string) := (inl (ob_error code 0 (Some (lit message))), s) in
  match host with
  | None => error OB_REMOTE_EINVAL "invalid fixed mapping target"%string
  | Some host =>
    if (target_port =? 0) || negb (m_host_valid host) then error OB_REMOTE_EINVAL "invalid fixed mapping target"%string
    else match pa_family a with
         | None => error OB_REMOTE_EINVAL "local interface must be a numeric IPv4 or IPv6 address"%string
         | Some _ =>
           if stop p || (negb (managed p) && (negb (ready p) || negb (proof_ready p))) then error OB_REMOTE_ECLOSED "peer is not authenticated and ready"%string
           else if m_limit (max_maps p) 32 M_MAPS <=? zlen (mp_maps s) then error OB_REMOTE_ELIMIT "mapping limit reached"%string
           else if negb (pa_alloc a) then error OB_REMOTE_ENOMEM "mapping allocation failed"%string
           else match pa_port a with
                | Some port =>
                  if negb (pa_socket a) || negb (pa_bind a) || ((protocol =? OB_REMOTE_TCP) && negb (pa_listen a))
                  then error OB_REMOTE_EIO "cannot bind requested local interface and port"%string
                  else (inr port, s <| mp_maps ::= cons (RMap (mp_next_key s) true false false port target_port protocol host) |> <| mp_next_key ::= S |>)
                | None => error OB_REMOTE_EIO "cannot bind requested local interface and port"%string
                end
         end
  end.
Definition ob_remote_portmap_tcp (a : portmap_answers) (host : option (list Z)) (target_port : Z) : mpeer -> (ob_remote_error + Z) * mpeer :=
  m_portmap a host target_port OB_REMOTE_TCP.
Definition ob_remote_portmap_udp (a : portmap_answers) (host : option (list Z)) (target_port : Z) : mpeer -> (ob_remote_error + Z) * mpeer :=
  m_portmap a host target_port OB_REMOTE_UDP.
Definition ob_remote_map_local_port (m : option rmap) : Z := match m with Some m => rm_local_port m | None => 0 end.
Definition ob_remote_map_close (k : nat) (s : mpeer) : mpeer :=
  s <| mp_maps ::= List.filter (fun m => negb (Nat.eqb (rm_key m) k)) |>
    <| mp_flows ::= map (fun f => if bool_decide (f_map f = Some k) then f <| f_map := None |> <| f_close_requested := true |> else f) |>.

(** A resolver thread takes the first queued job, and finishes the [i]-th with what
    [ob_target_resolve] answered. *)
Fixpoint take_queued (l : list m_resolve) : list m_resolve :=
  match l with [] => [] | j :: l => if j_state j =? 0 then j <| j_state := 1 |> :: l else j :: take_queued l end.
Definition job_take (s : mpeer) : mpeer := s <| mp_jobs ::= take_queued |>.
Definition job_finish (i : nat) (result : Z) (address : sockaddr) (s : mpeer) : mpeer :=
  s <| mp_jobs ::= fun l => match l !! i with
         | Some j => if j_state j =? 1 then <[i := (if result =? 0 then j <| j_address := address |> else j) <| j_result := result |> <| j_state := 2 |>]> l else l
         | None => l end |>.
End table.
