(* ===== verification/MapGuard.v ===== *)
(** * What the mapping table keeps

    Identifiers and limits of the flows, and what makes a peer ready: lemmas on the operations
    of MapTable that every step of the engine builds on. *)

From S2P Require Import Prelude Peer MapUdp MapFlow MapV2 MapTable.

(** ** Operations on one flow *)

(** What identifies a flow; [core] adds what tells whether it still counts. *)
Definition ident (f : mflow) := (f_key f, f_id f, f_local f, f_proof f, f_transient f, f_proof_reply_ready f).
Definition core (f : mflow) := (ident f, f_phase f, f_fd f, f_pending_open f, f_control_need f).
(** A dead flow has no descriptor, nor has a flow of the other side that has not sent its request,
    which is transient until its header is accepted; only local flows wait for a transport to open
    them. *)
Record sane (f : mflow) : Prop := {
  sa_dead : f_phase f = M_DEAD -> f_fd f = false;
  sa_control : f_local f = false -> f_phase f = M_CONTROL -> f_fd f = false;
  sa_transient : f_local f = false -> f_proof f = false -> f_phase f = M_CONTROL -> f_control_need f = M_HEADER -> f_transient f = true;
  sa_pending : f_pending_open f = true -> f_local f = true }.
Record keeps (f f' : mflow) : Prop := {
  k_ident : ident f' = ident f;
  k_dead : sane f -> sane f' /\ (f_phase f = M_DEAD -> f_phase f' = M_DEAD) }.
Lemma ident_fields f f' : ident f' = ident f ->
  f_key f' = f_key f /\ f_id f' = f_id f /\ f_local f' = f_local f /\ f_proof f' = f_proof f /\ f_transient f' = f_transient f /\
  f_proof_reply_ready f' = f_proof_reply_ready f.
Proof. unfold ident. intros [= -> -> -> -> -> ->]. done. Qed.
Lemma core_fields f f' : core f' = core f -> ident f' = ident f /\ f_phase f' = f_phase f /\ f_fd f' = f_fd f /\ f_pending_open f' = f_pending_open f /\
  f_control_need f' = f_control_need f.
Proof. unfold core. intros [[[[E1 E2]%pair_inj E3]%pair_inj E4]%pair_inj E5]%pair_inj. done. Qed.
Lemma keeps_core f f' : core f' = core f -> keeps f f'.
Proof.
  intros (E1 & E2 & E3 & E4 & E5)%core_fields. split; [exact E1|]. destruct (ident_fields _ _ E1) as (_ & _ & L & P & T & _).
  intros [S1 S2 S3 S4]. split; [|congruence]. constructor; rewrite ?E2, ?E3, ?E4, ?E5, ?L, ?P, ?T; done.
Qed.
Lemma keeps_refl f : keeps f f.
Proof. by apply keeps_core. Qed.
Lemma keeps_trans f g h : keeps f g -> keeps g h -> keeps f h.
Proof. intros [A1 A2] [B1 B2]. split; [congruence|]. intros Hf. destruct (A2 Hf) as [Hg ?]. destruct (B2 Hg). auto. Qed.
Lemma keeps_dead f f' : ident f' = ident f -> f_pending_open f' = f_pending_open f -> f_phase f' = M_DEAD -> f_fd f' = false -> keeps f f'.
Proof.
  intros H1 H2 H3 H4. split; [done|]. destruct (ident_fields _ _ H1) as (_ & _ & L & _). intros [S1 S2 S3 S4]. split; [|done].
  constructor; [done|done|by rewrite H3|]. rewrite H2, L. exact S4.
Qed.
(** A change of phase of a flow that is alive. *)
Lemma keeps_live f f' : ident f' = ident f -> f_phase f <> M_DEAD -> (f_pending_open f' = true -> f_pending_open f = true) ->
  (f_phase f' = M_DEAD -> f_fd f' = false) -> (f_local f = true \/ f_phase f' <> M_CONTROL) -> keeps f f'.
Proof.
  intros H1 H2 H3 H4 H5. split; [done|]. destruct (ident_fields _ _ H1) as (_ & _ & L & _). intros [S1 S2 S3 S4]. split; [|done].
  constructor; [done|rewrite L; destruct H5; congruence|rewrite L; destruct H5; congruence|]. rewrite L. auto.
Qed.

Lemma release_fields sp f : ident (m_release_io sp f).1 = ident f /\ f_phase (m_release_io sp f).1 = f_phase f /\ f_fd (m_release_io sp f).1 = false /\
  f_pending_open (m_release_io sp f).1 = f_pending_open f /\ f_control_need (m_release_io sp f).1 = f_control_need f.
Proof. split_and!; reflexivity. Qed.
Lemma release_keeps sp f : keeps f (m_release_io sp f).1.
Proof.
  destruct (release_fields sp f) as (R1 & R2 & R3 & R4 & R5). generalize dependent (m_release_io sp f).1. intros g R1 R2 R3 R4 R5.
  destruct (ident_fields _ _ R1) as (_ & _ & L & P & T & _). split; [done|]. intros [S1 S2 S3 S4]. split; [|by rewrite R2].
  constructor; rewrite ?R2, ?R4, ?R5, ?L, ?P, ?T; done.
Qed.
Lemma abort_keeps sp f : keeps f (m_abort sp f).1.
Proof.
  unfold m_abort. destruct (release_fields sp (f <| f_phase := M_DEAD |>)) as (R1 & R2 & R3 & R4 & R5).
  destruct (m_release_io sp (f <| f_phase := M_DEAD |>)) as [g fx]. cbn [fst] in *. destruct (_ && _); by apply keeps_dead.
Qed.
Lemma abort_core sp f g : core g = core f -> keeps f (m_abort sp g).1.
Proof. intros H. apply (keeps_trans f g); [by apply keeps_core|apply abort_keeps]. Qed.
Definition is_ready (e : effect) : bool := match e with FxReady => true | _ => false end.
Lemma release_not_ready sp f : existsb is_ready (m_release_io sp f).2 = false.
Proof.
  assert (H1 : forall l, existsb is_ready (map (fun q : m_udp_packet => FxFree (sp + zlen (q_data q))) l) = false) by (intros l; by induction l).
  assert (H2 : forall l, existsb is_ready (flat_map (fun x => match x with Some a => [FxFree (if a_total a =? 0 then 1 else a_total a)] | None => [] end) l) = false)
    by (intros l; induction l as [|[x|] l IH]; done).
  unfold m_release_io, m_drop_udp. cbn [snd]. rewrite !existsb_app. specialize (H1 (f_udp_queue f)). specialize (H2 (f_assembly f)).
  destruct (f_fd f), (bool_decide _), (bool_decide _); cbn [existsb is_ready orb]; apply orb_false_iff; split; [exact H1|exact H2|..]; done.
Qed.
Lemma abort_not_ready sp f : existsb is_ready (m_abort sp f).2 = false.
Proof.
  unfold m_abort. pose proof (release_not_ready sp (f <| f_phase := M_DEAD |>)) as H. destruct (m_release_io sp _) as [g fx].
  cbn [snd] in H. destruct (_ && _); cbn [snd]; rewrite ?existsb_app, ?H; done.
Qed.
#[local] Opaque m_abort m_release_io.

Lemma abort_to sp f g h fx : core g = core f -> m_abort sp g = (h, fx) -> keeps f h.
Proof. intros Hg E. pose proof (abort_core sp f g Hg) as H. by rewrite E in H. Qed.
Lemma reply_done_keeps sp server rdy fin f g : core g = core f -> f_phase f <> M_DEAD -> keeps f (reply_done sp server rdy fin g).1.
Proof.
  intros Hc Ha. assert (Hact : forall h, core h = core f -> keeps f (h <| f_phase := M_ACTIVE |>)).
  { intros h (H1 & _ & _ & H4 & _)%core_fields. apply keeps_live; try done; [|by right]. change (f_pending_open h = true -> f_pending_open f = true). congruence. }
  unfold reply_done. destruct (f_proof g).
  - assert (Hf : forall h fx, core h = core f -> keeps f (if f_proof_reply_ready h && server then (h <| f_phase := M_ACTIVE |>, fx ++ if rdy then [] else [FxReady]) else (h, fx)).1).
    { intros h fx H. destruct (_ && _); [by apply Hact|by apply keeps_core]. }
    cbv zeta. destruct (f_sent_fin g); [by apply Hf|]. destruct fin; [by apply Hf|by apply keeps_core|].
    destruct (m_abort sp g) as [h fx] eqn:E. by apply (abort_to sp f g h fx).
  - destruct (bool_decide _); [|by apply keeps_core]. destruct (f_reject_after_reply g); [by apply abort_core|].
    apply (Hact (g <| f_acked := true |>)). exact Hc.
Qed.
Lemma reply_flush_keeps sp server rdy sent fin f : keeps f (m_reply_flush sp server rdy sent fin f).1.
Proof.
  unfold m_reply_flush. destruct (_ || _) eqn:E; [apply keeps_refl|].
  assert (Ha : f_phase f <> M_DEAD).
  { intros H. rewrite H in E. rewrite !orb_true_r in E || (apply orb_false_iff in E as [E _]; rewrite orb_true_r in E). done. }
  destruct (_ <? _); [|by apply reply_done_keeps]. destruct sent as [n lost| |]; [|apply keeps_refl|destruct (_ && _); [apply keeps_refl|apply abort_keeps]].
  destruct lost; [apply keeps_refl|]. cbv zeta. set (f1 := f <| f_reply_pos ::= _ |>). destruct (_ <? _); [by apply keeps_core|].
  pose proof (reply_done_keeps sp server rdy fin f f1 eq_refl Ha) as H. by destruct (reply_done sp server rdy fin f1).
Qed.

(** *** Version 2 *)

Lemma v2_ack_core o fl f g : m_v2_ack o fl f = Some g -> core g = core f.
Proof.
  unfold m_v2_ack. destruct (_ || _); [done|]. destruct (_ && _); [done|].
  destruct (f_tx_base f <? o); [destruct (_ <? _); [done|]|]; (destruct (truth fl); intros [= <-]; reflexivity).
Qed.
Lemma resume_apply_core body f : core (m_resume_apply body f).2 = core f.
Proof.
  unfold m_resume_apply. destruct (resume_invalid _ _ _ _ _ _ _); [done|]. cbv zeta.
  set (f1 := f <| f_tx_pos := _ |>). destruct (m_v2_ack _ _ f1) as [g|] eqn:E; [|done].
  apply v2_ack_core in E. transitivity (core g); [|done]. destruct (Z.testbit _ 0); reflexivity.
Qed.
(** A flow after a callee that may refuse. *)
Lemma resumed_core f g : Some (if f_resuming f then f <| f_resuming := false |> <| f_grace := 0 |> else f) = Some g -> core g = core f.
Proof. destruct (f_resuming f); intros [= <-]; reflexivity. Qed.
Lemma v2_header_core f g : m_v2_header f = Some g -> core g = core f.
Proof.
  unfold m_v2_header. cbv zeta. destruct (_ || _); [done|].
  match goal with |- match (if _ then m_v2_ack _ _ ?h else _) with _ => _ end = _ -> _ => set (f1 := h) end.
  assert (H1 : core f1 = core f) by done. clearbody f1. rewrite <- H1. clear H1.
  match goal with |- match ?x with _ => _ end = _ -> _ => destruct x as [f2|] eqn:E2; [|done] end.
  assert (H2 : core f2 = core f1) by (destruct (_ =? M_V2_ACK) in E2; [by apply v2_ack_core in E2|by injection E2 as <-]).
  rewrite <- H2. clear E2 H2. destruct (_ =? M_V2_FIN).
  - destruct (_ || _); [done|]. by intros ->%resumed_core.
  - destruct (_ && _); [done|]. by intros ->%resumed_core.
Qed.
Lemma read_header_core ans q f : core (v2_read_header ans q f).2 = core f.
Proof.
  unfold v2_read_header. destruct (_ <? _); [|done]. destruct ans as [|[n fin| |] ans]; try done.
  destruct (stream_recv _ _ _) as [v q']. destruct fin; [done|]. cbv zeta. set (f1 := f <| f_in_frame ::= _ |>).
  destruct (_ <? _); [done|]. destruct (m_v2_header f1) as [g|] eqn:E; [|done]. apply v2_header_core in E.
  transitivity (core g); [|exact E]. destruct (negb _); done.
Qed.
Lemma v2_compact_core f : core (v2_compact f) = core f.
Proof. unfold v2_compact. by destruct (_ && _). Qed.
Lemma v2_drained_core f : core (v2_drained f) = core f.
Proof. unfold v2_drained. by destruct (_ =? _). Qed.
Lemma v2_advance_core now n f : core (v2_advance now n f) = core f.
Proof. unfold v2_advance. cbv zeta. by destruct (_ =? _). Qed.
Lemma read_payload_core now ans q f : core (v2_read_payload now ans q f).2 = core f.
Proof.
  unfold v2_read_payload. cbv zeta. destruct (_ <? _); [done|]. destruct (_ =? f_rx_next f).
  - pose proof (v2_compact_core f) as Hc. generalize dependent (v2_compact f). intros g Hc. destruct (_ =? 0); [done|].
    destruct ans as [|[n fin| |] ans]; try done. destruct (stream_recv _ _ _) as [v q']. destruct fin; [done|].
    destruct (zlen v =? 0); [done|]. cbn [snd]. rewrite v2_advance_core. exact Hc.
  - destruct ans as [|[n fin| |] ans]; try done. destruct (stream_recv _ _ _) as [v q']. destruct fin; [done|].
    destruct (zlen v =? 0); [done|]. destruct (_ && _); [done|]. cbn [snd]. by rewrite v2_advance_core.
Qed.
Lemma read_rounds_core now n ans q f : core (v2_read_rounds now n ans q f).2 = core f.
Proof.
  revert ans q f. induction n as [|n IH]; intros ans q f; [done|]. cbn [v2_read_rounds]. pose proof (read_header_core ans q f) as H1.
  destruct (v2_read_header ans q f) as [[[r ans1] q1] f1]. cbn [snd] in H1. destruct r as [[[] b]|]; try (rewrite ?IH; exact H1).
  pose proof (read_payload_core now ans1 q1 f1) as H2. destruct (v2_read_payload now ans1 q1 f1) as [[[r ans2] q2] f2]. cbn [snd] in H2.
  rewrite <- H1, <- H2. destruct r; [apply IH|done..].
Qed.
Lemma v2_read_keeps sp now stp ans q f : keeps f (m_v2_read sp now stp ans q f).1.2.
Proof.
  unfold m_v2_read. destruct (_ || _); [apply keeps_refl|]. pose proof (read_rounds_core now 32 ans q f) as H.
  destruct (v2_read_rounds now 32 ans q f) as [[r q1] f1]. cbn [snd] in H. pose proof (abort_core sp f f1 H) as Ha.
  destruct r; [by apply keeps_core..| |]; by destruct (m_abort sp f1).
Qed.
Lemma next_frame_core f g : v2_next_frame f = Some g -> core g = core f.
Proof.
  unfold v2_next_frame. destruct (truth _); [by intros [= <-]|]. destruct (f_ack_dirty f); [by intros [= <-]|].
  destruct (_ <? _); [by intros [= <-]|]. destruct (_ && _); by intros [= <-].
Qed.
Lemma send_header_core ans f : core (v2_send_header ans f).1.2 = core f.
Proof. unfold v2_send_header. destruct (_ <? _); [|done]. destruct ans as [|[n []| |] ans]; done. Qed.
Lemma send_payload_core ans f : core (v2_send_payload ans f).1.2 = core f.
Proof.
  unfold v2_send_payload. destruct (_ && _); [|done]. destruct (_ || _); [done|]. destruct ans as [|[n []| |] ans]; try done.
Qed.
Lemma v2_complete_core f : core (v2_complete f) = core f.
Proof. unfold v2_complete. destruct (_ =? M_V2_ACK); [by destruct (_ && _)|]. by destruct (_ =? M_V2_FIN). Qed.
Lemma write_rounds_core n ans f : core (v2_write_rounds n ans f).1 = core f.
Proof.
  revert ans f. induction n as [|n IH]; intros ans f; [done|]. cbn [v2_write_rounds].
  destruct (v2_next_frame f) as [f1|] eqn:E1; [|done]. apply next_frame_core in E1. rewrite <- E1. clear E1 f.
  pose proof (send_header_core ans f1) as H1. destruct (v2_send_header ans f1) as [[[go ans1] f2] fx1]. cbn [fst snd] in H1.
  destruct go; [|done]. cbn [negb]. rewrite <- H1. clear H1.
  pose proof (send_payload_core ans1 f2) as H2. destruct (v2_send_payload ans1 f2) as [[[go ans2] f3] fx2]. cbn [fst snd] in H2.
  destruct go; [|done]. cbn [negb]. rewrite <- H2, <- (v2_complete_core f3). destruct (_ && _); [|done].
  specialize (IH ans2 (v2_complete f3)). by destruct (v2_write_rounds n ans2 (v2_complete f3)).
Qed.
Lemma v2_write_core stp ans f : core (m_v2_write stp ans f).1 = core f.
Proof. unfold m_v2_write. destruct (_ || _); [done|apply write_rounds_core]. Qed.
Lemma to_socket_core now a f g fx : v2_to_socket now a f = Some (g, fx) -> core g = core f.
Proof.
  unfold v2_to_socket. destruct (_ && _); [|by intros [<- <-]%some_pair_inj]. destruct (t_send a); [|intros [<- <-]%some_pair_inj; apply v2_drained_core|done].
  cbv zeta. destruct (_ <? _); intros [<- <-]%some_pair_inj; by rewrite v2_drained_core.
Qed.
Lemma apply_fin_core a f g fx : v2_apply_fin a f = Some (g, fx) -> core g = core f.
Proof. unfold v2_apply_fin. destruct (_ && _); [|by intros [<- <-]%some_pair_inj]. destruct (t_shutdown_ok a); [by intros [<- <-]%some_pair_inj|done]. Qed.
Lemma from_socket_core now a f r : v2_from_socket now a f = r ->
  match r with inl g => core g = core f | inr (Some (g, _)) => core g = core f | inr None => True end.
Proof.
  intros <-. unfold v2_from_socket. destruct (_ && _); [|done]. destruct (_ =? 0); [done|]. destruct (t_recv a); [|done..]. cbv zeta.
  destruct (_ =? 0); [done|]. by destruct (_ <? _).
Qed.
Lemma v2_tick_keeps sp now rdy stp a f : keeps f (m_v2_tick sp now rdy stp a f).1.
Proof.
  assert (Hab : forall g fx, core g = core f -> keeps f (let '(h, fx') := m_abort sp g in (h, fx ++ fx')).1).
  { intros g fx Hg. pose proof (abort_core sp f g Hg) as H. by destruct (m_abort sp g). }
  unfold m_v2_tick. cbv zeta. destruct (_ || _); [apply keeps_refl|]. destruct (t_poll_error a); [by apply Hab|].
  destruct (v2_to_socket now a f) as [[f1 fx1]|] eqn:E1; [|by apply Hab]. apply to_socket_core in E1.
  destruct (v2_apply_fin a f1) as [[f2 fx2]|] eqn:E2; [|by apply Hab]. apply apply_fin_core in E2.
  destruct (v2_from_socket now a f2) as [f3|[[f3 fx3]|]] eqn:E3; apply from_socket_core in E3; [apply Hab; congruence| |apply Hab; congruence].
  pose proof (v2_write_core stp (t_stream a) f3) as E4. destruct (m_v2_write stp (t_stream a) f3) as [f4 fx4]. cbn [fst] in E4.
  destruct (_ && _); [apply Hab; congruence|apply keeps_core; cbn [fst]; congruence].
Qed.

(** *** Version 1, UDP and the control exchange *)

Lemma v1_read_keeps sp now ans q f : keeps f (v1_read sp now ans q f).1.
Proof.
  unfold v1_read. cbv zeta. assert (Hg : core (if f_rx_pos f =? zlen (rx f) then v2_drained f else v2_compact f) = core f).
  { destruct (_ =? _); [apply v2_drained_core|apply v2_compact_core]. }
  generalize dependent (if f_rx_pos f =? zlen (rx f) then v2_drained f else v2_compact f). intros g Hg.
  destruct (_ =? 0); [by apply keeps_core|]. destruct ans as [n fin| |]; [|by apply keeps_core|by apply abort_core].
  destruct (stream_recv _ _ _) as [v q']. destruct (zlen v =? 0), fin; by apply keeps_core.
Qed.
Lemma v1_send_keeps sp ans f go ans' g fx : v1_send sp ans f = (go, ans', g, fx) -> keeps f g /\ (go = true -> core g = core f).
Proof.
  unfold v1_send. destruct (_ <? _); [|intros [[[<- <-]%pair_inj <-]%pair_inj <-]%pair_inj; split; [apply keeps_refl|done]].
  destruct ans as [|[n lost| |] ans]; [intros [[[<- <-]%pair_inj <-]%pair_inj <-]%pair_inj; split; [apply keeps_refl|done]| |intros [[[<- <-]%pair_inj <-]%pair_inj <-]%pair_inj; split; [apply keeps_refl|done]|].
  - destruct lost; intros [[[<- <-]%pair_inj <-]%pair_inj <-]%pair_inj; split; by try apply keeps_core.
  - destruct (m_abort sp f) as [h fx'] eqn:E. intros [[[<- <-]%pair_inj <-]%pair_inj <-]%pair_inj. split; [by apply (abort_to sp f f h fx')|done].
Qed.
Lemma v1_write_keeps sp ans f g : core g = core f -> keeps f (v1_write sp ans g).1.
Proof.
  intros Hg. unfold v1_write. destruct (_ || _); [by apply keeps_core|]. destruct (v1_send sp ans g) as [[[go ans'] h] fx] eqn:E.
  apply v1_send_keeps in E as [Hk Hc]. apply (keeps_trans f g); [by apply keeps_core|].
  destruct go; [|exact Hk]. specialize (Hc eq_refl). cbn [andb]. destruct (_ =? _); [|exact Hk]. set (h1 := h <| f_tx := _ |> <| f_tx_pos := _ |>).
  assert (H1 : core h1 = core g) by exact Hc. clearbody h1. destruct (_ && _); [|by apply keeps_core].
  destruct ans' as [|[n lost| |] ans']; try by apply keeps_core.
  destruct (m_abort sp h1) as [h2 fx'] eqn:E. by apply (abort_to sp g h1 h2 fx').
Qed.
Lemma v1_to_socket_core now a f g fx : v1_to_socket now a f = Some (g, fx) -> core g = core f.
Proof.
  unfold v1_to_socket. destruct (_ && _); [|by intros [<- <-]%some_pair_inj]. destruct (t_send a); [|intros [<- <-]%some_pair_inj; apply v2_drained_core|done].
  cbv zeta. destruct (_ <? _); intros [<- <-]%some_pair_inj; by rewrite v2_drained_core.
Qed.
Lemma v1_from_socket_core now a f g fx : v1_from_socket now a f = Some (g, fx) -> core g = core f.
Proof.
  unfold v1_from_socket. destruct (_ && _); [|by intros [<- <-]%some_pair_inj]. cbv zeta.
  match goal with |- context [zlen (tx ?x)] => lazymatch x with context [if _ then _ else _] => set (f1 := x) end end.
  assert (H1 : core f1 = core f) by (unfold f1; destruct (_ =? _); [done|]; by destruct (_ && _)). clearbody f1. rewrite <- H1.
  destruct (_ =? 0); [by intros [<- <-]%some_pair_inj|]. destruct (t_recv a); [|by intros [<- <-]%some_pair_inj|done].
  destruct (_ =? 0); by intros [<- <-]%some_pair_inj.
Qed.
Lemma v1_tick_keeps sp now a f : keeps f (v1_tick sp now a f).1.
Proof.
  assert (Hab : forall g fx, core g = core f -> keeps f (let '(h, fx') := m_abort sp g in (h, fx ++ fx')).1).
  { intros g fx Hg. pose proof (abort_core sp f g Hg) as H. by destruct (m_abort sp g). }
  unfold v1_tick. cbv zeta. destruct (_ || _); [apply keeps_refl|]. destruct (t_poll_error a); [by apply Hab|].
  destruct (v1_to_socket now a f) as [[f1 fx1]|] eqn:E1; [|by apply Hab]. apply v1_to_socket_core in E1.
  assert (E2 : core (v1_shut f1).1 = core f) by (unfold v1_shut; by destruct (_ && _)). destruct (v1_shut f1) as [f2 fx2]. cbn [fst] in E2.
  destruct (v1_from_socket now a f2) as [[f3 fx3]|] eqn:E3; [|by apply Hab]. apply v1_from_socket_core in E3. rewrite E2 in E3.
  pose proof (v1_write_keeps sp (t_stream a) f f3 E3) as E4. destruct (v1_write sp (t_stream a) f3) as [f4 fx4]. cbn [fst] in E4.
  destruct (_ && _); [|done]. apply (keeps_trans f f4); [done|]. split; [done|]. intros [S1 S2 S3 S4]. split; [|done]. by constructor.
Qed.
Lemma tcp_tick_keeps sp now rdy stp a f : keeps f (m_tcp_tick sp now rdy stp a f).1.
Proof. unfold m_tcp_tick. destruct (_ =? 2); [apply v2_tick_keeps|apply v1_tick_keeps]. Qed.
Lemma udp_put_keeps u f : keeps f (udp_put u f).
Proof. by apply keeps_core. Qed.
Lemma suspend_keeps sp k d f : keeps f (suspend_flow sp k d f).1.
Proof.
  unfold suspend_flow. set (f0 := f <| f_stream := false |>). destruct (suspend_keep k f0) eqn:E; cbn [negb].
  - assert (Hfd : f_fd f = true).
    { unfold suspend_keep in E. repeat (apply andb_true_iff in E as [E ?]). done. }
    split; [reflexivity|]. intros [S1 S2 S3 S4]. assert (f_phase f <> M_DEAD) by (intros H; specialize (S1 H); congruence). split; [|done]. constructor; [done|done|done|exact S4].
  - set (f1 := f0 <| f_phase := _ |> <| f_close_requested := _ |>). destruct (release_fields sp f1) as (R1 & R2 & R3 & R4 & R5). by apply keeps_dead.
Qed.
Lemma ack_keeps c f g : ident g = ident f -> f_pending_open g = f_pending_open f -> f_phase f <> M_DEAD -> keeps f (m_ack c g).
Proof. intros H1 H2 H3. apply keeps_live; try done; [|by right]. change (f_pending_open g = true -> f_pending_open f = true). congruence. Qed.
Lemma tcp_buffers_ident ok1 ok2 sp f : ident (m_tcp_buffers ok1 ok2 sp f).1.2 = ident f /\ f_pending_open (m_tcp_buffers ok1 ok2 sp f).1.2 = f_pending_open f.
Proof.
  unfold m_tcp_buffers. cbv zeta. set (f1 := f <| f_tx := _ |> <| f_rx := _ |>). destruct (_ && _); [done|].
  destruct (release_fields sp f1) as (R1 & _ & _ & R2 & _). by destruct (m_release_io sp f1).
Qed.
Lemma resume_open_keeps now f : f_phase f <> M_DEAD -> f_local f = true -> keeps f (resume_open now f).
Proof. intros H1 H2. apply keeps_live; try done. by left. Qed.
Lemma resume_ack_keeps now body f : f_phase f <> M_DEAD -> keeps f (resume_ack_done now body f).2.
Proof.
  intros H. unfold resume_ack_done. pose proof (resume_apply_core body f) as Hc. destruct (m_resume_apply body f) as [[] g]; cbn [snd] in *; [|by apply keeps_core].
  apply core_fields in Hc as (Hi & _ & _ & Hp & _). apply keeps_live; try done; [|by right]. change (f_pending_open g = true -> f_pending_open f = true). congruence.
Qed.
Lemma resume_done_keeps now body f old f' old' :
  f_phase f <> M_DEAD -> f_fd f = false -> (forall o, old = Some o -> f_phase o <> M_DEAD) -> resume_done now body f old = (f', old') ->
  keeps f f' /\ match old, old' with Some o, Some o' => keeps o o' | None, None => True | _, _ => False end.
Proof.
  intros Ha Hfd Ho. assert (Hr : forall c, keeps f (resume_refuse c f)) by (intros c; apply keeps_live; try done; by right). unfold resume_done.
  destruct old as [o|]; [|intros [<- <-]%pair_inj; done]. specialize (Ho o eq_refl). pose proof (keeps_refl o).
  destruct (resumable now o); [|by intros [<- <-]%pair_inj]. pose proof (resume_apply_core body o) as Hc.
  destruct (m_resume_apply body o) as [[] g]; cbn [snd] in Hc; intros [<- <-]%pair_inj; [|split; [done|by apply keeps_core]].
  split; [by apply keeps_dead|]. apply core_fields in Hc as (Hi & _ & _ & Hp & _). apply keeps_live; try done; [|by right].
  change (f_pending_open g = true -> f_pending_open o = true). congruence.
Qed.

(** ** The table *)

Section guard.
Context (sp : Z) (proof : session -> bool -> option (list Z)).

(** A proof of the other side was received and is the right one. *)
Definition verified (s : mpeer) : Prop :=
  exists x, x ∈ mp_received s /\ proof (session_of (mp_peer s)) (negb (is_server (mp_peer s))) = Some x.
(** The identifiers of the two sides differ in parity. *)
Definition id_ok (s : mpeer) (f : mflow) : Prop :=
  if f_local f then exists n, 1 <= n <= mp_next_id s /\ f_id f = 2 * n + b2z (negb (is_server (mp_peer s)))
  else f_id f <> 0 /\ Z.land (f_id f) 1 = b2z (is_server (mp_peer s)).
Record flow_ok (s : mpeer) (f : mflow) : Prop := {
  fo_sane : sane f;
  fo_id : data_flow f = true -> id_ok s f;
  fo_proof : f_proof f = true -> f_phase f <> M_DEAD -> f_proof_reply_ready f = true -> verified s }.
Record table_inv (s : mpeer) : Prop := {
  ti_keys : NoDup (map f_key (mp_flows s));
  ti_fresh : Forall (fun f => (f_key f < mp_next_key s)%nat) (mp_flows s);
  ti_next : 0 <= mp_next_id s <= UINT64_MAX / 2;
  ti_total : zlen (mp_flows s) <= 2 * limit_of s + 2;
  ti_count : m_data_flow_count s <= limit_of s;
  ti_ids : NoDup (map f_id (List.filter data_flow (mp_flows s)));
  ti_flows : Forall (flow_ok s) (mp_flows s) }.

(** What a step leaves of the rest: the session stays, the history grows, and a peer becomes ready
    only when a proof was verified. *)
Record mono (s s' : mpeer) : Prop := {
  mo_session : session_of (mp_peer s') = session_of (mp_peer s);
  mo_server : is_server (mp_peer s') = is_server (mp_peer s);
  mo_limit : max_flows (mp_peer s') = max_flows (mp_peer s);
  mo_detached : transport_detached (mp_peer s') = transport_detached (mp_peer s);
  mo_received : mp_received s ⊆ mp_received s';
  mo_next : mp_next_id s <= mp_next_id s';
  mo_ready : ready (mp_peer s') = true -> ready (mp_peer s) = true \/ verified s' }.
Lemma verified_mono s s' : mono s s' -> verified s -> verified s'.
Proof. intros [M1 M2 _ _ M4 _ _] (x & H1 & H2). exists x. split; [by apply M4|]. by rewrite M1, M2. Qed.
Lemma mono_refl s : mono s s.
Proof. constructor; try done. by left. Qed.
Lemma mono_trans s s1 s2 : mono s s1 -> mono s1 s2 -> mono s s2.
Proof.
  intros M N. pose proof (verified_mono _ _ N) as Hv. destruct M as [M1 M2 M3 M0 M4 M5 M6], N as [N1 N2 N3 N0 N4 N5 N6].
  constructor; [congruence..|by transitivity (mp_received s1)|lia|]. intros H. destruct (N6 H) as [H1|]; [|by right]. destruct (M6 H1); auto.
Qed.
Lemma flow_ok_mono s s' f : mono s s' -> flow_ok s f -> flow_ok s' f.
Proof.
  intros M [F1 F2 F3]. pose proof (verified_mono _ _ M) as Hv. destruct M as [_ M2 _ _ _ M5 _]. constructor; [done| |auto].
  intros Hd. specialize (F2 Hd). unfold id_ok in *. rewrite M2. destruct (f_local f); [|done]. destruct F2 as (n & ? & ?). exists n. split; [lia|done].
Qed.

Lemma keeps_data f f' : sane f -> keeps f f' -> data_flow f' = true -> data_flow f = true /\ f_id f' = f_id f.
Proof.
  intros Hs [K1 K2]. destruct (K2 Hs) as [_ K3]. destruct (ident_fields _ _ K1) as (_ & E2 & _ & E4 & E5 & _). unfold data_flow. rewrite E4, E5.
  destruct (f_proof f), (f_transient f); cbn [negb andb]; try done. rewrite !negb_true_iff, !bool_decide_eq_false. auto.
Qed.
Lemma keeps_flow_ok s s' f f' : mono s s' -> keeps f f' -> flow_ok s f -> flow_ok s' f'.
Proof.
  intros M Hk Hf. apply (flow_ok_mono _ _ _ M) in Hf as [F1 F2 F3]. pose proof (keeps_data f f' F1 Hk) as Hd. destruct Hk as [K1 K2].
  destruct (K2 F1) as [S1 S2]. destruct (ident_fields _ _ K1) as (_ & _ & E3 & E4 & _ & E6). constructor; [done| |].
  - intros H. destruct (Hd H) as [H1 H2]. specialize (F2 H1). unfold id_ok in *. by rewrite E3, H2.
  - rewrite E4, E6. auto.
Qed.

(** The flows evolve: some disappear, the others keep what identifies them. *)
Definition shrinks (l l' : list mflow) : Prop := exists k, k `sublist_of` l /\ Forall2 keeps k l'.
Lemma sublist_all {A} (P : A -> Prop) (k l : list A) : k `sublist_of` l -> Forall P l -> Forall P k.
Proof. induction 1 as [|x k l _ IH|x k l _ IH]; [done| |]; intros H; inversion_clear H; auto. Qed.
Lemma map_sublist {A B} (g : A -> B) (k l : list A) : k `sublist_of` l -> map g k `sublist_of` map g l.
Proof. induction 1; cbn; by constructor. Qed.
Lemma filter_sublist (k l : list mflow) : k `sublist_of` l -> map f_id (List.filter data_flow k) `sublist_of` map f_id (List.filter data_flow l).
Proof.
  induction 1 as [|f k l Hs IH|f k l Hs IH]; cbn; [done| |]; destruct (data_flow f); cbn; [by apply sublist_skip|done|by apply sublist_cons|done].
Qed.
Lemma keeps_sublist k l : Forall sane k -> Forall2 keeps k l -> map f_id (List.filter data_flow l) `sublist_of` map f_id (List.filter data_flow k).
Proof.
  intros Hs H. induction H as [|f f' k l Hk _ IH]; [done|]. inversion_clear Hs as [|? ? Hf Hs']. specialize (IH Hs'). cbn.
  destruct (data_flow f') eqn:E'; [|destruct (data_flow f); cbn; [by apply sublist_cons|done]].
  destruct (keeps_data f f' Hf Hk E') as [-> E]. cbn. rewrite E. by apply sublist_skip.
Qed.
Lemma shrinks_inv s s' :
  mono s s' -> mp_next_key s' = mp_next_key s -> mp_next_id s' = mp_next_id s -> shrinks (mp_flows s) (mp_flows s') -> table_inv s -> table_inv s'.
Proof.
  intros M Hk Hn (k & Hsub & Hkeep) [I1 I2 I3 I4 I5 I6 I7].
  assert (Hkeys : map f_key (mp_flows s') = map f_key k).
  { clear -Hkeep. induction Hkeep as [|f f' k l H _ IH]; [done|]. cbn. rewrite IH. f_equal. by destruct (ident_fields _ _ (k_ident _ _ H)) as (-> & _). }
  assert (Hok : Forall (flow_ok s) k) by (by eapply sublist_all).
  assert (Hsane : Forall sane k) by (eapply Forall_impl; [apply fo_sane|exact Hok]).
  pose proof (sublist_length _ _ Hsub) as L1. pose proof (Forall2_length Hkeep) as L2.
  assert (Hids : map f_id (List.filter data_flow (mp_flows s')) `sublist_of` map f_id (List.filter data_flow (mp_flows s))).
  { transitivity (map f_id (List.filter data_flow k)); [by apply keeps_sublist|by apply filter_sublist]. }
  constructor.
  - rewrite Hkeys. eapply sublist_NoDup; [exact I1|by apply map_sublist].
  - rewrite Hk. apply (Forall_fmap f_key (fun n => (n < mp_next_key s)%nat)). change (f_key <$> mp_flows s') with (map f_key (mp_flows s')).
    rewrite Hkeys. apply (Forall_fmap f_key (fun n => (n < mp_next_key s)%nat)). by eapply sublist_all.
  - by rewrite Hn.
  - unfold limit_of in *. rewrite (mo_limit _ _ M). unfold zlen in *. lia.
  - unfold limit_of, m_data_flow_count in *. rewrite (mo_limit _ _ M). apply sublist_length in Hids. rewrite !length_map in Hids. unfold zlen in *. lia.
  - by eapply sublist_NoDup.
  - clear -M Hkeep Hok. induction Hkeep as [|f f' k l Hf _ IH]; [constructor|]. inversion_clear Hok as [|? ? Hof Hrest].
    constructor; [by apply (keeps_flow_ok s s' f)|by apply IH].
Qed.

(** ** Steps *)

Definition step (s s' : mpeer) : Prop := table_inv s -> table_inv s' /\ mono s s'.
Lemma step_refl s : step s s.
Proof. intros H. split; [done|apply mono_refl]. Qed.
Lemma step_trans s s1 s2 : step s s1 -> step s1 s2 -> step s s2.
Proof. intros H1 H2 I. destruct (H1 I) as [I1 M1]. destruct (H2 I1) as [I2 M2]. split; [done|by eapply mono_trans]. Qed.

(** A change of anything the invariant does not look at. *)
Definition view (s : mpeer) := (mp_peer s, mp_flows s, mp_next_id s, mp_next_key s, mp_received s).
Lemma step_view s s' : view s' = view s -> step s s'.
Proof.
  unfold view. intros [= E1 E2 E3 E4 E5] I. assert (M : mono s s') by (constructor; rewrite ?E1, ?E3, ?E5; try done; by left).
  split; [|done]. apply (shrinks_inv s); try done. rewrite E2. exists (mp_flows s). split; [done|]. apply Forall2_same_length_lookup_2; [done|].
  intros i x y H1 H2. assert (x = y) as <- by congruence. apply keeps_refl.
Qed.
(** A change of the peer that cannot make it ready. *)
Record peer_keeps (p p' : ob_remote_peer) : Prop := {
  pk_session : session_of p' = session_of p; pk_server : is_server p' = is_server p; pk_limit : max_flows p' = max_flows p;
  pk_detached : transport_detached p' = transport_detached p;
  pk_ready : ready p' = true -> ready p = true }.
Lemma peer_keeps_refl p : peer_keeps p p.
Proof. by constructor. Qed.
Lemma peer_keeps_trans p q r : peer_keeps p q -> peer_keeps q r -> peer_keeps p r.
Proof. intros [A1 A2 A3 A4 A5] [B1 B2 B3 B4 B5]. constructor; [congruence..|auto]. Qed.
Lemma fail_keeps p c m : peer_keeps p (ob_peer_fail_locked p c m).
Proof.
  unfold ob_peer_fail_locked. destruct (bool_decide _); [apply peer_keeps_refl|]. destruct (truth (result p)); [by constructor|].
  destruct (_ || _); by constructor.
Qed.
Lemma transport_fail_keeps t1 t2 p c m : peer_keeps p (ob_peer_transport_fail_locked t1 t2 p c m).
Proof.
  unfold ob_peer_transport_fail_locked. destruct (stop p); [apply peer_keeps_refl|]. destruct (negb (managed p)); [apply fail_keeps|]. cbv zeta.
  destruct (truth (attempt_result p)), (truth (outage_us _)), (ever_ready _ && _); by constructor.
Qed.
Lemma m_fail_keeps t1 t2 p c m : peer_keeps p (m_fail t1 t2 p c m).
Proof. unfold m_fail. destruct (_ || _); [apply transport_fail_keeps|apply fail_keeps]. Qed.
Lemma peer_fx_keeps t1 t2 fx p : peer_keeps p (fold_left (peer_fx t1 t2) fx p).
Proof.
  revert p. induction fx as [|e fx IH]; intros p; [apply peer_keeps_refl|]. cbn [fold_left]. eapply peer_keeps_trans; [|apply IH].
  destruct e; cbn [peer_fx]; try apply peer_keeps_refl; [apply m_fail_keeps|apply transport_fail_keeps].
Qed.

Lemma keeps_each (l : list mflow) : Forall2 keeps l l.
Proof. induction l; constructor; [apply keeps_refl|done]. Qed.
Lemma step_peer s p : peer_keeps (mp_peer s) p -> step s (s <| mp_peer := p |>).
Proof.
  intros [P1 P2 P3 P4 P5] I. assert (M : mono s (s <| mp_peer := p |>)) by (constructor; try done; intros H; left; by apply P5).
  split; [|done]. apply (shrinks_inv s); try done. exists (mp_flows s). split; [done|apply keeps_each].
Qed.
Lemma get_flow_key k s f : get_flow k s = Some f -> f_key f = k /\ f ∈ mp_flows s.
Proof.
  unfold get_flow, flow_is. intros H. apply List.find_some in H as [H1 H2]. apply Nat.eqb_eq in H2. split; [done|]. by apply list_elem_of_In.
Qed.
Lemma put_keeps l k f f' : NoDup (map f_key l) -> List.find (flow_is k) l = Some f -> keeps f f' ->
  Forall2 keeps l (map (fun g => if flow_is (f_key f') g then f' else g) l).
Proof.
  intros Hnd Hf Hk. destruct (ident_fields _ _ (k_ident _ _ Hk)) as (Ek & _). induction l as [|g l IH]; [done|]. cbn in *.
  inversion_clear Hnd as [|? ? Hg Hnd']. rename Hnd' into Hnd. destruct (flow_is k g) eqn:Eg.
  - injection Hf as ->. unfold flow_is. rewrite Ek, Nat.eqb_refl. constructor; [done|].
    assert (Hmap : map (fun g => if Nat.eqb (f_key g) (f_key f) then f' else g) l = l).
    { clear -Hg. induction l as [|h l IH]; [done|]. cbn in *. rewrite IH by (intros H; by apply Hg; right).
      destruct (Nat.eqb_spec (f_key h) (f_key f)) as [E|]; [|done]. destruct Hg. rewrite E. left. }
    rewrite Hmap. apply keeps_each.
  - assert (Hkk : f_key f = k) by (apply List.find_some in Hf as [_ Hf]; by apply Nat.eqb_eq in Hf).
    unfold flow_is in Eg |- *. rewrite Ek, Hkk, Eg. constructor; [apply keeps_refl|]. specialize (IH Hnd Hf). unfold flow_is in IH. by rewrite Ek, Hkk in IH.
Qed.
Lemma step_put s k f f' : get_flow k s = Some f -> keeps f f' -> step s (put_flow f' s).
Proof.
  intros Hg Hk I. assert (M : mono s (put_flow f' s)) by (constructor; try done; by left). split; [|done].
  apply (shrinks_inv s); try done. exists (mp_flows s). split; [done|]. by apply (put_keeps _ k f); [apply I|..].
Qed.
Lemma step_del s k : step s (del_flow k s).
Proof.
  intros I. assert (M : mono s (del_flow k s)) by (constructor; try done; by left). split; [|done]. apply (shrinks_inv s); try done.
  exists (mp_flows (del_flow k s)). split; [|apply keeps_each]. cbn. induction (mp_flows s) as [|f l IH]; [done|]. cbn.
  destruct (negb _); by constructor.
Qed.

Lemma get_put k s f f' : get_flow k s = Some f -> f_key f' = k -> get_flow k (put_flow f' s) = Some f'.
Proof.
  unfold get_flow, flow_is. cbn. intros Hg Hk. induction (mp_flows s) as [|g l IH]; [done|]. cbn in *. unfold flow_is. rewrite Hk in *.
  destruct (Nat.eqb (f_key g) k) eqn:E; [by rewrite Hk, Nat.eqb_refl|]. rewrite E. by apply IH.
Qed.
Lemma in_get s f : table_inv s -> f ∈ mp_flows s -> get_flow (f_key f) s = Some f.
Proof.
  intros [Hnd _ _ _ _ _ _] Hf. unfold get_flow, flow_is. induction (mp_flows s) as [|g l IH]; [by apply not_elem_of_nil in Hf|]. cbn in *.
  inversion_clear Hnd as [|? ? Hg Hnd']. apply elem_of_cons in Hf as [->|Hf]; [by rewrite Nat.eqb_refl|].
  destruct (Nat.eqb_spec (f_key g) (f_key f)) as [E|]; [|by apply IH]. destruct Hg. rewrite E. apply list_elem_of_In, in_map, list_elem_of_In, Hf.
Qed.
Lemma step_put_in s f f' : f ∈ mp_flows s -> keeps f f' -> step s (put_flow f' s).
Proof. intros Hf Hk I. by apply (step_put s (f_key f) f f' (in_get s f I Hf)). Qed.

Lemma get_other k s s' : mp_flows s' = mp_flows s -> get_flow k s' = get_flow k s.
Proof. unfold get_flow. by intros ->. Qed.
Lemma step_commit t1 t2 s k f g r : get_flow k s = Some f -> keeps f r.1 -> step s (commit t1 t2 g r s).
Proof.
  intros Hg Hk. destruct r as [f' fx]. unfold commit. cbn [fst] in Hk. match goal with |- context [put_flow f' ?x] => set (s1 := x) end.
  assert (H1 : step s s1 /\ mp_flows s1 = mp_flows s) by (unfold s1; destruct (_ && _); [split; [by apply step_view|done]|split; [apply step_refl|done]]).
  clearbody s1. destruct H1 as [H1 Hfl]. rewrite <- (get_other k _ _ Hfl) in Hg.
  eapply step_trans; [exact H1|]. eapply step_trans; [by apply (step_put s1 k f f')|]. apply step_peer. apply peer_fx_keeps.
Qed.
Lemma step_abort_core s k f g : get_flow k s = Some f -> core g = core f -> step s (abort_flow sp g s).
Proof. intros Hg Hc. by apply (step_commit _ _ s k f); [|apply abort_core]. Qed.
Lemma step_abort s k f : get_flow k s = Some f -> step s (abort_flow sp f s).
Proof. intros Hg. by apply (step_abort_core s k f). Qed.
Lemma step_fail t1 t2 c m s : step s (fail_peer t1 t2 c m s).
Proof. apply step_peer, m_fail_keeps. Qed.
Lemma step_fail_transport t1 t2 c m s : step s (fail_transport t1 t2 c m s).
Proof. apply step_peer, transport_fail_keeps. Qed.
(** Freeing takes the flow out, whatever was stored under its key. *)
Lemma free_flows f s : mp_flows (m_flow_free sp f s) = mp_flows (del_flow (f_key f) s).
Proof.
  unfold m_flow_free, commit. destruct (release_fields sp f) as (R1 & _). destruct (m_release_io sp f) as [g fx]. cbn [fst] in R1.
  destruct (ident_fields _ _ R1) as (Hk & _). cbn. assert (Hf : mp_flows (if f_resolve f && negb (f_resolve g) then detach_job (f_key f) s else s) = mp_flows s) by (by destruct (_ && _)).
  rewrite Hf. clear Hf. induction (mp_flows s) as [|h l IH]; [done|]. cbn. rewrite IH. unfold flow_is in *. rewrite Hk.
  destruct (Nat.eqb (f_key h) (f_key f)) eqn:E; rewrite ?E, ?Hk, ?Nat.eqb_refl; done.
Qed.
Lemma step_free f s : step s (m_flow_free sp f s).
Proof.
  intros I. destruct (step_del s (f_key f) I) as [I1 _].
  assert (Hp : peer_keeps (mp_peer s) (mp_peer (m_flow_free sp f s)) /\ mp_next_id (m_flow_free sp f s) = mp_next_id s /\
    mp_next_key (m_flow_free sp f s) = mp_next_key s /\ mp_received (m_flow_free sp f s) = mp_received s).
  { unfold m_flow_free, commit. destruct (m_release_io sp f) as [g fx]. cbn. destruct (_ && _); (split; [apply peer_fx_keeps|done]). }
  destruct Hp as ([P1 P2 P3 P0 P4] & Hn & Hk & Hr).
  assert (M : mono s (m_flow_free sp f s)) by (constructor; rewrite ?Hn, ?Hr; try done; intros H; left; by apply P4).
  split; [|done]. apply (shrinks_inv s); try done. rewrite free_flows. exists (mp_flows (del_flow (f_key f) s)). split; [|apply keeps_each].
  cbn. induction (mp_flows s) as [|h l IH]; [done|]. cbn. destruct (negb _); by constructor.
Qed.

(** ** New flows *)

Definition added (f : mflow) (s : mpeer) : mpeer := s <| mp_flows ::= cons f |> <| mp_next_key ::= S |>.
Lemma step_add s f :
  f_key f = mp_next_key s -> flow_ok s f -> zlen (mp_flows s) < 2 * limit_of s + 2 ->
  (data_flow f = true -> m_data_flow_count s < limit_of s /\ forall g, g ∈ mp_flows s -> data_flow g = true -> f_id g <> f_id f) ->
  step s (added f s).
Proof.
  intros Hk Hf Hlen Hd [I1 I2 I3 I4 I5 I6 I7]. assert (M : mono s (added f s)) by (constructor; try done; by left). split; [|done]. constructor; try done.
  - cbn. constructor; [|done]. rewrite Hk. intros H. apply list_elem_of_In, in_map_iff in H as (g & Hg & Hin).
    rewrite Forall_forall in I2. specialize (I2 g Hin). cbn in I2. lia.
  - cbn. constructor; [lia|]. eapply Forall_impl; [|exact I2]. cbn. lia.
  - change (zlen (f :: mp_flows s) <= 2 * limit_of s + 2). rewrite zlen_cons. lia.
  - change (zlen (List.filter data_flow (f :: mp_flows s)) <= limit_of s). cbn [List.filter]. unfold m_data_flow_count in *.
    destruct (data_flow f) eqn:E; [|done]. rewrite zlen_cons. destruct (Hd eq_refl). lia.
  - cbn. destruct (data_flow f) eqn:E; [|done]. destruct (Hd eq_refl) as [_ Hid]. cbn. constructor; [|done].
    intros H. apply list_elem_of_In, in_map_iff in H as (g & Hg & Hin). apply filter_In in Hin as [Hin Hdg]. apply list_elem_of_In in Hin. by apply (Hid g).
  - cbn [mp_flows added]. constructor; [by apply (flow_ok_mono s)|]. eapply Forall_impl; [|exact I7]. intros g. by apply flow_ok_mono.
Qed.
(** The flow [m_flow_new] returned is stored with the fields its caller set. *)
Lemma put_added s z f : table_inv s -> f_key z = mp_next_key s -> f_key f = mp_next_key s -> put_flow f (added z s) = added f s.
Proof.
  intros I Hz Hf. unfold put_flow, added. cbn. unfold flow_is. rewrite Hz, Hf, Nat.eqb_refl.
  assert (map (fun g => if Nat.eqb (f_key g) (mp_next_key s) then f else g) (mp_flows s) = mp_flows s) as ->; [|done].
  pose proof (ti_fresh _ I) as Hfr. induction Hfr as [|g l Hg _ IH]; [done|]. cbn. rewrite IH. destruct (Nat.eqb_spec (f_key g) (mp_next_key s)); [lia|done].
Qed.

Lemma flow_new_spec ok now s f s' : m_flow_new ok now s = Some (f, s') ->
  exists s0, view s0 = view s /\ f = zero_flow (mp_next_key s) now /\ s' = added f s0 /\ zlen (mp_flows s) < 2 * limit_of s + 2.
Proof.
  unfold m_flow_new. destruct (_ <=? _) eqn:E; [done|]. apply Z.leb_gt in E. unfold m_state_get.
  destruct (mp_private s); [|destruct ok; [|done]].
  - destruct ok; [|done]. intros [<- <-]%some_pair_inj. by exists s.
  - intros [<- <-]%some_pair_inj. by exists (s <| mp_private := true |>).
Qed.
Lemma step_state ok s s' : m_state_get ok s = Some s' -> step s s' /\ view s' = view s.
Proof.
  unfold m_state_get. destruct (mp_private s); [intros [= <-]; split; [apply step_refl|done]|]. destruct ok; [|done]. intros [= <-]. split; [by apply step_view|done].
Qed.

(** ** Callbacks *)

Lemma step_create ok bidi sid now t1 t2 s : step s (m_create ok bidi sid now t1 t2 s).
Proof.
  unfold m_create. destruct (_ || _); [apply step_refl|]. cbv zeta. destruct (_ || _); [destruct (negb _); [apply step_fail|apply step_refl]|].
  destruct (m_state_get ok s) as [s1|] eqn:E1; [|apply step_refl]. apply step_state in E1 as [H1 V1]. destruct (_ && _); [exact H1|].
  destruct (m_flow_new ok now s1) as [[f s2]|] eqn:E2; [|exact H1]. apply flow_new_spec in E2 as (s0 & V & -> & -> & Hlen).
  eapply step_trans; [exact H1|]. eapply step_trans; [apply (step_view s1 s0), V|].
  unfold view in V. injection V as W1 W2 W3 W4 W5. match goal with |- context [put_flow ?g _] => set (f := g) end.
  assert (Hadd : step s0 (put_flow f (added (zero_flow (mp_next_key s1) now) s0))).
  { intros I. rewrite put_added by done. apply step_add; [by rewrite W4| | |by unfold data_flow; cbn; destruct (ready _)|done].
    - constructor; [constructor; try done; cbn; by destruct (ready _)|unfold data_flow; cbn; by destruct (ready _)|done].
    - unfold limit_of in *. by rewrite W1, W2. }
  destruct (negb (ready (mp_peer s))); [|exact Hadd]. eapply step_trans; [exact Hadd|by apply step_view].
Qed.
Lemma step_close k t1 t2 s : step s (m_close k t1 t2 s).
Proof.
  unfold m_close. destruct (get_flow k s) as [f|] eqn:E; [|apply step_refl]. destruct (_ || _); [apply step_refl|]. cbv zeta.
  pose proof (get_flow_key _ _ _ E) as [Hk _]. set (f1 := f <| f_stream := false |>).
  assert (S1 : step s (put_flow f1 s)) by (apply (step_put s k f); [done|by apply keeps_core]).
  assert (G1 : get_flow k (put_flow f1 s) = Some f1) by (by apply (get_put k s f)).
  destruct (_ || _); [exact S1|].
  match goal with |- step s (if _ then ?x else _) => set (s2 := x) end.
  assert (S2 : step s s2 /\ get_flow k s2 = Some f1).
  { unfold s2. destruct (_ && _); [|done]. split; [eapply step_trans; [exact S1|apply step_fail]|]. by rewrite (get_other k (put_flow f1 s)). }
  clearbody s2. destruct S2 as [S2 G2]. destruct (_ && _); [exact S2|]. eapply step_trans; [exact S2|]. apply (step_put s2 k f1); [done|by apply keeps_core].
Qed.
Lemma step_reset k t1 t2 s : step s (m_reset k t1 t2 s).
Proof.
  unfold m_reset. destruct (get_flow k s) as [f|] eqn:E; [|apply step_refl]. destruct (_ || _); [apply step_refl|]. cbv zeta.
  match goal with |- step s (put_flow _ ?x) => set (s2 := x) end.
  assert (S2 : step s s2 /\ get_flow k s2 = Some f).
  { unfold s2. destruct (_ && _); [|split; [apply step_refl|done]]. split; [apply step_fail|done]. }
  destruct S2 as [S2 G2]. eapply step_trans; [exact S2|]. apply (step_put s2 k f); [done|by apply keeps_core].
Qed.
Lemma find_in id s f : m_find id s = Some f -> f ∈ mp_flows s /\ data_flow f = true /\ f_id f = id.
Proof.
  unfold m_find. intros H. apply List.find_some in H as [H1 H2]. apply andb_true_iff in H2 as [H2 H3]. apply Z.eqb_eq in H3.
  split; [by apply list_elem_of_In|done].
Qed.
Lemma find_none id s g : m_find id s = None -> g ∈ mp_flows s -> data_flow g = true -> f_id g <> id.
Proof.
  unfold m_find. intros H Hg Hd. apply list_elem_of_In in Hg. pose proof (List.find_none _ _ H g Hg) as Hn. cbn in Hn. rewrite Hd in Hn. by apply Z.eqb_neq.
Qed.
Lemma step_datagram v ok now sent s : step s (udp_datagram v ok now sent s).
Proof.
  unfold udp_datagram. cbv zeta. match goal with |- step s (match ?x with _ => _ end) => destruct x as [g|]; [|apply step_refl] end.
  destruct (m_find _ s) as [f|] eqn:E; [|apply step_refl]. apply find_in in E as (Hf & _). apply (step_put_in s f); [done|apply udp_put_keeps].
Qed.
Lemma step_callback s cb : step s (on_callback s cb).
Proof.
  destruct cb; cbn [on_callback]; [apply step_create|apply step_close|apply step_reset|apply step_datagram| |].
  - destruct (negb _); [apply step_refl|]. eapply step_trans; [by apply (step_view s (s <| mp_conn := false |>))|].
    cbv zeta. destruct (_ || _); [apply step_refl|apply step_fail_transport].
  - destruct (_ && _); [apply step_fail_transport|apply step_refl].
Qed.
Lemma step_callbacks cbs s : step s (callbacks cbs s).
Proof. unfold callbacks. revert s. induction cbs as [|cb cbs IH]; intros s; [apply step_refl|]. cbn [fold_left]. eapply step_trans; [apply step_callback|apply IH]. Qed.

(** ** Retained flows get streams *)

Lemma step_flush_open a k f s : get_flow k s = Some f -> step s (flush_open sp a f s).
Proof. intros Hg. unfold flush_open. eapply step_trans; [|apply step_callbacks]. apply (step_commit _ _ s k f); [done|apply reply_flush_keeps]. Qed.
Lemma stream_open_keeps created f s : core (m_stream_open created f s).2 = core f.
Proof. unfold m_stream_open. by destruct (_ || _). Qed.
(** A flow [g] that [f] may become is stored, and then flushed. *)
Lemma step_open a k f g s ok h : get_flow k s = Some f -> keeps f g -> m_stream_open (oa_created a) g s = (ok, h) ->
  step s (if ok then (true, flush_open sp a h (put_flow h s)) else (false, put_flow h s)).2.
Proof.
  intros Hg Hk Ho. pose proof (stream_open_keeps (oa_created a) g s) as Hc. rewrite Ho in Hc. cbn [snd] in Hc.
  assert (Hh : keeps f h) by (eapply keeps_trans; [exact Hk|by apply keeps_core]).
  assert (S1 : step s (put_flow h s)) by (by apply (step_put s k f)).
  destruct ok; [|exact S1]. cbn [snd]. eapply step_trans; [exact S1|]. apply (step_flush_open a k).
  apply (get_put k s f); [done|]. destruct (ident_fields _ _ (k_ident _ _ Hh)) as (-> & _). by apply (get_flow_key k s).
Qed.
Lemma step_pending_open a k f s : get_flow k s = Some f -> f_phase f <> M_DEAD -> f_local f = true -> step s (m_pending_open sp a f s).2.
Proof.
  intros Hg Ha Hl. unfold m_pending_open. destruct (f_map f ≫= _) as [m|]; [|apply step_refl]. destruct (rm_closed m); [apply step_refl|]. cbv zeta.
  match goal with |- context [m_stream_open _ ?x s] => set (g := x) end.
  destruct (m_stream_open (oa_created a) g s) as [ok h] eqn:E. apply (step_open a k f g); [done| |done]. apply keeps_live; try done. by left.
Qed.
Lemma step_resume_open a k f s : get_flow k s = Some f -> f_phase f <> M_DEAD -> f_local f = true -> step s (m_resume_open sp a f s).2.
Proof.
  intros Hg Ha Hl. unfold m_resume_open. destruct (m_stream_open (oa_created a) (resume_open (oa_now a) f) s) as [ok h] eqn:E.
  apply (step_open a k f (resume_open (oa_now a) f)); [done|by apply resume_open_keeps|done].
Qed.
Lemma flow_in_ok k s f : table_inv s -> get_flow k s = Some f -> flow_ok s f.
Proof. intros I Hg. apply get_flow_key in Hg as [_ Hin]. apply list_elem_of_In in Hin. pose proof (ti_flows _ I) as H. rewrite Forall_forall in H. by apply H. Qed.
Lemma step_ready_flow now a wire resume k f s : get_flow k s = Some f -> step s (ready_flow sp now a wire resume f s).2.
Proof.
  intros Hg I. pose proof (flow_in_ok k s f I Hg) as [[S1 S2 S3 S4] _ _]. revert I. change (step s (ready_flow sp now a wire resume f s).2).
  unfold ready_flow. destruct (_ || _ || _) eqn:E; [apply step_refl|]. apply orb_false_iff in E as [E Ha]. apply bool_decide_eq_false in Ha. clear E.
  destruct (_ || _); [by apply (step_abort s k)|]. cbv zeta.
  assert (Hrep : forall r m, step s r.2 -> step s (true, if r.1 : bool then r.2 else fail_transport (oa_t1 a) (oa_t2 a) OB_REMOTE_EQUIC m r.2).2).
  { intros [[] s'] m H; [exact H|]. cbn [fst snd] in *. eapply step_trans; [exact H|apply step_fail_transport]. }
  destruct (f_pending_open f) eqn:Ep; [apply Hrep, (step_pending_open a k); auto|]. destruct (_ || _); [by apply (step_abort s k)|].
  destruct (f_local f) eqn:El; [apply Hrep, (step_resume_open a k); auto|apply step_refl].
Qed.
Lemma step_ready_flows now ans wire resume ks s : step s (ready_flows sp now ans wire resume ks s).
Proof.
  revert s. induction ks as [|k ks IH]; intros s; [apply step_refl|]. cbn [ready_flows]. destruct (get_flow k s) as [f|] eqn:E; [|apply IH].
  pose proof (step_ready_flow now (ans k) wire resume k f s E) as H. destruct (ready_flow sp now (ans k) wire resume f s) as [test s1]. cbn [snd] in H.
  destruct (_ && _); [exact H|]. eapply step_trans; [exact H|apply IH].
Qed.
(** A peer whose counterpart was verified may become ready. *)
Lemma step_mark_ready now ans s : verified s -> step s (mark_ready sp now ans s).
Proof.
  intros Hv. unfold mark_ready. destruct (_ || _) eqn:E; [apply step_refl|]. cbv zeta. set (q := mp_peer s <| proof_ready := true |> <| ready := true |>).
  assert (S1 : step s (s <| mp_peer := q |>)).
  { intros I. assert (M : mono s (s <| mp_peer := q |>)) by (constructor; try done; by right). split; [|done].
    apply (shrinks_inv s); try done. exists (mp_flows s). split; [done|apply keeps_each]. }
  eapply step_trans; [exact S1|]. set (h := ob_mapping_transport_ready _ _ _ _ _ _).
  assert (S2 : step (s <| mp_peer := q |>) h) by apply step_ready_flows. clearbody h. eapply step_trans; [exact S2|]. apply step_peer.
  unfold ob_peer_mark_ready. rewrite E. clear E. cbv zeta. destruct (stop (mp_peer h) || _); [apply peer_keeps_refl|].
  destruct (_ && _); (destruct (ever_ready _); by constructor).
Qed.

(** ** Control frames *)

Lemma find_split (l : list mflow) k f : NoDup (map f_key l) -> List.find (flow_is k) l = Some f ->
  exists l1 l2, l = l1 ++ f :: l2 /\ forall f', f_key f' = k -> map (fun g => if flow_is (f_key f') g then f' else g) l = l1 ++ f' :: l2.
Proof.
  intros Hnd Hf. induction l as [|g l IH]; [done|]. cbn in *. inversion_clear Hnd as [|? ? Hg Hnd']. destruct (flow_is k g) eqn:E.
  - injection Hf as ->. exists [], l. split; [done|]. intros f' Hk. rewrite Hk, E. cbn. f_equal. apply Nat.eqb_eq in E. rewrite E in Hg.
    clear -Hg. induction l as [|h l IH]; [done|]. cbn in *. rewrite IH by (intros H; by apply Hg; right). unfold flow_is.
    destruct (Nat.eqb_spec (f_key h) k) as [E|]; [|done]. destruct Hg. rewrite E. left.
  - destruct (IH Hnd' Hf) as (l1 & l2 & -> & Hp). exists (g :: l1), l2. split; [done|]. intros f' Hk. cbn. rewrite Hk, E. rewrite <- Hk. by rewrite Hp.
Qed.
(** A flow is replaced by one with another identifier. *)
Lemma step_replace s k f f' :
  get_flow k s = Some f -> f_key f' = k -> flow_ok s f' ->
  (data_flow f' = true -> (data_flow f = true /\ f_id f' = f_id f) \/
     ((data_flow f = false -> m_data_flow_count s < limit_of s) /\ forall g, g ∈ mp_flows s -> data_flow g = true -> f_id g <> f_id f')) ->
  step s (put_flow f' s).
Proof.
  intros Hg Hk Hf' Hd I. assert (M : mono s (put_flow f' s)) by (constructor; try done; by left). split; [|done].
  pose proof I as [I1 I2 I3 I4 I5 I6 I7]. destruct (find_split _ _ _ I1 Hg) as (l1 & l2 & El & Ep). specialize (Ep f' Hk).
  assert (Hkf : f_key f = k) by (by apply (get_flow_key k s)).
  assert (Hfl : mp_flows (put_flow f' s) = l1 ++ f' :: l2) by exact Ep. rewrite El in *.
  constructor.
  - rewrite Hfl, map_app. cbn. rewrite Hk, <- Hkf. by rewrite map_app in I1.
  - rewrite Hfl. apply Forall_app in I2 as [J1 J2]. inversion_clear J2 as [|? ? J3 J4]. apply Forall_app. split; [done|]. constructor; [|done].
    cbn in *. lia.
  - done.
  - change (limit_of (put_flow f' s)) with (limit_of s). rewrite Hfl. rewrite zlen_app, zlen_cons in *. lia.
  - unfold m_data_flow_count in *. change (limit_of (put_flow f' s)) with (limit_of s). rewrite Hfl. clear Hfl Ep I6.
    rewrite El, List.filter_app, zlen_app in I5, Hd. rewrite List.filter_app, zlen_app. cbn [List.filter] in *.
    destruct (data_flow f') eqn:E', (data_flow f) eqn:E; rewrite ?zlen_cons in *; lia.
  - rewrite Hfl. rewrite List.filter_app, map_app in *. cbn in *. 
    assert (Hrest : NoDup (map f_id (List.filter data_flow l1) ++ map f_id (List.filter data_flow l2))).
    { eapply sublist_NoDup; [exact I6|]. apply sublist_app; [done|]. destruct (data_flow f); [by apply sublist_cons|done]. }
    destruct (data_flow f') eqn:E'; [|done]. cbn. destruct (Hd eq_refl) as [[E Hid]|[_ Hid]]; [rewrite E in I6; cbn in I6; by rewrite Hid|].
    rewrite <- Permutation_middle. constructor; [|done]. intros H. rewrite <- map_app, <- List.filter_app in H.
    apply list_elem_of_In, in_map_iff in H as (g & Hgi & Hin). apply filter_In in Hin as [Hin Hdg]. apply (Hid g); [|done|done].
    apply list_elem_of_In. apply in_app_iff in Hin as [|]; apply in_app_iff; [by left|by right; right].
  - rewrite Hfl. assert (Hall : Forall (flow_ok (put_flow f' s)) (l1 ++ f :: l2)) by (eapply Forall_impl; [|exact I7]; intros g; by apply flow_ok_mono).
    apply Forall_app in Hall as [J1 J2]. inversion_clear J2 as [|? ? J3 J4]. apply Forall_app. split; [done|]. constructor; [|done]. by apply (flow_ok_mono s).
Qed.

Lemma keeps_need n f g : core g = core f -> f_local f = true \/ f_proof f = true -> keeps f (g <| f_control_need := n |>).
Proof.
  intros (E1 & E2 & E3 & E4 & E5)%core_fields H. split; [exact E1|]. destruct (ident_fields _ _ E1) as (_ & _ & L & P & T & _).
  intros [S1 S2 S3 S4]. split; [|intros H'; change (f_phase g = M_DEAD); congruence]. constructor.
  - change (f_phase g = M_DEAD -> f_fd g = false). rewrite E2, E3. exact S1.
  - change (f_local g = false -> f_phase g = M_CONTROL -> f_fd g = false). rewrite L, E2, E3. done.
  - change (f_local g = false -> f_proof g = false -> f_phase g = M_CONTROL -> n = M_HEADER -> f_transient g = true). rewrite L, P. destruct H; congruence.
  - change (f_pending_open g = true -> f_local g = true). rewrite E4, L. done.
Qed.
Lemma land_1 n : Z.land n 1 = n mod 2.
Proof. change 1 with (Z.ones 1). rewrite Z.land_ones by lia. done. Qed.
(** A header that is accepted: the flow may get an identifier, and become a data flow. *)
Lemma step_header k f g h s :
  get_flow k s = Some f -> core g = core f -> f_phase f = M_CONTROL -> f_control_need f = M_HEADER -> m_header_check g s = Some h -> step s (put_flow h s).
Proof.
  intros Hg Hc Hph Hn. pose proof (core_fields _ _ Hc) as (E1 & E2 & E3 & E4 & E5). destruct (ident_fields _ _ E1) as (K & _ & L & P & T & R).
  destruct (get_flow_key _ _ _ Hg) as [Hk Hin]. unfold m_header_check. cbv zeta. destruct (_ || _); [done|].
  destruct (f_proof g) eqn:Ep; [destruct (_ || _); [done|]; intros [= <-]; apply (step_put s k f); [done|apply keeps_need; [done|right; congruence]]|].
  destruct (f_local g) eqn:El; [destruct (_ || _); [done|]; intros [= <-]; apply (step_put s k f); [done|apply keeps_need; [done|left; congruence]]|].
  destruct (negb (ready (mp_peer s)) || _ || _ || _ || _) eqn:Eh; [done|]. apply orb_false_iff in Eh as [_ Esz]. apply Z.ltb_ge in Esz.
  destruct (_ || _) eqn:Ei in |- *; [done|]. apply orb_false_iff in Ei as [Ez Epar]. apply Z.eqb_neq in Ez. apply negb_false_iff, Z.eqb_eq in Epar.
  assert (Hsane : sane f -> forall t i pr wv, sane (g <| f_transient := t |> <| f_id := i |> <| f_protocol := pr |> <| f_wire_version := wv |>
      <| f_control_need := M_HEADER + m_u16 (f_control g) 6 |>)).
  { intros [S1 S2 S3 S4] t i pr wv. constructor.
    - change (f_phase g = M_DEAD -> f_fd g = false). rewrite E2, E3. exact S1.
    - change (f_local g = false -> f_phase g = M_CONTROL -> f_fd g = false). rewrite E3. intros _ _. apply S2; congruence.
    - intros _ _ _. change (M_HEADER + m_u16 (f_control g) 6 = M_HEADER -> t = true). lia.
    - change (f_pending_open g = true -> f_local g = true). rewrite E4. intros Hp. specialize (S4 Hp). congruence. }
  assert (Hst : forall t i pr wv,
    (negb t = true -> id_ok s (f <| f_id := i |>) /\ (forall g, g ∈ mp_flows s -> data_flow g = true -> f_id g <> i) /\ m_data_flow_count s < limit_of s) ->
    step s (put_flow (g <| f_transient := t |> <| f_id := i |> <| f_protocol := pr |> <| f_wire_version := wv |>
      <| f_control_need := M_HEADER + m_u16 (f_control g) 6 |>) s)).
  { intros t i pr wv Ht I. pose proof (flow_in_ok k s f I Hg) as [Fs Fd Fp]. revert I. apply (step_replace s k f); [done|by change (f_key g = k); congruence| |].
    - constructor; [by apply Hsane| |change (f_proof g = true -> f_phase g <> M_DEAD -> f_proof_reply_ready g = true -> verified s); congruence].
      unfold data_flow. cbn. rewrite Ep. cbn. intros [Hnt _]%andb_true_iff. destruct (Ht Hnt) as (Hi & _). unfold id_ok in *. cbn in *. rewrite <- L in Hi. by rewrite El.
    - unfold data_flow at 1. cbn. rewrite Ep. cbn. intros [Hnt _]%andb_true_iff. destruct (Ht Hnt) as (_ & Hfr & Hcnt). right. split; [done|exact Hfr]. }
  destruct (_ =? M_RESUME).
  - destruct (_ || _); [done|]. intros [= <-].
    assert (Htr : sane f -> f_transient g = true) by (intros [_ _ S3 _]; rewrite T; apply S3; congruence).
    intros I. pose proof (flow_in_ok k s f I Hg) as [Fs _ _]. specialize (Htr Fs).
    assert (Hgt : g <| f_transient := true |> = g) by (clear -Htr; destruct g; cbn in Htr; by subst).
    pose proof (Hst true (m_u64 (f_control g) 8) (znth (f_control g) 5) (wire_version (mp_peer s))) as H. rewrite Hgt in H. apply H; done.
  - destruct (_ || _) eqn:Ef; [done|]. intros [= <-]. apply orb_false_iff in Ef as [Ef Ecnt]. apply Z.leb_gt in Ecnt. apply bool_decide_eq_false in Ef.
    apply Hst. intros _. split; [|split; [|done]].
    + unfold id_ok. cbn. replace (f_local f) with false by congruence. done.
    + intros g'. apply find_none. destruct (m_find _ s) as [x|]; [|done]. destruct Ef. by exists x.
Qed.
Lemma step_received x s : step s (s <| mp_received ::= cons x |>).
Proof.
  intros I. assert (M : mono s (s <| mp_received ::= cons x |>)) by (constructor; try done; [intros y Hy; change (y ∈ x :: mp_received s); rewrite elem_of_cons; by right|by left]).
  split; [|done]. apply (shrinks_inv s); try done. exists (mp_flows s). split; [done|apply keeps_each].
Qed.
(** The proof stream after the other side's proof was verified. *)
Lemma step_proved k f p (rp : list Z) pos s :
  get_flow k s = Some f -> f_proof f = true -> f_phase f <> M_DEAD -> p <> M_DEAD -> p <> M_CONTROL -> verified s ->
  step s (put_flow (f <| f_reply := rp |> <| f_reply_pos := pos |> <| f_proof_reply_ready := true |> <| f_phase := p |>) s).
Proof.
  intros Hg Hp Ha H1 H2 Hv I. pose proof (flow_in_ok k s f I Hg) as [[S1 S2 S3 S4] _ _]. revert I. apply (step_replace s k f); [done|exact (proj1 (get_flow_key k s f Hg))| |].
  - constructor; [constructor; try done|unfold data_flow; cbn; by rewrite Hp|done].
  - unfold data_flow at 1. cbn. by rewrite Hp.
Qed.
Lemma step_proof_done a k f s : get_flow k s = Some f -> f_proof f = true -> f_phase f <> M_DEAD -> step s (proof_done sp proof a f s).2.
Proof.
  intros Hg Hp Ha. unfold proof_done. cbv zeta. set (x := zsub M_HEADER 32 (f_control f)). set (s1 := s <| mp_received ::= cons x |>).
  assert (S1 : step s s1) by apply step_received. assert (G1 : get_flow k s1 = Some f) by done.
  assert (Hf : forall m, step s (false, fail_peer (ca_t1 a) (ca_t2 a) OB_REMOTE_EAUTH m s1).2) by (intros m; eapply step_trans; [exact S1|apply step_fail]).
  change (mp_peer s) with (mp_peer s1). unfold channel_proof at 1. destruct (tls_ready (mp_peer s1)); [|apply Hf].
  destruct (proof (session_of (mp_peer s1)) (negb (is_server (mp_peer s1)))) as [expected|] eqn:Ex; [|apply Hf].
  destruct (list_eqb expected x) eqn:Eq; [|apply Hf]. apply list_eqb_eq in Eq. subst expected. cbn [negb].
  assert (Hv : verified s1) by (exists x; split; [left|done]). clearbody s1.
  destruct (is_server (mp_peer s1)).
  - destruct (channel_proof proof (mp_peer s1) true) as [own|]; [|apply Hf]. eapply step_trans; [exact S1|]. by apply (step_proved k).
  - eapply step_trans; [exact S1|]. cbn [snd].
    assert (Hst : step s1 (put_flow (f <| f_proof_reply_ready := true |> <| f_phase := M_ACTIVE |>) s1)) by (by apply (step_proved k f M_ACTIVE (f_reply f) (f_reply_pos f))).
    intros I. destruct (Hst I) as [I2 M2]. destruct (step_mark_ready (ca_now a) (ca_ready a) _ (verified_mono _ _ M2 Hv) I2) as [I3 M3].
    split; [done|by eapply mono_trans].
Qed.
Lemma get_put_ne k s f' : f_key f' <> k -> get_flow k (put_flow f' s) = get_flow k s.
Proof.
  unfold get_flow, put_flow. cbn. intros Hk. induction (mp_flows s) as [|g l IH]; [done|]. cbn. unfold flow_is in *.
  destruct (Nat.eqb_spec (f_key g) (f_key f')) as [E|]; [|by rewrite IH]. rewrite E. apply Nat.eqb_neq in Hk. rewrite Hk. exact IH.
Qed.
Lemma data_alive f : data_flow f = true -> f_phase f <> M_DEAD.
Proof. unfold data_flow. intros [_ H]%andb_true_iff. by apply negb_true_iff, bool_decide_eq_false in H. Qed.
Lemma step_v2_control now k f s : get_flow k s = Some f -> f_phase f = M_CONTROL -> step s (m_v2_control_done now f s).2.
Proof.
  intros Hg Hph I. pose proof (flow_in_ok k s f I Hg) as [[S1 S2 S3 S4] _ _]. destruct (get_flow_key _ _ _ Hg) as [Hk Hin].
  assert (Ha : f_phase f <> M_DEAD) by congruence. revert I. change (step s (m_v2_control_done now f s).2). unfold m_v2_control_done. cbv zeta. destruct (f_local f) eqn:El.
  - pose proof (resume_ack_keeps now (zdrop M_HEADER (f_control f)) f Ha) as Hr. destruct (resume_ack_done now _ f) as [ok g].
    by apply (step_put s k f).
  - assert (Hfd : f_fd f = false) by auto. destruct (resume_done now (zdrop M_HEADER (f_control f)) f (m_find (f_id f) s)) as [f' old'] eqn:Er.
    assert (Hal : forall o, m_find (f_id f) s = Some o -> f_phase o <> M_DEAD) by (intros o (_ & Hd & _)%find_in; by apply data_alive).
    destruct (resume_done_keeps _ _ _ _ _ _ Ha Hfd Hal Er) as [Kf Ko]. destruct (ident_fields _ _ (k_ident _ _ Kf)) as (Ek & _).
    assert (Sf : step s (put_flow f' s)) by (by apply (step_put s k f)). cbn [snd].
    destruct old' as [o'|]; [|exact Sf]. destruct (m_find (f_id f) s) as [o|] eqn:Eo; [|done]. apply find_in in Eo as (Hoin & _).
    destruct (ident_fields _ _ (k_ident _ _ Ko)) as (Eko & _).
    intros I. destruct (Sf I) as [I1 M1]. pose proof (in_get s o I Hoin) as Hgo.
    assert (Hst : step (put_flow f' s) (put_flow o' (put_flow f' s))); [|destruct (Hst I1) as [I2 M2]; split; [done|by eapply mono_trans]].
    destruct (decide (f_key o = k)) as [Eq|Hne].
    + assert (o = f) as -> by congruence. unfold resume_done, resumable in Er. rewrite Hfd, !andb_false_r in Er. apply pair_inj in Er as [<- [= <-]].
      apply (step_put _ k (resume_refuse OB_REMOTE_ECLOSED f)); [by apply (get_put k s f)|]. split; [done|]. intros [T1 T2 T3 T4]. split; [|done].
      constructor; [done|auto|auto|exact T4].
    + apply (step_put _ (f_key o) o); [|done]. rewrite get_put_ne; [done|congruence].
Qed.
Lemma step_resolve_start a host port k f s : get_flow k s = Some f -> f_phase f <> M_DEAD ->
  step s (let '(rc, g, s) := m_resolve_start a host port f s in put_flow (if rc =? 0 then g else m_ack rc g) s).
Proof.
  intros Hg Ha. unfold m_resolve_start.
  assert (Hack : forall rc s', view s' = view s -> rc <> 0 -> step s (put_flow (if rc =? 0 then f else m_ack rc f) s')).
  { intros rc s' V Hrc. apply Z.eqb_neq in Hrc. rewrite Hrc. eapply step_trans; [by apply (step_view s s')|]. apply (step_put s' k f).
    - rewrite <- Hg. apply get_other. by injection V.
    - by apply ack_keeps. }
  destruct (m_state_get (ta_alloc a) s) as [s1|] eqn:E1; [|by apply Hack]. apply step_state in E1 as [_ V1]. cbv zeta.
  assert (V2 : view (if mp_resolvers s1 =? 0 then s1 <| mp_resolvers := Z.min 2 (Z.max 0 (ta_threads a)) |> else s1) = view s) by (by destruct (_ =? 0)).
  generalize dependent (if mp_resolvers s1 =? 0 then s1 <| mp_resolvers := Z.min 2 (Z.max 0 (ta_threads a)) |> else s1). intros s2 V2.
  destruct (_ =? 0); [by apply Hack|]. destruct (_ <=? _); [by apply Hack|]. destruct (negb _); [by apply Hack|]. cbn [Z.eqb].
  eapply step_trans; [apply (step_view s s2 V2)|]. eapply step_trans; [by apply (step_view s2 (s2 <| mp_jobs ::= cons (Job (Some (f_key f)) 0 0 port (f_protocol f) host OtherFamily) |>))|].
  apply (step_put _ k f).
  - rewrite <- Hg. apply get_other. by injection V2.
  - apply keeps_live; try done. by right.
Qed.
Lemma step_control_done a k f s : get_flow k s = Some f -> f_phase f = M_CONTROL -> step s (m_control_done sp proof a f s).2.
Proof.
  intros Hg Hph. assert (Ha : f_phase f <> M_DEAD) by congruence. unfold m_control_done. destruct (f_proof f) eqn:Ep; [by apply (step_proof_done a k)|]. cbv zeta.
  destruct (_ || _); [by apply (step_v2_control _ k)|]. destruct (f_local f).
  - destruct (list_eqb _ _); [|apply step_refl]. apply (step_put s k f); [done|]. apply keeps_live; try done. by right.
  - destruct (_ || _); [apply step_refl|]. match goal with |- context [m_resolve_start ?a ?h ?p f s] => pose proof (step_resolve_start a h p k f s Hg Ha) as H; destruct (m_resolve_start a h p f s) as [[rc g] s1] end.
    exact H.
Qed.

(** ** Replies and reads *)

Lemma reply_done_ready server rdy fin f : existsb is_ready (reply_done sp server rdy fin f).2 = true -> f_proof f = true /\ f_proof_reply_ready f = true.
Proof.
  pose proof (abort_not_ready sp f) as Hab. unfold reply_done. destruct (f_proof f).
  - cbv zeta. destruct (f_proof_reply_ready f) eqn:Er; [done|]. destruct (f_sent_fin f); [done|].
    destruct fin; [cbn; by rewrite Er|done|]. destruct (m_abort sp f) as [g fx]. cbn in *. by rewrite Hab.
  - destruct (bool_decide _); [|done]. destruct (f_reject_after_reply f); [by rewrite Hab|done].
Qed.
Lemma reply_flush_ready server rdy sent fin f : existsb is_ready (m_reply_flush sp server rdy sent fin f).2 = true ->
  f_proof f = true /\ f_proof_reply_ready f = true /\ f_phase f <> M_DEAD.
Proof.
  unfold m_reply_flush. destruct (_ || _) eqn:E; [done|].
  assert (Ha : f_phase f <> M_DEAD).
  { intros H. rewrite H in E. apply orb_false_iff in E as [E _]. by rewrite orb_true_r in E. }
  intros H. enough (f_proof f = true /\ f_proof_reply_ready f = true) as [? ?] by done. revert H.
  destruct (_ <? _); [|apply reply_done_ready]. destruct sent as [n lost| |]; [|done|destruct (_ && _); [done|by rewrite abort_not_ready]].
  destruct lost; [done|]. cbv zeta. set (f1 := f <| f_reply_pos ::= _ |>). destruct (_ <? _); [done|].
  pose proof (reply_done_ready server rdy fin f1) as Hr. destruct (reply_done sp server rdy fin f1) as [g fx]. exact Hr.
Qed.
Lemma step_reply_flush a sent fin cbs k f s : get_flow k s = Some f -> step s (reply_flush sp a sent fin cbs f s).
Proof.
  intros Hg I. pose proof (flow_in_ok k s f I Hg) as [_ _ Fp]. revert I. change (step s (reply_flush sp a sent fin cbs f s)).
  unfold reply_flush. cbv zeta. set (r := m_reply_flush _ _ _ _ _ _). eapply step_trans; [|apply step_callbacks].
  assert (S1 : step s (commit (ca_t1 a) (ca_t2 a) f r s)) by (apply (step_commit _ _ s k f); [done|apply reply_flush_keeps]).
  pose proof (reply_flush_ready (is_server (mp_peer s)) (ready (mp_peer s)) sent fin f) as Hr. fold r in Hr. fold is_ready.
  destruct (existsb is_ready r.2); [|exact S1]. destruct (Hr eq_refl) as (H1 & H2 & H3). intros I. destruct (S1 I) as [I1 M1].
  destruct (step_mark_ready (ca_now a) (ca_ready a) _ (verified_mono _ _ M1 (Fp H1 H3 H2)) I1) as [I2 M2]. split; [done|by eapply mono_trans].
Qed.
Lemma header_check_fields g s h : m_header_check g s = Some h -> f_key h = f_key g /\ f_phase h = f_phase g.
Proof.
  unfold m_header_check. cbv zeta. destruct (_ || _); [done|]. destruct (f_proof g); [destruct (_ || _); [done|by intros [= <-]]|].
  destruct (f_local g); [destruct (_ || _); [done|by intros [= <-]]|]. destruct (_ || _); [done|]. destruct (_ || _); [done|].
  destruct (_ =? M_RESUME); (destruct (_ || _); [done|by intros [= <-]]).
Qed.
Lemma step_control_rounds n a ans q k s : (forall f, get_flow k s = Some f -> f_phase f = M_CONTROL) -> step s (control_rounds sp proof n a ans q k s).2.
Proof.
  revert ans q s. induction n as [|n IH]; intros ans q s Hph; [apply step_refl|]. cbn [control_rounds].
  destruct (get_flow k s) as [f|] eqn:Hg; [|apply step_refl]. specialize (Hph f eq_refl). destruct (get_flow_key _ _ _ Hg) as [Hk _].
  destruct ans as [|[m fin| |] ans]; [apply step_refl| |apply step_refl|by apply (step_abort s k)].
  destruct (stream_recv _ _ _) as [v q']. cbv zeta. set (f1 := f <| f_control ::= _ |>).
  assert (C1 : core f1 = core f) by done. assert (N1 : f_control_need f1 = f_control_need f) by done. assert (K1 : f_key f1 = k) by exact Hk.
  assert (P1 : f_phase f1 = M_CONTROL) by exact Hph. clearbody f1.
  match goal with |- context [match ?x with Some _ => _ | None => _ end] => destruct x as [f2|] eqn:Eh end.
  2:{ cbn [snd]. match goal with |- step s (abort_flow _ _ ?x) => set (s1 := x) end.
      assert (S1 : step s s1 /\ get_flow k s1 = Some f) by (unfold s1; destruct (f_proof f1); [split; [apply step_fail|done]|split; [apply step_refl|done]]).
      destruct S1 as [S1 G1]. eapply step_trans; [exact S1|]. by apply (step_abort_core s1 k f). }
  assert (S2 : step s (put_flow f2 s) /\ f_key f2 = k /\ f_phase f2 = M_CONTROL).
  { destruct (_ && _) eqn:Ec in Eh; [|injection Eh as <-; split; [by apply (step_put s k f); [|apply keeps_core]|done]].
    apply andb_true_iff in Ec as [_ Ec]. apply Z.eqb_eq in Ec. destruct (header_check_fields _ _ _ Eh) as [-> ->]. split; [|done].
    apply (step_header k f f1 f2); try done. congruence. }
  clear Eh. destruct S2 as (S2 & K2 & P2). assert (G2 : get_flow k (put_flow f2 s) = Some f2) by (by apply (get_put k s f)).
  generalize dependent (put_flow f2 s). intros s2 S2 G2. eapply step_trans; [exact S2|]. clear S2.
  destruct (fin && _); [by apply (step_abort s2 k)|]. destruct (_ =? f_control_need f2).
  - pose proof (step_control_done (fa_control a) k f2 s2 G2 P2) as S3. destruct (m_control_done sp proof (fa_control a) f2 s2) as [ok s3]. cbn [snd] in S3.
    destruct (get_flow k s3) as [f3|] eqn:G3; [|exact S3]. destruct (get_flow_key _ _ _ G3) as [K3 _]. eapply step_trans; [exact S3|].
    destruct (negb ok); [by apply (step_abort s3 k)|]. set (f4 := if fin then _ else f3).
    assert (C4 : core f4 = core f3 /\ f_key f4 = k) by (unfold f4; by destruct fin). clearbody f4. destruct C4 as [C4 K4].
    assert (S4 : step s3 (put_flow f4 s3)) by (by apply (step_put s3 k f3); [|apply keeps_core]).
    assert (G4 : get_flow k (put_flow f4 s3) = Some f4) by (by apply (get_put k s3 f3)). eapply step_trans; [exact S4|].
    destruct (_ && _); [by apply (step_abort _ k)|by apply (step_reply_flush _ _ _ _ k)].
  - destruct (_ || _); [apply step_refl|]. apply IH. intros g Hg'. congruence.
Qed.
Lemma step_data_read a ans q k f s : get_flow k s = Some f -> step s (data_read sp a ans q f s).
Proof.
  intros Hg. unfold data_read. cbv zeta. assert (Hc : forall r, keeps f r.1 -> step s (commit (ca_t1 (fa_control a)) (ca_t2 (fa_control a)) f r s)).
  { intros r Hr. by apply (step_commit _ _ s k f). }
  destruct (negb _); [apply step_refl|]. destruct (_ && _).
  { pose proof (v2_read_keeps sp (ca_now (fa_control a)) (attempt_stop (mp_peer s)) ans q f) as H. destruct (m_v2_read _ _ _ _ _ _) as [[q' g] fx]. by apply Hc. }
  destruct (f_stream_eof f); [apply step_refl|]. destruct ans as [|an ans]; [apply step_refl|].
  destruct (_ || _); [|apply Hc, v1_read_keeps]. pose proof (abort_keeps sp f) as Hab.
  assert (Hrej : step s (let '(g, fx) := m_abort sp f in commit (ca_t1 (fa_control a)) (ca_t2 (fa_control a)) f
    (g, (if f_proof g then [FxFail OB_REMOTE_EPROTOCOL (lit "unexpected proof stream payload")] else []) ++ fx) s)).
  { destruct (m_abort sp f) as [g fx]. by apply Hc. }
  destruct an as [n fin| |]; [|apply step_refl|exact Hrej]. destruct (_ <? _); [exact Hrej|]. destruct fin; [|apply step_refl].
  destruct (f_proof _); [by apply Hc, keeps_core|apply Hc, abort_core; done].
Qed.
Lemma step_stream_read a k s : step s (m_stream_read sp proof a k s).
Proof.
  unfold m_stream_read. destruct (get_flow k s) as [f|] eqn:Hg; [|apply step_refl]. destruct (_ || _); [apply step_refl|].
  match goal with |- step s (match ?x with _ => _ end) => set (r := x) end.
  assert (Hr : step s r.2). { unfold r. destruct (bool_decide _) eqn:E; [|apply step_refl]. apply bool_decide_eq_true in E. apply step_control_rounds. congruence. }
  clearbody r. destruct r as [[[go ans] q] s1]. cbn [snd] in Hr. destruct go; [|exact Hr]. destruct (get_flow k s1) as [g|] eqn:G1; [|exact Hr].
  eapply step_trans; [exact Hr|by apply (step_data_read a ans q k)].
Qed.

(** ** The turn of a flow *)

Lemma step_resolve_tick a k f s : get_flow k s = Some f -> f_phase f <> M_DEAD -> step s (m_resolve_tick sp a f s).
Proof.
  intros Hg Ha. unfold m_resolve_tick. destruct (List.find _ _) as [j|]; [|by apply (step_abort s k)]. destruct (negb (f_resolve f)); [by apply (step_abort s k)|].
  destruct (negb (_ =? 2)); [apply step_refl|]. cbv zeta. set (s1 := detach_job (f_key f) s). set (f1 := f <| f_resolve := false |>).
  assert (S1 : step s s1) by (by apply step_view). assert (G1 : get_flow k s1 = Some f) by exact Hg.
  assert (Hack : forall c g, ident g = ident f -> f_pending_open g = f_pending_open f -> step s (put_flow (m_ack c g) s1)).
  { intros c g H1 H2. eapply step_trans; [exact S1|]. by apply (step_put s1 k f); [|apply ack_keeps]. }
  destruct (truth (j_result j)); [by apply Hack|]. assert (Hf1 : ident f1 = ident f /\ f_pending_open f1 = f_pending_open f) by done. clearbody f1.
  destruct Hf1 as [F1 F2]. destruct (j_address j) as [pt ad|pt sc ad|]; [| |by apply Hack];
    (match goal with |- context [let '(_, _) := (if ?b then ?x else ?y) in _] => set (r := if b then x else y) end;
     assert (Hr : ident r.1.2 = ident f /\ f_pending_open r.1.2 = f_pending_open f)
       by (unfold r; destruct (_ =? _); [destruct (tcp_buffers_ident (ta_tx a) (ta_rx a) sp f1) as [-> ->]|]; done);
     clearbody r; destruct r as [[ok g] fx]; cbn [fst snd] in Hr; destruct Hr as [R1 R2];
     destruct (negb ok); [by apply Hack|]; destruct (negb (ta_socket a)); [by apply Hack|];
     destruct (_ =? 0); [by apply Hack|]; destruct (_ && _); [|by apply Hack];
     eapply step_trans; [exact S1|]; apply (step_put s1 k f); [done|]; apply keeps_live; try done; [|by right];
     change (f_pending_open g = true -> f_pending_open f = true); congruence).
Qed.
Lemma step_on_flow k g s : (forall f, get_flow k s = Some f -> step s (g f s)) -> step s (on_flow k g s).
Proof. intros H. unfold on_flow. destruct (get_flow k s) as [f|]; [by apply H|apply step_refl]. Qed.
Lemma step_udp_turn now a k f s : get_flow k s = Some f -> step s (udp_turn sp now a f s).
Proof.
  intros Hg. unfold udp_turn. cbv zeta. destruct (m_expired _ _ _); [by apply (step_abort s k)|]. set (f1 := f <| f_assembly ::= _ |>).
  assert (C1 : core f1 = core f) by done. clearbody f1. destruct (_ || _); [by apply (step_put s k f); [|apply keeps_core]|].
  destruct (m_udp_target_read _ _ _) as [u|]; [|by apply (step_abort_core s k f)]. apply (step_put s k f); [done|].
  eapply keeps_trans; [by apply keeps_core|apply udp_put_keeps].
Qed.
Lemma step_flow_turn now a k s : step s (flow_turn sp proof now a k s).
Proof.
  unfold flow_turn. cbv zeta. eapply step_trans; [apply (step_on_flow k (fun f s => if bool_decide (f_phase f = M_RESOLVING) then m_resolve_tick sp (ca_target (ta_control a)) f s else s))|].
  { intros f Hg. destruct (bool_decide _) eqn:E; [|apply step_refl]. apply bool_decide_eq_true in E. apply (step_resolve_tick _ k); [done|congruence]. }
  match goal with |- step ?x _ => generalize x end. clear s. intros s.
  eapply step_trans; [apply (step_on_flow k (fun f s => if bool_decide (f_phase f = M_CONNECTING) then
      match ta_poll a with Some true => put_flow (m_ack 0 f) s | Some false => put_flow (m_ack OB_REMOTE_EIO f) s | None => s end else s))|].
  { intros f Hg. destruct (bool_decide _) eqn:E; [|apply step_refl]. apply bool_decide_eq_true in E.
    destruct (ta_poll a) as [[]|]; [| |apply step_refl]; (apply (step_put s k f); [done|apply ack_keeps; try done; congruence]). }
  match goal with |- step ?x _ => generalize x end. clear s. intros s.
  eapply step_trans; [apply (step_on_flow k (reply_flush sp (ta_control a) (ta_sent a) (ta_fin a) (ta_reply_cbs a)))|].
  { intros f Hg. by apply (step_reply_flush _ _ _ _ k). }
  match goal with |- step ?x _ => generalize x end. clear s. intros s.
  eapply step_trans; [apply (step_stream_read (ta_read a) k)|]. match goal with |- step ?x _ => generalize x end. clear s. intros s.
  apply step_on_flow. intros f Hg. destruct (_ || _); [apply step_refl|]. destruct (_ =? OB_REMOTE_TCP).
  - set (s1 := commit _ _ f _ s). assert (S1 : step s s1) by (by apply (step_commit _ _ s k f); [|apply tcp_tick_keeps]).
    clearbody s1. eapply step_trans; [exact S1|]. eapply step_trans; [apply step_callbacks|].
    apply step_on_flow. intros g _. destruct (_ && _); [apply step_free|apply step_refl].
  - destruct (_ =? _); [by apply (step_udp_turn now a k)|apply step_refl].
Qed.
Lemma step_flow_loop now ans ks s : step s (flow_loop sp proof now ans ks s).2.
Proof.
  revert s. induction ks as [|k ks IH]; intros s; [apply step_refl|]. cbn [flow_loop]. destruct (get_flow k s) as [f|] eqn:Hg; [|apply IH]. cbv zeta.
  assert (Hreap : forall s, step s (on_flow k (fun f s => if f_stream f then s else m_flow_free sp f s) s)).
  { intros s'. apply step_on_flow. intros g _. destruct (f_stream g); [apply step_refl|apply step_free]. }
  assert (Hab : step s (abort_flow sp f s)) by (by apply (step_abort s k)).
  destruct (attempt_stop _); [apply step_refl|]. destruct (_ || _); [eapply step_trans; [exact Hab|]; eapply step_trans; [apply Hreap|apply IH]|].
  destruct (bool_decide _); [eapply step_trans; [apply Hreap|apply IH]|]. destruct (_ && _); [apply IH|].
  destruct (_ && _); [destruct (f_waiting_resume f); [apply step_fail_transport|eapply step_trans; [exact Hab|apply IH]]|].
  eapply step_trans; [apply step_flow_turn|apply IH].
Qed.

(** ** Local flows *)

Lemma step_same s s' :
  peer_keeps (mp_peer s) (mp_peer s') -> mp_flows s' = mp_flows s -> mp_received s' = mp_received s ->
  mp_next_id s <= mp_next_id s' -> (mp_next_id s <= UINT64_MAX / 2 -> mp_next_id s' <= UINT64_MAX / 2) -> (mp_next_key s <= mp_next_key s')%nat -> step s s'.
Proof.
  intros [P1 P2 P3 P0 P4] Hf Hr Hn Hm Hk [I1 I2 I3 I4 I5 I6 I7].
  assert (M : mono s s') by (constructor; rewrite ?Hr; try done; intros H; left; by apply P4). split; [|done].
  constructor; unfold limit_of, m_data_flow_count in *; rewrite ?Hf, ?P3; try done.
  - eapply Forall_impl; [|exact I2]. cbn. lia.
  - lia.
  - eapply Forall_impl; [|exact I7]. intros g. by apply flow_ok_mono.
Qed.
Lemma local_id n b : 0 <= n < UINT64_MAX / 2 -> Z.lor (u64 (Z.shiftl (1 + n) 1)) (b2z b) = 2 * (1 + n) + b2z b.
Proof.
  change (UINT64_MAX / 2) with 9223372036854775807. intros H. rewrite Z.shiftl_mul_pow2 by lia. change (2 ^ 1) with 2.
  rewrite u64_small by (unfold UINT64_MAX; lia). destruct b; cbn [b2z]; [|rewrite Z.lor_0_r; lia].
  rewrite <- Z.add_nocarry_lor; [lia|]. rewrite land_1, Z.mod_mul; lia.
Qed.
Lemma id_parity s f : id_ok s f -> Z.land (f_id f) 1 = if f_local f then b2z (negb (is_server (mp_peer s))) else b2z (is_server (mp_peer s)).
Proof.
  unfold id_ok. destruct (f_local f); [|by intros [_ ?]]. intros (n & _ & ->). rewrite land_1, Z.add_comm, Z.mul_comm, Z_mod_plus_full. by destruct (negb _).
Qed.
(** Freeing the flow that was just added. *)
Lemma step_free_added z f s s1 :
  table_inv s -> view s1 = view s -> f_key z = mp_next_key s -> f_key f = mp_next_key s -> step s (m_flow_free sp f (added z s1)).
Proof.
  intros I V Hz Hf. unfold view in V. injection V as V1 V2 V3 V4 V5.
  assert (Hfl : mp_flows (m_flow_free sp f (added z s1)) = mp_flows s).
  { rewrite free_flows. cbn. unfold flow_is. rewrite Hz, Hf, Nat.eqb_refl. cbn. rewrite V2. pose proof (ti_fresh _ I) as Hfr. clear -Hfr.
    induction Hfr as [|g l Hg _ IH]; [done|]. cbn. rewrite IH. destruct (Nat.eqb_spec (f_key g) (mp_next_key s)); [lia|done]. }
  assert (Hrest : peer_keeps (mp_peer s) (mp_peer (m_flow_free sp f (added z s1))) /\ mp_next_id (m_flow_free sp f (added z s1)) = mp_next_id s /\
    mp_next_key (m_flow_free sp f (added z s1)) = S (mp_next_key s) /\ mp_received (m_flow_free sp f (added z s1)) = mp_received s).
  { unfold m_flow_free, commit. destruct (m_release_io sp f) as [g fx]. cbn. destruct (_ && _); cbn; rewrite V1, V3, V4, V5; (split; [apply peer_fx_keeps|done]). }
  destruct Hrest as (P & Hn & Hk & Hr). apply step_same; rewrite ?Hn, ?Hk; done || lia.
Qed.
Lemma step_local_flow a m fd source s : step s (m_local_flow sp a m fd source s).2.
Proof.
  unfold m_local_flow. cbv zeta. destruct (_ <=? _) eqn:Ec; [apply step_refl|]. apply Z.leb_gt in Ec.
  destruct (m_flow_new (la_ok a) (oa_now (la_open a)) s) as [[z s0]|] eqn:En; [|apply step_refl]. apply flow_new_spec in En as (s1 & V & -> & -> & Hlen).
  set (z := zero_flow (mp_next_key s) (oa_now (la_open a))). set (f0 := z <| f_local := _ |> <| f_protocol := _ |> <| f_map := _ |> <| f_wire_version := _ |>).
  intros I. destruct (_ <=? mp_next_id _) eqn:Eid; [by apply (step_free_added z f0 s s1)|]. apply Z.leb_gt in Eid. change (mp_next_id (added z s1)) with (mp_next_id s1) in Eid.
  pose proof V as V'. unfold view in V'. injection V' as V1 V2 V3 V4 V5. pose proof (ti_next _ I) as [Hn0 _].
  (* the counter moves *)
  set (s' := s <| mp_next_id ::= Z.add 1 |>). set (s1' := s1 <| mp_next_id ::= Z.add 1 |>).
  assert (Ss : step s s').
  { apply step_same; [apply peer_keeps_refl|done|done| | |done]; change (mp_next_id s') with (1 + mp_next_id s); [lia|rewrite V3 in Eid; lia]. }
  destruct (Ss I) as [I' M']. assert (Vs : view s1' = view s') by (unfold view, s', s1'; cbn; congruence).
  change (added z s1 <| mp_next_id ::= Z.add 1 |>) with (added z s1'). change (mp_next_id (added z s1')) with (1 + mp_next_id s1).
  rewrite V3 in Eid |- *. rewrite (local_id (mp_next_id s)) by lia.
  assert (Hres : forall t, step s' t -> table_inv t /\ mono s t) by (intros t Ht; destruct (Ht I') as [It Mt]; split; [done|by eapply mono_trans]).
  match goal with |- context [m_tcp_buffers _ _ _ ?x] => set (f1 := x) end.
  assert (F1 : ident f1 = (mp_next_key s, 2 * (1 + mp_next_id s) + b2z (negb (is_server (mp_peer s))), true, false, false, false) /\ f_pending_open f1 = false /\ f_phase f1 = M_CONTROL)
    by (unfold f1; by destruct source).
  clearbody f1. destruct F1 as (F1 & F2 & F3).
  match goal with |- context [let '(_, _) := (if ?b then ?x else ?y) in _] => set (r := if b then x else y) end.
  assert (Hr : ident r.1.2 = ident f1 /\ f_pending_open r.1.2 = false /\ (r.1.1 = true -> f_phase r.1.2 = M_CONTROL)).
  { unfold r. destruct (_ =? _); [|done]. destruct (tcp_buffers_ident (la_tx a) (la_rx a) sp f1) as [-> ->]. split; [done|]. split; [done|].
    unfold m_tcp_buffers. destruct (_ && _); [done|]. by destruct (m_release_io _ _). }
  clearbody r. destruct r as [[ok f] fx]. cbn [fst snd] in Hr. destruct Hr as (R1 & R2 & R3). rewrite F1 in R1. clear F1 F2 F3 fx.
  assert (Hkey : f_key f = mp_next_key s') by (by injection R1).
  destruct ok; cbn [negb]; [|apply Hres; by apply (step_free_added z f s' s1')].
  (* the flow as it is stored *)
  assert (Hput : forall g, ident g = ident f -> f_phase g = M_CONTROL \/ f_phase g = M_ACTIVE -> step s' (put_flow g (added z s1')) /\ get_flow (mp_next_key s') (put_flow g (added z s1')) = Some g).
  { intros g Hg Hph. assert (Hkg : f_key g = mp_next_key s') by (destruct (ident_fields _ _ Hg) as (-> & _); done).
    assert (E : put_flow g (added z s1') = added g s1').
    { apply put_added; [by destruct (step_view s' s1' Vs I')|by change (f_key z = mp_next_key s1); rewrite V4|by change (f_key g = mp_next_key s1); rewrite V4]. }
    rewrite E. split; [|unfold get_flow; cbn; unfold flow_is; by rewrite Hkg, Nat.eqb_refl].
    eapply step_trans; [by apply (step_view s' s1')|]. assert (W : mp_peer s1' = mp_peer s /\ mp_flows s1' = mp_flows s /\ mp_next_id s1' = 1 + mp_next_id s /\ mp_next_key s1' = mp_next_key s).
    { split; [exact V1|]. split; [exact V2|]. split; [cbn; by rewrite V3|exact V4]. }
    clear Vs. clearbody s1'. destruct W as (W1 & W2 & W3 & W4). rewrite R1 in Hg. unfold ident in Hg. injection Hg as G1 G2 G3 G4 G5 G6.
    assert (Ha : f_phase g <> M_DEAD) by (destruct Hph; congruence). assert (Hlim : limit_of s1' = limit_of s) by (unfold limit_of; by rewrite W1).
    apply step_add.
    - by rewrite W4.
    - constructor; [|unfold id_ok; rewrite G3; intros _; exists (1 + mp_next_id s); rewrite W1, W3; cbn; split; [lia|done]|by rewrite G4].
      constructor; [done|by rewrite G3|by rewrite G3|done].
    - rewrite Hlim, W2. exact Hlen.
    - intros _. rewrite Hlim. split; [unfold m_data_flow_count in *; by rewrite W2|]. rewrite W2. intros h Hh Hd.
      pose proof (ti_flows _ I) as Hall. rewrite Forall_forall in Hall. apply list_elem_of_In in Hh. destruct (Hall h Hh) as [_ Hid _]. specialize (Hid Hd).
      pose proof (id_parity _ _ Hid) as Hp. intros Eq. rewrite Eq, G2 in Hp. rewrite land_1, Z.add_comm, Z.mul_comm, Z_mod_plus_full in Hp. unfold id_ok in Hid.
      destruct (f_local h); [destruct Hid as (n & Hn & Hi); rewrite Hi in Eq; lia|]. by destruct (is_server (mp_peer s)). }
  destruct (_ && _).
  - apply Hres. cbn [snd]. apply Hput; [done|by right].
  - match goal with |- context [m_stream_open _ ?x ?y] => pose proof (stream_open_keeps (oa_created (la_open a)) x y) as Hso; destruct (m_stream_open (oa_created (la_open a)) x y) as [opened f2] end.
    cbn [snd] in Hso. apply core_fields in Hso as (O1 & O2 & _). assert (Hk2 : f_key f2 = mp_next_key s') by (destruct (ident_fields _ _ O1) as (-> & _); exact Hkey).
    destruct opened; cbn [negb]; [|apply Hres; by apply (step_free_added z f2 s' s1')]. cbn [snd].
    destruct (Hput (f2 <| f_fd := fd |>)) as [S2 G2]; [exact O1|left; change (f_phase f2 = M_CONTROL); rewrite O2; by apply R3|].
    apply Hres. eapply step_trans; [exact S2|by apply (step_flush_open _ (mp_next_key s'))].
Qed.

(** ** Maps and ticks *)

Lemma step_map_packet k v source ok a s : step s (map_packet sp k v source ok a s).
Proof.
  unfold map_packet. destruct (get_map k s) as [m|]; [|apply step_refl]. destruct (_ || _); [apply step_refl|].
  match goal with |- context [match List.find ?p ?l with Some f => (Some (f_key f), s) | None => ?y end] => set (r := match List.find p l with Some f => (Some (f_key f), s) | None => y end) end.
  assert (Hr : step s r.2) by (unfold r; destruct (List.find _ _); [apply step_refl|apply step_local_flow]).
  clearbody r. destruct r as [[key|] s1]; [|exact Hr]. eapply step_trans; [exact Hr|]. apply step_on_flow. intros f Hg.
  destruct (bool_decide _); [apply step_refl|]. apply (step_put _ key f); [done|apply udp_put_keeps].
Qed.
Lemma step_map_inputs n budget again ins k s : step s (map_inputs sp n budget again ins k s).2.
Proof.
  revert budget ins s. induction n as [|n IH]; intros budget ins s; [apply step_refl|]. destruct ins as [|i ins]; cbn [map_inputs].
  - destruct (_ =? 0); [apply step_refl|]. destruct (get_map k s); [|apply step_refl]. destruct (_ && _); [by apply step_view|apply step_refl].
  - destruct (_ =? 0); [apply step_refl|]. destruct i as [nb a|v source ok a].
    + destruct (get_map k s); [|apply step_refl]. eapply step_trans; [|apply IH]. destruct nb; [apply step_local_flow|apply step_refl].
    + eapply step_trans; [apply step_map_packet|apply IH].
Qed.
Lemma step_map_tick a budget k s : step s (m_map_tick sp a budget k s).2.
Proof. unfold m_map_tick. destruct (get_map k s); [|apply step_refl]. destruct (_ || _); [apply step_refl|apply step_map_inputs]. Qed.
Lemma step_map_loop ans budget ks s : step s (map_loop sp ans budget ks s).
Proof.
  revert budget s. induction ks as [|k ks IH]; intros budget s; [apply step_refl|]. cbn [map_loop]. destruct (_ =? 0); [apply step_refl|].
  pose proof (step_map_tick (ans k) budget k s) as H. destruct (m_map_tick sp (ans k) budget k s) as [b s1]. eapply step_trans; [exact H|apply IH].
Qed.
Lemma step_offline_maps ans budget ks s : step s (offline_maps sp ans budget ks s).
Proof.
  revert budget s. induction ks as [|k ks IH]; intros budget s; [apply step_refl|]. cbn [offline_maps]. destruct (_ =? 0); [apply step_refl|].
  destruct (get_map k s) as [m|]; [|apply IH]. destruct (_ || _); [apply IH|]. destruct (_ =? OB_REMOTE_TCP).
  - pose proof (step_map_tick (ans k) budget k s) as H. destruct (m_map_tick sp (ans k) budget k s) as [b s1]. eapply step_trans; [exact H|apply IH].
  - cbv zeta. unfold m_udp_discard. eapply step_trans; [|apply IH]. destruct (_ && _); by apply step_view.
Qed.
Lemma step_recovery_flows now ks s : step s (recovery_flows sp now ks s).
Proof.
  revert s. induction ks as [|k ks IH]; intros s; [apply step_refl|]. cbn [recovery_flows]. cbv zeta. eapply step_trans; [|apply IH].
  set (s1 := on_flow k (fun f s => if _ || f_close_requested f then _ else s) s).
  assert (S1 : step s s1) by (apply step_on_flow; intros f Hg; destruct (_ || _); [by apply (step_abort s k)|apply step_refl]).
  eapply step_trans; [exact S1|]. apply step_on_flow. intros f _. destruct (_ && _); [apply step_free|apply step_refl].
Qed.
Lemma step_reap s : step s (m_resolve_reap s).
Proof. by apply step_view. Qed.
Lemma step_recovery_tick now g s : step s (ob_mapping_recovery_tick sp now g s).
Proof.
  unfold ob_mapping_recovery_tick. eapply step_trans; [apply (step_recovery_flows now (map f_key (mp_flows s)))|].
  match goal with |- step ?x _ => generalize x end. clear s. intros s. destruct (m_state_get (ga_ok g) s) as [s1|] eqn:E; [|apply step_refl].
  apply step_state in E as [S1 _]. eapply step_trans; [exact S1|]. eapply step_trans; [|apply step_reap].
  destruct (_ || _); [apply step_offline_maps|apply step_refl].
Qed.
Lemma step_fold (g : mpeer -> nat -> mpeer) ks s : (forall k s, step s (g s k)) -> step s (fold_left g ks s).
Proof. intros H. revert s. induction ks as [|k ks IH]; intros s; [apply step_refl|]. cbn [fold_left]. eapply step_trans; [apply H|apply IH]. Qed.
Lemma step_stop_io s : step s (m_stop_io sp s).
Proof.
  unfold m_stop_io. eapply step_trans; [by apply (step_view s (s <| mp_maps ::= map (fun m => m <| rm_fd := false |> <| rm_closed := true |>) |>))|].
  apply step_fold. intros k s'. apply step_on_flow. intros f Hg. apply (step_commit _ _ s' k f); [done|].
  set (f1 := f <| f_close_requested := _ |> <| f_phase := _ |>). destruct (release_fields sp f1) as (R1 & R2 & R3 & R4 & _). by apply keeps_dead.
Qed.
Lemma step_udp_loop ans budget ks s : step s (udp_loop ans budget ks s).
Proof.
  revert budget s. induction ks as [|k ks IH]; intros budget s; [apply step_refl|]. cbn [udp_loop]. destruct (_ =? 0); [apply step_refl|].
  destruct (get_flow k s) as [f|] eqn:Hg; [|apply IH]. destruct (_ =? _); [|apply IH]. destruct (m_udp_flush _ _ _ _) as [[out b] u].
  eapply step_trans; [|apply IH]. eapply step_trans; [|apply step_callbacks]. apply (step_put s k f); [done|apply udp_put_keeps].
Qed.
Lemma step_mapping_tick g s : step s (ob_mapping_tick sp proof g s).
Proof.
  unfold ob_mapping_tick. destruct (stop _); [apply step_stop_io|]. destruct (attempt_stop _); [apply step_refl|]. cbv zeta.
  eapply step_trans; [apply (step_recovery_tick (ga_now1 g) g)|]. match goal with |- step ?x _ => generalize x end. clear s. intros s.
  destruct (m_state_get (ga_ok g) s) as [s1|] eqn:E; [|apply step_refl]. apply step_state in E as [S1 _]. eapply step_trans; [exact S1|]. clear s S1.
  match goal with |- context [flow_loop sp proof _ _ _ ?x] => set (s2 := x) end.
  assert (S2 : step s1 s2).
  { unfold s2. destruct (_ && _); [|apply step_refl]. eapply step_trans; [|apply step_map_loop]. by apply step_view. }
  clearbody s2. eapply step_trans; [exact S2|]. pose proof (step_flow_loop (ga_now2 g) (ga_turns g) (map f_key (mp_flows s2)) s2) as S3.
  destruct (flow_loop sp proof (ga_now2 g) (ga_turns g) (map f_key (mp_flows s2)) s2) as [go s3]. cbn [snd] in S3. eapply step_trans; [exact S3|].
  destruct (negb go); [apply step_refl|]. eapply step_trans; [|apply step_reap]. destruct (_ && _); [|apply step_refl].
  eapply step_trans; [|apply step_udp_loop]. by apply step_view.
Qed.

(** ** The transport and the caller *)

Lemma step_suspend now preserve deadline s : step s (ob_mapping_transport_suspend sp now preserve deadline s).
Proof.
  unfold ob_mapping_transport_suspend. cbv zeta. set (s1 := fold_left _ _ _).
  eapply step_trans; [|by apply (step_view s1)]. eapply step_trans; [by apply (step_view s (s <| mp_proof_started := false |>))|].
  apply step_fold. intros k s'. apply step_on_flow. intros f Hg. apply (step_commit _ _ s' k f); [done|apply suspend_keeps].
Qed.
Lemma step_forget s : step s (ob_mapping_forget_flows sp s).
Proof.
  apply step_fold. intros k s'. apply step_on_flow. intros f Hg. destruct (_ && _); [by apply (step_abort s' k)|apply step_refl].
Qed.
Lemma step_portmap a host tp pr s : step s (m_portmap a host tp pr s).2.
Proof.
  unfold m_portmap. cbv zeta. destruct host as [h|]; [|apply step_refl]. destruct (_ || _); [apply step_refl|]. destruct (pa_family a); [|apply step_refl].
  destruct (_ || _); [apply step_refl|]. destruct (_ <=? _); [apply step_refl|]. destruct (negb _); [apply step_refl|]. destruct (pa_port a); [|apply step_refl].
  destruct (_ || _); [apply step_refl|]. apply step_same; [apply peer_keeps_refl|done|done|done|done|]. cbn. lia.
Qed.
Lemma step_map_close k s : step s (ob_remote_map_close k s).
Proof.
  intros I. assert (M : mono s (ob_remote_map_close k s)) by (constructor; try done; by left). split; [|done]. apply (shrinks_inv s); try done.
  exists (mp_flows s). split; [done|]. cbn. clear. induction (mp_flows s) as [|f l IH]; [done|]. cbn. constructor; [|done].
  destruct (bool_decide _); by apply keeps_core.
Qed.
Lemma step_handshake ok first o s : step s (ob_mapping_handshake sp proof ok first o s).
Proof.
  unfold ob_mapping_handshake. destruct (_ || _); [apply step_refl|]. cbv zeta.
  destruct (m_state_get ok s) as [s1|] eqn:E1; [|apply step_fail]. apply step_state in E1 as [S1 V1]. destruct (_ || _); [exact S1|].
  eapply step_trans; [exact S1|]. destruct (m_flow_new ok (oa_now o) s1) as [[z s2]|] eqn:E2; [|apply step_fail].
  apply flow_new_spec in E2 as (s0 & V & -> & -> & Hlen). set (z := zero_flow _ _). set (f := z <| f_local := true |> <| f_proof := true |>). intros I.
  set (s3 := s0 <| mp_proof_started := true |>). assert (V3 : view s3 = view s1) by exact V.
  change (added z s0 <| mp_proof_started := true |>) with (added z s3). unfold view in V. injection V as W1 W2 W3 W4 W5.
  assert (I3 : table_inv s3 /\ mono s1 s3) by (by apply (step_view s1 s3)). destruct I3 as [I3 M3].
  assert (Hres : forall t, step s3 t -> table_inv t /\ mono s1 t) by (intros t Ht; destruct (Ht I3); split; [done|by eapply mono_trans]).
  assert (Hput : forall g, ident g = ident f -> f_phase g = M_CONTROL -> f_pending_open g = false ->
    step s3 (put_flow g (added z s3)) /\ get_flow (f_key f) (put_flow g (added z s3)) = Some g).
  { intros g Hg Hph Hpo. unfold ident in Hg. injection Hg as G1 G2 G3 G4 G5 G6. assert (Hk : f_key g = mp_next_key s3) by (change (f_key g = mp_next_key s0); by rewrite W4).
    rewrite put_added; [|done|by change (f_key z = mp_next_key s0); rewrite W4|done].
    split; [|unfold get_flow; cbn; unfold flow_is; by rewrite G1, Nat.eqb_refl]. apply step_add; [done| | |].
    - constructor; [constructor; try done; try (by rewrite Hph); by rewrite G3|unfold data_flow; by rewrite G4|intros _ _; by rewrite G6].
    - change (zlen (mp_flows s0) < 2 * limit_of s0 + 2). unfold limit_of in *. by rewrite W1, W2.
    - unfold data_flow. by rewrite G4. }
  destruct (Hput f eq_refl eq_refl eq_refl) as [Sf Gf]. set (s4 := put_flow f (added z s3)) in *. clearbody s4.
  assert (Hff : forall h c m, step s3 (m_flow_free sp h (fail_peer (oa_t1 o) (oa_t2 o) c m s4))).
  { intros h c m. eapply step_trans; [exact Sf|]. eapply step_trans; [apply step_fail|apply step_free]. }
  destruct (channel_proof proof (mp_peer s) false) as [own|]; [|apply Hres, Hff].
  pose proof (stream_open_keeps (oa_created o) f s4) as Ho. destruct (m_stream_open (oa_created o) f s4) as [opened h]. cbn [snd] in Ho.
  destruct opened; cbn [negb]; [|apply Hres, Hff].
  assert (Hh : forall g, core g = core h -> step s3 (put_flow g s4) /\ get_flow (f_key f) (put_flow g s4) = Some g).
  { intros g Hg. rewrite Ho in Hg. split; [eapply step_trans; [exact Sf|]; apply (step_put s4 (f_key f) f); [done|by apply keeps_core]|].
    apply (get_put _ s4 f); [done|]. apply core_fields in Hg as (Hi & _). by destruct (ident_fields _ _ Hi) as (-> & _). }
  apply Hres. destruct (negb first).
  - destruct (Hh h eq_refl) as [S5 G5]. generalize dependent (put_flow h s4). intros s5 S5 G5.
    eapply step_trans; [exact S5|]. set (s6 := fail_peer _ _ _ _ s5). eapply step_trans; [apply (step_fail _ _ _ _ s5 : step s5 s6)|].
    apply (step_abort s6 (f_key f) h). exact G5.
  - set (h1 := h <| f_reply := proof_frame own |>). destruct (Hh h1 eq_refl) as [S5 G5]. eapply step_trans; [exact S5|].
    exact (step_flush_open o (f_key f) h1 (put_flow h1 s4) G5).
Qed.
End guard.
