(* ===== verification/MapOpen.v ===== *)
(** * Opening a flow, and the memory budget

    The frames of mapping.c by which one side asks the other for a target and gets its answer,
    and the accounting of [m_alloc], [m_control_alloc] and [m_free]. *)

From S2P Require Import Prelude Peer MapUdp MapFlow MapV2 MapTable MapGuard.

(** ** Control frames *)

Record header_of (v : list Z) (kind protocol size id : Z) : Prop := {
  ho_magic : ztake 4 v = lit "OBM1"; ho_kind : znth v 4 = kind; ho_protocol : znth v 5 = protocol;
  ho_size : m_u16 v 6 = size; ho_id : m_u64 v 8 = id }.
Lemma zlen_header kind protocol size id : zlen (m_header kind protocol size id) = M_HEADER.
Proof. unfold m_header. rewrite !zlen_app, zlen_put16, zlen_put64. reflexivity. Qed.
Lemma header_parses kind protocol size id w : 0 <= kind < 256 -> 0 <= protocol < 256 -> 0 <= size < 65536 -> 0 <= id <= UINT64_MAX ->
  header_of (m_header kind protocol size id ++ w) kind protocol size id.
Proof.
  intros H1 H2 H3 H4. unfold m_header. rewrite <- !app_assoc. constructor.
  - reflexivity.
  - unfold znth. cbn. unfold u8. by apply Z.mod_small.
  - unfold znth. cbn. unfold u8. by apply Z.mod_small.
  - unfold m_u16, zsub. rewrite app_assoc, zdrop_skip by (vm_compute; discriminate). by apply field16.
  - unfold m_u64, zsub. rewrite !app_assoc, <- (app_assoc _ _ w), zdrop_skip by (rewrite !zlen_app, zlen_put16; vm_compute; discriminate).
    rewrite !zlen_app, zlen_put16. by apply field64.
Qed.

Section open.
Context (sp : Z) (proof : session -> bool -> option (list Z)).

(** A stream of the other side that has not received anything yet. *)
Record fresh_stream (f : mflow) : Prop := {
  fs_proof : f_proof f = false; fs_local : f_local f = false; fs_transient : f_transient f = true; fs_phase : f_phase f = M_CONTROL;
  fs_control : f_control f = []; fs_need : f_control_need f = M_HEADER; fs_reply : f_reply f = [] }.
(** The flow after an accepted OPEN header, and after the whole frame. *)
Definition named (protocol id wire size : Z) (hdr : list Z) (f : mflow) : mflow :=
  f <| f_control := hdr |> <| f_transient := false |> <| f_id := id |> <| f_protocol := protocol |> <| f_wire_version := wire |> <| f_control_need := M_HEADER + size |>.
Record can_open (s : mpeer) (protocol id : Z) : Prop := {
  co_ready : ready (mp_peer s) = true; co_proof : proof_ready (mp_peer s) = true;
  co_protocol : protocol = OB_REMOTE_TCP \/ protocol = OB_REMOTE_UDP;
  co_id : 0 < id <= UINT64_MAX; co_parity : Z.land id 1 = b2z (is_server (mp_peer s));
  co_unused : m_find id s = None; co_limit : m_data_flow_count s < limit_of s }.
Record can_resolve (a : target_answers) (s : mpeer) : Prop := {
  cr_alloc : ta_alloc a = true; cr_threads : 0 < mp_resolvers s \/ mp_resolvers s = 0 /\ 0 < ta_threads a; cr_jobs : zlen (mp_jobs s) < 32 }.

Lemma host_size host : m_host_valid host = true -> 1 <= zlen host <= OB_MAX_HOST.
Proof.
  unfold m_host_valid. intros [H _]%andb_true_iff. apply negb_true_iff, orb_false_iff in H as [H1 H2]. apply Z.eqb_neq in H1. apply Z.ltb_ge in H2.
  pose proof (zlen_nonneg host). lia.
Qed.
Lemma open_header f s protocol id size : fresh_stream f -> can_open s protocol id -> 3 <= size <= OB_MAX_HOST + 2 ->
  let hdr := m_header M_OPEN protocol size id in
  m_header_check (f <| f_control := hdr |>) s = Some (named protocol id (wire_version (mp_peer s)) size hdr f).
Proof.
  intros [F1 F2 F3 F4 F5 F6 F7] [C1 C2 C3 C4 C5 C6 C7] Hs hdr. unfold OB_MAX_HOST in Hs.
  assert (Hh : header_of hdr M_OPEN protocol size id).
  { rewrite <- (app_nil_r hdr). apply header_parses; [by unfold M_OPEN| |lia|lia]. unfold OB_REMOTE_TCP, OB_REMOTE_UDP in C3. lia. }
  destruct Hh as [H1 H2 H3 H4 H5]. unfold m_header_check. change (f_control (f <| f_control := hdr |>)) with hdr. rewrite H1, H2, H3, H4, H5. cbv zeta.
  rewrite (proj2 (list_eqb_eq _ _) eq_refl). cbn [negb orb]. rewrite (proj2 (Z.ltb_ge _ _)) by (unfold OB_MAX_HOST; lia).
  change (f_proof (f <| f_control := hdr |>)) with (f_proof f). change (f_local (f <| f_control := hdr |>)) with (f_local f). rewrite F1, F2, C1, C2. cbn [negb orb].
  change ((M_OPEN =? M_OPEN)) with true. cbn [negb andb orb].
  assert (Hp : negb (protocol =? OB_REMOTE_TCP) && negb (protocol =? OB_REMOTE_UDP) = false) by (by destruct C3 as [-> | ->]). rewrite Hp. cbn [orb].
  rewrite (proj2 (Z.ltb_ge _ _)) by lia. rewrite (proj2 (Z.eqb_neq _ _)) by lia. rewrite C5, Z.eqb_refl. cbn [negb orb].
  change (M_OPEN =? M_RESUME) with false. cbv iota. rewrite C6. cbn [is_Some]. rewrite bool_decide_eq_false_2 by (by intros [? ?]). cbn [orb].
  rewrite (proj2 (Z.leb_gt _ _)) by lia. reflexivity.
Qed.
Lemma open_resolves a f s protocol id wire port host : can_resolve (ca_target a) s -> f_proof f = false -> f_local f = false ->
  0 <= protocol < 256 -> 0 <= id <= UINT64_MAX -> 1 <= port < 65536 -> m_host_valid host = true ->
  let g := named protocol id wire (zlen host + 2) (open_frame protocol id port host) f in
  exists s', m_control_done sp proof a g s = (true, put_flow (g <| f_resolve := true |> <| f_phase := M_RESOLVING |>) s') /\
    mp_flows s' = mp_flows s /\ mp_jobs s' = Job (Some (f_key f)) 0 0 port protocol host OtherFamily :: mp_jobs s.
Proof.
  intros [R1 R2 R3] F1 F2 Hpr Hi Hp Hh g. pose proof (host_size host Hh) as Hs. unfold OB_MAX_HOST in Hs.
  destruct (header_parses M_OPEN protocol (zlen host + 2) id (m_put16 port ++ host)) as [H1 H2 H3 H4 H5]; [by unfold M_OPEN|lia|lia|lia|].
  set (v := open_frame protocol id port host) in *. change (m_header M_OPEN protocol (zlen host + 2) id ++ m_put16 port ++ host) with v in H1, H2, H3, H4, H5.
  assert (Ev : zdrop M_HEADER v = m_put16 port ++ host) by (apply zdrop_app_exact; symmetry; apply zlen_header).
  assert (Hhost : zsub (M_HEADER + 2) (M_HEADER + (zlen host + 2) - M_HEADER - 2) v = host).
  { unfold zsub. change (M_HEADER + 2) with (2 + M_HEADER). rewrite <- (zdrop_zdrop 2 M_HEADER v), Ev by (unfold M_HEADER; lia). rewrite zdrop_app_exact by (by rewrite zlen_put16). apply ztake_ge. lia. }
  assert (Hport : m_u16 v M_HEADER = port) by (unfold m_u16, zsub; rewrite Ev; apply (field16 port host); lia).
  unfold m_control_done. change (f_proof g) with (f_proof f). change (f_local g) with (f_local f). change (f_control g) with v.
  change (f_control_need g) with (M_HEADER + (zlen host + 2)). rewrite F1, F2, H2, Hhost, Hport, Hh. cbv zeta.
  change (M_OPEN =? M_RESUME) with false. change (M_OPEN =? M_RESUME_ACK) with false. cbn [orb negb]. rewrite (proj2 (Z.eqb_neq port 0)) by lia. cbn [orb].
  unfold m_resolve_start, m_state_get. rewrite R1. change (f_key g) with (f_key f). change (f_protocol g) with protocol.
  assert (Hst : exists s1, (if mp_private s then Some s else Some (s <| mp_private := true |>)) = Some s1 /\ mp_flows s1 = mp_flows s /\ mp_jobs s1 = mp_jobs s /\ mp_resolvers s1 = mp_resolvers s).
  { destruct (mp_private s); eexists; split_and!; reflexivity. }
  destruct Hst as (s1 & -> & E1 & E2 & E3). cbv zeta.
  set (s2 := if mp_resolvers s1 =? 0 then s1 <| mp_resolvers := _ |> else s1).
  assert (Hr : mp_resolvers s2 <> 0 /\ mp_flows s2 = mp_flows s /\ mp_jobs s2 = mp_jobs s).
  { unfold s2. destruct (Z.eqb_spec (mp_resolvers s1) 0); [|split; [lia|done]]. split; [|done]. change (Z.min 2 (Z.max 0 (ta_threads (ca_target a))) <> 0). lia. }
  clearbody s2. destruct Hr as (G1 & G2 & G3). rewrite (proj2 (Z.eqb_neq _ _) G1), G3, (proj2 (Z.leb_gt _ _) R3). cbn [negb].
  eexists. split; [reflexivity|]. split; [done|]. by change (mp_jobs (s2 <| mp_jobs ::= cons (Job (Some (f_key f)) 0 0 port protocol host OtherFamily) |>))
    with (Job (Some (f_key f)) 0 0 port protocol host OtherFamily :: mp_jobs s2); rewrite G3.
Qed.
Lemma recv_all n (v q : list Z) : zlen v <= n -> stream_recv n (zlen v) (v ++ q) = (v, q).
Proof.
  intros H. pose proof (zlen_nonneg v). unfold stream_recv, taken. rewrite Z.min_r, Z.max_r by lia. by rewrite ztake_app_exact, zdrop_app_exact.
Qed.
Lemma flush_nothing a sent fin cbs f s : f_reply f = [] -> exists s', reply_flush sp a sent fin cbs f s = callbacks cbs s' /\ mp_flows s' = mp_flows (put_flow f s) /\ mp_jobs s' = mp_jobs s.
Proof.
  intros Hr. unfold reply_flush, m_reply_flush. rewrite Hr. change (zlen [] =? 0) with true. rewrite !orb_true_r. cbn [snd existsb]. unfold commit. rewrite andb_negb_r.
  eexists. split; [reflexivity|]. done.
Qed.

(** C20: the OPEN frame that one side writes for a mapping's target, read by the other side from a
    new stream in whatever portions hold at least the header and then the rest, becomes exactly
    one queued resolution of that host, port and protocol, owned by a live flow with the frame's
    identifier, provided the identifier is free and of the writer's parity and the limits of flows
    and jobs are not reached; what follows the frame stays on the stream. *)
Theorem open_roundtrip a k f s protocol id port host n1 n2 answers rest :
  get_flow k s = Some f -> fresh_stream f -> can_open s protocol id -> can_resolve (ca_target (fa_control a)) s ->
  1 <= port < 65536 -> m_host_valid host = true -> M_HEADER <= n1 -> zlen host + 2 <= n2 ->
  exists s' g,
    control_rounds sp proof 2 a (Get n1 false :: Get n2 false :: answers) (open_frame protocol id port host ++ rest) k s =
      (true, answers, rest, callbacks (fa_cbs a) s') /\
    mp_jobs s' = Job (Some k) 0 0 port protocol host OtherFamily :: mp_jobs s /\
    get_flow k s' = Some g /\ f_id g = id /\ f_protocol g = protocol /\ f_phase g = M_RESOLVING /\ data_flow g = true.
Proof.
  intros Hg Hf Ho Hr Hp Hh Hn1 Hn2. pose proof (host_size host Hh) as Hs. unfold OB_MAX_HOST in Hs. destruct (get_flow_key _ _ _ Hg) as [Hk _].
  set (hdr := m_header M_OPEN protocol (zlen host + 2) id). set (body := m_put16 port ++ host).
  assert (Hb : zlen body = zlen host + 2) by (unfold body; rewrite zlen_app, zlen_put16; lia).
  assert (Hhl : zlen hdr = M_HEADER) by apply zlen_header.
  change (open_frame protocol id port host) with (hdr ++ body). rewrite <- app_assoc. cbn [control_rounds]. rewrite Hg.
  destruct Hf as [F1 F2 F3 F4 F5 F6 F7]. replace (f_control_need f - zlen (f_control f)) with (zlen hdr) by (rewrite F5, F6, Hhl; reflexivity). rewrite (recv_all n1 hdr (body ++ rest)) by lia.
  change (f <| f_control ::= fun c => c ++ hdr |>) with (f <| f_control := f_control f ++ hdr |>). rewrite F5. cbn [app].
  change (f_control (f <| f_control := hdr |>)) with hdr. change (f_control_need (f <| f_control := hdr |>)) with (f_control_need f).
  rewrite Hhl, F6, Z.eqb_refl. cbn [andb]. unfold hdr at 1. rewrite (open_header f s) by (try done; unfold OB_MAX_HOST; lia). fold hdr.
  set (wire := wire_version (mp_peer s)). set (g := named protocol id wire (zlen host + 2) hdr f). cbn [andb].
  change (f_control g) with hdr. change (f_control_need g) with (M_HEADER + (zlen host + 2)). rewrite Hhl, (proj2 (Z.eqb_neq _ _)) by lia. cbn [orb]. rewrite (proj2 (Z.eqb_neq _ _)) by (unfold M_HEADER; lia).
  assert (Hg1 : get_flow k (put_flow g s) = Some g) by (by apply (get_put k s f)). rewrite Hg1. change (f_control g) with hdr. change (f_control_need g) with (M_HEADER + (zlen host + 2)).
  replace (M_HEADER + (zlen host + 2) - zlen hdr) with (zlen body) by lia. rewrite (recv_all n2 body rest) by lia.
  set (h := g <| f_control ::= fun c => c ++ body |>). change (f_control h) with (hdr ++ body). change (f_control_need h) with (M_HEADER + (zlen host + 2)).
  rewrite (zlen_app hdr body), Hhl, Hb, (proj2 (Z.eqb_neq _ _)) by lia. cbn [andb].
  change (f_control h) with (hdr ++ body). change (f_control_need h) with (M_HEADER + (zlen host + 2)). rewrite (zlen_app hdr body), Hhl, Hb, Z.eqb_refl.
  assert (Hpr : 0 <= protocol < 256) by (destruct (co_protocol _ _ _ Ho) as [-> | ->]; by unfold OB_REMOTE_TCP, OB_REMOTE_UDP).
  assert (Hid : 0 <= id <= UINT64_MAX) by (pose proof (co_id _ _ _ Ho); lia).
  set (s1 := put_flow h (put_flow g s)). change h with (named protocol id wire (zlen host + 2) (open_frame protocol id port host) f).
  destruct (open_resolves (fa_control a) f s1 protocol id wire port host) as (s2 & E & Hfl & Hj); [by destruct Hr|done..|]. rewrite E. clear E.
  assert (Hg2 : get_flow k s1 = Some h) by (by apply (get_put k _ g)). rewrite <- (get_other k _ _ Hfl) in Hg2.
  set (r := named protocol id wire (zlen host + 2) _ f <| f_resolve := true |> <| f_phase := M_RESOLVING |>).
  assert (Hg3 : get_flow k (put_flow r s2) = Some r) by (by apply (get_put k s2 h)). rewrite Hg3. cbn [negb andb].
  destruct (flush_nothing (fa_control a) (fa_sent a) (fa_fin a) (fa_cbs a) r (put_flow r (put_flow r s2)) F7) as (s3 & -> & Hfl3 & Hj3).
  exists s3, r. split; [done|]. split; [rewrite Hj3; change (mp_jobs (put_flow r (put_flow r s2))) with (mp_jobs s2); rewrite Hj; by rewrite Hk|].
  split; [|split_and!; try done; unfold data_flow; change (f_proof r) with (f_proof f); by rewrite F1].
  rewrite (get_other k (put_flow r (put_flow r (put_flow r s2)))) by done. apply (get_put k _ r); [|done]. by apply (get_put k _ r).
Qed.
End open.

(** A broker's side that is asked for a target. *)
Definition asked_peer : ob_remote_peer := sample_peer <| is_server := true |> <| ready := true |> <| proof_ready := true |> <| wire_version := 2 |>.
Definition asked_flow : mflow := zero_flow 0 7 <| f_stream := true |> <| f_transient := true |>.
Definition asked : mpeer := new_mpeer asked_peer <| mp_flows := [asked_flow] |> <| mp_next_key := 1%nat |>.
Definition asked_answers : flow_answers :=
  FlowAnswers (ControlAnswers 10 0 0 (TargetAnswers 2 true true true true 0) (fun _ => OpenAnswers true SendAgain SendAgain 0 0 0 [])) [] [] SendAgain SendAgain [].
Lemma open_roundtrip_witness : exists s' g,
  control_rounds 24 (fun _ _ => None) 2 asked_answers [Get 900 false; Get 100 false] (open_frame OB_REMOTE_TCP 5 5432 (lit "db.lan") ++ [1; 2]) 0 asked =
    (true, [], [1; 2], callbacks [] s') /\
  mp_jobs s' = [Job (Some 0%nat) 0 0 5432 OB_REMOTE_TCP (lit "db.lan") OtherFamily] /\
  get_flow 0 s' = Some g /\ f_id g = 5 /\ f_protocol g = OB_REMOTE_TCP /\ f_phase g = M_RESOLVING /\ data_flow g = true.
Proof.
  apply (open_roundtrip 24 (fun _ _ => None) asked_answers 0 asked_flow asked OB_REMOTE_TCP 5 5432 (lit "db.lan") 900 100 [] [1; 2]).
  - reflexivity.
  - constructor; reflexivity.
  - constructor; try reflexivity; [by left|unfold UINT64_MAX; lia].
  - constructor; [reflexivity|right; cbn; lia|reflexivity].
  - lia.
  - reflexivity.
  - unfold M_HEADER. lia.
  - vm_compute. discriminate.
Defined.

(** ** Memory *)

(** What is allocated: flow records, which [m_flow_new] takes with [m_control_alloc], and the data
    blocks of buffers, packets and jobs, which [m_alloc] gives; [h_memory] is the counter. *)
Record heap := Heap { h_memory : Z; h_records : Z; h_data : list Z }.
Inductive mem_event := MRecord (ok : bool) | MData (ok : bool) (n : Z) | MFreeRecord | MFreeData (i : nat).
Section budget.
Context (sizeof_flow max_flows : Z).
Definition mem_step (h : heap) (ev : mem_event) : heap :=
  match ev with
  | MRecord ok => match m_control_alloc ok sizeof_flow (h_memory h) with Some m => Heap m (h_records h + 1) (h_data h) | None => h end
  | MData ok n => match m_alloc sizeof_flow ok max_flows n (h_memory h) with Some m => Heap m (h_records h) (n :: h_data h) | None => h end
  | MFreeRecord => if 0 <? h_records h then Heap (m_free sizeof_flow (h_memory h)) (h_records h - 1) (h_data h) else h
  | MFreeData i => match h_data h !! i with Some n => Heap (m_free n (h_memory h)) (h_records h) (take i (h_data h) ++ drop (S i) (h_data h)) | None => h end
  end.
Definition mem_run (evs : list mem_event) : heap := fold_left mem_step evs (Heap 0 0 []).
Definition total (l : list Z) : Z := foldr Z.add 0 l.
Definition record_limit : Z := m_limit max_flows 128 M_FLOWS + 2.
Context (Hsize : 0 < sizeof_flow) (Hfit : (M_FLOWS + 2) * sizeof_flow <= M_MEMORY) (Hmax : 0 <= max_flows).

Lemma record_limit_range : 2 <= record_limit <= M_FLOWS + 2.
Proof. unfold record_limit, m_limit, truth, M_FLOWS. destruct (Z.eqb_spec max_flows 0), (Z.ltb_spec max_flows 512); cbn; lia. Qed.
Lemma reserve_fits : 0 <= M_MEMORY - record_limit * sizeof_flow <= M_MEMORY.
Proof. pose proof record_limit_range. unfold M_MEMORY, M_FLOWS in *. nia. Qed.
Lemma total_app l k : total (l ++ k) = total l + total k.
Proof. unfold total. induction l; simpl in *; lia. Qed.
Record heap_ok (h : heap) : Prop := {
  ho_records : 0 <= h_records h; ho_blocks : Forall (fun n => 0 <= n) (h_data h);
  ho_memory : h_memory h = h_records h * sizeof_flow + total (h_data h); ho_bound : h_memory h <= M_MEMORY;
  ho_data : total (h_data h) <= M_MEMORY - record_limit * sizeof_flow }.
Lemma total_nonneg l : Forall (fun n => 0 <= n) l -> 0 <= total l.
Proof. unfold total. induction 1; simpl in *; lia. Qed.
Lemma control_spec ok n m : 0 <= n -> m_control_alloc ok n m = if (m + n <=? M_MEMORY) && (n <=? M_MEMORY) && ok then Some (m + n) else None.
Proof.
  intros Hn. unfold m_control_alloc. destruct (Z.ltb_spec M_MEMORY n), (Z.ltb_spec (M_MEMORY - n) m), (Z.leb_spec (m + n) M_MEMORY), (Z.leb_spec n M_MEMORY), ok; cbn; try lia; done.
Qed.
Lemma free_spec n m : 0 <= n <= m -> m <= M_MEMORY -> m_free n m = m - n.
Proof. intros H1 H2. unfold m_free, u64. apply Z.mod_small. unfold M_MEMORY, UINT64_MAX in *. lia. Qed.
Lemma mem_step_ok h ev : (forall ok n, ev = MData ok n -> 0 <= n) -> heap_ok h -> heap_ok (mem_step h ev).
Proof.
  intros Hn H. pose proof H as [H1 H2 H3 H4 H5]. pose proof (total_nonneg _ H2) as Hd. pose proof reserve_fits as Hr. destruct ev as [ok|ok n| |i]; cbn [mem_step].
  - rewrite control_spec by lia. destruct (_ && _) eqn:E; [|done]. apply andb_true_iff in E as [[E _]%andb_true_iff _]. apply Z.leb_le in E. constructor; cbn [h_records h_memory h_data]; try done; nia.
  - specialize (Hn ok n eq_refl). unfold m_alloc, u64. fold record_limit. cbv zeta. rewrite (Z.mod_small (M_MEMORY - record_limit * sizeof_flow)) by (unfold M_MEMORY in *; lia).
    destruct (_ || _) eqn:E; [done|]. apply orb_false_iff in E as [E1 E2]. apply Z.ltb_ge in E1, E2. rewrite control_spec by lia. destruct (_ && _); [|done].
    change (total (n :: h_data h)) with (n + total (h_data h)) in *.
    constructor; cbn [h_records h_memory h_data]; try done; [by constructor|change (total (n :: h_data h)) with (n + total (h_data h)); nia..].
  - destruct (Z.ltb_spec 0 (h_records h)); [|done]. assert (sizeof_flow <= h_records h * sizeof_flow) by nia. rewrite free_spec by lia. constructor; cbn [h_records h_memory h_data]; try done; nia.
  - destruct (h_data h !! i) as [n|] eqn:E; [|done]. pose proof (take_drop_middle _ _ _ E) as Em. rewrite <- Em in H2, H3, H5, Hd. apply Forall_app in H2 as [H2 H2'].
    inversion_clear H2' as [|? ? Hn0 Ht]. rewrite total_app in H3, H5. change (total (n :: drop (S i) (h_data h))) with (n + total (drop (S i) (h_data h))) in H3, H5. pose proof (total_nonneg _ H2). pose proof (total_nonneg _ Ht).
    assert (0 <= h_records h * sizeof_flow) by nia. rewrite free_spec by lia. constructor; cbn [h_records h_memory h_data]; rewrite ?total_app; try done; [by apply Forall_app|lia..].
Qed.
Lemma mem_run_ok evs h : Forall (fun ev => forall ok n, ev = MData ok n -> 0 <= n) evs -> heap_ok h -> heap_ok (fold_left mem_step evs h).
Proof. intros He. revert h. induction He as [|ev evs H He IH]; intros h Hh; [done|]. cbn [fold_left]. by apply IH, mem_step_ok. Qed.
End budget.

(** C29: over any sequence of allocations and releases of live blocks, the counter of a peer's
    mapping memory is the sum of the live blocks, never goes below zero and never passes 16 MiB;
    and data can never crowd out control: while fewer flow records than the configured flows plus
    two are live, another one fits. *)
Theorem memory_budget sizeof_flow max_flows evs :
  0 < sizeof_flow -> (M_FLOWS + 2) * sizeof_flow <= M_MEMORY -> 0 <= max_flows -> Forall (fun ev => forall ok n, ev = MData ok n -> 0 <= n) evs ->
  let h := mem_run sizeof_flow max_flows evs in
  h_memory h = h_records h * sizeof_flow + total (h_data h) /\ 0 <= h_memory h <= M_MEMORY /\
  (h_records h < m_limit max_flows 128 M_FLOWS + 2 -> m_control_alloc true sizeof_flow (h_memory h) = Some (h_memory h + sizeof_flow)).
Proof.
  intros Hs Hf Hm He h. destruct (mem_run_ok sizeof_flow max_flows Hs Hf Hm evs (Heap 0 0 []) He) as [H1 H2 H3 H4 H5].
  { pose proof (reserve_fits sizeof_flow max_flows Hs Hf Hm). constructor; cbn; try lia; constructor. }
  fold (mem_run sizeof_flow max_flows evs) in H1, H2, H3, H4, H5. fold h in H1, H2, H3, H4, H5. pose proof (total_nonneg _ H2). assert (0 <= h_records h * sizeof_flow) by nia.
  split; [done|]. split; [lia|]. intros Hc. change (h_records h < record_limit max_flows) in Hc. rewrite control_spec by lia.
  rewrite (proj2 (Z.leb_le _ _)), (proj2 (Z.leb_le _ _)); [done| |nia]. pose proof (record_limit_range max_flows Hm). unfold M_FLOWS, M_MEMORY in *. nia.
Qed.
Definition busy : list mem_event := [MRecord true; MData true OB_STREAM_BUFFER; MData true OB_STREAM_BUFFER; MRecord true; MFreeData 1; MData true 16777216; MFreeRecord].
Lemma memory_budget_witness :
  mem_run 3000 0 busy = Heap 68536 1 [65536] /\ m_control_alloc true 3000 68536 = Some 71536.
Proof.
  split; [vm_compute; reflexivity|].
  refine (proj2 (proj2 (memory_budget 3000 0 busy _ _ _ _)) _); [lia|vm_compute; discriminate|lia| |vm_compute; reflexivity].
  unfold busy, OB_STREAM_BUFFER. repeat constructor; intros ok n [=]; lia.
Defined.
