(* ===== verification/MapEngine.v ===== *)
(** * The engine of a peer

    src/sdk/c/remote/peer/engine.c: the callbacks of libjuice and of QUIC, the handshake, the
    start and the retirement of a transport and the rounds of the I/O thread, which drive the
    mapping table.  The thread holds the peer's mutex for a whole round; libjuice's callbacks
    come between rounds, the calls into QUIC run the callbacks given with them. *)

From S2P Require Import Prelude Peer PeerCrypto Coordinator Control MapUdp MapFlow MapV2 MapTable MapGuard.

Definition OB_PACKET_LIMIT : Z := 256.
Definition OB_PACKET_SIZE : Z := 2048.

(** [en_engine], [en_ice]: the QUIC engine and the ICE agent exist; [en_queue]: the packets
    libjuice delivered. *)
Record engine := EngineState { en_table : mpeer; en_engine : bool; en_ice : bool; en_queue : list (list Z) }.
#[export] Instance eta_engine : Eta engine := fun e => EngineState (en_table e) (en_engine e) (en_ice e) (en_queue e).
Definition en_peer (e : engine) : ob_remote_peer := mp_peer (en_table e).
Definition new_engine (p : ob_remote_peer) : engine := EngineState (new_mpeer p) false false [].
Definition on_peer (g : ob_remote_peer -> ob_remote_peer) (s : mpeer) : mpeer := s <| mp_peer ::= g |>.
Definition fail_handle (code : Z) (message : string) (s : mpeer) : mpeer := on_peer (fun p => ob_peer_fail_locked p code (lit message)) s.

(** ** Callbacks of libjuice *)

Inductive juice_state := JUICE_DISCONNECTED | JUICE_GATHERING | JUICE_CONNECTING | JUICE_CONNECTED | JUICE_COMPLETED | JUICE_FAILED.
#[export] Instance juice_state_eq_dec : EqDecision juice_state.
Proof. solve_decision. Defined.
(** [current]: the callback's agent is the peer's. *)
Definition ice_ignored (current : bool) (e : engine) : bool := negb current || stopped (en_table e).
Definition ice_state (current : bool) (st : juice_state) (e : engine) : engine :=
  if ice_ignored current e then e
  else
    let e := e <| en_table ::= on_peer (fun p => p <| ice_ready := bool_decide (st = JUICE_CONNECTED) || bool_decide (st = JUICE_COMPLETED) |>) |> in
    if bool_decide (st = JUICE_FAILED) then e <| en_table ::= on_peer (fun p => p <| ice_failed := true |>) |> else e.
Definition ice_gathered (current : bool) (e : engine) : engine :=
  if ice_ignored current e then e else e <| en_table ::= on_peer (fun p => p <| gathered := true |>) |>.
Definition ice_receive (current alloc_ok : bool) (bytes : list Z) (e : engine) : engine :=
  if ice_ignored current e || (OB_PACKET_SIZE <? zlen bytes) || (zlen bytes =? 0) then e
  else if negb alloc_ok then e
  else if OB_PACKET_LIMIT <=? zlen (en_queue e) then e
  else e <| en_queue ::= fun q => q ++ [bytes] |>.

(** [selected]: the local candidate of the selected pair, if there is one. *)
Definition ob_force_path (selected : option (list Z)) (e : engine) : bool :=
  if negb (relay (en_peer e) =? OB_REMOTE_RELAY_FORCE) then true
  else en_ice e && match selected with Some local => ob_relay_candidate local | None => false end.

(** ** Callbacks of QUIC *)

(** What [juice_send] and [write_socket] answer. *)
Inductive juice_answer := JUICE_ERR_SUCCESS | JUICE_ERR_AGAIN | JUICE_ERR_OTHER.
Inductive write_result := Written (n : Z) | XQC_SOCKET_EAGAIN | XQC_SOCKET_ERROR.
(** The second component is what is given to libjuice. *)
Definition write_socket (selected : option (list Z)) (answer : juice_answer) (buf : list Z) (e : engine) : write_result * option (list Z) :=
  if stopped (en_table e) || transport_detaching (en_peer e) || negb (ob_force_path selected e) then (XQC_SOCKET_ERROR, None)
  else (match answer with JUICE_ERR_SUCCESS => Written (zlen buf) | JUICE_ERR_AGAIN => XQC_SOCKET_EAGAIN | JUICE_ERR_OTHER => XQC_SOCKET_ERROR end, Some buf).
Definition verify_cert (sha256 : list Z -> list Z) (certs : list (list Z)) (p : ob_remote_peer) : Z :=
  match certs with c :: _ => if ob_certificate_matches sha256 p c then 0 else -1 | [] => -1 end.
Definition set_timer (now after : Z) (p : ob_remote_peer) : ob_remote_peer := p <| next_timer_us := u64 (now + after) |>.
Definition accept_conn (s : mpeer) : Z * mpeer :=
  if mp_conn s || stopped s || transport_detaching (mp_peer s) then (-1, s) else (0, s <| mp_conn := true |>).

Section engine.
Context (sizeof_packet : Z) (connection_proof : session -> bool -> option (list Z)).

(** The handshake of a connection ([current]: it is the peer's) whose TLS object reports the
    transport parameters [params] and whose certificate hashes to [digest]. *)
Record handshake_answers := HandshakeAnswers {
  ha_current : bool; ha_params : option (option (list Z)); ha_digest : option (list Z); ha_ok : bool; ha_first : bool; ha_open : open_answers }.
Definition ob_peer_handshake (a : handshake_answers) (s : mpeer) : mpeer :=
  let p := mp_peer s in
  if negb (ha_current a) || negb (mp_conn s) || stopped s || transport_detaching p then s
  else if negb (ob_connection_encrypted (ha_params a)) then fail_handle OB_REMOTE_EAUTH "QUIC peer application encryption policy failed" s
  else if negb (is_server p) && negb (match ha_digest a with Some hash => (zlen hash =? 32) && list_eqb hash (fingerprint p) | None => false end)
  then fail_handle OB_REMOTE_EAUTH "QUIC certificate pin mismatch" s
  else ob_mapping_handshake sizeof_packet connection_proof (ha_ok a) (ha_first a) (ha_open a) (on_peer (fun p => p <| tls_ready := true |>) s).

(** The callbacks a call into the QUIC engine runs. *)
Inductive ecallback :=
| EcMapping (cb : callback) | EcAccept | EcRefuse (current : bool) | EcCreate | EcHandshake (a : handshake_answers) | EcTimer (now after : Z).
Definition on_engine (s : mpeer) (c : ecallback) : mpeer :=
  match c with
  | EcMapping cb => on_callback s cb
  | EcAccept => (accept_conn s).2
  | EcRefuse current => if current then s <| mp_conn := false |> else s
  | EcCreate => s <| mp_conn := true |>
  | EcHandshake a => ob_peer_handshake a s
  | EcTimer now after => on_peer (set_timer now after) s
  end.
Definition xquic (cs : list ecallback) (s : mpeer) : mpeer := fold_left on_engine cs s.

(** ** A transport *)

(** The settings of the QUIC connection. *)
Record conn_settings := ConnSettings {
  ping_on : bool; init_idle_time_out : Z; idle_time_out : Z; max_datagram_frame_size : Z; max_pkt_out_size : Z; max_streams_bidi : Z;
  max_streams_uni : Z; sndq_packets_used_max : Z; init_recv_window : Z; recv_rate_bytes_per_sec : Z }.
Definition settings_of (p : ob_remote_peer) : conn_settings :=
  ConnSettings (wire_version p =? 1) (timeout_ms p) (transport_idle_ms p) 65535 1350 (u32 (max_flows p + 1)) 1 1024 OB_STREAM_BUFFER (16 * 1024 * 1024).
(** The answers of the calls of [engine_init]; [ia_connect]: the callbacks of [xqc_connect]. *)
Record init_answers := InitAnswers { ia_config : bool; ia_create : bool; ia_alpn : bool; ia_cid : bool; ia_conn : bool; ia_connect : list ecallback }.
Definition engine_init (a : init_answers) (e : engine) : bool * engine :=
  if negb (ia_config a) then (false, e)
  else
    let e := e <| en_engine := ia_create a |> in
    if negb (ia_create a) then (false, e)
    else if negb (ia_alpn a) then (false, e)
    else
      let e := e <| en_table ::= on_peer (fun p =>
        p <| transport_idle_ms := if wire_version p =? 2 then transport_timeout_ms (r_policy (recovery p)) else 90000 |> <| next_ping_us := 0 |>) |> in
      if is_server (en_peer e) then (true, e)
      else
        let e := e <| en_table ::= xquic (ia_connect a) |> in
        if negb (ia_cid a) then (false, e) else (ia_conn a, e <| en_table ::= fun s => s <| mp_conn := ia_conn a |> |>).
(** [now]: the clock in the suspension; [closing]: the callbacks of the close and of the
    engine's destruction. *)
Definition transport_detach (now : Z) (closing : list ecallback) (e : engine) : engine :=
  let s := on_peer (fun p => p <| transport_detaching := true |>) (en_table e) in
  let s := ob_mapping_transport_suspend sizeof_packet now (wire_version (mp_peer s) =? 2) (recovery_deadline_us (mp_peer s)) s in
  let s := (if en_engine e then xquic closing s else s) <| mp_conn := false |> in
  e <| en_engine := false |>
    <| en_table := on_peer (fun p => p <| next_timer_us := 0 |> <| ready := false |> <| tls_ready := false |> <| proof_ready := false |>
                                       <| transport_detaching := false |> <| transport_detached := true |>) s |>.

(** ** The I/O thread *)

Record round_answers := RoundAnswers {
  ra_now : Z; ra_t1 : Z; ra_t2 : Z; ra_suspend : Z; ra_broker_stop : bool; ra_selected : option (list Z); ra_init : init_answers;
  ra_mapping : mapping_answers; ra_packet : list Z -> list ecallback; ra_finish : list ecallback; ra_ping : list ecallback;
  ra_main : list ecallback; ra_continue : list ecallback; ra_closing : list ecallback }.
(** The conditions under which a transport is given up. *)
Definition abandon (a : round_answers) (e : engine) : mpeer :=
  let now := ra_now a in
  let fail (c : bool) (code : Z) (message : string) (s : mpeer) := if c then fail_transport (ra_t1 a) (ra_t2 a) code message s else s in
  let s := en_table e in let p := mp_peer s in
  let s := fail (ice_failed p || negb (ice_ready p) || negb (ob_force_path (ra_selected a) e)) OB_REMOTE_EICE "ICE association lost or relay policy failed"%string s in
  let s := fail (negb (ready (mp_peer s)) && (deadline_us (mp_peer s) <=? now)) OB_REMOTE_ETIMEOUT "Peer setup timed out"%string s in
  fail (lease_deadline_set (mp_peer s) && (lease_deadline_us (mp_peer s) <=? now)) OB_REMOTE_ECLOSED "Control authorization lease expired"%string s.
Definition process_packets (a : round_answers) (queue : list (list Z)) (s : mpeer) : mpeer :=
  fold_left (fun s packet => if stopped s then s else xquic (ra_packet a packet) s) queue s.
Definition ping_interval (p : ob_remote_peer) : Z := Z.min (transport_idle_ms p * 1000 / 3) 5000000.
Definition keep_alive (a : round_answers) (s : mpeer) : mpeer :=
  let p := mp_peer s in
  if (wire_version p =? 2) && tls_ready p && mp_conn s && negb (attempt_stop p) && ((next_ping_us p =? 0) || (next_ping_us p <=? ra_now a))
  then on_peer (fun q => q <| next_ping_us := u64 (ra_now a + ping_interval p) |>) (xquic (ra_ping a) s) else s.
Definition transport_turn (a : round_answers) (s : mpeer) : mpeer :=
  if stopped s then s
  else
    let s := xquic (ra_finish a) s in
    let s := if attempt_stop (mp_peer s) then s else ob_mapping_tick sizeof_packet connection_proof (ra_mapping a) s in
    let s := keep_alive a s in
    let s := if attempt_stop (mp_peer s) then s else xquic (ra_main a) s in
    if mp_conn s && negb (stopped s) then xquic (ra_continue a) s else s.
Definition worker_round (a : round_answers) (e : engine) : engine :=
  let e := if is_server (en_peer e) && ra_broker_stop a then e <| en_table ::= fail_handle OB_REMOTE_ECLOSED "Broker stopped or revoked" |> else e in
  let p := en_peer e in
  if attempt_stop p || negb (transport_available p) then
    let e := if transport_detached p then e else transport_detach (ra_suspend a) (ra_closing a) e in
    e <| en_table ::= ob_mapping_recovery_tick sizeof_packet (ra_now a) (ra_mapping a) |>
  else if negb (en_engine e) then
    let (ok, e) := engine_init (ra_init a) (e <| en_table ::= on_peer (fun p => p <| transport_detached := false |>) |>) in
    if ok then e else e <| en_table ::= fail_transport (ra_t1 a) (ra_t2 a) OB_REMOTE_EQUIC "QUIC engine initialization failed" |>
  else
    let s := transport_turn a (process_packets a (en_queue e) (abandon a e)) in
    let e := e <| en_queue := [] |> <| en_table := s |> in
    if attempt_stop (en_peer e) && negb (transport_detached (en_peer e)) then transport_detach (ra_suspend a) (ra_closing a) e else e.
(** How long the thread sleeps after a round in the last case, in milliseconds; else 10. *)
Definition wait_ms (now : Z) (p : ob_remote_peer) : Z :=
  if truth (next_timer_us p) then
    let delay := if now <? next_timer_us p then u64 (next_timer_us p - now + 999) / 1000 else 1 in
    if delay <? 10 then (if truth delay then delay else 1) else 10
  else 10.
(** After the loop. *)
Definition worker_exit (g : mapping_answers) (closing : list ecallback) (e : engine) : engine :=
  let s := ob_mapping_tick sizeof_packet connection_proof g (en_table e) in
  let s := on_peer (fun p => p <| transport_detaching := true |>) s in
  let s := (if en_engine e then xquic closing s else s) <| mp_conn := false |> in
  e <| en_engine := false |> <| en_table := on_peer (fun p => p <| transport_detached := true |> <| transport_detaching := false |>) s |>.

(** ** What the peer's threads do *)

(** What the other threads may do to the handle: never make it ready or detached; change the
    session only while no transport is attached and the peer is not ready. *)
Record others (p p' : ob_remote_peer) : Prop := {
  ot_server : is_server p' = is_server p;
  ot_limit : max_flows p' = max_flows p;
  ot_ready : ready p' = true -> ready p = true;
  ot_detached : transport_detached p' = true -> transport_detached p = true;
  ot_session : session_of p' = session_of p \/ transport_detached p = true /\ ready p' = false }.
(** The history of received proofs is that of the current session. *)
Definition set_peer (p' : ob_remote_peer) (s : mpeer) : mpeer :=
  s <| mp_received ::= fun l => if bool_decide (session_of p' = session_of (mp_peer s)) then l else [] |> <| mp_peer := p' |>.
Inductive engine_step : engine -> engine -> Prop :=
| es_round a e : stop (en_peer e) = false -> engine_step e (worker_round a e)
| es_exit g closing e : stop (en_peer e) = true -> engine_step e (worker_exit g closing e)
| es_state current st e : engine_step e (ice_state current st e)
| es_gathered current e : engine_step e (ice_gathered current e)
| es_receive current ok bytes e : engine_step e (ice_receive current ok bytes e)
| es_agent agent e : engine_step e (e <| en_ice := agent |>)
| es_retire e : transport_detached (en_peer e) = true -> engine_step e (e <| en_ice := false |> <| en_queue := [] |>)
| es_portmap a host port protocol e : engine_step e (e <| en_table ::= fun s => (m_portmap a host port protocol s).2 |>)
| es_map_close k e : engine_step e (e <| en_table ::= ob_remote_map_close k |>)
| es_job_take e : engine_step e (e <| en_table ::= job_take |>)
| es_job_finish i result address e : engine_step e (e <| en_table ::= job_finish i result address |>)
| es_others p' e : others (en_peer e) p' -> engine_step e (e <| en_table ::= set_peer p' |>)
| es_cleanup e : en_engine e = false -> stop (en_peer e) = true -> engine_step e (e <| en_queue := [] |> <| en_table ::= ob_mapping_cleanup |>).

(** ** Without a transport *)

(** Every proof stream is dead; without a connection no callback can start one. *)
Definition no_proof (s : mpeer) : Prop := forall f, f ∈ mp_flows s -> f_proof f = true -> f_phase f = M_DEAD.
Definition idle (s : mpeer) : Prop := mp_conn s = false /\ no_proof s.
Definition calm (s s' : mpeer) : Prop := idle s -> idle s'.
Lemma calm_refl s : calm s s.
Proof. unfold calm. auto. Qed.
Lemma calm_trans s s1 s2 : calm s s1 -> calm s1 s2 -> calm s s2.
Proof. unfold calm. auto. Qed.
Lemma calm_same s s' : mp_conn s' = mp_conn s -> mp_flows s' = mp_flows s -> calm s s'.
Proof. intros E1 E2 [H1 H2]. split; [by rewrite E1|]. unfold no_proof. by rewrite E2. Qed.
Lemma no_proof_put f' s : no_proof s -> (f_proof f' = true -> f_phase f' = M_DEAD) -> no_proof (put_flow f' s).
Proof.
  intros H Hf g Hg. unfold put_flow in Hg. cbn in Hg. apply list_elem_of_In, in_map_iff in Hg as (h & <- & Hh). apply list_elem_of_In in Hh.
  destruct (flow_is _ h); auto.
Qed.
Lemma no_proof_sub s s' : (forall f, f ∈ mp_flows s' -> f ∈ mp_flows s) -> no_proof s -> no_proof s'.
Proof. unfold no_proof. auto. Qed.
Lemma commit_fields t1 t2 f r s : mp_conn (commit t1 t2 f r s) = mp_conn s /\ mp_flows (commit t1 t2 f r s) = mp_flows (put_flow r.1 s).
Proof. destruct r as [f' fx]. unfold commit. by destruct (_ && _). Qed.
Lemma commit_no_proof t1 t2 f r s : no_proof s -> (f_proof r.1 = true -> f_phase r.1 = M_DEAD) -> no_proof (commit t1 t2 f r s).
Proof. intros H Hr. destruct (commit_fields t1 t2 f r s) as [_ E]. unfold no_proof. rewrite E. by apply no_proof_put. Qed.
Lemma abort_dead f : f_phase (m_abort sizeof_packet f).1 = M_DEAD.
Proof. unfold m_abort. destruct (m_release_io _ _) as [g fx] eqn:E. assert (f_phase g = M_DEAD) by (change g with (g, fx).1; by rewrite <- E). by destruct (_ && _). Qed.
Lemma calm_commit t1 t2 f r s : (f_proof r.1 = true -> f_phase r.1 = M_DEAD) -> calm s (commit t1 t2 f r s).
Proof. intros Hr [H1 H2]. split; [by rewrite (proj1 (commit_fields t1 t2 f r s))|by apply commit_no_proof]. Qed.
Lemma calm_abort f s : calm s (abort_flow sizeof_packet f s).
Proof. apply calm_commit. intros _. apply abort_dead. Qed.
Lemma calm_put f s : (f_proof f = true -> f_phase f = M_DEAD) -> calm s (put_flow f s).
Proof. intros Hf [H1 H2]. split; [done|by apply no_proof_put]. Qed.
Lemma del_sub k s f : f ∈ mp_flows (del_flow k s) -> f ∈ mp_flows s.
Proof. unfold del_flow. cbn. rewrite !list_elem_of_In. intros H. by apply filter_In in H as [H _]. Qed.
Lemma free_fields f s : mp_conn (m_flow_free sizeof_packet f s) = mp_conn s /\ (forall g, g ∈ mp_flows (m_flow_free sizeof_packet f s) -> g ∈ mp_flows s).
Proof.
  split; [exact (proj1 (commit_fields 0 0 f _ s))|]. intros g. rewrite free_flows. apply del_sub.
Qed.
Lemma calm_free f s : calm s (m_flow_free sizeof_packet f s).
Proof. intros [H1 H2]. destruct (free_fields f s) as [E1 E2]. split; [by rewrite E1|by apply (no_proof_sub s)]. Qed.
Lemma calm_state ok s s' : m_state_get ok s = Some s' -> calm s s'.
Proof. unfold m_state_get. destruct (mp_private s); [intros [= <-]; apply calm_refl|]. destruct ok; [|done]. intros [= <-]. by apply calm_same. Qed.
Lemma calm_on_flow k g s : (forall f, get_flow k s = Some f -> calm s (g f s)) -> calm s (on_flow k g s).
Proof. unfold on_flow. destruct (get_flow k s); [auto|intros _; apply calm_refl]. Qed.
Lemma no_proof_flow k s f : idle s -> get_flow k s = Some f -> f_proof f = true -> f_phase f = M_DEAD.
Proof. intros [_ H] (_ & Hin)%get_flow_key. by apply H. Qed.
Lemma calm_flow_new ok now s f s' : m_flow_new ok now s = Some (f, s') -> calm s s' /\ f_proof f = false.
Proof.
  unfold m_flow_new. destruct (_ <=? _); [done|]. destruct (m_state_get ok s) as [s1|] eqn:E; [|done]. destruct ok; [|done]. intros [= <- <-].
  split; [|done]. eapply calm_trans; [by apply (calm_state true)|]. intros [H1 H2]. split; [done|]. intros g Hg. apply elem_of_cons in Hg as [->|Hg]; [done|by apply H2].
Qed.
Lemma no_conn_open created f s : mp_conn s = false -> m_stream_open created f s = (false, f).
Proof. unfold m_stream_open. by intros ->. Qed.
Lemma calm_local_flow a m fd source s : calm s (m_local_flow sizeof_packet a m fd source s).2.
Proof.
  unfold m_local_flow. cbv zeta. destruct (_ <=? _); [apply calm_refl|]. destruct (m_flow_new _ _ s) as [[z s1]|] eqn:E; [|apply calm_refl].
  apply calm_flow_new in E as [C1 Hz]. eapply calm_trans; [exact C1|]. set (f0 := z <| f_local := _ |> <| f_protocol := _ |> <| f_map := _ |> <| f_wire_version := _ |>).
  destruct (_ <=? _); [apply calm_free|]. set (s2 := s1 <| mp_next_id ::= Z.add 1 |>). assert (C2 : calm s1 s2) by (by apply calm_same). eapply calm_trans; [exact C2|].
  set (f1 := f0 <| f_id := _ |>). set (f2 := match source with Some x => f1 <| f_source := x |> | None => f1 end).
  assert (H2 : f_proof f2 = false) by (unfold f2; by destruct source). clearbody f2 s2. clear C2 f1 f0.
  destruct (if f_protocol f2 =? OB_REMOTE_TCP then _ else _) as [[ok f3] fx] eqn:E3.
  assert (H3 : f_proof f3 = false).
  { destruct (f_protocol f2 =? OB_REMOTE_TCP); [|by injection E3 as _ <- _].
    destruct (tcp_buffers_ident (la_tx a) (la_rx a) sizeof_packet f2) as [Hi _]. rewrite E3 in Hi. apply ident_fields in Hi as (_ & _ & _ & Hp & _). cbn in Hp. congruence. }
  destruct (negb ok); [apply calm_free|]. destruct (_ && _); [apply calm_put; intros Hp; change (f_proof f3 = true) in Hp; congruence|]. intros Hi. rewrite no_conn_open by apply Hi. by apply calm_free.
Qed.
Lemma calm_map_packet k v source ok a s : calm s (map_packet sizeof_packet k v source ok a s).
Proof.
  unfold map_packet. destruct (get_map k s) as [m|]; [|apply calm_refl]. destruct (_ || _); [apply calm_refl|]. cbv zeta.
  match goal with |- calm s (let '(_, _) := ?x in _) => assert (H : calm s x.2); [|destruct x as [key s1]] end.
  { destruct (List.find _ _); [apply calm_refl|apply calm_local_flow]. }
  cbn [snd] in H. eapply calm_trans; [exact H|]. destruct key as [key|]; [|apply calm_refl].
  apply calm_on_flow. intros f Hf. destruct (bool_decide _); [apply calm_refl|]. intros Hi.
  pose proof (no_proof_flow key s1 f Hi Hf) as Hd. by apply calm_put.
Qed.
Lemma calm_put_map m s : calm s (put_map m s).
Proof. by apply calm_same. Qed.
Lemma calm_map_inputs n budget again ins k s : calm s (map_inputs sizeof_packet n budget again ins k s).2.
Proof.
  revert budget ins s. induction n as [|n IH]; intros budget ins s; [apply calm_refl|]. destruct ins as [|i ins]; cbn [map_inputs].
  - destruct (_ =? _); [apply calm_refl|]. destruct (get_map k s); [|apply calm_refl]. cbn [snd]. destruct (_ && _); [apply calm_put_map|apply calm_refl].
  - destruct (_ =? _); [apply calm_refl|]. destruct i as [nonblock a|v source ok a]; [|eapply calm_trans; [apply calm_map_packet|apply IH]].
    destruct (get_map k s); [|apply calm_refl]. eapply calm_trans; [|apply IH]. destruct nonblock; [apply calm_local_flow|apply calm_refl].
Qed.
Lemma calm_map_tick a budget k s : calm s (m_map_tick sizeof_packet a budget k s).2.
Proof. unfold m_map_tick. destruct (get_map k s); [|apply calm_refl]. destruct (_ || _); [apply calm_refl|apply calm_map_inputs]. Qed.
Lemma calm_offline_maps ans budget ks s : calm s (offline_maps sizeof_packet ans budget ks s).
Proof.
  revert budget s. induction ks as [|k ks IH]; intros budget s; [apply calm_refl|]. cbn [offline_maps]. destruct (_ =? _); [apply calm_refl|].
  destruct (get_map k s) as [m|]; [|apply IH]. destruct (_ || _); [apply IH|]. cbv zeta.
  match goal with |- calm s (let '(_, _) := ?x in _) => assert (H : calm s x.2); [|destruct x as [b s1]; eapply calm_trans; [exact H|apply IH]] end.
  destruct (_ =? _); [apply calm_map_tick|]. unfold m_udp_discard. cbv zeta. cbn [snd].
  eapply calm_trans; [apply calm_put_map|]. destruct (_ && _); [apply calm_put_map|apply calm_refl].
Qed.
Lemma calm_recovery_flows now ks s : calm s (recovery_flows sizeof_packet now ks s).
Proof.
  revert s. induction ks as [|k ks IH]; intros s; [apply calm_refl|]. cbn [recovery_flows]. eapply calm_trans; [|apply IH].
  match goal with |- calm s (on_flow k _ ?x) => apply (calm_trans s x) end.
  - apply calm_on_flow. intros f _. destruct (_ || _); [apply calm_abort|apply calm_refl].
  - apply calm_on_flow. intros f _. destruct (_ && _); [apply calm_free|apply calm_refl].
Qed.
Lemma calm_recovery_tick now g s : calm s (ob_mapping_recovery_tick sizeof_packet now g s).
Proof.
  unfold ob_mapping_recovery_tick. cbv zeta. set (s1 := recovery_flows _ _ _ _). apply (calm_trans s s1); [apply calm_recovery_flows|]. clearbody s1.
  destruct (m_state_get (ga_ok g) s1) as [s2|] eqn:E; [|apply calm_refl]. eapply calm_trans; [by eapply calm_state|].
  match goal with |- calm s2 (m_resolve_reap ?x) => apply (calm_trans s2 x); [|by apply calm_same] end.
  destruct (_ || _); [apply calm_offline_maps|apply calm_refl].
Qed.

(** ** Retiring a transport *)

Lemma fail_detaching p c m : transport_detaching (ob_peer_fail_locked p c m) = transport_detaching p.
Proof. unfold ob_peer_fail_locked. destruct (bool_decide _); [done|]. destruct (truth (result p)); [done|]. by destruct (_ || _). Qed.
Lemma transport_fail_detaching t1 t2 p c m : transport_detaching (ob_peer_transport_fail_locked t1 t2 p c m) = transport_detaching p.
Proof.
  unfold ob_peer_transport_fail_locked. destruct (stop p); [done|]. destruct (negb (managed p)); [apply fail_detaching|]. cbv zeta.
  by destruct (truth (attempt_result p)), (truth (outage_us _)), (ever_ready _ && _).
Qed.
Lemma m_fail_detaching t1 t2 p c m : transport_detaching (m_fail t1 t2 p c m) = transport_detaching p.
Proof. unfold m_fail. destruct (_ || _); [apply transport_fail_detaching|apply fail_detaching]. Qed.
Lemma commit_detaching t1 t2 f r s : transport_detaching (mp_peer (commit t1 t2 f r s)) = transport_detaching (mp_peer s).
Proof.
  assert (H : forall fx p, transport_detaching (fold_left (peer_fx t1 t2) fx p) = transport_detaching p).
  { induction fx as [|x fx IH]; intros p; [done|]. cbn [fold_left]. rewrite IH. destruct x; try done; [apply m_fail_detaching|apply transport_fail_detaching]. }
  destruct r as [f' fx]. unfold commit. cbn. rewrite H. by destruct (_ && _).
Qed.
(** A change of every listed flow. *)
Lemma fold_flows (P : mflow -> Prop) (h : mflow -> mflow * list effect) ks s : (forall f, P (h f).1 /\ f_key (h f).1 = f_key f) ->
  let s' := fold_left (fun s k => on_flow k (fun f s => commit 0 0 f (h f) s) s) ks s in
  transport_detaching (mp_peer s') = transport_detaching (mp_peer s) /\ forall f, f ∈ mp_flows s' -> P f \/ f ∈ mp_flows s /\ f_key f ∉ ks.
Proof.
  intros Hh. revert s. induction ks as [|k ks IH]; intros s; cbn [fold_left].
  { split; [done|]. intros f Hf. right. split; [done|apply not_elem_of_nil]. }
  destruct (IH (on_flow k (fun f s => commit 0 0 f (h f) s) s)) as [IH1 IH2]. clear IH. split.
  { rewrite IH1. unfold on_flow. destruct (get_flow k s); [apply commit_detaching|done]. }
  intros f Hf. destruct (IH2 f Hf) as [?|[H1 H2]]; [by left|]. clear IH1 IH2 Hf. unfold on_flow in H1. destruct (get_flow k s) as [g|] eqn:Eg.
  - rewrite (proj2 (commit_fields 0 0 g (h g) s)) in H1. unfold put_flow in H1. cbn in H1. apply list_elem_of_In, in_map_iff in H1 as (x & <- & Hx). apply list_elem_of_In in Hx.
    destruct (get_flow_key _ _ _ Eg) as [Hk _]. destruct (Hh g) as [Hp Hkk]. destruct (flow_is _ x) eqn:Ex; [by left|]. right. split; [done|].
    rewrite elem_of_cons. intros [E|?]; [|done]. unfold flow_is in Ex. rewrite Hkk, Hk, E, Nat.eqb_refl in Ex. done.
  - right. split; [done|]. rewrite elem_of_cons. intros [E|?]; [|done]. unfold get_flow in Eg. apply list_elem_of_In in H1.
    pose proof (List.find_none _ _ Eg _ H1) as H. unfold flow_is in H. by rewrite E, Nat.eqb_refl in H.
Qed.
Lemma fold_all (P : mflow -> Prop) (h : mflow -> mflow * list effect) s : (forall f, P (h f).1 /\ f_key (h f).1 = f_key f) ->
  let s' := fold_left (fun s k => on_flow k (fun f s => commit 0 0 f (h f) s) s) (map f_key (mp_flows s)) s in
  transport_detaching (mp_peer s') = transport_detaching (mp_peer s) /\ forall f, f ∈ mp_flows s' -> P f.
Proof.
  intros Hh. destruct (fold_flows P h (map f_key (mp_flows s)) s Hh) as [H1 H2]. split; [done|]. intros f Hf. destruct (H2 f Hf) as [?|[Hin Hk]]; [done|].
  destruct Hk. apply list_elem_of_In, in_map, list_elem_of_In, Hin.
Qed.
Lemma suspend_no_proof now preserve deadline s :
  let s' := ob_mapping_transport_suspend sizeof_packet now preserve deadline s in
  transport_detaching (mp_peer s') = transport_detaching (mp_peer s) /\ no_proof s'.
Proof.
  unfold ob_mapping_transport_suspend. cbv zeta. set (d := if deadline =? 0 then _ else _). set (k := preserve && _).
  destruct (fold_all (fun f => f_proof f = true -> f_phase f = M_DEAD) (suspend_flow sizeof_packet k d) (s <| mp_proof_started := false |>)) as [H1 H2]; [|by split].
  intros f. destruct (ident_fields _ _ (k_ident _ _ (suspend_keeps sizeof_packet k d f))) as (Hk & _). split; [|done].
  unfold suspend_flow. cbv zeta. set (g := f <| f_stream := false |>). destruct (suspend_keep k g) eqn:E; [|done]. cbn [negb]. intros Hp.
  change (f_proof f = true) in Hp. unfold suspend_keep in E. change (f_proof g) with (f_proof f) in E. by rewrite Hp in E.
Qed.
Lemma stop_io_no_proof s : no_proof (m_stop_io sizeof_packet s).
Proof.
  unfold m_stop_io. cbv zeta. set (s1 := s <| mp_maps ::= _ |>).
  destruct (fold_all (fun f => f_proof f = true -> f_phase f = M_DEAD)
    (fun f => m_release_io sizeof_packet (f <| f_close_requested := true |> <| f_phase := M_DEAD |>)) s1) as [_ H2]; [done|exact H2].
Qed.

(** The callbacks of a transport that is being retired. *)
Definition retiring (s : mpeer) : Prop := transport_detaching (mp_peer s) = true /\ no_proof s.
Lemma retiring_put f g k s : retiring s -> get_flow k s = Some f -> f_proof g = f_proof f -> f_phase g = f_phase f -> retiring (put_flow g s).
Proof.
  intros [H1 H2] (_ & Hin)%get_flow_key E1 E2. split; [done|]. apply no_proof_put; [done|]. rewrite E1, E2. by apply H2.
Qed.
Lemma retiring_peer g s : transport_detaching (g (mp_peer s)) = transport_detaching (mp_peer s) -> retiring s -> retiring (on_peer g s).
Proof. intros E [H1 H2]. split; [|done]. unfold on_peer. cbn. by rewrite E. Qed.
Lemma retiring_callback cb s : retiring s -> retiring (on_callback s cb).
Proof.
  intros H. pose proof H as [Hd Hn]. destruct cb as [ok bidi sid now t1 t2|k t1 t2|k t1 t2|v ok now sent|t1 t2|t1 t2]; cbn [on_callback].
  - unfold m_create. rewrite Hd, orb_true_r. done.
  - unfold m_close. destruct (get_flow k s) as [f|] eqn:E; [|done]. destruct (_ || _); [done|]. rewrite Hd. cbn [orb]. by apply (retiring_put f _ k).
  - unfold m_reset. destruct (get_flow k s) as [f|] eqn:E; [|done]. rewrite Hd, orb_true_r. done.
  - unfold udp_datagram. cbv zeta. rewrite Hd. cbn [negb]. rewrite andb_false_r. done.
  - destruct (negb _); [done|]. cbv zeta. cbn. rewrite Hd. done.
  - rewrite Hd. cbn [negb]. rewrite andb_false_r. done.
Qed.
Lemma retiring_xquic cs s : retiring s -> retiring (xquic cs s).
Proof.
  unfold xquic. revert s. induction cs as [|c cs IH]; intros s H; [done|]. cbn [fold_left]. apply IH. pose proof H as [Hd Hn]. destruct c as [cb| |b| |a|now after]; cbn [on_engine].
  - by apply retiring_callback.
  - unfold accept_conn. rewrite Hd, orb_true_r. done.
  - by destruct b.
  - done.
  - unfold ob_peer_handshake. cbv zeta. rewrite Hd, orb_true_r. done.
  - by apply retiring_peer.
Qed.

(** ** Every step *)

#[local] Abbreviation step := (step connection_proof).
#[local] Abbreviation table_inv := (table_inv connection_proof).
#[local] Abbreviation verified := (verified connection_proof).
Lemma step_on_peer g s : peer_keeps (mp_peer s) (g (mp_peer s)) -> step s (on_peer g s).
Proof. apply step_peer. Qed.
Lemma step_ob_handshake a s : step s (ob_peer_handshake a s).
Proof.
  unfold ob_peer_handshake. cbv zeta. destruct (_ || _); [apply step_refl|]. destruct (negb (ob_connection_encrypted _)); [apply step_on_peer, fail_keeps|].
  destruct (_ && _); [apply step_on_peer, fail_keeps|]. eapply step_trans; [|apply step_handshake]. by apply step_on_peer.
Qed.
Lemma step_engine c s : step s (on_engine s c).
Proof.
  destruct c as [cb| |b| |a|now after]; cbn [on_engine].
  - apply step_callback.
  - unfold accept_conn. destruct (_ || _); [apply step_refl|by apply step_view].
  - destruct b; [by apply step_view|apply step_refl].
  - by apply step_view.
  - apply step_ob_handshake.
  - by apply step_on_peer.
Qed.
Lemma step_xquic cs s : step s (xquic cs s).
Proof. unfold xquic. revert s. induction cs as [|c cs IH]; intros s; [apply step_refl|]. cbn [fold_left]. eapply step_trans; [apply step_engine|apply IH]. Qed.
Lemma step_abandon a e : step (en_table e) (abandon a e).
Proof.
  unfold abandon. cbv zeta.
  assert (H : forall (c : bool) code m s, step s (if c then fail_transport (ra_t1 a) (ra_t2 a) code m s else s)) by (intros [] ? ? ?; [apply step_fail_transport|apply step_refl]).
  eapply step_trans; [apply H|]. eapply step_trans; [apply H|]. apply H.
Qed.
Lemma step_packets a q s : step s (process_packets a q s).
Proof.
  unfold process_packets. revert s. induction q as [|v q IH]; intros s; [apply step_refl|]. cbn [fold_left]. eapply step_trans; [|apply IH].
  destruct (stopped s); [apply step_refl|apply step_xquic].
Qed.
Lemma step_turn a s : step s (transport_turn a s).
Proof.
  unfold transport_turn. destruct (stopped s); [apply step_refl|]. cbv zeta. set (s1 := xquic (ra_finish a) s). apply (step_trans _ s s1); [apply step_xquic|]. clearbody s1.
  set (s2 := if attempt_stop (mp_peer s1) then s1 else _). apply (step_trans _ s1 s2); [unfold s2; destruct (attempt_stop _); [apply step_refl|apply step_mapping_tick]|]. clearbody s2.
  set (s3 := keep_alive a s2). apply (step_trans _ s2 s3).
  { unfold s3, keep_alive. cbv zeta. destruct (_ && _); [|apply step_refl]. eapply step_trans; [apply step_xquic|by apply step_on_peer]. }
  clearbody s3. set (s4 := if attempt_stop (mp_peer s3) then s3 else _).
  apply (step_trans _ s3 s4); [unfold s4; destruct (attempt_stop _); [apply step_refl|apply step_xquic]|]. clearbody s4.
  destruct (_ && _); [apply step_xquic|apply step_refl].
Qed.

(** What holds between the steps. *)
Record engine_inv (e : engine) : Prop := {
  ei_table : table_inv (en_table e);
  ei_ready : ready (en_peer e) = true -> verified (en_table e);
  ei_detached : transport_detached (en_peer e) = true -> en_engine e = false;
  ei_idle : en_engine e = false -> idle (en_table e);
  ei_queue : zlen (en_queue e) <= OB_PACKET_LIMIT /\ Forall (fun v => 0 < zlen v <= OB_PACKET_SIZE) (en_queue e) }.
(** A step of the table with the transport as it is. *)
Lemma inv_step e s : engine_inv e -> step (en_table e) s -> (en_engine e = false -> calm (en_table e) s) -> engine_inv (e <| en_table := s |>).
Proof.
  intros [I1 I2 I3 I4 I5] Hs Hc. destruct (Hs I1) as [J M]. constructor; try done.
  - intros H. change (ready (mp_peer s) = true) in H. destruct (mo_ready _ _ _ M H) as [Hr|Hv]; [|done]. apply (verified_mono _ _ _ M). auto.
  - change (transport_detached (mp_peer s) = true -> en_engine e = false). rewrite (mo_detached _ _ _ M). exact I3.
  - intros He. change (idle s). apply Hc; auto.
Qed.
Lemma inv_on_peer e g : engine_inv e -> peer_keeps (en_peer e) (g (en_peer e)) -> engine_inv (e <| en_table ::= on_peer g |>).
Proof. intros I H. apply (inv_step e (on_peer g (en_table e)) I); [by apply step_on_peer|]. intros _. by apply calm_same. Qed.
Lemma inv_queue e q : engine_inv e -> zlen q <= OB_PACKET_LIMIT -> Forall (fun v => 0 < zlen v <= OB_PACKET_SIZE) q -> engine_inv (e <| en_queue := q |>).
Proof. intros [I1 I2 I3 I4 I5] H1 H2. by constructor. Qed.
(** Taking the QUIC engine away. *)
Lemma inv_detached e s g : engine_inv e -> step (en_table e) s -> no_proof s ->
  session_of (g (mp_peer s)) = session_of (mp_peer s) -> is_server (g (mp_peer s)) = is_server (mp_peer s) -> max_flows (g (mp_peer s)) = max_flows (mp_peer s) ->
  (ready (g (mp_peer s)) = true -> ready (mp_peer s) = true) ->
  engine_inv (e <| en_engine := false |> <| en_table := on_peer g (s <| mp_conn := false |>) |>).
Proof.
  intros [I1 I2 I3 I4 I5] Hs Hn G1 G2 G3 G4. destruct (Hs I1) as [J M].
  assert (Hv : verified s -> verified (on_peer g (s <| mp_conn := false |>))) by (intros (x & H1 & H2); exists x; split; [done|]; cbn; by rewrite G1, G2).
  constructor; try done.
  - destruct J as [J1 J2 J3 J4 J5 J6 J7].
    constructor; try done; [unfold limit_of in *; cbn; by rewrite G3|unfold limit_of in *; cbn; by rewrite G3|].
    eapply Forall_impl; [|exact J7]. intros f [F1 F2 F3]. constructor; [done| |auto]. unfold id_ok. cbn. rewrite G2. exact F2.
  - intros H. apply Hv. destruct (mo_ready _ _ _ M (G4 H)) as [Hr|?]; [|done]. apply (verified_mono _ _ _ M). auto.
Qed.
Lemma inv_detach now closing e : engine_inv e -> engine_inv (transport_detach now closing e).
Proof.
  intros I. unfold transport_detach. cbv zeta. set (s0 := on_peer _ (en_table e)). set (s1 := ob_mapping_transport_suspend _ _ _ _ s0).
  assert (S0 : step (en_table e) s0) by (by apply step_on_peer). assert (S1 : step s0 s1) by apply step_suspend.
  destruct (suspend_no_proof now (wire_version (mp_peer s0) =? 2) (recovery_deadline_us (mp_peer s0)) s0) as [D1 N1]. fold s1 in D1, N1.
  assert (R1 : retiring s1) by (split; [by rewrite D1|done]). clearbody s1.
  set (s2 := if en_engine e then xquic closing s1 else s1).
  assert (H2 : step s1 s2 /\ retiring s2) by (unfold s2; destruct (en_engine e); [split; [apply step_xquic|by apply retiring_xquic]|split; [apply step_refl|done]]).
  clearbody s2. destruct H2 as [S2 [_ N2]].
  apply (inv_detached e s2 (fun p => p <| next_timer_us := 0 |> <| ready := false |> <| tls_ready := false |> <| proof_ready := false |>
    <| transport_detaching := false |> <| transport_detached := true |>)); try done.
  eapply step_trans; [exact S0|]. eapply step_trans; [exact S1|exact S2].
Qed.
Lemma inv_exit g closing e : stop (en_peer e) = true -> engine_inv e -> engine_inv (worker_exit g closing e).
Proof.
  intros Hst I. unfold worker_exit. cbv zeta. unfold ob_mapping_tick. change (mp_peer (en_table e)) with (en_peer e). rewrite Hst.
  set (s0 := m_stop_io _ _). assert (S0 : step (en_table e) s0) by apply step_stop_io. assert (N0 : no_proof s0) by apply stop_io_no_proof. clearbody s0.
  set (s1 := on_peer _ s0). assert (S1 : step s0 s1) by (by apply step_on_peer). assert (R1 : retiring s1) by done.
  set (s2 := if en_engine e then xquic closing s1 else s1).
  assert (H2 : step s1 s2 /\ retiring s2) by (unfold s2; destruct (en_engine e); [split; [apply step_xquic|by apply retiring_xquic]|split; [apply step_refl|done]]).
  clearbody s2. destruct H2 as [S2 [_ N2]]. apply (inv_detached e s2 (fun p => p <| transport_detached := true |> <| transport_detaching := false |>)); try done.
  eapply step_trans; [exact S0|]. eapply step_trans; [exact S1|exact S2].
Qed.
(** The beginning of a transport. *)
Lemma inv_attach e : engine_inv e -> en_engine e = false -> engine_inv (e <| en_table ::= on_peer (fun p => p <| transport_detached := false |>) |>).
Proof.
  intros [I1 I2 I3 I4 I5] He. destruct I1 as [J1 J2 J3 J4 J5 J6 J7]. constructor; try done. constructor; try done.
  eapply Forall_impl; [|exact J7]. intros f [F1 F2 F3]. by constructor.
Qed.
Lemma inv_init a e : engine_inv e -> transport_detached (en_peer e) = false -> en_engine e = false -> engine_inv (engine_init a e).2.
Proof.
  intros I Hd He. unfold engine_init. destruct (negb (ia_config a)); [done|]. cbv zeta.
  assert (I1 : engine_inv (e <| en_engine := ia_create a |>)).
  { destruct I as [I1 I2 I3 I4 I5]. constructor; try done; [by change (transport_detached (en_peer e) = true -> ia_create a = false); rewrite Hd|].
    intros _. by apply I4. }
  destruct (ia_create a); [|done]. cbn [negb]. clear I. set (e1 := e <| en_engine := true |>) in *. assert (Hc : en_engine e1 = true) by done. clearbody e1.
  destruct (negb (ia_alpn a)); [done|]. match goal with |- context [on_peer ?g] => set (h := g) end.
  assert (I2 : engine_inv (e1 <| en_table ::= on_peer h |>)) by (by apply inv_on_peer). set (e2 := e1 <| en_table ::= on_peer h |>) in *.
  change (en_engine e2 = true) in Hc. clearbody e2. clear I1 e1. destruct (is_server _); [done|].
  assert (I3 : engine_inv (e2 <| en_table ::= xquic (ia_connect a) |>)) by (apply (inv_step e2); [done|apply step_xquic|by rewrite Hc]).
  set (e3 := e2 <| en_table ::= xquic (ia_connect a) |>) in *. change (en_engine e3 = true) in Hc. clearbody e3.
  destruct (negb (ia_cid a)); [done|]. cbn [snd]. apply (inv_step e3 (en_table e3 <| mp_conn := ia_conn a |>)); [done|by apply step_view|by rewrite Hc].
Qed.
Lemma inv_round a e : engine_inv e -> engine_inv (worker_round a e).
Proof.
  intros I. unfold worker_round.
  assert (I0 : engine_inv (if is_server (en_peer e) && ra_broker_stop a then e <| en_table ::= fail_handle OB_REMOTE_ECLOSED "Broker stopped or revoked" |> else e)).
  { destruct (_ && _); [|done]. by apply inv_on_peer; [|apply fail_keeps]. }
  generalize dependent (if is_server (en_peer e) && ra_broker_stop a then e <| en_table ::= fail_handle OB_REMOTE_ECLOSED "Broker stopped or revoked" |> else e).
  clear e I. intros e I. cbv zeta. destruct (_ || _).
  { assert (I1 : engine_inv (if transport_detached (en_peer e) then e else transport_detach (ra_suspend a) (ra_closing a) e)) by (destruct (transport_detached _); [done|by apply inv_detach]).
    generalize dependent (if transport_detached (en_peer e) then e else transport_detach (ra_suspend a) (ra_closing a) e). clear e I. intros e I.
    apply (inv_step e); [done|apply step_recovery_tick|]. intros _. apply calm_recovery_tick. }
  destruct (en_engine e) eqn:He; cbn [negb].
  - set (s := transport_turn a _). assert (S : step (en_table e) s).
    { unfold s. eapply step_trans; [apply step_abandon|]. eapply step_trans; [apply step_packets|apply step_turn]. }
    clearbody s. assert (I1 : engine_inv (e <| en_queue := [] |> <| en_table := s |>)).
    { apply (inv_step (e <| en_queue := [] |>)); [by apply inv_queue|done|]. change (en_engine (e <| en_queue := [] |>)) with (en_engine e). by rewrite He. }
    destruct (_ && _); [by apply inv_detach|done].
  - pose proof (inv_init (ra_init a) _ (inv_attach e I He) eq_refl He) as H. destruct (engine_init _ _) as [ok e1]. cbn [snd] in H.
    destruct ok; [done|]. apply (inv_step e1); [done|apply step_fail_transport|]. intros _. by apply calm_same.
Qed.
Lemma inv_others p' e : engine_inv e -> others (en_peer e) p' -> engine_inv (e <| en_table ::= set_peer p' |>).
Proof.
  intros [I1 I2 I3 I4 I5] [O1 O2 O3 O4 O5]. change (e <| en_table ::= set_peer p' |>) with (e <| en_table := set_peer p' (en_table e) |>). unfold set_peer. set (s := en_table e) in *. change (en_peer e) with (mp_peer s) in *. case_bool_decide as Hsame.
  - assert (Hv : verified s -> verified (s <| mp_received ::= fun l => l |> <| mp_peer := p' |>)) by (intros (x & H1 & H2); exists x; split; [done|]; cbn; by rewrite Hsame, O1).
    destruct I1 as [J1 J2 J3 J4 J5 J6 J7]. constructor; try done; [|intros H; apply Hv, I2, O3, H|auto..]. constructor; try done.
    + change (zlen (mp_flows s) <= 2 * m_limit (max_flows p') 128 M_FLOWS + 2). by rewrite O2.
    + change (m_data_flow_count s <= m_limit (max_flows p') 128 M_FLOWS). by rewrite O2.
    + eapply Forall_impl; [|exact J7]. intros f [F1 F2 F3]. constructor; [done| |auto]. unfold id_ok. cbn. rewrite O1. exact F2.
  - destruct O5 as [O5|[Hd Hr]]; [done|]. specialize (I3 Hd). destruct (I4 I3) as [Hc Hn]. destruct I1 as [J1 J2 J3 J4 J5 J6 J7].
    constructor; try done; [|change (ready p' = true -> verified (s <| mp_received ::= fun _ => [] |> <| mp_peer := p' |>)); by rewrite Hr]. constructor; try done.
    + change (zlen (mp_flows s) <= 2 * m_limit (max_flows p') 128 M_FLOWS + 2). by rewrite O2.
    + change (m_data_flow_count s <= m_limit (max_flows p') 128 M_FLOWS). by rewrite O2.
    + change (Forall (flow_ok connection_proof (s <| mp_received ::= fun _ => [] |> <| mp_peer := p' |>)) (mp_flows s)). rewrite Forall_forall in J7 |- *. intros f Hf. destruct (J7 f Hf) as [F1 F2 F3].
      constructor; [done| |]; [unfold id_ok; cbn; rewrite O1; exact F2|]. intros Hp Hl _. destruct Hl. apply Hn; [by apply list_elem_of_In|done].
Qed.
Lemma inv_cleanup e : engine_inv e -> engine_inv (e <| en_queue := [] |> <| en_table ::= ob_mapping_cleanup |>).
Proof.
  intros [I1 I2 I3 I4 I5]. destruct I1 as [J1 J2 J3 J4 J5 J6 J7]. constructor; try done.
  - constructor; try done; [by constructor|..].
    + change (0 <= 2 * limit_of (en_table e) + 2). pose proof (Zle_0_nat (length (mp_flows (en_table e)))). unfold zlen in J4. lia.
    + change (0 <= limit_of (en_table e)). unfold m_data_flow_count, zlen in J5. lia.
    + constructor.
  - intros He. destruct (I4 He) as [H1 _]. split; [done|]. intros f Hf. by apply not_elem_of_nil in Hf.
Qed.
Lemma inv_receive current ok bytes e : engine_inv e -> engine_inv (ice_receive current ok bytes e).
Proof.
  intros I. unfold ice_receive. destruct (_ || _) eqn:E; [done|]. destruct (negb ok); [done|]. destruct (_ <=? _) eqn:El; [done|].
  apply orb_false_iff in E as [E E0]. apply orb_false_iff in E as [_ E1]. apply Z.leb_gt in El. apply Z.eqb_neq in E0. apply Z.ltb_ge in E1.
  destruct (ei_queue e I) as [Q1 Q2]. apply (inv_queue e (en_queue e ++ [bytes])); [done| |].
  - rewrite zlen_app. change (zlen [bytes]) with 1. lia.
  - apply Forall_app. split; [done|]. constructor; [|constructor]. pose proof (zlen_nonneg bytes). lia.
Qed.
Lemma inv_view e s : engine_inv e -> view s = view (en_table e) -> mp_conn s = mp_conn (en_table e) -> engine_inv (e <| en_table := s |>).
Proof. intros I V Hc. apply (inv_step e s I); [by apply step_view|]. intros _. apply calm_same; [done|]. unfold view in V. by injection V. Qed.
Lemma inv_engine_step e e' : engine_step e e' -> engine_inv e -> engine_inv e'.
Proof.
  intros H I. destruct H as [a e H|g closing e H|current st e|current e|current ok bytes e|agent e|e H|a host port protocol e|k e|e|i result address e|p' e H|e H1 H2].
  - by apply inv_round.
  - by apply inv_exit.
  - unfold ice_state. destruct (ice_ignored _ _); [done|]. cbv zeta. set (h := fun p => p <| ice_ready := _ |>).
    assert (I1 : engine_inv (e <| en_table ::= on_peer h |>)) by (apply inv_on_peer; [done|by constructor]). set (e1 := e <| en_table ::= on_peer h |>) in *. clearbody e1.
    destruct (bool_decide (st = JUICE_FAILED)); [|done]. apply inv_on_peer; [done|by constructor].
  - unfold ice_gathered. destruct (ice_ignored _ _); [done|]. by apply inv_on_peer.
  - by apply inv_receive.
  - destruct I as [I1 I2 I3 I4 I5]. by constructor.
  - apply (inv_queue (e <| en_ice := false |>)); [|by vm_compute|constructor]. destruct I as [I1 I2 I3 I4 I5]. by constructor.
  - apply (inv_step e); [done|apply step_portmap|]. intros _. unfold m_portmap. cbv zeta.
    repeat match goal with |- calm _ (match ?x with _ => _ end).2 => destruct x end; try apply calm_refl. by apply calm_same.
  - apply (inv_step e); [done|apply step_map_close|]. intros _ [H1 H2]. split; [done|]. intros f Hf. unfold ob_remote_map_close in Hf. cbn in Hf.
    apply list_elem_of_In, in_map_iff in Hf as (g & <- & Hg). apply list_elem_of_In in Hg. destruct (bool_decide _); by apply (H2 g).
  - by apply inv_view.
  - by apply inv_view.
  - by apply inv_others.
  - by apply inv_cleanup.
Qed.
End engine.
