(* ===== verification/PeerLife.v ===== *)
(** * The life of a peer

    The engine with the coordinator and the setup worker: what those threads do to the handle
    (Coordinator.v, Control.v) is what the engine's steps allow, and what holds of the flow table
    and of the peer's authentication in every reachable state. *)

From S2P Require Import Prelude Json Peer PeerCrypto Coordinator Ws Control MapUdp MapFlow MapV2 MapTable MapGuard MapEngine.

(** ** The other threads *)

(** What neither the coordinator nor the setup worker changes. *)
Definition role (p : ob_remote_peer) := (is_server p, max_flows p, ready p).
Lemma role_others p q : role q = role p -> transport_detached p = true -> ready p = false -> others p q.
Proof. unfold role. intros [= E1 E2 E3] Hd Hr. constructor; try done; [congruence|]. right. split; [done|congruence]. Qed.
Lemma keeps_others p q : peer_keeps p q -> others p q.
Proof. intros [K1 K2 K3 K4 K5]. constructor; try done; [by rewrite K4|by left]. Qed.

Lemma reset_others now p : transport_detached p = true -> others p (reset_attempt now p).
Proof.
  intros Hd. unfold reset_attempt. cbv zeta. destruct (negb _ && _); [destruct (_ <? _)|]; destruct (is_server _); constructor; try done; by right.
Qed.
Lemma schedule_round_role now manual p : match schedule_round now manual p with Stopped => True | Start q | Wait _ q => role q = role p end.
Proof.
  unfold schedule_round. destruct (stop p); [done|]. assert (H : role (take_request now manual p).2 = role p) by (unfold take_request; by destruct (requested _)).
  destruct (take_request now manual p) as [m q]. cbn [snd] in H. rewrite <- H. destruct (exhausted now m q); [unfold enter; by case_bool_decide|].
  destruct (_ || _); [done|unfold enter; by case_bool_decide].
Qed.
Lemma server_session_role now p : match server_session_round now p with (Some (_, q), _) => role q = role p | (None, q) => role q = role p end.
Proof. unfold server_session_round. destruct (pending_session_id p), (stop p); try done. by case_bool_decide. Qed.
Lemma open_session_role env p : role (open_session env p).1.2 = role p.
Proof.
  unfold open_session. set (p0 := p <| control_retryable := false |>). change (role p) with (role p0).
  assert (match discover env p0 with inl _ => True | inr p1 => role p1 = role p0 end) as H1.
  { unfold discover. destruct (control_discovered p0); [done|]. destruct (status_answer env).1; [by destruct (_ =? _)|]. by case_bool_decide. }
  destruct (discover env p0) as [e|p1]; [done|]. rewrite <- H1. clear H1.
  assert (role (propose env p1).2 = role p1) as H2.
  { unfold propose. destruct (negb _); [done|]. destruct (if _ =? _ then _ else _); [|done]. cbv zeta.
    destruct (request_pending _); [done|]. destruct (uuid _); [|done]. by destruct (random_token env). }
  destruct (propose env p1) as [e p2]. cbn [snd] in H2. rewrite <- H2. clear H2.
  destruct e; [done|]. destruct (negb _); [done|]. destruct (transact env p2) as [a lg]. destruct a.1 as [e|].
  - cbn [fst snd]. unfold rejected. destruct (_ && _); [|done]. destruct (integer _ _); [|done]. by destruct (_ <=? _).
  - cbn [fst snd]. unfold granted. destruct (_ || _); [done|]. destruct (negb _); [done|]. cbn [snd]. by destruct (control_managed _).
Qed.
Lemma send_signal_role hmac ok rpc type payload auth p : role (send_signal hmac ok rpc type payload auth p).1.2 = role p.
Proof.
  unfold send_signal. destruct (signal_envelope _ _ _ _ _); [done|]. destruct (negb ok); [done|]. destruct (rpc _) as [rc err]. destruct (rc =? 0); [done|].
  cbn [fst snd]. by destruct (truth (result p)).
Qed.
Lemma receive_signal_role parse hmac rounds type auth p rc out q : receive_signal parse hmac rounds type auth p = Some (rc, out, q) -> role q = role p.
Proof.
  revert p. induction rounds as [|r rounds IH]; intros p; [done|]. cbn [receive_signal]. destruct r as [|r| |sequence data ok ack]; try (by intros [= _ _ <-]); [apply IH|].
  destruct (QArith_base.Qle_bool _ _); [apply IH|]. destruct (ob_decode_signal _ _ _ _ _ _ _ p) as [[rc' out'] q'] eqn:E. assert (role q' = role p) as Hq.
  { revert E. unfold ob_decode_signal. destruct (_ <=? _); [by intros [= _ _ <-]|]. cbv zeta.
    destruct data as [d|]; [|by intros [= _ _ <-]]. destruct (if zlen d <=? 16384 then _ else _); [|by intros [= _ _ <-]].
    destruct (negb _); [by intros [= _ _ <-]|]. destruct (_ && _); [by intros [= _ _ <-]|]. destruct (negb ok); by intros [= _ _ <-]. }
  destruct (_ && _); by intros [= _ _ <-].
Qed.
Lemma derive_role sha hkdf p a b q : ob_derive_keys sha hkdf p a b = Some q -> role q = role p.
Proof. unfold ob_derive_keys. destruct (hkdf _ _ _ _); [|done]. by intros [= <-]. Qed.
Lemma pake_finish_role hkdf rc p : role (pake_finish hkdf rc p).2 = role p.
Proof. unfold pake_finish, ob_resume_key_derive. destruct (rc =? 0); [|done]. destruct (_ || _); [done|]. destruct (hkdf _ _ _ _); [|done]. cbn. by destruct (resume_key_set _). Qed.
Lemma pake_role parse sha hmac hkdf env p rc q : pake parse sha hmac hkdf env p = Some (rc, q) -> role q = role p.
Proof.
  unfold pake. destruct (k_mine env) as [mine|]; [|by intros [= _ <-]]. destruct (negb _); [by intros [= _ <-]|].
  pose proof (send_signal_role hmac true (k_rpc env 0) (lit "pake") (ob_hex mine) false p) as H1. destruct (send_signal _ _ _ _ _ _ p) as [[r1 p1] l1]. cbn [fst snd] in H1.
  destruct (truth r1); [by intros [= _ <-]|]. destruct (receive_signal _ _ _ _ _ p1) as [[[r2 remote] p2]|] eqn:E2; [|done]. apply receive_signal_role in E2. rewrite H1 in E2.
  destruct (truth r2); [by intros [= _ <-]|]. destruct (ob_unhex _ _) as [theirs|]; [|by intros [= _ <-]]. destruct (k_process env theirs) as [key|]; [|by intros [= _ <-]]. cbv zeta.
  destruct (negb _); [by intros [= _ <-]|]. destruct (ob_derive_keys _ _ _ _ _) as [p3|] eqn:E3; [|by intros [= _ <-]].
  apply derive_role in E3. change (role (p2 <| shared := key |>)) with (role p2) in E3.
  pose proof (send_signal_role hmac true (k_rpc env 1) (lit "confirm") confirmation true p3) as H4. destruct (send_signal _ _ _ _ _ _ p3) as [[r4 p4] l4]. cbn [fst snd] in H4.
  destruct (truth r4); [intros [= _ <-]; congruence|]. destruct (receive_signal _ _ _ _ _ p4) as [[[r5 remote5] p5]|] eqn:E5; [|done]. apply receive_signal_role in E5.
  match goal with |- Some (pake_finish hkdf ?r p5) = _ -> _ => pose proof (pake_finish_role hkdf r p5) as H6; destruct (pake_finish hkdf r p5) as [r6 p6] end.
  cbn [snd] in H6. intros [= _ <-]. congruence.
Qed.
Lemma ice_answer_role sha hmac p remote rc q install : ice_answer sha hmac p remote = (rc, q, install) -> role q = role p.
Proof.
  unfold ice_answer. cbv zeta. set (rc0 := match (match remote with Some j => get_item j (lit "mapping_version") | None => None end) with None => 0 | Some v => _ end).
  set (q0 := if (rc0 =? 0) && _ && _ then _ else _). assert (role q0 = role p) as Hq0.
  { subst q0. destruct (_ && _); [|done]. destruct (ob_resume_proof _ _ _ _); [|done]. destruct (ob_unhex _ _); [|done]. by destruct (list_eqb _ _). }
  clearbody q0. destruct (match remote with Some j => str j (lit "sdp") | None => None end) as [sdp|]; [|by intros [= _ <- _]].
  destruct (_ <=? _); [by intros [= _ <- _]|]. destruct (truth rc0); [by intros [= _ <- _]|].
  destruct (if is_server q0 then Some q0 else _) as [q1|] eqn:Ep; [|by intros [= _ <- _]].
  assert (role q1 = role p) as Hq1 by (destruct (is_server q0); [congruence|]; destruct (ob_unhex _ 32); [|done]; by injection Ep as <-).
  destruct (_ =? _); [destruct (ob_filter_relay_description sdp)|]; by intros [= _ <- _].
Qed.
Lemma establish_role parse printer sha hmac env p rc q trace : establish_ice parse printer sha hmac env p = Some (rc, q, trace) -> role q = role p.
Proof.
  unfold establish_ice. assert (H1 : role (ice_approve env p).2 = role p).
  { unfold ice_approve. destruct (negb _); [done|]. destruct (i_approve env _) as [r e]. destruct (truth _); [done|]. by destruct (i_certificate env). }
  destruct (ice_approve env p) as [r1 p1]. cbn [snd] in H1. destruct (truth r1); [by intros [= _ <- _]|]. destruct (truth (i_capabilities env)); [by intros [= _ <- _]|].
  destruct (ice_turn env p1); [by intros [= _ <- _]|]. cbv zeta. destruct (negb (i_created env)); [by intros [= _ <- _]|].
  destruct (truth (i_tick1 env)); [by intros [= _ <- _]|]. destruct (negb (i_gathered env)); [by intros [= _ <- _]|].
  destruct (local_description env p1) as [sdp|]; [|by intros [= _ <- _]]. destruct (ice_body sha hmac p1 sdp) as [body|]; [|by intros [= _ <- _]].
  destruct (printer body) as [payload|]; [|by intros [= _ <- _]].
  pose proof (send_signal_role hmac true (i_rpc env) (lit "ice") payload true p1) as H2. destruct (send_signal _ _ _ _ _ _ p1) as [[r3 p3] log]. cbn [fst snd] in H2.
  rewrite H1 in H2. destruct (truth r3); [by intros [= _ <- _]|].
  destruct (receive_signal _ _ _ _ _ p3) as [[[r4 remote] p4]|] eqn:E; [|done]. apply receive_signal_role in E. rewrite H2 in E. destruct (truth r4); [by intros [= _ <- _]|].
  destruct (ice_answer sha hmac p4 _) as [[r5 p5] install] eqn:E5. apply ice_answer_role in E5. rewrite E in E5. destruct install as [sdp'|]; [|by intros [= _ <- _]].
  destruct (negb _); [by intros [= _ <- _]|]. destruct (truth (i_tick2 env)); [by intros [= _ <- _]|]. destruct (negb (i_connected env)); [by intros [= _ <- _]|].
  intros [= _ <- _]. by destruct (_ || _).
Qed.

(** ** Every reachable state *)

Section life.
Context (sizeof_packet : Z) (connection_proof : session -> bool -> option (list Z)).
(** Everything that can happen to a peer from its creation on. *)
Inductive reachable (p : ob_remote_peer) : engine -> Prop :=
| r_new : reachable p (new_engine p)
| r_step e e' : reachable p e -> engine_step sizeof_packet connection_proof e e' -> reachable p e'.
Lemma reachable_inv p e : ready p = false -> 0 <= max_flows p -> reachable p e -> engine_inv connection_proof e.
Proof.
  intros Hr Hm. induction 1 as [|e e' H IH Hs]; [|by apply (inv_engine_step sizeof_packet connection_proof e)]. constructor; cbn; try done; [|by change (ready p = true -> verified connection_proof (new_mpeer p)); rewrite Hr|..].
  - assert (0 <= limit_of (new_mpeer p)) by (unfold limit_of, m_limit; cbn; destruct (truth _); [destruct (_ <? _)|]; unfold M_FLOWS; lia).
    constructor; cbn; try constructor; try done; unfold UINT64_MAX, zlen; cbn; lia.
  - intros _. split; [done|]. intros f Hf. by apply not_elem_of_nil in Hf.
Qed.
End life.

(** A client's first transport: the handle gets its session, the engine starts, the handshake
    completes and the two proofs are exchanged. *)
Definition toy_proof (c : session) (server : bool) : option (list Z) := Some (repeat (b2z server) 32).
Definition no_open : open_answers := OpenAnswers true (Took 4096 false) SendAgain 10 0 0 [].
Definition no_target : target_answers := TargetAnswers 0 true true true true 0.
Definition no_control : control_answers := ControlAnswers 10 0 0 no_target (fun _ => no_open).
Definition reads (input : list Z) (rs : list recv_answer) : flow_answers := FlowAnswers no_control rs input SendAgain SendAgain [].
Definition no_tick : tick_answers := TickAnswers false false false SockAgain true SockNothing [].
Definition quiet (input : list Z) (rs : list recv_answer) : turn_answers :=
  TurnAnswers no_control None SendAgain SendAgain [] (reads input rs) no_tick [] [].
Definition mapping (turns : nat -> turn_answers) : mapping_answers :=
  MappingAnswers 10 10 true (fun _ => MapAnswers [] false) (fun _ => MapAnswers [] false) turns (fun _ => ([], [])).
Definition one_round (finish : list ecallback) (turns : nat -> turn_answers) : round_answers :=
  RoundAnswers 10 0 0 0 false None (InitAnswers true true true true true []) (mapping turns) (fun _ => []) finish [] [] [] [].
Definition connecting : ob_remote_peer :=
  sample_peer <| transport_generation := 1 |> <| session_id := Some (lit "s") |> <| fingerprint := repeat 7 32 |>
    <| transport_available := true |> <| transport_detached := false |> <| ice_ready := true |>.
Definition shake : ecallback := EcHandshake (HandshakeAnswers true (Some (Some [1; 1; 0])) (Some (repeat 7 32)) true true no_open).
Definition life1 : engine := new_engine sample_peer <| en_table ::= set_peer connecting |>.
Definition life2 : engine := worker_round 0 toy_proof (one_round [] (fun _ => quiet [] [])) life1.
Definition life3 : engine :=
  worker_round 0 toy_proof (one_round [shake] (fun _ => quiet (proof_frame (repeat 1 32)) [Get 16 false; Get 32 false])) life2.
Definition life4 : engine :=
  life3 <| en_table ::= fun s => (m_portmap (PortmapAnswers (Some false) true true true true (Some 9000)) (Some (lit "db")) 5432 OB_REMOTE_TCP s).2 |>.
Definition caller : map_input := MapConn true (LocalAnswers true true true no_open).
Definition life5 : engine :=
  worker_round 0 toy_proof
    (RoundAnswers 10 0 0 0 false None (InitAnswers true true true true true [])
       (MappingAnswers 10 10 true (fun _ => MapAnswers [] false) (fun _ => MapAnswers [caller; caller] false) (fun _ => quiet [] []) (fun _ => ([], [])))
       (fun _ => []) [] [] [] [] []) life4.
Lemma life_connecting : others sample_peer connecting.
Proof. constructor; try done. by right. Qed.
Lemma life3_reachable : reachable 0 toy_proof sample_peer life3.
Proof.
  apply (r_step _ _ _ life2); [|by apply (es_round 0 toy_proof)]. apply (r_step _ _ _ life1); [|by apply (es_round 0 toy_proof)].
  apply (r_step _ _ _ (new_engine sample_peer)); [apply r_new|]. apply (es_others 0 toy_proof connecting (new_engine sample_peer)), life_connecting.
Qed.
Lemma life5_reachable : reachable 0 toy_proof sample_peer life5.
Proof.
  apply (r_step _ _ _ life4); [|by apply (es_round 0 toy_proof)]. apply (r_step _ _ _ life3); [apply life3_reachable|]. apply es_portmap.
Qed.

(** C6: in every state a peer can reach, whatever its transports, the other side, the caller, the
    resolver and libjuice do: no two live data flows have the same identifier; there are at most
    as many of them as configured, and at most twice that and two flow records in all; an
    identifier is odd exactly when the client's side opened the flow, so the identifiers of the
    two sides never meet; and the queue of received packets stays within its limits. *)
Theorem flow_table_sound sp proof p e :
  ready p = false -> 0 <= max_flows p -> reachable sp proof p e ->
  let s := en_table e in
  let live := List.filter data_flow (mp_flows s) in
  NoDup (map f_id live) /\ zlen live <= limit_of s /\ zlen (mp_flows s) <= 2 * limit_of s + 2 /\
  Forall (fun f => f_id f <> 0 /\ Z.land (f_id f) 1 = b2z (Bool.eqb (f_local f) (negb (is_server (mp_peer s))))) live /\
  zlen (en_queue e) <= OB_PACKET_LIMIT /\ Forall (fun v => 0 < zlen v <= OB_PACKET_SIZE) (en_queue e).
Proof.
  intros Hr Hm He. destruct (reachable_inv sp proof p e Hr Hm He) as [[J1 J2 J3 J4 J5 J6 J7] _ _ _ [Q1 Q2]].
  split_and!; try done. rewrite Forall_forall in J7 |- *. intros f Hf. apply filter_In in Hf as [Hin Hd].
  destruct (J7 f Hin) as [_ Hid _]. specialize (Hid Hd). rewrite (id_parity _ _ Hid). unfold id_ok in Hid. split.
  - destruct (f_local f); [destruct Hid as (n & Hn & ->); destruct (is_server _); cbn; lia|apply Hid].
  - destruct (f_local f), (is_server _); done.
Qed.
Lemma flow_table_sound_witness :
  map f_id (List.filter data_flow (mp_flows (en_table life5))) = [7; 5] /\
  NoDup (map f_id (List.filter data_flow (mp_flows (en_table life5)))).
Proof.
  split; [vm_compute; reflexivity|]. apply (flow_table_sound 0 toy_proof sample_peer life5); [reflexivity|cbn; lia|apply life5_reachable].
Defined.

(** C2: a peer is ready, which every data flow and every mapping requires, only after it received
    over the current connection, for its current session, exactly the connection proof of the other
    role: both sides check each other before any traffic, on every transport and after every
    recovery, whatever the network, the other side and the other threads do. *)
Theorem ready_authenticated sp proof p e :
  ready p = false -> 0 <= max_flows p -> reachable sp proof p e -> ready (en_peer e) = true ->
  exists x, x ∈ mp_received (en_table e) /\ proof (session_of (en_peer e)) (negb (is_server (en_peer e))) = Some x.
Proof. intros Hr Hm He Hrd. exact (ei_ready _ _ (reachable_inv sp proof p e Hr Hm He) Hrd). Qed.
Lemma ready_authenticated_witness :
  ready (en_peer life3) = true /\ exists x, x ∈ mp_received (en_table life3) /\ toy_proof (session_of (en_peer life3)) (negb (is_server (en_peer life3))) = Some x.
Proof.
  split; [vm_compute; reflexivity|]. apply (ready_authenticated 0 toy_proof sample_peer life3); [reflexivity|cbn; lia|apply life3_reachable|vm_compute; reflexivity].
Defined.
